(* ===== verification/_CoqProject ===== *)
-Q . S2P
Prelude.v
ErrorModel.v
Text.v
PacketParser.v
PacketStats.v
Flow.v
Tcp.v
Capture.v
Worker.v
FileIo.v
Paths.v
CaptureWriter.v
PcapReader.v
Resource.v
Generator.v
UdpProtocol.v
Pacing.v
UdpSocket.v
HelperProtocol.v
Hosts.v
SafeApply.v
LinuxResources.v
NetworkManager.v
PlatformCommands.v
MacosNetwork.v
WindowsNetwork.v
PlatformNetwork.v
HelperServer.v
HelperService.v
Whitespace.v
ManagedHosts.v
AgentHelper.v
AgentHosts.v
AgentLink.v
Clock.v
NodeProtocol.v
Lifecycle.v
TcpEngine.v
Session.v
SessionOps.v
SessionRuns.v
SessionTotal.v
SessionInv.v
SessionSample.v
SessionCases.v
SessionRetry.v
SessionEffects.v
SessionProps.v
SpeedRun.v
Planner.v
NodeServer.v
NodeService.v
NodeClient.v
NodeLink.v
NodeScheduler.v
NodeSample.v
NodeSystem.v
Certification.v
Benchmark.v
Database.v
Migration.v
Storage.v
StorageSpec.v
StorageProps.v
StorageSample.v
DpdkPlanning.v
Identity.v
