(* ===== verification/Prelude.v ===== *)
(** * The NetTool verification library

    NetTool measures networks: it captures and analyses packets, runs speed
    tests between two nodes, and changes the network configuration of a host
    through a privileged helper. This library models the cores of these three
    parts, the code in which a mistake gives a wrong measurement, an unusable
    capture or a host that lost its network, and proves what they promise.
    Paths below are relative to [src/].

    ** Parts, files and sources

    Foundations.
    - [Prelude] (this file): outcomes of Rust functions ([Ok], [Err] and a
      [Panic] for what would abort the thread), fallible state passing for
      methods on [&mut self] ([method], [m_bind]), fixed-width integers, byte
      strings and slices, the hint database [nettool], and lemmas that the
      components share.
    - [ErrorModel]: [crates/error/src/lib.rs], the error codes and the error
      record, and the instance of outcomes with it ([res]).
    - [Text]: the string operations of the standard library on bytes (lines, split,
      trim, decimal numbers, UTF-8). [Paths]: [std::path].
    - [FileIo]: files and directories as the code uses them through [std::fs],
      on a disk where every system call may fail.

    Packet analysis, [crates/packet] and [crates/backend-pcap].
    - [PacketParser]: [parser.rs]. [PacketStats]: [lib.rs], the packet views,
      counters, filters and the confidence of an analysis. [Flow]: [flow.rs],
      flow keys and the bounded flow table. [Tcp]: [tcp.rs], the per-flow TCP
      analyzer. [Capture]: the queue between worker and writer in [capture.rs].
      [Worker]: [worker.rs], the run-to-completion loop that ties them together.
    - [CaptureWriter]: the rest of [capture.rs], the PCAP and PCAPNG encoders
      and the rotating writer. [PcapReader]: [backend-pcap/src/lib.rs], which
      reads such files back as a burst source of the worker.
    - [Generator]: [generator.rs], the frames that the packet generator sends.

    Speed tests, [crates/speed], [crates/node-protocol] and [crates/resource].
    - [Resource]: reservations of ports, queues and interfaces.
    - [UdpProtocol]: [udp.rs] and [auth.rs], headers, sequence trackers and tags.
      [Pacing]: [pacing.rs]. [UdpSocket]: [socket_udp.rs], the UDP sender and
      receiver. [TcpEngine]: [tcp.rs], the TCP sender and receiver.
    - [Lifecycle]: [session.rs], the phases of a test and its start barrier.
    - [NodeProtocol]: the control messages, their frames, negotiation, connection
      states and identity pinning of [crates/node-protocol].

    Node sessions, [crates/node/src/session.rs] and [session_prepare_*.rs].
    - [Session]: requests, sessions, validation and the authorization of data
      plane connections. [SessionOps]: every operation of the coordinator, on
      [Resource], [Lifecycle] and the configurations of the speed engines.
    - [SessionRuns]: histories of calls. [SessionInv], [SessionEffects]: the
      invariant and what each call does to it. [SessionProps], [SessionRetry]: the
      theorems. [SessionSample], [SessionCases]: concrete histories.

    Node control plane, [crates/node], [crates/speed] and [apps/agent].
    - [SpeedRun], [Planner]: the speed configuration and its plan for a peer.
      [NodeServer]: the handlers of control messages ([server.rs]). [NodeService]:
      a connection's serve loop over histories of frames. [NodeClient]: the client's
      calls. [NodeLink]: the worker hand-off between the control plane and the agent's
      scheduler, [NodeScheduler]. [SessionTotal]: no call of the coordinator panics.
    - [NodeSystem]: client, server, coordinator and scheduler composed; [NodeSample]:
      a concrete node. The coordinator's lock is taken for one call at a time, and one
      dispatched frame is one step; TLS and the opening of connections are parameters.

    Certification, planning and identity.
    - [Certification], [Benchmark]: [crates/benchmark], the ten gates and the runner.
      [DpdkPlanning]: [backend-dpdk/src/planning.rs]. [Identity]: [crates/identity], the
      node's secret over an abstract credential store.

    Host changes, [crates/helper-protocol], [crates/helper-core], [apps/helper].
    - [HelperProtocol]: the closed set of privileged operations and their
      validation, with the network data of [crates/domain/src/model.rs].
    - [SafeApply]: the Safe Apply manager of [helper-core/src/lib.rs], which rolls
      a change back unless it is confirmed, across crashes.
    - [Hosts]: [hosts.rs], the managed section of the hosts file. [LinuxResources]:
      [linux_resources.rs], drivers and huge pages with snapshots on disk.
    - [HelperServer]: [crates/helper-server], the allowlist and one exchange.
      [HelperService]: the Unix service of [apps/helper/src/main.rs], which ties all of
      them to one disk; a request that times out is a stream that fails.
    - [NetworkManager]: [linux_network_manager.rs], the Linux executor over a runner of
      [nmcli]. [PlatformCommands]: the command boundary of [platform_network.rs];
      [MacosNetwork], [WindowsNetwork]: builders and readers of the two systems;
      [PlatformNetwork]: their executor with its snapshots.

    Agent, [apps/agent/src].
    - [Whitespace]: white space and fields of UTF-8 text. [ManagedHosts]:
      [parse_managed_hosts] of [action_hosts.rs]. [AgentHosts]: the rest of that file.
      [AgentHelper]: [action_helper.rs], one call of the helper and the requests on the
      network. [AgentLink]: the agent's connections with [HelperService] at the other end.
    - [Clock]: the timestamps of [action_speed.rs].

    Storage, [crates/storage/src/lib.rs] and [migrations].
    - [Database]: the tables, one map for each, and SQLite's calls and transactions, each
      of which may fail or be the last of the process. [Migration]: [Storage::open].
    - [Storage]: every operation. [StorageSpec]: requests as steps of the tables.
      [StorageProps]: invariants, retries and histories. [StorageSample]: an example.

    ** Correspondence with the code

    A definition carries the name of the function, method or type it models
    (constructor and field names are made unique within a file where Rust scopes
    them by type). A free function that returns [Result] is an [outcome]; [?] is
    [let?]. A method on [&mut self] is a [method]: it returns the new state also
    when it fails, so partial updates before an early return are visible; its [?]
    is [let!]. Integers are [Z] with the width written at each operation
    ([wrap], [sat_add], [checked_add], [clamp]); an overflow that Rust checks, an
    index out of range and a bad slice are [Panic]. A [Vec] is a list, a
    [HashMap] a [gmap]; where the code iterates over a [HashMap], the order is a
    parameter ([HashOrder]) of the definitions that depend on it. Loops are
    structural recursions or recursions on fuel; running out of fuel is a value
    of its own ([Panic] or [None]), and termination theorems exclude it.

    What is not code of the repository is a parameter with the documented
    behaviour as its law: clocks (they never run backwards), sockets (what
    arrives, what a send reports), the disk, [prost], [serde_json] and SHA-256
    (round trips), the platform's network executor, hash orders, the order in
    which [tokio] joins tasks. Every law has a concrete instance in a witness.

    ** What is proved

    - Memory safety and typing of parsing: no input makes the parser, the frame
      decoder, the datagram decoder or the capture reader panic; what they return
      is inside the input and in the range of its type. A truncated capture gives
      the same analysis as far as it goes.
    - Ledgers: each packet that the worker receives is counted in exactly one
      way; flows, evictions and capture drops add up; the counters of a run are
      the sums of what happened. The flow table refines a finite map with
      evictions and never exceeds its capacity.
    - TCP analysis: sequence arithmetic follows the stream across the wrap of the
      32-bit numbers; a stream without anomalies is reported clean.
    - Captures: the writer respects the rotation policy under every pattern of
      disk faults; on a healthy disk its files hold the records in order, and the
      reader gives back from each file that is kept exactly the records written to
      it. The reader ends on every file without a panic.
    - Speed tests: senders send exactly their bytes and end when time passes (the
      TCP sender, which has no timeout, when all its calls return), receivers measure
      exactly the datagrams or streams of their session and ignore all others;
      the bounded duplicate window agrees with the exact set of sequence numbers;
      sender and receiver together lose nothing that the network does not lose.
      The lifecycle completes only through its whole protocol.
    - Resources: exclusive claims exclude, capacities hold, states follow the
      lifecycle, in every history of operations.
    - Node sessions: in every history of calls, with any answers of the operating
      system, sessions, reservations, lifecycles and results agree; a session moves
      along the protocol's states, hands out one worker with a valid configuration
      after its scheduled time, owns the endpoint it announced, and repeated
      operations get their first answer. The authorization of a connection is exact.
    - Safe Apply: in every history of operations, faults and restarts there is at
      most one pending change per interface; a change that was begun is confirmed
      or rolled back, also after a crash; a confirmed change stays.
    - Node control plane: a peer's frames, in any order, keep the coordinator's
      invariant and act only as its protocol allows; a client's calls over a loopback
      give usable sessions or the errors of the limits; the scheduler hands each worker
      out once.
    - Privileged helper: in every run of the service, with any callers, streams and disk
      faults, transactions stay intact and only admitted requests act; the hosts file is
      replaced whole or kept; the section of a profile is replaced and every other line
      kept; the original driver and the number of huge pages are recorded before they
      change and given back.
    - Network executors: a restore gives back every property that an apply may have
      changed; on macOS and Windows only allowlisted commands are ever run, and only states
      that a reader can report pass verification.
    - Agent: what the helper writes to the hosts file is what the agent reads back, and
      other profiles are untouched; an edit through both, with lost answers, disk faults
      and interference by others, is done exactly or not at all; which address requests
      pass validation; the timestamps as texts have the order of time.
    - Storage: a request is one step of its specification or none, whatever fails; the
      invariants of the tables hold over every history with restarts; session requests can
      be repeated; trust only changes with confirmation; later migrations resume, the
      first one can lock the database.
    - Certification and planning: a platform is certified exactly when all evidence
      meets the gates, its key binds the whole snapshot; queue plans are exactly the
      ordered assignment of local CPUs; an identity is created once and then stable.
    - Codecs: UDP headers, control frames, captures and generated frames
      round-trip; checksums verify; validation accepts exactly the valid input.
    - Examples at the end of the files show behaviours that differ from the
      documentation or from the intention of the code.

    ** Bounds and fuel

    Parser loops take the code's own limits (two VLAN tags, eight IPv6 extension
    headers). The deadline loops of the UDP and TCP senders take fuel; clocks
    are only assumed not to go back and to pass every time sooner or later, and
    the theorems show that enough fuel suffices. A call of the TCP sender that
    never returns is an outcome of its own. The socket receiver recurses on the
    datagrams that arrive, the capture reader on the length of the file.

    ** Not modelled

    A request of a node's connection is one step of [NodeServer.dispatch],
    although [server.rs] releases the coordinator between a prepare and the
    query for its authorization, which only reads. Code whose behaviour lives
    outside the repository: the AF_XDP, DPDK and RIO back ends (kernel and
    driver interfaces), [platform-auth], [platform-affinity] and the key store
    of [identity] (operating system), the runner that starts processes, the
    Windows helper, the rest of the agent (dispatch of actions, child processes,
    the orchestration of a speed test), and the CLI and graphical applications.
    SQLite is its documented behaviour; columns that no operation uses are left
    out, and the tables without operations are names. Of modelled files: serde's
    derived (de)serialization, [Debug] and [Display] output, and the timing of
    threads other than through the schedules that are parameters. *)

From stdpp Require Import base list strings gmap pretty.
From Stdlib Require Import ZArith Lia.
Open Scope Z_scope.

Declare Scope outcome_scope.
Delimit Scope outcome_scope with outcome.
Open Scope outcome_scope.

(** ** Outcomes: [Ok], a Rust [Err], or a Rust panic. *)

(** The result of running a Rust function returning [Result<A, E>]. [Panic]
    is an out-of-range index, a slice out of bounds or an overflow check. *)
Inductive outcome (E A : Type) : Type :=
| Ok (a : A)
| Err (e : E)
| Panic.
Arguments Ok {E A} a.
Arguments Err {E A} e.
Arguments Panic {E A}.

Section OutcomeOps.
Context {E A B : Type}.

(** The [?] operator: continue with the [Ok] value, otherwise return. *)
Definition obind (o : outcome E A) (k : A -> outcome E B) : outcome E B :=
  match o with
  | Ok a => k a
  | Err e => Err e
  | Panic => Panic
  end.

(** [Option::ok_or]. *)
Definition ok_or (o : option A) (e : E) : outcome E A :=
  match o with
  | Some a => Ok a
  | None => Err e
  end.

(** A guard [if c { return Err(e) }] that precedes the rest of a body. *)
Definition guard_err (c : bool) (e : E) (k : outcome E A) : outcome E A :=
  if c then Err e else k.

(** [holds o Q]: [o] does not panic, and its [Ok] value satisfies [Q]. *)
Definition holds (o : outcome E A) (Q : A -> Prop) : Prop :=
  match o with
  | Ok a => Q a
  | Err _ => True
  | Panic => False
  end.

End OutcomeOps.

Notation "'let?' x := o 'in' k" := (obind o (fun x => k))
  (at level 10, x name, o at level 100, k at level 200,
   format "'[v' 'let?'  x  :=  o  'in' '/' k ']'") : outcome_scope.
Notation "'let?' ' p := o 'in' k" := (obind o (fun p => k))
  (at level 10, p strict pattern, o at level 100, k at level 200,
   format "'[v' 'let?'  ' p  :=  o  'in' '/' k ']'") : outcome_scope.

Section OutcomeLemmas.
Context {E A B : Type}.
Implicit Types (o : outcome E A) (k : A -> outcome E B).

Lemma holds_bind o k (P : A -> Prop) (Q : B -> Prop) :
  holds o P -> (forall a, P a -> holds (k a) Q) -> holds (obind o k) Q.
Proof. destruct o; simpl; auto. Qed.

Lemma holds_weaken o (P Q : A -> Prop) :
  holds o P -> (forall a, P a -> Q a) -> holds o Q.
Proof. destruct o; simpl; auto. Qed.

Lemma holds_not_panic o (P : A -> Prop) : holds o P -> o <> Panic.
Proof. by destruct o. Qed.

Lemma holds_Ok o (P : A -> Prop) a : holds o P -> o = Ok a -> P a.
Proof. by intros H ->. Qed.

Lemma holds_ok_or (oa : option A) (e : E) (P : A -> Prop) :
  (forall a, oa = Some a -> P a) -> holds (ok_or oa e) P.
Proof. destruct oa; simpl; auto. Qed.

Lemma obind_Ok o k b : obind o k = Ok b <-> exists a, o = Ok a /\ k a = Ok b.
Proof. destruct o; simpl; naive_solver. Qed.

Lemma ok_or_Ok (oa : option A) (e : E) a : ok_or oa e = Ok a <-> oa = Some a.
Proof. destruct oa; simpl; naive_solver. Qed.

End OutcomeLemmas.

(** ** Machine integers: unsigned [w]-bit values as [Z]. *)

(** The largest [w]-bit unsigned value, [uN::MAX]. *)
Definition umax (w : Z) : Z := 2 ^ w - 1.

(** [x] is a value of an unsigned [w]-bit type. *)
Definition uint (w x : Z) : Prop := 0 <= x <= umax w.

Definition sat_add (w a b : Z) : Z := Z.min (a + b) (umax w).
Definition sat_sub (a b : Z) : Z := Z.max 0 (a - b).
Definition sat_mul (w a b : Z) : Z := Z.min (a * b) (umax w).
Definition wrap (w a : Z) : Z := a mod 2 ^ w.
Definition checked_add (w a b : Z) : option Z :=
  if a + b <=? umax w then Some (a + b) else None.
Definition checked_sub (a b : Z) : option Z :=
  if b <=? a then Some (a - b) else None.

(** [uN::try_from(x).unwrap_or(uN::MAX)] for a non-negative [x]. *)
Definition clamp (w x : Z) : Z := if x <=? umax w then x else umax w.

Lemma umax_nonneg w : 0 <= w -> 0 <= umax w.
Proof. intros. unfold umax. pose proof (Z.pow_pos_nonneg 2 w). lia. Qed.

Lemma sat_add_uint w a b : 0 <= w -> 0 <= a -> 0 <= b -> uint w (sat_add w a b).
Proof. intros. pose proof (umax_nonneg w). unfold uint, sat_add. lia. Qed.

Lemma sat_add_exact w a b : a + b <= umax w -> sat_add w a b = a + b.
Proof. unfold sat_add. lia. Qed.

Lemma sat_sub_uint w a b : uint w a -> 0 <= b -> uint w (sat_sub a b).
Proof. unfold uint, sat_sub. lia. Qed.

Lemma clamp_uint w x : 0 <= w -> 0 <= x -> uint w (clamp w x).
Proof. intros. pose proof (umax_nonneg w). unfold uint, clamp. case_match; lia. Qed.

Lemma clamp_id w x : x <= umax w -> clamp w x = x.
Proof. intros. unfold clamp. case_match; lia. Qed.

Lemma wrap_uint w x : 0 <= w -> uint w (wrap w x).
Proof.
  intros. unfold uint, wrap, umax.
  pose proof (Z.mod_pos_bound x (2 ^ w)). pose proof (Z.pow_pos_nonneg 2 w). lia.
Qed.

Lemma checked_add_Some w a b c :
  checked_add w a b = Some c <-> c = a + b /\ a + b <= umax w.
Proof. unfold checked_add. case_match; naive_solver lia. Qed.

(** ** Bytes, byte strings and slices. *)

Abbreviation bytes := (list Z).

Definition is_byte (b : Z) : Prop := 0 <= b < 256.
Definition bytes_ok (l : bytes) : Prop := Forall is_byte l.

(** Length of a slice as a [usize]. *)
Definition len {A} (l : list A) : Z := Z.of_nat (length l).

(** [slice.get(a..b)]. *)
Definition get_range {A} (l : list A) (a b : Z) : option (list A) :=
  if (0 <=? a) && (a <=? b) && (b <=? len l)
  then Some (take (Z.to_nat (b - a)) (drop (Z.to_nat a) l))
  else None.

(** [slice.get(a..)]. *)
Definition get_from {A} (l : list A) (a : Z) : option (list A) :=
  get_range l a (len l).

(** [slice[i]], which panics out of range. *)
Definition index {E A} (l : list A) (i : Z) : outcome E A :=
  if 0 <=? i then
    match l !! Z.to_nat i with
    | Some x => Ok x
    | None => Panic
    end
  else Panic.

(** [&slice[a..b]] and [&slice[a..]], which panic out of range. *)
Definition slice {E A} (l : list A) (a b : Z) : outcome E (list A) :=
  match get_range l a b with
  | Some s => Ok s
  | None => Panic
  end.
Definition slice_from {E A} (l : list A) (a : Z) : outcome E (list A) :=
  slice l a (len l).

(** [slice[i] = x], which panics out of range. *)
Definition set_index {E A} (l : list A) (i : Z) (x : A) : outcome E (list A) :=
  if (0 <=? i) && (i <? len l) then Ok (<[Z.to_nat i := x]> l) else Panic.

(** [slice[a..a + src.len()].copy_from_slice(src)]. *)
Definition copy_at {E} (l : bytes) (a : Z) (src : bytes) : outcome E bytes :=
  if (0 <=? a) && (a + len src <=? len l)
  then Ok (take (Z.to_nat a) l ++ src ++ drop (Z.to_nat (a + len src)) l)
  else Panic.

(** [uN::from_be_bytes] and [uN::from_le_bytes]. *)
Definition from_be_bytes (l : bytes) : Z := fold_left (fun acc b => acc * 256 + b) l 0.
Definition from_le_bytes (l : bytes) : Z := fold_right (fun b acc => b + 256 * acc) 0 l.

(** [to_le_bytes] and [to_be_bytes] of an [n]-byte integer. *)
Fixpoint to_le_bytes (n : nat) (x : Z) : bytes :=
  match n with
  | O => []
  | S n => x mod 256 :: to_le_bytes n (x / 256)
  end.
Definition to_be_bytes (n : nat) (x : Z) : bytes := reverse (to_le_bytes n x).

Section SliceLemmas.
Context {A : Type}.
Implicit Types l : list A.

Lemma len_nonneg l : 0 <= len l.
Proof. unfold len. lia. Qed.

Lemma len_nil : len (@nil A) = 0.
Proof. done. Qed.

Lemma len_cons (x : A) l : len (x :: l) = 1 + len l.
Proof. unfold len. rewrite length_cons. lia. Qed.

Lemma len_app l k : len (l ++ k) = len l + len k.
Proof. unfold len. rewrite length_app. lia. Qed.

Lemma get_range_Some l a b s :
  get_range l a b = Some s <->
  0 <= a <= b /\ b <= len l /\ s = take (Z.to_nat (b - a)) (drop (Z.to_nat a) l).
Proof.
  unfold get_range. destruct (0 <=? a) eqn:?, (a <=? b) eqn:?, (b <=? len l) eqn:?;
    simpl; naive_solver lia.
Qed.

Lemma get_range_len l a b s : get_range l a b = Some s -> len s = b - a.
Proof.
  rewrite get_range_Some. intros ([??]&?&->). unfold len in *.
  rewrite length_take, length_drop. lia.
Qed.

Lemma get_range_in l a b :
  0 <= a <= b -> b <= len l -> exists s, get_range l a b = Some s /\ len s = b - a.
Proof.
  intros. eexists. split; [apply get_range_Some; naive_solver|].
  unfold len in *. rewrite length_take, length_drop. lia.
Qed.

(** A range read is unchanged when more data follows. *)
Lemma get_range_app l k a b s :
  get_range l a b = Some s -> get_range (l ++ k) a b = Some s.
Proof.
  rewrite !get_range_Some, len_app. intros ([??]&?&->).
  pose proof (len_nonneg k). split_and!; [lia..|]. unfold len in *.
  rewrite drop_app_le by lia. rewrite take_app_le; [done|]. rewrite length_drop. lia.
Qed.

Lemma get_from_app l k a s :
  get_from l a = Some s -> get_from (l ++ k) a = Some (s ++ k).
Proof.
  unfold get_from. rewrite !get_range_Some, len_app. intros ([??]&?&->).
  pose proof (len_nonneg k). split_and!; [lia..|]. unfold len in *.
  rewrite drop_app_le by lia.
  rewrite (take_ge (drop _ l)) by (rewrite length_drop; lia).
  rewrite take_ge; [done|]. rewrite length_app, length_drop. lia.
Qed.

Lemma holds_index {E} l i (Q : A -> Prop) :
  0 <= i < len l -> (forall x, l !! Z.to_nat i = Some x -> Q x) ->
  holds (index (E := E) l i) Q.
Proof.
  intros [Hi Hl] HQ. unfold index. rewrite (proj2 (Z.leb_le 0 i) Hi).
  unfold len in Hl. destruct (lookup_lt_is_Some_2 l (Z.to_nat i)) as [x Hx]; [lia|].
  rewrite Hx. simpl. auto.
Qed.

Lemma holds_slice {E} l a b (Q : list A -> Prop) :
  0 <= a <= b -> b <= len l -> (forall s, get_range l a b = Some s -> Q s) ->
  holds (slice (E := E) l a b) Q.
Proof.
  intros ?? HQ. destruct (get_range_in l a b) as (s&Hs&_); [done..|].
  unfold slice. rewrite Hs. simpl. auto.
Qed.

Lemma holds_set_index {E} l i x (Q : list A -> Prop) :
  0 <= i < len l -> Q (<[Z.to_nat i := x]> l) ->
  holds (set_index (E := E) l i x) Q.
Proof.
  intros [??] HQ. unfold set_index.
  rewrite (proj2 (Z.leb_le 0 i)), (proj2 (Z.ltb_lt i (len l))) by done. done.
Qed.

End SliceLemmas.

(** Slices in range. *)
Lemma slice_take {E A} (l : list A) a b :
  0 <= a <= b -> b <= len l ->
  slice (E := E) l a b = Ok (take (Z.to_nat (b - a)) (drop (Z.to_nat a) l)).
Proof.
  intros Hab Hb. destruct (get_range_in l a b Hab Hb) as (s&Hs&_). unfold slice. rewrite Hs.
  by apply get_range_Some in Hs as (_&_&->).
Qed.

Lemma slice_app {E A} (l m k : list A) a b :
  a = len l -> b = len l + len m -> slice (E := E) (l ++ m ++ k) a b = Ok m.
Proof.
  intros -> ->. unfold slice. pose proof (len_nonneg l). pose proof (len_nonneg m).
  pose proof (len_nonneg k). destruct (get_range (l ++ m ++ k) (len l) (len l + len m)) as [s|] eqn:Hs.
  - apply get_range_Some in Hs as (_&_&->). f_equal. unfold len.
    replace (Z.to_nat (Z.of_nat (length l))) with (length l) by lia. rewrite drop_app_length.
    replace (Z.to_nat (Z.of_nat (length l) + Z.of_nat (length m) - Z.of_nat (length l)))
      with (length m) by lia. by rewrite take_app_length.
  - exfalso. unfold get_range in Hs. rewrite !len_app in Hs.
    rewrite !(proj2 (Z.leb_le _ _)) in Hs by lia. done.
Qed.

(** ** [std::net::IpAddr]: an IPv4 address is a 32-bit, an IPv6 address a
    128-bit big-endian integer. *)
Inductive IpAddr :=
| V4 (address : Z)
| V6 (address : Z).

#[export] Instance IpAddr_eq_dec : EqDecision IpAddr.
Proof. solve_decision. Defined.

(** [Ipv4Addr::octets] and [Ipv6Addr::octets]. *)
Definition octets (a : IpAddr) : bytes :=
  match a with
  | V4 x => to_be_bytes 4 x
  | V6 x => to_be_bytes 16 x
  end.

Definition ip_ok (a : IpAddr) : Prop :=
  match a with
  | V4 x => uint 32 x
  | V6 x => uint 128 x
  end.

(** ** Views: contiguous parts of a buffer. *)

(** [s] is a contiguous part of [l], what a borrowed [&l[a..b]] denotes. *)
Definition subslice {A} (s l : list A) : Prop := exists pre post, l = pre ++ s ++ post.

Section SubsliceLemmas.
Context {A : Type}.
Implicit Types s l : list A.

Lemma subslice_refl l : subslice l l.
Proof. exists [], []. by rewrite app_nil_r. Qed.

Lemma subslice_trans s l k : subslice s l -> subslice l k -> subslice s k.
Proof.
  intros (p1&q1&->) (p2&q2&->). exists (p2 ++ p1), (q1 ++ q2). by rewrite <- !app_assoc.
Qed.

Lemma get_range_subslice l a b s : get_range l a b = Some s -> subslice s l.
Proof.
  rewrite get_range_Some. intros (_&_&->).
  exists (take (Z.to_nat a) l), (drop (Z.to_nat (b - a)) (drop (Z.to_nat a) l)).
  by rewrite !take_drop.
Qed.

Lemma get_range_subslice_trans l k a b s :
  get_range l a b = Some s -> subslice l k -> subslice s k.
Proof. intros ?%get_range_subslice ?. by eapply subslice_trans. Qed.

Lemma subslice_Forall (P : A -> Prop) s l : subslice s l -> Forall P l -> Forall P s.
Proof. intros (p&q&->). rewrite !Forall_app. naive_solver. Qed.

End SubsliceLemmas.

Create HintDb nettool.
#[export] Hint Resolve subslice_refl get_range_subslice get_range_subslice_trans : nettool.
#[export] Hint Resolve subslice_Forall : nettool.

(** Specifications of the slice primitives, in the form [hstep] uses. *)
Section HoldsSpecs.
Context {E A : Type}.
Implicit Types l : list A.

Lemma holds_get_range l a b (e : E) :
  holds (ok_or (get_range l a b) e)
    (fun s => get_range l a b = Some s /\ len s = b - a /\ 0 <= a <= b /\ b <= len l).
Proof.
  apply holds_ok_or. intros s Hs. split; [done|]. split; [by eapply get_range_len|].
  apply get_range_Some in Hs. naive_solver.
Qed.

Lemma holds_index_in l i :
  0 <= i < len l -> holds (index (E := E) l i) (fun x => x ∈ l).
Proof. intros. apply holds_index; [done|]. intros x Hx. by eapply list_elem_of_lookup_2. Qed.

Lemma holds_slice_in l a b :
  0 <= a <= b -> b <= len l ->
  holds (slice (E := E) l a b) (fun s => get_range l a b = Some s /\ len s = b - a).
Proof.
  intros. apply holds_slice; [done..|]. intros s Hs. split; [done|].
  by eapply get_range_len.
Qed.

Lemma holds_checked_add w a b (e : E) :
  holds (ok_or (checked_add w a b) e) (fun c => c = a + b /\ a + b <= umax w).
Proof. apply holds_ok_or. intros c. by rewrite checked_add_Some. Qed.

End HoldsSpecs.

(** One symbolic step of a [holds] goal. *)
Ltac hstep :=
  lazymatch goal with
  | |- holds (obind (ok_or (get_range _ _ _) _) _) _ =>
      eapply holds_bind; [apply holds_get_range | cbv beta; intros ? (?&?&?&?)]
  | |- holds (obind (ok_or (get_from _ _) _) _) _ =>
      eapply holds_bind; [apply holds_get_range | cbv beta; intros ? (?&?&?&?)]
  | |- holds (obind (index _ _) _) _ =>
      eapply holds_bind; [apply holds_index_in; lia | cbv beta; intros ? ?]
  | |- holds (obind (slice _ _ _) _) _ =>
      eapply holds_bind; [apply holds_slice_in; lia | cbv beta; intros ? [? ?]]
  | |- holds (obind (slice_from _ _) _) _ =>
      eapply holds_bind; [apply holds_slice_in; lia | cbv beta; intros ? [? ?]]
  | |- holds (obind (ok_or (checked_add _ _ _) _) _) _ =>
      eapply holds_bind; [apply holds_checked_add | cbv beta; intros ? [? ?]]
  | |- holds (if ?c then _ else _) _ => destruct c eqn:?
  | |- holds (Ok _) _ => simpl
  | |- holds (Err _) _ => exact I
  end.

(** ** Fields of concatenations. *)

Lemma get_range_skip {A} (a l : list A) i j :
  0 <= j - i -> len a <= i -> get_range (a ++ l) i j = get_range l (i - len a) (j - len a).
Proof.
  intros Hij Ha. unfold get_range. rewrite len_app. pose proof (len_nonneg a).
  assert (((0 <=? i) && (i <=? j) && (j <=? len a + len l)) =
    ((0 <=? i - len a) && (i - len a <=? j - len a) && (j - len a <=? len l))) as -> by lia.
  destruct (_ && _); [|done]. f_equal. replace (j - len a - (i - len a)) with (j - i) by lia.
  rewrite drop_app_ge by (unfold len in *; lia). f_equal. f_equal. unfold len in *. lia.
Qed.

Lemma get_range_head {A} (a l : list A) : get_range (a ++ l) 0 (len a) = Some a.
Proof.
  unfold get_range. rewrite len_app. pose proof (len_nonneg a). pose proof (len_nonneg l).
  rewrite (proj2 (Z.leb_le 0 (len a))), (proj2 (Z.leb_le (len a) _)) by lia. simpl.
  f_equal. rewrite drop_0, take_app_le by (unfold len; lia).
  apply take_ge. unfold len. lia.
Qed.

Lemma get_range_tail {A} (a l : list A) : get_range (a ++ l) (len a) (len (a ++ l)) = Some l.
Proof.
  pose proof (len_nonneg l). rewrite get_range_skip by (rewrite ?len_app; lia). rewrite len_app.
  replace (len a + len l - len a) with (len l) by lia. rewrite Z.sub_diag.
  rewrite <- (app_nil_r l) at 1. apply get_range_head.
Qed.

Lemma get_range_adjacent {A} (l : list A) a b c s t :
  get_range l a b = Some s -> get_range l b c = Some t -> get_range l a c = Some (s ++ t).
Proof.
  intros Hs Ht. apply get_range_Some in Hs as (H1&H2&->). apply get_range_Some in Ht as (H3&H4&->).
  unfold get_range. rewrite (proj2 (Z.leb_le 0 a)), (proj2 (Z.leb_le a c)),
    (proj2 (Z.leb_le c _)) by lia. simpl. f_equal.
  replace (Z.to_nat (c - a)) with (Z.to_nat (b - a) + Z.to_nat (c - b))%nat by lia.
  rewrite <- take_take_drop. do 2 f_equal. rewrite drop_drop. f_equal. lia.
Qed.

(** Writing the next field of a buffer whose rest is still zero. *)
Lemma copy_at_next {E} (w src : bytes) (n : nat) a :
  len w = a -> (length src <= n)%nat ->
  copy_at (E := E) (w ++ repeat 0 n) a src = Ok ((w ++ src) ++ repeat 0 (n - length src)).
Proof.
  intros <- Hn. unfold copy_at. rewrite len_app. unfold len. rewrite repeat_length.
  rewrite (proj2 (Z.leb_le 0 _)), (proj2 (Z.leb_le _ _)) by lia. simpl. f_equal.
  rewrite Nat2Z.id, take_app_length, <- app_assoc. f_equal. f_equal.
  rewrite drop_app_ge by lia. replace (Z.to_nat _ - length w)%nat with (length src) by lia.
  clear. revert n. induction src as [|x src IH]; intros n; simpl; [by rewrite Nat.sub_0_r|].
  destruct n; [done|]. apply IH.
Qed.

(** ** Byte-order conversions. *)

Lemma bytes_ok_elem l b : bytes_ok l -> b ∈ l -> is_byte b.
Proof. intros Hl Hb. by eapply Forall_forall. Qed.
#[export] Hint Resolve bytes_ok_elem : nettool.

(** Byte lists given explicitly: one [is_byte] goal per element. *)
Ltac bytes_list :=
  unfold bytes_ok; repeat (apply Forall_cons_2; [eauto with nettool|]); try apply Forall_nil_2.

Lemma from_be_bytes_snoc l b : from_be_bytes (l ++ [b]) = from_be_bytes l * 256 + b.
Proof. unfold from_be_bytes. by rewrite fold_left_app. Qed.

Lemma from_be_bytes_rev l : from_be_bytes l = from_le_bytes (reverse l).
Proof.
  induction l as [|b l IH] using rev_ind; [done|].
  rewrite from_be_bytes_snoc, reverse_snoc, IH. simpl. lia.
Qed.

Lemma from_le_bytes_bound l : bytes_ok l -> 0 <= from_le_bytes l < 2 ^ (8 * len l).
Proof.
  induction 1 as [|b l Hb Hl IH]; [done|]. unfold len in *. simpl length. simpl from_le_bytes.
  replace (8 * Z.of_nat (S (length l))) with (8 + 8 * Z.of_nat (length l)) by lia.
  rewrite Z.pow_add_r by lia. unfold is_byte in Hb. change (2 ^ 8) with 256. lia.
Qed.

Lemma from_be_bytes_uint l : bytes_ok l -> uint (8 * len l) (from_be_bytes l).
Proof.
  intros Hl. rewrite from_be_bytes_rev. unfold uint, umax.
  assert (Hr : bytes_ok (reverse l)) by (by apply Forall_reverse).
  pose proof (from_le_bytes_bound _ Hr) as Hb. unfold len in *. rewrite length_reverse in Hb. lia.
Qed.

Lemma from_be_bytes_width w l : bytes_ok l -> 8 * len l = w -> uint w (from_be_bytes l).
Proof. intros ? <-. by apply from_be_bytes_uint. Qed.

Lemma to_le_bytes_length n x : length (to_le_bytes n x) = n.
Proof. revert x. induction n; intros; simpl; auto. Qed.

Lemma to_le_bytes_ok n x : bytes_ok (to_le_bytes n x).
Proof.
  revert x. induction n as [|n IH]; intros x; simpl; constructor; [|apply IH].
  unfold is_byte. apply Z.mod_pos_bound. lia.
Qed.

Lemma from_to_le_bytes n x :
  0 <= x < 2 ^ (8 * Z.of_nat n) -> from_le_bytes (to_le_bytes n x) = x.
Proof.
  revert x. induction n as [|n IH]; intros x Hx.
  - simpl in *. lia.
  - simpl from_le_bytes. rewrite IH; [pose proof (Z.div_mod x 256); lia|].
    replace (8 * Z.of_nat (S n)) with (8 + 8 * Z.of_nat n) in Hx by lia.
    rewrite Z.pow_add_r in Hx by lia. change (2 ^ 8) with 256 in Hx.
    split; [apply Z.div_pos; lia|]. apply Z.div_lt_upper_bound; lia.
Qed.

Lemma to_be_bytes_length n x : length (to_be_bytes n x) = n.
Proof. unfold to_be_bytes. by rewrite length_reverse, to_le_bytes_length. Qed.

Lemma to_be_bytes_ok n x : bytes_ok (to_be_bytes n x).
Proof. apply Forall_reverse, to_le_bytes_ok. Qed.

Lemma from_to_be_bytes n x :
  0 <= x < 2 ^ (8 * Z.of_nat n) -> from_be_bytes (to_be_bytes n x) = x.
Proof.
  intros. rewrite from_be_bytes_rev. unfold to_be_bytes. rewrite reverse_involutive.
  by apply from_to_le_bytes.
Qed.

Lemma to_from_le_bytes l : bytes_ok l -> to_le_bytes (length l) (from_le_bytes l) = l.
Proof.
  induction 1 as [|b l Hb _ IH]; [done|]. simpl. unfold is_byte in Hb.
  replace (b + 256 * from_le_bytes l) with (b + from_le_bytes l * 256) by lia.
  rewrite Z.mod_add, Z.mod_small, Z.div_add, Z.div_small by lia.
  f_equal. rewrite Z.add_0_l. exact IH.
Qed.

Lemma to_from_be_bytes l : bytes_ok l -> to_be_bytes (length l) (from_be_bytes l) = l.
Proof.
  intros Hl. rewrite from_be_bytes_rev. unfold to_be_bytes.
  rewrite <- (length_reverse l). rewrite (to_from_le_bytes (reverse l)) by (by apply Forall_reverse).
  apply reverse_involutive.
Qed.

Lemma len_to_be_bytes n x : len (to_be_bytes n x) = Z.of_nat n.
Proof. unfold len. by rewrite to_be_bytes_length. Qed.

#[export] Instance IpAddr_countable : Countable IpAddr.
Proof.
  refine (inj_countable'
    (fun a => match a with V4 x => inl x | V6 x => inr x end)
    (fun s => match s with inl x => V4 x | inr x => V6 x end) _).
  by intros [].
Defined.

(** ** [std::collections::HashMap]

    A hash map is a [gmap]; the order in which it iterates over its entries is
    unspecified, so code that iterates is modelled over an arbitrary order. *)
Class HashOrder (K V : Type) `{Countable K} := {
  hash_iter : gmap K V -> list (K * V);
  hash_iter_perm m : hash_iter m ≡ₚ map_to_list m;
}.

(** One admissible order, used by the concrete examples. *)
Definition list_order K V `{Countable K} : HashOrder K V :=
  {| hash_iter := map_to_list; hash_iter_perm m := Permutation_refl _ |}.

Lemma hash_iter_elem {K V} `{HashOrder K V} (m : gmap K V) k v :
  (k, v) ∈ hash_iter m <-> m !! k = Some v.
Proof. rewrite hash_iter_perm. apply elem_of_map_to_list. Qed.

Lemma hash_iter_nil {K V} `{HashOrder K V} (m : gmap K V) : hash_iter m = [] -> m = ∅.
Proof.
  intros Hn. apply map_to_list_empty_iff, Permutation_nil_r.
  by rewrite <- hash_iter_perm, Hn.
Qed.

(** [Iterator::min_by_key]: the first element of least key. *)
Fixpoint min_by_key {A} (f : A -> Z) (l : list A) : option A :=
  match l with
  | [] => None
  | x :: l =>
      match min_by_key f l with
      | Some y => if f x <=? f y then Some x else Some y
      | None => Some x
      end
  end.

Lemma min_by_key_Some {A} (f : A -> Z) l x :
  min_by_key f l = Some x -> x ∈ l /\ forall y, y ∈ l -> f x <= f y.
Proof.
  revert x. induction l as [|a l IH]; intros x; simpl; [done|].
  destruct (min_by_key f l) as [y|] eqn:Hy.
  - destruct (IH y eq_refl) as [Hin Hmin].
    destruct (Z.leb_spec (f a) (f y)); intros [= <-]; split; try set_solver;
      intros z [->|Hz]%elem_of_cons; try lia; specialize (Hmin z Hz); lia.
  - intros [= <-]. destruct l; simpl in Hy; [|by repeat case_match].
    split; [set_solver|]. intros y [->|Hy']%elem_of_cons; [lia|set_solver].
Qed.

Lemma min_by_key_None {A} (f : A -> Z) l : min_by_key f l = None -> l = [].
Proof. destruct l; simpl; [done|]. by repeat case_match. Qed.

(** ** Text: [to_string] of an unsigned integer, and [str::as_bytes]. *)

Definition dec (x : Z) : string := pretty (Z.to_N x).

(** A hexadecimal digit in lower case. *)
Definition hex_digit (d : Z) : Ascii.ascii :=
  Ascii.ascii_of_N (Z.to_N (if d <? 10 then 48 + d else 87 + d)).

(** [{:0nx}] of a value below [16 ^ n]. *)
Fixpoint hex_fixed (n : nat) (x : Z) (rest : string) : string :=
  match n with
  | O => rest
  | S n => hex_fixed n (x / 16) (String (hex_digit (x mod 16)) rest)
  end.

Lemma hex_digit_inj a b : 0 <= a < 16 -> 0 <= b < 16 -> hex_digit a = hex_digit b -> a = b.
Proof.
  intros Ha Hb Hd. unfold hex_digit in Hd. apply (f_equal Ascii.N_of_ascii) in Hd.
  destruct (Z.ltb_spec a 10), (Z.ltb_spec b 10);
    rewrite !Ascii.N_ascii_embedding in Hd by lia; lia.
Qed.

Lemma hex_fixed_inj n x y r r' :
  0 <= x < 16 ^ Z.of_nat n -> 0 <= y < 16 ^ Z.of_nat n ->
  hex_fixed n x r = hex_fixed n y r' -> x = y /\ r = r'.
Proof.
  revert x y r r'. induction n as [|n IH]; intros x y r r' Hx Hy H.
  - change (16 ^ Z.of_nat 0) with 1 in *. split; [lia|done].
  - rewrite Nat2Z.inj_succ, Z.pow_succ_r in Hx, Hy by lia.
    destruct (IH (x / 16) (y / 16) _ _ ltac:(Z.to_euclidean_division_equations; lia)
      ltac:(Z.to_euclidean_division_equations; lia) H) as [Hdiv Hs].
    injection Hs as Hd Hr. split; [|done].
    apply hex_digit_inj in Hd; Z.to_euclidean_division_equations; lia.
Qed.

(** [{byte:02x}] of every byte. *)
Fixpoint hex (bs : bytes) : string :=
  match bs with
  | [] => ""
  | b :: bs => hex_fixed 2 b (hex bs)
  end.

Lemma hex_inj bs bs' : bytes_ok bs -> bytes_ok bs' -> hex bs = hex bs' -> bs = bs'.
Proof.
  intros Hb. revert bs'. induction Hb as [|b bs Hb _ IH]; intros [|b' bs'] Hb' H; try done.
  apply Forall_cons in Hb' as [Hb' Hbs']. unfold is_byte in Hb, Hb'.
  apply (hex_fixed_inj 2 b b') in H as [-> H]; [|cbn; lia|cbn; lia]. f_equal. by apply IH.
Qed.

Definition byte_of_ascii (c : Ascii.ascii) : Z := Z.of_N (Ascii.N_of_ascii c).
Definition as_bytes (s : string) : bytes := byte_of_ascii <$> String.list_ascii_of_string s.

Lemma as_bytes_inj s t : as_bytes s = as_bytes t -> s = t.
Proof.
  revert t. induction s as [|c s IH]; intros [|d t]; try done. intros [= Hc Ht].
  apply N2Z.inj in Hc. f_equal; [|by apply IH].
  by rewrite <- (Ascii.ascii_N_embedding c), <- (Ascii.ascii_N_embedding d), Hc.
Qed.

Lemma as_bytes_ok s : bytes_ok (as_bytes s).
Proof.
  unfold as_bytes, bytes_ok. rewrite Forall_fmap. apply Forall_true. intros c.
  unfold is_byte, byte_of_ascii, compose. pose proof (Ascii.N_ascii_bounded c). lia.
Qed.

(** [s.trim().is_empty()]: [char::is_whitespace] on the UTF-8 encoding. *)
Fixpoint blank (bs : bytes) : bool :=
  match bs with
  | [] => true
  | a :: t0 =>
      if ((9 <=? a) && (a <=? 13)) || (a =? 32) then blank t0
      else
        match t0 with
        | [] => false
        | b :: t1 =>
            if (a =? 0xc2) && ((b =? 0x85) || (b =? 0xa0)) then blank t1
            else
              match t1 with
              | [] => false
              | c :: t2 =>
                  if ((a =? 0xe1) && (b =? 0x9a) && (c =? 0x80))
                     || ((a =? 0xe2) && (b =? 0x80) &&
                         (((0x80 <=? c) && (c <=? 0x8a)) || (c =? 0xa8) || (c =? 0xa9) || (c =? 0xaf)))
                     || ((a =? 0xe2) && (b =? 0x81) && (c =? 0x9f))
                     || ((a =? 0xe3) && (b =? 0x80) && (c =? 0x80))
                  then blank t2 else false
              end
        end
  end.
Definition trimmed_empty (s : string) : bool := blank (as_bytes s).

(** [str::trim_start] and [str::trim_end] on the UTF-8 encoding: a white space
    character never starts inside the encoding of another character. *)
Fixpoint trim_start (bs : bytes) : bytes :=
  match bs with
  | [] => []
  | a :: t0 =>
      if ((9 <=? a) && (a <=? 13)) || (a =? 32) then trim_start t0
      else
        match t0 with
        | [] => bs
        | b :: t1 =>
            if (a =? 0xc2) && ((b =? 0x85) || (b =? 0xa0)) then trim_start t1
            else
              match t1 with
              | [] => bs
              | c :: t2 => if blank [a; b; c] then trim_start t2 else bs
              end
        end
  end.
Fixpoint trim_end (bs : bytes) : bytes :=
  if blank bs then [] else match bs with [] => [] | b :: t => b :: trim_end t end.
Definition trim (bs : bytes) : bytes := trim_end (trim_start bs).
