(* ===== verification/ErrorModel.v ===== *)
(** * Stable error model

    Model of [crates/error/src/lib.rs]: the error codes that CLI, agent and
    protocols compare, their stable identifiers, and the error record every
    crate returns. *)

From stdpp Require Import base gmap strings.
From S2P Require Import Prelude.

Inductive ErrorCode :=
| InvalidArgument
| ProbeFailed
| Unsupported
| StorageFailed
| AgentUnavailable
| ActionUnsupported
| ResourceConflict
| InvalidState
| RollbackFailed
| PersistenceFailed
| SpeedFailed
| ProtocolInvalid
| ControlFrameTooLarge
| ProtocolUnsupportedFlag
| ProtocolIncompatible
| NodeTransportFailed
| NodeTlsFailed
| NodeNotPaired
| AuthorizationExpired
| DataPlaneUnauthorized
| OperationConflict
| RandomFailed
| PreflightFailed
| BackendNotBuilt
| LosslessCaptureNotCertified
| HelperUnauthorized
| HelperNotConfigured
| HelperTransportFailed
| HelperExecutionFailed
| CaptureFormatInvalid
| CaptureReadFailed.

#[export] Instance ErrorCode_eq_dec : EqDecision ErrorCode.
Proof. solve_decision. Defined.

Local Open Scope string_scope.

Definition as_str (c : ErrorCode) : string :=
  match c with
  | InvalidArgument => "CLI.INVALID_ARGUMENT"
  | ProbeFailed => "DATAPLANE.PROBE_FAILED"
  | Unsupported => "PLATFORM.UNSUPPORTED"
  | StorageFailed => "STORAGE.DATABASE_FAILED"
  | AgentUnavailable => "AGENT.UNAVAILABLE"
  | ActionUnsupported => "ACTION.UNSUPPORTED"
  | ResourceConflict => "RESOURCE.CONFLICT"
  | InvalidState => "ACTION.INVALID_STATE"
  | RollbackFailed => "SAFE_APPLY.ROLLBACK_FAILED"
  | PersistenceFailed => "HELPER.PERSISTENCE_FAILED"
  | SpeedFailed => "SPEED.ENGINE_FAILED"
  | ProtocolInvalid => "PROTOCOL.INVALID_MESSAGE"
  | ControlFrameTooLarge => "PROTOCOL.CONTROL_FRAME_TOO_LARGE"
  | ProtocolUnsupportedFlag => "PROTOCOL.UNSUPPORTED_FLAG"
  | ProtocolIncompatible => "PROTOCOL.MAJOR_INCOMPATIBLE"
  | NodeTransportFailed => "NODE.TRANSPORT_FAILED"
  | NodeTlsFailed => "NODE.TLS_FAILED"
  | NodeNotPaired => "NODE.NOT_PAIRED"
  | AuthorizationExpired => "NODE.AUTHORIZATION_EXPIRED"
  | DataPlaneUnauthorized => "NODE.DATA_PLANE_UNAUTHORIZED"
  | OperationConflict => "OPERATION.ID_CONFLICT"
  | RandomFailed => "SECURITY.RANDOM_FAILED"
  | PreflightFailed => "DATAPLANE.PREFLIGHT_FAILED"
  | BackendNotBuilt => "DATAPLANE.BACKEND_NOT_BUILT"
  | LosslessCaptureNotCertified => "LOSSLESS_CAPTURE_NOT_CERTIFIED"
  | HelperUnauthorized => "HELPER.UNAUTHORIZED"
  | HelperNotConfigured => "HELPER.NOT_CONFIGURED"
  | HelperTransportFailed => "HELPER.TRANSPORT_FAILED"
  | HelperExecutionFailed => "HELPER.EXECUTION_FAILED"
  | CaptureFormatInvalid => "CAPTURE.FORMAT_INVALID"
  | CaptureReadFailed => "CAPTURE.READ_FAILED"
  end.

(** [details] is a [BTreeMap<String, String>]. *)
Record NetToolError := {
  code : ErrorCode;
  message : string;
  retryable : bool;
  details : gmap string string;
}.

(** [NetToolError::new]. *)
Definition new_error (c : ErrorCode) (m : string) (r : bool) : NetToolError :=
  {| code := c; message := m; retryable := r; details := ∅ |}.

(** [impl Display for NetToolError]. *)
Definition display (e : NetToolError) : string := as_str (code e) +:+ ": " +:+ message e.

Abbreviation res A := (outcome NetToolError A).

(** The helpers [invalid], [invalid_state], ... that each crate defines. *)
Definition err {A} (c : ErrorCode) (m : string) : res A := Err (new_error c m false).

(** ** Methods on [&mut self] that return a [Result]: the object is returned
    also when the method fails. *)
Section Methods.
Context {S : Type}.

Definition method (A : Type) : Type := S -> S * res A.
Definition m_ret {A} (o : res A) : method A := fun s => (s, o).
Definition m_bind {A B} (m : method A) (k : A -> method B) : method B := fun s =>
  match m s with
  | (s, Ok a) => k a s
  | (s, Err e) => (s, Err e)
  | (s, Panic) => (s, Panic)
  end.

(** [m] does not panic from [s]; it ends with [Q] of the object and result. *)
Definition m_holds {A} (m : method A) (s : S) (Q : S -> res A -> Prop) : Prop :=
  (m s).2 <> Panic /\ Q (m s).1 (m s).2.

Lemma m_holds_bind {A B} (m : method A) (k : A -> method B) s P Q :
  m_holds m s P -> (forall s' e, P s' (Err e) -> Q s' (Err e)) ->
  (forall s' a, P s' (Ok a) -> m_holds (k a) s' Q) -> m_holds (m_bind m k) s Q.
Proof.
  unfold m_holds, m_bind. intros [Hp HP] He Hk.
  destruct (m s) as [s' [a|e|]]; simpl in *; [by apply Hk|split; [done|by apply He]|done].
Qed.

Lemma m_holds_weaken {A} (m : method A) s (P Q : S -> res A -> Prop) :
  m_holds m s P -> (forall s' r, P s' r -> Q s' r) -> m_holds m s Q.
Proof. intros [Hp HP] HQ. split; [done|by apply HQ]. Qed.

Lemma m_bind_ok {A B} (m : method A) (k : A -> method B) a s s' :
  m s = (s', Ok a) -> m_bind m k s = k a s'.
Proof. intros H. unfold m_bind. by rewrite H. Qed.

Lemma m_holds_step {A B} (m : method A) (k : A -> method B) a s s' (Q : S -> res B -> Prop) :
  m s = (s', Ok a) -> m_holds (k a) s' Q -> m_holds (m_bind m k) s Q.
Proof. intros Hm Hk. unfold m_holds. by rewrite (m_bind_ok _ _ _ _ _ Hm). Qed.

Lemma m_holds_assoc {A B C} (m : method A) (k : A -> method B) (h : B -> method C) s
    (Q : S -> res C -> Prop) :
  m_holds (m_bind (m_bind m k) h) s Q -> m_holds (m_bind m (fun a => m_bind (k a) h)) s Q.
Proof. unfold m_holds, m_bind. by destruct (m s) as [s' [a|e|]]. Qed.

End Methods.
Arguments method : clear implicits.

Lemma m_holds_ret {S A} (o : res A) (s : S) Q : o <> Panic -> Q s o -> m_holds (m_ret o) s Q.
Proof. by split. Qed.

(** Pure steps of a method. *)
Lemma m_holds_lift {S A B} (o : res A) (k : A -> method S B) (s : S) P (Q : S -> res B -> Prop) :
  holds o P -> (forall e, Q s (Err e)) -> (forall a, P a -> m_holds (k a) s Q) ->
  m_holds (m_bind (m_ret o) k) s Q.
Proof. intros Ho He Hk. destruct o; simpl in *; [by apply Hk|split; [done|apply He]|done]. Qed.

Lemma m_bind_lift {S A B} (o : res A) (k : A -> method S B) a s :
  o = Ok a -> m_bind (m_ret o) k s = k a s.
Proof. by intros ->. Qed.

Declare Scope method_scope.
Delimit Scope method_scope with method.
Notation "'let!' x := m 'in' k" := (m_bind m (fun x => k))
  (at level 10, x name, m at level 100, k at level 200,
   format "'[v' 'let!'  x  :=  m  'in' '/' k ']'") : method_scope.
Notation "'let!' ' p := m 'in' k" := (m_bind m (fun p => k))
  (at level 10, p strict pattern, m at level 100, k at level 200,
   format "'[v' 'let!'  ' p  :=  m  'in' '/' k ']'") : method_scope.
Open Scope method_scope.

(** The list of all codes, for the injectivity check. *)
Definition all_codes : list ErrorCode :=
  [InvalidArgument; ProbeFailed; Unsupported; StorageFailed; AgentUnavailable; ActionUnsupported; ResourceConflict; InvalidState; RollbackFailed; PersistenceFailed; SpeedFailed; ProtocolInvalid; ControlFrameTooLarge; ProtocolUnsupportedFlag; ProtocolIncompatible; NodeTransportFailed; NodeTlsFailed; NodeNotPaired; AuthorizationExpired; DataPlaneUnauthorized; OperationConflict; RandomFailed; PreflightFailed; BackendNotBuilt; LosslessCaptureNotCertified; HelperUnauthorized; HelperNotConfigured; HelperTransportFailed; HelperExecutionFailed; CaptureFormatInvalid; CaptureReadFailed].

Lemma all_codes_complete c : c ∈ all_codes.
Proof. destruct c; unfold all_codes; repeat (first [left | right]). Qed.

Lemma all_codes_distinct : NoDup (as_str <$> all_codes).
Proof. by apply (bool_decide_unpack _). Qed.

(** Distinct codes have distinct identifiers, so a client that compares the
    text decides the code. *)
Lemma as_str_inj c d : as_str c = as_str d -> c = d.
Proof.
  intros H.
  destruct (list_elem_of_lookup_1 _ _ (all_codes_complete c)) as [i Hi].
  destruct (list_elem_of_lookup_1 _ _ (all_codes_complete d)) as [j Hj].
  assert (i = j) as ->; [|congruence].
  eapply (NoDup_lookup _ i j (as_str c) all_codes_distinct);
    rewrite list_lookup_fmap; [by rewrite Hi|by rewrite Hj, H].
Qed.
