(* ===== verification/Text.v ===== *)
(** * Text

    [Display] of numbers and addresses, as the standard library writes them, and
    line-oriented operations of [str] on the UTF-8 encoding. *)

From stdpp Require Import base list sets strings pretty gmap sorting.
From Stdlib Require Import ZArith Lia.
From S2P Require Import Prelude.
Open Scope Z_scope.

(** ** Addresses. *)

(** [{segment:x}] of a 16-bit value. *)
Definition hex_segment (x : Z) : string :=
  let digit i := String (hex_digit ((x / 16 ^ i) mod 16)) "" in
  if x <? 16 then digit 0
  else if x <? 256 then digit 1 +:+ digit 0
  else if x <? 4096 then digit 2 +:+ digit 1 +:+ digit 0
  else digit 3 +:+ digit 2 +:+ digit 1 +:+ digit 0.

Definition ipv4_to_string (x : Z) : string :=
  String.concat "." (map dec (to_be_bytes 4 x)).

Definition segments (x : Z) : list Z :=
  map (fun i => (x / 2 ^ (16 * (7 - Z.of_nat i))) mod 65536) (seq 0 8).

(** The first longest run of zero segments, as start and length. *)
Fixpoint longest_zeros (l : list Z) (i : Z) (current longest : Z * Z) : Z * Z :=
  match l with
  | [] => longest
  | x :: l =>
      if x =? 0 then
        let current := if current.2 =? 0 then (i, 1) else (current.1, current.2 + 1) in
        longest_zeros l (i + 1) current (if longest.2 <? current.2 then current else longest)
      else longest_zeros l (i + 1) (0, 0) longest
  end.

Definition ipv6_to_string (x : Z) : string :=
  let s := segments x in
  if bool_decide (take 6 s = [0; 0; 0; 0; 0; 65535]) then "::ffff:" +:+ ipv4_to_string (x mod 2 ^ 32)
  else
    let '(start, n) := longest_zeros s 0 (0, 0) (0, 0) in
    let text l := String.concat ":" (map hex_segment l) in
    if 1 <? n
    then text (take (Z.to_nat start) s) +:+ "::" +:+ text (drop (Z.to_nat (start + n)) s)
    else text s.

Definition ip_to_string (a : IpAddr) : string :=
  match a with V4 x => ipv4_to_string x | V6 x => ipv6_to_string x end.

(** ** Numbers. *)

Lemma as_bytes_app a b : as_bytes (a +:+ b) = as_bytes a ++ as_bytes b.
Proof.
  unfold as_bytes. rewrite <- fmap_app. f_equal.
  induction a as [|c a IH]; [done|]. simpl. by f_equal.
Qed.

Lemma append_assoc a b c : (a +:+ b) +:+ c = a +:+ (b +:+ c).
Proof. apply as_bytes_inj. rewrite !as_bytes_app. by rewrite (assoc_L (++)). Qed.

Lemma as_bytes_String c s : as_bytes (String c s) = byte_of_ascii c :: as_bytes s.
Proof. done. Qed.

Lemma pretty_N_char_digit d :
  (d < 10)%N -> byte_of_ascii (pretty_N_char d) = 48 + Z.of_N d.
Proof.
  intros Hd. assert (d ∈ [0; 1; 2; 3; 4; 5; 6; 7; 8; 9]%N) as Hin.
  { rewrite !elem_of_cons. lia. }
  repeat (apply elem_of_cons in Hin as [->|Hin]; [reflexivity|]). by apply elem_of_nil in Hin.
Qed.

Lemma pretty_digits x s :
  Forall (fun b => 48 <= b <= 57) (as_bytes s) ->
  Forall (fun b => 48 <= b <= 57) (as_bytes (pretty_N_go x s)).
Proof.
  revert s. induction (N.lt_wf_0 x) as [x _ IH]. intros s Hs.
  destruct (decide (x = 0%N)) as [->|Hne]; [by rewrite pretty_N_go_0|].
  rewrite pretty_N_go_step by lia. apply IH; [apply N.div_lt; lia|].
  rewrite as_bytes_String. constructor; [|done].
  rewrite pretty_N_char_digit by (apply N.mod_lt; lia).
  rewrite N2Z.inj_mod. pose proof (Z.mod_pos_bound (Z.of_N x) 10 ltac:(lia)). lia.
Qed.

Lemma dec_digits q : Forall (fun b => 48 <= b <= 57) (as_bytes (dec q)).
Proof.
  unfold dec, pretty, pretty_N. destruct (decide _); [by repeat constructor|].
  apply pretty_digits. constructor.
Qed.

(** The string of some bytes. *)
Definition of_bytes (bs : bytes) : string :=
  String.string_of_list_ascii (map (fun b => Ascii.ascii_of_N (Z.to_N b)) bs).

Definition is_ascii_hexdigit (b : Z) : bool :=
  ((48 <=? b) && (b <=? 57)) || ((65 <=? b) && (b <=? 70)) || ((97 <=? b) && (b <=? 102)).

(** ** Lines. *)

(** The lines that a line feed ends, and what follows the last line feed. *)
Fixpoint cut (bs : bytes) : list bytes * bytes :=
  match bs with
  | [] => ([], [])
  | b :: bs =>
      let '(ls, r) := cut bs in
      if b =? 10 then ([] :: ls, r)
      else match ls with [] => ([], b :: r) | l :: ls => ((b :: l) :: ls, r) end
  end.

Definition ends_cr (l : bytes) : bool := bool_decide (last l = Some 13).
Definition strip_cr (l : bytes) : bytes := if ends_cr l then take (length l - 1) l else l.

(** [str::lines]: a line feed, or a carriage return and a line feed, ends a line. *)
Definition lines (bs : bytes) : list bytes :=
  let '(ls, r) := cut bs in map strip_cr ls ++ match r with [] => [] | _ => [r] end.

Definition starts_with (p bs : bytes) : bool := bool_decide (take (length p) bs = p).
Definition ends_with (p bs : bytes) : bool := starts_with (reverse p) (reverse bs).

(** [str::strip_prefix]. *)
Fixpoint strip_prefix (p bs : bytes) : option bytes :=
  match p, bs with
  | [], _ => Some bs
  | x :: p, y :: bs => if x =? y then strip_prefix p bs else None
  | _ :: _, [] => None
  end.

(** [contains] of a string. *)
Fixpoint contains (p bs : bytes) : bool :=
  starts_with p bs || match bs with [] => false | _ :: bs => contains p bs end.

(** [trim_end_matches] of a set of ASCII characters. *)
Fixpoint trim_start_matches (set bs : bytes) : bytes :=
  match bs with
  | [] => []
  | b :: rest => if bool_decide (b ∈ set) then trim_start_matches set rest else bs
  end.
Definition trim_end_matches (set bs : bytes) : bytes := reverse (trim_start_matches set (reverse bs)).

(** [split] at a non-empty pattern: [skip] bytes of a match are still to be skipped. *)
Fixpoint split_from (p : bytes) (skip : nat) (part bs : bytes) : list bytes :=
  match bs with
  | [] => [part]
  | b :: rest =>
      match skip with
      | S k => split_from p k part rest
      | O => if starts_with p bs then part :: split_from p (length p - 1) [] rest
             else split_from p 0 (part ++ [b]) rest
      end
  end.
Definition split (p bs : bytes) : list bytes := split_from p 0 [] bs.

(** [join] of lines. *)
Fixpoint join (sep : bytes) (ls : list bytes) : bytes :=
  match ls with
  | [] => []
  | [l] => l
  | l :: ls => l ++ sep ++ join sep ls
  end.

Example lines_cases :
  lines (as_bytes "") = [] /\ lines [97; 13; 10; 10; 98; 13] = [[97]; []; [98; 13]] /\
  split [13; 10] [97; 13; 10; 98; 10; 13; 10] = [[97]; [98; 10]; []] /\
  join [10] [[97]; []; [98]] = [97; 10; 10; 98] /\
  trim_end_matches [13; 10] [97; 10; 13; 10] = [97] /\ contains [13; 10] [97; 13; 13; 10] = true.
Proof. by vm_compute. Qed.

(** No line feed; no carriage return at the end. *)
Definition one_line (l : bytes) : Prop := 10 ∉ l.
Definition terminated (ls : list bytes) (r : bytes) : bytes := mjoin (map (fun l => l ++ [10]) ls) ++ r.

Lemma cut_terminated ls : forall r, Forall one_line ls -> one_line r -> cut (terminated ls r) = (ls, r).
Proof.
  unfold terminated. induction ls as [|l ls IH]; intros r Hls Hr.
  - simpl. induction r as [|b r IH]; [done|]. apply not_elem_of_cons in Hr as [Hb Hr]. simpl.
    rewrite IH by done. by rewrite (proj2 (Z.eqb_neq _ _)) by congruence.
  - apply Forall_cons in Hls as [Hl Hls]. simpl. specialize (IH r Hls Hr).
    rewrite <- !(assoc_L (++)). induction l as [|b l IHl].
    + simpl. by rewrite IH.
    + apply not_elem_of_cons in Hl as [Hb Hl]. simpl in *. rewrite IHl by done.
      by rewrite (proj2 (Z.eqb_neq _ _)) by congruence.
Qed.

Lemma cut_spec bs : bs = terminated (cut bs).1 (cut bs).2 /\ Forall one_line (cut bs).1 /\ one_line (cut bs).2.
Proof.
  induction bs as [|b bs (Heq&Hls&Hr)]; [split_and!; [done|apply Forall_nil_2|apply not_elem_of_nil]|].
  simpl. destruct (cut bs) as [ls r]. unfold terminated in *. simpl in *.
  destruct (Z.eqb_spec b 10) as [->|Hb].
  - simpl. split_and!; [by rewrite Heq at 1|apply Forall_cons; split; [apply not_elem_of_nil|done]|done].
  - destruct ls as [|l ls]; simpl in *.
    + split_and!; [by rewrite Heq at 1|apply Forall_nil_2|by apply not_elem_of_cons].
    + apply Forall_cons in Hls as [Hl Hls]. split_and!; [by rewrite Heq at 1| |done].
      apply Forall_cons. split; [by apply not_elem_of_cons|done].
Qed.

Lemma strip_prefix_app p l : strip_prefix p (p ++ l) = Some l.
Proof. induction p as [|x p IH]; simpl; [done|]. by rewrite Z.eqb_refl. Qed.

Lemma strip_prefix_some p bs rest : strip_prefix p bs = Some rest -> bs = p ++ rest.
Proof.
  revert bs. induction p as [|x p IH]; intros [|y bs]; simpl; [by intros [= <-]..|done|].
  destruct (Z.eqb_spec x y) as [->|]; [|done]. by intros ->%IH.
Qed.

Lemma starts_with_spec p bs : starts_with p bs = true <-> exists t, bs = p ++ t.
Proof.
  unfold starts_with. rewrite bool_decide_eq_true. split.
  - intros H. exists (drop (length p) bs). by rewrite <- H at 1; rewrite take_drop.
  - intros [t ->]. by rewrite take_app_length.
Qed.

Lemma ends_with_spec p bs : ends_with p bs = true <-> exists t, bs = t ++ p.
Proof.
  unfold ends_with. rewrite starts_with_spec. split; intros [t Ht].
  - exists (reverse t). apply (inj reverse). by rewrite reverse_app, reverse_involutive.
  - exists (reverse t). by rewrite Ht, reverse_app.
Qed.

(** ** A text rebuilt from its lines. *)

Definition CRLF : bytes := [13; 10].
Definition newline_of (crlf : bool) : bytes := (if crlf then [13] else []) ++ [10].

(** The lines [init] and [z], the last one ended by a newline or not. *)
Definition ended {A} (term : bool) (init : list A) (z : A) : list A := init ++ if term then [z] else [].
Definition text (crlf term : bool) (init : list bytes) (z : bytes) : bytes :=
  join (newline_of crlf) (init ++ [z]) ++ if term then newline_of crlf else [].

(** The lines of such a text are read back. *)
Record sound (crlf term : bool) (init : list bytes) (z : bytes) : Prop := {
  sound_lines : Forall one_line (init ++ [z]);
  sound_cr : crlf = false -> Forall (fun l => ends_cr l = false) (ended term init z);
  sound_last : term = false -> z <> [];
}.

Lemma strip_cr_snoc l : strip_cr (l ++ [13]) = l.
Proof.
  unfold strip_cr, ends_cr. rewrite last_snoc, bool_decide_true by done.
  rewrite length_app. simpl. replace (length l + 1 - 1)%nat with (length l) by lia. apply take_app_length.
Qed.

Lemma strip_cr_same l : ends_cr l = false -> strip_cr l = l.
Proof. unfold strip_cr. by intros ->. Qed.

Lemma one_line_strip l : one_line l -> one_line (strip_cr l).
Proof.
  unfold strip_cr, one_line. destruct (ends_cr l); [|done]. intros Hl Hin. apply Hl.
  rewrite <- (take_drop (length l - 1) l). apply elem_of_app. by left.
Qed.

Lemma join_snoc sep init z : join sep (init ++ [z]) = mjoin (map (fun l => l ++ sep) init) ++ z.
Proof.
  induction init as [|l init IH]; [done|]. simpl. rewrite IH.
  destruct (init ++ [z]) eqn:He; [by destruct init|]. by rewrite <- !(assoc_L (++)).
Qed.

Lemma text_terminated crlf term init z : text crlf term init z =
  terminated (map (fun l => l ++ if crlf then [13] else []) (ended term init z)) (if term then [] else z).
Proof.
  unfold text, ended, terminated, newline_of. rewrite join_snoc, !map_app, map_map.
  assert (map (fun l : bytes => l ++ (if crlf then [13] else []) ++ [10]) init =
          map (fun l => (l ++ if crlf then [13] else []) ++ [10]) init) as ->.
  { apply map_ext. intros l. by rewrite (assoc_L (++)). }
  destruct term; simpl; rewrite ?app_nil_r; [|done].
  rewrite join_app. simpl. by rewrite app_nil_r, <- !(assoc_L (++)).
Qed.

Lemma text_cut crlf term init z : Forall one_line (init ++ [z]) ->
  cut (text crlf term init z) =
    (map (fun l => l ++ if crlf then [13] else []) (ended term init z), if term then [] else z).
Proof.
  intros Hl. rewrite text_terminated. apply Forall_app in Hl as [Hi [Hz _]%Forall_cons].
  apply cut_terminated.
  - apply Forall_fmap. unfold ended. apply Forall_app. split.
    + eapply Forall_impl; [exact Hi|]. intros l Hl. unfold compose, one_line in *.
      rewrite elem_of_app. destruct crlf; set_solver.
    + destruct term; [|apply Forall_nil_2]. apply Forall_singleton. unfold compose, one_line in *.
      rewrite elem_of_app. destruct crlf; set_solver.
  - destruct term; [apply not_elem_of_nil|done].
Qed.

Lemma text_lines crlf term init z : sound crlf term init z -> lines (text crlf term init z) = init ++ [z].
Proof.
  intros [Hl Hcr Hz]. unfold lines. rewrite text_cut by done. rewrite map_map.
  assert (map (fun l => strip_cr (l ++ if crlf then [13] else [])) (ended term init z) = ended term init z) as ->.
  { rewrite <- (map_id (ended term init z)) at 2. destruct crlf.
    - apply map_ext. intros l. apply strip_cr_snoc.
    - apply map_ext_Forall. eapply Forall_impl; [by apply Hcr|]. intros l Hl'. simpl.
      rewrite app_nil_r. by apply strip_cr_same. }
  unfold ended. destruct term; simpl; rewrite <- ?(assoc_L (++)); [by rewrite app_nil_r|].
  destruct z; [by destruct (Hz eq_refl)|done].
Qed.

Lemma contains_line l bs : one_line l ->
  contains CRLF (l ++ 10 :: bs) = ends_cr l || contains CRLF bs.
Proof.
  unfold ends_cr. induction l as [|b l IH]; intros Hl; [done|].
  apply not_elem_of_cons in Hl as [Hb Hl]. cbn [app contains]. rewrite IH by done.
  unfold starts_with, CRLF. destruct l as [|c l].
  - cbn [app length take last]. rewrite (bool_decide_false (None = Some 13)) by done. f_equal. apply bool_decide_ext. split; [by intros [= ->]|by intros [= ->]].
  - apply not_elem_of_cons in Hl as [Hc _]. cbn [app length take].
    rewrite bool_decide_false by congruence. simpl. done.
Qed.

Lemma contains_none l : one_line l -> contains CRLF l = false.
Proof.
  induction l as [|b l IH]; intros Hl; [done|]. apply not_elem_of_cons in Hl as [Hb Hl]. cbn [contains].
  rewrite IH by done. unfold starts_with, CRLF. rewrite bool_decide_false; [done|].
  destruct l as [|c l]; [done|]. apply not_elem_of_cons in Hl as [Hc _]. simpl. congruence.
Qed.

Lemma contains_terminated ls r : Forall one_line ls -> one_line r ->
  contains CRLF (terminated ls r) = existsb ends_cr ls.
Proof.
  intros Hls Hr. unfold terminated. induction Hls as [|l ls Hl _ IH]; [by apply contains_none|].
  simpl. rewrite <- !(assoc_L (++)). simpl. by rewrite contains_line, IH.
Qed.

Lemma contains_crlf bs : contains CRLF bs = existsb ends_cr (cut bs).1.
Proof. destruct (cut_spec bs) as (He&Hl&Hr). rewrite He at 1. by apply contains_terminated. Qed.

Lemma ends_lf_terminated ls r : one_line r ->
  ends_with [10] (terminated ls r) = bool_decide (r = []) && negb (bool_decide (ls = [])).
Proof.
  intros Hr. apply eq_true_iff_eq. rewrite ends_with_spec, andb_true_iff, negb_true_iff, bool_decide_eq_true,
    bool_decide_eq_false. unfold terminated. split.
  - intros [t Ht]. destruct r as [|r c _] using rev_ind.
    + split; [done|]. intros ->. by destruct t.
    + exfalso. rewrite (assoc_L (++)) in Ht. apply app_inj_2 in Ht as [_ [= ->]]; [|done].
      apply Hr. apply elem_of_app. right. by left.
  - intros [-> Hls]. destruct ls as [|l ls _] using rev_ind; [done|].
    rewrite map_app, join_app. simpl. exists (mjoin (map (fun l => l ++ [10]) ls) ++ l).
    by rewrite !app_nil_r, <- (assoc_L (++)).
Qed.

(** Every text with a line is sound for its own newline and end. *)
Lemma lines_sound bs init z : lines bs = init ++ [z] ->
  sound (contains CRLF bs) (ends_with [10] bs) init z.
Proof.
  destruct (cut_spec bs) as (He&Hls&Hr). rewrite contains_crlf.
  assert (ends_with [10] bs = bool_decide ((cut bs).2 = []) && negb (bool_decide ((cut bs).1 = []))) as ->.
  { rewrite He at 1. by apply ends_lf_terminated. }
  clear He. unfold lines. destruct (cut bs) as [ls r]. simpl in *.
  assert (Forall one_line (map strip_cr ls)) as Hsl.
  { apply Forall_fmap. eapply Forall_impl; [exact Hls|]. intros l. apply one_line_strip. }
  assert (existsb ends_cr ls = false -> map strip_cr ls = ls /\ Forall (fun l => ends_cr l = false) ls) as Hsame.
  { clear. induction ls as [|l ls IH]; [done|]. simpl. intros [Hl Hx]%orb_false_iff.
    destruct (IH Hx) as [-> ?]. rewrite strip_cr_same by done. split; [done|by constructor]. }
  destruct r as [|c r].
  - rewrite app_nil_r. intros Heq. assert (ls <> []) as Hne by (intros ->; by destruct init).
    rewrite (bool_decide_true ([] = [])), bool_decide_false by done. simpl.
    split; [by rewrite <- Heq| |done]. intros Hcr. unfold ended. rewrite <- Heq.
    by destruct (Hsame Hcr) as [-> ?].
  - intros [<- [= <-]]%app_inj_2; [|done]. rewrite bool_decide_false by done. simpl.
    split; [| |done].
    + apply Forall_app. split; [done|by apply Forall_singleton].
    + intros Hcr. unfold ended. rewrite app_nil_r. by destruct (Hsame Hcr) as [-> ?].
Qed.

Lemma text_ends crlf term init z : sound crlf term init z -> ends_with [10] (text crlf term init z) = term.
Proof.
  intros [Hl _ Hz]. rewrite text_terminated, ends_lf_terminated.
  - destruct term; [|by rewrite bool_decide_false by (by apply Hz)].
    rewrite bool_decide_true, bool_decide_false; [done| |done]. unfold ended. by destruct init.
  - apply Forall_app in Hl as [_ [Hz' _]%Forall_cons]. destruct term; [apply not_elem_of_nil|done].
Qed.

Lemma text_newline crlf term init z : sound crlf term init z -> ended term init z <> [] ->
  contains CRLF (text crlf term init z) = crlf.
Proof.
  intros [Hl Hcr _] Hne. rewrite contains_crlf, text_cut by done. simpl. destruct crlf.
  - destruct (ended term init z) as [|l ls]; [done|]. simpl. unfold ends_cr.
    by rewrite last_snoc, bool_decide_true.
  - specialize (Hcr eq_refl). clear -Hcr. induction Hcr as [|l ls Hl _ IH]; [done|]. simpl.
    by rewrite app_nil_r, Hl.
Qed.

(** ** Lines without line breaks are split again. *)

Definition clean (l : bytes) : Prop := 10 ∉ l /\ 13 ∉ l.

Lemma split_clean crlf l : forall part rest, clean l ->
  split_from (newline_of crlf) 0 part (l ++ newline_of crlf ++ rest) =
    (part ++ l) :: split (newline_of crlf) rest /\
  split_from (newline_of crlf) 0 part l = [part ++ l].
Proof.
  induction l as [|b l IH]; intros part rest Hl.
  - rewrite app_nil_r. split; [|done]. by destruct crlf.
  - destruct Hl as [[Hb Hl]%not_elem_of_cons [Hc Hl']%not_elem_of_cons].
    destruct (IH (part ++ [b]) rest (conj Hl Hl')) as [IH1 IH2]. rewrite <- (assoc_L (++)) in IH1, IH2.
    assert (forall bs, starts_with (newline_of crlf) (b :: bs) = false) as Hno.
    { intros bs. unfold starts_with. rewrite bool_decide_false; [done|]. destruct crlf; unfold newline_of; simpl; congruence. }
    split; cbn [app split_from]; rewrite Hno; [exact IH1|exact IH2].
Qed.

Lemma split_join crlf ls l : Forall clean (ls ++ [l]) ->
  split (newline_of crlf) (join (newline_of crlf) (ls ++ [l])) = ls ++ [l].
Proof.
  intros [Hls [Hl _]%Forall_cons]%Forall_app. rewrite join_snoc.
  induction Hls as [|k ls Hk _ IH]; simpl; [by apply (split_clean crlf l [] [])|].
  rewrite <- !(assoc_L (++)). unfold split at 1.
  destruct (split_clean crlf k [] (mjoin (map (fun l => l ++ newline_of crlf) ls) ++ l) Hk) as [-> _].
  simpl. by rewrite IH.
Qed.

Lemma trim_newline crlf l c : c <> 10 -> c <> 13 ->
  trim_end_matches CRLF (l ++ [c] ++ newline_of crlf) = l ++ [c].
Proof.
  intros H1 H2. unfold trim_end_matches. rewrite !reverse_app. apply (inj reverse).
  rewrite reverse_involutive, reverse_app. unfold CRLF.
  assert (forall k, trim_start_matches [13; 10] (c :: k) = c :: k) as Hc.
  { intros k. simpl. rewrite bool_decide_false; [done|]. set_solver. }
  destruct crlf.
  - change (reverse (newline_of true)) with [10; 13]. simpl in *. by rewrite Hc.
  - change (reverse (newline_of false)) with [10]. simpl in *. by rewrite Hc.
Qed.

(** ** Trimming text that begins or ends with a visible ASCII character. *)

Definition visible (c : Z) : Prop := 33 <= c <= 126.

Lemma trim_start_visible c l : visible c -> trim_start (c :: l) = c :: l.
Proof.
  unfold visible. intros Hc. cbn [trim_start].
  rewrite (proj2 (Z.leb_gt c 13)), (proj2 (Z.eqb_neq c 32)), andb_false_r by lia. simpl.
  destruct l as [|b l]; [done|]. rewrite (proj2 (Z.eqb_neq c 194)) by lia. simpl.
  destruct l as [|d l]; [done|].
  by rewrite (proj2 (Z.leb_gt c 13)), !andb_false_r, !(proj2 (Z.eqb_neq c _)) by lia.
Qed.

Lemma trim_end_prefix l : exists t, l = trim_end l ++ t.
Proof.
  induction l as [|b l [t Ht]]; [by exists []|]. cbn [trim_end].
  destruct (blank (b :: l)); [by exists (b :: l)|]. exists t. simpl. by rewrite <- Ht.
Qed.

Lemma blank_visible l c : visible c -> blank (l ++ [c]) = false.
Proof.
  unfold visible. intros Hc. remember (length l) as n eqn:Hn. revert l Hn.
  induction (lt_wf n) as [n _ IH]. intros l Hn.
  assert ((9 <=? c) && (c <=? 13) = false) as H1 by (rewrite (proj2 (Z.leb_gt c 13)) by lia; apply andb_false_r).
  assert (forall k, (length k < length l)%nat -> blank (k ++ [c]) = false) as Hk.
  { intros k Hk. apply (IH (length k)); [by subst|done]. }
  clear IH Hn. destruct l as [|a l]; [simpl; rewrite H1; by rewrite (proj2 (Z.eqb_neq c 32)) by lia|].
  cbn [app blank]. match goal with |- (if ?x then _ else _) = _ => destruct x end; [apply Hk; simpl; lia|].
  destruct l as [|b l].
  { simpl. rewrite !(proj2 (Z.eqb_neq c _)) by lia. by rewrite andb_false_r. }
  cbn [app]. match goal with |- (if ?x then _ else _) = _ => destruct x end; [apply Hk; simpl; lia|].
  destruct l as [|d l].
  { simpl. rewrite !(proj2 (Z.eqb_neq c _)), (proj2 (Z.leb_gt 128 c)) by lia. by rewrite !andb_false_r. }
  cbn [app]. match goal with |- (if ?x then _ else _) = _ => destruct x end; [|done]. apply Hk; simpl; lia.
Qed.

Lemma trim_end_visible l c : visible c -> trim_end (l ++ [c]) = l ++ [c].
Proof.
  intros Hc. induction l as [|b l IH]; cbn [app trim_end].
  - pose proof (blank_visible [] c Hc) as Hb. cbn [app] in Hb. by rewrite Hb.
  - pose proof (blank_visible (b :: l) c Hc) as Hb. cbn [app] in Hb. by rewrite Hb, IH.
Qed.

(** ** The characters of an address. *)

Definition ip_char (c : Z) : Prop := 48 <= c <= 57 \/ 97 <= c <= 102 \/ c = 46 \/ c = 58.

Lemma concat_chars (P : Z -> Prop) sep ls : Forall P (as_bytes sep) ->
  Forall (fun s => Forall P (as_bytes s)) ls -> Forall P (as_bytes (String.concat sep ls)).
Proof.
  intros Hs Hls. induction Hls as [|s ls Hl Hls IH]; [apply Forall_nil_2|]. simpl.
  destruct ls; [done|]. rewrite !as_bytes_app, !Forall_app. done.
Qed.

Lemma hex_digit_char d : 0 <= d < 16 -> ip_char (byte_of_ascii (hex_digit d)).
Proof.
  intros Hd. unfold hex_digit, byte_of_ascii, ip_char. destruct (Z.ltb_spec d 10);
    rewrite Ascii.N_ascii_embedding by lia; lia.
Qed.

Lemma hex_segment_chars x : Forall ip_char (as_bytes (hex_segment x)).
Proof.
  unfold hex_segment. set (digit := fun i => String (hex_digit ((x / 16 ^ i) mod 16)) "").
  assert (forall i, Forall ip_char (as_bytes (digit i))) as Hd.
  { intros i. unfold digit. rewrite as_bytes_String. constructor; [|apply Forall_nil_2].
    apply hex_digit_char. apply Z.mod_pos_bound. lia. }
  repeat case_match; rewrite ?as_bytes_app, ?Forall_app; repeat split; apply Hd.
Qed.

Lemma ipv4_chars x : Forall ip_char (as_bytes (ipv4_to_string x)).
Proof.
  apply concat_chars; [apply Forall_singleton; unfold ip_char; vm_compute; tauto|].
  apply Forall_fmap, Forall_true. intros b. unfold compose.
  eapply Forall_impl; [apply dec_digits|]. intros c Hc. by left.
Qed.

Lemma ip_chars a : Forall ip_char (as_bytes (ip_to_string a)).
Proof.
  assert (ip_char 58) as H58 by (unfold ip_char; tauto).
  assert (forall l, Forall ip_char (as_bytes (String.concat ":" (map hex_segment l)))) as Ht.
  { intros l. apply concat_chars; [by apply Forall_singleton|].
    apply Forall_fmap, Forall_true. intros s. apply hex_segment_chars. }
  destruct a as [x|x]; [apply ipv4_chars|]. unfold ip_to_string, ipv6_to_string.
  case_bool_decide; [|destruct (longest_zeros _ _ _ _) as [start n]; destruct (1 <? n)];
    rewrite ?as_bytes_app, ?Forall_app; repeat split; auto using ipv4_chars.
  - change (as_bytes "::ffff:") with [58; 58; 102; 102; 102; 102; 58].
    repeat (apply Forall_cons_2; [unfold ip_char; lia|]). apply Forall_nil_2.
  - change (as_bytes "::") with [58; 58]. by repeat (apply Forall_cons_2; [done|]).
Qed.

Lemma concat_first sep s ls : as_bytes s <> [] -> as_bytes (String.concat sep (s :: ls)) <> [].
Proof.
  intros Hs. simpl. destruct ls; [done|]. rewrite as_bytes_app. by destruct (as_bytes s).
Qed.

Lemma hex_segment_nonempty x : as_bytes (hex_segment x) <> [].
Proof. unfold hex_segment. by repeat case_match. Qed.

Lemma dec_nonempty x : as_bytes (dec x) <> [].
Proof.
  unfold dec, pretty, pretty_N. destruct (decide _) as [|Hne]; [done|].
  rewrite pretty_N_go_step by lia.
  assert (forall n s, as_bytes s <> [] -> as_bytes (pretty_N_go n s) <> []) as Hgo; [|by apply Hgo].
  intros n. induction (N.lt_wf_0 n) as [n _ IH]. intros s Hs.
  destruct (decide (n = 0%N)) as [->|]; [by rewrite pretty_N_go_0|].
  rewrite pretty_N_go_step by lia. apply IH; [apply N.div_lt; lia|done].
Qed.

Lemma ip_nonempty a : as_bytes (ip_to_string a) <> [].
Proof.
  assert (forall x, as_bytes (ipv4_to_string x) <> []) as H4.
  { intros x. unfold ipv4_to_string. pose proof (to_be_bytes_length 4 x) as Hl.
    destruct (to_be_bytes 4 x) as [|b l]; [done|]. apply concat_first, dec_nonempty. }
  destruct a as [x|x]; [apply H4|]. unfold ip_to_string, ipv6_to_string.
  case_bool_decide; [by rewrite as_bytes_app|].
  destruct (longest_zeros _ _ _ _) as [start n]; destruct (1 <? n).
  - rewrite !as_bytes_app. by destruct (as_bytes (String.concat ":" (map hex_segment (take (Z.to_nat start) (segments x))))).
  - unfold segments. cbn [seq map]. apply concat_first, hex_segment_nonempty.
Qed.

(** ** Texts one after the other. *)

Lemma terminated_app ls ls' r : terminated ls (terminated ls' r) = terminated (ls ++ ls') r.
Proof. unfold terminated. by rewrite map_app, join_app, (assoc_L (++)). Qed.

(** A text that is empty or ends with a line feed is continued by new lines. *)
Lemma lines_app x y : x = [] \/ ends_with [10] x = true -> lines (x ++ y) = lines x ++ lines y.
Proof.
  intros Hx. destruct (cut_spec x) as (Hex&Hlx&Hrx), (cut_spec y) as (Hey&Hly&Hry).
  assert ((cut x).2 = []) as Hx2.
  { destruct Hx as [->|Hx]; [done|]. rewrite Hex, ends_lf_terminated in Hx by done.
    apply andb_true_iff in Hx as [Hx _]. by apply bool_decide_eq_true in Hx. }
  assert (cut (x ++ y) = ((cut x).1 ++ (cut y).1, (cut y).2)) as Hc.
  { rewrite Hex at 1. rewrite Hx2, Hey at 1. unfold terminated at 1. rewrite app_nil_r.
    fold (terminated (cut x).1 (terminated (cut y).1 (cut y).2)). rewrite terminated_app.
    apply cut_terminated; [by apply Forall_app|done]. }
  unfold lines. rewrite Hc. destruct (cut x) as [lx rx], (cut y) as [ly ry]. simpl in *. subst rx.
  by rewrite app_nil_r, map_app, (assoc_L (++)).
Qed.

Lemma ends_lf_newline crlf x : ends_with [10] (x ++ newline_of crlf) = true.
Proof. apply ends_with_spec. unfold newline_of. exists (x ++ if crlf then [13] else []). by rewrite <- (assoc_L (++)). Qed.

(** ** Parsing. *)

(** [std::str::from_utf8] accepts exactly the well-formed sequences. *)
Definition continuation (b : Z) : bool := (0x80 <=? b) && (b <=? 0xbf).
Definition between (a b x : Z) : bool := (a <=? x) && (x <=? b).

Fixpoint utf8_valid (bs : bytes) : bool :=
  match bs with
  | [] => true
  | a :: t0 =>
      if a <? 0x80 then utf8_valid t0
      else
        match t0 with
        | [] => false
        | b :: t1 =>
            if between 0xc2 0xdf a then continuation b && utf8_valid t1
            else
              match t1 with
              | [] => false
              | c :: t2 =>
                  if between 0xe0 0xef a then
                    between (if a =? 0xe0 then 0xa0 else 0x80) (if a =? 0xed then 0x9f else 0xbf) b
                    && continuation c && utf8_valid t2
                  else
                    match t2 with
                    | [] => false
                    | d :: t3 =>
                        between 0xf0 0xf4 a &&
                        between (if a =? 0xf0 then 0x90 else 0x80)
                                (if a =? 0xf4 then 0x8f else 0xbf) b
                        && continuation c && continuation d && utf8_valid t3
                    end
              end
        end
  end.

Fixpoint parse_digits (w acc : Z) (bs : bytes) : option Z :=
  match bs with
  | [] => Some acc
  | b :: bs =>
      if between 48 57 b then
        let acc := acc * 10 + (b - 48) in
        if acc <=? umax w then parse_digits w acc bs else None
      else None
  end.

(** [str::parse] of an unsigned integer of [w] bits: digits with an optional plus sign. *)
Definition parse_unsigned (w : Z) (bs : bytes) : option Z :=
  match bs with
  | [] => None
  | [b] => if (b =? 43) || (b =? 45) then None else parse_digits w 0 bs
  | b :: rest => if b =? 43 then parse_digits w 0 rest else parse_digits w 0 bs
  end.

Lemma parse_digits_uint w acc bs q : 0 <= acc <= umax w -> parse_digits w acc bs = Some q -> uint w q.
Proof.
  revert acc. induction bs as [|b bs IH]; intros acc Ha; simpl; [by intros [= <-]|].
  unfold between. destruct (_ && _) eqn:Hd; [|done].
  destruct (acc * 10 + (b - 48) <=? umax w) eqn:Hm; [|done]. apply IH. lia.
Qed.

Lemma parse_unsigned_uint w bs q : 0 <= umax w -> parse_unsigned w bs = Some q -> uint w q.
Proof.
  intros Hw.
  unfold parse_unsigned. destruct bs as [|b [|b' bs]]; [done|..];
    (destruct (_ || _) || destruct (_ =? _)); try done; by apply parse_digits_uint.
Qed.

(** Parsing the decimal text of [x] continues as if [x] had been accumulated. *)
Lemma parse_digits_pretty w x s :
  Z.of_N x <= umax w ->
  parse_digits w 0 (as_bytes (pretty_N_go x s)) = parse_digits w (Z.of_N x) (as_bytes s).
Proof.
  revert s. induction (N.lt_wf_0 x) as [x _ IH]. intros s Hx.
  destruct (decide (x = 0%N)) as [->|Hne]; [by rewrite pretty_N_go_0|].
  rewrite pretty_N_go_step by lia.
  assert (Z.of_N (x / 10) = Z.of_N x / 10) as Hdiv by apply N2Z.inj_div.
  assert (Z.of_N (x mod 10) = Z.of_N x mod 10) as Hmod by (apply N2Z.inj_mod).
  pose proof (Z.div_mod (Z.of_N x) 10 ltac:(lia)). pose proof (Z.mod_pos_bound (Z.of_N x) 10 ltac:(lia)).
  rewrite IH; [|apply N.div_lt; lia|rewrite Hdiv; lia].
  rewrite as_bytes_String. simpl. rewrite pretty_N_char_digit by (apply N.mod_lt; lia).
  rewrite Hdiv, Hmod. unfold between.
  rewrite (proj2 (Z.leb_le 48 _)), (proj2 (Z.leb_le _ 57)) by lia. simpl.
  replace (Z.of_N x / 10 * 10 + (48 + Z.of_N x mod 10 - 48)) with (Z.of_N x) by lia.
  by rewrite (proj2 (Z.leb_le _ _)) by lia.
Qed.

(** [to_string] is parsed back. *)
Lemma parse_unsigned_dec w q : uint w q -> parse_unsigned w (as_bytes (dec q)) = Some q.
Proof.
  intros Hq. pose proof (dec_digits q) as Hd.
  assert (parse_digits w 0 (as_bytes (dec q)) = Some q) as Hp.
  { unfold dec, pretty, pretty_N. destruct (decide (Z.to_N q = 0%N)).
    - assert (q = 0) as -> by (destruct Hq; lia). destruct Hq.
      change (parse_digits w 0 (as_bytes "0")) with (if 0 <=? umax w then Some 0 else None).
      by rewrite (proj2 (Z.leb_le _ _)) by lia.
    - rewrite parse_digits_pretty by (destruct Hq; lia). simpl. f_equal. destruct Hq; lia. }
  assert (as_bytes (dec q) <> []) as Hne.
  { unfold dec, pretty, pretty_N. destruct (decide (Z.to_N q = 0%N)) as [|Hz]; [done|].
    intros He. pose proof (parse_digits_pretty w (Z.to_N q) "" ltac:(destruct Hq; lia)) as H.
    rewrite He in H. simpl in H. injection H as H. destruct Hq. lia. }
  unfold parse_unsigned. destruct (as_bytes (dec q)) as [|b [|b' bs]]; [done|..];
    apply Forall_cons in Hd as [Hb _].
  - rewrite (proj2 (Z.eqb_neq b 43)), (proj2 (Z.eqb_neq b 45)) by lia. exact Hp.
  - rewrite (proj2 (Z.eqb_neq b 43)) by lia. exact Hp.
Qed.

Lemma utf8_ascii bs : Forall (fun b => 0 <= b < 128) bs -> utf8_valid bs = true.
Proof.
  induction 1 as [|b bs Hb _ IH]; [done|]. simpl. by rewrite (proj2 (Z.ltb_lt _ _)) by lia.
Qed.

(** ** ASCII case, and maps in the order of their keys. *)

(** [eq_ignore_ascii_case]. *)
Definition to_ascii_lowercase (c : Z) : Z := if (65 <=? c) && (c <=? 90) then c + 32 else c.
Definition eq_ignore_ascii_case (a b : bytes) : bool :=
  bool_decide (map to_ascii_lowercase a = map to_ascii_lowercase b).

(** The entries of a [BTreeMap] in order. *)
Definition string_le (s t : string) : Prop := String.leb s t = true.
#[export] Instance string_le_dec : RelDecision string_le.
Proof. intros s t. unfold string_le. apply _. Defined.
Definition key_le {A} (x y : string * A) : Prop := string_le x.1 y.1.
#[export] Instance key_le_dec {A} (x y : string * A) : Decision (key_le x y).
Proof. unfold key_le. apply _. Defined.
Definition btree_iter {A} (m : gmap string A) : list (string * A) := merge_sort key_le (map_to_list m).

Lemma btree_iter_keys {A} (m : gmap string A) : NoDup (btree_iter m).*1.
Proof. unfold btree_iter. rewrite merge_sort_Permutation. apply NoDup_fst_map_to_list. Qed.
Lemma btree_iter_elem {A} (m : gmap string A) p v : (p, v) ∈ btree_iter m <-> m !! p = Some v.
Proof. unfold btree_iter. rewrite merge_sort_Permutation. apply elem_of_map_to_list. Qed.
