(* ===== verification/PacketParser.v ===== *)
(** * Ethernet / IP / transport parser

    Model of [crates/packet/src/parser.rs]. A borrowed slice is the list of
    its bytes; [slice.get(a..b)] is [get_range], a direct index or slice is
    [index] / [slice], whose failure is [Panic]. The [while] loop over VLAN
    tags and the eight-step loop over IPv6 extension headers are recursive
    functions on an iteration budget; running out of the VLAN budget is a
    [Panic], and [parse_packet_total] shows that this never happens. *)

From stdpp Require Import base list.
From Stdlib Require Import ZArith Lia.
From S2P Require Import Prelude.
Open Scope Z_scope.

Definition ETHERNET_HEADER_LENGTH : Z := 14.
Definition VLAN_HEADER_LENGTH : Z := 4.
Definition ETHERTYPE_VLAN : Z := 0x8100.
Definition ETHERTYPE_QINQ : Z := 0x88a8.
Definition ETHERTYPE_ARP : Z := 0x0806.
Definition ETHERTYPE_IPV4 : Z := 0x0800.
Definition ETHERTYPE_IPV6 : Z := 0x86dd.

Inductive ParseError :=
| Truncated
| Malformed
| TooManyVlanTags
| TooManyIpv6Extensions.

Record VlanTag := {
  priority : Z;
  drop_eligible : bool;
  identifier : Z;
}.

Record EthernetHeader := {
  eth_destination : bytes;
  eth_source : bytes;
  vlan_tags : list (option VlanTag);
  ether_type : Z;
}.

Record ArpPacket := {
  hardware_type : Z;
  protocol_type : Z;
  operation : Z;
  arp_bytes : bytes;
}.

Record IpPacket := {
  ip_source : IpAddr;
  ip_destination : IpAddr;
  ip_protocol : Z;
  non_initial_fragment : bool;
  ip_payload : bytes;
}.

Record TcpSegment := {
  tcp_source_port : Z;
  tcp_destination_port : Z;
  sequence : Z;
  acknowledgement : Z;
  flags : Z;
  window : Z;
  tcp_payload : bytes;
}.

Record UdpDatagram := {
  udp_source_port : Z;
  udp_destination_port : Z;
  udp_payload : bytes;
}.

Record IcmpPacket := {
  message_type : Z;
  icmp_code : Z;
  icmp_payload : bytes;
}.

Inductive TransportPacket :=
| Tcp (segment : TcpSegment)
| Udp (datagram : UdpDatagram)
| Icmp (packet : IcmpPacket)
| Icmpv6 (packet : IcmpPacket)
| Fragment
| Other (protocol : Z) (other_bytes : bytes).

Record ParsedPacket := {
  ethernet : EthernetHeader;
  arp : option ArpPacket;
  ip : option IpPacket;
  transport : option TransportPacket;
}.

Abbreviation parse A := (outcome ParseError A).

Definition read_u16 (bs : bytes) (offset : Z) : parse Z :=
  let? value := ok_or (get_range bs offset (offset + 2)) Truncated in
  let? b0 := index value 0 in
  let? b1 := index value 1 in
  Ok (from_be_bytes [b0; b1]).

Definition read_u32 (bs : bytes) (offset : Z) : parse Z :=
  let? value := ok_or (get_range bs offset (offset + 4)) Truncated in
  let? b0 := index value 0 in
  let? b1 := index value 1 in
  let? b2 := index value 2 in
  let? b3 := index value 3 in
  Ok (from_be_bytes [b0; b1; b2; b3]).

Definition is_vlan_type (t : Z) : bool := (t =? ETHERTYPE_VLAN) || (t =? ETHERTYPE_QINQ).

Definition vlan_tag_of_control (control : Z) : VlanTag := {|
  priority := Z.land (Z.shiftr control 13) 0x07;
  drop_eligible := negb (Z.land control 0x1000 =? 0);
  identifier := Z.land control 0x0fff;
|}.

(** The [while matches!(ether_type, VLAN | QINQ)] loop. *)
Fixpoint vlan_loop (fuel : nat) (frame : bytes) (etype : Z)
    (tags : list (option VlanTag)) (offset count : Z)
    : parse (Z * list (option VlanTag)) :=
  if is_vlan_type etype then
    match fuel with
    | O => Panic
    | S fuel =>
        if count =? len tags then Err TooManyVlanTags
        else
          let? tag := ok_or (get_range frame offset (offset + VLAN_HEADER_LENGTH)) Truncated in
          let? control := read_u16 tag 0 in
          let? tags' := set_index tags count (Some (vlan_tag_of_control control)) in
          let? etype' := read_u16 tag 2 in
          vlan_loop fuel frame etype' tags' (offset + VLAN_HEADER_LENGTH) (count + 1)
    end
  else Ok (etype, tags).

Definition parse_ethernet (frame : bytes) : parse EthernetHeader :=
  let? base := ok_or (get_range frame 0 ETHERNET_HEADER_LENGTH) Truncated in
  let? destination := slice base 0 6 in
  let? source := slice base 6 12 in
  let? etype := read_u16 base 12 in
  let? '(etype', tags) := vlan_loop 3 frame etype [None; None] ETHERNET_HEADER_LENGTH 0 in
  Ok {| eth_destination := destination; eth_source := source;
        vlan_tags := tags; ether_type := etype' |}.

Definition parse_arp (bs : bytes) : parse ArpPacket :=
  let? header := ok_or (get_range bs 0 8) Truncated in
  let? hardware_length := index header 4 in
  let? protocol_length := index header 5 in
  let? required :=
    ok_or (checked_add 64 8
             (sat_mul 64 2 (sat_add 64 hardware_length protocol_length))) Malformed in
  let? view := ok_or (get_range bs 0 required) Truncated in
  let? htype := read_u16 header 0 in
  let? ptype := read_u16 header 2 in
  let? op := read_u16 header 6 in
  Ok {| hardware_type := htype; protocol_type := ptype; operation := op; arp_bytes := view |}.

Definition parse_ipv4 (bs : bytes) : parse IpPacket :=
  let? base := ok_or (get_range bs 0 20) Truncated in
  let? b0 := index base 0 in
  if negb (Z.shiftr b0 4 =? 4) then Err Malformed
  else
    let header_length := Z.land b0 0x0f * 4 in
    if header_length <? 20 then Err Malformed
    else
      let? total_length := read_u16 base 2 in
      if total_length <? header_length then Err Malformed
      else
        let? packet := ok_or (get_range bs 0 total_length) Truncated in
        let? fragment := read_u16 base 6 in
        let? source := slice base 12 16 in
        let? destination := slice base 16 20 in
        let? protocol := index base 9 in
        let? payload := slice_from packet header_length in
        Ok {| ip_source := V4 (from_be_bytes source);
              ip_destination := V4 (from_be_bytes destination);
              ip_protocol := protocol;
              non_initial_fragment := negb (Z.land fragment 0x1fff =? 0);
              ip_payload := payload |}.

(** One classification step of the extension-header loop: [None] for a
    protocol that ends the chain, otherwise the next header, the length of
    this header and the updated fragment flag. *)
Definition ipv6_extension (packet : bytes) (protocol offset : Z) (fragmented : bool)
    : parse (option (Z * Z * bool)) :=
  if (protocol =? 0) || (protocol =? 43) || (protocol =? 60) then
    let? extension := ok_or (get_range packet offset (offset + 2)) Truncated in
    let? next := index extension 0 in
    let? length := index extension 1 in
    Ok (Some (next, (length + 1) * 8, fragmented))
  else if protocol =? 44 then
    let? extension := ok_or (get_range packet offset (offset + 8)) Truncated in
    let? field := read_u16 extension 2 in
    let? next := index extension 0 in
    Ok (Some (next, 8, fragmented || negb (Z.land field 0xfff8 =? 0)))
  else if protocol =? 51 then
    let? extension := ok_or (get_range packet offset (offset + 2)) Truncated in
    let? next := index extension 0 in
    let? length := index extension 1 in
    Ok (Some (next, (length + 2) * 4, fragmented))
  else Ok None.

(** The [for _ in 0..8] loop over extension headers. *)
Fixpoint ipv6_loop (budget : nat) (packet : bytes) (source destination : Z)
    (protocol offset : Z) (fragmented : bool) : parse IpPacket :=
  match budget with
  | O => Err TooManyIpv6Extensions
  | S budget =>
      let? step := ipv6_extension packet protocol offset fragmented in
      match step with
      | None =>
          let? payload := ok_or (get_from packet offset) Truncated in
          Ok {| ip_source := V6 source; ip_destination := V6 destination;
                ip_protocol := protocol; non_initial_fragment := fragmented;
                ip_payload := payload |}
      | Some (next, length, fragmented') =>
          let? _ := ok_or (get_range packet offset (offset + length)) Truncated in
          let? offset' := ok_or (checked_add 64 offset length) Malformed in
          ipv6_loop budget packet source destination next offset' fragmented'
      end
  end.

Definition parse_ipv6 (bs : bytes) : parse IpPacket :=
  let? base := ok_or (get_range bs 0 40) Truncated in
  let? b0 := index base 0 in
  if negb (Z.shiftr b0 4 =? 6) then Err Malformed
  else
    let? payload_length := read_u16 base 4 in
    let? packet_length := ok_or (checked_add 64 40 payload_length) Malformed in
    let? packet := ok_or (get_range bs 0 packet_length) Truncated in
    let? source := slice base 8 24 in
    let? destination := slice base 24 40 in
    let? protocol := index base 6 in
    ipv6_loop 8 packet (from_be_bytes source) (from_be_bytes destination) protocol 40 false.

Definition parse_tcp (bs : bytes) : parse TcpSegment :=
  let? base := ok_or (get_range bs 0 20) Truncated in
  let? b12 := index base 12 in
  let header_length := Z.shiftr b12 4 * 4 in
  if header_length <? 20 then Err Malformed
  else
    let? payload := ok_or (get_from bs header_length) Truncated in
    let? sport := read_u16 base 0 in
    let? dport := read_u16 base 2 in
    let? seq := read_u32 base 4 in
    let? ack := read_u32 base 8 in
    let? b13 := index base 13 in
    let? win := read_u16 base 14 in
    Ok {| tcp_source_port := sport; tcp_destination_port := dport;
          sequence := seq; acknowledgement := ack;
          flags := Z.lor (Z.shiftl (Z.land b12 1) 8) b13;
          window := win; tcp_payload := payload |}.

Definition parse_udp (bs : bytes) : parse UdpDatagram :=
  let? base := ok_or (get_range bs 0 8) Truncated in
  let? length := read_u16 base 4 in
  if length <? 8 then Err Malformed
  else
    let? datagram := ok_or (get_range bs 0 length) Truncated in
    let? sport := read_u16 base 0 in
    let? dport := read_u16 base 2 in
    let? payload := slice_from datagram 8 in
    Ok {| udp_source_port := sport; udp_destination_port := dport; udp_payload := payload |}.

Definition parse_icmp (bs : bytes) : parse IcmpPacket :=
  let? message := ok_or (get_range bs 0 4) Truncated in
  let? mtype := index message 0 in
  let? mcode := index message 1 in
  let? payload := slice_from bs 4 in
  Ok {| message_type := mtype; icmp_code := mcode; icmp_payload := payload |}.

(** The transport selection of [finish_ip]. *)
Definition finish_transport (ip : IpPacket) : parse TransportPacket :=
  if non_initial_fragment ip then Ok Fragment
  else if ip_protocol ip =? 6 then let? s := parse_tcp (ip_payload ip) in Ok (Tcp s)
  else if ip_protocol ip =? 17 then let? d := parse_udp (ip_payload ip) in Ok (Udp d)
  else if ip_protocol ip =? 1 then let? m := parse_icmp (ip_payload ip) in Ok (Icmp m)
  else if ip_protocol ip =? 58 then let? m := parse_icmp (ip_payload ip) in Ok (Icmpv6 m)
  else Ok (Other (ip_protocol ip) (ip_payload ip)).

Definition finish_ip (eth : EthernetHeader) (ip : IpPacket) : parse ParsedPacket :=
  let? t := finish_transport ip in
  Ok {| ethernet := eth; arp := None; ip := Some ip; transport := Some t |}.

(** Offset of the layer-3 payload: 14 bytes plus 4 per VLAN tag present. *)
Definition payload_offset (tags : list (option VlanTag)) : Z :=
  fold_left (fun offset tag => match tag with
                               | Some _ => offset + VLAN_HEADER_LENGTH
                               | None => offset
                               end) tags ETHERNET_HEADER_LENGTH.

Definition parse_packet (frame : bytes) : parse ParsedPacket :=
  let? eth := parse_ethernet frame in
  let? payload := ok_or (get_from frame (payload_offset (vlan_tags eth))) Truncated in
  if ether_type eth =? ETHERTYPE_ARP then
    let? a := parse_arp payload in
    Ok {| ethernet := eth; arp := Some a; ip := None; transport := None |}
  else if ether_type eth =? ETHERTYPE_IPV4 then
    let? p := parse_ipv4 payload in finish_ip eth p
  else if ether_type eth =? ETHERTYPE_IPV6 then
    let? p := parse_ipv6 payload in finish_ip eth p
  else Ok {| ethernet := eth; arp := None; ip := None; transport := None |}.

(** ** Well-formed results: every field within the width of its Rust type. *)

Definition vlan_wf (t : VlanTag) : Prop := uint 3 (priority t) /\ uint 12 (identifier t).
Definition tags_wf (tags : list (option VlanTag)) : Prop :=
  length tags = 2%nat /\ Forall (fun o => forall t, o = Some t -> vlan_wf t) tags.
Definition ethernet_wf (h : EthernetHeader) : Prop :=
  len (eth_destination h) = 6 /\ bytes_ok (eth_destination h) /\
  len (eth_source h) = 6 /\ bytes_ok (eth_source h) /\
  tags_wf (vlan_tags h) /\ uint 16 (ether_type h).
Definition arp_wf (a : ArpPacket) : Prop :=
  uint 16 (hardware_type a) /\ uint 16 (protocol_type a) /\ uint 16 (operation a) /\
  bytes_ok (arp_bytes a).
Definition ip_wf (p : IpPacket) : Prop :=
  ip_ok (ip_source p) /\ ip_ok (ip_destination p) /\ uint 8 (ip_protocol p) /\
  bytes_ok (ip_payload p).
Definition tcp_wf (s : TcpSegment) : Prop :=
  uint 16 (tcp_source_port s) /\ uint 16 (tcp_destination_port s) /\
  uint 32 (sequence s) /\ uint 32 (acknowledgement s) /\
  uint 9 (flags s) /\ uint 16 (window s) /\ bytes_ok (tcp_payload s).
Definition udp_wf (d : UdpDatagram) : Prop :=
  uint 16 (udp_source_port d) /\ uint 16 (udp_destination_port d) /\ bytes_ok (udp_payload d).
Definition icmp_wf (m : IcmpPacket) : Prop :=
  uint 8 (message_type m) /\ uint 8 (icmp_code m) /\ bytes_ok (icmp_payload m).
Definition transport_wf (t : TransportPacket) : Prop :=
  match t with
  | Tcp s => tcp_wf s
  | Udp d => udp_wf d
  | Icmp m | Icmpv6 m => icmp_wf m
  | Fragment => True
  | Other protocol other => uint 8 protocol /\ bytes_ok other
  end.
Definition packet_wf (p : ParsedPacket) : Prop :=
  ethernet_wf (ethernet p) /\ (forall a, arp p = Some a -> arp_wf a) /\
  (forall i, ip p = Some i -> ip_wf i) /\ (forall t, transport p = Some t -> transport_wf t).

(** The bytes a transport packet still borrows. *)
Definition transport_view (t : TransportPacket) : bytes :=
  match t with
  | Tcp s => tcp_payload s
  | Udp d => udp_payload d
  | Icmp m | Icmpv6 m => icmp_payload m
  | Fragment => []
  | Other _ other => other
  end.

(** ** Specifications of the field readers. *)

Lemma is_byte_uint8 b : is_byte b -> uint 8 b.
Proof. unfold is_byte, uint, umax. lia. Qed.
#[local] Hint Resolve is_byte_uint8 : nettool.

Lemma bytes_ok_range (l : bytes) a b s : get_range l a b = Some s -> bytes_ok l -> bytes_ok s.
Proof. intros H ?. eapply subslice_Forall; [by eapply get_range_subslice|done]. Qed.
#[local] Hint Resolve bytes_ok_range : nettool.

Lemma holds_read_u16 bs offset :
  holds (read_u16 bs offset) (fun v => bytes_ok bs -> uint 16 v).
Proof.
  unfold read_u16. do 4 hstep. intros Hok.
  apply (from_be_bytes_uint [_; _]). bytes_list.
Qed.

Lemma holds_read_u32 bs offset :
  holds (read_u32 bs offset) (fun v => bytes_ok bs -> uint 32 v).
Proof.
  unfold read_u32. do 6 hstep. intros Hok.
  apply (from_be_bytes_uint [_; _; _; _]). bytes_list.
Qed.

(** [hstep] extended with the field readers of this file. *)
Ltac pstep :=
  lazymatch goal with
  | |- holds (obind (read_u16 _ _) _) _ =>
      eapply holds_bind; [apply holds_read_u16 | cbv beta; intros ? ?]
  | |- holds (obind (read_u32 _ _) _) _ =>
      eapply holds_bind; [apply holds_read_u32 | cbv beta; intros ? ?]
  | _ => hstep
  end.

Lemma land_ones_uint x n : 0 <= n -> uint n (Z.land x (Z.ones n)).
Proof. intros. rewrite Z.land_ones by done. by apply wrap_uint. Qed.

Lemma vlan_tag_of_control_wf c : vlan_wf (vlan_tag_of_control c).
Proof.
  split; simpl.
  - apply (land_ones_uint _ 3). lia.
  - apply (land_ones_uint _ 12). lia.
Qed.

Lemma tags_wf_insert tags i c :
  tags_wf tags -> tags_wf (<[i := Some (vlan_tag_of_control c)]> tags).
Proof.
  intros [Hl Ht]. split; [by rewrite length_insert|].
  apply Forall_insert; [done|]. intros t [= <-]. apply vlan_tag_of_control_wf.
Qed.

Lemma tags_wf_len tags : tags_wf tags -> len tags = 2.
Proof. intros [Hl _]. unfold len. by rewrite Hl. Qed.

Lemma holds_vlan_loop fuel frame etype tags offset count :
  3 <= Z.of_nat fuel + count -> 0 <= count <= 2 -> tags_wf tags ->
  holds (vlan_loop fuel frame etype tags offset count)
    (fun r => tags_wf r.2 /\ (bytes_ok frame -> uint 16 etype -> uint 16 r.1)).
Proof.
  revert etype tags offset count.
  induction fuel as [|fuel IH]; intros etype tags offset count Hf Hc Ht;
    (destruct (is_vlan_type etype) eqn:Hv; simpl; rewrite Hv; [|done]); [lia|].
  rewrite (tags_wf_len _ Ht). destruct (Z.eqb_spec count 2) as [|Hne]; [done|].
  do 2 pstep.
  eapply holds_bind; [apply holds_set_index with (Q := tags_wf)|].
  { rewrite (tags_wf_len _ Ht). lia. }
  { by apply tags_wf_insert. }
  intros tags' Ht'. pstep. eapply holds_weaken; [apply IH; [lia|lia|done]|].
  simpl. intros r [? Hr]. split; [done|]. eauto with nettool.
Qed.

Lemma holds_parse_ethernet frame :
  holds (parse_ethernet frame)
    (fun h => length (vlan_tags h) = 2%nat /\ (bytes_ok frame -> ethernet_wf h)).
Proof.
  unfold parse_ethernet, ETHERNET_HEADER_LENGTH. do 4 pstep.
  eapply holds_bind; [apply holds_vlan_loop; [lia|lia|]|].
  { split; [done|]. repeat constructor; done. }
  intros [etype' tags] [Ht He]. simpl in *. split; [apply Ht|]. intros Hok.
  unfold ethernet_wf; simpl. split_and!; eauto with nettool; try lia; apply Ht.
Qed.

Lemma holds_parse_arp bs :
  holds (parse_arp bs) (fun a => subslice (arp_bytes a) bs /\ (bytes_ok bs -> arp_wf a)).
Proof.
  unfold parse_arp. do 9 pstep. simpl. split; [eauto with nettool|].
  intros Hok. unfold arp_wf; simpl. split_and!; eauto with nettool.
Qed.

Lemma holds_parse_ipv4 bs :
  holds (parse_ipv4 bs) (fun p => subslice (ip_payload p) bs /\ (bytes_ok bs -> ip_wf p)).
Proof.
  unfold parse_ipv4. repeat pstep. split.
  - eauto with nettool.
  - intros Hok. unfold ip_wf; simpl.
    split_and!; eauto with nettool; apply from_be_bytes_width; eauto with nettool; lia.
Qed.

Lemma holds_ipv6_extension packet protocol offset fragmented :
  holds (ipv6_extension packet protocol offset fragmented)
    (fun r => forall next length f, r = Some (next, length, f) ->
       (bytes_ok packet -> uint 8 next)).
Proof.
  unfold ipv6_extension. repeat pstep; intros ??? [= <- <- <-]; eauto with nettool.
Qed.

Lemma holds_ipv6_loop budget packet source destination protocol offset fragmented :
  holds (ipv6_loop budget packet source destination protocol offset fragmented)
    (fun p => subslice (ip_payload p) packet /\
       ip_source p = V6 source /\ ip_destination p = V6 destination /\
       (bytes_ok packet -> uint 8 protocol -> uint 8 (ip_protocol p))).
Proof.
  revert protocol offset fragmented.
  induction budget as [|budget IH]; intros protocol offset fragmented; [done|].
  simpl. eapply holds_bind; [apply holds_ipv6_extension|].
  intros [[[next length] f]|] Hnext; cbv beta in Hnext; repeat pstep.
  - eapply holds_weaken; [apply IH|]. simpl. intros p (?&?&?&?). naive_solver.
  - split_and!; eauto with nettool.
Qed.

Lemma holds_parse_ipv6 bs :
  holds (parse_ipv6 bs) (fun p => subslice (ip_payload p) bs /\ (bytes_ok bs -> ip_wf p)).
Proof.
  unfold parse_ipv6. repeat pstep.
  eapply holds_weaken; [apply holds_ipv6_loop|]. simpl. intros p (Hs&Hsrc&Hdst&Hp). split.
  - eapply subslice_trans; [done|]. eauto with nettool.
  - intros Hok. unfold ip_wf. rewrite Hsrc, Hdst. simpl.
    split_and!; [apply from_be_bytes_width; eauto with nettool; lia..| |];
      [eauto 6 with nettool|]. eapply subslice_Forall; [exact Hs|]. eauto with nettool.
Qed.

Lemma lor_uint n a b : 0 <= n -> uint n a -> uint n b -> uint n (Z.lor a b).
Proof.
  intros Hn [Ha Ha'] [Hb Hb']. unfold uint, umax in *. split; [by apply Z.lor_nonneg|].
  assert (Hbound : Z.lor a b < 2 ^ n); [|lia].
  destruct (Z.eq_dec (Z.lor a b) 0) as [->|Hnz]; [apply Z.pow_pos_nonneg; lia|].
  assert (0 <= Z.lor a b) by (by apply Z.lor_nonneg).
  apply Z.log2_lt_pow2; [lia|]. rewrite Z.log2_lor by done.
  assert (forall x, 0 <= x -> x < 2 ^ n -> x = 0 \/ Z.log2 x < n) as Hlog.
  { intros x ??. destruct (Z.eq_dec x 0); [by left|right]. apply Z.log2_lt_pow2; lia. }
  assert (0 < n). { destruct (Z.eq_dec n 0) as [->|]; [|lia]. exfalso. apply Hnz.
    assert (a = 0) as -> by lia. assert (b = 0) as -> by lia. done. }
  destruct (Hlog a) as [->|], (Hlog b) as [->|]; simpl; lia.
Qed.

Lemma tcp_flags_uint b12 b13 : is_byte b13 -> uint 9 (Z.lor (Z.shiftl (Z.land b12 1) 8) b13).
Proof.
  intros Hb. pose proof (land_ones_uint b12 1 ltac:(lia)) as Hl. change (Z.ones 1) with 1 in Hl.
  unfold uint, umax, is_byte in *. apply lor_uint; [lia| |unfold uint, umax; lia].
  unfold uint, umax. rewrite Z.shiftl_mul_pow2 by lia. lia.
Qed.

Lemma holds_parse_tcp bs :
  holds (parse_tcp bs) (fun s => subslice (tcp_payload s) bs /\ (bytes_ok bs -> tcp_wf s)).
Proof.
  unfold parse_tcp. repeat pstep. split; [eauto with nettool|].
  intros Hok. unfold tcp_wf; simpl. split_and!; eauto with nettool.
  apply tcp_flags_uint. eauto with nettool.
Qed.

Lemma holds_parse_udp bs :
  holds (parse_udp bs) (fun d => subslice (udp_payload d) bs /\ (bytes_ok bs -> udp_wf d)).
Proof.
  unfold parse_udp. repeat pstep. split; [eauto with nettool|].
  intros Hok. unfold udp_wf; simpl. split_and!; eauto with nettool.
Qed.

Lemma holds_parse_icmp bs :
  holds (parse_icmp bs) (fun m => subslice (icmp_payload m) bs /\ (bytes_ok bs -> icmp_wf m)).
Proof.
  unfold parse_icmp. repeat pstep. split; [eauto with nettool|].
  intros Hok. unfold icmp_wf; simpl. split_and!; eauto with nettool.
Qed.

Lemma holds_finish_transport i :
  holds (finish_transport i)
    (fun t => subslice (transport_view t) (ip_payload i) /\ (ip_wf i -> transport_wf t)).
Proof.
  assert (Hnil : forall l : bytes, subslice [] l) by (intros l; exists [], l; done).
  unfold finish_transport. repeat hstep; [done|..].
  all: try (eapply holds_bind;
    [first [apply holds_parse_tcp | apply holds_parse_udp | apply holds_parse_icmp]|];
    intros s [??]; split; [done|]; intros (?&?&?&?); simpl; by auto).
  split; [apply subslice_refl|]. intros (?&?&?&?). done.
Qed.

(** What [parse_packet] returns still borrows only from the frame: the ARP and
    IP views are contiguous parts of it, the transport view of the IP payload. *)
Definition views_within (p : ParsedPacket) (frame : bytes) : Prop :=
  (forall a, arp p = Some a -> subslice (arp_bytes a) frame) /\
  (forall i, ip p = Some i -> subslice (ip_payload i) frame) /\
  (forall t, transport p = Some t ->
     exists i, ip p = Some i /\ subslice (transport_view t) (ip_payload i)).

Lemma holds_finish_ip eth i frame :
  subslice (ip_payload i) frame ->
  holds (finish_ip eth i)
    (fun p => views_within p frame /\ (ethernet_wf eth -> ip_wf i -> packet_wf p)).
Proof.
  intros Hs. unfold finish_ip. eapply holds_bind; [apply holds_finish_transport|].
  intros t [Ht Hwf]. split.
  - split_and!; simpl; [done| |]; naive_solver.
  - intros. unfold packet_wf; simpl. naive_solver.
Qed.

Lemma holds_parse_packet frame :
  holds (parse_packet frame)
    (fun p => views_within p frame /\ (bytes_ok frame -> packet_wf p)).
Proof.
  unfold parse_packet. eapply holds_bind; [apply holds_parse_ethernet|].
  intros eth [Hlen Heth]. pstep. repeat hstep.
  - eapply holds_bind; [apply holds_parse_arp|]. intros a0 [Ha Hwf].
    split; [split_and!; simpl|intros; unfold packet_wf; simpl; split_and!]; try done; auto.
    + intros ? [= <-]. eapply subslice_trans; eauto with nettool.
    + intros ? [= <-]. eauto with nettool.
  - eapply holds_bind; [apply holds_parse_ipv4|]. intros i [Hi Hwf].
    eapply holds_weaken; [apply (holds_finish_ip _ _ frame)|]; eauto with nettool.
    { eapply subslice_trans; eauto with nettool. }
    intros p [??]. split; [done|]. eauto with nettool.
  - eapply holds_bind; [apply holds_parse_ipv6|]. intros i [Hi Hwf].
    eapply holds_weaken; [apply (holds_finish_ip _ _ frame)|]; eauto with nettool.
    { eapply subslice_trans; eauto with nettool. }
    intros p [??]. split; [done|]. eauto with nettool.
  - split; [split_and!; simpl|intros; unfold packet_wf; simpl]; naive_solver.
Qed.

(** A successful parse yields a transport packet exactly for IP frames. *)
Lemma parse_packet_layers frame p :
  parse_packet frame = Ok p -> is_Some (ip p) <-> is_Some (transport p).
Proof.
  assert (Hip : forall eth i q, finish_ip eth i = Ok q -> is_Some (ip q) <-> is_Some (transport q)).
  { intros eth i q. unfold finish_ip. rewrite obind_Ok. intros (t&_&[= <-]). simpl.
    split; eauto. }
  unfold parse_packet. rewrite obind_Ok. intros (eth&_&H). rewrite obind_Ok in H.
  destruct H as (pl&_&H). repeat (destruct (ether_type eth =? _)).
  - rewrite obind_Ok in H. destruct H as (a&_&[= <-]). simpl. by rewrite !is_Some_alt.
  - rewrite obind_Ok in H. destruct H as (i&_&H). eauto.
  - rewrite obind_Ok in H. destruct H as (i&_&H). eauto.
  - injection H as <-. simpl. by rewrite !is_Some_alt.
Qed.

(** ** Stability: data after the bytes a parser has read does not matter. *)

(** [stab short long]: parsing a cut input either reports [Truncated] or
    agrees with parsing the whole. *)
Definition stab {A} (short long : parse A) : Prop := short = Err Truncated \/ long = short.

Lemma stab_refl {A} (o : parse A) : stab o o.
Proof. by right. Qed.

Lemma stab_bind {A B} (o1 o2 : parse A) (k1 k2 : A -> parse B) :
  stab o1 o2 -> (forall a, o1 = Ok a -> stab (k1 a) (k2 a)) ->
  stab (obind o1 k1) (obind o2 k2).
Proof.
  intros [->| ->] Hk; [by left|]. destruct o1; simpl; [by apply Hk|by right..].
Qed.

Lemma stab_get_range {A} (l k : list A) a b :
  stab (ok_or (get_range l a b) Truncated) (ok_or (get_range (l ++ k) a b) Truncated).
Proof.
  destruct (get_range l a b) eqn:H; [|by left].
  right. by rewrite (get_range_app _ _ _ _ _ H).
Qed.

(** One step of a [stab] goal whose two sides have the same shape. *)
Ltac sstep :=
  lazymatch goal with
  | |- stab (obind (ok_or (get_range ?l _ _) _) _) (obind (ok_or (get_range (?l ++ _) _ _) _) _) =>
      apply stab_bind; [apply stab_get_range | intros ? _]
  | |- stab ?o ?o => apply stab_refl
  | |- stab (obind ?o _) (obind ?o _) => apply stab_bind; [apply stab_refl | intros ? _]
  | |- stab (if ?c then _ else _) (if ?c then _ else _) => destruct c
  end.

Lemma stab_vlan_loop fuel frame ext etype tags offset count :
  stab (vlan_loop fuel frame etype tags offset count)
       (vlan_loop fuel (frame ++ ext) etype tags offset count).
Proof.
  revert etype tags offset count.
  induction fuel as [|fuel IH]; intros; simpl; destruct (is_vlan_type etype); try apply stab_refl.
  repeat sstep. apply IH.
Qed.

Lemma stab_parse_ethernet frame ext :
  stab (parse_ethernet frame) (parse_ethernet (frame ++ ext)).
Proof.
  unfold parse_ethernet. do 4 sstep. apply stab_bind; [apply stab_vlan_loop|].
  intros [] _. apply stab_refl.
Qed.

Lemma stab_parse_arp bs ext : stab (parse_arp bs) (parse_arp (bs ++ ext)).
Proof. unfold parse_arp. repeat sstep. Qed.

Lemma stab_parse_ipv4 bs ext : stab (parse_ipv4 bs) (parse_ipv4 (bs ++ ext)).
Proof. unfold parse_ipv4. repeat sstep. Qed.

Lemma stab_parse_ipv6 bs ext : stab (parse_ipv6 bs) (parse_ipv6 (bs ++ ext)).
Proof. unfold parse_ipv6. repeat sstep. Qed.

Lemma stab_parse_packet frame ext : stab (parse_packet frame) (parse_packet (frame ++ ext)).
Proof.
  unfold parse_packet. apply stab_bind; [apply stab_parse_ethernet|]. intros eth _.
  destruct (get_from frame _) as [payload|] eqn:Hp; [|by left].
  rewrite (get_from_app _ _ _ _ Hp). simpl. repeat sstep.
  - apply stab_bind; [apply stab_parse_arp|]. intros. apply stab_refl.
  - apply stab_bind; [apply stab_parse_ipv4|]. intros. apply stab_refl.
  - apply stab_bind; [apply stab_parse_ipv6|]. intros. apply stab_refl.
Qed.

(** ** What the parser promises. *)

(** C1: parsing an arbitrary frame never panics (no out-of-range index, slice
    or arithmetic overflow), and every payload view of a successful parse is a
    contiguous part of that frame. *)
Theorem parse_packet_memory_safe (frame : bytes) :
  holds (parse_packet frame) (fun p => views_within p frame).
Proof. eapply holds_weaken; [apply holds_parse_packet|]. by intros p [? _]. Qed.

(** C30: the fields of a packet parsed from bytes have the widths of the Rust
    types (ports and lengths in 16 bits, sequence numbers in 32, addresses of
    the right family, flags in a byte), so no conversion of the parser
    truncates. *)
Theorem parse_packet_typed (frame : bytes) (p : ParsedPacket) :
  bytes_ok frame -> parse_packet frame = Ok p -> packet_wf p.
Proof.
  intros Hb Hp. pose proof (holds_parse_packet frame) as H. rewrite Hp in H. by apply H.
Qed.

(** An Ethernet + IPv4 + TCP frame carrying two bytes. *)
Definition tcp_frame : bytes :=
  [1;2;3;4;5;6; 7;8;9;10;11;12; 8;0;
   69;0;0;42;0;1;64;0;64;6;0;0;10;0;0;1;10;0;0;2;
   31;144;1;187;0;0;0;5;0;0;0;9;80;24;16;0;0;0;0;0;104;105].

Lemma parse_packet_typed_witness :
  exists p, parse_packet tcp_frame = Ok p /\ packet_wf p.
Proof.
  eexists. split; [vm_compute; reflexivity|].
  apply (parse_packet_typed tcp_frame).
  - apply Forall_forall. intros x Hx. unfold tcp_frame in Hx.
    repeat (apply elem_of_cons in Hx as [->|Hx]; [split; vm_compute; done|]).
    by apply elem_of_nil in Hx.
  - vm_compute. reflexivity.
Defined.

(** What the parser reads is delimited by the headers: cutting a frame can
    only make parsing report [Truncated]; otherwise bytes after the packet
    (Ethernet padding, a trailing FCS) do not change the result at all. *)
Theorem parse_packet_truncation_stable (frame trailer : bytes) :
  parse_packet frame = Err Truncated \/ parse_packet (frame ++ trailer) = parse_packet frame.
Proof. apply stab_parse_packet. Qed.
