(* ===== verification/PacketStats.v ===== *)
(** * Packet views, counters, filters and analysis confidence

    Model of [crates/packet/src/lib.rs] and of [AnalysisConfidence] in
    [crates/domain/src/model.rs]. Counters are unsigned 64-bit values kept in
    [Z] with the source's saturating additions. [f64] arithmetic is the
    executable IEEE 754 binary64 specification of the Standard Library
    ([SpecFloat] at precision 53 and maximal exponent 1024). *)

From stdpp Require Import base list strings.
From Stdlib Require Import ZArith Lia SpecFloat.
From S2P Require Import Prelude ErrorModel PacketParser.
Open Scope Z_scope.

Record PacketView := {
  view_bytes : bytes;
  timestamp_nanoseconds : Z;
  wire_length : Z;
  queue_id : Z;
}.

Record PacketFilter := {
  filter_protocol : option Z;
  filter_source_ip : option IpAddr;
  filter_destination_ip : option IpAddr;
  filter_source_port : option Z;
  filter_destination_port : option Z;
}.

(** [Option::is_some_and(|wanted| wanted != actual)]. *)
Definition mismatch {A} `{EqDecision A} (wanted : option A) (actual : A) : bool :=
  match wanted with
  | Some w => negb (bool_decide (w = actual))
  | None => false
  end.

Definition packet_ports (t : option TransportPacket) : option (Z * Z) :=
  match t with
  | Some (Tcp s) => Some (tcp_source_port s, tcp_destination_port s)
  | Some (Udp d) => Some (udp_source_port d, udp_destination_port d)
  | _ => None
  end.

(** [PacketFilter::matches]; a parser panic would unwind through it. *)
Definition matches (f : PacketFilter) (packet : PacketView) : outcome Empty_set bool :=
  match parse_packet (view_bytes packet) with
  | Panic => Panic
  | Err _ => Ok false
  | Ok parsed =>
      match ip parsed with
      | None => Ok false
      | Some p =>
          if mismatch (filter_protocol f) (ip_protocol p)
             || mismatch (filter_source_ip f) (ip_source p)
             || mismatch (filter_destination_ip f) (ip_destination p)
          then Ok false
          else
            match filter_source_port f, filter_destination_port f with
            | None, None => Ok true
            | sp, dp =>
                match packet_ports (transport parsed) with
                | None => Ok false
                | Some (source_port, destination_port) =>
                    Ok (negb (mismatch sp source_port || mismatch dp destination_port))
                end
            end
      end
  end.

(** ** Counters. *)

Record DropAccounting := {
  nic : Z;
  driver : Z;
  capture : Z;
  ring : Z;
  analyzer : Z;
  application : Z;
  network_inferred_loss : Z;
}.

Record WorkerStats := {
  rx_packets : Z;
  rx_bytes : Z;
  tcp_packets : Z;
  udp_packets : Z;
  ipv4_packets : Z;
  ipv6_packets : Z;
  icmp_packets : Z;
  other_packets : Z;
  flows : Z;
  retransmissions : Z;
  parse_errors : Z;
  sampled_out_packets : Z;
  drops : DropAccounting;
}.

Definition default_drops : DropAccounting := Build_DropAccounting 0 0 0 0 0 0 0.
Definition default_worker_stats : WorkerStats :=
  Build_WorkerStats 0 0 0 0 0 0 0 0 0 0 0 0 default_drops.

Definition sat64 : Z -> Z -> Z := sat_add 64.

Definition record_packet (s : WorkerStats) (wire : Z) : WorkerStats := {|
  rx_packets := sat64 (rx_packets s) 1;
  rx_bytes := sat64 (rx_bytes s) wire;
  tcp_packets := tcp_packets s; udp_packets := udp_packets s;
  ipv4_packets := ipv4_packets s; ipv6_packets := ipv6_packets s;
  icmp_packets := icmp_packets s; other_packets := other_packets s;
  flows := flows s; retransmissions := retransmissions s;
  parse_errors := parse_errors s; sampled_out_packets := sampled_out_packets s;
  drops := drops s |}.

(** The counters that the capture queue and the worker increment one by one. *)
Inductive Counter :=
| TcpPackets | UdpPackets | Ipv4Packets | Ipv6Packets | IcmpPackets | OtherPackets
| Retransmissions | ParseErrors | SampledOutPackets
| CaptureDrop | AnalyzerDrop | ApplicationDrop.

Definition counter_index (c : Counter) : nat :=
  match c with
  | TcpPackets => 0 | UdpPackets => 1 | Ipv4Packets => 2 | Ipv6Packets => 3
  | IcmpPackets => 4 | OtherPackets => 5 | Retransmissions => 6 | ParseErrors => 7
  | SampledOutPackets => 8 | CaptureDrop => 9 | AnalyzerDrop => 10 | ApplicationDrop => 11
  end.

(** [stats.<counter> = stats.<counter>.saturating_add(1)]. *)
Definition incr (c : Counter) (s : WorkerStats) : WorkerStats :=
  let bump k x := if Nat.eqb (counter_index c) (counter_index k) then sat64 x 1 else x in
  let d := drops s in {|
  rx_packets := rx_packets s; rx_bytes := rx_bytes s;
  tcp_packets := bump TcpPackets (tcp_packets s);
  udp_packets := bump UdpPackets (udp_packets s);
  ipv4_packets := bump Ipv4Packets (ipv4_packets s);
  ipv6_packets := bump Ipv6Packets (ipv6_packets s);
  icmp_packets := bump IcmpPackets (icmp_packets s);
  other_packets := bump OtherPackets (other_packets s);
  flows := flows s;
  retransmissions := bump Retransmissions (retransmissions s);
  parse_errors := bump ParseErrors (parse_errors s);
  sampled_out_packets := bump SampledOutPackets (sampled_out_packets s);
  drops := {| nic := nic d; driver := driver d;
              capture := bump CaptureDrop (capture d);
              ring := ring d;
              analyzer := bump AnalyzerDrop (analyzer d);
              application := bump ApplicationDrop (application d);
              network_inferred_loss := network_inferred_loss d |} |}.

(** [stats.flows = n]. *)
Definition set_flows (n : Z) (s : WorkerStats) : WorkerStats := {|
  rx_packets := rx_packets s; rx_bytes := rx_bytes s; tcp_packets := tcp_packets s;
  udp_packets := udp_packets s; ipv4_packets := ipv4_packets s;
  ipv6_packets := ipv6_packets s; icmp_packets := icmp_packets s;
  other_packets := other_packets s; flows := n; retransmissions := retransmissions s;
  parse_errors := parse_errors s; sampled_out_packets := sampled_out_packets s;
  drops := drops s |}.

(** [impl AddAssign for DropAccounting]. *)
Definition drops_add (a b : DropAccounting) : DropAccounting := {|
  nic := sat64 (nic a) (nic b);
  driver := sat64 (driver a) (driver b);
  capture := sat64 (capture a) (capture b);
  ring := sat64 (ring a) (ring b);
  analyzer := sat64 (analyzer a) (analyzer b);
  application := sat64 (application a) (application b);
  network_inferred_loss := sat64 (network_inferred_loss a) (network_inferred_loss b) |}.

(** [impl AddAssign for WorkerStats]. *)
Definition stats_add (a b : WorkerStats) : WorkerStats := {|
  rx_packets := sat64 (rx_packets a) (rx_packets b);
  rx_bytes := sat64 (rx_bytes a) (rx_bytes b);
  tcp_packets := sat64 (tcp_packets a) (tcp_packets b);
  udp_packets := sat64 (udp_packets a) (udp_packets b);
  ipv4_packets := sat64 (ipv4_packets a) (ipv4_packets b);
  ipv6_packets := sat64 (ipv6_packets a) (ipv6_packets b);
  icmp_packets := sat64 (icmp_packets a) (icmp_packets b);
  other_packets := sat64 (other_packets a) (other_packets b);
  flows := sat64 (flows a) (flows b);
  retransmissions := sat64 (retransmissions a) (retransmissions b);
  parse_errors := sat64 (parse_errors a) (parse_errors b);
  sampled_out_packets := sat64 (sampled_out_packets a) (sampled_out_packets b);
  drops := drops_add (drops a) (drops b) |}.

(** ** [f64]. *)

Abbreviation f64 := spec_float.

(** [x as f64]: the nearest binary64 value, ties to even. *)
Definition f64_of_Z (x : Z) : f64 := binary_normalize 53 1024 x 0 false.
Definition f64_div : f64 -> f64 -> f64 := SFdiv 53 1024.
Definition f64_mul : f64 -> f64 -> f64 := SFmul 53 1024.
Definition f64_add : f64 -> f64 -> f64 := SFadd 53 1024.
Definition f64_le (a b : f64) : bool := SFleb a b.
Definition f64_lt (a b : f64) : bool := SFltb a b.

(** [Duration::as_secs_f64] of a duration in nanoseconds. *)
Definition as_secs_f64 (nanoseconds : Z) : f64 :=
  f64_add (f64_of_Z (nanoseconds / 1000000000))
    (f64_div (f64_of_Z (nanoseconds mod 1000000000)) (f64_of_Z 1000000000)).

Record StatisticsSnapshot := {
  counters : WorkerStats;
  elapsed_nanoseconds : Z;
  rx_packets_per_second : f64;
  rx_bits_per_second : f64;
  rx_mpps : f64;
  rx_gbps : f64;
}.

(** [aggregate_statistics]; [elapsed] is the duration in nanoseconds. *)
Definition aggregate_statistics (workers : list WorkerStats) (elapsed : Z) : StatisticsSnapshot :=
  let total := fold_left stats_add workers default_worker_stats in
  let seconds := as_secs_f64 elapsed in
  let '(pps, bps) :=
    if f64_lt (f64_of_Z 0) seconds then
      (f64_div (f64_of_Z (rx_packets total)) seconds,
       f64_div (f64_mul (f64_of_Z (rx_bytes total)) (f64_of_Z 8)) seconds)
    else (f64_of_Z 0, f64_of_Z 0) in
  {| counters := total;
     elapsed_nanoseconds := clamp 64 elapsed;
     rx_packets_per_second := pps;
     rx_bits_per_second := bps;
     rx_mpps := f64_div pps (f64_of_Z 1000000);
     rx_gbps := f64_div bps (f64_of_Z 1000000000) |}.

(** ** Confidence. *)

Inductive AnalysisConfidence := High | Medium | Low | Invalid.

Record ConfidenceThresholds := {
  max_medium_capture_ratio : f64;
  max_medium_ring_ratio : f64;
  max_medium_analyzer_ratio : f64;
}.

Inductive InvalidRuntimeReason :=
| CounterReset
| NicReset
| CaptureBackendFailure
| ClockDiscontinuity.

Record ConfidenceEvidence := {
  received_packets : Z;
  evidence_drops : DropAccounting;
  required_flow_state_complete : bool;
  invalid_reason : option InvalidRuntimeReason;
}.

Record ConfidenceAssessment := {
  level : AnalysisConfidence;
  reason : string;
}.

Definition validate_thresholds (t : ConfidenceThresholds) : res unit :=
  let ok ratio := f64_le (f64_of_Z 0) ratio && f64_le ratio (f64_of_Z 1) in
  if forallb ok [max_medium_capture_ratio t; max_medium_ring_ratio t; max_medium_analyzer_ratio t]
  then Ok tt
  else err InvalidArgument "confidence thresholds must be between zero and one".

Definition assess_confidence (e : ConfidenceEvidence) (thresholds : option ConfidenceThresholds)
    : res ConfidenceAssessment :=
  let d := evidence_drops e in
  match invalid_reason e with
  | Some _ => Ok {| level := Invalid; reason := "invalid_runtime_evidence" |}
  | None =>
      if negb (required_flow_state_complete e) then
        Ok {| level := Low; reason := "flow_state_incomplete" |}
      else if (capture d =? 0) && (ring d =? 0) && (analyzer d =? 0) then
        Ok {| level := High; reason := "analysis_path_complete" |}
      else
        match thresholds with
        | None => Ok {| level := Low; reason := "drop_threshold_not_frozen" |}
        | Some t =>
            let? _ := validate_thresholds t in
            let denominator := f64_of_Z (Z.max
              (sat64 (sat64 (sat64 (received_packets e) (capture d)) (ring d)) (analyzer d)) 1) in
            let within x bound := f64_le (f64_div (f64_of_Z x) denominator) bound in
            if within (capture d) (max_medium_capture_ratio t)
               && within (ring d) (max_medium_ring_ratio t)
               && within (analyzer d) (max_medium_analyzer_ratio t)
            then Ok {| level := Medium; reason := "analysis_drop_within_threshold" |}
            else Ok {| level := Low; reason := "analysis_drop_exceeds_threshold" |}
        end
  end.

(** ** Cancellation token. *)

Record StopToken := { stopped : bool }.
Definition new_token : StopToken := {| stopped := false |}.
Definition stop (_ : StopToken) : StopToken := {| stopped := true |}.
Definition is_stopped (t : StopToken) : bool := stopped t.

(** ** Aggregation lemmas. *)

(** Every counter of a worker, as a projection. *)
Definition counter_fields : list (WorkerStats -> Z) :=
  [rx_packets; rx_bytes; tcp_packets; udp_packets; ipv4_packets; ipv6_packets; icmp_packets;
   other_packets; flows; retransmissions; parse_errors; sampled_out_packets;
   nic ∘ drops; driver ∘ drops; capture ∘ drops; ring ∘ drops; analyzer ∘ drops;
   application ∘ drops; network_inferred_loss ∘ drops].

(** All counters hold [u64] values. *)
Definition stats_wf (s : WorkerStats) : Prop := Forall (fun f => uint 64 (f s)) counter_fields.

Definition total_of (f : WorkerStats -> Z) (ws : list WorkerStats) : Z :=
  fold_right (fun w acc => f w + acc) 0 ws.

(** The homomorphism every counter satisfies. *)
Definition counter_like (f : WorkerStats -> Z) : Prop :=
  f default_worker_stats = 0 /\ forall a b, f (stats_add a b) = sat64 (f a) (f b).

Lemma counter_fields_like : Forall counter_like counter_fields.
Proof. unfold counter_fields. repeat (apply Forall_cons_2; [by split|]). apply Forall_nil_2. Qed.

Lemma counter_field_uint f s : f ∈ counter_fields -> stats_wf s -> uint 64 (f s).
Proof. intros Hf Hs. by eapply (proj1 (Forall_forall _ _) Hs). Qed.

Lemma total_of_nonneg f ws :
  f ∈ counter_fields -> Forall stats_wf ws -> 0 <= total_of f ws.
Proof.
  intros Hf. induction 1 as [|w ws Hw _ IH]; simpl; [lia|].
  destruct (counter_field_uint f w Hf Hw). lia.
Qed.

Lemma fold_stats_total f ws s :
  f ∈ counter_fields -> Forall stats_wf ws -> uint 64 (f s) ->
  f (fold_left stats_add ws s) = Z.min (f s + total_of f ws) (umax 64).
Proof.
  intros Hf Hws. revert s.
  pose proof (proj1 (Forall_forall _ _) counter_fields_like f Hf) as [_ Hadd].
  induction Hws as [|w ws Hw Hws IH]; intros s [Hs1 Hs2]; simpl; [lia|].
  pose proof (counter_field_uint f w Hf Hw) as [? ?].
  pose proof (total_of_nonneg f ws Hf Hws).
  assert (uint 64 (f (stats_add s w))) by (rewrite Hadd; apply sat_add_uint; lia).
  rewrite IH, Hadd by done. unfold sat64, sat_add. lia.
Qed.

Lemma record_packet_wf s wire : stats_wf s -> uint 32 wire -> stats_wf (record_packet s wire).
Proof.
  unfold stats_wf. intros Hs [Hw _]. rewrite Forall_forall in *. intros f Hf.
  pose proof (Hs f Hf) as Hu.
  unfold counter_fields in Hf. rewrite !elem_of_cons in Hf.
  destruct Hf as [->|[->|Hf]]; [destruct Hu; apply sat_add_uint; lia..|].
  repeat (destruct Hf as [->|Hf]; [exact Hu|]). by apply not_elem_of_nil in Hf.
Qed.

(** ** Properties *)

(** Aggregation reports, for every one of the nineteen counters, the exact
    sum over the workers clamped to [u64::MAX]; in particular the result does
    not depend on the order of the workers and no counter ever wraps. *)
Theorem aggregate_exact_sum (workers : list WorkerStats) (elapsed : Z) (f : WorkerStats -> Z) :
  Forall stats_wf workers -> f ∈ counter_fields ->
  f (counters (aggregate_statistics workers elapsed)) = Z.min (total_of f workers) (umax 64).
Proof.
  intros Hw Hf. unfold aggregate_statistics. case_match. simpl.
  pose proof (proj1 (Forall_forall _ _) counter_fields_like f Hf) as [H0 _].
  rewrite fold_stats_total by (done || (rewrite H0; split; vm_compute; done)).
  by rewrite H0, Z.add_0_l.
Qed.

Definition sample_stats (packets lost : Z) : WorkerStats :=
  Build_WorkerStats packets 0 0 0 0 0 0 0 0 0 0 0 (Build_DropAccounting 0 0 lost 0 0 0 0).

Lemma aggregate_exact_sum_witness :
  rx_packets (counters (aggregate_statistics
    [sample_stats 7 1; sample_stats 18446744073709551615 2] 5)) = umax 64.
Proof.
  rewrite (aggregate_exact_sum _ _ rx_packets); [reflexivity| |left].
  repeat constructor; vm_compute; done.
Defined.

(** A result is rated HIGH exactly when the run is valid, the flow state is
    complete and no packet was lost in capture, ring or analyzer; with a drop
    it is at most MEDIUM, and MEDIUM needs explicit thresholds. Only
    thresholds outside [0, 1] are an error. *)
Theorem assess_confidence_levels (e : ConfidenceEvidence) (t : option ConfidenceThresholds) :
  let d := evidence_drops e in
  let lossless := capture d = 0 /\ ring d = 0 /\ analyzer d = 0 in
  let usable := invalid_reason e = None /\ required_flow_state_complete e = true in
  match assess_confidence e t with
  | Ok a =>
      (level a = High <-> usable /\ lossless) /\
      (level a = Invalid <-> invalid_reason e <> None) /\
      (level a = Medium -> usable /\ ~ lossless /\
         exists th, t = Some th /\ validate_thresholds th = Ok tt)
  | Err x =>
      code x = InvalidArgument /\ usable /\ ~ lossless /\
      exists th, t = Some th /\ validate_thresholds th = Err x
  | Panic => False
  end.
Proof.
  intros d lossless usable. unfold assess_confidence. fold d.
  destruct (invalid_reason e) as [r|] eqn:Hr; simpl.
  { subst usable. intuition congruence. }
  destruct (required_flow_state_complete e) eqn:Hc; simpl.
  2: { subst usable. intuition congruence. }
  assert (Husable : usable) by done.
  destruct ((capture d =? 0) && (ring d =? 0) && (analyzer d =? 0)) eqn:Hd; simpl.
  { rewrite !andb_true_iff, !Z.eqb_eq in Hd. assert (lossless) by (unfold lossless; tauto).
    intuition congruence. }
  assert (Hlossy : ~ lossless).
  { rewrite !andb_false_iff, !Z.eqb_neq in Hd. unfold lossless. tauto. }
  destruct t as [th|]; simpl; [|intuition congruence].
  destruct (validate_thresholds th) as [[]|x|] eqn:Hv; simpl.
  - assert (exists th0, Some th = Some th0 /\ validate_thresholds th0 = Ok tt) by eauto.
    match goal with |- context [if ?c then _ else _] => destruct c end;
      simpl; intuition (try discriminate; auto).
  - assert (code x = InvalidArgument).
    { unfold validate_thresholds in Hv. destruct (forallb _ _); [done|]. by injection Hv as <-. }
    split_and!; try apply Husable; eauto.
  - unfold validate_thresholds in Hv. by destruct (forallb _ _).
Qed.
