(* ===== verification/Flow.v ===== *)
(** * Flow keys, sharding and the bounded flow table

    Model of [crates/packet/src/flow.rs]. The table's [HashMap] is a [gmap];
    the victim of a capacity eviction depends on the iteration order, so every
    definition that evicts takes an arbitrary [HashOrder]. A method on
    [&mut self] returns the new table with its result. *)

From stdpp Require Import base list gmap strings.
From Stdlib Require Import ZArith Lia.
From S2P Require Import Prelude ErrorModel.
Open Scope Z_scope.

Definition MAX_FLOW_TABLE_ENTRIES : Z := 1000000.

Record FlowTuple := {
  source_ip : IpAddr;
  destination_ip : IpAddr;
  source_port : Z;
  destination_port : Z;
  tuple_protocol : Z;
}.

Inductive FlowDirection := Forward | Reverse.

#[export] Instance FlowDirection_eq_dec : EqDecision FlowDirection.
Proof. solve_decision. Defined.

Record FlowKey := {
  first_ip : IpAddr;
  first_port : Z;
  second_ip : IpAddr;
  second_port : Z;
  key_protocol : Z;
}.

#[export] Instance FlowKey_eq_dec : EqDecision FlowKey.
Proof. solve_decision. Defined.

#[export] Instance FlowKey_countable : Countable FlowKey.
Proof.
  refine (inj_countable'
    (fun k => (first_ip k, first_port k, second_ip k, second_port k, key_protocol k))
    (fun '(a, b, c, d, e) => Build_FlowKey a b c d e) _).
  by intros [].
Defined.

(** The derived order on [(IpAddr, u16)]: every IPv4 address precedes every
    IPv6 address, then addresses and ports compare numerically. *)
Definition ip_cmp (a b : IpAddr) : comparison :=
  match a, b with
  | V4 x, V4 y => x ?= y
  | V6 x, V6 y => x ?= y
  | V4 _, V6 _ => Lt
  | V6 _, V4 _ => Gt
  end.
Definition endpoint_leb (a b : IpAddr * Z) : bool :=
  match ip_cmp a.1 b.1 with
  | Lt => true
  | Gt => false
  | Eq => a.2 <=? b.2
  end.

(** [FlowKey::canonical]. *)
Definition canonical (t : FlowTuple) : FlowKey * FlowDirection :=
  let source := (source_ip t, source_port t) in
  let destination := (destination_ip t, destination_port t) in
  if endpoint_leb source destination then
    ({| first_ip := source_ip t; first_port := source_port t;
        second_ip := destination_ip t; second_port := destination_port t;
        key_protocol := tuple_protocol t |}, Forward)
  else
    ({| first_ip := destination_ip t; first_port := destination_port t;
        second_ip := source_ip t; second_port := source_port t;
        key_protocol := tuple_protocol t |}, Reverse).

(** The tuple of a packet travelling the other way. *)
Definition reverse_tuple (t : FlowTuple) : FlowTuple :=
  {| source_ip := destination_ip t; destination_ip := source_ip t;
     source_port := destination_port t; destination_port := source_port t;
     tuple_protocol := tuple_protocol t |}.

(** ** Sharding (64-bit FNV-1a). *)

Record FlowSharder := { shard_count : Z }.

Definition new_sharder (count : Z) : option FlowSharder :=
  if count =? 0 then None else Some {| shard_count := count |}.

Definition hash_byte (hash b : Z) : Z := wrap 64 (Z.lxor hash b * 0x00000100000001b3).
Definition hash_bytes (hash : Z) (bs : bytes) : Z := fold_left hash_byte bs hash.
Definition hash_ip (hash : Z) (address : IpAddr) : Z :=
  match address with
  | V4 _ => hash_bytes (hash_bytes hash [4]) (octets address)
  | V6 _ => hash_bytes (hash_bytes hash [6]) (octets address)
  end.

Definition flow_hash (k : FlowKey) : Z :=
  let hash := 0xcbf29ce484222325 in
  let hash := hash_ip hash (first_ip k) in
  let hash := hash_bytes hash (to_be_bytes 2 (first_port k)) in
  let hash := hash_ip hash (second_ip k) in
  let hash := hash_bytes hash (to_be_bytes 2 (second_port k)) in
  hash_bytes hash [key_protocol k].

Definition shard_for (s : FlowSharder) (k : FlowKey) : Z := flow_hash k mod shard_count s.

(** ** The flow table. *)

Inductive FlowDisposition := Existing | Created | CreatedAfterEviction.

Record FlowTableStats := {
  lookups : Z;
  creations : Z;
  evictions : Z;
}.

Record FlowEntry (T : Type) := {
  value : T;
  last_seen_nanoseconds : Z;
}.
Arguments value {T}.
Arguments last_seen_nanoseconds {T}.
Arguments Build_FlowEntry {T}.

Record FlowTable (T : Type) := {
  entries : gmap FlowKey (FlowEntry T);
  maximum_flows : Z;
  idle_timeout_nanoseconds : Z;
  stats : FlowTableStats;
}.
Arguments entries {T}.
Arguments maximum_flows {T}.
Arguments idle_timeout_nanoseconds {T}.
Arguments stats {T}.
Arguments Build_FlowTable {T}.

Definition default_flow_stats : FlowTableStats :=
  {| lookups := 0; creations := 0; evictions := 0 |}.

Section FlowTableOps.
Context {T : Type} {HO : HashOrder FlowKey (FlowEntry T)}.
Implicit Types t : FlowTable T.

Definition with_stats t (s : FlowTableStats) : FlowTable T :=
  {| entries := entries t; maximum_flows := maximum_flows t;
     idle_timeout_nanoseconds := idle_timeout_nanoseconds t; stats := s |}.
Definition with_entries t (m : gmap FlowKey (FlowEntry T)) : FlowTable T :=
  {| entries := m; maximum_flows := maximum_flows t;
     idle_timeout_nanoseconds := idle_timeout_nanoseconds t; stats := stats t |}.

Definition count_lookup t : FlowTable T :=
  with_stats t {| lookups := sat_add 64 (lookups (stats t)) 1;
                  creations := creations (stats t); evictions := evictions (stats t) |}.
Definition count_creation t : FlowTable T :=
  with_stats t {| lookups := lookups (stats t);
                  creations := sat_add 64 (creations (stats t)) 1;
                  evictions := evictions (stats t) |}.
Definition count_evictions t (n : Z) : FlowTable T :=
  with_stats t {| lookups := lookups (stats t); creations := creations (stats t);
                  evictions := sat_add 64 (evictions (stats t)) n |}.

Definition table_len t : Z := Z.of_nat (size (entries t)).
Definition table_is_empty t : bool := table_len t =? 0.

(** [FlowTable::new]; [reserved] is whether [HashMap::try_reserve] obtained
    the memory. *)
Definition new_table (reserved : bool) (maximum timeout : Z) : res (FlowTable T) :=
  if (maximum =? 0) || (MAX_FLOW_TABLE_ENTRIES <? maximum) || (timeout =? 0) then
    err InvalidArgument
      "flow table bounds must be between 1 and 1000000 and idle timeout must be greater than zero"
  else if negb reserved then err ResourceConflict "flow table capacity cannot be reserved"
  else Ok {| entries := ∅; maximum_flows := maximum; idle_timeout_nanoseconds := timeout;
             stats := default_flow_stats |}.

(** [get_mut]: the table after the lookup, with the value reached and the
    write-back the returned reference performs. *)
Definition get_mut t (key : FlowKey) (now : Z) : FlowTable T * option (T * (T -> FlowTable T)) :=
  let t := count_lookup t in
  match entries t !! key with
  | Some e =>
      let put v := with_entries t
        (<[key := {| value := v; last_seen_nanoseconds := now |}]> (entries t)) in
      (put (value e), Some (value e, put))
  | None => (t, None)
  end.

(** [value_mut]: the value and the write-back of the returned reference. *)
Definition value_mut t (key : FlowKey) : option (T * (T -> FlowTable T)) :=
  match entries t !! key with
  | Some e =>
      Some (value e, fun v => with_entries t
        (<[key := {| value := v; last_seen_nanoseconds := last_seen_nanoseconds e |}]> (entries t)))
  | None => None
  end.

(** The [retain] predicate of [expire_idle]. *)
Definition is_live (timeout now : Z) (e : FlowEntry T) : bool :=
  sat_sub now (last_seen_nanoseconds e) <? timeout.

Definition expire_idle t (now : Z) : FlowTable T * Z :=
  let kept := filter (fun kv => is_live (idle_timeout_nanoseconds t) now kv.2 = true) (entries t) in
  let removed := sat_sub (table_len t) (Z.of_nat (size kept)) in
  (count_evictions (with_entries t kept) removed, removed).

Definition evict_least_recently_seen t : FlowTable T * bool :=
  match min_by_key (fun kv => last_seen_nanoseconds kv.2) (hash_iter (entries t)) with
  | Some (victim, _) => (count_evictions (with_entries t (delete victim (entries t))) 1, true)
  | None => (t, false)
  end.

Definition get_or_insert_with t (key : FlowKey) (now : Z) (create : T)
    : FlowTable T * FlowDisposition :=
  let t := count_lookup t in
  match entries t !! key with
  | Some e =>
      (with_entries t (<[key := {| value := value e; last_seen_nanoseconds := now |}]> (entries t)),
       Existing)
  | None =>
      let '(t, idle_evictions) := expire_idle t now in
      let '(t, capacity_eviction) :=
        if maximum_flows t <=? table_len t then evict_least_recently_seen t else (t, false) in
      let t := count_creation t in
      let t := with_entries t
        (<[key := {| value := create; last_seen_nanoseconds := now |}]> (entries t)) in
      (t, if (0 <? idle_evictions) || capacity_eviction then CreatedAfterEviction else Created)
  end.

End FlowTableOps.

(** ** Canonical keys. *)

Lemma ip_cmp_refl a : ip_cmp a a = Eq.
Proof. destruct a; simpl; apply Z.compare_refl. Qed.

Lemma ip_cmp_eq a b : ip_cmp a b = Eq -> a = b.
Proof. destruct a, b; simpl; try done; intros ?%Z.compare_eq; congruence. Qed.

Lemma ip_cmp_antisym a b : ip_cmp b a = CompOpp (ip_cmp a b).
Proof. destruct a, b; simpl; try done; apply Z.compare_antisym. Qed.

Lemma endpoint_leb_total a b : endpoint_leb a b = false -> endpoint_leb b a = true.
Proof.
  unfold endpoint_leb. rewrite (ip_cmp_antisym a.1 b.1).
  destruct (ip_cmp a.1 b.1); simpl; [|done|done]. rewrite Z.leb_gt, Z.leb_le. lia.
Qed.

Lemma endpoint_leb_antisym a b : endpoint_leb a b = true -> endpoint_leb b a = true -> a = b.
Proof.
  unfold endpoint_leb. rewrite (ip_cmp_antisym a.1 b.1).
  destruct (ip_cmp a.1 b.1) eqn:Hc; simpl; try done.
  rewrite !Z.leb_le. apply ip_cmp_eq in Hc. destruct a, b; simpl in *. intros.
  f_equal; [done|lia].
Qed.

Lemma canonical_reverse_key t : (canonical (reverse_tuple t)).1 = (canonical t).1.
Proof.
  unfold canonical; simpl.
  set (s := (source_ip t, source_port t)). set (d := (destination_ip t, destination_port t)).
  destruct (endpoint_leb s d) eqn:Hsd, (endpoint_leb d s) eqn:Hds; simpl; try done.
  - pose proof (endpoint_leb_antisym _ _ Hsd Hds) as [= -> ->]. done.
  - apply endpoint_leb_total in Hsd. congruence.
Qed.

Lemma canonical_ordered t :
  let k := (canonical t).1 in
  endpoint_leb (first_ip k, first_port k) (second_ip k, second_port k) = true.
Proof.
  unfold canonical; simpl. case_match eqn:Hle; simpl; [done|]. by apply endpoint_leb_total.
Qed.

Lemma canonical_inj t u : canonical t = canonical u -> t = u.
Proof.
  unfold canonical. destruct t, u; simpl.
  do 2 case_match; intros [= -> -> -> -> ->]; done.
Qed.

(** ** Shard bounds. *)

Lemma shard_for_bound s k : 0 < shard_count s -> 0 <= shard_for s k < shard_count s.
Proof. intros. unfold shard_for. apply Z.mod_pos_bound. done. Qed.

(** ** The flow table: bound, contents, accounting. *)

Section FlowTableLemmas.
Context {T : Type} {HO : HashOrder FlowKey (FlowEntry T)}.
Implicit Types t : FlowTable T.

(** The invariant of a table built by [new_table]: positive bounds, and never
    more entries than the configured maximum. *)
Definition table_inv t : Prop :=
  1 <= maximum_flows t <= MAX_FLOW_TABLE_ENTRIES /\ 1 <= idle_timeout_nanoseconds t /\
  table_len t <= maximum_flows t.

(** Every entry was created and not yet evicted, as the counters say. *)
Definition accounted t : Prop :=
  0 <= evictions (stats t) /\ creations (stats t) = evictions (stats t) + table_len t.

Lemma expire_idle_lookup t now key :
  entries (expire_idle t now).1 !! key =
  match entries t !! key with
  | Some e => if is_live (idle_timeout_nanoseconds t) now e then Some e else None
  | None => None
  end.
Proof.
  simpl. destruct (entries t !! key) as [e|] eqn:He.
  - destruct (is_live _ now e) eqn:Hl; [by apply map_lookup_filter_Some|].
    apply map_lookup_filter_None. right. intros e' He'. simplify_eq. simpl. by rewrite Hl.
  - apply map_lookup_filter_None. by left.
Qed.

Lemma size_filter_le (P : FlowKey * FlowEntry T -> Prop) `{!forall x, Decision (P x)}
    (m : gmap FlowKey (FlowEntry T)) : (size (filter P m) <= size m)%nat.
Proof. apply map_subseteq_size, map_filter_subseteq. Qed.

Lemma expire_idle_removed t now :
  table_len (expire_idle t now).1 + (expire_idle t now).2 = table_len t /\
  0 <= (expire_idle t now).2.
Proof.
  unfold expire_idle, table_len, sat_sub; simpl.
  pose proof (size_filter_le
    (fun kv => is_live (idle_timeout_nanoseconds t) now kv.2 = true) (entries t)). lia.
Qed.

(** A capacity eviction removes exactly one entry, of least [last_seen]. *)
Lemma evict_spec t :
  0 < table_len t ->
  exists victim e, entries t !! victim = Some e /\
    evict_least_recently_seen t =
      (count_evictions (with_entries t (delete victim (entries t))) 1, true) /\
    forall k e', entries t !! k = Some e' ->
      last_seen_nanoseconds e <= last_seen_nanoseconds e'.
Proof.
  intros Hlen. unfold evict_least_recently_seen.
  destruct (min_by_key _ (hash_iter (entries t))) as [[victim e]|] eqn:Hm.
  - apply min_by_key_Some in Hm as [Hin Hmin]. exists victim, e.
    split; [by apply hash_iter_elem|]. split; [done|].
    intros k e' Hk. apply (Hmin (k, e')). by apply hash_iter_elem.
  - apply min_by_key_None, hash_iter_nil in Hm. unfold table_len in Hlen.
    rewrite Hm, map_size_empty in Hlen. lia.
Qed.

Lemma table_len_delete t key e :
  entries t !! key = Some e ->
  table_len (with_entries t (delete key (entries t))) = table_len t - 1.
Proof.
  intros He. unfold table_len; simpl. rewrite map_size_delete, He.
  assert (size (entries t) <> 0%nat); [|lia].
  intros Hz%map_size_empty_inv. by rewrite Hz in He.
Qed.

Lemma count_evictions_accounted t t0 n :
  accounted t0 -> 0 <= n -> stats t = stats t0 -> table_len t + n = table_len t0 ->
  creations (stats t0) <= umax 64 -> accounted (count_evictions t n).
Proof.
  unfold accounted. intros [He Hc] Hn Hs Hl Hmax. simpl. rewrite Hs.
  change (table_len (count_evictions t n)) with (table_len t).
  rewrite sat_add_exact; [lia|]. unfold table_len in *. lia.
Qed.

Lemma expire_idle_accounted t now :
  accounted t -> creations (stats t) <= umax 64 -> accounted (expire_idle t now).1.
Proof.
  intros Ha Hmax. pose proof (expire_idle_removed t now) as [Hlen Hn].
  apply (count_evictions_accounted _ t); done.
Qed.

Lemma evict_accounted t :
  accounted t -> creations (stats t) <= umax 64 -> accounted (evict_least_recently_seen t).1.
Proof.
  intros Ha Hmax. destruct (decide (0 < table_len t)) as [Hpos|Hz].
  - destruct (evict_spec t Hpos) as (victim&e&Hv&->&_).
    apply (count_evictions_accounted _ t); [done|lia|done| |done].
    rewrite (table_len_delete _ _ _ Hv). lia.
  - unfold evict_least_recently_seen. case_match eqn:Hm; [|done].
    destruct p as [k e]. apply min_by_key_Some in Hm as [Hin%hash_iter_elem _].
    exfalso. apply Hz. unfold table_len. assert (size (entries t) <> 0%nat); [|lia].
    intros Hs%map_size_empty_inv. by rewrite Hs in Hin.
Qed.

Lemma evict_creations t : creations (stats (evict_least_recently_seen t).1) = creations (stats t).
Proof. unfold evict_least_recently_seen. by repeat case_match. Qed.

Lemma evict_subseteq t : entries (evict_least_recently_seen t).1 ⊆ entries t.
Proof.
  unfold evict_least_recently_seen. repeat case_match; simpl; [apply delete_subseteq|done].
Qed.

Lemma expire_subseteq t now : entries (expire_idle t now).1 ⊆ entries t.
Proof. apply map_filter_subseteq. Qed.

(** ** What an insertion promises, on the map of entries alone. *)

(** The entries that survive idle expiry at time [now]. *)
Definition live_entries (timeout now : Z) (m : gmap FlowKey (FlowEntry T))
    : gmap FlowKey (FlowEntry T) :=
  filter (fun kv => is_live timeout now kv.2 = true) m.

(** The abstract insertion: an existing flow is touched; otherwise idle flows
    go, and one least recently seen live flow goes if the table is full. *)
Inductive insert_spec (maximum timeout now : Z) (key : FlowKey) (create : T)
    (m : gmap FlowKey (FlowEntry T))
    : gmap FlowKey (FlowEntry T) -> FlowDisposition -> Prop :=
| insert_existing e :
    m !! key = Some e ->
    insert_spec maximum timeout now key create m
      (<[key := {| value := value e; last_seen_nanoseconds := now |}]> m) Existing
| insert_with_room :
    m !! key = None ->
    Z.of_nat (size (live_entries timeout now m)) < maximum ->
    insert_spec maximum timeout now key create m
      (<[key := {| value := create; last_seen_nanoseconds := now |}]>
         (live_entries timeout now m))
      (if decide (size (live_entries timeout now m) < size m)%nat
       then CreatedAfterEviction else Created)
| insert_evicting victim e :
    m !! key = None ->
    maximum <= Z.of_nat (size (live_entries timeout now m)) ->
    live_entries timeout now m !! victim = Some e ->
    (forall k e', live_entries timeout now m !! k = Some e' ->
       last_seen_nanoseconds e <= last_seen_nanoseconds e') ->
    insert_spec maximum timeout now key create m
      (<[key := {| value := create; last_seen_nanoseconds := now |}]>
         (delete victim (live_entries timeout now m))) CreatedAfterEviction.

(** The representation claim of the insertion used below. *)
Lemma get_or_insert_refines_aux t key now create :
  1 <= maximum_flows t ->
  insert_spec (maximum_flows t) (idle_timeout_nanoseconds t) now key create (entries t)
    (entries (get_or_insert_with t key now create).1)
    (get_or_insert_with t key now create).2.
Proof.
  intros Hmax. unfold get_or_insert_with.
  change (entries (count_lookup t)) with (entries t).
  destruct (entries t !! key) as [e|] eqn:He; [by constructor|].
  destruct (expire_idle (count_lookup t) now) as [t1 idle] eqn:Ht1.
  pose proof (expire_idle_removed (count_lookup t) now) as [Hlen Hidle].
  rewrite Ht1 in Hlen, Hidle; simpl in Hlen, Hidle.
  assert (maximum_flows t1 = maximum_flows t) as -> by (by injection Ht1 as <- _).
  assert (entries t1 = live_entries (idle_timeout_nanoseconds t) now (entries t)) as Hlive
    by (by injection Ht1 as <- _).
  unfold table_len in Hlen; simpl in Hlen.
  destruct (Z.leb_spec (maximum_flows t) (table_len t1)) as [Hfull|Hroom].
  - destruct (evict_spec t1) as (victim&e&Hv&Hev&Hleast); [lia|]. rewrite Hev.
    rewrite orb_true_r. simpl. rewrite Hlive in *.
    eapply insert_evicting; [done| |done|done]. by rewrite <- Hlive.
  - rewrite orb_false_r. simpl. rewrite Hlive in *.
    assert ((if 0 <? idle then CreatedAfterEviction else Created) =
      if decide (size (live_entries (idle_timeout_nanoseconds t) now (entries t))
                 < size (entries t))%nat then CreatedAfterEviction else Created) as ->.
    { destruct (Z.ltb_spec 0 idle); case_decide; try done; exfalso; lia. }
    apply insert_with_room; [done|]. by rewrite <- Hlive.
Qed.

Lemma insert_spec_bound maximum timeout now key create m m' d :
  insert_spec maximum timeout now key create m m' d ->
  Z.of_nat (size m) <= maximum -> Z.of_nat (size m') <= maximum.
Proof.
  assert (forall m0 e0, (size (<[key := e0]> m0 : gmap FlowKey (FlowEntry T)) <= S (size m0))%nat)
    as Hins. { intros. rewrite map_size_insert. destruct (m0 !! key); simpl; lia. }
  intros [e He|He Hroom|victim e He Hfull Hv _] Hm.
  - rewrite map_size_insert_Some by eauto. done.
  - specialize (Hins (live_entries timeout now m)
      {| value := create; last_seen_nanoseconds := now |}). lia.
  - specialize (Hins (delete victim (live_entries timeout now m))
      {| value := create; last_seen_nanoseconds := now |}).
    rewrite map_size_delete, Hv in Hins.
    pose proof (size_filter_le (fun kv => is_live timeout now kv.2 = true) m) as Hle.
    fold (live_entries timeout now m) in Hle.
    assert (size (live_entries timeout now m) <> 0%nat); [|lia].
    intros Hz%map_size_empty_inv. by rewrite Hz in Hv.
Qed.

Lemma get_or_insert_inv t key now create :
  table_inv t -> table_inv (get_or_insert_with t key now create).1.
Proof.
  intros (Hmax&Htime&Hlen).
  pose proof (insert_spec_bound _ _ _ _ _ _ _ _
    (get_or_insert_refines_aux t key now create ltac:(lia)) Hlen) as Hb.
  assert (maximum_flows (get_or_insert_with t key now create).1 = maximum_flows t /\
          idle_timeout_nanoseconds (get_or_insert_with t key now create).1
            = idle_timeout_nanoseconds t) as [Hm' Ht'].
  { unfold get_or_insert_with, evict_least_recently_seen; simpl.
    by repeat (case_match; simplify_eq/=). }
  unfold table_inv. rewrite Hm', Ht'. done.
Qed.

Lemma table_len_insert_fresh t key e :
  entries t !! key = None ->
  table_len (with_entries t (<[key := e]> (entries t))) = table_len t + 1.
Proof. intros Hk. unfold table_len; simpl. rewrite map_size_insert_None by done. lia. Qed.

Lemma insert_fresh_accounted t key e :
  accounted t -> creations (stats t) < umax 64 -> entries t !! key = None ->
  accounted (with_entries (count_creation t) (<[key := e]> (entries (count_creation t)))).
Proof.
  unfold accounted. intros [He Hc] Hmax Hk.
  pose proof (table_len_insert_fresh (count_creation t) key e Hk) as Hl.
  change (table_len (count_creation t)) with (table_len t) in Hl.
  rewrite Hl. simpl. rewrite sat_add_exact by lia. lia.
Qed.

Lemma get_or_insert_accounted t key now create :
  accounted t -> creations (stats t) < umax 64 ->
  accounted (get_or_insert_with t key now create).1 /\
  creations (stats (get_or_insert_with t key now create).1) <= creations (stats t) + 1.
Proof.
  intros Ha Hmax. unfold get_or_insert_with.
  change (entries (count_lookup t)) with (entries t).
  destruct (entries t !! key) as [e|] eqn:He.
  - split; [|simpl; lia]. unfold accounted, table_len in *; simpl.
    by rewrite map_size_insert_Some by eauto.
  - pose proof (expire_idle_accounted (count_lookup t) now Ha ltac:(simpl; lia)) as Ha1.
    pose proof (expire_subseteq (count_lookup t) now) as Hs1.
    assert (creations (stats (expire_idle (count_lookup t) now).1) = creations (stats t)) as Hc1
      by done.
    destruct (expire_idle (count_lookup t) now) as [t1 idle]; simpl in Ha1, Hs1, Hc1.
    set (r := if maximum_flows t1 <=? table_len t1
              then evict_least_recently_seen t1 else (t1, false)).
    assert (accounted r.1 /\ entries r.1 ⊆ entries t1 /\
            creations (stats r.1) = creations (stats t1)) as (Ha2&Hs2&Hc2).
    { unfold r. case_match; [|done].
      split_and!; [apply evict_accounted; [done|lia]|apply evict_subseteq|apply evict_creations]. }
    destruct r as [t2 b]; simpl in *. split.
    + apply insert_fresh_accounted; [done|lia|].
      eapply lookup_weaken_None; [exact He|]. by etrans.
    + unfold sat_add. lia.
Qed.

(** ** Operation sequences. *)

(** The calls a worker makes on its table. [Write] is a store through the
    reference that [value_mut] returns. *)
Inductive FlowOp :=
| OpGet (key : FlowKey) (now : Z)
| OpWrite (key : FlowKey) (v : T)
| OpInsert (key : FlowKey) (now : Z) (create : T)
| OpExpire (now : Z).

Definition flow_step t (op : FlowOp) : FlowTable T :=
  match op with
  | OpGet key now => (get_mut t key now).1
  | OpWrite key v =>
      match value_mut t key with
      | Some (_, put) => put v
      | None => t
      end
  | OpInsert key now create => (get_or_insert_with t key now create).1
  | OpExpire now => (expire_idle t now).1
  end.

Lemma table_len_overwrite t key e e' :
  entries t !! key = Some e ->
  table_len (with_entries t (<[key := e']> (entries t))) = table_len t.
Proof. intros Hk. unfold table_len; simpl. by rewrite map_size_insert_Some by eauto. Qed.

Lemma flow_step_inv t op : table_inv t -> table_inv (flow_step t op).
Proof.
  intros ([Hmax1 Hmax2]&Htime&Hlen). destruct op as [key now|key v|key now create|now]; simpl.
  - unfold get_mut. change (entries (count_lookup t)) with (entries t).
    destruct (entries t !! key) as [e|] eqn:He; [|done].
    split_and!; [done..|]. simpl.
    by rewrite (table_len_overwrite (count_lookup t) key e _ He).
  - unfold value_mut. destruct (entries t !! key) as [e|] eqn:He; [|done].
    split_and!; [done..|]. by rewrite (table_len_overwrite t key e _ He).
  - by apply get_or_insert_inv.
  - pose proof (expire_idle_removed t now) as [? ?]. split_and!; [done..|]. simpl in *. lia.
Qed.

Lemma flow_step_accounted t op :
  accounted t -> creations (stats t) < umax 64 ->
  accounted (flow_step t op) /\ creations (stats (flow_step t op)) <= creations (stats t) + 1.
Proof.
  intros Ha Hmax. destruct op as [key now|key v|key now create|now]; simpl.
  - unfold get_mut. change (entries (count_lookup t)) with (entries t).
    destruct (entries t !! key) as [e|] eqn:He; [|split; [done|simpl; lia]].
    split; [|simpl; lia]. unfold accounted; simpl.
    by rewrite (table_len_overwrite (count_lookup t) key e _ He).
  - unfold value_mut. destruct (entries t !! key) as [e|] eqn:He; [|split; [done|lia]].
    split; [|simpl; lia]. unfold accounted; simpl.
    by rewrite (table_len_overwrite t key e _ He).
  - by apply get_or_insert_accounted.
  - split; [apply expire_idle_accounted; [done|lia]|simpl; lia].
Qed.

Lemma flow_run_inv ops t : table_inv t -> table_inv (fold_left flow_step ops t).
Proof. revert t. induction ops; intros; simpl; auto using flow_step_inv. Qed.

Lemma flow_step_maximum t op : maximum_flows (flow_step t op) = maximum_flows t.
Proof.
  destruct op; simpl; unfold get_mut, value_mut, get_or_insert_with, evict_least_recently_seen;
    by repeat (case_match; simplify_eq/=).
Qed.

Lemma flow_run_maximum ops t : maximum_flows (fold_left flow_step ops t) = maximum_flows t.
Proof.
  revert t. induction ops as [|op ops IH]; intros t; simpl; [done|].
  by rewrite IH, flow_step_maximum.
Qed.

Lemma flow_run_accounted ops t :
  accounted t -> creations (stats t) + len ops <= umax 64 ->
  accounted (fold_left flow_step ops t).
Proof.
  revert t. induction ops as [|op ops IH]; intros t Ha Hn; simpl; [done|].
  unfold len in *. simpl length in Hn.
  destruct (flow_step_accounted t op Ha ltac:(lia)). apply IH; [done|lia].
Qed.

Lemma new_table_inv reserved maximum timeout t :
  0 <= maximum -> 0 <= timeout ->
  new_table reserved maximum timeout = Ok t -> table_inv t /\ accounted t /\
    maximum_flows t = maximum /\ creations (stats t) = 0.
Proof.
  unfold new_table, MAX_FLOW_TABLE_ENTRIES. intros ??.
  destruct (Z.eqb_spec maximum 0), (Z.ltb_spec 1000000 maximum), (Z.eqb_spec timeout 0),
    reserved; simpl; try done.
  intros [= <-]. unfold table_inv, accounted, table_len, MAX_FLOW_TABLE_ENTRIES; simpl.
  rewrite map_size_empty. lia.
Qed.

End FlowTableLemmas.

(** ** Properties *)

(** The key of a flow does not depend on the direction in which a packet
    travels, so both directions reach the same table entry and, for any shard
    count, the same worker shard, whose index is below the count. *)
Theorem flow_direction_shard (sharder : FlowSharder) (t : FlowTuple) :
  0 < shard_count sharder ->
  (canonical (reverse_tuple t)).1 = (canonical t).1 /\
  shard_for sharder (canonical (reverse_tuple t)).1 = shard_for sharder (canonical t).1 /\
  0 <= shard_for sharder (canonical t).1 < shard_count sharder.
Proof.
  intros Hpos. rewrite canonical_reverse_key. split_and!; [done..| |];
    pose proof (shard_for_bound sharder (canonical t).1 Hpos); lia.
Qed.

Lemma flow_direction_shard_witness :
  let t := {| source_ip := V4 0x0a000001; destination_ip := V4 0xc0a80102;
              source_port := 40000; destination_port := 443; tuple_protocol := 6 |} in
  shard_for {| shard_count := 8 |} (canonical (reverse_tuple t)).1 =
  shard_for {| shard_count := 8 |} (canonical t).1.
Proof. intros t. apply (flow_direction_shard {| shard_count := 8 |} t). reflexivity. Defined.

(** C29: [get_or_insert_with] implements the abstract bounded-LRU insertion, for
    every iteration order of the hash map: an existing flow is kept and
    touched; otherwise exactly the idle flows are dropped and, only when the
    table is still full, one live flow of least last-seen time. *)
Theorem get_or_insert_refines {T} {HO : HashOrder FlowKey (FlowEntry T)}
    (t : FlowTable T) (key : FlowKey) (now : Z) (create : T) :
  table_inv t ->
  insert_spec (maximum_flows t) (idle_timeout_nanoseconds t) now key create (entries t)
    (entries (get_or_insert_with t key now create).1)
    (get_or_insert_with t key now create).2.
Proof. intros (Hmax&_&_). apply get_or_insert_refines_aux. lia. Qed.

(** A table for one flow, holding one flow seen at time 5. *)
Definition one_flow_table : FlowTable Z :=
  {| entries := {[ {| first_ip := V4 1; first_port := 1; second_ip := V4 2; second_port := 2;
                      key_protocol := 6 |} := {| value := 7; last_seen_nanoseconds := 5 |} ]};
     maximum_flows := 1; idle_timeout_nanoseconds := 10;
     stats := {| lookups := 1; creations := 1; evictions := 0 |} |}.

Lemma get_or_insert_refines_witness :
  let _ := list_order FlowKey (FlowEntry Z) in
  let key := {| first_ip := V4 3; first_port := 3; second_ip := V4 4; second_port := 4;
                key_protocol := 6 |} in
  (get_or_insert_with one_flow_table key 9 8).2 = CreatedAfterEviction /\
  insert_spec 1 10 9 key 8 (entries one_flow_table)
    (entries (get_or_insert_with one_flow_table key 9 8).1)
    (get_or_insert_with one_flow_table key 9 8).2.
Proof.
  intros HO key. split; [by vm_compute|].
  apply (get_or_insert_refines one_flow_table key 9 8).
  split_and!; vm_compute; done.
Defined.

(** A table accepted by [FlowTable::new] never holds more than the
    configured number of flows, whatever calls a worker makes; and as long as
    fewer than 2^64 calls were made the counters account for every entry:
    creations = evictions + live flows. *)
Theorem flow_table_bounded {T} {HO : HashOrder FlowKey (FlowEntry T)}
    (reserved : bool) (maximum timeout : Z) (t : FlowTable T) (ops : list FlowOp) :
  uint 64 maximum -> uint 64 timeout ->
  new_table reserved maximum timeout = Ok t ->
  table_len (fold_left flow_step ops t) <= maximum <= MAX_FLOW_TABLE_ENTRIES /\
  (len ops <= umax 64 -> accounted (fold_left flow_step ops t)).
Proof.
  intros [Hm _] [Ht _] Hnew.
  destruct (new_table_inv _ _ _ _ Hm Ht Hnew) as (Hinv&Hacc&<-&Hc). split.
  - assert (maximum_flows (fold_left flow_step ops t) = maximum_flows t) as <-
      by apply flow_run_maximum.
    destruct (flow_run_inv ops t Hinv) as (?&?&?). lia.
  - intros. apply flow_run_accounted; [done|lia].
Qed.

Lemma flow_table_bounded_witness :
  let _ := list_order FlowKey (FlowEntry Z) in
  let key p := {| first_ip := V4 3; first_port := p; second_ip := V4 4; second_port := 4;
                  key_protocol := 6 |} in
  let t : FlowTable Z := {| entries := ∅; maximum_flows := 2; idle_timeout_nanoseconds := 10;
                            stats := default_flow_stats |} in
  table_len (fold_left flow_step [OpInsert (key 1) 0 0; OpInsert (key 2) 1 0;
                                  OpInsert (key 3) 2 0] t) <= 2.
Proof.
  intros HO key t.
  destruct (flow_table_bounded true 2 10 t
    [OpInsert (key 1) 0 0; OpInsert (key 2) 1 0; OpInsert (key 3) 2 0]) as [[H _] _].
  - split; vm_compute; done.
  - split; vm_compute; done.
  - reflexivity.
  - exact H.
Defined.
