(* ===== verification/Tcp.v ===== *)
(** * Per-flow TCP analyzer

    Model of [crates/packet/src/tcp.rs]. Sequence numbers are 32-bit values in
    [Z]; the source compares them through the sign bit of the wrapped
    difference. [observe] returns the updated analyzer with the analysis. *)

From stdpp Require Import base list strings.
From Stdlib Require Import ZArith Lia.
From S2P Require Import Prelude PacketStats Flow.
Open Scope Z_scope.

Definition FIN : Z := 0x001.
Definition SYN : Z := 0x002.
Definition RST : Z := 0x004.
Definition ACK : Z := 0x010.

Record TcpObservation := {
  direction : FlowDirection;
  obs_sequence : Z;
  obs_acknowledgement : Z;
  obs_window : Z;
  obs_flags : Z;
  payload_length : Z;
}.

Inductive TcpClassification :=
| InOrder
| ObservedRetransmission
| SuspectedRetransmission
| OutOfOrder
| DuplicateAck.

Record TcpFlowState := {
  next_seq : option Z;
  last_ack : option Z;
  state_window : Z;
  syn_seen : bool;
  fin_seen : bool;
  rst_seen : bool;
  retransmission_count : Z;
  out_of_order_count : Z;
}.

Record TcpAnalysis := {
  classification : TcpClassification;
  confidence : ConfidenceAssessment;
}.

Record TcpFlowAnalyzer := {
  forward : TcpFlowState;
  reverse_state : TcpFlowState;
}.

Definition default_tcp_state : TcpFlowState :=
  {| next_seq := None; last_ack := None; state_window := 0; syn_seen := false;
     fin_seen := false; rst_seen := false; retransmission_count := 0; out_of_order_count := 0 |}.
Definition default_analyzer : TcpFlowAnalyzer :=
  {| forward := default_tcp_state; reverse_state := default_tcp_state |}.

(** The sign of the wrapped 32-bit difference. *)
Definition seq_before (left right : Z) : bool := 2 ^ 31 <=? wrap 32 (left - right).
Definition seq_after (left right : Z) : bool := seq_before right left.

Definition has_flag (packet : TcpObservation) (f : Z) : bool :=
  negb (Z.land (obs_flags packet) f =? 0).

(** Sequence space a segment occupies. *)
Definition consumes (packet : TcpObservation) : Z :=
  sat_add 32 (sat_add 32 (payload_length packet) (Z.b2z (has_flag packet SYN)))
    (Z.b2z (has_flag packet FIN)).
Definition segment_end (packet : TcpObservation) : Z :=
  wrap 32 (obs_sequence packet + consumes packet).

Definition is_retransmission (c : TcpClassification) : bool :=
  match c with
  | ObservedRetransmission | SuspectedRetransmission => true
  | _ => false
  end.

(** The [if duplicate_ack ... else if let Some(expected) ...] chain: the class
    of the packet with the updated [next_seq] and counters. *)
Definition classify (state : TcpFlowState) (packet : TcpObservation) (capture_drops : Z)
    : TcpClassification * option Z * Z * Z :=
  let r := retransmission_count state in
  let o := out_of_order_count state in
  let duplicate_ack :=
    has_flag packet ACK && (consumes packet =? 0) &&
    bool_decide (last_ack state = Some (obs_acknowledgement packet)) in
  if duplicate_ack then (DuplicateAck, next_seq state, r, o)
  else
    match next_seq state with
    | Some expected =>
        if seq_before (obs_sequence packet) expected then
          (if capture_drops =? 0 then ObservedRetransmission else SuspectedRetransmission,
           next_seq state, sat_add 64 r 1, o)
        else if seq_after (obs_sequence packet) expected then
          (OutOfOrder, next_seq state, r, sat_add 64 o 1)
        else (InOrder, Some (segment_end packet), r, o)
    | None => (InOrder, Some (segment_end packet), r, o)
    end.

(** The update of one direction. *)
Definition observe_state (state : TcpFlowState) (packet : TcpObservation) (capture_drops : Z)
    : TcpFlowState * TcpClassification :=
  let '(c, next, r, o) := classify state packet capture_drops in
  let next :=
    match next with
    | Some expected =>
        if is_retransmission c && seq_after (segment_end packet) expected
        then Some (segment_end packet) else next
    | None => next
    end in
  ({| next_seq := next;
      last_ack := if has_flag packet ACK then Some (obs_acknowledgement packet) else last_ack state;
      state_window := obs_window packet;
      syn_seen := syn_seen state || has_flag packet SYN;
      fin_seen := fin_seen state || has_flag packet FIN;
      rst_seen := rst_seen state || has_flag packet RST;
      retransmission_count := r;
      out_of_order_count := o |}, c).

(** [TcpFlowAnalyzer::observe]. *)
Definition observe (a : TcpFlowAnalyzer) (packet : TcpObservation) (capture_drops : Z)
    : TcpFlowAnalyzer * TcpAnalysis :=
  let state := match direction packet with
               | Forward => forward a
               | Reverse => reverse_state a
               end in
  let '(state', c) := observe_state state packet capture_drops in
  let a' := match direction packet with
            | Forward => {| forward := state'; reverse_state := reverse_state a |}
            | Reverse => {| forward := forward a; reverse_state := state' |}
            end in
  (a', {| classification := c;
          confidence := if capture_drops =? 0
                        then {| level := High; reason := "capture_complete" |}
                        else {| level := Low; reason := "capture_drop_observed" |} |}).

(** The state of a direction. *)
Definition state_of (a : TcpFlowAnalyzer) (d : FlowDirection) : TcpFlowState :=
  match d with
  | Forward => forward a
  | Reverse => reverse_state a
  end.

(** A run over [(packet, capture drops so far)] observations. *)
Fixpoint observe_all (a : TcpFlowAnalyzer) (ps : list (TcpObservation * Z))
    : TcpFlowAnalyzer * list TcpAnalysis :=
  match ps with
  | [] => (a, [])
  | (p, drops) :: ps =>
      let '(a, r) := observe a p drops in
      let '(a, rs) := observe_all a ps in
      (a, r :: rs)
  end.

(** ** Sequence arithmetic. *)

Lemma seq_before_irrefl x : seq_before x x = false.
Proof. unfold seq_before, wrap. rewrite Z.sub_diag, Z.mod_0_l by done. done. Qed.

(** [seq_before] is the usual serial-number order: [right] is at most 2^31
    ahead of [left]. *)
Lemma seq_before_ahead x d : uint 32 x -> 0 < d <= 2 ^ 31 -> seq_before x (wrap 32 (x + d)) = true.
Proof.
  intros _ Hd. unfold seq_before, wrap. apply Z.leb_le.
  rewrite Zminus_mod_idemp_r. replace (x - (x + d)) with (- d) by lia.
  rewrite Z.mod_opp_l_nz; [rewrite Z.mod_small by lia; lia|lia|rewrite Z.mod_small; lia].
Qed.

(** ** Isolation and counters. *)

Lemma observe_other_direction a p drops d :
  d <> direction p -> state_of (observe a p drops).1 d = state_of a d.
Proof.
  unfold observe. destruct (observe_state _ p drops). by destruct d, (direction p).
Qed.

Lemma observe_own_direction a p drops :
  state_of (observe a p drops).1 (direction p) =
    (observe_state (state_of a (direction p)) p drops).1 /\
  classification (observe a p drops).2 = (observe_state (state_of a (direction p)) p drops).2.
Proof.
  unfold observe, state_of. destruct (direction p), (observe_state _ p drops) eqn:H; simpl;
    rewrite ?H; done.
Qed.

Definition is_out_of_order (c : TcpClassification) : bool :=
  match c with
  | OutOfOrder => true
  | _ => false
  end.

Lemma observe_state_counts s p drops :
  let c := (observe_state s p drops).2 in
  retransmission_count (observe_state s p drops).1 =
    (if is_retransmission c then sat_add 64 (retransmission_count s) 1
     else retransmission_count s) /\
  out_of_order_count (observe_state s p drops).1 =
    (if is_out_of_order c then sat_add 64 (out_of_order_count s) 1
     else out_of_order_count s).
Proof.
  unfold observe_state, classify.
  destruct (_ && bool_decide _); [done|]. destruct (next_seq s); [|done].
  destruct (seq_before _ _); [by destruct (drops =? 0)|]. by destruct (seq_after _ _).
Qed.

(** How many results of a run concern direction [d] and satisfy [q]. *)
Fixpoint count_class (q : TcpClassification -> bool) (d : FlowDirection)
    (ps : list (TcpObservation * Z)) (rs : list TcpAnalysis) : Z :=
  match ps, rs with
  | (p, _) :: ps, r :: rs =>
      Z.b2z (bool_decide (direction p = d) && q (classification r)) + count_class q d ps rs
  | _, _ => 0
  end.

Lemma count_class_bound q d ps rs : 0 <= count_class q d ps rs <= len ps.
Proof.
  unfold len. revert rs. induction ps as [|[p dr] ps IH]; intros [|r rs]; simpl; try lia.
  specialize (IH rs). destruct (_ && _); simpl; lia.
Qed.

Lemma observe_counts a p drops d :
  let r := observe a p drops in
  let hit q := bool_decide (direction p = d) && q (classification r.2) in
  retransmission_count (state_of r.1 d) =
    (if hit is_retransmission then sat_add 64 (retransmission_count (state_of a d)) 1
     else retransmission_count (state_of a d)) /\
  out_of_order_count (state_of r.1 d) =
    (if hit is_out_of_order then sat_add 64 (out_of_order_count (state_of a d)) 1
     else out_of_order_count (state_of a d)).
Proof.
  intros r hit. subst r hit. simpl. case_bool_decide as Hd; simpl.
  - subst d. destruct (observe_own_direction a p drops) as [-> ->].
    apply observe_state_counts.
  - rewrite observe_other_direction by congruence. done.
Qed.

Lemma observe_all_counts ps a d :
  retransmission_count (state_of a d) + len ps <= umax 64 ->
  out_of_order_count (state_of a d) + len ps <= umax 64 ->
  let '(a', rs) := observe_all a ps in
  retransmission_count (state_of a' d) =
    retransmission_count (state_of a d) + count_class is_retransmission d ps rs /\
  out_of_order_count (state_of a' d) =
    out_of_order_count (state_of a d) + count_class is_out_of_order d ps rs.
Proof.
  unfold len. revert a. induction ps as [|[p drops] ps IH]; intros a Hr Ho; simpl in *; [lia|].
  pose proof (observe_counts a p drops d) as Hc; cbv zeta in Hc.
  destruct (observe a p drops) as [a1 r]; simpl in Hc. destruct Hc as [Hc1 Hc2].
  assert (forall x, x + 1 <= umax 64 -> sat_add 64 x 1 = x + 1) as Hsat
    by (intros; by apply sat_add_exact).
  specialize (IH a1). destruct (observe_all a1 ps) as [a2 rs]; simpl.
  destruct (bool_decide (direction p = d) && is_retransmission _),
    (bool_decide (direction p = d) && is_out_of_order _); simpl;
    rewrite ?Hsat in Hc1 by lia; rewrite ?Hsat in Hc2 by lia; lia.
Qed.

(** ** Position of a segment relative to the expected sequence number. *)

Lemma wrap_wrap_sub e k : wrap 32 (wrap 32 (e + k) - wrap 32 e) = wrap 32 k.
Proof.
  unfold wrap. rewrite <- Zminus_mod. f_equal. lia.
Qed.

Lemma wrap_neg k : - 2 ^ 31 <= k < 0 -> wrap 32 k = k + 2 ^ 32.
Proof.
  intros. unfold wrap. rewrite <- (Z.mod_add k 1) by done. rewrite Z.mod_small; lia.
Qed.

Lemma wrap_small k : 0 <= k < 2 ^ 32 -> wrap 32 k = k.
Proof. intros. unfold wrap. by rewrite Z.mod_small. Qed.

Lemma seq_before_offset e k :
  - 2 ^ 31 <= k < 2 ^ 31 -> seq_before (wrap 32 (e + k)) (wrap 32 e) = (k <? 0).
Proof.
  intros Hk. unfold seq_before. rewrite wrap_wrap_sub.
  destruct (Z.ltb_spec k 0).
  - rewrite wrap_neg by lia. apply Z.leb_le. lia.
  - rewrite wrap_small by lia. apply Z.leb_gt. lia.
Qed.

Lemma seq_after_offset e k :
  - 2 ^ 31 < k < 2 ^ 31 -> seq_after (wrap 32 (e + k)) (wrap 32 e) = (0 <? k).
Proof.
  intros Hk. unfold seq_after.
  pose proof (seq_before_offset (e + k) (- k) ltac:(lia)) as H.
  replace (e + k + - k) with e in H by lia. rewrite H.
  destruct (Z.ltb_spec (- k) 0), (Z.ltb_spec 0 k); lia.
Qed.

Lemma classify_position s p drops e k :
  next_seq s = Some (wrap 32 e) -> obs_sequence p = wrap 32 (e + k) ->
  - 2 ^ 31 <= k < 2 ^ 31 -> consumes p <> 0 ->
  (classify s p drops).1.1.1 =
    (if k <? 0 then (if drops =? 0 then ObservedRetransmission else SuspectedRetransmission)
     else if 0 <? k then OutOfOrder else InOrder).
Proof.
  intros Hn Hs Hk Hc. unfold classify.
  rewrite (proj2 (Z.eqb_neq _ _) Hc), andb_false_r. simpl. rewrite Hn, Hs.
  rewrite seq_before_offset by done. destruct (Z.ltb_spec k 0); [by destruct (drops =? 0)|].
  rewrite seq_after_offset by lia. by destruct (0 <? k).
Qed.

(** ** Contiguous streams. *)

(** The packets of direction [d] cover consecutive sequence space from [start]. *)
Fixpoint contiguous (d : FlowDirection) (start : Z) (ps : list (TcpObservation * Z)) : Prop :=
  match ps with
  | [] => True
  | (p, _) :: ps =>
      direction p = d /\ obs_sequence p = wrap 32 start /\ uint 32 (payload_length p) /\
      contiguous d (start + consumes p) ps
  end.

Definition stream_length (ps : list (TcpObservation * Z)) : Z :=
  fold_right (fun '(p, _) acc => consumes p + acc) 0 ps.

(** A direction that has seen everything up to [e], or nothing yet. *)
Definition caught_up (s : TcpFlowState) (e : Z) : Prop :=
  next_seq s = Some (wrap 32 e) \/ (next_seq s = None /\ last_ack s = None).

Definition benign (c : TcpClassification) : bool :=
  match c with
  | InOrder | DuplicateAck => true
  | _ => false
  end.

Lemma observe_state_contiguous s p drops e :
  caught_up s e -> obs_sequence p = wrap 32 e ->
  benign (observe_state s p drops).2 = true /\
  next_seq (observe_state s p drops).1 = Some (wrap 32 (e + consumes p)).
Proof.
  intros Hs Hp. assert (Hend : segment_end p = wrap 32 (e + consumes p)).
  { unfold segment_end. rewrite Hp. unfold wrap. by rewrite Zplus_mod_idemp_l. }
  unfold observe_state, classify. destruct (has_flag p ACK && _ && _) eqn:Hdup.
  - destruct Hs as [Hs|[_ Hack]].
    2: { rewrite Hack in Hdup. by rewrite bool_decide_eq_false_2, andb_false_r in Hdup. }
    rewrite !andb_true_iff, Z.eqb_eq in Hdup. destruct Hdup as [[_ Hz] _].
    rewrite Hs. simpl. by rewrite Hz, Z.add_0_r.
  - destruct Hs as [Hs|[Hs _]]; rewrite Hs; simpl; [|by rewrite Hend].
    unfold seq_after. rewrite Hp, !seq_before_irrefl. simpl. by rewrite Hend.
Qed.

Lemma observe_all_contiguous d ps a e :
  contiguous d e ps -> caught_up (state_of a d) e ->
  let '(a', rs) := observe_all a ps in
  Forall (fun r => benign (classification r) = true) rs /\
  caught_up (state_of a' d) (e + stream_length ps) /\
  (ps <> [] \/ next_seq (state_of a d) = Some (wrap 32 e) ->
   next_seq (state_of a' d) = Some (wrap 32 (e + stream_length ps))).
Proof.
  revert a e. induction ps as [|[p drops] ps IH]; intros a e Hc Hs; simpl in *.
  { rewrite Z.add_0_r. split_and!; [done..|]. by intros [?|?]. }
  destruct Hc as (<-&Hp&_&Hrest).
  destruct (observe_own_direction a p drops) as [Hown Hcls].
  destruct (observe_state_contiguous _ p drops e Hs Hp) as [Hb Hn].
  destruct (observe a p drops) as [a1 r]; simpl in *. rewrite <- Hown in Hn.
  assert (Hs1 : caught_up (state_of a1 (direction p)) (e + consumes p)) by (by left).
  specialize (IH a1 _ Hrest Hs1). destruct (observe_all a1 ps) as [a2 rs].
  destruct IH as (Hall&Hcu&Hlast). rewrite Z.add_assoc. split_and!; [|done|].
  - constructor; [|done]. by rewrite Hcls.
  - intros _. apply Hlast. by right.
Qed.

Lemma count_class_benign q d ps rs :
  Forall (fun r => benign (classification r) = true) rs ->
  (forall c, benign c = true -> q c = false) -> count_class q d ps rs = 0.
Proof.
  intros Hb Hq. revert ps. induction Hb as [|r rs Hr _ IH]; intros [|[p dr] ps]; simpl; try done.
  rewrite (Hq _ Hr), andb_false_r, IH. done.
Qed.

(** ** Properties *)

(** A loss-free stream is never reported as lossy. For packets of one
    direction that cover consecutive sequence space (wrapping at 2^32), starting
    on a fresh analyzer, every packet is classified in-order or duplicate-ACK,
    no retransmission or reordering is counted, and the expected sequence
    number ends at the end of the stream. *)
Theorem contiguous_stream_clean (d : FlowDirection) (start : Z)
    (ps : list (TcpObservation * Z)) :
  contiguous d start ps -> ps <> [] -> len ps <= umax 64 ->
  let r := observe_all default_analyzer ps in
  Forall (fun x => classification x = InOrder \/ classification x = DuplicateAck) r.2 /\
  next_seq (state_of r.1 d) = Some (wrap 32 (start + stream_length ps)) /\
  retransmission_count (state_of r.1 d) = 0 /\ out_of_order_count (state_of r.1 d) = 0.
Proof.
  intros Hc Hne Hlen; cbv zeta.
  assert (Hdef : state_of default_analyzer d = default_tcp_state) by (by destruct d).
  assert (caught_up (state_of default_analyzer d) start) as Hs by (rewrite Hdef; by right).
  pose proof (observe_all_contiguous d ps default_analyzer start Hc Hs) as H1.
  pose proof (observe_all_counts ps default_analyzer d) as H2. rewrite Hdef in H2.
  simpl in H2. specialize (H2 Hlen Hlen).
  destruct (observe_all default_analyzer ps) as [a rs]; simpl.
  destruct H1 as (Hall&_&Hn), H2 as [-> ->].
  assert (Forall (fun r => classification r = InOrder \/ classification r = DuplicateAck) rs)
    as Hok.
  { eapply Forall_impl; [exact Hall|]. intros r Hr; simpl in *.
    destruct (classification r); simpl in Hr; first [discriminate | by left | by right]. }
  rewrite !(count_class_benign _ d ps rs Hall) by (by intros []).
  split_and!; [done|by apply Hn; left|done..].
Qed.

Definition data_packet (seq length : Z) : TcpObservation :=
  {| direction := Forward; obs_sequence := seq; obs_acknowledgement := 0; obs_window := 1024;
     obs_flags := ACK; payload_length := length |}.

Lemma contiguous_stream_clean_witness :
  next_seq (forward (observe_all default_analyzer
    [(data_packet 4294967290 10, 0); (data_packet 4 100, 0); (data_packet 104 0, 0)]).1)
  = Some 104.
Proof.
  destruct (contiguous_stream_clean Forward 4294967290
    [(data_packet 4294967290 10, 0); (data_packet 4 100, 0); (data_packet 104 0, 0)])
    as (_&H&_); [|done|vm_compute; done|exact H].
  split_and!; simpl; try split; vm_compute; done.
Defined.

(** Once a direction is expecting sequence [e], a segment that carries
    sequence space and starts [k] bytes away, for any [k] within half the
    sequence space and across the 2^32 wrap, is a retransmission exactly when
    [k < 0], in order when [k = 0] and out of order when [k > 0]; it counts as
    an OBSERVED retransmission, with HIGH confidence, only if nothing was
    dropped by the capture. *)
Theorem observe_position (a : TcpFlowAnalyzer) (p : TcpObservation) (drops e k : Z) :
  next_seq (state_of a (direction p)) = Some (wrap 32 e) ->
  obs_sequence p = wrap 32 (e + k) -> - 2 ^ 31 <= k < 2 ^ 31 -> consumes p <> 0 ->
  let r := (observe a p drops).2 in
  (is_retransmission (classification r) = true <-> k < 0) /\
  (classification r = InOrder <-> k = 0) /\
  (classification r = OutOfOrder <-> 0 < k) /\
  (classification r = ObservedRetransmission -> level (confidence r) = High) /\
  (level (confidence r) = High <-> drops = 0).
Proof.
  intros Hn Hs Hk Hc r. subst r.
  pose proof (classify_position (state_of a (direction p)) p drops e k Hn Hs Hk Hc) as Hcls.
  assert (classification (observe a p drops).2 =
          (classify (state_of a (direction p)) p drops).1.1.1) as ->.
  { rewrite (proj2 (observe_own_direction a p drops)). unfold observe_state.
    by destruct (classify _ p drops) as [[[? ?] ?] ?]. }
  rewrite Hcls.
  assert (confidence (observe a p drops).2 =
    if drops =? 0 then {| level := High; reason := "capture_complete" |}
    else {| level := Low; reason := "capture_drop_observed" |}) as ->.
  { unfold observe. by destruct (observe_state _ p drops). }
  destruct (Z.ltb_spec k 0), (Z.eqb_spec drops 0), (Z.ltb_spec 0 k); simpl;
    split_and!; try split; intros; try done; try lia.
Qed.

Lemma observe_position_witness :
  let a := (observe default_analyzer (data_packet 100 50) 0).1 in
  let r := (observe a (data_packet 120 10) 0).2 in
  is_retransmission (classification r) = true <-> (-30) < 0.
Proof.
  intros a r. apply (observe_position a (data_packet 120 10) 0 150 (-30));
    [reflexivity|reflexivity|lia|vm_compute; done].
Defined.

(** The analyzer's counters are exact and per direction: after any run of
    fewer than 2^64 packets, each direction's retransmission and out-of-order
    counts equal the number of its own packets so classified. *)
Theorem tcp_counters_exact (ps : list (TcpObservation * Z)) (d : FlowDirection) :
  len ps <= umax 64 ->
  let r := observe_all default_analyzer ps in
  retransmission_count (state_of r.1 d) = count_class is_retransmission d ps r.2 /\
  out_of_order_count (state_of r.1 d) = count_class is_out_of_order d ps r.2.
Proof.
  intros Hlen. pose proof (observe_all_counts ps default_analyzer d) as H.
  assert (Hdef : state_of default_analyzer d = default_tcp_state) by (by destruct d).
  rewrite Hdef in H. simpl in H. specialize (H Hlen Hlen).
  by destruct (observe_all default_analyzer ps).
Qed.

Lemma tcp_counters_exact_witness :
  retransmission_count (forward (observe_all default_analyzer
    [(data_packet 100 50, 0); (data_packet 100 50, 0)]).1) = 1.
Proof.
  destruct (tcp_counters_exact [(data_packet 100 50, 0); (data_packet 100 50, 0)] Forward)
    as [H _]; [vm_compute; done|]. exact H.
Defined.
