(* ===== verification/Capture.v ===== *)
(** * Capture queue and storage certification

    Model of the capture-queue part of [crates/packet/src/capture.rs]: capture
    modes, the bounded channel between the receive worker and the writer, and
    the storage guard. The [sync_channel] is a FIFO with a capacity; the other
    end of the channel belongs to another thread, whose steps are explicit
    ([ReceiverStep]). [delivered] records what that thread has received and
    [discarded] what was still queued when it dropped its end. *)

From stdpp Require Import base list strings gmap.
From Stdlib Require Import ZArith Lia.
From S2P Require Import Prelude ErrorModel PacketStats.
Open Scope Z_scope.

Inductive CaptureMode :=
| MetadataOnly
| HeaderOnly
| Snaplen (length : Z)
| FullPacket.

Definition retained_length (m : CaptureMode) (visible_length : Z) : Z :=
  match m with
  | MetadataOnly => 0
  | HeaderOnly => Z.min visible_length 128
  | Snaplen length => Z.min visible_length (clamp 64 length)
  | FullPacket => visible_length
  end.

Definition snaplen (m : CaptureMode) : Z :=
  match m with
  | MetadataOnly => 1
  | HeaderOnly => 128
  | Snaplen length => length
  | FullPacket => umax 32
  end.

Inductive CaptureFormat := PcapNg | Pcap.

Record CaptureRecord := {
  rec_timestamp_nanoseconds : Z;
  rec_wire_length : Z;
  rec_queue_id : Z;
  rec_bytes : bytes;
}.

(** The bounded channel shared by [CaptureQueue] and [CaptureReceiver]. *)
Record Channel := {
  buffer : list CaptureRecord;
  capacity : Z;
  receiver_open : bool;
  delivered : list CaptureRecord;
  discarded : list CaptureRecord;
}.

Record CaptureQueue := {
  channel : Channel;
  mode : CaptureMode;
}.

(** [CaptureQueue::bounded]. *)
Definition bounded (cap : Z) (m : CaptureMode) : res CaptureQueue :=
  if cap =? 0 then err InvalidArgument "capture queue capacity must be greater than zero"
  else Ok {| channel := {| buffer := []; capacity := cap; receiver_open := true;
                        delivered := []; discarded := [] |};
             mode := m |}.

Inductive TrySendError := Full | Disconnected.

(** [SyncSender::try_send]. *)
Definition try_send (c : Channel) (r : CaptureRecord) : outcome TrySendError Channel :=
  if negb (receiver_open c) then Err Disconnected
  else if capacity c <=? len (buffer c) then Err Full
  else Ok {| buffer := buffer c ++ [r]; capacity := capacity c;
             receiver_open := true; delivered := delivered c; discarded := discarded c |}.

(** The record [try_capture] copies out of the backend buffer. *)
Definition record_of (m : CaptureMode) (packet : PacketView) : outcome Empty_set CaptureRecord :=
  let? kept := slice (view_bytes packet) 0 (retained_length m (len (view_bytes packet))) in
  Ok {| rec_timestamp_nanoseconds := timestamp_nanoseconds packet;
        rec_wire_length := wire_length packet;
        rec_queue_id := queue_id packet;
        rec_bytes := kept |}.

(** [CaptureQueue::try_capture]. *)
Definition try_capture (q : CaptureQueue) (packet : PacketView) (s : WorkerStats)
    : outcome Empty_set (CaptureQueue * WorkerStats) :=
  let? record := record_of (mode q) packet in
  match try_send (channel q) record with
  | Ok c => Ok ({| channel := c; mode := mode q |}, s)
  | Err Full => Ok (q, incr CaptureDrop s)
  | Err Disconnected => Ok (q, incr ApplicationDrop s)
  | Panic => Panic
  end.

(** Steps of the thread that owns the [CaptureReceiver]: [receive] /
    [try_receive] of a queued record, or dropping the receiver. *)
Inductive ReceiverStep := Receive | CloseReceiver.

(** [CaptureReceiver::try_receive]: the oldest queued record. *)
Definition try_receive (c : Channel) : option CaptureRecord * Channel :=
  match buffer c with
  | r :: rest =>
      (Some r, {| buffer := rest; capacity := capacity c; receiver_open := receiver_open c;
                  delivered := delivered c ++ [r]; discarded := discarded c |})
  | [] => (None, c)
  end.

Definition receiver_step (c : Channel) (st : ReceiverStep) : Channel :=
  match st with
  | Receive => (try_receive c).2
  | CloseReceiver => {| buffer := []; capacity := capacity c; receiver_open := false;
                        delivered := delivered c; discarded := discarded c ++ buffer c |}
  end.

(** ** Storage certification. *)

Record CaptureStorageEvidence := {
  expected_bytes_per_second : Z;
  measured_bytes_per_second : Z;
  required_capacity_bytes : Z;
  available_capacity_bytes : Z;
}.

Record CaptureStorageGuard := {
  rate_sufficient : bool;
  capacity_sufficient : bool;
}.

(** [certify_capture_storage]. *)
Definition certify_capture_storage (e : CaptureStorageEvidence)
    : res CaptureStorageGuard :=
  let guard := {|
    rate_sufficient := expected_bytes_per_second e <=? measured_bytes_per_second e;
    capacity_sufficient := required_capacity_bytes e <=? available_capacity_bytes e |} in
  if rate_sufficient guard && capacity_sufficient guard then Ok guard
  else Err {|
    code := LosslessCaptureNotCertified;
    message := "storage cannot sustain the requested lossless capture";
    retryable := false;
    details := <["expected_bytes_per_second" := dec (expected_bytes_per_second e)]>
      (<["measured_bytes_per_second" := dec (measured_bytes_per_second e)]>
      (<["required_capacity_bytes" := dec (required_capacity_bytes e)]>
      (<["available_capacity_bytes" := dec (available_capacity_bytes e)]> ∅))) |}.

(** ** Queue lemmas. *)

Lemma retained_length_bound m n : 0 <= n -> 0 <= retained_length m n <= n \/
  exists k, m = Snaplen k /\ k < 0.
Proof.
  intros Hn. destruct m as [| |k|]; simpl; try (left; lia).
  destruct (decide (k < 0)); [right; eauto|left].
  pose proof (clamp_uint 64 k ltac:(lia) ltac:(lia)) as [? ?]. lia.
Qed.

(** A mode as the Rust type admits it: the snap length is a [u32]. *)
Definition mode_ok (m : CaptureMode) : Prop :=
  match m with
  | Snaplen k => uint 32 k
  | _ => True
  end.

Lemma holds_record_of m packet :
  mode_ok m ->
  holds (record_of m packet) (fun r =>
    rec_bytes r = take (Z.to_nat (retained_length m (len (view_bytes packet)))) (view_bytes packet)
    /\ rec_timestamp_nanoseconds r = timestamp_nanoseconds packet
    /\ rec_wire_length r = wire_length packet /\ rec_queue_id r = queue_id packet).
Proof.
  intros Hm. unfold record_of.
  pose proof (len_nonneg (view_bytes packet)) as Hl.
  destruct (retained_length_bound m (len (view_bytes packet)) Hl) as [Hb|(k&->&Hk)];
    [|destruct Hm; lia].
  hstep. simpl. apply get_range_Some in H as (_&_&->).
  rewrite Z.sub_0_r. done.
Qed.

(** Channel invariant: never above capacity; records are discarded only when
    the receiver goes, after which the buffer stays empty. *)
Definition channel_inv (c : Channel) : Prop :=
  1 <= capacity c /\ len (buffer c) <= capacity c /\
  (if receiver_open c then discarded c = [] else buffer c = []).

Lemma receiver_step_inv c st : channel_inv c -> channel_inv (receiver_step c st).
Proof.
  intros (H1&H2&H3). unfold channel_inv, len in *.
  destruct st; simpl; [|split_and!; [done|lia|done]].
  unfold try_receive. destruct (buffer c) as [|r rest] eqn:Hb; simpl in *; rewrite ?Hb; simpl.
  - done.
  - destruct (receiver_open c); [split_and!; [done|lia|done]|done].
Qed.

(** Records accepted so far, oldest first. *)
Definition accepted (c : Channel) : list CaptureRecord :=
  delivered c ++ discarded c ++ buffer c.

(** The writer thread never changes what was accepted. *)
Lemma receiver_step_accepted c st :
  channel_inv c -> accepted (receiver_step c st) = accepted c.
Proof.
  intros (_&_&H3). unfold accepted. destruct st; simpl.
  - unfold try_receive. destruct (buffer c) as [|r rest] eqn:Hb; simpl; [by rewrite Hb|].
    destruct (receiver_open c); [|done]. rewrite H3. by rewrite <- app_assoc.
  - by rewrite app_nil_r.
Qed.

Lemma receiver_steps_inv steps c :
  channel_inv c ->
  channel_inv (fold_left receiver_step steps c) /\
  accepted (fold_left receiver_step steps c) = accepted c.
Proof.
  revert c. induction steps as [|st steps IH]; intros c Hc; simpl; [done|].
  destruct (IH (receiver_step c st)) as [? ->]; [by apply receiver_step_inv|].
  split; [done|]. by apply receiver_step_accepted.
Qed.

Lemma try_send_spec c r :
  channel_inv c ->
  match try_send c r with
  | Ok c' => channel_inv c' /\ accepted c' = accepted c ++ [r] /\ receiver_open c = true
  | Err Full => receiver_open c = true /\ len (buffer c) = capacity c
  | Err Disconnected => receiver_open c = false
  | Panic => False
  end.
Proof.
  intros (H1&H2&H3). unfold try_send. destruct (receiver_open c) eqn:Ho; simpl; [|done].
  destruct (Z.leb_spec (capacity c) (len (buffer c))); [split; [done|lia]|].
  unfold channel_inv, accepted, len in *; simpl. rewrite length_app, !app_assoc. simpl.
  split_and!; [done|lia|done|done|done].
Qed.
