(* ===== verification/Worker.v ===== *)
(** * Run-to-completion packet worker

    Model of [crates/packet/src/worker.rs]. A worker owns its flow table,
    counters and filter; the capture channel is shared with the writer thread,
    whose steps are given by an explicit schedule. The backend is any
    [BurstSource]. The stop flag is written by another thread: it is the
    sequence of values read at the burst boundaries. *)

From stdpp Require Import base list strings gmap.
From Stdlib Require Import ZArith Lia.
From S2P Require Import Prelude ErrorModel PacketParser PacketStats Flow Tcp Capture.
Open Scope Z_scope.

Inductive AnalysisCoverage :=
| FullCoverage
| Sampled (one_in : Z).

Definition is_sampled (c : AnalysisCoverage) : bool :=
  match c with
  | Sampled _ => true
  | FullCoverage => false
  end.

Record PacketWorkerConfiguration := {
  config_maximum_flows : Z;
  flow_idle_timeout_nanoseconds : Z;
  analysis_coverage : AnalysisCoverage;
}.

(** [PacketWorkerConfiguration::validate]. *)
Definition validate_configuration (c : PacketWorkerConfiguration) : res unit :=
  if (config_maximum_flows c =? 0) || (flow_idle_timeout_nanoseconds c =? 0) then
    err InvalidArgument "packet worker flow bounds must be greater than zero"
  else
    match analysis_coverage c with
    | Sampled one_in =>
        if one_in =? 0
        then err InvalidArgument "packet analysis sampling ratio must be greater than zero"
        else Ok tt
    | FullCoverage => Ok tt
    end.

(** [trait BurstSource]: a burst hands packets to the consumer in order and
    then returns a [Result]: how many it handed over, or an error. A backend
    promises to return, and to keep its own invariant. *)
Class BurstSource (S : Type) := {
  receive_burst : S -> S * list PacketView * res Z;
  is_exhausted : S -> bool;
  source_inv : S -> Prop;
  receive_burst_inv : forall s, source_inv s -> source_inv (receive_burst s).1.1;
  receive_burst_returns : forall s, source_inv s -> (receive_burst s).2 <> Panic;
}.

Record WorkerRunResult := {
  bursts : Z;
  run_statistics : WorkerStats;
  run_coverage : AnalysisCoverage;
}.

Record PacketWorker := {
  configuration : PacketWorkerConfiguration;
  worker_flows : FlowTable TcpFlowAnalyzer;
  worker_capture : option CaptureQueue;
  worker_filter : option PacketFilter;
  statistics : WorkerStats;
  observed_packets : Z;
}.

(** [PacketWorker::new_with_filter] ([new] is the case of no filter);
    [reserved] as in [new_table]. *)
Definition new_with_filter (reserved : bool) (c : PacketWorkerConfiguration)
    (capture : option CaptureQueue) (f : option PacketFilter) : res PacketWorker :=
  let? _ := validate_configuration c in
  let? table := new_table reserved (config_maximum_flows c) (flow_idle_timeout_nanoseconds c) in
  Ok {| configuration := c; worker_flows := table; worker_capture := capture;
        worker_filter := f; statistics := default_worker_stats; observed_packets := 0 |}.

Section WorkerOps.
Context {HO : HashOrder FlowKey (FlowEntry TcpFlowAnalyzer)}.

Definition with_statistics (w : PacketWorker) (s : WorkerStats) : PacketWorker :=
  {| configuration := configuration w; worker_flows := worker_flows w;
     worker_capture := worker_capture w; worker_filter := worker_filter w;
     statistics := s; observed_packets := observed_packets w |}.
Definition with_flows (w : PacketWorker) (t : FlowTable TcpFlowAnalyzer) : PacketWorker :=
  {| configuration := configuration w; worker_flows := t;
     worker_capture := worker_capture w; worker_filter := worker_filter w;
     statistics := statistics w; observed_packets := observed_packets w |}.
Definition with_capture (w : PacketWorker) (q : option CaptureQueue) : PacketWorker :=
  {| configuration := configuration w; worker_flows := worker_flows w;
     worker_capture := q; worker_filter := worker_filter w;
     statistics := statistics w; observed_packets := observed_packets w |}.
Definition with_observed (w : PacketWorker) (n : Z) : PacketWorker :=
  {| configuration := configuration w; worker_flows := worker_flows w;
     worker_capture := worker_capture w; worker_filter := worker_filter w;
     statistics := statistics w; observed_packets := n |}.
Definition count (c : Counter) (w : PacketWorker) : PacketWorker :=
  with_statistics w (incr c (statistics w)).

Abbreviation step A := (outcome Empty_set A).

(** [should_analyze]; the subtraction and the remainder can panic. *)
Definition should_analyze (w : PacketWorker) : step bool :=
  match analysis_coverage (configuration w) with
  | FullCoverage => Ok true
  | Sampled one_in =>
      match checked_sub (observed_packets w) 1 with
      | None => Panic
      | Some n => if one_in =? 0 then Panic else Ok (n mod one_in =? 0)
      end
  end.

Definition observation_of (d : FlowDirection) (s : TcpSegment) : TcpObservation :=
  {| direction := d; obs_sequence := sequence s; obs_acknowledgement := acknowledgement s;
     obs_window := window s; obs_flags := flags s;
     payload_length := clamp 32 (len (tcp_payload s)) |}.

(** The TCP branch of [process_packet]. *)
Definition analyze_tcp (w : PacketWorker) (now : Z) (parsed_ip : option IpPacket)
    (segment : TcpSegment) : PacketWorker :=
  let w := count TcpPackets w in
  match parsed_ip with
  | None => count ParseErrors w
  | Some p =>
      let '(key, d) := canonical {|
        source_ip := ip_source p; destination_ip := ip_destination p;
        source_port := tcp_source_port segment; destination_port := tcp_destination_port segment;
        tuple_protocol := ip_protocol p |} in
      let w := with_flows w (get_or_insert_with (worker_flows w) key now default_analyzer).1 in
      let capture_drops := capture (drops (statistics w)) in
      match value_mut (worker_flows w) key with
      | None => count AnalyzerDrop w
      | Some (flow, put) =>
          let '(flow', analysis) := observe flow (observation_of d segment) capture_drops in
          let w := with_flows w (put flow') in
          let w := if is_retransmission (classification analysis)
                   then count Retransmissions w else w in
          with_statistics w
            (set_flows (clamp 64 (table_len (worker_flows w))) (statistics w))
      end
  end.

(** Counting by IP version and transport, after a successful parse. *)
Definition count_ip (w : PacketWorker) (parsed_ip : option IpPacket) : PacketWorker :=
  match parsed_ip with
  | Some p =>
      match ip_source p with
      | V4 _ => count Ipv4Packets w
      | V6 _ => count Ipv6Packets w
      end
  | None => w
  end.

Definition analyze_packet (w : PacketWorker) (now : Z) (parsed : ParsedPacket) : PacketWorker :=
  let w := count_ip w (ip parsed) in
  match transport parsed with
  | Some (Tcp segment) => analyze_tcp w now (ip parsed) segment
  | Some (Udp _) => count UdpPackets w
  | Some (Icmp _) | Some (Icmpv6 _) => count IcmpPackets w
  | Some (Other _ _) | Some Fragment => count OtherPackets w
  | None => w
  end.

(** [filter.is_some_and(|filter| !filter.matches(packet))]. *)
Definition filtered_out (w : PacketWorker) (packet : PacketView) : step bool :=
  match worker_filter w with
  | Some f => let? m := matches f packet in Ok (negb m)
  | None => Ok false
  end.

(** The capture branch. *)
Definition capture_packet (w : PacketWorker) (packet : PacketView) : step PacketWorker :=
  match worker_capture w with
  | Some q =>
      let? '(q', s) := try_capture q packet (statistics w) in
      Ok (with_statistics (with_capture w (Some q')) s)
  | None => Ok w
  end.

(** [PacketWorker::process_packet]. *)
Definition process_packet (w : PacketWorker) (packet : PacketView) : step PacketWorker :=
  let w := with_statistics w (record_packet (statistics w) (wire_length packet)) in
  let? skip := filtered_out w packet in
  if skip then Ok w
  else
    let? w := capture_packet w packet in
    let w := with_observed w (sat64 (observed_packets w) 1) in
    let? analyze := should_analyze w in
    if negb analyze then Ok (count SampledOutPackets w)
    else
      match parse_packet (view_bytes packet) with
      | Panic => Panic
      | Err _ => Ok (count ParseErrors w)
      | Ok parsed => Ok (analyze_packet w (timestamp_nanoseconds packet) parsed)
      end.

(** The writer thread acts on the channel between two packets. *)
Definition receiver_act (w : PacketWorker) (steps : list ReceiverStep) : PacketWorker :=
  match worker_capture w with
  | Some q => with_capture w
      (Some {| channel := fold_left receiver_step steps (channel q); mode := mode q |})
  | None => w
  end.

(** The packets of a burst, interleaved with the writer thread: [schedule n]
    is what that thread does before the [n]-th packet of the run. *)
Fixpoint process_burst (schedule : nat -> list ReceiverStep) (w : PacketWorker) (n : nat)
    (packets : list PacketView) : step (PacketWorker * nat) :=
  match packets with
  | [] => Ok (w, n)
  | p :: packets =>
      let? w := process_packet (receiver_act w (schedule n)) p in
      process_burst schedule w (S n) packets
  end.

Context {S : Type} {BS : BurstSource S}.

(** How a run ends: with the worker it leaves behind, the source, and either
    the summary or the backend's error. *)
Definition run_end : Type := PacketWorker * S * outcome NetToolError WorkerRunResult.

Definition finish_run (w : PacketWorker) (n : Z) : WorkerRunResult :=
  {| bursts := n; run_statistics := statistics w;
     run_coverage := analysis_coverage (configuration w) |}.

(** The [while bursts < maximum_bursts && !stop.is_stopped()] loop;
    [remaining] is [maximum_bursts - bursts]. *)
Fixpoint run_loop (schedule : nat -> list ReceiverStep) (stop_at : Z -> bool)
    (remaining : nat) (w : PacketWorker) (n : nat) (src : S) (done : Z) : step run_end :=
  match remaining with
  | O => Ok (w, src, Ok (finish_run w done))
  | Datatypes.S remaining =>
      if stop_at done then Ok (w, src, Ok (finish_run w done))
      else
        let '(src, packets, result) := receive_burst src in
        let? '(w, n) := process_burst schedule w n packets in
        match result with
        | Err e => Ok (w, src, Err e)
        | Panic => Panic
        | Ok received =>
            let done := sat64 done 1 in
            if (received =? 0) && is_exhausted src
            then Ok (w, src, Ok (finish_run w done))
            else run_loop schedule stop_at remaining w n src done
        end
  end.

(** [PacketWorker::run_bursts]. *)
Definition run_bursts (schedule : nat -> list ReceiverStep) (stop_at : Z -> bool)
    (w : PacketWorker) (src : S) (maximum_bursts : Z) : step run_end :=
  run_loop schedule stop_at (Z.to_nat maximum_bursts) w 0 src 0.

End WorkerOps.

(** ** Worker invariant. *)

Section WorkerLemmas.
Context {HO : HashOrder FlowKey (FlowEntry TcpFlowAnalyzer)}.
Implicit Types w : PacketWorker.

Definition coverage_ok (c : AnalysisCoverage) : Prop :=
  match c with
  | FullCoverage => True
  | Sampled n => 1 <= n
  end.

Definition queue_ok (q : option CaptureQueue) : Prop :=
  match q with
  | Some q => channel_inv (channel q) /\ mode_ok (mode q)
  | None => True
  end.

(** Packets kept by 1-in-[n] sampling among the first [o]. *)
Definition analyzed_of (c : AnalysisCoverage) (o : Z) : Z :=
  match c with
  | FullCoverage => o
  | Sampled n => (o + n - 1) / n
  end.

(** The bookkeeping identities between the counters, where [o] packets have
    passed the filter. *)
Record ledger (cov : AnalysisCoverage) (maximum : Z) (s : WorkerStats) (o : Z) : Prop := {
  led_rx : 0 <= o <= rx_packets s;
  led_nonneg : 0 <= tcp_packets s /\ 0 <= udp_packets s /\ 0 <= icmp_packets s /\
    0 <= other_packets s /\ 0 <= ipv4_packets s /\ 0 <= ipv6_packets s /\
    0 <= parse_errors s /\ 0 <= retransmissions s;
  led_layers : ipv4_packets s + ipv6_packets s =
    tcp_packets s + udp_packets s + icmp_packets s + other_packets s;
  led_sampled : sampled_out_packets s = o - analyzed_of cov o;
  led_parsed : parse_errors s + ipv4_packets s + ipv6_packets s <= analyzed_of cov o;
  led_retransmissions : retransmissions s <= tcp_packets s;
  led_analyzer : analyzer (drops s) = 0;
  led_flows : 0 <= flows s <= maximum;
}.

(** With a capture queue, each of [k] packets was queued or counted as dropped. *)
Definition capture_ledger w (k : Z) : Prop :=
  0 <= capture (drops (statistics w)) /\ 0 <= application (drops (statistics w)) /\
  match worker_capture w with
  | Some q =>
      len (accepted (channel q)) + capture (drops (statistics w)) +
        application (drops (statistics w)) = k
  | None => True
  end.

Record worker_inv w : Prop := {
  inv_table : table_inv (worker_flows w);
  inv_maximum : maximum_flows (worker_flows w) = config_maximum_flows (configuration w);
  inv_coverage : coverage_ok (analysis_coverage (configuration w));
  inv_queue : queue_ok (worker_capture w);
  inv_ledger : ledger (analysis_coverage (configuration w))
    (config_maximum_flows (configuration w)) (statistics w) (observed_packets w);
  inv_capture : capture_ledger w (observed_packets w);
}.

Lemma sat64_succ x : x < umax 64 -> sat64 x 1 = x + 1.
Proof. intros. unfold sat64. apply sat_add_exact. lia. Qed.

Lemma analyzed_of_bounds c o : coverage_ok c -> 0 <= o -> 0 <= analyzed_of c o <= o.
Proof.
  destruct c as [|n]; simpl; intros Hn Ho; [lia|]. split; [apply Z.div_pos; lia|].
  destruct (decide (o = 0)) as [->|]; [rewrite Z.div_small; lia|].
  apply Z.div_le_upper_bound; nia.
Qed.

Lemma analyzed_of_succ n o :
  1 <= n -> 0 <= o ->
  analyzed_of (Sampled n) (o + 1) =
    if o mod n =? 0 then analyzed_of (Sampled n) o + 1 else analyzed_of (Sampled n) o.
Proof.
  intros Hn Ho. simpl.
  replace (o + 1 + n - 1) with (o + 1 * n) by lia. rewrite Z.div_add by lia.
  pose proof (Z.div_mod o n ltac:(lia)). pose proof (Z.mod_pos_bound o n ltac:(lia)).
  replace (o + n - 1) with ((o mod n + n - 1) + (o / n) * n) by lia. rewrite Z.div_add by lia.
  destruct (Z.eqb_spec (o mod n) 0) as [->|Hne].
  - rewrite (Z.div_small (0 + n - 1)) by lia. lia.
  - replace (o mod n + n - 1) with ((o mod n - 1) + 1 * n) by lia. rewrite Z.div_add by lia.
    rewrite (Z.div_small (o mod n - 1)) by lia. lia.
Qed.

Lemma should_analyze_spec w :
  coverage_ok (analysis_coverage (configuration w)) -> 1 <= observed_packets w ->
  exists b, should_analyze w = Ok b /\
    analyzed_of (analysis_coverage (configuration w)) (observed_packets w) =
    analyzed_of (analysis_coverage (configuration w)) (observed_packets w - 1) + Z.b2z b.
Proof.
  unfold should_analyze. destruct (analysis_coverage (configuration w)) as [|n]; intros Hn Ho.
  - exists true. simpl. split; [done|lia].
  - unfold checked_sub. rewrite (proj2 (Z.leb_le _ _)) by done.
    rewrite (proj2 (Z.eqb_neq n 0)) by (simpl in Hn; lia). eexists. split; [done|].
    pose proof (analyzed_of_succ n (observed_packets w - 1) Hn ltac:(lia)) as H.
    replace (observed_packets w - 1 + 1) with (observed_packets w) in H by lia.
    rewrite H. destruct (_ =? 0); simpl; lia.
Qed.

(** ** Preservation, branch by branch. *)

(** The counters after analysing one parsed packet. *)
Definition analyzed_stats (s : WorkerStats) (parsed : ParsedPacket) (retransmitted : bool) (n : Z)
    : WorkerStats :=
  let s := match ip parsed with
           | Some p => match ip_source p with
                       | V4 _ => incr Ipv4Packets s
                       | V6 _ => incr Ipv6Packets s
                       end
           | None => s
           end in
  match transport parsed with
  | Some (Tcp _) =>
      let s := incr TcpPackets s in
      set_flows n (if retransmitted then incr Retransmissions s else s)
  | Some (Udp _) => incr UdpPackets s
  | Some (Icmp _) | Some (Icmpv6 _) => incr IcmpPackets s
  | Some (Other _ _) | Some Fragment => incr OtherPackets s
  | None => s
  end.

(** What the analysis leaves alone. *)
Definition same_context w w' : Prop :=
  configuration w' = configuration w /\ worker_capture w' = worker_capture w /\
  worker_filter w' = worker_filter w /\ observed_packets w' = observed_packets w /\
  table_inv (worker_flows w') /\ maximum_flows (worker_flows w') = maximum_flows (worker_flows w).

Lemma get_or_insert_maximum (t : FlowTable TcpFlowAnalyzer) key now create :
  maximum_flows (get_or_insert_with t key now create).1 = maximum_flows t.
Proof. apply (flow_step_maximum t (OpInsert key now create)). Qed.

(** After the insertion the entry is there, so the analyzer-drop branch of the
    TCP case is unreachable. *)
Lemma value_mut_after_insert (t : FlowTable TcpFlowAnalyzer) key now create :
  exists flow put, value_mut (get_or_insert_with t key now create).1 key = Some (flow, put).
Proof.
  unfold get_or_insert_with. repeat case_match; simplify_eq/=;
    unfold value_mut; simpl; rewrite lookup_insert_eq; eauto.
Qed.

Lemma value_mut_write_inv (t : FlowTable TcpFlowAnalyzer) key flow put v :
  table_inv t -> value_mut t key = Some (flow, put) ->
  table_inv (put v) /\ maximum_flows (put v) = maximum_flows t.
Proof.
  intros Ht Hv. pose proof (flow_step_inv t (OpWrite key v) Ht) as H1.
  pose proof (flow_step_maximum t (OpWrite key v)) as H2.
  simpl in H1, H2. by rewrite Hv in H1, H2.
Qed.

Lemma analyze_tcp_spec w now p segment :
  table_inv (worker_flows w) ->
  let w' := analyze_tcp w now (Some p) segment in
  same_context w w' /\
  exists r n, 0 <= n <= maximum_flows (worker_flows w) /\
    statistics w' = set_flows n (if r : bool then incr Retransmissions (incr TcpPackets (statistics w))
                                 else incr TcpPackets (statistics w)).
Proof.
  intros Ht w'. subst w'. unfold analyze_tcp.
  destruct (canonical _) as [key d]. simpl.
  destruct (value_mut_after_insert (worker_flows w) key now default_analyzer) as (flow&put&Hv).
  rewrite Hv. destruct (observe flow _ _) as [flow' analysis].
  pose proof (get_or_insert_inv (worker_flows w) key now default_analyzer Ht) as Ht1.
  pose proof (get_or_insert_maximum (worker_flows w) key now default_analyzer) as Hm1.
  destruct (value_mut_write_inv _ key flow put flow' Ht1 Hv) as [Ht2 Hm2].
  assert (Hb : 0 <= clamp 64 (table_len (put flow')) <= maximum_flows (worker_flows w)).
  { rewrite <- Hm1, <- Hm2. destruct Ht2 as ([_ Hmax]&_&Hlen).
    unfold MAX_FLOW_TABLE_ENTRIES in Hmax. unfold table_len in *.
    rewrite clamp_id; [lia|]. unfold umax. lia. }
  destruct (is_retransmission _); simpl; (split; [unfold same_context; simpl; split_and!; first [done|congruence]|]).
  - by exists true, (clamp 64 (table_len (put flow'))).
  - by exists false, (clamp 64 (table_len (put flow'))).
Qed.

Lemma analyze_packet_spec w now parsed :
  table_inv (worker_flows w) -> (is_Some (ip parsed) <-> is_Some (transport parsed)) ->
  let w' := analyze_packet w now parsed in
  same_context w w' /\
  exists r n, 0 <= n <= maximum_flows (worker_flows w) /\
    statistics w' = analyzed_stats (statistics w) parsed r n.
Proof.
  intros Ht Hl w'. subst w'. unfold analyze_packet, analyzed_stats.
  assert (Hmax : 0 <= maximum_flows (worker_flows w)) by (destruct Ht as ([? ?]&_); lia).
  assert (Hsame : same_context w (count_ip w (ip parsed))).
  { unfold same_context, count_ip. by destruct (ip parsed) as [i|]; [destruct (ip_source i)|]. }
  assert (Hstat : statistics (count_ip w (ip parsed)) =
    match ip parsed with
    | Some p => match ip_source p with
                | V4 _ => incr Ipv4Packets (statistics w)
                | V6 _ => incr Ipv6Packets (statistics w)
                end
    | None => statistics w
    end).
  { unfold count_ip. by destruct (ip parsed) as [i|]; [destruct (ip_source i)|]. }
  destruct Hsame as (?&?&?&?&?&Hm).
  destruct (transport parsed) as [[s|d|m|m| |pr o]|] eqn:Htr;
    [|split; [unfold same_context; simpl; split_and!; first [done|congruence]|];
      exists false, 0; split; [lia|]; simpl; by rewrite Hstat..].
  destruct (proj2 Hl) as [i Hi]; [eauto|].
  destruct (analyze_tcp_spec (count_ip w (ip parsed)) now i s) as [Hctx (r&n&Hn&Hs)]; [congruence|].
  rewrite Hi in *. split.
  - unfold same_context in *. intuition congruence.
  - exists r, n. split; [lia|]. rewrite Hs, Hstat. by destruct r.
Qed.

(** The ledger when one more packet has passed the filter. *)
Section LedgerSteps.
Context (cov : AnalysisCoverage) (maximum : Z) (s : WorkerStats) (o : Z).
Context (Hcov : coverage_ok cov) (Hled : ledger cov maximum s o).
Context (Hroom : o < rx_packets s <= umax 64).

Lemma ledger_sampled_out :
  analyzed_of cov (o + 1) = analyzed_of cov o ->
  ledger cov maximum (incr SampledOutPackets s) (o + 1).
Proof.
  intros Ha. destruct Hled. pose proof (analyzed_of_bounds cov o Hcov ltac:(lia)).
  constructor; simpl; rewrite ?sat64_succ by lia; lia.
Qed.

Lemma ledger_parse_error :
  analyzed_of cov (o + 1) = analyzed_of cov o + 1 ->
  ledger cov maximum (incr ParseErrors s) (o + 1).
Proof.
  intros Ha. destruct Hled. pose proof (analyzed_of_bounds cov o Hcov ltac:(lia)).
  constructor; simpl; rewrite ?sat64_succ by lia; lia.
Qed.

Lemma ledger_analyzed parsed r n :
  analyzed_of cov (o + 1) = analyzed_of cov o + 1 ->
  (is_Some (ip parsed) <-> is_Some (transport parsed)) -> 0 <= n <= maximum ->
  ledger cov maximum (analyzed_stats s parsed r n) (o + 1).
Proof.
  intros Ha Hl Hn. destruct Hled. pose proof (analyzed_of_bounds cov o Hcov ltac:(lia)).
  unfold analyzed_stats. destruct (ip parsed) as [i|].
  - destruct Hl as [[t ->] _]; [eauto|].
    destruct (ip_source i), t, r; constructor; simpl; rewrite ?sat64_succ by lia; lia.
  - destruct (transport parsed); [destruct Hl as [_ [? ?]]; [eauto|done]|].
    constructor; simpl; lia.
Qed.
End LedgerSteps.

Lemma ledger_drop cov maximum s o c :
  ledger cov maximum s o ->
  c = CaptureDrop \/ c = ApplicationDrop -> ledger cov maximum (incr c s) o.
Proof. intros Hled [-> | ->]; destruct Hled; constructor; simpl; lia. Qed.

Lemma ledger_record cov maximum s o wire :
  rx_packets s < umax 64 ->
  ledger cov maximum s o -> ledger cov maximum (record_packet s wire) o.
Proof.
  intros Hx [? ? ? ? ? ? ? ?]. constructor; simpl; rewrite ?sat64_succ by lia; lia.
Qed.

(** What one capture does to a worker. *)
Definition capture_effect w (packet : PacketView) w' : Prop :=
  configuration w' = configuration w /\ worker_flows w' = worker_flows w /\
  worker_filter w' = worker_filter w /\ observed_packets w' = observed_packets w /\
  queue_ok (worker_capture w') /\
  (statistics w' = statistics w \/
   exists c, (c = CaptureDrop \/ c = ApplicationDrop) /\ statistics w' = incr c (statistics w)).

Lemma capture_packet_spec w packet k :
  queue_ok (worker_capture w) -> capture_ledger w k -> k < umax 64 ->
  holds (capture_packet w packet) (fun w' => capture_effect w packet w' /\ capture_ledger w' (k + 1)).
Proof.
  intros Hq Hl Hk. unfold capture_packet, capture_ledger, capture_effect in *.
  destruct (worker_capture w) as [q|] eqn:Hw; simpl in Hq;
    [|simpl; rewrite Hw; naive_solver].
  destruct Hq as [Hc Hm], Hl as (Hcap&Happ&Hsum). unfold try_capture.
  pose proof (len_nonneg (accepted (channel q))).
  pose proof (holds_record_of (mode q) packet Hm) as Hr.
  destruct (record_of (mode q) packet) as [r|[]|]; simpl in *; [|done].
  pose proof (try_send_spec (channel q) r Hc) as Hs.
  destruct (try_send (channel q) r) as [c'|[]|]; simpl; [| | |done].
  - destruct Hs as (Hc'&Ha&_). rewrite Ha. unfold len in *. rewrite length_app. simpl.
    split; [naive_solver|lia].
  - rewrite sat64_succ by lia. split; [|lia]. split_and!; eauto.
  - rewrite sat64_succ by lia. split; [|lia]. split_and!; eauto.
Qed.

Lemma filtered_out_total w packet : exists b, filtered_out w packet = Ok b.
Proof.
  unfold filtered_out. destruct (worker_filter w) as [f|]; [|eauto].
  unfold matches. pose proof (holds_parse_packet (view_bytes packet)) as H.
  destruct (parse_packet _); simpl in *; [|eauto|done].
  repeat case_match; simpl; eauto.
Qed.

(** The invariant of a worker whose counters alone still have to be settled:
    the packet is recorded and queued, and [observed_packets] includes it. *)
Lemma worker_inv_settled w w' :
  table_inv (worker_flows w) ->
  maximum_flows (worker_flows w) = config_maximum_flows (configuration w) ->
  coverage_ok (analysis_coverage (configuration w)) -> queue_ok (worker_capture w) ->
  capture_ledger w (observed_packets w) ->
  same_context w w' -> drops (statistics w') = drops (statistics w) ->
  ledger (analysis_coverage (configuration w)) (config_maximum_flows (configuration w))
    (statistics w') (observed_packets w) ->
  worker_inv w'.
Proof.
  intros Ht Hm Hc Hq Hcap (Hc3&Hq3&_&Ho3&Ht3&Hm3) Hd3 Hl3.
  constructor; rewrite ?Ho3, ?Hc3, ?Hm3, ?Hq3; try done.
  unfold capture_ledger in *. by rewrite Hq3, Hd3.
Qed.

Lemma incr_drops c s : (counter_index c < 9)%nat -> drops (incr c s) = drops s.
Proof.
  intros Hc. unfold incr. cbn [drops].
  rewrite !(proj2 (Nat.eqb_neq (counter_index c) _)) by (simpl; lia). by destruct (drops s).
Qed.

Lemma analyzed_stats_kept s parsed r n :
  rx_packets (analyzed_stats s parsed r n) = rx_packets s /\
  drops (analyzed_stats s parsed r n) = drops s.
Proof.
  unfold analyzed_stats. split; [by repeat case_match|].
  repeat case_match; unfold set_flows; cbn [drops]; by rewrite ?incr_drops by (simpl; lia).
Qed.

(** The part of [process_packet] after the capture: sampling and analysis. *)
Lemma analysis_inv w packet o :
  observed_packets w = o + 1 -> 0 <= o < rx_packets (statistics w) ->
  rx_packets (statistics w) <= umax 64 ->
  table_inv (worker_flows w) ->
  maximum_flows (worker_flows w) = config_maximum_flows (configuration w) ->
  coverage_ok (analysis_coverage (configuration w)) -> queue_ok (worker_capture w) ->
  capture_ledger w (observed_packets w) ->
  ledger (analysis_coverage (configuration w)) (config_maximum_flows (configuration w))
    (statistics w) o ->
  holds (let? analyze := should_analyze w in
    if negb analyze then Ok (count SampledOutPackets w)
    else
      match parse_packet (view_bytes packet) with
      | Panic => Panic
      | Err _ => Ok (count ParseErrors w)
      | Ok parsed => Ok (analyze_packet w (timestamp_nanoseconds packet) parsed)
      end)
    (fun w' => worker_inv w' /\ rx_packets (statistics w') = rx_packets (statistics w) /\
       configuration w' = configuration w).
Proof.
  intros Ho Hrx Hmaxrx Ht Hm Hc Hq Hcap Hl.
  destruct (should_analyze_spec w Hc) as (b&Hb&Ha); [lia|]. rewrite Hb. simpl obind.
  replace (observed_packets w - 1) with o in Ha by lia. rewrite Ho in Ha.
  destruct b; simpl in Ha |- *.
  2: { split; [|done]. eapply worker_inv_settled; try done; [apply incr_drops; simpl; lia|].
       rewrite Ho. apply ledger_sampled_out; try done; lia. }
  pose proof (holds_parse_packet (view_bytes packet)) as Hsafe.
  destruct (parse_packet (view_bytes packet)) as [parsed|e|] eqn:Hp; [| |done]; simpl.
  - pose proof (parse_packet_layers _ _ Hp) as Hlay.
    destruct (analyze_packet_spec w (timestamp_nanoseconds packet) parsed Ht Hlay)
      as [Hctx (r&n&Hn&Hs)].
    destruct (analyzed_stats_kept (statistics w) parsed r n) as [Hr Hd].
    split; [|split; [congruence|by apply Hctx]].
    eapply worker_inv_settled; try done; [congruence|].
    rewrite Ho, Hs. apply ledger_analyzed; try done; lia.
  - split; [|done]. eapply worker_inv_settled; try done; [apply incr_drops; simpl; lia|].
    rewrite Ho. apply ledger_parse_error; try done; lia.
Qed.

(** One packet: no panic, and the invariant is kept. *)
Lemma process_packet_inv w packet :
  worker_inv w -> rx_packets (statistics w) < umax 64 ->
  holds (process_packet w packet) (fun w' =>
    worker_inv w' /\ rx_packets (statistics w') = rx_packets (statistics w) + 1 /\
    configuration w' = configuration w).
Proof.
  intros [Htab Hmax Hcov Hq Hled Hcap] Hrx. unfold process_packet.
  set (w0 := with_statistics w _).
  assert (Hrx0 : rx_packets (statistics w0) = rx_packets (statistics w) + 1)
    by (simpl; by apply sat64_succ).
  assert (Hled0 := ledger_record _ _ _ _ (wire_length packet) Hrx Hled).
  destruct (filtered_out_total w0 packet) as [skip ->]. simpl.
  destruct skip; [simpl; split; [by constructor|done]|].
  assert (Ho : 0 <= observed_packets w <= rx_packets (statistics w)) by apply Hled.
  eapply holds_bind; [apply (capture_packet_spec w0 packet (observed_packets w)); try done; lia|].
  intros w1 ((Hconf&Hflow&_&Hobs&Hq1&Hst)&Hcap1). simpl in Hconf, Hflow, Hobs.
  assert (Hled1 : ledger (analysis_coverage (configuration w))
    (config_maximum_flows (configuration w)) (statistics w1) (observed_packets w)).
  { destruct Hst as [->|(c&Hc&->)]; [done|]. by apply ledger_drop. }
  assert (Hrx1 : rx_packets (statistics w1) = rx_packets (statistics w) + 1).
  { destruct Hst as [->|(c&Hc&->)]; exact Hrx0. }
  set (w2 := with_observed w1 _).
  assert (Hobs2 : observed_packets w2 = observed_packets w + 1)
    by (simpl; rewrite Hobs; apply sat64_succ; lia).
  rewrite <- Hrx1, <- Hconf. apply (analysis_inv w2 packet (observed_packets w));
    rewrite ?Hobs2; simpl; rewrite ?Hconf, ?Hflow; try done; lia.
Qed.

Lemma receiver_act_inv w steps :
  worker_inv w ->
  worker_inv (receiver_act w steps) /\ statistics (receiver_act w steps) = statistics w /\
  configuration (receiver_act w steps) = configuration w.
Proof.
  intros [Htab Hmax Hcov Hq Hled Hcap]. unfold receiver_act.
  destruct (worker_capture w) as [q|] eqn:Hw; [|split; [by constructor; rewrite ?Hw|done]].
  destruct Hq as [Hc Hm]. destruct (receiver_steps_inv steps (channel q) Hc) as [Hi Ha].
  split; [|done]. constructor; simpl; try done.
  unfold capture_ledger in *. simpl. rewrite Ha. by rewrite Hw in Hcap.
Qed.

Lemma process_burst_inv schedule packets w n :
  worker_inv w -> rx_packets (statistics w) + len packets <= umax 64 ->
  holds (process_burst schedule w n packets) (fun '(w', _) =>
    worker_inv w' /\ rx_packets (statistics w') = rx_packets (statistics w) + len packets /\
    configuration w' = configuration w).
Proof.
  revert w n. induction packets as [|p packets IH]; intros w n Hw Hr; simpl.
  { unfold len; simpl. split_and!; [done|lia|done]. }
  assert (Hlen : len (p :: packets) = len packets + 1) by (unfold len; simpl; lia).
  pose proof (len_nonneg packets).
  destruct (receiver_act_inv w (schedule n) Hw) as (Hi&Hs&Hc).
  eapply holds_bind; [apply process_packet_inv; [done|rewrite Hs; lia]|].
  intros w1 (Hw1&Hr1&Hc1). rewrite Hs in Hr1.
  eapply holds_weaken; [apply IH; [done|lia]|]. intros [w2 m] (?&?&?). simpl.
  split_and!; [done|lia|congruence].
Qed.

(** ** The capture sequence. *)

Definition passes (f : option PacketFilter) (packet : PacketView) : bool :=
  match f with
  | Some f => match matches f packet with Ok b => b | _ => false end
  | None => true
  end.

(** The record a capture mode keeps of a packet. *)
Definition kept_record (m : CaptureMode) (packet : PacketView) : CaptureRecord :=
  {| rec_timestamp_nanoseconds := timestamp_nanoseconds packet;
     rec_wire_length := wire_length packet; rec_queue_id := queue_id packet;
     rec_bytes := take (Z.to_nat (retained_length m (len (view_bytes packet)))) (view_bytes packet) |}.

(** [w'] accepted for capture a subsequence of the records of [packets] on top
    of what [w] had accepted. *)
Definition capture_grows w (packets : list PacketView) w' : Prop :=
  worker_filter w' = worker_filter w /\
  forall q, worker_capture w = Some q -> queue_ok (Some q) ->
    exists q' rs, worker_capture w' = Some q' /\ queue_ok (Some q') /\ mode q' = mode q /\
      accepted (channel q') = accepted (channel q) ++ rs /\
      rs `sublist_of` map (kept_record (mode q)) (List.filter (passes (worker_filter w)) packets).

Lemma capture_grows_trans w1 w2 w3 ps1 ps2 :
  capture_grows w1 ps1 w2 -> capture_grows w2 ps2 w3 -> capture_grows w1 (ps1 ++ ps2) w3.
Proof.
  intros [Hf1 H1] [Hf2 H2]. split; [congruence|]. intros q Hq Hok.
  destruct (H1 q Hq Hok) as (q2&rs1&Hq2&Hok2&Hm2&Ha2&Hs2).
  destruct (H2 q2 Hq2 Hok2) as (q3&rs2&Hq3&Hok3&Hm3&Ha3&Hs3).
  exists q3, (rs1 ++ rs2). do 2 (split; [done|]). split; [congruence|]. split.
  - by rewrite Ha3, Ha2, app_assoc.
  - rewrite List.filter_app, map_app. rewrite Hf1, Hm2 in Hs3. by apply sublist_app.
Qed.

(** Steps that leave the queue alone, or only act on its receiving end. *)
Lemma capture_grows_same w w' :
  worker_filter w' = worker_filter w -> worker_capture w' = worker_capture w ->
  capture_grows w [] w'.
Proof.
  intros Hf Hc. split; [done|]. intros q Hq Hok. exists q, []. rewrite Hc, app_nil_r.
  repeat (split; [done|]). done.
Qed.

Lemma receiver_act_grows w steps : capture_grows w [] (receiver_act w steps).
Proof.
  unfold receiver_act. split; [by case_match|]. intros q -> [Hc Hm].
  destruct (receiver_steps_inv steps (channel q) Hc) as [Hi Ha].
  eexists _, []. split; [done|]. simpl. by rewrite app_nil_r.
Qed.

Lemma capture_packet_grows w packet w' :
  passes (worker_filter w) packet = true ->
  capture_packet w packet = Ok w' -> capture_grows w [packet] w'.
Proof.
  intros Hp Hw. unfold capture_packet in Hw. split.
  - destruct (worker_capture w); [|by injection Hw as <-].
    rewrite obind_Ok in Hw. by destruct Hw as ([q' s]&_&[= <-]).
  - intros q Hq [Hc Hm]. rewrite Hq, obind_Ok in Hw. destruct Hw as ([q' s]&Ht&[= <-]).
    simpl. rewrite Hp. simpl. unfold try_capture in Ht. rewrite obind_Ok in Ht.
    destruct Ht as (r&Hr&Ht). pose proof (holds_record_of (mode q) packet Hm) as Hk.
    rewrite Hr in Hk. simpl in Hk. destruct Hk as (Hb&H1&H2&H3).
    assert (r = kept_record (mode q) packet) as -> by (destruct r; simpl in *; by subst).
    pose proof (try_send_spec (channel q) (kept_record (mode q) packet) Hc) as Hs.
    destruct (try_send _ _) as [c'|[]|]; [| | |done]; injection Ht as <- <-.
    + destruct Hs as (?&?&_). by eexists _, [_].
    + exists q, []. rewrite app_nil_r. repeat (split; [done|]). by apply sublist_nil_l.
    + exists q, []. rewrite app_nil_r. repeat (split; [done|]). by apply sublist_nil_l.
Qed.

Lemma analyze_packet_queue w now parsed :
  worker_filter (analyze_packet w now parsed) = worker_filter w /\
  worker_capture (analyze_packet w now parsed) = worker_capture w.
Proof.
  unfold analyze_packet, analyze_tcp, count_ip.
  split; repeat (case_match; simplify_eq/=); done.
Qed.

Lemma process_packet_grows w packet w' :
  process_packet w packet = Ok w' -> capture_grows w [packet] w'.
Proof.
  unfold process_packet. rewrite obind_Ok. intros (skip&Hs&Hw).
  assert (Hp : passes (worker_filter w) packet = negb skip).
  { unfold filtered_out in Hs. simpl in Hs. unfold passes.
    destruct (worker_filter w) as [f|]; [|by injection Hs as <-].
    rewrite obind_Ok in Hs. destruct Hs as (m&->&[= <-]). by rewrite negb_involutive. }
  destruct skip; simpl in Hp.
  { injection Hw as <-. split; [done|]. intros q Hq Hok. exists q, []. simpl. rewrite Hp, app_nil_r.
    repeat (split; [done|]). done. }
  rewrite obind_Ok in Hw. destruct Hw as (w1&Hc&Hw).
  rewrite obind_Ok in Hw. destruct Hw as (an&_&Hw).
  apply (capture_grows_trans w w1 w' [packet] []).
  - by apply capture_packet_grows in Hc.
  - pose proof (analyze_packet_queue (with_observed w1 (sat64 (observed_packets w1) 1))
      (timestamp_nanoseconds packet)) as Hq.
    apply capture_grows_same; destruct an; simpl in Hw; try by injection Hw as <-.
    all: destruct (parse_packet _) as [a|e|]; try done; injection Hw as <-; first [done|apply Hq].
Qed.

Lemma process_burst_grows schedule packets w n w' n' :
  process_burst schedule w n packets = Ok (w', n') -> capture_grows w packets w'.
Proof.
  revert w n. induction packets as [|p packets IH]; intros w n; simpl.
  - intros [= <- <-]. by apply capture_grows_same.
  - rewrite obind_Ok. intros (w1&H1&H2).
    change (p :: packets) with ([] ++ [p] ++ packets).
    eapply capture_grows_trans; [apply (receiver_act_grows w (schedule n))|].
    eapply capture_grows_trans; [by apply process_packet_grows|eauto].
Qed.

Context {S : Type} {BS : BurstSource S}.

(** Packets a source hands over in its next [n] bursts. *)
Fixpoint offered (n : nat) (src : S) : Z :=
  match n with
  | O => 0
  | Datatypes.S n => let '(src, packets, _) := receive_burst src in len packets + offered n src
  end.

(** Those packets, in order. *)
Fixpoint offered_packets (n : nat) (src : S) : list PacketView :=
  match n with
  | O => []
  | Datatypes.S n =>
      let '(src, packets, _) := receive_burst src in packets ++ offered_packets n src
  end.

Lemma run_loop_grows schedule stop_at remaining w n src finished w' src' r :
  run_loop schedule stop_at remaining w n src finished = Ok (w', src', r) ->
  exists ps, ps `prefix_of` offered_packets remaining src /\ capture_grows w ps w'.
Proof.
  revert w n src finished. induction remaining as [|k IH]; intros w n src f; simpl.
  { intros [= <- <- <-]. exists []. split; [apply prefix_nil|]. by apply capture_grows_same. }
  destruct (stop_at f).
  { intros [= <- <- <-]. exists []. split; [apply prefix_nil|]. by apply capture_grows_same. }
  destruct (receive_burst src) as [[src1 packets] result]. rewrite obind_Ok.
  intros ([w1 m]&Hb&H). apply process_burst_grows in Hb.
  destruct result as [received|e|]; [|injection H as <- <- <-|done].
  - destruct (_ && _); [injection H as <- <- <-; eauto using prefix_app_r|].
    destruct (IH _ _ _ _ H) as (ps&Hps&Hg). exists (packets ++ ps).
    split; [by apply prefix_app|]. by eapply capture_grows_trans.
  - eauto using prefix_app_r.
Qed.

Lemma offered_nonneg n src : 0 <= offered n src.
Proof.
  revert src. induction n as [|n IH]; intros src; simpl; [lia|].
  destruct (receive_burst src) as [[src' packets] r]. pose proof (len_nonneg packets).
  specialize (IH src'). lia.
Qed.

(** What a finished run reports. *)
Definition run_reports w w' (maximum : Z) (r : res WorkerRunResult) : Prop :=
  match r with
  | Ok result => run_statistics result = statistics w' /\ 0 <= bursts result <= maximum /\
      run_coverage result = analysis_coverage (configuration w)
  | Err _ => True
  | Panic => False
  end.

Lemma run_loop_inv schedule stop_at remaining w n src finished :
  worker_inv w -> source_inv src -> rx_packets (statistics w) + offered remaining src <= umax 64 ->
  0 <= finished -> finished + Z.of_nat remaining <= umax 64 ->
  exists w' src' r, run_loop schedule stop_at remaining w n src finished = Ok (w', src', r) /\
    worker_inv w' /\ configuration w' = configuration w /\
    rx_packets (statistics w) <= rx_packets (statistics w') /\
    run_reports w w' (finished + Z.of_nat remaining) r.
Proof.
  revert w n src finished. induction remaining as [|k IH]; intros w n src f Hw Hsrc Hr Hf Hk.
  { simpl. eexists _, _, _. split; [done|]. simpl. split_and!; first [done|lia]. }
  cbn [run_loop offered] in *. destruct (stop_at f).
  { eexists _, _, _. split; [done|]. simpl. split_and!; first [done|lia]. }
  pose proof (receive_burst_returns src Hsrc) as Hret. pose proof (receive_burst_inv src Hsrc) as Hsrc'.
  destruct (receive_burst src) as [[src' packets] result] eqn:Hb.
  pose proof (offered_nonneg k src'). pose proof (len_nonneg packets).
  pose proof (process_burst_inv schedule packets w n Hw ltac:(lia)) as Hp.
  destruct (process_burst schedule w n packets) as [[w1 m]|[]|]; [|done].
  destruct Hp as (Hw1&Hr1&Hc1). simpl.
  destruct result as [received|e|]; [|eexists _, _, _; split; [done|]; simpl; split_and!; first [done|lia]|done].
  rewrite sat64_succ by lia.
  destruct (_ && _).
  { eexists _, _, _. split; [done|]. simpl. rewrite Hc1. split_and!; first [done|lia]. }
  destruct (IH w1 m src' (f + 1) Hw1 Hsrc' ltac:(lia) ltac:(lia) ltac:(lia)) as (w2&s2&r&->&?&?&?&Hrep).
  eexists _, _, _. split; [done|]. split_and!; [done|congruence|lia|].
  destruct r; simpl in *; [|done|done]. rewrite Hc1 in Hrep. intuition lia.
Qed.

(** Arguments of [new_with_filter] as the Rust types admit them, with a queue
    that nothing was sent through yet. *)
Definition configuration_typed (c : PacketWorkerConfiguration) : Prop :=
  uint 64 (config_maximum_flows c) /\ uint 64 (flow_idle_timeout_nanoseconds c) /\
  match analysis_coverage c with Sampled n => uint 32 n | FullCoverage => True end.

Definition fresh_queue (q : option CaptureQueue) : Prop :=
  match q with
  | Some q => mode_ok (mode q) /\ exists cap, uint 64 cap /\ bounded cap (mode q) = Ok q
  | None => True
  end.

Lemma fresh_queue_ok q : fresh_queue q ->
  queue_ok q /\ match q with Some q => accepted (channel q) = [] | None => True end.
Proof.
  destruct q as [q|]; [|done]. intros [Hmode (cap&[Hcap _]&Hb)].
  unfold bounded in Hb. destruct (Z.eqb_spec cap 0); [done|]. injection Hb as <-.
  unfold queue_ok, channel_inv, len; simpl. split_and!; first [done|lia].
Qed.

Lemma validate_configuration_coverage c :
  configuration_typed c -> validate_configuration c = Ok tt -> coverage_ok (analysis_coverage c).
Proof.
  intros (_&_&Hs). unfold validate_configuration. destruct (_ || _); [done|].
  destruct (analysis_coverage c) as [|one_in]; [done|]. simpl.
  destruct (Z.eqb_spec one_in 0); [done|]. destruct Hs. lia.
Qed.

(** A worker as [PacketWorker::new_with_filter] builds it satisfies the
    invariant. *)
Lemma new_worker_inv reserved c q f w :
  configuration_typed c -> fresh_queue q -> new_with_filter reserved c q f = Ok w ->
  worker_inv w /\ configuration w = c /\ statistics w = default_worker_stats.
Proof.
  intros Hty Hq. unfold new_with_filter. rewrite obind_Ok. intros ([]&Hv&Hn).
  rewrite obind_Ok in Hn. destruct Hn as (t&Htab&[= <-]).
  destruct (fresh_queue_ok q Hq) as [Hqok Hacc].
  pose proof (validate_configuration_coverage c Hty Hv) as Hcov.
  destruct Hty as ([Hm _]&[Ht _]&Hs).
  destruct (new_table_inv _ _ _ _ Hm Ht Htab) as (Hinv&_&Hmax&_).
  pose proof (analyzed_of_bounds (analysis_coverage c) 0 Hcov ltac:(lia)).
  split; [|done]. constructor; simpl; try done.
  - constructor; simpl; lia.
  - unfold capture_ledger; simpl. destruct q; rewrite ?Hacc; done.
Qed.

End WorkerLemmas.

(** ** What a worker run promises. *)

(** C2: for any source, filter, capture queue, writer-thread schedule and stop
    signal, a worker accepted by [PacketWorker::new_with_filter] runs
    [run_bursts] without panicking, and when fewer than 2^64 packets are
    offered its counters obey the bookkeeping identities: every IP packet is
    counted under exactly one transport, 1-in-[n] sampling analyses exactly
    ceil(observed / n) packets, parse errors and IP packets fit in what was
    analysed, retransmissions are TCP packets, the analyzer-drop branch is never
    taken, and the flow gauge stays within the configured maximum. Packets that
    sampling skips are counted only as sampled out: the comment on the counter of
    analyzer drops says that it includes them, but it stays at zero. *)
Theorem worker_run_ledger {HO : HashOrder FlowKey (FlowEntry TcpFlowAnalyzer)}
    {S : Type} {BS : BurstSource S} reserved c q f w schedule stop_at (src : S) maximum :
  configuration_typed c -> fresh_queue q -> new_with_filter reserved c q f = Ok w ->
  source_inv src -> uint 64 maximum -> offered (Z.to_nat maximum) src <= umax 64 ->
  exists w' src' r, run_bursts schedule stop_at w src maximum = Ok (w', src', r) /\
    run_reports w w' maximum r /\
    let s := statistics w' in let o := observed_packets w' in
    0 <= o <= rx_packets s /\
    ipv4_packets s + ipv6_packets s =
      tcp_packets s + udp_packets s + icmp_packets s + other_packets s /\
    sampled_out_packets s = o - analyzed_of (analysis_coverage c) o /\
    parse_errors s + ipv4_packets s + ipv6_packets s <= analyzed_of (analysis_coverage c) o /\
    0 <= retransmissions s <= tcp_packets s /\
    analyzer (drops s) = 0 /\ 0 <= flows s <= config_maximum_flows c.
Proof.
  intros Hty Hq Hnew Hsrc [Hm1 Hm2] Hoff. unfold run_bursts.
  destruct (new_worker_inv _ _ _ _ _ Hty Hq Hnew) as (Hinv&Hc&Hs).
  destruct (run_loop_inv schedule stop_at (Z.to_nat maximum) w 0 src 0) as (w'&src'&r&->&Hi&Hc'&_&Hrep);
    [done|done|rewrite Hs; simpl; lia|lia|lia|].
  exists w', src', r. split; [done|]. split; [by rewrite Z2Nat.id, Z.add_0_l in Hrep by lia|].
  destruct Hi as [_ _ _ _ [? ? ? ? ? ? ? ?] _]. rewrite Hc', Hc in *.
  cbv zeta. split_and!; lia.
Qed.

(** A source that hands over prepared bursts, for evaluation. *)
Definition prepared_source : BurstSource (list (list PacketView)) := {|
  receive_burst src :=
    match src with
    | [] => ([], [], Ok 0)
    | b :: rest => (rest, b, Ok (len b))
    end;
  is_exhausted src := match src with [] => true | _ => false end;
  source_inv _ := True;
  receive_burst_inv _ _ := I;
  receive_burst_returns src := match src with [] => ltac:(discriminate) | _ => ltac:(discriminate) end;
|}.

Definition sample_configuration : PacketWorkerConfiguration :=
  {| config_maximum_flows := 4; flow_idle_timeout_nanoseconds := 1000;
     analysis_coverage := Sampled 2 |}.

Definition sample_queue : CaptureQueue :=
  {| channel := {| buffer := []; capacity := 1; receiver_open := true;
                   delivered := []; discarded := [] |};
     mode := HeaderOnly |}.

Definition sample_worker : PacketWorker := {|
  configuration := sample_configuration;
  worker_flows := {| entries := ∅; maximum_flows := 4; idle_timeout_nanoseconds := 1000;
                     Flow.stats := default_flow_stats |};
  worker_capture := Some sample_queue; worker_filter := None;
  statistics := default_worker_stats; observed_packets := 0 |}.

Definition sample_view (t : Z) : PacketView :=
  {| view_bytes := tcp_frame; timestamp_nanoseconds := t; wire_length := 56; queue_id := 0 |}.

Lemma sample_worker_new :
  configuration_typed sample_configuration /\ fresh_queue (Some sample_queue) /\
  new_with_filter true sample_configuration (Some sample_queue) None = Ok sample_worker.
Proof.
  unfold configuration_typed, fresh_queue, uint, umax. cbn.
  split; [lia|]. split; [|reflexivity]. split; [exact I|]. exists 1. split; [lia|reflexivity].
Defined.

Lemma worker_run_ledger_witness :
  let HO := list_order FlowKey (FlowEntry TcpFlowAnalyzer) in
  let BS := prepared_source in
  exists w' src' r,
    run_bursts (fun _ => []) (fun _ => false) sample_worker
      [[sample_view 1; sample_view 2]; [sample_view 3]] 10 = Ok (w', src', r) /\
    ipv4_packets (statistics w') + ipv6_packets (statistics w') =
      tcp_packets (statistics w') + udp_packets (statistics w') +
      icmp_packets (statistics w') + other_packets (statistics w').
Proof.
  intros HO BS. destruct sample_worker_new as (H1&H2&H3).
  destruct (worker_run_ledger true sample_configuration (Some sample_queue) None sample_worker
    (fun _ => []) (fun _ => false) [[sample_view 1; sample_view 2]; [sample_view 3]] 10 H1 H2 H3)
    as (w'&src'&r&Hrun&_&_&Hl&_); [exact I|split; vm_compute; done|vm_compute; done|].
  exists w', src', r. split; [exact Hrun|exact Hl].
Defined.

(** Two of the three packets are analysed (one in two), both on one flow; the
    second one repeats the first; one record fits in the queue. *)
Example worker_run_example :
  let HO := list_order FlowKey (FlowEntry TcpFlowAnalyzer) in
  let BS := prepared_source in
  match run_bursts (fun _ => []) (fun _ => false) sample_worker
      [[sample_view 1; sample_view 2]; [sample_view 3]] 10 with
  | Ok (w', _, Ok r) =>
      (bursts r, rx_packets (run_statistics r), tcp_packets (run_statistics r),
       retransmissions (run_statistics r), sampled_out_packets (run_statistics r),
       capture (drops (run_statistics r))) = (3, 3, 2, 1, 1, 2)
  | _ => False
  end.
Proof. vm_compute. reflexivity. Qed.

(** No packet that passed the filter disappears between the receive path
    and the capture: at the end of any run, records accepted by the bounded
    queue, capture drops (queue full) and application drops (receiver gone) add
    up to the packets observed; the queue never exceeds its capacity and hands
    records over first in, first out, losing queued ones only when the receiver
    is dropped. *)
Theorem worker_capture_accounting {HO : HashOrder FlowKey (FlowEntry TcpFlowAnalyzer)}
    {S : Type} {BS : BurstSource S} reserved c q f w schedule stop_at (src : S) maximum :
  configuration_typed c -> fresh_queue (Some q) -> new_with_filter reserved c (Some q) f = Ok w ->
  source_inv src -> uint 64 maximum -> offered (Z.to_nat maximum) src <= umax 64 ->
  exists w' src' r q', run_bursts schedule stop_at w src maximum = Ok (w', src', r) /\
    worker_capture w' = Some q' /\
    let ch := channel q' in let d := drops (statistics w') in
    len (delivered ch ++ discarded ch ++ buffer ch) + capture d + application d
      = observed_packets w' /\
    (delivered ch ++ discarded ch ++ buffer ch) `sublist_of`
      map (kept_record (mode q)) (List.filter (passes f) (offered_packets (Z.to_nat maximum) src)) /\
    len (buffer ch) <= capacity ch /\ (receiver_open ch = true -> discarded ch = []).
Proof.
  intros Hty Hq Hnew Hsrc [Hm1 Hm2] Hoff. unfold run_bursts.
  destruct (new_worker_inv _ _ _ _ _ Hty Hq Hnew) as (Hinv&Hc&Hs).
  destruct (run_loop_inv schedule stop_at (Z.to_nat maximum) w 0 src 0) as (w'&src'&r&Hrun&Hi&Hc'&_&Hrep);
    [done|done|rewrite Hs; simpl; lia|lia|lia|].
  destruct (run_loop_grows _ _ _ _ _ _ _ _ _ _ Hrun) as (ps&Hps&[_ Hg]).
  assert (worker_capture w = Some q /\ worker_filter w = f) as [Hwq Hwf].
  { unfold new_with_filter in Hnew. rewrite obind_Ok in Hnew. destruct Hnew as (?&_&Hn).
    rewrite obind_Ok in Hn. by destruct Hn as (?&_&[= <-]). }
  destruct (fresh_queue_ok _ Hq) as [Hqok Hacc].
  destruct (Hg q Hwq Hqok) as (q'&rs&Hq'&(Hci&_)&_&Ha&Hsub). rewrite Hacc, Hwf in *.
  exists w', src', r, q'. split; [done|]. split; [done|]. cbv zeta.
  destruct Hi as [_ _ _ _ _ (_&_&Hcap)]. rewrite Hq' in Hcap.
  change (delivered (channel q') ++ discarded (channel q') ++ buffer (channel q'))
    with (accepted (channel q')). rewrite Ha in *. simpl in *.
  destruct Hci as (_&Hlen&Hdisc). split_and!; [done| |done|by intros Ho; rewrite Ho in Hdisc].
  etrans; [exact Hsub|]. destruct Hps as [tail ->]. rewrite List.filter_app, map_app.
  by apply sublist_inserts_r.
Qed.

Lemma worker_capture_accounting_witness :
  let HO := list_order FlowKey (FlowEntry TcpFlowAnalyzer) in
  let BS := prepared_source in
  exists w' src' r q',
    run_bursts (fun n => if Nat.eqb n 1 then [Receive] else []) (fun _ => false) sample_worker
      [[sample_view 1; sample_view 2]; [sample_view 3]] 10 = Ok (w', src', r) /\
    worker_capture w' = Some q' /\ len (buffer (channel q')) <= capacity (channel q').
Proof.
  intros HO BS. destruct sample_worker_new as (H1&H2&H3).
  destruct (worker_capture_accounting true sample_configuration sample_queue None sample_worker
    (fun n => if Nat.eqb n 1 then [Receive] else []) (fun _ => false)
    [[sample_view 1; sample_view 2]; [sample_view 3]] 10 H1 H2 H3)
    as (w'&src'&r&q'&Hrun&Hq&_&_&Hl&_); [exact I|split; vm_compute; done|vm_compute; done|].
  exists w', src', r, q'. split_and!; [exact Hrun|exact Hq|exact Hl].
Defined.
