(* ===== verification/FileIo.v ===== *)
(** * Files with injected faults

    The part of [std::fs] and [std::io] that the capture writer and the Safe Apply
    store use, over an explicit disk. Every system call may fail: the faults it meets are a
    script, one entry per call ([None]: it succeeds; [Some k]: a write stops
    after [k] bytes and reports an error, any other call reports an error and
    does nothing). An exhausted script means no more faults. *)

From stdpp Require Import base list strings gmap.
From Stdlib Require Import ZArith Lia.
From S2P Require Import Prelude Text.
Open Scope Z_scope.

Inductive IoErrorKind := InvalidInput | UnexpectedEof | NotFound | Interrupted | InvalidData | AlreadyExists | OsError.

Record IoError := {
  io_kind : IoErrorKind;
  io_message : string;
}.

Record World := {
  files : gmap string bytes;
  faults : list (option nat);
}.

(** An [io::Result] computation on the disk. *)
Definition IO (A : Type) : Type := World -> World * outcome IoError A.

Definition io_ret {A} (a : A) : IO A := fun w => (w, Ok a).
Definition io_err {A} (k : IoErrorKind) (m : string) : IO A :=
  fun w => (w, Err {| io_kind := k; io_message := m |}).
Definition io_bind {A B} (m : IO A) (k : A -> IO B) : IO B := fun w =>
  match m w with
  | (w, Ok a) => k a w
  | (w, Err e) => (w, Err e)
  | (w, Panic) => (w, Panic)
  end.

Declare Scope io_scope.
Delimit Scope io_scope with io.
Notation "'do?' x <- m 'in' k" := (io_bind m (fun x => k))
  (at level 10, x name, m at level 100, k at level 200) : io_scope.
Notation "m ;;? k" := (io_bind m (fun _ => k)) (at level 100, right associativity) : io_scope.
Open Scope io_scope.

(** The next entry of the fault script. *)
Definition next_fault (w : World) : option nat * World :=
  match faults w with
  | [] => (None, w)
  | f :: rest => (f, {| files := files w; faults := rest |})
  end.

Definition with_files (w : World) (m : gmap string bytes) : World :=
  {| files := m; faults := faults w |}.

Definition os_error : IoError := {| io_kind := OsError; io_message := "operating system error" |}.

(** A call that either takes effect on the disk or fails. *)
Definition syscall (effect : gmap string bytes -> gmap string bytes) : IO unit := fun w =>
  match next_fault w with
  | (Some _, w) => (w, Err os_error)
  | (None, w) => (with_files w (effect (files w)), Ok tt)
  end.

(** [create_dir_all] (directories are not part of the disk), [File::create]
    (creates or truncates), [remove_file], [File::flush] (a no-op on files). *)
Definition create_dir_all : IO unit := syscall id.
Definition file_create (path : string) : IO unit := syscall (fun m => <[path := []]> m).
Definition remove_file (path : string) : IO unit := syscall (delete path).
Definition file_flush : IO unit := io_ret tt.

Definition append_to (path : string) (bs : bytes) (m : gmap string bytes) : gmap string bytes :=
  <[path := default [] (m !! path) ++ bs]> m.

(** [write_all] on the file opened at [path]; a failing write leaves a prefix. *)
Definition write_all (path : string) (bs : bytes) : IO unit := fun w =>
  match next_fault w with
  | (Some k, w) => (with_files w (append_to path (take k bs) (files w)), Err os_error)
  | (None, w) => (with_files w (append_to path bs (files w)), Ok tt)
  end.

Definition not_found : IoError :=
  {| io_kind := NotFound; io_message := "No such file or directory (os error 2)" |}.

(** [fs::read]; [sync_all], [sync_data] and [File::open] of a directory (no
    effect on the disk, which has no volatile part); [fs::rename] (atomic). *)
Definition file_read (path : string) : IO bytes := fun w =>
  match next_fault w with
  | (Some _, w) => (w, Err os_error)
  | (None, w) => (w, match files w !! path with Some bs => Ok bs | None => Err not_found end)
  end.

Definition file_sync : IO unit := syscall id.
Definition directory_open : IO unit := syscall id.

Definition file_rename (from to : string) : IO unit := fun w =>
  match next_fault w with
  | (Some _, w) => (w, Err os_error)
  | (None, w) =>
      match files w !! from with
      | Some bs => (with_files w (<[to := bs]> (delete from (files w))), Ok tt)
      | None => (w, Err not_found)
      end
  end.

(** [fs::read_to_string]. *)
Definition invalid_data : IoError :=
  {| io_kind := InvalidData; io_message := "stream did not contain valid UTF-8" |}.
Definition file_read_to_string (path : string) : IO bytes :=
  do? bs <- file_read path in
  if utf8_valid bs then io_ret bs else fun w => (w, Err invalid_data).

(** [fs::metadata], and [open] with [create_new(true)]. *)
Definition already_exists : IoError :=
  {| io_kind := AlreadyExists; io_message := "File exists (os error 17)" |}.
Definition file_metadata (path : string) : IO unit := fun w =>
  match next_fault w with
  | (Some _, w) => (w, Err os_error)
  | (None, w) => (w, match files w !! path with Some _ => Ok tt | None => Err not_found end)
  end.
Definition file_create_new (path : string) : IO unit := fun w =>
  match next_fault w with
  | (Some _, w) => (w, Err os_error)
  | (None, w) =>
      match files w !! path with
      | Some _ => (w, Err already_exists)
      | None => (with_files w (<[path := []]> (files w)), Ok tt)
      end
  end.

(** [Path::exists]: an error counts as absence. *)
Definition path_exists (path : string) : World -> World * bool := fun w =>
  match next_fault w with
  | (Some _, w) => (w, false)
  | (None, w) => (w, bool_decide (is_Some (files w !! path)))
  end.

(** [open] with [create(true).append(true)]: an existing file is kept. *)
Definition file_append (path : string) : IO unit :=
  syscall (fun m => match m !! path with Some _ => m | None => <[path := []]> m end).

(** ** Behaviour without faults. *)

(** [m] appends [bs] to the file and returns [a] on a disk without faults. *)
Definition appends {A} (m : IO A) (path : string) (bs : bytes) (a : A) : Prop :=
  forall w, faults w = [] -> is_Some (files w !! path) ->
    m w = (with_files w (append_to path bs (files w)), Ok a).

Lemma append_to_nil path (m : gmap string bytes) :
  is_Some (m !! path) -> append_to path [] m = m.
Proof. intros [x Hx]. unfold append_to. rewrite Hx. simpl. rewrite app_nil_r. by apply insert_id. Qed.

Lemma append_to_twice path a b (m : gmap string bytes) :
  append_to path b (append_to path a m) = append_to path (a ++ b) m.
Proof.
  unfold append_to. rewrite lookup_insert_eq. simpl. by rewrite insert_insert_eq, app_assoc.
Qed.

Lemma append_to_same path bs (m : gmap string bytes) : is_Some (append_to path bs m !! path).
Proof. unfold append_to. rewrite lookup_insert_eq. eauto. Qed.

Lemma appends_ret {A} path (a : A) : appends (io_ret a) path [] a.
Proof.
  intros [m f] Hf Hp. unfold io_ret, with_files. simpl in *. by rewrite append_to_nil.
Qed.

Lemma appends_write path bs : appends (write_all path bs) path bs tt.
Proof. intros [m f] Hf Hp. unfold write_all, next_fault. simpl in *. by subst. Qed.

Lemma appends_bind {A B} (m : IO A) (k : A -> IO B) path bs1 bs2 a b :
  appends m path bs1 a -> appends (k a) path bs2 b -> appends (io_bind m k) path (bs1 ++ bs2) b.
Proof.
  intros Hm Hk w Hf Hp. unfold io_bind. rewrite Hm by done.
  rewrite Hk by (simpl; eauto using append_to_same). unfold with_files. simpl.
  by rewrite append_to_twice.
Qed.

Lemma syscall_ok effect w :
  faults w = [] -> syscall effect w = (with_files w (effect (files w)), Ok tt).
Proof. intros Hf. unfold syscall, next_fault. by rewrite Hf. Qed.

Lemma io_bind_ok {A B} (m : IO A) (k : A -> IO B) a w w' :
  m w = (w', Ok a) -> io_bind m k w = k a w'.
Proof. intros H. unfold io_bind. by rewrite H. Qed.

(** ** Behaviour under any faults. *)

(** [m] does not panic and its [Ok] values satisfy [Q], whatever fails. *)
Definition io_holds {A} (m : IO A) (Q : A -> Prop) : Prop := forall w, holds (m w).2 Q.

Lemma io_holds_ret {A} (a : A) (Q : A -> Prop) : Q a -> io_holds (io_ret a) Q.
Proof. intros HQ w. exact HQ. Qed.

Lemma io_holds_err {A} k m (Q : A -> Prop) : io_holds (io_err k m) Q.
Proof. intros w. exact I. Qed.

Lemma io_holds_bind {A B} (m : IO A) (k : A -> IO B) (P : A -> Prop) (Q : B -> Prop) :
  io_holds m P -> (forall a, P a -> io_holds (k a) Q) -> io_holds (io_bind m k) Q.
Proof.
  intros Hm Hk w. unfold io_bind. specialize (Hm w). destruct (m w) as [w' [a|e|]]; simpl in *;
    [by apply Hk|done|done].
Qed.

Lemma io_holds_write path bs : io_holds (write_all path bs) (fun _ => True).
Proof. intros w. unfold write_all. by destruct (next_fault w) as [[k|] w']. Qed.

Lemma io_holds_syscall effect : io_holds (syscall effect) (fun _ => True).
Proof. intros w. unfold syscall. by destruct (next_fault w) as [[k|] w']. Qed.

(** Walk a straight-line computation. *)
Ltac io_walk :=
  repeat first
    [ apply io_holds_err
    | eapply io_holds_bind; [first [apply io_holds_write | apply io_holds_syscall]|intros [] _] ].

(** ** A file is replaced atomically through a temporary file. *)

Definition replace_file (temporary path : string) (b : bytes) : IO unit :=
  (file_create temporary ;;? (write_all temporary b ;;? file_sync)) ;;? file_rename temporary path.

Lemma replace_file_spec temporary path b w :
  temporary <> path ->
  let '(w', o) := replace_file temporary path b w in
  o <> Panic /\
  (files w' !! path = files w !! path /\ o <> Ok tt \/ files w' !! path = Some b) /\
  (faults w = [] -> o = Ok tt /\ faults w' = []).
Proof.
  intros Hne. destruct w as [f q].
  unfold replace_file, file_create, write_all, file_sync, file_rename, syscall, io_bind, next_fault,
    append_to, with_files.
  destruct q as [|[k0|] [|[k1|] [|[k2|] [|[k3|] q]]]]; simpl;
    rewrite ?lookup_insert_eq; simpl; rewrite ?lookup_insert_eq; simpl;
    (split_and!; [done| |done]);
    first [ by right
          | left; split; [by rewrite ?lookup_insert_ne by done|done] ].
Qed.

(** ** Computations that leave a file alone. *)

(** [m] does not panic, changes nothing at [path], and meets no fault beyond the script. *)
Definition leaves {A} (path : string) (m : IO A) : Prop := forall w,
  files (m w).1 !! path = files w !! path /\ (m w).2 <> Panic /\ (faults w = [] -> faults (m w).1 = []).

Lemma leaves_ret {A} path (a : A) : leaves path (io_ret a).
Proof. intros w. by split_and!. Qed.

Lemma leaves_err {A} path e : leaves path ((fun w => (w, Err e)) : IO A).
Proof. intros w. by split_and!. Qed.

Lemma leaves_bind {A B} path (m : IO A) (k : A -> IO B) :
  leaves path m -> (forall a, leaves path (k a)) -> leaves path (io_bind m k).
Proof.
  intros Hm Hk w. unfold io_bind. destruct (Hm w) as (Hf&Hp&Hq). destruct (m w) as [w' [a|e|]]; simpl in *;
    [|by split_and!|done].
  destruct (Hk a w') as (Hf'&Hp'&Hq'). split_and!; [congruence|done|auto].
Qed.

Lemma leaves_syscall path effect : (forall f, effect f !! path = f !! path) -> leaves path (syscall effect).
Proof. intros He [f [|[k|] q]]; unfold syscall, next_fault; simpl; rewrite ?He; by split_and!. Qed.

Lemma leaves_write path p b : p <> path -> leaves path (write_all p b).
Proof.
  intros Hp [f [|[k|] q]]; unfold write_all, next_fault, append_to; simpl;
    rewrite lookup_insert_ne by done; by split_and!.
Qed.

Lemma leaves_read path p : leaves path (file_read p).
Proof. intros [f [|[k|] q]]; unfold file_read, next_fault; simpl; try destruct (f !! p); by split_and!. Qed.

Lemma leaves_metadata path p : leaves path (file_metadata p).
Proof. intros [f [|[k|] q]]; unfold file_metadata, next_fault; simpl; try destruct (f !! p); by split_and!. Qed.

Lemma leaves_create_new path p : p <> path -> leaves path (file_create_new p).
Proof.
  intros Hp [f [|[k|] q]]; unfold file_create_new, next_fault; simpl; try destruct (f !! p); simpl;
    rewrite ?lookup_insert_ne by done; by split_and!.
Qed.

Lemma leaves_rename path p q : p <> path -> q <> path -> leaves path (file_rename p q).
Proof.
  intros Hp Hq [f [|[k|] s]]; unfold file_rename, next_fault; simpl; try destruct (f !! p); simpl;
    rewrite ?lookup_insert_ne, ?lookup_delete_ne by done; by split_and!.
Qed.

Lemma leaves_read_to_string path p : leaves path (file_read_to_string p).
Proof.
  apply leaves_bind; [apply leaves_read|]. intros bs. case_match; [apply leaves_ret|apply leaves_err].
Qed.

Lemma leaves_replace path temporary p b : temporary <> path -> p <> path -> leaves path (replace_file temporary p b).
Proof.
  intros Ht Hp. repeat (apply leaves_bind; [|intros []]).
  - apply leaves_syscall. intros f. by rewrite lookup_insert_ne.
  - by apply leaves_write.
  - by apply leaves_syscall.
  - by apply leaves_rename.
Qed.

(** ** Values as one number, for samples of codecs. *)

Definition number {A} `{Countable A} (a : A) : bytes := [Zpos (encode a)].
Definition denumber {A} `{Countable A} (b : bytes) : string + A :=
  match b with
  | [Zpos p] => match decode p with Some a => inr a | None => inl "no snapshot"%string end
  | _ => inl "no snapshot"%string
  end.
Lemma denumber_number {A} `{Countable A} (a : A) : denumber (number a) = inr a.
Proof. unfold denumber, number. by rewrite decode_encode. Qed.
