(* ===== verification/Paths.v ===== *)
(** * Unix paths

    [std::path] as the code uses it, on the text of a path. *)

From stdpp Require Import base list strings gmap.
From Stdlib Require Import ZArith Lia Ascii.
From S2P Require Import Prelude Text FileIo.
Open Scope Z_scope.

(** ** [Path::parent], [Path::with_extension] and [Path::file_name]. *)

Fixpoint split_path (part : string) (s : string) : list string :=
  match s with
  | EmptyString => [part]
  | String c s => if bool_decide (c = "/"%char) then part :: split_path "" s
                  else split_path (part +:+ String c "") s
  end.

(** A segment that is not a component: empty, or [.] except at the start. *)
Definition skipped (s : string) : bool := bool_decide (s = "") || bool_decide (s = ".").

Inductive Parent := NoParent | EmptyParent | ParentDir.

Definition rooted (segments : list string) : bool :=
  bool_decide (head segments = Some ""%string) && (1 <? len segments).

(** The components of a path other than its root. *)
Definition components (segments : list string) : list string :=
  match segments with
  | s :: rest => (if bool_decide (s = ""%string) then [] else [s]) ++
                 filter (fun s => skipped s = false) rest
  | [] => []
  end.

Definition parent_of (path : string) : Parent :=
  let segments := split_path "" path in
  match rooted segments, components segments with
  | _, [] => NoParent
  | true, _ => ParentDir
  | false, [_] => EmptyParent
  | false, _ => ParentDir
  end.

(** [file_stem]: what precedes the last dot, unless that dot comes first. *)
Fixpoint last_dot (n : nat) (found : option nat) (s : string) : option nat :=
  match s with
  | EmptyString => found
  | String c s => last_dot (S n) (if bool_decide (c = "."%char) then Some n else found) s
  end.

Definition file_stem (name : string) : string :=
  match last_dot 0 None name with
  | Some (S n) => String.substring 0 (S n) name
  | _ => name
  end.

(** The segments without the trailing ones that are not components. *)
Fixpoint drop_skipped (reversed : list string) : list string :=
  match reversed with
  | s :: rest => if skipped s && (0 <? len rest) then drop_skipped rest else reversed
  | [] => []
  end.

Definition with_extension (extension path : string) : string :=
  match drop_skipped (reverse (split_path "" path)) with
  | name :: before =>
      if skipped name || bool_decide (name = ".."%string) then path
      else String.concat "/" (reverse ((file_stem name +:+ "." +:+ extension)%string :: before))
  | [] => path
  end.
Definition with_extension_tmp (path : string) : string := with_extension "tmp" path.

(** [Path::file_name]: the last component, unless it is [..] or there is none. *)
Definition file_name (path : string) : option string :=
  match drop_skipped (reverse (split_path "" path)) with
  | name :: _ => if skipped name || bool_decide (name = ".."%string) then None else Some name
  | [] => None
  end.

Example with_extension_cases :
  with_extension_tmp "/var/lib/state.json" = "/var/lib/state.tmp"%string /\
  with_extension_tmp "state" = "state.tmp"%string /\
  with_extension_tmp "a/.hidden/" = "a/.hidden.tmp"%string /\
  parent_of "/var/lib/state.json" = ParentDir /\ parent_of "state.json" = EmptyParent /\
  parent_of "/" = NoParent /\
  file_name "../bus/pci/drivers/ixgbe" = Some "ixgbe"%string /\ file_name "/" = None /\ file_name "a/.." = None /\
  with_extension "nettool.tmp" "/etc/hosts" = "/etc/hosts.nettool.tmp"%string.
Proof. by vm_compute. Qed.

(** ** [Path::join]. *)

Definition ends_with_slash (s : string) : bool :=
  match last (String.list_ascii_of_string s) with
  | Some c => bool_decide (c = "/"%char)
  | None => false
  end.

Definition is_absolute (s : string) : bool :=
  match s with
  | String c _ => bool_decide (c = "/"%char)
  | EmptyString => false
  end.

(** [Path::join] for Unix paths. *)
Definition path_join (dir name : string) : string :=
  if is_absolute name then name
  else if bool_decide (dir = ""%string) || ends_with_slash dir then dir +:+ name
  else dir +:+ "/" +:+ name.

(** ** A file name is the last segment of its path. *)

Definition slashless (s : string) : Prop := "/"%char ∉ String.list_ascii_of_string s.

Lemma split_slashless n part : slashless n -> split_path part n = [part +:+ n].
Proof.
  revert part. induction n as [|c n IH]; intros part Hn; simpl.
  - f_equal. apply as_bytes_inj. by rewrite as_bytes_app, app_nil_r.
  - apply not_elem_of_cons in Hn as [Hc Hn]. rewrite bool_decide_false by congruence.
    rewrite IH by done. by rewrite append_assoc.
Qed.

Lemma split_last d n part : slashless n -> d = ""%string /\ part = ""%string \/ ends_with_slash d = true ->
  exists l, split_path part (d +:+ n) = l ++ [n].
Proof.
  intros Hn. revert part. induction d as [|c d IH]; intros part Hd.
  - destruct Hd as [[_ ->]|Hd]; [|done]. exists []. by rewrite split_slashless.
  - destruct Hd as [[? _]|Hd]; [done|]. simpl. destruct d as [|c' d].
    + unfold ends_with_slash in Hd. simpl in Hd. apply bool_decide_eq_true in Hd as ->.
      rewrite bool_decide_true by done. exists [part]. simpl. by rewrite split_slashless.
    + assert (ends_with_slash (String c' d) = true) as Hd' by exact Hd.
      case_bool_decide.
      * destruct (IH "" ltac:(by right)) as [l Hl]. exists (part :: l). by rewrite Hl.
      * apply IH. by right.
Qed.

Lemma ends_with_slash_snoc d : ends_with_slash (d +:+ "/") = true.
Proof.
  unfold ends_with_slash. assert (String.list_ascii_of_string (d +:+ "/") = String.list_ascii_of_string d ++ ["/"%char]) as ->.
  { induction d as [|c d IH]; [done|]. simpl. by rewrite IH. }
  rewrite last_snoc. by apply bool_decide_eq_true.
Qed.

Lemma join_last dir name : slashless name -> is_absolute name = false ->
  exists l u, split_path "" (path_join dir name) = l ++ [name] /\ path_join dir name = u +:+ name.
Proof.
  intros Hn Ha. unfold path_join. rewrite Ha.
  destruct (bool_decide (dir = ""%string) || ends_with_slash dir) eqn:Hd.
  - destruct (split_last dir name "" Hn) as [l Hl]; [|by exists l, dir].
    apply orb_true_iff in Hd as [Hd|Hd]; [left|by right]. by apply bool_decide_eq_true in Hd.
  - destruct (split_last (dir +:+ "/") name "" Hn) as [l Hl]; [right; apply ends_with_slash_snoc|].
    exists l, (dir +:+ "/"). rewrite append_assoc in *. done.
Qed.

Lemma concat_last sep l : exists u, forall m, String.concat sep (l ++ [m]) = u +:+ m.
Proof.
  induction l as [|s l [u IH]]; [by exists ""%string|]. exists (s +:+ sep +:+ u). intros m. simpl. rewrite IH.
  destruct (l ++ [m]) eqn:Hl; [by destruct l|]. by rewrite !append_assoc.
Qed.

Lemma last_append (l k : bytes) : k <> [] -> last (l ++ k) = last k.
Proof. intros Hk. destruct k as [|x k _] using rev_ind; [done|]. by rewrite (assoc_L (++)), !last_snoc. Qed.

(** Another extension makes another path, when the last characters differ. *)
Lemma with_extension_differs dir name extension :
  slashless name -> is_absolute name = false -> skipped name = false -> name <> ".."%string ->
  as_bytes extension <> [] -> last (as_bytes extension) <> last (as_bytes name) ->
  with_extension extension (path_join dir name) <> path_join dir name.
Proof.
  intros Hs Ha Hk Hd He Hl. destruct (join_last dir name Hs Ha) as (l&u&Hsplit&Hjoin).
  unfold with_extension. rewrite Hsplit, reverse_app, reverse_singleton. cbn [app drop_skipped].
  rewrite Hk. cbn [andb]. rewrite Hk, bool_decide_false by done. cbn [orb].
  rewrite reverse_cons, reverse_involutive. intros Heq.
  destruct (concat_last "/" l) as [v Hv].
  rewrite Hv, Hjoin in Heq. apply (f_equal (fun s => last (as_bytes s))) in Heq.
  assert (as_bytes name <> []) as Hne.
  { intros Hn. destruct name; [|done]. done. }
  rewrite !as_bytes_app, !(assoc_L (++)), !last_append in Heq by done. done.
Qed.

Lemma concat_split s part : String.concat "/" (split_path part s) = part +:+ s.
Proof.
  revert part. induction s as [|c s IH]; intros part; simpl.
  - apply as_bytes_inj. by rewrite as_bytes_app, app_nil_r.
  - case_bool_decide as Hc.
    + simpl. rewrite IH. subst c. destruct (split_path "" s) eqn:Hs; [|done].
      exfalso. destruct s as [|d s]; [done|]. simpl in Hs. case_bool_decide; [done|].
      assert (forall p, split_path p s <> []) as Hne; [|by apply Hne in Hs].
      clear. induction s as [|d s IH]; intros p; [done|]. simpl. case_bool_decide; [done|apply IH].
    + rewrite IH, append_assoc. done.
Qed.

(** The file with another extension is in the same directory. *)
Lemma with_extension_join dir name extension :
  slashless name -> is_absolute name = false -> skipped name = false -> name <> ".."%string ->
  exists u, path_join dir name = u +:+ name /\
    with_extension extension (path_join dir name) = u +:+ file_stem name +:+ "." +:+ extension.
Proof.
  intros Hs Ha Hk Hd. destruct (join_last dir name Hs Ha) as (l&u&Hsplit&Hjoin).
  destruct (concat_last "/" l) as [v Hv]. exists v. split.
  - pose proof (concat_split (path_join dir name) "") as Hc. rewrite Hsplit, Hv in Hc. by rewrite Hc.
  - unfold with_extension. rewrite Hsplit, reverse_app, reverse_singleton. cbn [app drop_skipped].
    rewrite Hk. cbn [andb]. rewrite Hk, bool_decide_false by done. cbn [orb].
    by rewrite reverse_cons, reverse_involutive, Hv.
Qed.

Lemma path_join_name d1 n1 d2 n2 : path_join d1 n1 = path_join d2 n2 ->
  slashless n1 -> slashless n2 -> is_absolute n1 = false -> is_absolute n2 = false -> n1 = n2.
Proof.
  intros Heq H1 H2 Ha1 Ha2. destruct (join_last d1 n1 H1 Ha1) as (l1&_&E1&_), (join_last d2 n2 H2 Ha2) as (l2&_&E2&_).
  rewrite Heq, E2 in E1. by apply app_inj_tail in E1 as [_ ->].
Qed.

Lemma append_cancel a b c : a +:+ c = b +:+ c -> a = b.
Proof. intros H. apply as_bytes_inj. apply (f_equal as_bytes) in H. rewrite !as_bytes_app in H. by apply app_inv_tail in H. Qed.

(** ** Names of JSON files. *)

Lemma hex_digit_no_slash d : 0 <= d < 16 -> hex_digit d <> "/"%char.
Proof.
  intros Hd He. pose proof (hex_digit_char d Hd) as Hc. rewrite He in Hc.
  change (byte_of_ascii "/"%char) with 47 in Hc. unfold ip_char in Hc. lia.
Qed.

Lemma hex_fixed_slashless n : forall x rest, slashless rest -> slashless (hex_fixed n x rest).
Proof.
  induction n as [|n IH]; intros x rest Hr; [done|]. simpl. apply IH. unfold slashless. simpl.
  apply not_elem_of_cons. split; [|done]. intros Hs. symmetry in Hs. revert Hs.
  apply hex_digit_no_slash. apply Z.mod_pos_bound. lia.
Qed.

Lemma hex_slashless bs rest : slashless rest -> slashless (hex bs +:+ rest).
Proof.
  intros Hr. induction bs as [|b bs IH]; [done|]. simpl.
  assert (forall n x a c, hex_fixed n x a +:+ c = hex_fixed n x (a +:+ c)) as Happ.
  { induction n as [|n IHn]; intros x a c; [done|]. simpl. by rewrite IHn. }
  change (slashless (hex_fixed 2 b (hex bs) +:+ rest)). rewrite Happ. by apply hex_fixed_slashless.
Qed.

Lemma slashless_dec s : existsb (Ascii.eqb "/") (String.list_ascii_of_string s) = false -> slashless s.
Proof.
  intros Hs Hin. rewrite <- not_true_iff_false in Hs. apply Hs, existsb_exists.
  exists "/"%char. split; [by apply list_elem_of_In|apply Ascii.eqb_refl].
Qed.

Lemma slashless_app a b : slashless a -> slashless b -> slashless (a +:+ b).
Proof.
  unfold slashless. intros Ha Hb. induction a as [|c a IH]; [done|]. simpl in *.
  apply not_elem_of_cons in Ha as [Hc Ha]. apply not_elem_of_cons. auto.
Qed.

Lemma slashless_relative s : slashless s -> is_absolute s = false.
Proof.
  intros Hs. destruct s as [|c s]; [done|]. simpl. apply bool_decide_eq_false. intros ->. apply Hs. by left.
Qed.

(** A name that ends in [.json]. *)
Lemma json_name s : slashless s -> let n := s +:+ ".json" in
  slashless n /\ is_absolute n = false /\ skipped n = false /\ n <> ".."%string /\ last (as_bytes n) = Some 110.
Proof.
  intros Hs n. assert (slashless n) as Hn by (apply slashless_app; [done|by apply slashless_dec]).
  assert (last (as_bytes n) = Some 110) as Hl by (unfold n; rewrite as_bytes_app; by rewrite last_append).
  split_and!; [done|by apply slashless_relative| | |done].
  - unfold skipped. rewrite !bool_decide_false; [done|intros E; by rewrite E in Hl..].
  - intros E. by rewrite E in Hl.
Qed.

Lemma json_temporary dir s : slashless s ->
  with_extension "tmp" (path_join dir (s +:+ ".json")) <> path_join dir (s +:+ ".json").
Proof.
  intros Hs. destruct (json_name s Hs) as (?&?&?&?&Hl). apply with_extension_differs; try done. by rewrite Hl.
Qed.

(** ** Files in directories. *)

(** A directory is opened and synced after a rename in it. *)
Definition sync_parent (path : string) : IO unit :=
  match parent_of path with
  | NoParent => io_ret tt
  | EmptyParent => fun w => (w, Err not_found)
  | ParentDir => directory_open ;;? file_sync
  end.

Lemma sync_parent_spec path w : let '(w', o) := sync_parent path w in
  files w' = files w /\ o <> Panic /\ (faults w = [] -> parent_of path <> EmptyParent -> o = Ok tt /\ faults w' = []).
Proof.
  unfold sync_parent. destruct (parent_of path); [done|done|]. destruct w as [f q].
  unfold directory_open, file_sync, syscall, io_bind, next_fault, with_files.
  destruct q as [|[k|] [|[k'|] q]]; simpl; by split_and!.
Qed.

(** A new file is written beside its place and renamed. *)
Definition write_new (temporary path : string) (b : bytes) : IO unit :=
  file_create_new temporary ;;? (write_all temporary b ;;? file_sync) ;;? file_rename temporary path ;;?
  sync_parent path.

Lemma write_new_spec temporary path b w : temporary <> path ->
  let '(w', o) := write_new temporary path b w in
  o <> Panic /\ (forall p, p <> path -> p <> temporary -> files w' !! p = files w !! p) /\
  (files w' !! path = files w !! path /\ o <> Ok tt \/ files w' !! path = Some b) /\
  (faults w = [] -> files w !! temporary = None -> parent_of path <> EmptyParent ->
   o = Ok tt /\ w' = {| files := <[path := b]> (files w); faults := [] |}).
Proof.
  intros Hne. destruct w as [f q]. unfold write_new.
  pose proof (sync_parent_spec path) as Hsync. revert Hsync. generalize (sync_parent path) as tail. intros tail Hsync.
  assert (forall m : gmap string bytes, m !! temporary = None ->
    <[path := b]> (delete temporary (<[temporary := b]> m)) = <[path := b]> m) as Hren.
  { intros m Hm. by rewrite delete_insert_id. }
  unfold io_bind, file_create_new, write_all, file_sync, file_rename, syscall, next_fault, append_to, with_files.
  destruct (f !! temporary) as [stale|] eqn:Ht.
  { destruct q as [|[k|] q]; simpl; rewrite ?Ht; by split_and!; [|done|left|]. }
  destruct q as [|[k0|] [|[k1|] [|[k2|] [|[k3|] q]]]]; simpl; rewrite ?Ht; simpl;
    rewrite ?lookup_insert_eq; simpl; rewrite ?lookup_insert_eq; simpl; rewrite ?insert_insert_eq, ?Hren by done;
    try (split_and!; [done|intros p Hp Hpt; by rewrite ?lookup_insert_ne by done|left; by rewrite ?lookup_insert_ne by done|done]);
    match goal with |- context[tail ?w] => specialize (Hsync w); destruct (tail w) as [w' o] end;
    simpl in Hsync; destruct Hsync as (Hf&Hp&Hok); rewrite Hf;
    (split_and!; [done|intros p Hp' Hpt; by rewrite ?lookup_insert_ne by done|right; by rewrite lookup_insert_eq|]);
    simpl; try done; intros _ _ Hd; destruct (Hok eq_refl Hd) as [-> Hq']; destruct w'; simpl in *; by subst.
Qed.
