(* ===== verification/CaptureWriter.v ===== *)
(** * Rotating capture writer

    Model of the writer half of [crates/packet/src/capture.rs]: the PCAP and
    PCAPNG encoders, and [RotatingCaptureWriter] with its size, duration and
    file-count policy, on a disk whose system calls may fail ([FileIo]). The
    clock is an argument: [write_record] reads it once to decide on rotation
    and once more when a new file is opened. *)

From stdpp Require Import base list strings gmap pretty.
From Stdlib Require Import ZArith Lia Ascii.
From S2P Require Import Prelude ErrorModel Text PacketStats Capture FileIo Paths.
Open Scope Z_scope.

Definition PCAP_GLOBAL_HEADER_LENGTH : Z := 24.
Definition PCAP_RECORD_HEADER_LENGTH : Z := 16.

(** ** Encoders. *)

(** [while bytes.len() % 4 != 0 { bytes.push(0) }]; three rounds are enough. *)
Fixpoint pad_loop (rounds : nat) (bs : bytes) : bytes :=
  if len bs mod 4 =? 0 then bs
  else match rounds with
       | O => bs
       | S rounds => pad_loop rounds (bs ++ [0])
       end.
Definition pad_to_u32 (bs : bytes) : bytes := pad_loop 3 bs.

Definition record_encoded_length (f : CaptureFormat) (captured_length : Z) : Z :=
  let captured := clamp 64 captured_length in
  match f with
  | Pcap => sat_add 64 PCAP_RECORD_HEADER_LENGTH captured
  | PcapNg => sat_add 64 56 (Z.ldiff (sat_add 64 captured 3) 3)
  end.

Section Encoders.
Context (path : string).

Definition write_pcap_header (snap : Z) : IO Z :=
  write_all path (to_le_bytes 4 0xa1b23c4d) ;;?
  write_all path (to_le_bytes 2 2) ;;?
  write_all path (to_le_bytes 2 4) ;;?
  write_all path (to_le_bytes 4 0) ;;?
  write_all path (to_le_bytes 4 0) ;;?
  write_all path (to_le_bytes 4 snap) ;;?
  write_all path (to_le_bytes 4 1) ;;?
  io_ret PCAP_GLOBAL_HEADER_LENGTH.

Definition write_pcap_record (r : CaptureRecord) : IO Z :=
  let seconds := rec_timestamp_nanoseconds r / 1000000000 in
  let nanoseconds := rec_timestamp_nanoseconds r mod 1000000000 in
  write_all path (to_le_bytes 4 (clamp 32 seconds)) ;;?
  write_all path (to_le_bytes 4 (clamp 32 nanoseconds)) ;;?
  let captured := clamp 32 (len (rec_bytes r)) in
  write_all path (to_le_bytes 4 captured) ;;?
  write_all path (to_le_bytes 4 (rec_wire_length r)) ;;?
  write_all path (rec_bytes r) ;;?
  io_ret (PCAP_RECORD_HEADER_LENGTH + captured).

(** The [try_fold] over the body lengths. *)
Fixpoint body_length (total : Z) (bodies : list bytes) : option Z :=
  match bodies with
  | [] => Some total
  | b :: bodies =>
      match checked_add 64 total (clamp 64 (len b)) with
      | Some total => body_length total bodies
      | None => None
      end
  end.

Fixpoint write_bodies (bodies : list bytes) : IO unit :=
  match bodies with
  | [] => io_ret tt
  | b :: bodies => write_all path b ;;? write_bodies bodies
  end.

Definition write_block (block_type : Z) (bodies : list bytes) : IO Z :=
  match body_length 0 bodies with
  | None => io_err InvalidInput "capture block too large"
  | Some n =>
      match checked_add 64 n 12 with
      | None => io_err InvalidInput "capture block too large"
      | Some total =>
          if umax 32 <? total then io_err InvalidInput "capture block too large"
          else
            write_all path (to_le_bytes 4 block_type) ;;?
            write_all path (to_le_bytes 4 total) ;;?
            write_bodies bodies ;;?
            write_all path (to_le_bytes 4 total) ;;?
            io_ret total
      end
  end.

(** The options of the interface description block: the (truncated) interface
    name and a timestamp resolution of 10^-9. *)
Definition interface_options (interface_name : string) : bytes :=
  let name := as_bytes interface_name in
  let name_length := clamp 16 (len name) in
  let name := take (Z.to_nat name_length) name in
  let options := to_le_bytes 2 2 ++ to_le_bytes 2 name_length ++ name in
  let options := pad_to_u32 options ++ to_le_bytes 2 9 ++ to_le_bytes 2 1 ++ [9] in
  pad_to_u32 options ++ to_le_bytes 4 0.

Definition write_pcapng_header (snap : Z) (interface_name : string) : IO Z :=
  write_block 0x0a0d0d0a
    [to_le_bytes 4 0x1a2b3c4d; to_le_bytes 2 1; to_le_bytes 2 0; to_le_bytes 8 (umax 64)] ;;?
  let body := to_le_bytes 2 1 ++ to_le_bytes 2 0 ++ to_le_bytes 4 snap ++
    interface_options interface_name in
  do? interface_block <- write_block 1 [body] in
  io_ret (28 + interface_block).

Definition queue_comment (queue : Z) : string := "queue_id=" +:+ dec queue.

(** The body of an enhanced packet block. *)
Definition packet_block_body (r : CaptureRecord) : bytes :=
  let captured := clamp 32 (len (rec_bytes r)) in
  let timestamp_high := clamp 32 (Z.shiftr (rec_timestamp_nanoseconds r) 32) in
  let timestamp_low := clamp 32 (Z.land (rec_timestamp_nanoseconds r) (umax 32)) in
  let body := to_le_bytes 4 0 ++ to_le_bytes 4 timestamp_high ++ to_le_bytes 4 timestamp_low ++
    to_le_bytes 4 captured ++ to_le_bytes 4 (rec_wire_length r) ++ rec_bytes r in
  let comment := as_bytes (queue_comment (rec_queue_id r)) in
  let body := pad_to_u32 body ++ to_le_bytes 2 1 ++
    to_le_bytes 2 (clamp 16 (len comment)) ++ comment in
  pad_to_u32 body ++ to_le_bytes 4 0.

Definition write_pcapng_record (r : CaptureRecord) : IO Z :=
  write_block 6 [packet_block_body r].

Definition write_file_header (f : CaptureFormat) (m : CaptureMode) (interface_name : string) : IO Z :=
  match f with
  | Pcap => write_pcap_header (snaplen m)
  | PcapNg => write_pcapng_header (snaplen m) interface_name
  end.

Definition write_format_record (f : CaptureFormat) (r : CaptureRecord) : IO Z :=
  match f with
  | Pcap => write_pcap_record r
  | PcapNg => write_pcapng_record r
  end.

End Encoders.

(** ** The writer. *)

Record CaptureRotation := {
  maximum_bytes : option Z;
  maximum_duration : option Z;
  file_count : Z;
}.

Record RotatingCaptureWriter := {
  directory : string;
  prefix : string;
  format : CaptureFormat;
  writer_mode : CaptureMode;
  interface_name : string;
  rotation : CaptureRotation;
  generation : Z;
  current : string;
  current_bytes : Z;
  records_in_current : Z;
  opened_at : Z;
  retained_files : list string;
}.

Definition capture_path (dir pre : string) (f : CaptureFormat) (gen : Z) : string :=
  let extension := match f with PcapNg => "pcapng"%string | Pcap => "pcap"%string end in
  path_join dir (pre +:+ "-" +:+ hex_fixed 16 gen ("." +:+ extension)).

Definition create (dir pre : string) (f : CaptureFormat) (m : CaptureMode) (name : string)
    (r : CaptureRotation) (now : Z) : IO RotatingCaptureWriter :=
  if (file_count r =? 0) || bool_decide (maximum_bytes r = Some 0) then
    io_err InvalidInput "invalid capture rotation policy"
  else
    create_dir_all ;;?
    let path := capture_path dir pre f 0 in
    file_create path ;;?
    do? bytes <- write_file_header path f m name in
    io_ret {| directory := dir; prefix := pre; format := f; writer_mode := m;
              interface_name := name; rotation := r; generation := 0; current := path;
              current_bytes := bytes; records_in_current := 0; opened_at := now;
              retained_files := [path] |}.

Definition should_rotate (w : RotatingCaptureWriter) (next_record_bytes now : Z) : bool :=
  match maximum_bytes (rotation w) with
  | Some limit => (0 <? records_in_current w) &&
                  (limit <? sat_add 64 (current_bytes w) next_record_bytes)
  | None => false
  end ||
  match maximum_duration (rotation w) with
  | Some limit => limit <=? sat_sub now (opened_at w)
  | None => false
  end.

(** The methods below mutate [self]: they return the writer also when they
    fail, with the assignments made up to that point. *)
Definition Writer (A : Type) : Type := IO (RotatingCaptureWriter * outcome IoError A).

Definition with_generation (w : RotatingCaptureWriter) (g : Z) : RotatingCaptureWriter :=
  {| directory := directory w; prefix := prefix w; format := format w;
     writer_mode := writer_mode w; interface_name := interface_name w; rotation := rotation w;
     generation := g; current := current w; current_bytes := current_bytes w;
     records_in_current := records_in_current w; opened_at := opened_at w;
     retained_files := retained_files w |}.

Definition with_retained (w : RotatingCaptureWriter) (fs : list string) : RotatingCaptureWriter :=
  {| directory := directory w; prefix := prefix w; format := format w;
     writer_mode := writer_mode w; interface_name := interface_name w; rotation := rotation w;
     generation := generation w; current := current w; current_bytes := current_bytes w;
     records_in_current := records_in_current w; opened_at := opened_at w;
     retained_files := fs |}.

Definition with_current (w : RotatingCaptureWriter) (path : string) (bytes now : Z)
    : RotatingCaptureWriter :=
  {| directory := directory w; prefix := prefix w; format := format w;
     writer_mode := writer_mode w; interface_name := interface_name w; rotation := rotation w;
     generation := generation w; current := path; current_bytes := bytes;
     records_in_current := 0; opened_at := now; retained_files := retained_files w |}.

Definition with_written (w : RotatingCaptureWriter) (written : Z) : RotatingCaptureWriter :=
  {| directory := directory w; prefix := prefix w; format := format w;
     writer_mode := writer_mode w; interface_name := interface_name w; rotation := rotation w;
     generation := generation w; current := current w;
     current_bytes := sat_add 64 (current_bytes w) written;
     records_in_current := sat_add 64 (records_in_current w) 1;
     opened_at := opened_at w; retained_files := retained_files w |}.

(** Run a disk computation on behalf of [self]: on failure [self] stays [w]. *)
Definition on_disk {A B} (w : RotatingCaptureWriter) (m : IO A) (k : A -> Writer B) : Writer B :=
  fun d =>
    match m d with
    | (d, Ok a) => k a d
    | (d, Err e) => (d, Ok (w, Err e))
    | (d, Panic) => (d, Panic)
    end.

(** [while retained_files.len() > file_count { pop_front; remove_file }]. *)
Fixpoint expire_files (w : RotatingCaptureWriter) (fs : list string) : Writer unit :=
  let w := with_retained w fs in
  if len fs <=? file_count (rotation w) then io_ret (w, Ok tt)
  else match fs with
       | expired :: fs =>
           on_disk (with_retained w fs) (remove_file expired) (fun _ => expire_files w fs)
       | [] => io_ret (w, Ok tt)
       end.

Definition rotate (w : RotatingCaptureWriter) (now : Z) : Writer unit :=
  on_disk w file_flush (fun _ =>
  let w := with_generation w (wrap 64 (generation w + 1)) in
  let path := capture_path (directory w) (prefix w) (format w) (generation w) in
  on_disk w (file_create path) (fun _ =>
  on_disk w (write_file_header path (format w) (writer_mode w) (interface_name w)) (fun bytes =>
  let w := with_current w path bytes now in
  expire_files w (retained_files w ++ [path])))).

(** The part of [write_record] after a possible rotation. *)
Definition append_record (w : RotatingCaptureWriter) (r : CaptureRecord) : Writer unit :=
  on_disk w (write_format_record (current w) (format w) r) (fun written =>
    io_ret (with_written w written, Ok tt)).

Definition write_record (w : RotatingCaptureWriter) (r : CaptureRecord) (checked opened : Z)
    : Writer unit := fun d =>
  if should_rotate w (record_encoded_length (format w) (len (rec_bytes r))) checked then
    match rotate w opened d with
    | (d, Ok (w, Ok _)) => append_record w r d
    | (d, Ok (w, Err e)) => (d, Ok (w, Err e))
    | (d, o) => (d, o)
    end
  else append_record w r d.

(** [flush]: files are not buffered. *)
Definition flush (w : RotatingCaptureWriter) : Writer unit :=
  on_disk w file_flush (fun _ => io_ret (w, Ok tt)).

(** ** Encoded lengths. *)

#[local] Ltac Zify.zify_post_hook ::= Z.to_euclidean_division_equations.

(** The next multiple of four. *)
Definition pad4 (n : Z) : Z := 4 * ((n + 3) / 4).

Lemma pad_to_u32_spec bs : exists k, (k < 4)%nat /\
  pad_to_u32 bs = bs ++ repeat 0 k /\ len bs + Z.of_nat k = pad4 (len bs).
Proof.
  unfold pad_to_u32, pad_loop, pad4. rewrite !len_app. change (len [0]) with 1.
  pose proof (Z.div_mod (len bs) 4 ltac:(lia)). pose proof (Z.mod_pos_bound (len bs) 4 ltac:(lia)).
  destruct (Z.eqb_spec (len bs mod 4) 0) as [E0|E0].
  { exists 0%nat. rewrite app_nil_r. split_and!; [lia|done|]. lia. }
  destruct (Z.eqb_spec ((len bs + 1) mod 4) 0) as [E1|E1].
  { exists 1%nat. split_and!; [lia|done|]. lia. }
  destruct (Z.eqb_spec ((len bs + 1 + 1) mod 4) 0) as [E2|E2].
  { exists 2%nat. rewrite <- !app_assoc. split_and!; [lia|done|]. lia. }
  exists 3%nat. destruct (_ =? 0); rewrite <- !app_assoc; (split_and!; [lia|done|]); lia.
Qed.

Lemma pad_to_u32_len bs : len (pad_to_u32 bs) = pad4 (len bs).
Proof.
  destruct (pad_to_u32_spec bs) as (k&_&->&<-). rewrite len_app. unfold len at 2.
  by rewrite repeat_length.
Qed.

Lemma pad4_bounds n : n <= pad4 n <= n + 3.
Proof. unfold pad4. lia. Qed.

Lemma pad4_mod n : pad4 n mod 4 = 0.
Proof. unfold pad4. lia. Qed.

Lemma pad4_add m n : m mod 4 = 0 -> pad4 (m + n) = m + pad4 n.
Proof. unfold pad4. intros. lia. Qed.

Lemma pad_to_u32_skip a l : len a mod 4 = 0 -> pad_to_u32 (a ++ l) = a ++ pad_to_u32 l.
Proof.
  intros Ha. destruct (pad_to_u32_spec (a ++ l)) as (k&Hk&->&Hl).
  destruct (pad_to_u32_spec l) as (k'&Hk'&->&Hl'). rewrite len_app, pad4_add in Hl by done.
  assert (k = k') as -> by lia. by rewrite app_assoc.
Qed.

(** [(x + 3) & !3]. *)
Lemma ldiff_3 x : Z.ldiff (x + 3) 3 = pad4 x.
Proof.
  unfold pad4. change 3 with (Z.ones 2) at 2. rewrite Z.ldiff_ones_r by lia.
  rewrite Z.shiftl_mul_pow2, Z.shiftr_div_pow2 by lia. change (2 ^ 2) with 4. lia.
Qed.

Lemma len_to_le_bytes n x : len (to_le_bytes n x) = Z.of_nat n.
Proof. unfold len. by rewrite to_le_bytes_length. Qed.

Lemma pretty_N_go_len k x s :
  (x < 10 ^ N.of_nat k)%N -> len (as_bytes (pretty_N_go x s)) <= len (as_bytes s) + Z.of_nat k.
Proof.
  revert x s. induction k as [|k IH]; intros x s Hx.
  - assert (x = 0%N) as -> by (change (10 ^ N.of_nat 0)%N with 1%N in Hx; lia). rewrite pretty_N_go_0. lia.
  - destruct (decide (x = 0%N)) as [->|Hne]; [rewrite pretty_N_go_0; lia|].
    rewrite pretty_N_go_step by lia. etrans.
    + apply IH. rewrite Nat2N.inj_succ, N.pow_succ_r' in Hx. apply N.Div0.div_lt_upper_bound. lia.
    + unfold as_bytes, len. simpl. rewrite !length_fmap. lia.
Qed.

(** A 16-bit number prints in at most five digits. *)
Lemma dec_u16_length q : uint 16 q -> 0 <= len (as_bytes (dec q)) <= 5.
Proof.
  intros [H0 H1]. split; [apply len_nonneg|]. unfold dec, pretty, pretty_N.
  destruct (decide (Z.to_N q = 0%N)); [done|]. change 5 with (len (as_bytes "") + Z.of_nat 5).
  apply pretty_N_go_len. unfold umax in H1. change (10 ^ N.of_nat 5)%N with 100000%N. lia.
Qed.

Lemma queue_comment_len q : uint 16 q -> 9 <= len (as_bytes (queue_comment q)) <= 14.
Proof.
  intros Hq. unfold queue_comment. rewrite as_bytes_app, len_app.
  change (len (as_bytes "queue_id=")) with 9. pose proof (dec_u16_length q Hq). lia.
Qed.

(** A record as the Rust type admits it, small enough for one block. *)
Definition record_ok (r : CaptureRecord) : Prop :=
  uint 64 (rec_timestamp_nanoseconds r) /\ uint 32 (rec_wire_length r) /\
  uint 16 (rec_queue_id r) /\ bytes_ok (rec_bytes r) /\ len (rec_bytes r) + 64 <= umax 32.

Lemma packet_block_body_len r :
  len (packet_block_body r) =
    24 + pad4 (len (rec_bytes r)) + (4 + pad4 (len (as_bytes (queue_comment (rec_queue_id r))))).
Proof.
  unfold packet_block_body.
  rewrite !len_app, !pad_to_u32_len, !len_app, !pad_to_u32_len, !len_app, !len_to_le_bytes.
  change (Z.of_nat 4) with 4. change (Z.of_nat 2) with 2.
  set (n := len (rec_bytes r)). set (c := len (as_bytes _)).
  replace (4 + (4 + (4 + (4 + (4 + n))))) with (20 + n) by lia. rewrite (pad4_add 20) by done.
  pose proof (pad4_mod n).
  replace (20 + pad4 n + (2 + (2 + c))) with ((24 + pad4 n) + c) by lia.
  rewrite pad4_add by lia. lia.
Qed.

(** The size estimate that drives rotation. *)
Lemma record_encoded_length_spec f n :
  0 <= n <= umax 32 ->
  record_encoded_length f n = match f with Pcap => 16 + n | PcapNg => 56 + pad4 n end.
Proof.
  intros Hn. unfold record_encoded_length, sat_add, PCAP_RECORD_HEADER_LENGTH.
  assert (umax 64 = 18446744073709551615 /\ umax 32 = 4294967295) as [E1 E2] by done.
  rewrite clamp_id by lia. pose proof (pad4_bounds n).
  destruct f; [|lia]. rewrite (Z.min_l (n + 3)) by lia. rewrite ldiff_3. lia.
Qed.

(** ** Encodings: what the encoders append to a file without faults. *)

Definition pcap_header_bytes (snap : Z) : bytes :=
  to_le_bytes 4 0xa1b23c4d ++ to_le_bytes 2 2 ++ to_le_bytes 2 4 ++ to_le_bytes 4 0 ++
  to_le_bytes 4 0 ++ to_le_bytes 4 snap ++ to_le_bytes 4 1.

Definition pcap_record_bytes (r : CaptureRecord) : bytes :=
  to_le_bytes 4 (clamp 32 (rec_timestamp_nanoseconds r / 1000000000)) ++
  to_le_bytes 4 (rec_timestamp_nanoseconds r mod 1000000000) ++
  to_le_bytes 4 (len (rec_bytes r)) ++ to_le_bytes 4 (rec_wire_length r) ++ rec_bytes r.

Definition block_bytes (block_type : Z) (body : bytes) : bytes :=
  to_le_bytes 4 block_type ++ to_le_bytes 4 (12 + len body) ++ body ++
  to_le_bytes 4 (12 + len body).

Definition interface_body (snap : Z) (name : string) : bytes :=
  to_le_bytes 2 1 ++ to_le_bytes 2 0 ++ to_le_bytes 4 snap ++ interface_options name.

Definition section_body : bytes :=
  to_le_bytes 4 0x1a2b3c4d ++ to_le_bytes 2 1 ++ to_le_bytes 2 0 ++ to_le_bytes 8 (umax 64).

Definition header_bytes (f : CaptureFormat) (m : CaptureMode) (name : string) : bytes :=
  match f with
  | Pcap => pcap_header_bytes (snaplen m)
  | PcapNg => block_bytes 0x0a0d0d0a section_body ++ block_bytes 1 (interface_body (snaplen m) name)
  end.

Definition record_bytes (f : CaptureFormat) (r : CaptureRecord) : bytes :=
  match f with
  | Pcap => pcap_record_bytes r
  | PcapNg => block_bytes 6 (packet_block_body r)
  end.

Lemma appends_eq {A} (m : IO A) path bs bs' a a' :
  appends m path bs a -> bs = bs' -> a = a' -> appends m path bs' a'.
Proof. by intros ? -> ->. Qed.

(** A chain of writes ending in a return. *)
Ltac appends_chain :=
  repeat (eapply appends_bind; [apply appends_write|]); apply appends_ret.

Lemma write_bodies_appends path bodies : appends (write_bodies path bodies) path (concat bodies) tt.
Proof.
  induction bodies as [|b bodies IH]; simpl; [apply appends_ret|].
  eapply appends_bind; [apply appends_write|exact IH].
Qed.

Lemma body_length_spec total bodies :
  0 <= total -> total + len (concat bodies) <= umax 64 ->
  body_length total bodies = Some (total + len (concat bodies)).
Proof.
  revert total. induction bodies as [|b bodies IH]; intros total H0 Hm; simpl in *.
  { unfold len. simpl. by rewrite Z.add_0_r. }
  rewrite len_app in *. pose proof (len_nonneg b). pose proof (len_nonneg (concat bodies)).
  rewrite clamp_id by lia. unfold checked_add. rewrite (proj2 (Z.leb_le _ _)) by lia.
  rewrite IH by lia. f_equal. lia.
Qed.

Lemma write_block_appends path t bodies :
  12 + len (concat bodies) <= umax 32 ->
  appends (write_block path t bodies) path (block_bytes t (concat bodies)) (12 + len (concat bodies)).
Proof.
  intros Hm. pose proof (len_nonneg (concat bodies)).
  assert (umax 32 + 12 < umax 64) by done.
  unfold write_block. rewrite body_length_spec by lia. rewrite Z.add_0_l.
  unfold checked_add. rewrite (proj2 (Z.leb_le _ _)) by lia.
  rewrite (proj2 (Z.ltb_ge _ _)) by lia. rewrite (Z.add_comm (len _) 12).
  eapply appends_eq; [|reflexivity|reflexivity]. unfold block_bytes.
  do 2 (eapply appends_bind; [apply appends_write|]).
  eapply appends_bind; [apply write_bodies_appends|].
  eapply appends_eq; [appends_chain|apply app_nil_r|done].
Qed.

Lemma interface_options_len name :
  len (interface_options name) = 16 + pad4 (Z.min (len (as_bytes name)) 65535) /\
  0 <= Z.min (len (as_bytes name)) 65535.
Proof.
  pose proof (len_nonneg (as_bytes name)) as Hn. unfold interface_options.
  rewrite !len_app, !pad_to_u32_len, !len_app, !pad_to_u32_len, !len_app, !len_to_le_bytes.
  change (Z.of_nat 4) with 4. change (Z.of_nat 2) with 2. change (len [9]) with 1.
  assert (clamp 16 (len (as_bytes name)) = Z.min (len (as_bytes name)) 65535) as ->.
  { unfold clamp. change (umax 16) with 65535. destruct (Z.leb_spec (len (as_bytes name)) 65535); lia. }
  set (k := Z.min _ _). assert (Hk : 0 <= k <= len (as_bytes name)) by lia.
  assert (len (take (Z.to_nat k) (as_bytes name)) = k) as ->.
  { unfold len in *. rewrite length_take. lia. }
  replace (2 + (2 + k)) with (4 + k) by lia. rewrite (pad4_add 4) by done.
  pose proof (pad4_mod k). split; [|lia].
  replace (4 + pad4 k + (2 + (2 + 1))) with ((8 + pad4 k) + 1) by lia.
  rewrite pad4_add by lia. change (pad4 1) with 4. lia.
Qed.

Lemma interface_body_len snap name :
  24 <= len (interface_body snap name) <= 65600 /\ len (interface_body snap name) mod 4 = 0.
Proof.
  unfold interface_body. rewrite !len_app, !len_to_le_bytes.
  change (Z.of_nat 4) with 4. change (Z.of_nat 2) with 2.
  destruct (interface_options_len name) as [-> ?].
  pose proof (pad4_bounds (Z.min (len (as_bytes name)) 65535)).
  pose proof (pad4_mod (Z.min (len (as_bytes name)) 65535)). lia.
Qed.

Lemma block_bytes_len t body : len (block_bytes t body) = 12 + len body.
Proof.
  unfold block_bytes. rewrite !len_app, !len_to_le_bytes. change (Z.of_nat 4) with 4. lia.
Qed.

Lemma header_bytes_len f m name : 24 <= len (header_bytes f m name) <= 65640.
Proof.
  destruct f; cbn [header_bytes]; [|by vm_compute].
  rewrite len_app, !block_bytes_len. pose proof (interface_body_len (snaplen m) name).
  change (len section_body) with 16. lia.
Qed.

(** The encoders append exactly the encodings and report their lengths. *)
Lemma write_file_header_appends path f m name :
  appends (write_file_header path f m name) path (header_bytes f m name)
    (len (header_bytes f m name)).
Proof.
  destruct f; cbn [write_file_header header_bytes write_format_record record_bytes].
  - pose proof (interface_body_len (snaplen m) name). unfold write_pcapng_header.
    eapply appends_bind; [eapply appends_eq; [by apply (write_block_appends _ _ [_;_;_;_])|..]|].
    + reflexivity.
    + done.
    + rewrite len_app, !block_bytes_len.
      eapply appends_eq; [eapply appends_bind;
        [apply (write_block_appends _ _ [interface_body (snaplen m) name])|apply appends_ret]|..];
        cbn [concat]; rewrite ?app_nil_r.
      * change (umax 32) with 4294967295. lia.
      * done.
      * change (len section_body) with 16. lia.
  - unfold write_pcap_header.
    eapply appends_eq; [appends_chain|unfold pcap_header_bytes; by rewrite app_nil_r|done].
Qed.

Lemma write_format_record_appends path f r :
  record_ok r ->
  appends (write_format_record path f r) path (record_bytes f r) (len (record_bytes f r)).
Proof.
  intros (Ht&Hw&Hq&Hb&Hl). pose proof (len_nonneg (rec_bytes r)).
  change (umax 32) with 4294967295 in *.
  destruct f; cbn [write_file_header header_bytes write_format_record record_bytes].
  - rewrite block_bytes_len. unfold write_pcapng_record.
    eapply appends_eq; [apply write_block_appends|cbn [concat]; by rewrite app_nil_r..].
    cbn [concat]. rewrite app_nil_r, packet_block_body_len. pose proof (queue_comment_len _ Hq).
    pose proof (pad4_bounds (len (as_bytes (queue_comment (rec_queue_id r))))).
    pose proof (pad4_bounds (len (rec_bytes r))). change (umax 32) with 4294967295. 
    unfold pad4 in *. lia.
  - unfold write_pcap_record, pcap_record_bytes.
    rewrite (clamp_id 32 (len (rec_bytes r))) by (change (umax 32) with 4294967295; lia).
    rewrite (clamp_id 32 (_ mod _)) by (change (umax 32) with 4294967295; lia).
    eapply appends_eq; [appends_chain|by rewrite app_nil_r|].
    rewrite !len_app, !len_to_le_bytes. unfold PCAP_RECORD_HEADER_LENGTH. lia.
Qed.

(** The estimate never falls short of the encoding. *)
Lemma record_bytes_estimate f r :
  record_ok r -> len (record_bytes f r) <= record_encoded_length f (len (rec_bytes r)).
Proof.
  intros (Ht&Hw&Hq&Hb&Hl). pose proof (len_nonneg (rec_bytes r)).
  rewrite record_encoded_length_spec by lia. destruct f; simpl.
  - rewrite block_bytes_len, packet_block_body_len. pose proof (queue_comment_len _ Hq).
    unfold pad4. lia.
  - unfold pcap_record_bytes. rewrite !len_app, !len_to_le_bytes. lia.
Qed.

(** ** File names. *)

Lemma capture_path_inj dir pre f g h :
  uint 64 g -> uint 64 h -> capture_path dir pre f g = capture_path dir pre f h -> g = h.
Proof.
  unfold capture_path, path_join, uint. change (umax 64) with (16 ^ Z.of_nat 16 - 1).
  intros Hg Hh H. set (ext := ("." +:+ _)%string) in H.
  assert (Habs : forall x y, is_absolute (pre +:+ "-" +:+ x) = is_absolute (pre +:+ "-" +:+ y))
    by (intros; by destruct pre).
  rewrite (Habs (hex_fixed 16 g ext) (hex_fixed 16 h ext)) in H.
  assert (hex_fixed 16 g ext = hex_fixed 16 h ext) as He.
  { destruct (is_absolute _); [|destruct (_ || _)]; by repeat apply (inj (String.append _)) in H. }
  apply hex_fixed_inj in He as [? _]; [done|lia|lia].
Qed.

(** ** Bounds of the writer, under any faults. *)

Lemma write_bodies_holds path bodies : io_holds (write_bodies path bodies) (fun _ => True).
Proof.
  induction bodies as [|b bodies IH]; simpl; [by apply io_holds_ret|]. io_walk. exact IH.
Qed.

Lemma body_length_Some total bodies n :
  0 <= total -> body_length total bodies = Some n -> n <= umax 64 ->
  len (concat bodies) <= umax 64 -> n = total + len (concat bodies).
Proof.
  revert total. induction bodies as [|b bodies IH]; intros total Ht; simpl.
  { intros [= <-] _ _. unfold len; simpl. lia. }
  rewrite len_app. pose proof (len_nonneg b). pose proof (len_nonneg (concat bodies)).
  intros Hn Hm Hl. rewrite clamp_id in Hn by lia. unfold checked_add in Hn.
  destruct (_ <=? _); [|done]. apply IH in Hn; lia.
Qed.

Lemma write_block_holds path t bodies :
  len (concat bodies) <= umax 64 ->
  io_holds (write_block path t bodies) (fun n => n = 12 + len (concat bodies)).
Proof.
  intros Hl. unfold write_block. destruct (body_length 0 bodies) as [n|] eqn:Hn; [|io_walk].
  destruct (checked_add 64 n 12) as [total|] eqn:Ht; [|io_walk].
  destruct (_ <? _); [io_walk|]. apply checked_add_Some in Ht.
  apply body_length_Some in Hn; [|lia..]. io_walk.
  eapply io_holds_bind; [apply write_bodies_holds|intros [] _]. io_walk. apply io_holds_ret. lia.
Qed.

Lemma write_file_header_holds path f m name :
  io_holds (write_file_header path f m name) (fun n => 0 <= n).
Proof.
  destruct f; cbn [write_file_header].
  - unfold write_pcapng_header. eapply io_holds_bind; [by apply write_block_holds|].
    intros _ _. pose proof (interface_body_len (snaplen m) name) as Hb.
    eapply io_holds_bind; [apply (write_block_holds _ _ [interface_body (snaplen m) name])|].
    + cbn [concat]. rewrite app_nil_r. change (umax 64) with 18446744073709551615. lia.
    + intros n ->. apply io_holds_ret. pose proof (len_nonneg (concat [interface_body (snaplen m) name])).
      lia.
  - unfold write_pcap_header. io_walk. by apply io_holds_ret.
Qed.

Lemma write_format_record_holds path f r :
  record_ok r ->
  io_holds (write_format_record path f r) (fun n =>
    0 <= n <= record_encoded_length f (len (rec_bytes r))).
Proof.
  intros Hr. pose proof (record_bytes_estimate f r Hr) as He. pose proof (len_nonneg (record_bytes f r)).
  destruct Hr as (Ht&Hw&Hq&Hb&Hl). pose proof (len_nonneg (rec_bytes r)).
  destruct f; cbn [write_format_record record_bytes] in *.
  - rewrite block_bytes_len in *. unfold write_pcapng_record. intros w.
    eapply holds_weaken; [apply write_block_holds|]; cbn [concat]; rewrite app_nil_r.
    + rewrite record_encoded_length_spec in He by lia. unfold pad4 in He.
      change (umax 64) with 18446744073709551615. change (umax 32) with 4294967295 in *. lia.
    + intros n ->. lia.
  - unfold write_pcap_record. io_walk. apply io_holds_ret.
    rewrite record_encoded_length_spec by lia. rewrite clamp_id by lia.
    unfold PCAP_RECORD_HEADER_LENGTH. lia.
Qed.

(** What the rotation policy promises about the writer's own state. *)
Definition writer_bounded (w : RotatingCaptureWriter) : Prop :=
  1 <= file_count (rotation w) /\ len (retained_files w) <= file_count (rotation w) /\
  0 <= current_bytes w /\ 0 <= records_in_current w /\
  (forall limit, maximum_bytes (rotation w) = Some limit ->
     current_bytes w <= limit \/ records_in_current w <= 1).

(** A method that returns normally, with [Q] of the writer and the result. *)
Definition writer_holds {A} (m : Writer A) (Q : RotatingCaptureWriter -> outcome IoError A -> Prop)
    : Prop :=
  forall d, exists d' w r, m d = (d', Ok (w, r)) /\ r <> Panic /\ Q w r.

Lemma writer_holds_ret {A} w (r : outcome IoError A) (Q : RotatingCaptureWriter -> _ -> Prop) :
  r <> Panic -> Q w r -> writer_holds (io_ret (w, r)) Q.
Proof. intros Hr HQ d. by eexists _, _, _. Qed.

Lemma on_disk_holds {A B} w (m : IO A) (k : A -> Writer B) P Q :
  io_holds m P -> (forall e, Q w (Err e)) -> (forall a, P a -> writer_holds (k a) Q) ->
  writer_holds (on_disk w m k) Q.
Proof.
  intros Hm Hw Hk d. unfold on_disk. specialize (Hm d). destruct (m d) as [d' [a|e|]]; simpl in *.
  - by apply Hk.
  - eexists _, _, _. by split_and!.
  - done.
Qed.

(** The result of a rotation started at [w0]. *)
Definition rotated {A} w0 w (r : outcome IoError A) : Prop :=
  writer_bounded w /\ rotation w = rotation w0 /\ format w = format w0 /\
  (forall a, r = Ok a -> records_in_current w = 0).

Lemma expire_files_bounded w fs :
  1 <= file_count (rotation w) -> 0 <= current_bytes w -> records_in_current w = 0 ->
  len fs <= file_count (rotation w) + 1 ->
  writer_holds (expire_files w fs) (rotated w).
Proof.
  intros Hc Hb H0 Hl.
  assert (Hrot : forall fs' (r : outcome IoError unit), len fs' <= file_count (rotation w) ->
    rotated w (with_retained w fs') r).
  { intros fs' r Hf. unfold rotated, writer_bounded; simpl. rewrite H0.
    split_and!; try done; intros; lia. }
  destruct fs as [|expired fs]; cbn [expire_files]; simpl rotation;
    destruct (Z.leb_spec (len (expired :: fs)) (file_count (rotation w))) as [H|H] || idtac.
  - rewrite (proj2 (Z.leb_le _ _)) by (unfold len; simpl; lia).
    apply writer_holds_ret; [done|]. apply Hrot. unfold len; simpl; lia.
  - apply writer_holds_ret; [done|]. by apply Hrot.
  - assert (Hfs : len fs <= file_count (rotation w)) by (unfold len in *; simpl in *; lia).
    eapply on_disk_holds; [apply io_holds_syscall|intros; by apply Hrot|]. intros [] _.
    destruct fs as [|f fs]; cbn [expire_files]; simpl rotation;
      rewrite (proj2 (Z.leb_le _ _)) by (unfold len in *; simpl in *; lia);
      (apply writer_holds_ret; [done|]); by apply Hrot.
Qed.

Lemma rotate_bounded w now : writer_bounded w -> writer_holds (rotate w now) (rotated w).
Proof.
  intros (Hc&Hl&Hb&Hr&Hlim). unfold rotate.
  eapply on_disk_holds; [by apply (io_holds_ret tt (fun _ => True))|done|intros [] _].
  set (w1 := with_generation w _).
  assert (Herr : forall e : IoError, rotated (A := unit) w w1 (Err e)).
  { intros e. unfold rotated, writer_bounded. simpl. by split_and!. }
  eapply on_disk_holds; [apply io_holds_syscall|done|intros [] _].
  eapply on_disk_holds; [apply write_file_header_holds|done|intros n Hn].
  set (w2 := with_current w1 _ n now).
  apply (expire_files_bounded w2); simpl; try done.
  rewrite len_app. change (len [_]) with 1. lia.
Qed.

Lemma append_record_bounded w r :
  writer_bounded w -> record_ok r ->
  (forall limit, maximum_bytes (rotation w) = Some limit -> 0 < records_in_current w ->
    sat_add 64 (current_bytes w) (record_encoded_length (format w) (len (rec_bytes r))) <= limit) ->
  writer_holds (append_record w r) (fun w' _ => writer_bounded w').
Proof.
  intros Hw Hr Hroom. unfold append_record.
  eapply on_disk_holds; [by apply write_format_record_holds|done|]. intros n Hn.
  apply writer_holds_ret; [done|]. destruct Hw as (Hc&Hl&Hb&H0&Hlim).
  unfold writer_bounded; simpl; unfold sat_add in *. assert (0 <= umax 64) by done.
  split_and!; [done|done|lia|lia|]. intros limit Hm. specialize (Hroom limit Hm).
  destruct (decide (0 < records_in_current w)); [left|right]; lia.
Qed.

Lemma write_record_bounded w r checked opened :
  writer_bounded w -> record_ok r ->
  writer_holds (write_record w r checked opened) (fun w' _ => writer_bounded w').
Proof.
  intros Hw Hr d. unfold write_record.
  destruct (should_rotate w _ checked) eqn:Hs.
  - destruct (rotate_bounded w opened Hw d) as (d1&w1&res&->&Hp&(Hw1&Hrot&Hfmt&H0)).
    destruct res as [[]|e|]; [| |done].
    + apply append_record_bounded; [done|done|]. intros. rewrite (H0 tt) in * by done. lia.
    + eexists _, _, _. by split_and!.
  - apply append_record_bounded; [done|done|]. intros limit Hm Hpos.
    unfold should_rotate in Hs. rewrite Hm in Hs. apply orb_false_iff in Hs as [Hs _]. lia.
Qed.

(** ** What is on the disk, without faults. *)

Definition path_of (w : RotatingCaptureWriter) (g : Z) : string :=
  capture_path (directory w) (prefix w) (format w) g.

(** The file that holds the records [rs]. *)
Definition file_bytes (w : RotatingCaptureWriter) (rs : list CaptureRecord) : bytes :=
  header_bytes (format w) (writer_mode w) (interface_name w) ++
  concat (record_bytes (format w) <$> rs).

(** The oldest generation that [n] generations leave on disk. *)
Definition oldest (w : RotatingCaptureWriter) (n : Z) : Z := Z.max 0 (n - file_count (rotation w)).

(** Generation [i] received the records [runs !! i]; the last one is current. *)
Record disk_inv (w : RotatingCaptureWriter) (disk0 : gmap string bytes)
    (old : list (list CaptureRecord)) (cur : list CaptureRecord) (d : World) : Prop := {
  di_faults : faults d = [];
  di_count : 1 <= file_count (rotation w);
  di_generation : generation w = len old;
  di_retained : retained_files w =
    path_of w <$> seqZ (oldest w (len old + 1)) (len old + 1 - oldest w (len old + 1));
  di_current : current w = path_of w (len old);
  di_current_bytes : current_bytes w = Z.min (len (file_bytes w cur)) (umax 64);
  di_records : records_in_current w = Z.min (len cur) (umax 64);
  di_files : forall g rs, (old ++ [cur]) !! g = Some rs ->
    files d !! path_of w (Z.of_nat g) =
      if Z.of_nat g <? oldest w (len old + 1) then None else Some (file_bytes w rs);
  di_others : forall p, (forall g, 0 <= g <= len old -> p <> path_of w g) ->
    files d !! p = disk0 !! p;
}.

Lemma path_of_ne w g h : uint 64 g -> uint 64 h -> g <> h -> path_of w g <> path_of w h.
Proof. intros ?? Hne He. by apply capture_path_inj in He. Qed.

Lemma file_bytes_snoc w rs r : file_bytes w (rs ++ [r]) = file_bytes w rs ++ record_bytes (format w) r.
Proof. unfold file_bytes. rewrite fmap_app, concat_app. simpl. by rewrite app_nil_r, app_assoc. Qed.

Lemma append_record_disk w disk0 old cur d r :
  disk_inv w disk0 old cur d -> record_ok r -> len old <= umax 64 ->
  exists d', append_record w r d = (d', Ok (with_written w (len (record_bytes (format w) r)), Ok tt)) /\
    disk_inv (with_written w (len (record_bytes (format w) r))) disk0 old (cur ++ [r]) d'.
Proof.
  intros [Hf Hc Hg Hret Hcur Hcb Hrec Hfiles Hoth] Hr Hlen.
  assert (Hlast : files d !! current w = Some (file_bytes w cur)).
  { rewrite Hcur. specialize (Hfiles (length old) cur). unfold len. rewrite Hfiles.
    - rewrite (proj2 (Z.ltb_ge _ _)); [done|]. unfold oldest, len. lia.
    - by rewrite lookup_app_r, Nat.sub_diag. }
  eexists. split.
  { unfold append_record, on_disk. rewrite (write_format_record_appends (current w) (format w) r Hr);
      [reflexivity|done|by rewrite Hlast]. }
  pose proof (len_nonneg (record_bytes (format w) r)). pose proof (len_nonneg old).
  constructor; simpl; try done.
  - rewrite Hcb. change (file_bytes (with_written _ _) (cur ++ [r])) with (file_bytes w (cur ++ [r])).
    rewrite file_bytes_snoc, len_app. unfold sat_add. lia.
  - rewrite Hrec, len_app. change (len [r]) with 1. unfold sat_add. lia.
  - intros g rs Hrs. change (path_of (with_written _ _)) with (path_of w).
    change (oldest (with_written _ _)) with (oldest w).
    change (file_bytes (with_written _ _)) with (file_bytes w).
    unfold append_to. rewrite Hlast. simpl.
    destruct (decide (g = length old)) as [->|Hne].
    + rewrite lookup_app_r, Nat.sub_diag in Hrs by lia. injection Hrs as <-.
      rewrite Hcur. change (Z.of_nat (length old)) with (len old). rewrite lookup_insert_eq.
      rewrite (proj2 (Z.ltb_ge _ _)) by (unfold oldest; lia). by rewrite file_bytes_snoc.
    + assert (Hlt : (g < length old)%nat).
      { apply lookup_lt_Some in Hrs. rewrite length_app in Hrs. simpl in Hrs. lia. }
      rewrite lookup_insert_ne.
      * apply Hfiles. rewrite lookup_app_l in Hrs |- * by lia. done.
      * rewrite Hcur. apply path_of_ne; unfold uint, len in *; lia.
  - intros p Hp. unfold append_to. rewrite lookup_insert_ne; [by apply Hoth|].
    rewrite Hcur. intros <-. eapply Hp; [|reflexivity]. lia.
Qed.

(** What a rotation keeps of the writer's configuration. *)
Definition same_policy (w w' : RotatingCaptureWriter) : Prop :=
  directory w' = directory w /\ prefix w' = prefix w /\ format w' = format w /\
  writer_mode w' = writer_mode w /\ interface_name w' = interface_name w /\
  rotation w' = rotation w.

Lemma seqZ_snoc a n : 0 <= n -> seqZ a (n + 1) = seqZ a n ++ [a + n].
Proof. intros. rewrite seqZ_app by lia. f_equal. Qed.

Lemma on_disk_ok {A B} w (m : IO A) (k : A -> Writer B) a d d' :
  m d = (d', Ok a) -> on_disk w m k d = k a d'.
Proof. intros H. unfold on_disk. by rewrite H. Qed.

Lemma expire_files_stop w fs d :
  len fs <= file_count (rotation w) -> expire_files w fs d = (d, Ok (with_retained w fs, Ok tt)).
Proof.
  intros. destruct fs; cbn [expire_files]; simpl rotation; by rewrite (proj2 (Z.leb_le _ _)) by done.
Qed.

(** The retained files after one more generation: the oldest one goes when
    the policy's count is exceeded. *)
Lemma expire_files_disk w n d :
  faults d = [] -> 1 <= file_count (rotation w) -> 1 <= n ->
  let fs := (path_of w <$> seqZ (oldest w n) (n - oldest w n)) ++ [path_of w n] in
  let d' := if oldest w (n + 1) =? oldest w n then d
            else with_files d (delete (path_of w (oldest w n)) (files d)) in
  exists fs', expire_files w fs d = (d', Ok (with_retained w fs', Ok tt)) /\
    fs' = path_of w <$> seqZ (oldest w (n + 1)) (n + 1 - oldest w (n + 1)).
Proof.
  intros Hf Hc Hn fs d'.
  assert (Hfs : fs = path_of w <$> seqZ (oldest w n) (n + 1 - oldest w n)).
  { unfold fs. replace (n + 1 - oldest w n) with ((n - oldest w n) + 1) by lia.
    rewrite seqZ_snoc by (unfold oldest; lia). rewrite fmap_app. simpl.
    by replace (oldest w n + (n - oldest w n)) with n by lia. }
  assert (Hlen : forall a b, 0 <= b -> len (path_of w <$> seqZ a b) = b).
  { intros. unfold len. rewrite length_fmap, length_seqZ. lia. }
  rewrite Hfs. subst d'. destruct (Z.eqb_spec (oldest w (n + 1)) (oldest w n)) as [He|He].
  - eexists. split; [apply expire_files_stop; rewrite Hlen; unfold oldest in *; lia|by rewrite He].
  - assert (oldest w (n + 1) = oldest w n + 1) as Hs by (unfold oldest in *; lia).
    rewrite (seqZ_cons (oldest w n)) by (unfold oldest in *; lia). rewrite fmap_cons.
    cbn [expire_files]. simpl rotation.
    rewrite (proj2 (Z.leb_gt _ _)).
    2: { pose proof (Hlen (oldest w n + 1) (n - oldest w n) ltac:(unfold oldest; lia)) as Hl'.
         unfold len in *. simpl. replace (Z.pred (n + 1 - oldest w n)) with (n - oldest w n) by lia.
         rewrite <- Z.add_1_r. unfold oldest in *. lia. }
    unfold remove_file. rewrite (on_disk_ok _ _ _ tt d _ (syscall_ok _ _ Hf)).
    rewrite Hs. replace (n + 1 - (oldest w n + 1)) with (n - oldest w n) by lia.
    replace (Z.pred (n + 1 - oldest w n)) with (n - oldest w n) by lia.
    rewrite Z.add_1_r. eexists. split; [|reflexivity].
    rewrite expire_files_stop; [done|]. simpl. rewrite Hlen; unfold oldest in *; lia.
Qed.

(** The files after a rotation to generation [n]: a fresh one, and one
    possibly gone. *)
Definition rotated_files (w : RotatingCaptureWriter) (n : Z) (m : gmap string bytes)
    : gmap string bytes :=
  let m := <[path_of w n := file_bytes w []]> m in
  if oldest w (n + 1) =? oldest w n then m else delete (path_of w (oldest w n)) m.

Lemma rotated_files_lookup w n m g rs (runs : list (list CaptureRecord)) :
  1 <= file_count (rotation w) -> len runs = n -> 1 <= n <= umax 64 ->
  (forall g rs, runs !! g = Some rs -> m !! path_of w (Z.of_nat g) =
     if Z.of_nat g <? oldest w n then None else Some (file_bytes w rs)) ->
  (runs ++ [[]]) !! g = Some rs ->
  rotated_files w n m !! path_of w (Z.of_nat g) =
    if Z.of_nat g <? oldest w (n + 1) then None else Some (file_bytes w rs).
Proof.
  intros Hc Hlen Hn Hm Hrs. unfold rotated_files. unfold len in Hlen.
  assert (Hb : 0 <= oldest w n < n) by (unfold oldest; lia).
  destruct (decide (g = length runs)) as [->|Hne].
  - rewrite lookup_app_r, Nat.sub_diag in Hrs by lia. injection Hrs as <-. rewrite Hlen.
    rewrite (proj2 (Z.ltb_ge _ _)) by (unfold oldest; lia).
    destruct (_ =? _); [by rewrite lookup_insert_eq|].
    rewrite lookup_delete_ne by (apply path_of_ne; unfold uint; lia). by rewrite lookup_insert_eq.
  - assert (Hlt : (g < length runs)%nat).
    { apply lookup_lt_Some in Hrs. rewrite length_app in Hrs. simpl in Hrs. lia. }
    rewrite lookup_app_l in Hrs by lia. specialize (Hm g rs Hrs).
    assert (Hpn : path_of w n <> path_of w (Z.of_nat g)) by (apply path_of_ne; unfold uint; lia).
    destruct (Z.eqb_spec (oldest w (n + 1)) (oldest w n)) as [->|Ho].
    { rewrite lookup_insert_ne by done. exact Hm. }
    assert (oldest w (n + 1) = oldest w n + 1) as -> by (unfold oldest in *; lia).
    destruct (decide (Z.of_nat g = oldest w n)) as [->|Hgo].
    + rewrite lookup_delete_eq, (proj2 (Z.ltb_lt _ _)) by lia. done.
    + rewrite lookup_delete_ne by (apply path_of_ne; unfold uint; lia).
      rewrite lookup_insert_ne by done. rewrite Hm.
      destruct (Z.ltb_spec (Z.of_nat g) (oldest w n)), (Z.ltb_spec (Z.of_nat g) (oldest w n + 1));
        done || lia.
Qed.

Lemma rotated_files_others w n m p :
  1 <= file_count (rotation w) -> 1 <= n -> (forall g, 0 <= g <= n -> p <> path_of w g) ->
  rotated_files w n m !! p = m !! p.
Proof.
  intros Hc Hn Hp. unfold rotated_files.
  destruct (_ =? _); rewrite ?lookup_delete_ne; rewrite ?lookup_insert_ne; try done;
    intros He; eapply Hp; try (by symmetry); unfold oldest; lia.
Qed.

Lemma rotate_disk w disk0 old cur d now :
  disk_inv w disk0 old cur d -> len old + 1 <= umax 64 ->
  exists d' w', rotate w now d = (d', Ok (w', Ok tt)) /\ same_policy w w' /\
    disk_inv w' disk0 (old ++ [cur]) [] d'.
Proof.
  intros [Hf Hc Hg Hret Hcur Hcb Hrec Hfiles Hoth] Hlen. pose proof (len_nonneg old).
  set (n := len old + 1) in *.
  unfold rotate. rewrite (on_disk_ok _ _ _ tt d d) by done. cbv zeta. simpl generation.
  rewrite Hg. assert (wrap 64 (len old + 1) = n) as ->.
  { unfold wrap, umax in *. apply Z.mod_small. lia. }
  set (w1 := with_generation w n). change (capture_path _ _ _ n) with (path_of w n).
  unfold file_create. rewrite (on_disk_ok _ _ _ tt d _ (syscall_ok _ _ Hf)).
  erewrite on_disk_ok by (apply write_file_header_appends;
    [done|simpl; rewrite lookup_insert_eq; eauto]).
  set (w2 := with_current _ _ _ _). set (d1 := with_files _ _).
  assert (Hd1 : files d1 = <[path_of w n := file_bytes w []]> (files d)).
  { unfold d1, append_to. simpl. rewrite lookup_insert_eq. simpl. rewrite insert_insert_eq.
    unfold file_bytes. simpl. by rewrite app_nil_r. }
  destruct (expire_files_disk w2 n d1) as (fs'&Hexp&Hfs'); [done|done|lia|].
  change (retained_files w2) with (retained_files w). rewrite Hret.
  change (path_of w) with (path_of w2). change (oldest w) with (oldest w2).
  rewrite Hexp. eexists _, _. split; [reflexivity|]. split; [done|].
  set (d2 := if oldest w2 (n + 1) =? oldest w2 n then d1 else _).
  assert (Hd2 : files d2 = rotated_files w n (files d) /\ faults d2 = []).
  { unfold d2, rotated_files. change (oldest w2) with (oldest w). rewrite <- Hd1.
    by destruct (_ =? _). }
  destruct Hd2 as [Hd2 Hf2].
  assert (Hn : len (old ++ [cur]) = n) by (rewrite len_app; reflexivity).
  constructor; rewrite ?Hn; try done; simpl.
  - unfold file_bytes. simpl. rewrite app_nil_r.
    pose proof (header_bytes_len (format w) (writer_mode w) (interface_name w)).
    change (umax 64) with 18446744073709551615. lia.
  - intros g rs Hrs. rewrite Hd2. apply (rotated_files_lookup w n _ g rs (old ++ [cur])); try done; lia.
  - intros p Hp. rewrite Hd2, rotated_files_others by (done || lia). apply Hoth.
    intros g Hg'. apply Hp. lia.
Qed.

(** ** The writer thread. *)

(** A queued record with the clock readings made while it is written. *)
Record TimedRecord := {
  timed : CaptureRecord;
  checked_at : Z;
  reopened_at : Z;
}.

(** The loop of the capture writer thread: write until the channel closes or
    an operation fails, and flush at the end. *)
Fixpoint write_records (w : RotatingCaptureWriter) (inputs : list TimedRecord) : Writer unit :=
  match inputs with
  | [] => flush w
  | i :: inputs => fun d =>
      match write_record w (timed i) (checked_at i) (reopened_at i) d with
      | (d, Ok (w, Ok _)) => write_records w inputs d
      | o => o
      end
  end.

Lemma write_records_bounded w inputs :
  writer_bounded w -> Forall (fun i => record_ok (timed i)) inputs ->
  writer_holds (write_records w inputs) (fun w' _ => writer_bounded w').
Proof.
  intros Hw Hall. revert w Hw. induction Hall as [|i inputs Hi _ IH]; intros w Hw; simpl.
  { by apply writer_holds_ret. }
  intros d. destruct (write_record_bounded w (timed i) (checked_at i) (reopened_at i) Hw Hi d)
    as (d1&w1&r&->&Hr&Hw1).
  destruct r as [[]|e|]; [by apply IH|by eexists _, _, _|done].
Qed.

(** No file outgrows the size limit, except by its first record. *)
Definition runs_within (w : RotatingCaptureWriter) (runs : list (list CaptureRecord)) : Prop :=
  forall limit, maximum_bytes (rotation w) = Some limit -> limit < umax 64 ->
    Forall (fun rs => len (file_bytes w rs) <= limit \/ len rs <= 1) runs.

Lemma current_run_within w disk0 old cur d :
  disk_inv w disk0 old cur d -> writer_bounded w -> runs_within w old -> runs_within w (old ++ [cur]).
Proof.
  intros Hd (_&_&_&_&Hlim) Ho limit Hm Hl. apply Forall_app. split; [by apply Ho|].
  apply Forall_singleton. specialize (Hlim limit Hm).
  rewrite (di_current_bytes _ _ _ _ _ Hd), (di_records _ _ _ _ _ Hd) in Hlim.
  assert (1 < umax 64) by done. lia.
Qed.

Lemma same_policy_within w w' runs : same_policy w w' -> runs_within w runs -> runs_within w' runs.
Proof.
  intros (_&_&Hf&Hm&Hi&Hr) H limit. rewrite Hr. intros Hl Hlt. specialize (H limit Hl Hlt).
  unfold file_bytes in *. by rewrite Hf, Hm, Hi.
Qed.

(** The writer after one record. *)
Lemma write_record_disk w disk0 old cur d i :
  disk_inv w disk0 old cur d -> writer_bounded w -> runs_within w old ->
  record_ok (timed i) -> len old + 1 <= umax 64 ->
  exists d' w' old' cur',
    write_record w (timed i) (checked_at i) (reopened_at i) d = (d', Ok (w', Ok tt)) /\
    same_policy w w' /\ disk_inv w' disk0 old' cur' d' /\ runs_within w' old' /\
    concat (old' ++ [cur']) = concat (old ++ [cur]) ++ [timed i] /\ len old' <= len old + 1 /\
    cur' <> [].
Proof.
  intros Hd Hw Hin Hr Hlen. unfold write_record. destruct (should_rotate _ _ _).
  - destruct (rotate_disk w disk0 old cur d (reopened_at i) Hd Hlen) as (d1&w1&->&Hp&Hd1).
    assert (Hn : len (old ++ [cur]) = len old + 1) by (rewrite len_app; reflexivity).
    destruct (append_record_disk w1 disk0 _ [] d1 (timed i) Hd1 Hr) as (d2&->&Hd2); [lia|].
    eexists _, _, _, _. split; [reflexivity|]. split; [exact Hp|]. split; [exact Hd2|].
    split_and!.
    + apply (same_policy_within w); [exact Hp|]. by eapply current_run_within.
    + simpl. by rewrite (concat_app (old ++ [cur])).
    + lia.
    + done.
  - destruct (append_record_disk w disk0 old cur d (timed i) Hd Hr) as (d2&->&Hd2); [lia|].
    eexists _, _, _, _. split; [reflexivity|]. split; [done|]. split; [exact Hd2|].
    split_and!; [done| |lia|by destruct cur].
    rewrite !concat_app. simpl. by rewrite !app_nil_r, app_assoc.
Qed.

Lemma write_records_disk w disk0 old cur d inputs :
  disk_inv w disk0 old cur d -> writer_bounded w -> runs_within w old ->
  Forall (fun i => record_ok (timed i)) inputs -> len old + len inputs <= umax 64 ->
  exists d' w' old' cur',
    write_records w inputs d = (d', Ok (w', Ok tt)) /\ same_policy w w' /\
    disk_inv w' disk0 old' cur' d' /\ runs_within w' (old' ++ [cur']) /\
    concat (old' ++ [cur']) = concat (old ++ [cur]) ++ (timed <$> inputs) /\
    len old' <= len old + len inputs /\ (cur <> [] \/ inputs <> [] -> cur' <> []).
Proof.
  intros Hd Hw Hin Hall. revert w old cur d Hd Hw Hin.
  induction Hall as [|i inputs Hi _ IH]; intros w old cur d Hd Hw Hin Hlen.
  { eexists _, _, _, _. split; [reflexivity|]. split; [done|]. split; [exact Hd|].
    split; [by eapply current_run_within|]. split; [by rewrite app_nil_r|].
    split; [unfold len; simpl; lia|]. by intros [?|?]. }
  pose proof (len_nonneg inputs). pose proof (len_nonneg old).
  assert (len (i :: inputs) = len inputs + 1) by (unfold len; simpl; lia).
  destruct (write_record_disk w disk0 old cur d i Hd Hw Hin Hi ltac:(lia))
    as (d1&w1&old1&cur1&Hrun&Hp&Hd1&Hin1&Hc1&Hl1&Hne1).
  destruct (write_record_bounded w (timed i) (checked_at i) (reopened_at i) Hw Hi d)
    as (d1'&w1'&r&Hrun'&_&Hw1). rewrite Hrun in Hrun'. injection Hrun' as <- <- <-.
  destruct (IH w1 old1 cur1 d1 Hd1 Hw1 Hin1 ltac:(lia)) as (d2&w2&old2&cur2&Hrec&Hp2&Hd2&Hin2&Hc2&Hl2&Hne2).
  eexists d2, w2, old2, cur2. simpl. rewrite Hrun. split; [exact Hrec|].
  split; [unfold same_policy in *; intuition congruence|]. split; [done|]. split; [done|].
  split; [rewrite Hc2, Hc1; by rewrite <- app_assoc|]. split; [lia|]. intros _. apply Hne2. by left.
Qed.

(** Creating the writer and draining the queue through it. *)
Definition capture_session (dir pre : string) (f : CaptureFormat) (m : CaptureMode) (name : string)
    (rot : CaptureRotation) (now : Z) (inputs : list TimedRecord) : Writer unit :=
  do? w <- create dir pre f m name rot now in write_records w inputs.

Lemma create_holds dir pre f m name rot now :
  0 <= file_count rot ->
  io_holds (create dir pre f m name rot now) (fun w => writer_bounded w /\ rotation w = rot).
Proof.
  intros Hc. unfold create. destruct (Z.eqb_spec (file_count rot) 0); simpl; [apply io_holds_err|].
  destruct (bool_decide _); [apply io_holds_err|]. unfold create_dir_all, file_create. io_walk.
  eapply io_holds_bind; [apply write_file_header_holds|]. intros n0 Hn. apply io_holds_ret.
  split; [|done]. unfold writer_bounded; simpl. unfold len; simpl.
  simpl in Hn. split_and!; intros; lia.
Qed.

Lemma create_disk dir pre f m name rot now disk0 :
  1 <= file_count rot -> maximum_bytes rot <> Some 0 ->
  exists w d, create dir pre f m name rot now {| files := disk0; faults := [] |} = (d, Ok w) /\
    disk_inv w disk0 [] [] d /\ writer_bounded w /\
    (directory w, prefix w, format w, writer_mode w, interface_name w, rotation w) =
      (dir, pre, f, m, name, rot).
Proof.
  intros Hc Hm.
  pose proof (create_holds dir pre f m name rot now ltac:(lia) {| files := disk0; faults := [] |}) as Hb.
  eassert (Hrun : create dir pre f m name rot now {| files := disk0; faults := [] |} = (_, Ok _)).
  { unfold create. rewrite (proj2 (Z.eqb_neq _ _)) by lia. simpl orb.
    rewrite bool_decide_eq_false_2 by done. unfold create_dir_all, file_create. cbv iota zeta beta delta [orb].
    do 2 (erewrite io_bind_ok by by apply syscall_ok).
    erewrite io_bind_ok by (apply write_file_header_appends;
      [done|simpl; rewrite lookup_insert_eq; eauto]). reflexivity. }
  rewrite Hrun in Hb. eexists _, _. split; [exact Hrun|]. split; [|split; [apply Hb|reflexivity]].
  pose proof (header_bytes_len f m name). change (umax 64) with 18446744073709551615.
  assert (Hfb : forall w, format w = f -> writer_mode w = m -> interface_name w = name ->
    file_bytes w [] = header_bytes f m name).
  { intros w <- <- <-. unfold file_bytes. simpl. apply app_nil_r. }
  assert (Hold : forall w, rotation w = rot -> oldest w (len (@nil (list CaptureRecord)) + 1) = 0).
  { intros w Hr. unfold oldest, len. rewrite Hr. cbn [length]. lia. }
  constructor; rewrite ?Hold by done; try done.
  - cbn [current_bytes]. rewrite Hfb by done. change (umax 64) with 18446744073709551615. lia.
  - intros [|g] rs Hrs; [|done]. injection Hrs as <-. rewrite Hfb by done. cbn [files with_files].
    unfold append_to, path_of. simpl. rewrite !lookup_insert_eq. done.
  - intros p Hp. cbn [files with_files]. unfold append_to, id. rewrite !lookup_insert_ne; [done|..];
      intros <-; (eapply Hp; [|reflexivity]); unfold len; simpl; lia.
Qed.

(** Whatever system calls fail and whenever rotation triggers, the capture
    writer never panics, never keeps more files than the policy allows, and
    the current file never passes the size limit by more than its first record. *)
Theorem capture_policy_enforced dir pre f m name rot now inputs d :
  0 <= file_count rot -> Forall (fun i => record_ok (timed i)) inputs ->
  match (capture_session dir pre f m name rot now inputs d).2 with
  | Ok (w, r) => r <> Panic /\ len (retained_files w) <= file_count (rotation w) /\
      (forall limit, maximum_bytes (rotation w) = Some limit ->
         current_bytes w <= limit \/ records_in_current w <= 1)
  | Err _ => True
  | Panic => False
  end.
Proof.
  intros Hc Hall. unfold capture_session, io_bind.
  pose proof (create_holds dir pre f m name rot now Hc d) as Hw.
  destruct (create _ _ _ _ _ _ _ d) as [d1 [w|e|]]; simpl in *; [|done|done].
  destruct (write_records_bounded w inputs (proj1 Hw) Hall d1) as (d2&w2&r&->&Hr&(?&?&?&?&?)).
  simpl. by split_and!.
Qed.

Definition sample_rotation : CaptureRotation :=
  {| maximum_bytes := Some 150; maximum_duration := None; file_count := 1 |}.

Definition sample_record (t : Z) : TimedRecord :=
  {| timed := {| rec_timestamp_nanoseconds := t; rec_wire_length := 60; rec_queue_id := 7;
                 rec_bytes := [1; 2; 3] |};
     checked_at := t; reopened_at := t |}.

Lemma sample_record_ok t : uint 64 t -> record_ok (timed (sample_record t)).
Proof.
  intros Ht. unfold record_ok, uint, umax, len. cbn. unfold bytes_ok.
  split; [exact Ht|]. split; [lia|]. split; [lia|]. split; [|lia].
  repeat constructor; lia.
Defined.

Lemma capture_policy_enforced_witness :
  match (capture_session "d" "c" PcapNg FullPacket "eth0" sample_rotation 0
           [sample_record 1; sample_record 2]
           {| files := ∅; faults := repeat None 14 ++ [Some 3%nat] |}).2 with
  | Ok (w, r) => r <> Panic /\ len (retained_files w) <= file_count (rotation w) /\
      (forall limit, maximum_bytes (rotation w) = Some limit ->
         current_bytes w <= limit \/ records_in_current w <= 1)
  | Err _ => True
  | Panic => False
  end.
Proof.
  apply (capture_policy_enforced "d" "c" PcapNg FullPacket "eth0" sample_rotation 0
    [sample_record 1; sample_record 2] {| files := ∅; faults := repeat None 14 ++ [Some 3%nat] |}).
  - cbn. lia.
  - repeat constructor; apply sample_record_ok; unfold uint, umax; lia.
Defined.

(** On a healthy disk the capture is complete and in order: the records
    fill consecutive generations; each of the newest [file_count] generations
    is on disk as its header followed by the encodings of its records, older
    ones are deleted, every other file is untouched, [retained_files] lists
    exactly what is kept, and no file passes the size limit except by its first
    record. A rotation is followed by a record: there is at most one file more
    than there are records, and the newest one is not empty. *)
Theorem capture_disk_contents dir pre f m name rot now inputs disk0 :
  1 <= file_count rot -> maximum_bytes rot <> Some 0 ->
  Forall (fun i => record_ok (timed i)) inputs -> len inputs <= umax 64 ->
  exists d w runs,
    capture_session dir pre f m name rot now inputs {| files := disk0; faults := [] |} =
      (d, Ok (w, Ok tt)) /\
    concat runs = timed <$> inputs /\
    len runs <= len inputs + 1 /\ (inputs <> [] -> default [] (last runs) <> []) /\
    let path g := capture_path dir pre f g in
    let contents rs := header_bytes f m name ++ concat (record_bytes f <$> rs) in
    let first := Z.max 0 (len runs - file_count rot) in
    (forall g rs, runs !! g = Some rs ->
       files d !! path (Z.of_nat g) = (if Z.of_nat g <? first then None else Some (contents rs)) /\
       (forall limit, maximum_bytes rot = Some limit -> limit < umax 64 ->
          len (contents rs) <= limit \/ len rs <= 1)) /\
    (forall p, (forall g, 0 <= g < len runs -> p <> path g) -> files d !! p = disk0 !! p) /\
    retained_files w = path <$> seqZ first (len runs - first).
Proof.
  intros Hc Hm Hall Hlen. unfold capture_session, io_bind.
  destruct (create_disk dir pre f m name rot now disk0 Hc Hm) as (w&d&->&Hd&Hw&Heq).
  assert (Hin : runs_within w []) by (intros ???; constructor).
  destruct (write_records_disk w disk0 [] [] d inputs Hd Hw Hin Hall ltac:(unfold len in *; simpl; lia))
    as (d'&w'&old&cur&->&Hp&Hd'&Hin'&Hcat&Hl'&Hne').
  exists d', w', (old ++ [cur]). split; [done|]. split; [by rewrite Hcat|].
  split; [rewrite len_app; change (len (@nil (list CaptureRecord))) with 0 in Hl'; change (len [cur]) with 1; lia|].
  split; [rewrite last_snoc; auto|].
  destruct Hp as (Hp1&Hp2&Hp3&Hp4&Hp5&Hp6). injection Heq as E1 E2 E3 E4 E5 E6.
  rewrite E1 in Hp1. rewrite E2 in Hp2. rewrite E3 in Hp3. rewrite E4 in Hp4. rewrite E5 in Hp5.
  rewrite E6 in Hp6. clear E1 E2 E3 E4 E5 E6.
  destruct Hd' as [_ _ _ Hret _ _ _ Hfiles Hoth].
  unfold runs_within, path_of, oldest, file_bytes in *.
  rewrite Hp1, Hp2, Hp3, Hp4, Hp5, Hp6 in *.
  assert (Hn : len (old ++ [cur]) = len old + 1) by (rewrite len_app; reflexivity).
  cbv zeta. rewrite Hn. split_and!.
  - intros g rs Hrs. split; [by apply Hfiles|]. intros limit Hl Hlt.
    specialize (Hin' limit Hl Hlt). rewrite Forall_lookup in Hin'. exact (Hin' g rs Hrs).
  - intros p Hpp. apply Hoth. intros g Hg. apply Hpp. lia.
  - exact Hret.
Qed.

(** With a limit of 150 bytes and one file to keep, the second record rotates
    and the first file is gone. *)
Lemma capture_disk_contents_witness :
  exists d w runs,
    capture_session "d" "c" Pcap FullPacket "eth0" sample_rotation 0
      [sample_record 1; sample_record 2] {| files := ∅; faults := [] |} = (d, Ok (w, Ok tt)) /\
    concat runs = [timed (sample_record 1); timed (sample_record 2)].
Proof.
  destruct (capture_disk_contents "d" "c" Pcap FullPacket "eth0" sample_rotation 0
    [sample_record 1; sample_record 2] ∅) as (d&w&runs&Hrun&Hc&_).
  - cbn. lia.
  - done.
  - repeat constructor; apply sample_record_ok; unfold uint, umax; lia.
  - unfold len, umax. cbn. lia.
  - exists d, w, runs. split; [exact Hrun|exact Hc].
Defined.

Example capture_rotation_example :
  match capture_session "d" "c" PcapNg FullPacket "eth0" sample_rotation 0
      [sample_record 1; sample_record 2] {| files := ∅; faults := [] |} with
  | (d, Ok (w, Ok _)) =>
      retained_files w = ["d/c-0000000000000001.pcapng"%string] /\
      map fst (map_to_list (files d)) = ["d/c-0000000000000001.pcapng"%string]
  | _ => False
  end.
Proof. vm_compute. done. Qed.
