(* ===== verification/PcapReader.v ===== *)
(** * Offline capture reader

    Model of [crates/backend-pcap/src/lib.rs]: the streaming PCAP / PCAPNG
    source and its [BurstSource] instance. The reader is the part of the file
    not read yet; reading past its end is the only I/O error. The scratch
    [block_buffer] is overwritten before each use and is not part of the
    state. *)

From stdpp Require Import base list strings gmap pretty.
From Stdlib Require Import ZArith Lia Ascii.
From S2P Require Import Prelude ErrorModel Text PacketStats Capture Worker FileIo CaptureWriter.
Open Scope Z_scope.

Definition MAX_CAPTURE_BLOCK_LENGTH : Z := 16 * 1024 * 1024.
Definition DEFAULT_BURST_SIZE : Z := 64.

Inductive Endian := Little | Big.
Inductive TimestampUnit := Microseconds | Nanoseconds.
Inductive TimestampResolution := Decimal (power : Z) | Binary (power : Z).

Record InterfaceDescription := {
  if_link_type : Z;
  if_snaplen : Z;
  timestamp_resolution : TimestampResolution;
}.

(** [enum CaptureFormat] of this crate. *)
Inductive FileFormat :=
| PcapFile (endian : Endian) (timestamp_unit : TimestampUnit) (link_type snap : Z)
| PcapNgFile (endian : Endian) (interfaces : list InterfaceDescription).

Record RecordMetadata := {
  md_timestamp_nanoseconds : Z;
  md_wire_length : Z;
  md_queue_id : Z;
}.

Record CaptureFileSource := {
  reader : bytes;
  file_format : FileFormat;
  packet_buffer : bytes;
  burst_size : Z;
  exhausted : bool;
}.

(** ** Errors and fields. *)

Definition format_error (m : string) : NetToolError := new_error CaptureFormatInvalid m false.

(** [read_error] of the error [read_exact] reports at the end of the file. *)
Definition read_error : NetToolError :=
  new_error CaptureReadFailed "capture file read failed: failed to fill whole buffer" false.

Definition read_u16 (bs : bytes) (offset : Z) (e : Endian) : res Z :=
  let? value := ok_or (get_range bs offset (offset + 2))
                  (format_error "capture field is truncated") in
  Ok (match e with Little => from_le_bytes value | Big => from_be_bytes value end).

Definition read_u32 (bs : bytes) (offset : Z) (e : Endian) : res Z :=
  let? value := ok_or (get_range bs offset (offset + 4))
                  (format_error "capture field is truncated") in
  Ok (match e with Little => from_le_bytes value | Big => from_be_bytes value end).

(** [reader.read_exact] into a buffer of [n] bytes. *)
Definition read_exact (n : Z) : method bytes bytes := fun rd =>
  if n <=? len rd then (drop (Z.to_nat n) rd, Ok (take (Z.to_nat n) rd))
  else ([], Err read_error).

(** [read_exact_or_eof] into a buffer of [n] bytes: [None] at the end. *)
Definition read_exact_or_eof (n : Z) : method bytes (option bytes) := fun rd =>
  if n <=? len rd then (drop (Z.to_nat n) rd, Ok (Some (take (Z.to_nat n) rd)))
  else if len rd =? 0 then (rd, Ok None)
  else ([], Err (format_error "capture record is truncated")).

(** ** File headers. *)

Definition parse_pcap_header (e : Endian) (u : TimestampUnit) : method bytes FileFormat :=
  let! rest := read_exact 20 in
  m_ret (
    let? major := read_u16 rest 0 e in
    let? minor := (if major =? 2 then read_u16 rest 2 e else Ok 0) in
    if negb (major =? 2) || negb (minor =? 4) then Err (format_error "PCAP version must be 2.4")
    else
      let? snap := read_u32 rest 12 e in
      let? link_type := read_u32 rest 16 e in
      if (snap =? 0) || (MAX_CAPTURE_BLOCK_LENGTH <? snap)
      then Err (format_error "PCAP snaplen is invalid")
      else if negb (link_type =? 1)
      then Err (format_error "only Ethernet PCAP link type is supported")
      else Ok (PcapFile e u link_type snap)).

Definition parse_pcapng_section_header : method bytes FileFormat :=
  let! prefix := read_exact 8 in
  let! magic := m_ret (slice prefix 4 8) in
  let! endian := m_ret (
    if bool_decide (magic = [0x4d; 0x3c; 0x2b; 0x1a]) then Ok Little
    else if bool_decide (magic = [0x1a; 0x2b; 0x3c; 0x4d]) then Ok Big
    else Err (format_error "PCAPNG byte-order magic is invalid")) in
  let! total_length := m_ret (read_u32 prefix 0 endian) in
  if negb ((28 <=? total_length) && (total_length <=? MAX_CAPTURE_BLOCK_LENGTH))
     || negb (total_length mod 4 =? 0)
  then m_ret (Err (format_error "PCAPNG section header length is invalid"))
  else
    let! remainder := read_exact (total_length - 12) in
    m_ret (
      let? major := read_u16 remainder 0 endian in
      if negb (major =? 1) then Err (format_error "unsupported PCAPNG major version")
      else
        let? trailing := read_u32 remainder (len remainder - 4) endian in
        if negb (trailing =? total_length)
        then Err (format_error "PCAPNG section trailing length mismatch")
        else Ok (PcapNgFile endian [])).

(** [CaptureFileSource::open] on a file with this content. *)
Definition open (content : bytes) : res CaptureFileSource :=
  let run (m : method bytes FileFormat) rd :=
    let '(rd, o) := m rd in
    let? f := o in
    Ok {| reader := rd; file_format := f; packet_buffer := [];
          burst_size := DEFAULT_BURST_SIZE; exhausted := false |} in
  let '(rd, prefix) := read_exact 4 content in
  let? prefix := prefix in
  if bool_decide (prefix = [0xd4; 0xc3; 0xb2; 0xa1]) then run (parse_pcap_header Little Microseconds) rd
  else if bool_decide (prefix = [0xa1; 0xb2; 0xc3; 0xd4]) then run (parse_pcap_header Big Microseconds) rd
  else if bool_decide (prefix = [0x4d; 0x3c; 0xb2; 0xa1]) then run (parse_pcap_header Little Nanoseconds) rd
  else if bool_decide (prefix = [0xa1; 0xb2; 0x3c; 0x4d]) then run (parse_pcap_header Big Nanoseconds) rd
  else if bool_decide (prefix = [0x0a; 0x0d; 0x0d; 0x0a]) then run parse_pcapng_section_header rd
  else Err (format_error "capture file magic is unsupported").

Definition set_burst_size (s : CaptureFileSource) (n : Z) : res CaptureFileSource :=
  if (1 <=? n) && (n <=? 4096) then
    Ok {| reader := reader s; file_format := file_format s; packet_buffer := packet_buffer s;
          burst_size := n; exhausted := exhausted s |}
  else err InvalidArgument "offline capture burst size must be between 1 and 4096".

(** ** Options. *)

(** [parse_options]; the visitor's captured variable is the state [A]. The
    loop consumes at least four bytes per round. *)
Fixpoint options_loop {A} (fuel : nat) (bs : bytes) (e : Endian)
    (visitor : A -> Z -> bytes -> res A) (a : A) : res A :=
  match fuel with
  | O => Panic
  | S fuel =>
      match bs with
      | [] => Ok a
      | _ =>
          if len bs <? 4 then Err (format_error "PCAPNG option header is truncated")
          else
            let? code := read_u16 bs 0 e in
            let? length := read_u16 bs 2 e in
            let? bs := slice_from bs 4 in
            if code =? 0 then
              if negb (length =? 0)
              then Err (format_error "PCAPNG end option has non-zero length")
              else Ok a
            else
              let? sum := ok_or (checked_add 64 length 3)
                            (format_error "PCAPNG option length overflow") in
              let padded := Z.ldiff sum 3 in
              if (len bs <? padded) || (len bs <? length)
              then Err (format_error "PCAPNG option is truncated")
              else
                let? value := slice bs 0 length in
                let? a := visitor a code value in
                let? bs := slice_from bs padded in
                options_loop fuel bs e visitor a
      end
  end.
Definition parse_options {A} (bs : bytes) (e : Endian) (visitor : A -> Z -> bytes -> res A) (a : A)
    : res A :=
  options_loop (S (length bs)) bs e visitor a.

(** ** PCAPNG blocks. *)

Definition resolution_visitor (r : TimestampResolution) (code : Z) (value : bytes)
    : res TimestampResolution :=
  if (code =? 9) && (len value =? 1) then
    let? v := index value 0 in
    Ok (if Z.land v 0x80 =? 0 then Decimal v else Binary (Z.land v 0x7f))
  else Ok r.

Definition parse_interface_description (body : bytes) (e : Endian)
    (interfaces : list InterfaceDescription) : res (list InterfaceDescription) :=
  if len body <? 8 then Err (format_error "PCAPNG interface block is truncated")
  else
    let? link_type := read_u16 body 0 e in
    if negb (link_type =? 1)
    then Err (format_error "only Ethernet PCAPNG interfaces are supported")
    else
      let? snap := read_u32 body 4 e in
      let? options := slice_from body 8 in
      let? resolution := parse_options options e resolution_visitor (Decimal 6) in
      Ok (interfaces ++ [{| if_link_type := link_type; if_snaplen := snap;
                            timestamp_resolution := resolution |}]).

Definition timestamp_to_nanoseconds (timestamp : Z) (r : TimestampResolution) : res Z :=
  match r with
  | Decimal power =>
      if power <=? 9 then Ok (sat_mul 64 timestamp (Z.min (10 ^ (9 - power)) (umax 64)))
      else if power <=? 19 then Ok (timestamp / Z.min (10 ^ (power - 9)) (umax 64))
      else Err (format_error "PCAPNG timestamp resolution is unsupported")
  | Binary power =>
      if power <=? 63 then Ok (clamp 64 (Z.shiftr (sat_mul 128 timestamp 1000000000) power))
      else Err (format_error "PCAPNG timestamp resolution is unsupported")
  end.

Definition queue_visitor (queue : Z) (code : Z) (value : bytes) : res Z :=
  if code =? 1 then
    if utf8_valid value then
      match strip_prefix (as_bytes "queue_id=") value with
      | Some raw => ok_or (parse_unsigned 16 raw) (format_error "PCAPNG queue comment is invalid")
      | None => Ok queue
      end
    else Ok queue
  else Ok queue.

(** The metadata and the range of the packet bytes in the body. *)
Definition parse_enhanced_packet (body : bytes) (e : Endian)
    (interfaces : list InterfaceDescription) : res (RecordMetadata * (Z * Z)) :=
  if len body <? 20 then Err (format_error "PCAPNG enhanced packet is truncated")
  else
    let? interface_id := read_u32 body 0 e in
    let? interface := ok_or (interfaces !! Z.to_nat interface_id)
                        (format_error "PCAPNG packet references unknown interface") in
    if negb (if_link_type interface =? 1)
    then Err (format_error "PCAPNG packet interface is not Ethernet")
    else
      let? high := read_u32 body 4 e in
      let? low := read_u32 body 8 e in
      let timestamp := Z.lor (Z.shiftl high 32) low in
      let? captured := read_u32 body 12 e in
      let? wire := read_u32 body 16 e in
      if (MAX_CAPTURE_BLOCK_LENGTH <? captured)
         || (negb (if_snaplen interface =? 0) && (if_snaplen interface <? captured))
         || (wire <? captured)
      then Err (format_error "PCAPNG packet length is invalid")
      else
        let? sum := ok_or (checked_add 64 captured 3)
                      (format_error "PCAPNG packet length overflow") in
        let padded := Z.ldiff sum 3 in
        let? packet_end := ok_or (checked_add 64 20 captured)
                             (format_error "PCAPNG packet length overflow") in
        let? options_offset := ok_or (checked_add 64 20 padded)
                                 (format_error "PCAPNG packet length overflow") in
        if (len body <? options_offset) || (len body <? packet_end)
        then Err (format_error "PCAPNG packet data is truncated")
        else
          let? options := slice_from body options_offset in
          let? queue := parse_options options e queue_visitor (clamp 16 interface_id) in
          let? nanoseconds := timestamp_to_nanoseconds timestamp (timestamp_resolution interface) in
          Ok ({| md_timestamp_nanoseconds := nanoseconds; md_wire_length := wire;
                 md_queue_id := queue |}, (20, packet_end)).

(** ** Records. *)

Definition with_reader (s : CaptureFileSource) (rd : bytes) : CaptureFileSource :=
  {| reader := rd; file_format := file_format s; packet_buffer := packet_buffer s;
     burst_size := burst_size s; exhausted := exhausted s |}.
Definition with_buffer (s : CaptureFileSource) (buffer : bytes) : CaptureFileSource :=
  {| reader := reader s; file_format := file_format s; packet_buffer := buffer;
     burst_size := burst_size s; exhausted := exhausted s |}.
Definition with_format (s : CaptureFileSource) (f : FileFormat) : CaptureFileSource :=
  {| reader := reader s; file_format := f; packet_buffer := packet_buffer s;
     burst_size := burst_size s; exhausted := exhausted s |}.
Definition set_exhausted (s : CaptureFileSource) : CaptureFileSource :=
  {| reader := reader s; file_format := file_format s; packet_buffer := packet_buffer s;
     burst_size := burst_size s; exhausted := true |}.

(** A read on the source's reader. *)
Definition on_reader {A} (m : method bytes A) : method CaptureFileSource A := fun s =>
  let '(rd, o) := m (reader s) in (with_reader s rd, o).

(** [buffer.resize(n, 0)]. *)
Definition resize (buffer : bytes) (n : Z) : bytes :=
  take (Z.to_nat n) buffer ++ repeat 0 (Z.to_nat n - length buffer).

(** [packet_buffer.resize(n, 0); reader.read_exact(packet_buffer)?]. A short
    read leaves what it got at the front of the buffer. *)
Definition read_packet (n : Z) : method CaptureFileSource unit := fun s =>
  let buffer := resize (packet_buffer s) n in
  match read_exact n (reader s) with
  | (rd, Ok bs) => (with_buffer (with_reader s rd) bs, Ok tt)
  | (rd, Err e) =>
      (with_buffer (with_reader s rd) (reader s ++ drop (length (reader s)) buffer), Err e)
  | (rd, Panic) => (s, Panic)
  end.

Definition read_pcap_record (e : Endian) (u : TimestampUnit) (link_type snap : Z)
    : method CaptureFileSource (option RecordMetadata) :=
  if negb (link_type =? 1) then m_ret (Err (format_error "PCAP link type changed unexpectedly"))
  else
    let! header := on_reader (read_exact_or_eof 16) in
    match header with
    | None => m_ret (Ok None)
    | Some header =>
        let! seconds := m_ret (read_u32 header 0 e) in
        let! fraction := m_ret (read_u32 header 4 e) in
        let! captured := m_ret (read_u32 header 8 e) in
        let! wire := m_ret (read_u32 header 12 e) in
        if (MAX_CAPTURE_BLOCK_LENGTH <? captured) || (snap <? captured) || (wire <? captured)
        then m_ret (Err (format_error "PCAP record length is invalid"))
        else
          let! fraction_nanoseconds := m_ret (
            match u with
            | Microseconds =>
                if fraction <? 1000000 then Ok (sat_mul 64 fraction 1000)
                else Err (format_error "PCAP timestamp fraction is invalid")
            | Nanoseconds =>
                if fraction <? 1000000000 then Ok fraction
                else Err (format_error "PCAP timestamp fraction is invalid")
            end) in
          let! _ := read_packet captured in
          m_ret (Ok (Some {|
            md_timestamp_nanoseconds :=
              sat_add 64 (sat_mul 64 seconds 1000000000) fraction_nanoseconds;
            md_wire_length := wire; md_queue_id := 0 |}))
    end.

(** The loop of [next_pcapng_record]; every round consumes a block. *)
Fixpoint next_pcapng_record (fuel : nat) : method CaptureFileSource (option RecordMetadata) :=
  match fuel with
  | O => m_ret Panic
  | S fuel => fun s =>
      match file_format s with
      | PcapFile _ _ _ _ => (s, Err (format_error "internal capture format mismatch"))
      | PcapNgFile e interfaces =>
          (let! header := on_reader (read_exact_or_eof 8) in
           match header with
           | None => m_ret (Ok None)
           | Some header =>
               let! block_type := m_ret (read_u32 header 0 e) in
               let! total_length := m_ret (read_u32 header 4 e) in
               if negb ((12 <=? total_length) && (total_length <=? MAX_CAPTURE_BLOCK_LENGTH))
                  || negb (total_length mod 4 =? 0)
               then m_ret (Err (format_error "PCAPNG block length is invalid"))
               else
                 let remaining := total_length - 8 in
                 let! block := on_reader (read_exact remaining) in
                 let! trailing := m_ret (read_u32 block (remaining - 4) e) in
                 if negb (trailing =? total_length)
                 then m_ret (Err (format_error "PCAPNG trailing block length mismatch"))
                 else
                   let! body := m_ret (slice block 0 (remaining - 4)) in
                   if block_type =? 1 then
                     let! interfaces := m_ret (parse_interface_description body e interfaces) in
                     fun s => next_pcapng_record fuel (with_format s (PcapNgFile e interfaces))
                   else if block_type =? 6 then
                     let! parsed := m_ret (parse_enhanced_packet body e interfaces) in
                     let! packet := m_ret (slice body (parsed.2).1 (parsed.2).2) in
                     fun s => (with_buffer s packet, Ok (Some parsed.1))
                   else if block_type =? 0x0a0d0d0a then
                     m_ret (Err (format_error
                       "multiple PCAPNG sections are not supported by this backend"))
                   else next_pcapng_record fuel
           end) s
      end
  end.

Definition next_record : method CaptureFileSource (option RecordMetadata) := fun s =>
  match file_format s with
  | PcapFile e u link_type snap => read_pcap_record e u link_type snap s
  | PcapNgFile _ _ => next_pcapng_record (S (length (reader s))) s
  end.

(** ** [impl BurstSource for CaptureFileSource]. *)

Definition view_of (s : CaptureFileSource) (m : RecordMetadata) : PacketView :=
  {| view_bytes := packet_buffer s; timestamp_nanoseconds := md_timestamp_nanoseconds m;
     wire_length := md_wire_length m; queue_id := md_queue_id m |}.

(** The [while received < burst_size] loop; the views go to the consumer. *)
Fixpoint burst_loop (remaining : nat) (s : CaptureFileSource) (received : Z)
    : CaptureFileSource * list PacketView * res Z :=
  match remaining with
  | O => (s, [], Ok received)
  | S remaining =>
      match next_record s with
      | (s, Ok (Some m)) =>
          let '(s', views, o) := burst_loop remaining s (received + 1) in
          (s', view_of s m :: views, o)
      | (s, Ok None) => (set_exhausted s, [], Ok received)
      | (s, Err e) => (s, [], Err e)
      | (s, Panic) => (s, [], Panic)
      end
  end.

Definition capture_receive_burst (s : CaptureFileSource) : CaptureFileSource * list PacketView * res Z :=
  if exhausted s then (s, [], Ok 0) else burst_loop (Z.to_nat (burst_size s)) s 0.

(** ** Reading never panics. *)

Lemma from_bytes_uint w e (bs : bytes) :
  bytes_ok bs -> 8 * len bs = w ->
  uint w (match e with Little => from_le_bytes bs | Big => from_be_bytes bs end).
Proof.
  intros Hb Hw. destruct e; [|by apply from_be_bytes_width].
  pose proof (from_le_bytes_bound bs Hb) as H. rewrite Hw in H. unfold uint, umax. lia.
Qed.

Lemma holds_reader_u16 bs offset e :
  bytes_ok bs -> holds (read_u16 bs offset e) (fun x => uint 16 x).
Proof.
  intros Hb. unfold read_u16. hstep. apply from_bytes_uint; [|lia].
  eapply subslice_Forall; [by eapply get_range_subslice|done].
Qed.

Lemma holds_reader_u32 bs offset e :
  bytes_ok bs -> holds (read_u32 bs offset e) (fun x => uint 32 x).
Proof.
  intros Hb. unfold read_u32. hstep. apply from_bytes_uint; [|lia].
  eapply subslice_Forall; [by eapply get_range_subslice|done].
Qed.

Lemma bytes_ok_slice l a b s : bytes_ok l -> get_range l a b = Some s -> bytes_ok s.
Proof. intros Hl Hs. eapply subslice_Forall; [by eapply get_range_subslice|done]. Qed.

Lemma ldiff_pad x : 0 <= x -> x <= Z.ldiff (x + 3) 3 <= x + 3.
Proof. intros. rewrite ldiff_3. apply pad4_bounds. Qed.

Section OptionSafety.
Context {A : Type} (e : Endian) (visitor : A -> Z -> bytes -> res A) (P : A -> Prop).
Context (Hvisitor : forall a c v, P a -> bytes_ok v -> holds (visitor a c v) P).

Lemma holds_options_loop fuel bs a :
  (length bs < fuel)%nat -> bytes_ok bs -> P a -> holds (options_loop fuel bs e visitor a) P.
Proof.
  revert bs a. induction fuel as [|fuel IH]; intros bs a Hf Hb Ha; [lia|]. cbn [options_loop].
  destruct bs as [|b0 bs0] eqn:Hbs; [done|]. rewrite <- Hbs in *. clear Hbs b0 bs0.
  hstep; [hstep|].
  eapply holds_bind; [by apply holds_reader_u16|]. intros c Hc.
  eapply holds_bind; [by apply holds_reader_u16|]. intros n Hn.
  assert (4 <= len bs) by lia. hstep. rename H0 into Hs, H1 into Hl. rename a0 into rest.
  assert (Hr : bytes_ok rest) by by eapply bytes_ok_slice.
  hstep; [hstep; hstep; done|]. hstep. subst a0.
  pose proof (ldiff_pad n ltac:(destruct Hn; lia)). destruct Hn.
  hstep; [hstep|]. hstep.
  eapply holds_bind; [apply Hvisitor; [done|by eapply bytes_ok_slice]|]. intros a' Ha'.
  hstep. apply IH; [|by eapply bytes_ok_slice|done].
  unfold len in *. lia.
Qed.

Lemma holds_parse_options bs a : bytes_ok bs -> P a -> holds (parse_options bs e visitor a) P.
Proof. intros. apply holds_options_loop; [lia|done..]. Qed.
End OptionSafety.

Lemma holds_resolution r c v : bytes_ok v -> holds (resolution_visitor r c v) (fun _ => True).
Proof.
  intros Hv. unfold resolution_visitor. hstep; [|done]. hstep. done.
Qed.

Lemma holds_parse_interface_description body e interfaces :
  bytes_ok body -> holds (parse_interface_description body e interfaces) (fun _ => True).
Proof.
  intros Hb. unfold parse_interface_description. hstep; [hstep|].
  eapply holds_bind; [by apply holds_reader_u16|]. intros lt _. hstep; [hstep|].
  eapply holds_bind; [by apply holds_reader_u32|]. intros snap _.
  hstep. eapply holds_bind; [|done].
  apply (holds_parse_options _ _ (fun _ => True)); [|by eapply bytes_ok_slice|done].
  intros. by apply holds_resolution.
Qed.

Lemma holds_queue_visitor q c v : uint 16 q -> holds (queue_visitor q c v) (fun q => uint 16 q).
Proof.
  intros Hq. unfold queue_visitor. hstep; [|done]. hstep; [|done].
  destruct (strip_prefix _ _); [|done]. apply holds_ok_or. intros x. by apply parse_unsigned_uint.
Qed.

Lemma holds_timestamp t r : holds (timestamp_to_nanoseconds t r) (fun _ => True).
Proof. unfold timestamp_to_nanoseconds. destruct r; repeat (hstep; try done). Qed.

Lemma holds_parse_enhanced_packet body e interfaces :
  bytes_ok body ->
  holds (parse_enhanced_packet body e interfaces) (fun '(m, (a, b)) =>
    0 <= a <= b /\ b <= len body /\ uint 16 (md_queue_id m) /\ uint 32 (md_wire_length m)).
Proof.
  intros Hb. unfold parse_enhanced_packet. hstep; [hstep|].
  eapply holds_bind; [by apply holds_reader_u32|]. intros i Hi.
  eapply holds_bind; [by apply holds_ok_or; intros x Hx; exact Hx|]. intros iface _.
  hstep; [hstep|].
  eapply holds_bind; [by apply holds_reader_u32|]. intros high _.
  eapply holds_bind; [by apply holds_reader_u32|]. intros low _.
  eapply holds_bind; [by apply holds_reader_u32|]. intros captured Hcap.
  eapply holds_bind; [by apply holds_reader_u32|]. intros wire Hwire.
  hstep; [hstep|]. do 3 hstep. subst. destruct Hcap as [Hc0 Hc1].
  pose proof (ldiff_pad captured Hc0). hstep; [hstep|]. hstep.
  eapply holds_bind.
  { apply (holds_parse_options _ _ (fun q => uint 16 q));
      [intros; by apply holds_queue_visitor|by eapply bytes_ok_slice|].
    apply clamp_uint; destruct Hi; lia. }
  intros q Hq. eapply holds_bind; [apply holds_timestamp|]. intros t _. simpl.
  split_and!; try done; lia.
Qed.

(** A step of the source: what is left to read is a part of what was. *)
Definition advances (s s' : CaptureFileSource) : Prop :=
  bytes_ok (reader s') /\ (length (reader s') <= length (reader s))%nat.

Lemma advances_refl s : bytes_ok (reader s) -> advances s s.
Proof. by split. Qed.

Lemma read_exact_spec n s :
  0 <= n -> bytes_ok (reader s) ->
  m_holds (on_reader (read_exact n)) s (fun s' o => advances s s' /\
    forall bs, o = Ok bs -> len bs = n /\ bytes_ok bs /\ s' = with_reader s (drop (Z.to_nat n) (reader s))).
Proof.
  intros Hn Hb. unfold m_holds, on_reader, read_exact, advances.
  destruct (Z.leb_spec n (len (reader s))); simpl.
  - split; [done|]. split; [split; [by apply Forall_drop|rewrite length_drop; lia]|].
    intros bs [= <-]. unfold len in *. rewrite length_take.
    split_and!; [lia|by apply Forall_take|done].
  - split; [done|]. split; [split; [constructor|lia]|done].
Qed.

Lemma read_exact_or_eof_spec n s :
  1 <= n -> bytes_ok (reader s) ->
  m_holds (on_reader (read_exact_or_eof n)) s (fun s' o => advances s s' /\
    forall bs, o = Ok (Some bs) -> len bs = n /\ bytes_ok bs /\
      (length (reader s') < length (reader s))%nat).
Proof.
  intros Hn Hb. unfold m_holds, on_reader, read_exact_or_eof, advances.
  destruct (Z.leb_spec n (len (reader s))); [|destruct (_ =? 0)]; simpl.
  - split; [done|]. split; [split; [by apply Forall_drop|rewrite length_drop; lia]|].
    intros bs [= <-]. unfold len in *. rewrite length_take, length_drop.
    split_and!; [lia|by apply Forall_take|lia].
  - split; [done|]. split; [by split|done].
  - split; [done|]. split; [split; [constructor|lia]|done].
Qed.

Lemma read_packet_spec n s :
  0 <= n -> bytes_ok (reader s) -> m_holds (read_packet n) s (fun s' _ => advances s s').
Proof.
  intros Hn Hb. unfold m_holds, read_packet, read_exact, advances.
  destruct (Z.leb_spec n (len (reader s))); simpl.
  - split; [done|]. split; [by apply Forall_drop|rewrite length_drop; lia].
  - split; [done|]. split; [constructor|lia].
Qed.

Lemma read_pcap_record_spec e u lt snap s :
  bytes_ok (reader s) -> m_holds (read_pcap_record e u lt snap) s (fun s' _ => advances s s').
Proof.
  intros Hb. unfold read_pcap_record.
  destruct (negb _); [apply m_holds_ret; [done|by apply advances_refl]|].
  eapply m_holds_bind; [by apply read_exact_or_eof_spec|naive_solver|]. cbv beta.
  intros s1 [header|] [Hs1 Hh]; [|by apply m_holds_ret].
  destruct (Hh header eq_refl) as (_&Hhb&_). clear Hh.
  do 4 (eapply m_holds_lift; [by apply holds_reader_u32|done|intros ? ?]).
  destruct (_ || _); [by apply m_holds_ret|].
  eapply (m_holds_lift _ _ _ (fun _ => True)); [destruct u; by case_match|done|intros ? _].
  eapply m_holds_bind; [apply read_packet_spec; [by destruct H1|by destruct Hs1]|..]; cbv beta.
  - unfold advances in *. intuition lia.
  - intros s2 [] Hs2. apply m_holds_ret; [done|]. unfold advances in *. intuition lia.
Qed.

Lemma advances_trans s1 s2 s3 : advances s1 s2 -> advances s2 s3 -> advances s1 s3.
Proof. unfold advances. intuition lia. Qed.

(** A block is read within the fuel: each round takes at least its header. *)
Lemma next_pcapng_record_spec fuel s :
  (length (reader s) < fuel)%nat -> bytes_ok (reader s) ->
  m_holds (next_pcapng_record fuel) s (fun s' _ => advances s s').
Proof.
  revert s. induction fuel as [|fuel IH]; intros s Hf Hb; [lia|].
  unfold m_holds. cbn [next_pcapng_record].
  destruct (file_format s) as [|e interfaces];
    [split; [done|by apply advances_refl]|].
  apply (m_holds_bind _ _ s _ (fun s' _ => advances s s')
    (read_exact_or_eof_spec 8 s ltac:(lia) Hb)); [naive_solver|].
  intros s1 [header|] [Hs1 Hh]; [|by apply m_holds_ret].
  destruct (Hh header eq_refl) as (_&Hhb&Hlt). clear Hh.
  do 2 (eapply m_holds_lift; [by apply holds_reader_u32|done|intros ? ?]).
  destruct (_ || _) eqn:Hlen; [by apply m_holds_ret|].
  eapply m_holds_bind; [apply (read_exact_spec (a0 - 8)); [lia|by destruct Hs1]|..]; cbv beta.
  { intros s2 err [Hs2 _]. by eapply advances_trans. }
  intros s2 block [Hs2 Hbl]. destruct (Hbl block eq_refl) as (Hl&Hbb&_). clear Hbl.
  assert (Hs12 : advances s s2) by by eapply advances_trans.
  assert (Hlt2 : (length (reader s2) < length (reader s))%nat) by (destruct Hs2; lia).
  eapply m_holds_lift; [by apply holds_reader_u32|done|intros tr _].
  destruct (negb (tr =? a0)); [by apply m_holds_ret|].
  eapply m_holds_lift; [apply holds_slice_in; lia|done|intros body [Hr _]].
  assert (Hbody : bytes_ok body) by by eapply bytes_ok_slice.
  destruct (a =? 1).
  { eapply m_holds_lift; [by apply holds_parse_interface_description|done|intros ifs _].
    destruct (IH (with_format s2 (PcapNgFile e ifs))) as [Hp Ha]; [simpl; lia|by destruct Hs2|].
    split; [exact Hp|]. eapply advances_trans; [exact Hs12|exact Ha]. }
  destruct (a =? 6).
  { eapply m_holds_lift; [by apply holds_parse_enhanced_packet|done|intros [m [i j]] (Hi&Hj&_)].
    eapply m_holds_lift; [by apply holds_slice_in|done|intros packet _]. by split. }
  destruct (a =? _); [by apply m_holds_ret|].
  destruct (IH s2) as [Hp Ha]; [lia|by destruct Hs2|].
  split; [exact Hp|]. by eapply advances_trans.
Qed.

Lemma next_record_spec s :
  bytes_ok (reader s) -> m_holds next_record s (fun s' _ => advances s s').
Proof.
  intros Hb. unfold m_holds, next_record. destruct (file_format s).
  - by apply read_pcap_record_spec.
  - apply next_pcapng_record_spec; [lia|done].
Qed.

Lemma burst_loop_spec remaining s received :
  bytes_ok (reader s) ->
  bytes_ok (reader (burst_loop remaining s received).1.1) /\
  (burst_loop remaining s received).2 <> Panic.
Proof.
  revert s received. induction remaining as [|k IH]; intros s received Hb; simpl; [done|].
  pose proof (next_record_spec s Hb) as [Hp [Hr _]].
  destruct (next_record s) as [s' [[m|]|e|]]; simpl in *; try done.
  destruct (IH s' (received + 1) Hr) as [H1 H2].
  by destruct (burst_loop k s' (received + 1)) as [[s2 views] o].
Qed.

(** The reader is a burst source: it always returns. *)
Lemma capture_receive_burst_inv s :
  bytes_ok (reader s) -> bytes_ok (reader (capture_receive_burst s).1.1).
Proof.
  intros Hb. unfold capture_receive_burst. destruct (exhausted s); [done|].
  by apply burst_loop_spec.
Qed.

Lemma capture_receive_burst_returns s :
  bytes_ok (reader s) -> (capture_receive_burst s).2 <> Panic.
Proof.
  intros Hb. unfold capture_receive_burst. destruct (exhausted s); [done|].
  by apply burst_loop_spec.
Qed.

#[export] Instance capture_file_source : BurstSource CaptureFileSource := {|
  receive_burst := capture_receive_burst;
  is_exhausted := exhausted;
  source_inv s := bytes_ok (reader s);
  receive_burst_inv := capture_receive_burst_inv;
  receive_burst_returns := capture_receive_burst_returns;
|}.

(** ** Reading back what was encoded. *)

Section Fields.
Implicit Types l : bytes.

Lemma read_u32_skip a l off e : len a <= off -> read_u32 (a ++ l) off e = read_u32 l (off - len a) e.
Proof.
  intros. unfold read_u32. rewrite get_range_skip by lia. do 3 f_equal. lia.
Qed.

Lemma read_u16_skip a l off e : len a <= off -> read_u16 (a ++ l) off e = read_u16 l (off - len a) e.
Proof.
  intros. unfold read_u16. rewrite get_range_skip by lia. do 3 f_equal. lia.
Qed.

Lemma read_u32_head x l : uint 32 x -> read_u32 (to_le_bytes 4 x ++ l) 0 Little = Ok x.
Proof.
  intros Hx. unfold read_u32. change (0 + 4) with (Z.of_nat 4).
  rewrite <- (len_to_le_bytes 4 x), get_range_head. simpl. f_equal.
  apply (from_to_le_bytes 4). unfold uint, umax in Hx. simpl. lia.
Qed.

Lemma read_u16_head x l : uint 16 x -> read_u16 (to_le_bytes 2 x ++ l) 0 Little = Ok x.
Proof.
  intros Hx. unfold read_u16. change (0 + 2) with (Z.of_nat 2).
  rewrite <- (len_to_le_bytes 2 x), get_range_head. simpl. f_equal.
  apply (from_to_le_bytes 2). unfold uint, umax in Hx. simpl. lia.
Qed.
End Fields.

(** Read a little-endian field at a fixed position of a concatenation. *)
Ltac read_field :=
  repeat (rewrite read_u32_skip by (rewrite len_to_le_bytes; lia); rewrite len_to_le_bytes;
          match goal with |- context [read_u32 _ ?o _] =>
            let o' := eval vm_compute in o in change o with o' end);
  rewrite read_u32_head.

Lemma take_drop_app {A} (a l : list A) n :
  n = len a -> take (Z.to_nat n) (a ++ l) = a /\ drop (Z.to_nat n) (a ++ l) = l.
Proof.
  intros ->. unfold len. rewrite Nat2Z.id. split; [apply take_app_length|apply drop_app_length].
Qed.

Lemma on_read_exact n a l s :
  reader s = a ++ l -> len a = n -> on_reader (read_exact n) s = (with_reader s l, Ok a).
Proof.
  intros Hr Ha. unfold on_reader, read_exact. rewrite Hr, len_app. pose proof (len_nonneg l).
  rewrite (proj2 (Z.leb_le _ _)) by lia. destruct (take_drop_app a l n) as [-> ->]; done.
Qed.

Lemma on_read_exact_or_eof n a l s :
  reader s = a ++ l -> len a = n ->
  on_reader (read_exact_or_eof n) s = (with_reader s l, Ok (Some a)).
Proof.
  intros Hr Ha. unfold on_reader, read_exact_or_eof. rewrite Hr, len_app. pose proof (len_nonneg l).
  rewrite (proj2 (Z.leb_le _ _)) by lia. destruct (take_drop_app a l n) as [-> ->]; done.
Qed.

(** What the reader hands over for a record. *)
Definition view_of_record (f : CaptureFormat) (r : CaptureRecord) : PacketView :=
  {| view_bytes := rec_bytes r; timestamp_nanoseconds := rec_timestamp_nanoseconds r;
     wire_length := rec_wire_length r;
     queue_id := match f with Pcap => 0 | PcapNg => rec_queue_id r end |}.

(** Records that the reader's own limits admit. *)
Definition readable (f : CaptureFormat) (m : CaptureMode) (r : CaptureRecord) : Prop :=
  record_ok r /\ len (rec_bytes r) <= rec_wire_length r /\
  len (rec_bytes r) <= snaplen m /\
  len (record_bytes f r) <= MAX_CAPTURE_BLOCK_LENGTH /\
  (f = Pcap -> rec_timestamp_nanoseconds r / 1000000000 <= umax 32).

Lemma read_pcap_record_back snap r rest s :
  readable Pcap (Snaplen snap) r -> reader s = pcap_record_bytes r ++ rest ->
  read_pcap_record Little Nanoseconds 1 snap s =
    (with_buffer (with_reader s rest) (rec_bytes r),
     Ok (Some {| md_timestamp_nanoseconds := rec_timestamp_nanoseconds r;
                 md_wire_length := rec_wire_length r; md_queue_id := 0 |})).
Proof.
  intros ((Ht&Hw&Hq&Hb&Hl)&Hcw&Hcs&Hm&Hts) Hr. specialize (Hts eq_refl). simpl snaplen in Hcs.
  pose proof (len_nonneg (rec_bytes r)). destruct Ht as [Ht0 Ht1].
  pose proof (Z.div_pos (rec_timestamp_nanoseconds r) 1000000000 Ht0 ltac:(lia)).
  pose proof (Z.mod_pos_bound (rec_timestamp_nanoseconds r) 1000000000 ltac:(lia)).
  pose proof (Z.div_mod (rec_timestamp_nanoseconds r) 1000000000 ltac:(lia)).
  unfold record_bytes, pcap_record_bytes in Hm. rewrite !len_app, !len_to_le_bytes in Hm.
  unfold read_pcap_record. change (negb (1 =? 1)) with false. cbv iota.
  unfold pcap_record_bytes in Hr. rewrite (clamp_id 32) in Hr by lia.
  set (sec := rec_timestamp_nanoseconds r / 1000000000) in *.
  set (ns := rec_timestamp_nanoseconds r mod 1000000000) in *.
  set (header := to_le_bytes 4 sec ++ to_le_bytes 4 ns ++ to_le_bytes 4 (len (rec_bytes r)) ++
    to_le_bytes 4 (rec_wire_length r)).
  assert (Hr' : reader s = header ++ (rec_bytes r ++ rest)) by (rewrite Hr; unfold header; by rewrite <- !app_assoc).
  rewrite (m_bind_ok _ _ (Some header) s (with_reader s (rec_bytes r ++ rest)))
    by (by apply on_read_exact_or_eof).
  assert (uint 32 sec /\ uint 32 ns /\ uint 32 (len (rec_bytes r))) as (?&?&?).
  { unfold uint. change (umax 32) with 4294967295 in *. lia. }
  unfold header. rewrite <- (app_nil_r (to_le_bytes 4 (rec_wire_length r))).
  rewrite (m_bind_lift _ _ sec) by (by read_field).
  rewrite (m_bind_lift _ _ ns) by (by read_field).
  rewrite (m_bind_lift _ _ (len (rec_bytes r))) by (by read_field).
  rewrite (m_bind_lift _ _ (rec_wire_length r)) by (by read_field).
  rewrite (proj2 (Z.ltb_ge MAX_CAPTURE_BLOCK_LENGTH _)) by lia. rewrite (proj2 (Z.ltb_ge snap _)) by lia.
  rewrite (proj2 (Z.ltb_ge (rec_wire_length r) _)) by lia. cbv beta iota delta [orb].
  rewrite (proj2 (Z.ltb_lt ns _)) by lia.
  rewrite (m_bind_lift _ _ ns) by done.
  rewrite (m_bind_ok _ _ tt _ (with_buffer (with_reader s rest) (rec_bytes r))).
  - unfold m_ret. do 4 f_equal. unfold sat_mul, sat_add. change (umax 64) with 18446744073709551615 in *. lia.
  - unfold read_packet. simpl reader. unfold read_exact. rewrite len_app. pose proof (len_nonneg rest).
    rewrite (proj2 (Z.leb_le _ _)) by lia.
    by destruct (take_drop_app (rec_bytes r) rest (len (rec_bytes r)) eq_refl) as [-> ->].
Qed.

(** ** Comments and options. *)

Lemma queue_visitor_comment q0 q :
  uint 16 q -> queue_visitor q0 1 (as_bytes (queue_comment q)) = Ok q.
Proof.
  intros Hq. unfold queue_visitor, queue_comment. rewrite as_bytes_app. simpl (1 =? 1).
  rewrite utf8_ascii.
  - cbv iota. rewrite strip_prefix_app, parse_unsigned_dec by done. done.
  - apply Forall_app. split.
    { change (as_bytes "queue_id=") with [113; 117; 101; 117; 101; 95; 105; 100; 61].
      repeat (apply Forall_cons_2; [lia|]). apply Forall_nil_2. }
    eapply Forall_impl; [apply dec_digits|]. simpl. lia.
Qed.

Lemma pad4_app_len {A} (l pad : list A) : len l + len pad = pad4 (len l) -> len (l ++ pad) = pad4 (len l).
Proof. by rewrite len_app. Qed.

(** One option, padded to four bytes. *)
Lemma options_step {A} fuel c value pad rest (visitor : A -> Z -> bytes -> res A) a :
  uint 16 c -> c <> 0 -> uint 16 (len value) -> len value + len pad = pad4 (len value) ->
  options_loop (S fuel) (to_le_bytes 2 c ++ to_le_bytes 2 (len value) ++ value ++ pad ++ rest)
    Little visitor a =
  let? a := visitor a c value in options_loop fuel rest Little visitor a.
Proof.
  intros Hc H0 Hn Hp. cbn [options_loop].
  set (bs := to_le_bytes 2 c ++ _).
  assert (Hlen : len bs = 4 + (pad4 (len value) + len rest)).
  { unfold bs. rewrite !len_app, !len_to_le_bytes. change (Z.of_nat 2) with 2. lia. }
  pose proof (len_nonneg rest). pose proof (len_nonneg value). pose proof (pad4_bounds (len value)).
  assert (bs <> []) as Hne by (intros He; rewrite He in Hlen; unfold len at 1 in Hlen; simpl in Hlen; lia).
  destruct bs as [|b0 bs0] eqn:Hbs; [done|]. rewrite <- Hbs in *. clear b0 bs0 Hne Hbs.
  rewrite (proj2 (Z.ltb_ge _ _)) by lia. unfold bs.
  rewrite read_u16_head by done. cbn [obind].
  rewrite read_u16_skip by (rewrite len_to_le_bytes; lia). rewrite len_to_le_bytes.
  change (2 - Z.of_nat 2) with 0. rewrite read_u16_head by done. cbn [obind].
  rewrite app_assoc. set (hd := to_le_bytes 2 c ++ to_le_bytes 2 (len value)).
  assert (Hhd : len hd = 4) by (unfold hd; rewrite len_app, !len_to_le_bytes; lia).
  unfold slice_from, slice at 1. rewrite <- Hhd at 1. rewrite get_range_tail. cbn [obind].
  rewrite (proj2 (Z.eqb_neq _ _)) by done. unfold checked_add.
  destruct Hn as [Hn0 Hn1]. assert (umax 16 + 3 <= umax 64) by done.
  rewrite (proj2 (Z.leb_le _ _)) by lia. cbn [ok_or obind]. rewrite ldiff_3.
  rewrite !len_app, (proj2 (Z.ltb_ge _ _)), (proj2 (Z.ltb_ge _ _)) by lia. cbv beta iota delta [orb].
  unfold slice at 1. rewrite get_range_head. cbn [obind].
  rewrite app_assoc. assert (Hvp : len (value ++ pad) = pad4 (len value)) by (rewrite len_app; lia).
  destruct (visitor a c value); cbn [obind]; [|done|done].
  unfold slice. rewrite <- Hvp at 1.
  replace (len value + (len pad + len rest)) with (len ((value ++ pad) ++ rest)) by (rewrite !len_app; lia).
  rewrite get_range_tail. done.
Qed.

Lemma options_end {A} fuel (visitor : A -> Z -> bytes -> res A) a :
  options_loop (S fuel) (to_le_bytes 4 0) Little visitor a = Ok a.
Proof. reflexivity. Qed.

(** ** Blocks. *)

(** The name option, cut at 65535 bytes. *)
Definition name_bytes (name : string) : bytes :=
  take (Z.to_nat (clamp 16 (len (as_bytes name)))) (as_bytes name).

Lemma name_bytes_len name : len (name_bytes name) = clamp 16 (len (as_bytes name)) /\
  uint 16 (len (name_bytes name)).
Proof.
  pose proof (len_nonneg (as_bytes name)) as Hn.
  pose proof (clamp_uint 16 (len (as_bytes name)) ltac:(lia) Hn) as Hu.
  assert (len (name_bytes name) = clamp 16 (len (as_bytes name))) as ->; [|done].
  unfold name_bytes, len in *. rewrite length_take. unfold clamp, umax in *.
  destruct (_ <=? _) eqn:?; lia.
Qed.

Lemma interface_options_layout name :
  interface_options name =
    to_le_bytes 2 2 ++ to_le_bytes 2 (len (name_bytes name)) ++ pad_to_u32 (name_bytes name) ++
    to_le_bytes 2 9 ++ to_le_bytes 2 1 ++ [9] ++ [0; 0; 0] ++ to_le_bytes 4 0.
Proof.
  destruct (name_bytes_len name) as [Hl _]. unfold interface_options. fold (name_bytes name).
  rewrite <- Hl. rewrite pad_to_u32_skip by (rewrite pad_to_u32_len; apply pad4_mod).
  change (pad_to_u32 (to_le_bytes 2 9 ++ to_le_bytes 2 1 ++ [9]))
    with (to_le_bytes 2 9 ++ to_le_bytes 2 1 ++ [9] ++ [0; 0; 0]).
  rewrite (app_assoc (to_le_bytes 2 2)).
  rewrite pad_to_u32_skip by (rewrite len_app, !len_to_le_bytes; done).
  by rewrite <- !app_assoc.
Qed.

Lemma pad_to_u32_split l : exists pad, pad_to_u32 l = l ++ pad /\ len l + len pad = pad4 (len l).
Proof.
  destruct (pad_to_u32_spec l) as (k&_&->&H). exists (repeat 0 k). split; [done|].
  unfold len at 2. by rewrite repeat_length.
Qed.

Lemma parse_interface_back snap name interfaces :
  uint 32 snap ->
  parse_interface_description (interface_body snap name) Little interfaces =
    Ok (interfaces ++ [{| if_link_type := 1; if_snaplen := snap; timestamp_resolution := Decimal 9 |}]).
Proof.
  intros Hs. unfold parse_interface_description.
  pose proof (interface_body_len snap name) as [Hl _].
  rewrite (proj2 (Z.ltb_ge _ _)) by lia. unfold interface_body.
  rewrite read_u16_head by done. cbn [obind]. simpl negb. cbv iota.
  rewrite read_u32_skip by (rewrite len_to_le_bytes; lia). rewrite len_to_le_bytes.
  rewrite read_u32_skip by (rewrite len_to_le_bytes; lia). rewrite len_to_le_bytes.
  change (4 - Z.of_nat 2 - Z.of_nat 2) with 0. rewrite read_u32_head by done. cbn [obind].
  set (hd := to_le_bytes 2 1 ++ to_le_bytes 2 0 ++ to_le_bytes 4 snap).
  replace (to_le_bytes 2 1 ++ to_le_bytes 2 0 ++ to_le_bytes 4 snap ++ interface_options name)
    with (hd ++ interface_options name) by (unfold hd; by rewrite <- !app_assoc).
  assert (Hhd : len hd = 8) by (unfold hd; rewrite !len_app, !len_to_le_bytes; lia).
  unfold slice_from, slice. rewrite <- Hhd at 1. rewrite get_range_tail. cbn [obind].
  unfold parse_options. rewrite interface_options_layout.
  destruct (name_bytes_len name) as [_ Hn]. destruct (pad_to_u32_split (name_bytes name)) as (pad&->&Hpad).
  set (rest := to_le_bytes 2 9 ++ _). rewrite <- (app_assoc (name_bytes name)).
  rewrite options_step by done.
  change (resolution_visitor (Decimal 6) 2 (name_bytes name)) with (Ok (Decimal 6) : res _). cbn [obind].
  set (fuel := length _). assert (exists k, fuel = S (S k)) as [k ->].
  { unfold fuel. rewrite !length_app, !to_le_bytes_length. eexists. reflexivity. }
  change rest with (to_le_bytes 2 9 ++ to_le_bytes 2 (len [9]) ++ [9] ++ [0; 0; 0] ++ to_le_bytes 4 0).
  rewrite options_step by done. reflexivity.
Qed.

(** The fixed part of an enhanced packet block. *)
Definition packet_header (r : CaptureRecord) : bytes :=
  to_le_bytes 4 0 ++ to_le_bytes 4 (Z.shiftr (rec_timestamp_nanoseconds r) 32) ++
  to_le_bytes 4 (Z.land (rec_timestamp_nanoseconds r) (umax 32)) ++
  to_le_bytes 4 (len (rec_bytes r)) ++ to_le_bytes 4 (rec_wire_length r).

Lemma packet_header_len r : len (packet_header r) = 20.
Proof. unfold packet_header. rewrite !len_app, !len_to_le_bytes. done. Qed.

(** The two halves of a 64-bit timestamp. *)
Lemma timestamp_halves t :
  uint 64 t -> uint 32 (Z.shiftr t 32) /\ uint 32 (Z.land t (umax 32)) /\
    Z.lor (Z.shiftl (Z.shiftr t 32) 32) (Z.land t (umax 32)) = t.
Proof.
  intros [H0 H1]. change (umax 32) with (Z.ones 32). split_and!.
  - rewrite Z.shiftr_div_pow2 by lia. unfold uint, umax in *. split; [by apply Z.div_pos|].
    apply Z.lt_succ_r, Z.div_lt_upper_bound; lia.
  - rewrite Z.land_ones by lia. unfold uint, umax. pose proof (Z.mod_pos_bound t (2 ^ 32) ltac:(lia)). lia.
  - rewrite <- Z.ldiff_ones_r by lia. apply Z.lor_ldiff_and.
Qed.

Lemma packet_block_layout r :
  record_ok r ->
  packet_block_body r =
    packet_header r ++ pad_to_u32 (rec_bytes r) ++
    to_le_bytes 2 1 ++ to_le_bytes 2 (len (as_bytes (queue_comment (rec_queue_id r)))) ++
    pad_to_u32 (as_bytes (queue_comment (rec_queue_id r))) ++ to_le_bytes 4 0.
Proof.
  intros (Ht&Hw&Hq&Hb&Hl). destruct (timestamp_halves _ Ht) as ([_ H1]&[_ H2]&_).
  pose proof (queue_comment_len _ Hq). unfold packet_block_body.
  rewrite (clamp_id 32 (Z.shiftr _ _)), (clamp_id 32 (Z.land _ _)), (clamp_id 32 (len _)) by lia.
  rewrite (clamp_id 16) by (change (umax 16) with 65535; lia).
  rewrite pad_to_u32_skip by (rewrite pad_to_u32_len; apply pad4_mod).
  rewrite (app_assoc (to_le_bytes 2 1)).
  rewrite (pad_to_u32_skip (to_le_bytes 2 1 ++ _)) by (rewrite len_app, !len_to_le_bytes; done).
  replace (to_le_bytes 4 0 ++ _) with (packet_header r ++ rec_bytes r)
    by (unfold packet_header; by rewrite <- !app_assoc).
  rewrite (pad_to_u32_skip (packet_header r)) by (by rewrite packet_header_len).
  by rewrite <- !app_assoc.
Qed.

(** The fields of the fixed part. *)
Lemma packet_header_fields r rest :
  record_ok r ->
  read_u32 (packet_header r ++ rest) 0 Little = Ok 0 /\
  read_u32 (packet_header r ++ rest) 4 Little = Ok (Z.shiftr (rec_timestamp_nanoseconds r) 32) /\
  read_u32 (packet_header r ++ rest) 8 Little =
    Ok (Z.land (rec_timestamp_nanoseconds r) (umax 32)) /\
  read_u32 (packet_header r ++ rest) 12 Little = Ok (len (rec_bytes r)) /\
  read_u32 (packet_header r ++ rest) 16 Little = Ok (rec_wire_length r).
Proof.
  intros (Ht&Hw&Hq&Hb&Hl). destruct (timestamp_halves _ Ht) as (H1&H2&_).
  pose proof (len_nonneg (rec_bytes r)).
  assert (uint 32 (len (rec_bytes r))) by (unfold uint; lia).
  unfold packet_header. rewrite <- !app_assoc.
  split_and!; by read_field.
Qed.

(** The options of a packet block give its queue back. *)
Lemma packet_options_back r q0 :
  record_ok r ->
  parse_options (to_le_bytes 2 1 ++ to_le_bytes 2 (len (as_bytes (queue_comment (rec_queue_id r)))) ++
    pad_to_u32 (as_bytes (queue_comment (rec_queue_id r))) ++ to_le_bytes 4 0)
    Little queue_visitor q0 = Ok (rec_queue_id r).
Proof.
  intros (_&_&Hq&_&_). pose proof (queue_comment_len _ Hq).
  set (comment := as_bytes _) in *. destruct (pad_to_u32_split comment) as (pad&->&Hpad).
  rewrite <- (app_assoc comment). unfold parse_options.
  rewrite options_step; [|done|done|unfold uint; change (umax 16) with 65535; lia|done].
  unfold comment. rewrite queue_visitor_comment by done. cbn [obind].
  set (fuel := length _). assert (exists k, fuel = S k) as [k ->].
  { unfold fuel. rewrite !length_app, !to_le_bytes_length. eexists. reflexivity. }
  apply options_end.
Qed.

Lemma timestamp_nanoseconds_back t : uint 64 t -> timestamp_to_nanoseconds t (Decimal 9) = Ok t.
Proof.
  intros [H0 H1]. unfold timestamp_to_nanoseconds. change (9 <=? 9) with true. cbv iota.
  change (10 ^ (9 - 9)) with 1. unfold sat_mul. change (umax 64) with 18446744073709551615 in *.
  f_equal. lia.
Qed.

Lemma parse_enhanced_back r snap rest_ifs :
  record_ok r -> len (rec_bytes r) <= rec_wire_length r -> len (rec_bytes r) <= snap ->
  len (rec_bytes r) <= MAX_CAPTURE_BLOCK_LENGTH ->
  parse_enhanced_packet (packet_block_body r) Little
      ({| if_link_type := 1; if_snaplen := snap; timestamp_resolution := Decimal 9 |} :: rest_ifs) =
    Ok ({| md_timestamp_nanoseconds := rec_timestamp_nanoseconds r;
           md_wire_length := rec_wire_length r; md_queue_id := rec_queue_id r |},
        (20, 20 + len (rec_bytes r))).
Proof.
  intros Hr Hcw Hcs Hm. rewrite packet_block_layout by done.
  pose proof (packet_options_back r (clamp 16 0) Hr) as Hopt.
  set (options := to_le_bytes 2 1 ++ _) in *.
  destruct (packet_header_fields r (pad_to_u32 (rec_bytes r) ++ options) Hr) as (R0&R1&R2&R3&R4).
  assert (Hr' := Hr). destruct Hr' as (Ht&_&_&_&Hl). destruct (timestamp_halves _ Ht) as (_&_&H3).
  pose proof (len_nonneg (rec_bytes r)) as Hn. pose proof (pad4_bounds (len (rec_bytes r))).
  pose proof (len_nonneg options). pose proof (pad_to_u32_len (rec_bytes r)) as Hpl.
  set (body := packet_header r ++ _) in *.
  assert (Hbody : len body = 20 + (pad4 (len (rec_bytes r)) + len options))
    by (unfold body; rewrite !len_app, packet_header_len; lia).
  assert (umax 32 + 100 <= umax 64) by done.
  unfold parse_enhanced_packet. rewrite (proj2 (Z.ltb_ge _ _)) by lia.
  rewrite R0. cbn [obind]. simpl (_ !! _). cbn [ok_or obind if_link_type if_snaplen timestamp_resolution].
  change (negb (1 =? 1)) with false. cbv iota. rewrite R1, R2, R3, R4. cbn [obind]. rewrite H3.
  rewrite (proj2 (Z.ltb_ge MAX_CAPTURE_BLOCK_LENGTH _)) by lia. rewrite (proj2 (Z.ltb_ge snap _)) by lia.
  rewrite (proj2 (Z.ltb_ge (rec_wire_length r) _)) by lia. rewrite andb_false_r.
  cbv beta iota delta [orb]. unfold checked_add.
  rewrite (proj2 (Z.leb_le (_ + 3) _)) by lia. cbn [ok_or obind]. rewrite ldiff_3.
  rewrite !(proj2 (Z.leb_le (20 + _) _)) by lia. cbn [ok_or obind].
  rewrite !(proj2 (Z.ltb_ge (len body) _)) by lia. cbv beta iota delta [orb].
  assert (slice_from (E := NetToolError) body (20 + pad4 (len (rec_bytes r))) = Ok options) as ->.
  { unfold slice_from, slice, body. rewrite app_assoc.
    replace (20 + pad4 (len (rec_bytes r))) with (len (packet_header r ++ pad_to_u32 (rec_bytes r)))
      by (rewrite len_app, packet_header_len; lia).
    by rewrite get_range_tail. }
  cbn [obind]. rewrite Hopt. cbn [obind].
  by rewrite timestamp_nanoseconds_back.
Qed.

Lemma packet_slice_back r :
  record_ok r ->
  get_range (packet_block_body r) 20 (20 + len (rec_bytes r)) = Some (rec_bytes r).
Proof.
  intros Hr. rewrite packet_block_layout by done. pose proof (len_nonneg (rec_bytes r)).
  destruct (pad_to_u32_split (rec_bytes r)) as (pad&->&_).
  rewrite get_range_skip by (rewrite ?packet_header_len; lia). rewrite packet_header_len.
  replace (20 + len (rec_bytes r) - 20) with (len (rec_bytes r)) by lia.
  rewrite <- app_assoc. apply get_range_head.
Qed.

(** ** Whole blocks and files. *)

(** A well-formed block is taken off the reader and dispatched on its type. *)
Lemma next_block fuel s t body rest ifs :
  file_format s = PcapNgFile Little ifs -> reader s = block_bytes t body ++ rest ->
  uint 32 t -> 12 + len body <= MAX_CAPTURE_BLOCK_LENGTH -> len body mod 4 = 0 ->
  next_pcapng_record (S fuel) s =
  (if t =? 1 then
     let! interfaces := m_ret (parse_interface_description body Little ifs) in
     fun s => next_pcapng_record fuel (with_format s (PcapNgFile Little interfaces))
   else if t =? 6 then
     let! parsed := m_ret (parse_enhanced_packet body Little ifs) in
     let! packet := m_ret (slice body (parsed.2).1 (parsed.2).2) in
     fun s => (with_buffer s packet, Ok (Some parsed.1))
   else if t =? 0x0a0d0d0a then
     m_ret (Err (format_error "multiple PCAPNG sections are not supported by this backend"))
   else next_pcapng_record fuel) (with_reader s rest).
Proof.
  intros Hf Hr Ht Hm Hmod. pose proof (len_nonneg body). cbn [next_pcapng_record]. rewrite Hf.
  set (total := 12 + len body) in *. unfold MAX_CAPTURE_BLOCK_LENGTH in *.
  assert (Hu : uint 32 total) by (unfold uint; change (umax 32) with 4294967295; lia).
  set (hd := to_le_bytes 4 t ++ to_le_bytes 4 total).
  assert (Hhd : len hd = 8) by (unfold hd; rewrite len_app, !len_to_le_bytes; done).
  assert (Hr' : reader s = hd ++ ((body ++ to_le_bytes 4 total) ++ rest)).
  { rewrite Hr. unfold block_bytes, hd. fold total. by rewrite <- !app_assoc. }
  rewrite (m_bind_ok _ _ _ _ _ (on_read_exact_or_eof 8 _ _ _ Hr' Hhd)).
  unfold hd. rewrite (m_bind_lift _ _ t) by (by rewrite read_u32_head).
  rewrite <- (app_nil_r (to_le_bytes 4 total)) at 1.
  rewrite (m_bind_lift _ _ total) by (by read_field).
  assert (Hmod' : total mod 4 = 0).
  { unfold total. rewrite Z.add_mod by lia. by rewrite Hmod. }
  rewrite (proj2 (Z.leb_le 12 total)), (proj2 (Z.leb_le total _)), Hmod' by lia.
  change (negb (true && true) || negb (0 =? 0)) with false. cbv iota zeta.
  assert (Hb : len (body ++ to_le_bytes 4 total) = total - 8)
    by (rewrite len_app, len_to_le_bytes; lia).
  rewrite (m_bind_ok _ _ _ _ _ (on_read_exact (total - 8) (body ++ to_le_bytes 4 total) rest
    (with_reader s ((body ++ to_le_bytes 4 total) ++ rest)) eq_refl Hb)).
  replace (total - 8 - 4) with (len body) by lia.
  rewrite (m_bind_lift _ _ total).
  2: { rewrite read_u32_skip by lia. rewrite Z.sub_diag.
       rewrite <- (app_nil_r (to_le_bytes 4 total)). by apply read_u32_head. }
  rewrite Z.eqb_refl. change (negb true) with false. cbv iota.
  rewrite (m_bind_lift _ _ body) by (unfold slice; by rewrite get_range_head).
  done.
Qed.

(** The open reader of a file that the writer produced. *)
Definition expected_format (f : CaptureFormat) (m : CaptureMode) (started : bool) : FileFormat :=
  match f with
  | Pcap => PcapFile Little Nanoseconds 1 (snaplen m)
  | PcapNg => PcapNgFile Little
      (if started then [{| if_link_type := 1; if_snaplen := snaplen m;
                           timestamp_resolution := Decimal 9 |}] else [])
  end.

Lemma record_bytes_mod r :
  len (packet_block_body r) mod 4 = 0.
Proof.
  rewrite packet_block_body_len. unfold pad4.
  set (a := (_ + 3) / 4). set (b := (_ + 3) / 4).
  replace (24 + 4 * a + (4 + 4 * b)) with ((7 + a + b) * 4) by lia. apply Z.mod_mul. lia.
Qed.

(** What a successful [next_record] leaves behind. *)
Definition record_read (s s' : CaptureFileSource) (md : RecordMetadata) (v : PacketView)
    (rest : bytes) : Prop :=
  view_of s' md = v /\ reader s' = rest /\ file_format s' = file_format s /\
  burst_size s' = burst_size s /\ exhausted s' = exhausted s.

Lemma next_pcapng_back fuel m r s rest :
  readable PcapNg m r -> file_format s = expected_format PcapNg m true ->
  reader s = record_bytes PcapNg r ++ rest ->
  exists s' md, next_pcapng_record (S fuel) s = (s', Ok (Some md)) /\
    record_read s s' md (view_of_record PcapNg r) rest.
Proof.
  intros (Hok&Hcw&Hcs&Hm&_) Hf Hr. cbn [record_bytes] in *. rewrite block_bytes_len in Hm.
  assert (Hlen : len (rec_bytes r) <= MAX_CAPTURE_BLOCK_LENGTH).
  { rewrite packet_block_body_len in Hm. pose proof (pad4_bounds (len (rec_bytes r))).
    pose proof (len_nonneg (as_bytes (queue_comment (rec_queue_id r)))).
    pose proof (pad4_bounds (len (as_bytes (queue_comment (rec_queue_id r))))). lia. }
  rewrite (next_block _ s 6 (packet_block_body r) rest _ Hf Hr);
    [|done|done|apply record_bytes_mod].
  change (6 =? 1) with false. change (6 =? 6) with true. cbv iota.
  rewrite (m_bind_lift _ _ _ _ (parse_enhanced_back r (snaplen m) [] Hok Hcw Hcs Hlen)). cbn [snd fst].
  rewrite (m_bind_lift _ _ (rec_bytes r)) by (unfold slice; by rewrite packet_slice_back).
  eexists _, _. split; [reflexivity|]. done.
Qed.

(** [next_record] on an encoded record. *)
Lemma next_record_back f m r s rest :
  readable f m r -> file_format s = expected_format f m true ->
  reader s = record_bytes f r ++ rest ->
  exists s' md, next_record s = (s', Ok (Some md)) /\
    record_read s s' md (view_of_record f r) rest.
Proof.
  intros Hread Hf Hr. unfold next_record. rewrite Hf.
  destruct f; cbn [expected_format]; cbv iota.
  - by eapply next_pcapng_back.
  - cbn [record_bytes] in Hr. rewrite (read_pcap_record_back (snaplen m) r rest s Hread Hr).
    eexists _, _. split; [reflexivity|]. done.
Qed.

(** The first PCAPNG record is preceded by the interface block. *)
Lemma next_record_first m name s rest :
  uint 32 (snaplen m) -> file_format s = expected_format PcapNg m false ->
  reader s = block_bytes 1 (interface_body (snaplen m) name) ++ rest ->
  exists fuel, (length rest < fuel)%nat /\
    next_record s = next_pcapng_record fuel
      (with_format (with_reader s rest) (expected_format PcapNg m true)).
Proof.
  intros Hs Hf Hr. unfold next_record. rewrite Hf. simpl expected_format. cbv iota.
  pose proof (interface_body_len (snaplen m) name) as [Hl Hmod].
  rewrite (next_block _ s 1 _ rest _ Hf Hr); [|done|unfold MAX_CAPTURE_BLOCK_LENGTH; lia|done].
  change (1 =? 1) with true. cbv iota.
  rewrite (m_bind_lift _ _ _ _ (parse_interface_back (snaplen m) name [] Hs)).
  eexists. split; [|reflexivity]. rewrite Hr, length_app.
  pose proof (block_bytes_len 1 (interface_body (snaplen m) name)) as Hb.
  unfold len in Hb, Hl. lia.
Qed.

(** The source still has the records [rs] to hand over. *)
Definition holds_records (f : CaptureFormat) (m : CaptureMode) (name : string)
    (rs : list CaptureRecord) (s : CaptureFileSource) : Prop :=
  let body := concat (record_bytes f <$> rs) in
  (file_format s = expected_format f m true /\ reader s = body) \/
  (f = PcapNg /\ file_format s = expected_format f m false /\
   reader s = block_bytes 1 (interface_body (snaplen m) name) ++ body).

Lemma next_record_step f m name r rs s :
  uint 32 (snaplen m) -> readable f m r -> holds_records f m name (r :: rs) s ->
  exists s' md, next_record s = (s', Ok (Some md)) /\ view_of s' md = view_of_record f r /\
    holds_records f m name rs s' /\ burst_size s' = burst_size s /\ exhausted s' = exhausted s.
Proof.
  intros Hs Hr [[Hf Hb]|(->&Hf&Hb)]; cbn [fmap list_fmap concat] in Hb.
  - destruct (next_record_back f m r s _ Hr Hf Hb) as (s'&md&Hn&Hv&Hrest&Hff&?&?).
    exists s', md. split_and!; try done. left. split; [congruence|done].
  - destruct (next_record_first m name s _ Hs Hf Hb) as (fuel&Hfuel&->).
    destruct fuel as [|fuel]; [lia|].
    destruct (next_pcapng_back fuel m r (with_format (with_reader s (record_bytes PcapNg r ++
      concat (record_bytes PcapNg <$> rs))) (expected_format PcapNg m true))
      (concat (record_bytes PcapNg <$> rs)) Hr eq_refl eq_refl) as (s'&md&Hn&Hv&Hrest&Hff&?&?).
    exists s', md. split_and!; try done. by left.
Qed.

Lemma next_record_end f m name s :
  uint 32 (snaplen m) -> holds_records f m name [] s ->
  exists s', next_record s = (s', Ok None) /\ burst_size s' = burst_size s.
Proof.
  intros Hs [[Hf Hb]|(->&Hf&Hb)]; cbn [fmap list_fmap concat] in Hb.
  - unfold next_record. rewrite Hf. destruct f; cbn [expected_format]; cbv iota.
    + rewrite Hb. cbn [length next_pcapng_record]. rewrite Hf. cbn [expected_format].
      unfold m_bind, on_reader, read_exact_or_eof. rewrite Hb. by eexists.
    + unfold read_pcap_record. change (negb (1 =? 1)) with false. cbv iota.
      unfold m_bind, on_reader, read_exact_or_eof. rewrite Hb. by eexists.
  - destruct (next_record_first m name s _ Hs Hf Hb) as (fuel&Hfuel&->).
    destruct fuel as [|fuel]; [lia|]. cbn [next_pcapng_record with_format file_format expected_format].
    by eexists.
Qed.

Lemma burst_loop_back f m name k rs s n :
  uint 32 (snaplen m) -> Forall (readable f m) rs -> holds_records f m name rs s ->
  exhausted s = false ->
  exists s', burst_loop k s n =
      (s', view_of_record f <$> take k rs, Ok (n + Z.of_nat (min k (length rs)))) /\
    burst_size s' = burst_size s /\
    (if decide (length rs < k)%nat then exhausted s' = true
     else exhausted s' = false /\ holds_records f m name (drop k rs) s').
Proof.
  intros Hs. revert rs s n. induction k as [|k IH]; intros rs s n Hall Hr He.
  { exists s. cbn [burst_loop]. rewrite Z.add_0_r. destruct (decide _); [lia|]. done. }
  cbn [burst_loop]. destruct rs as [|r rs].
  - destruct (next_record_end f m name s Hs Hr) as (s'&->&Hb).
    exists (set_exhausted s'). split; [simpl; by rewrite Z.add_0_r|]. split; [done|].
    destruct (decide _); [done|simpl in *; lia].
  - apply Forall_cons in Hall as [Hrd Hall].
    destruct (next_record_step f m name r rs s Hs Hrd Hr) as (s1&md&->&Hv&Hr1&Hb1&He1).
    destruct (IH rs s1 (n + 1) Hall Hr1 ltac:(congruence)) as (s2&->&Hb2&Hd).
    exists s2. split; [|split; [congruence|]].
    + rewrite Hv. simpl. do 2 f_equal. lia.
    + cbn [length]. destruct (decide (length rs < k)%nat),
        (decide (S (length rs) < S k)%nat); first [exact Hd|lia].
Qed.

Lemma offered_exhausted n s : exhausted s = true -> offered_packets n s = [].
Proof.
  intros He. induction n as [|n IH]; [done|]. cbn [offered_packets].
  unfold receive_burst, capture_file_source, capture_receive_burst. by rewrite He.
Qed.

Lemma offered_back f m name n rs s :
  uint 32 (snaplen m) -> Forall (readable f m) rs -> holds_records f m name rs s ->
  exhausted s = false ->
  offered_packets n s = view_of_record f <$> take (n * Z.to_nat (burst_size s)) rs.
Proof.
  intros Hs. revert rs s. induction n as [|n IH]; intros rs s Hall Hr He; [done|].
  cbn [offered_packets]. unfold receive_burst at 1, capture_file_source at 1, capture_receive_burst.
  rewrite He. set (k := Z.to_nat (burst_size s)).
  destruct (burst_loop_back f m name k rs s 0 Hs Hall Hr He) as (s'&->&Hb&Hd).
  destruct (decide (length rs < k)%nat) as [Hlt|Hge].
  - rewrite offered_exhausted, app_nil_r by done. by rewrite !take_ge by lia.
  - destruct Hd as [He' Hr']. rewrite (IH (drop k rs) s'); [|by apply Forall_drop|done|done].
    rewrite Hb. fold k. rewrite <- fmap_app. f_equal.
    replace (S n * k)%nat with (k + n * k)%nat by lia. by rewrite take_take_drop.
Qed.

(** ** Opening a file that the writer produced. *)

Lemma read_exact_app n a l : len a = n -> read_exact n (a ++ l) = (l, Ok a).
Proof.
  intros Ha. unfold read_exact. rewrite len_app. pose proof (len_nonneg l).
  rewrite (proj2 (Z.leb_le _ _)) by lia. by destruct (take_drop_app a l n) as [-> ->].
Qed.

Lemma open_pcap snap body :
  1 <= snap <= MAX_CAPTURE_BLOCK_LENGTH ->
  exists s, open (pcap_header_bytes snap ++ body) = Ok s /\ reader s = body /\
    file_format s = PcapFile Little Nanoseconds 1 snap /\ exhausted s = false /\
    burst_size s = DEFAULT_BURST_SIZE.
Proof.
  intros Hs. unfold open, pcap_header_bytes. rewrite <- !app_assoc.
  rewrite (read_exact_app 4 (to_le_bytes 4 0xa1b23c4d)) by done. cbn [obind].
  change (to_le_bytes 4 0xa1b23c4d) with [0x4d; 0x3c; 0xb2; 0xa1].
  do 2 (rewrite bool_decide_eq_false_2 by done). rewrite bool_decide_eq_true_2 by done.
  unfold parse_pcap_header.
  set (hd := to_le_bytes 2 2 ++ to_le_bytes 2 4 ++ to_le_bytes 4 0 ++ to_le_bytes 4 0 ++
    to_le_bytes 4 snap ++ to_le_bytes 4 1).
  assert (Hhd : len hd = 20) by (unfold hd; rewrite !len_app, !len_to_le_bytes; done).
  replace (to_le_bytes 2 2 ++ _) with (hd ++ body) by (unfold hd; by rewrite <- !app_assoc).
  rewrite (m_bind_ok _ _ _ _ _ (read_exact_app 20 hd body Hhd)). unfold m_ret.
  assert (Hu : uint 32 snap).
  { unfold uint, MAX_CAPTURE_BLOCK_LENGTH in *. change (umax 32) with 4294967295. lia. }
  assert (read_u16 hd 0 Little = Ok 2 /\ read_u16 hd 2 Little = Ok 4) as [-> ->] by done.
  assert (read_u32 hd 12 Little = Ok snap /\ read_u32 hd 16 Little = Ok 1) as [-> ->].
  { unfold hd. split.
    - do 2 (rewrite read_u32_skip by (rewrite !len_to_le_bytes; lia)). rewrite !len_to_le_bytes.
      change (12 - Z.of_nat 2 - Z.of_nat 2) with 8. by read_field.
    - do 2 (rewrite read_u32_skip by (rewrite !len_to_le_bytes; lia)). rewrite !len_to_le_bytes.
      change (16 - Z.of_nat 2 - Z.of_nat 2) with 12.
      rewrite <- (app_nil_r (to_le_bytes 4 1)). by read_field. }
  change (2 =? 2) with true. cbn [obind]. change (negb true || negb (4 =? 4)) with false. cbv iota.
  cbn [obind]. rewrite (proj2 (Z.eqb_neq snap 0)), (proj2 (Z.ltb_ge _ snap)) by lia.
  change (false || false) with false. change (negb (1 =? 1)) with false. cbv iota. cbn [obind].
  eexists. split; [reflexivity|]. done.
Qed.

Lemma open_pcapng body :
  exists s, open (block_bytes 0x0a0d0d0a section_body ++ body) = Ok s /\ reader s = body /\
    file_format s = PcapNgFile Little [] /\ exhausted s = false /\
    burst_size s = DEFAULT_BURST_SIZE.
Proof.
  unfold open.
  change (block_bytes 0x0a0d0d0a section_body) with
    ([0x0a; 0x0d; 0x0d; 0x0a] ++ [28; 0; 0; 0; 0x4d; 0x3c; 0x2b; 0x1a] ++
     [1; 0; 0; 0; 255; 255; 255; 255; 255; 255; 255; 255; 28; 0; 0; 0]).
  rewrite <- !app_assoc. rewrite (read_exact_app 4) by done. cbn [obind].
  do 4 (rewrite bool_decide_eq_false_2 by done). rewrite bool_decide_eq_true_2 by done.
  unfold parse_pcapng_section_header.
  rewrite (m_bind_ok _ _ _ _ _ (read_exact_app 8 [28; 0; 0; 0; 0x4d; 0x3c; 0x2b; 0x1a] _ eq_refl)).
  rewrite (m_bind_lift _ _ [0x4d; 0x3c; 0x2b; 0x1a]) by done.
  rewrite (m_bind_lift _ _ Little) by (by rewrite bool_decide_eq_true_2).
  rewrite (m_bind_lift _ _ 28) by done.
  change (negb _ || _) with false. cbv iota.
  rewrite (m_bind_ok _ _ _ _ _ (read_exact_app (28 - 12)
    [1; 0; 0; 0; 255; 255; 255; 255; 255; 255; 255; 255; 28; 0; 0; 0] body eq_refl)).
  eexists. split; [reflexivity|]. done.
Qed.

Lemma set_burst_size_ok s n s' :
  set_burst_size s n = Ok s' ->
  1 <= n <= 4096 /\ burst_size s' = n /\ reader s' = reader s /\
  file_format s' = file_format s /\ exhausted s' = exhausted s.
Proof.
  unfold set_burst_size. destruct (_ && _) eqn:H; [|done]. intros [= <-]. simpl. split_and!; try done; lia.
Qed.

(** The source after any number of bursts. *)
Fixpoint after_bursts (n : nat) (s : CaptureFileSource) : CaptureFileSource :=
  match n with
  | O => s
  | S n => after_bursts n (receive_burst s).1.1
  end.

Lemma read_exact_holds n rd :
  bytes_ok rd -> m_holds (read_exact n) rd (fun rd' o => bytes_ok rd' /\
    forall bs, o = Ok bs -> bytes_ok bs /\ (0 <= n -> len bs = n)).
Proof.
  intros Hrd. unfold m_holds, read_exact. destruct (Z.leb_spec n (len rd)); simpl.
  - split; [done|]. split; [by apply Forall_drop|]. intros bs [= <-].
    split; [by apply Forall_take|]. unfold len in *. rewrite length_take. lia.
  - split; [done|]. split; [constructor|done].
Qed.

Lemma parse_pcap_header_holds e u rd :
  bytes_ok rd -> m_holds (parse_pcap_header e u) rd (fun rd' _ => bytes_ok rd').
Proof.
  intros Hrd. unfold parse_pcap_header.
  eapply m_holds_bind; [by apply read_exact_holds|by intros ? ? [? _]|]. cbv beta.
  intros rd' rest [Hrd' Hrest]. destruct (Hrest rest eq_refl) as [Hrb _].
  apply m_holds_ret; [|done]. apply (holds_not_panic _ (fun _ => True)).
  eapply holds_bind; [by apply holds_reader_u16|]. intros major _.
  eapply (holds_bind _ _ (fun _ => True)).
  { destruct (major =? 2); [|done]. eapply holds_weaken; [by apply holds_reader_u16|done]. }
  intros minor _. hstep; [hstep|].
  eapply holds_bind; [by apply holds_reader_u32|]. intros snap _.
  eapply holds_bind; [by apply holds_reader_u32|]. intros lt _. repeat (hstep; try done).
Qed.

Lemma parse_pcapng_section_header_holds rd :
  bytes_ok rd -> m_holds parse_pcapng_section_header rd (fun rd' _ => bytes_ok rd').
Proof.
  intros Hrd. unfold parse_pcapng_section_header.
  eapply m_holds_bind; [by apply read_exact_holds|by intros ? ? [? _]|]. cbv beta.
  intros rd' prefix [Hrd' Hrest]. destruct (Hrest prefix eq_refl) as [Hpb Hpl].
  specialize (Hpl ltac:(lia)).
  eapply m_holds_lift; [apply holds_slice_in; lia|done|]. intros magic _.
  eapply (m_holds_lift _ _ _ (fun _ => True)); [by repeat case_bool_decide|done|]. intros endian _.
  eapply m_holds_lift; [by apply holds_reader_u32|done|]. intros total _.
  destruct (_ || _); [by apply m_holds_ret|].
  eapply m_holds_bind; [by apply read_exact_holds|by intros ? ? [? _]|]. cbv beta.
  intros rd2 rem [Hrd2 Hr2]. destruct (Hr2 rem eq_refl) as [Hrb _]. apply m_holds_ret; [|done].
  apply (holds_not_panic _ (fun _ => True)).
  eapply holds_bind; [by apply holds_reader_u16|]. intros major _. hstep; [hstep|].
  eapply holds_bind; [by apply holds_reader_u32|]. intros tr _. repeat (hstep; try done).
Qed.

Lemma holds_open content : bytes_ok content -> holds (open content) (fun s => bytes_ok (reader s)).
Proof.
  intros Hb. unfold open.
  assert (Hrun : forall (m : method bytes FileFormat) rd,
    m_holds m rd (fun rd' _ => bytes_ok rd') ->
    holds (let '(rd, o) := m rd in let? f := o in
      Ok {| reader := rd; file_format := f; packet_buffer := [];
            burst_size := DEFAULT_BURST_SIZE; exhausted := false |}) (fun s => bytes_ok (reader s))).
  { intros m rd [Hp Hq]. destruct (m rd) as [rd' [f|e|]]; simpl in *; done. }
  destruct (read_exact_holds 4 content Hb) as [Hp4 [Hrd4 _]].
  destruct (read_exact 4 content) as [rd [prefix|e|]]; simpl in *; try done.
  repeat (destruct (bool_decide _);
    [apply Hrun; auto using parse_pcap_header_holds, parse_pcapng_section_header_holds|]). done.
Qed.

(** ** What the offline source promises. *)

(** No capture file, however malformed, makes the reader panic or loop:
    opening returns a source or an error, and so does every later burst. *)
Theorem capture_reader_total (content : bytes) :
  bytes_ok content ->
  holds (open content) (fun s =>
    forall n, (receive_burst (after_bursts n s)).2 <> Panic).
Proof.
  intros Hb. eapply holds_weaken; [by apply holds_open|]. intros s Hs n.
  apply (receive_burst_returns (S := CaptureFileSource)). revert s Hs.
  induction n as [|n IH]; intros s Hs; [done|]. simpl. apply IH. by apply capture_receive_burst_inv.
Qed.

Lemma capture_reader_total_witness :
  holds (open (header_bytes PcapNg FullPacket "eth0" ++ [6; 0; 0; 0; 16; 0; 0; 0; 1]))
    (fun s => forall n, (receive_burst (after_bursts n s)).2 <> Panic).
Proof.
  apply (capture_reader_total (header_bytes PcapNg FullPacket "eth0" ++ [6; 0; 0; 0; 16; 0; 0; 0; 1])).
  set (l := _ ++ _). assert (forallb (fun b => (0 <=? b) && (b <? 256)) l = true) as H
    by (vm_compute; reflexivity).
  apply List.Forall_forall. intros x Hx. rewrite forallb_forall in H. specialize (H x Hx).
  unfold is_byte. lia.
Defined.

(** The contents of a file, read back. *)
Lemma contents_read_back f m name (rs : list CaptureRecord) :
  uint 32 (snaplen m) -> (f = Pcap -> 1 <= snaplen m <= MAX_CAPTURE_BLOCK_LENGTH) ->
  Forall (readable f m) rs ->
  exists s, open (header_bytes f m name ++ concat (record_bytes f <$> rs)) = Ok s /\
    forall b s', set_burst_size s b = Ok s' -> forall n,
      offered_packets n s' = view_of_record f <$> take (n * Z.to_nat b) rs.
Proof.
  intros Hs Hp Hall.
  assert (Hopen : exists s, open (header_bytes f m name ++ concat (record_bytes f <$> rs)) = Ok s /\
    holds_records f m name rs s /\ exhausted s = false).
  { destruct f; cbn [header_bytes].
    - rewrite <- app_assoc. destruct (open_pcapng (block_bytes 1 (interface_body (snaplen m) name) ++
        concat (record_bytes PcapNg <$> rs))) as (s&->&Hr&Hf&He&_).
      exists s. split_and!; [done| |done]. right. by split_and!.
    - destruct (open_pcap (snaplen m) (concat (record_bytes Pcap <$> rs)) (Hp eq_refl))
        as (s&->&Hr&Hf&He&_).
      exists s. split_and!; [done| |done]. left. by split_and!. }
  destruct Hopen as (s&->&Hr&He). exists s. split; [done|]. intros b s' Hb n.
  destruct (set_burst_size_ok _ _ _ Hb) as (Hb1&Hb2&Hrd&Hff&Hex). rewrite <- Hb2.
  apply (offered_back f m name); [done|done| |congruence].
  unfold holds_records in *. by rewrite Hrd, Hff.
Qed.

(** Records within the limits of the reader, by the writer's own estimate of
    their size. *)
Definition within_limits (f : CaptureFormat) (m : CaptureMode) (r : CaptureRecord) : Prop :=
  record_ok r /\ len (rec_bytes r) <= rec_wire_length r /\
  len (rec_bytes r) <= snaplen m /\
  record_encoded_length f (len (rec_bytes r)) <= MAX_CAPTURE_BLOCK_LENGTH /\
  (f = Pcap -> rec_timestamp_nanoseconds r / 1000000000 <= umax 32).

Lemma within_readable f m r : within_limits f m r -> readable f m r.
Proof.
  intros (Hok&Hw&Hs&Hl&Ht). pose proof (record_bytes_estimate f r Hok). split_and!; try done. lia.
Qed.



(** A legacy PCAP file captured in [FullPacket] mode declares a snap length
    of 2^32 - 1, which the offline source of the same program refuses to open. *)
Theorem full_packet_pcap_unreadable name (rs : list CaptureRecord) :
  open (header_bytes Pcap FullPacket name ++ concat (record_bytes Pcap <$> rs)) =
    err CaptureFormatInvalid "PCAP snaplen is invalid".
Proof.
  cbn [header_bytes]. unfold open.
  change (pcap_header_bytes (snaplen FullPacket)) with
    ([0x4d; 0x3c; 0xb2; 0xa1] ++
     [2; 0; 4; 0; 0; 0; 0; 0; 0; 0; 0; 0; 255; 255; 255; 255; 1; 0; 0; 0]).
  rewrite <- app_assoc, (read_exact_app 4) by done. cbn [obind].
  do 2 (rewrite bool_decide_eq_false_2 by done). rewrite bool_decide_eq_true_2 by done.
  unfold parse_pcap_header. by erewrite m_bind_ok by by apply read_exact_app.
Qed.
