(* ===== verification/Resource.v ===== *)
(** * Resource manager

    Model of [crates/resource/src/lib.rs]: reservations of hardware and runtime
    resources with exclusive and shared claims, capacities and a lifecycle.
    Both maps are [HashMap]s; [check_claim] iterates over the reservations in
    an unspecified order ([HashOrder]), which only the owner named in an error
    depends on. *)

From stdpp Require Import base list strings gmap.
From Stdlib Require Import ZArith Lia.
From S2P Require Import Prelude ErrorModel.
Open Scope Z_scope.

Inductive ResourceKey :=
| DpdkPort (pci : string)
| DpdkRxQueue (pci_address : string) (queue : Z)
| DpdkTxQueue (pci_address : string) (queue : Z)
| PinnedCpu (cpu : Z)
| NumaMemory (node : Z)
| HugePages (numa_node page_size_kib : Z)
| LosslessCaptureWriter (path : string)
| CaptureStorage (path : string)
| DataPort (protocol address : string) (port : Z)
| ManagementInterface (interface : string)
| Database
| ReadOnlyInterfaceStatistics (interface : string).

#[export] Instance ResourceKey_eq_dec : EqDecision ResourceKey.
Proof. solve_decision. Defined.

Definition key_code (k : ResourceKey) : Z * string * string * Z * Z :=
  match k with
  | DpdkPort p => (0, p, "", 0, 0)
  | DpdkRxQueue p q => (1, p, "", q, 0)
  | DpdkTxQueue p q => (2, p, "", q, 0)
  | PinnedCpu c => (3, "", "", c, 0)
  | NumaMemory n => (4, "", "", n, 0)
  | HugePages n s => (5, "", "", n, s)
  | LosslessCaptureWriter p => (6, p, "", 0, 0)
  | CaptureStorage p => (7, p, "", 0, 0)
  | DataPort p a q => (8, p, a, q, 0)
  | ManagementInterface i => (9, i, "", 0, 0)
  | Database => (10, "", "", 0, 0)
  | ReadOnlyInterfaceStatistics i => (11, i, "", 0, 0)
  end%string.

Definition key_decode (c : Z * string * string * Z * Z) : ResourceKey :=
  let '(tag, s, t, a, b) := c in
  if tag =? 0 then DpdkPort s else if tag =? 1 then DpdkRxQueue s a
  else if tag =? 2 then DpdkTxQueue s a else if tag =? 3 then PinnedCpu a
  else if tag =? 4 then NumaMemory a else if tag =? 5 then HugePages a b
  else if tag =? 6 then LosslessCaptureWriter s else if tag =? 7 then CaptureStorage s
  else if tag =? 8 then DataPort s t a else if tag =? 9 then ManagementInterface s
  else if tag =? 10 then Database else ReadOnlyInterfaceStatistics s.

#[export] Instance ResourceKey_countable : Countable ResourceKey.
Proof. apply (inj_countable' key_code key_decode). by intros []. Defined.

Definition requires_exclusive (k : ResourceKey) : bool :=
  match k with
  | DpdkPort _ | DpdkRxQueue _ _ | DpdkTxQueue _ _ | PinnedCpu _
  | LosslessCaptureWriter _ | DataPort _ _ _ => true
  | _ => false
  end.

Definition requires_capacity (k : ResourceKey) : bool :=
  match k with
  | NumaMemory _ | HugePages _ _ | CaptureStorage _ => true
  | _ => false
  end.

(** [impl Display for ResourceKey]. *)
Definition key_to_string (k : ResourceKey) : string :=
  match k with
  | DpdkPort p => "dpdk-port:" +:+ p
  | DpdkRxQueue p q => "dpdk-rx-queue:" +:+ p +:+ ":" +:+ dec q
  | DpdkTxQueue p q => "dpdk-tx-queue:" +:+ p +:+ ":" +:+ dec q
  | PinnedCpu c => "pinned-cpu:" +:+ dec c
  | NumaMemory n => "numa-memory:" +:+ dec n
  | HugePages n s => "huge-pages:" +:+ dec n +:+ ":" +:+ dec s +:+ "KiB"
  | LosslessCaptureWriter p => "lossless-capture-writer:" +:+ p
  | CaptureStorage p => "capture-storage:" +:+ p
  | DataPort p a q => "data-port:" +:+ p +:+ ":" +:+ a +:+ ":" +:+ dec q
  | ManagementInterface i => "management-interface:" +:+ i
  | Database => "database"
  | ReadOnlyInterfaceStatistics i => "read-only-interface-statistics:" +:+ i
  end.

Inductive ResourceMode := Exclusive | Shared.
#[export] Instance ResourceMode_eq_dec : EqDecision ResourceMode.
Proof. solve_decision. Defined.
Definition mode_as_str (m : ResourceMode) : string :=
  match m with Exclusive => "exclusive" | Shared => "shared" end.

Record ResourceClaim := {
  resource : ResourceKey;
  claim_mode : ResourceMode;
  units : Z;
}.
#[export] Instance ResourceClaim_eq_dec : EqDecision ResourceClaim.
Proof. solve_decision. Defined.

Record ReservationRequest := {
  reservation_id : string;
  session_id : string;
  claims : list ResourceClaim;
}.
#[export] Instance ReservationRequest_eq_dec : EqDecision ReservationRequest.
Proof. solve_decision. Defined.

Inductive ReservationState := Pending | Active | Releasing | Released | Failed.
#[export] Instance ReservationState_eq_dec : EqDecision ReservationState.
Proof. solve_decision. Defined.

Record Reservation := {
  request : ReservationRequest;
  state : ReservationState;
  failure : option string;
}.

Record ResourceManager := {
  reservations : gmap string Reservation;
  capacities : gmap ResourceKey Z;
}.

Definition new_manager : ResourceManager := {| reservations := ∅; capacities := ∅ |}.

(** ** Errors. *)

Definition conflict (k : ResourceKey) (owner : string) (m : ResourceMode) : NetToolError :=
  {| code := ResourceConflict;
     message := "requested resource conflicts with an existing reservation";
     retryable := false;
     details := <["resource" := key_to_string k]>
       (<["owner_session" := owner]> (<["requested_mode" := mode_as_str m]> ∅)) |}.

Definition invalid {A} (m : string) : res A := err InvalidArgument m.
Definition invalid_state {A} (m : string) : res A := err InvalidState m.
Definition missing : NetToolError := new_error InvalidArgument "reservation does not exist" false.
Definition operation_conflict : NetToolError :=
  new_error OperationConflict "reservation ID was reused with a different request" false.

(** ** Requests. *)

Definition holds_resources (s : ReservationState) : bool :=
  negb (bool_decide (s = Released)).

(** The loop of [validate_request]; [earlier] is [claims[..index]]. *)
Fixpoint validate_claims (earlier rest : list ResourceClaim) : res unit :=
  match rest with
  | [] => Ok tt
  | c :: rest =>
      if units c =? 0 then invalid "resource claim units must be non-zero"
      else if bool_decide (claim_mode c = Exclusive) && negb (units c =? 1)
      then invalid "exclusive resource claim must request one unit"
      else if requires_exclusive (resource c) && negb (bool_decide (claim_mode c = Exclusive))
      then invalid "resource requires exclusive mode"
      else if existsb (fun e => bool_decide (resource e = resource c)) earlier
      then invalid "reservation contains duplicate resource claims"
      else validate_claims (earlier ++ [c]) rest
  end.

Definition validate_request (r : ReservationRequest) : res unit :=
  if trimmed_empty (reservation_id r) || trimmed_empty (session_id r)
  then invalid "reservation and session IDs are required"
  else match claims r with
       | [] => invalid "reservation must contain at least one claim"
       | cs => validate_claims [] cs
       end.

(** ** Operations. *)

Definition set_capacity (m : ResourceManager) (k : ResourceKey) (n : Z) : res ResourceManager :=
  if n =? 0 then invalid "resource capacity must be non-zero"
  else if requires_exclusive k then invalid "exclusive resource cannot define shared capacity"
  else Ok {| reservations := reservations m; capacities := <[k := n]> (capacities m) |}.

(** The claims of one reservation, with its session, while it holds them. *)
Definition live_claims (r : Reservation) : list (string * ResourceClaim) :=
  if holds_resources (state r)
  then map (fun c => (session_id (request r), c)) (claims (request r))
  else [].

Section Manager.
Context {HO : HashOrder string Reservation}.

(** The [owners] of [check_claim]. *)
Definition owners (m : ResourceManager) (k : ResourceKey) : list (string * ResourceClaim) :=
  List.filter (fun oc => bool_decide (resource oc.2 = k))
    (concat (map (fun e => live_claims e.2) (hash_iter (reservations m)))).

(** [try_fold(0, checked_add)] over the units. *)
Fixpoint checked_sum (total : Z) (l : list (string * ResourceClaim)) : option Z :=
  match l with
  | [] => Some total
  | oc :: l =>
      match checked_add 64 total (units oc.2) with
      | Some total => checked_sum total l
      | None => None
      end
  end.

Definition check_claim (m : ResourceManager) (requested : ResourceClaim) : res unit :=
  let os := owners m (resource requested) in
  match List.find (fun oc => bool_decide (claim_mode requested = Exclusive)
                        || bool_decide (claim_mode oc.2 = Exclusive)) os with
  | Some (owner, _) => Err (conflict (resource requested) owner (claim_mode requested))
  | None =>
      if bool_decide (claim_mode requested = Shared) then
        let? used := ok_or (checked_sum 0 os)
                       (conflict (resource requested) "capacity-overflow" (claim_mode requested)) in
        let? capacity :=
          match capacities m !! resource requested with
          | Some capacity => Ok capacity
          | None => if requires_capacity (resource requested)
                    then invalid "shared resource capacity is not configured"
                    else Ok (umax 64)
          end in
        let fits := match checked_add 64 used (units requested) with
                    | Some total => total <=? capacity
                    | None => false
                    end in
        if fits then Ok tt
        else
          let owner := match os with [] => "capacity"%string | (o, _) :: _ => o end in
          Err (conflict (resource requested) owner (claim_mode requested))
      else Ok tt
  end.

(** [for claim in &request.claims { self.check_claim(claim)?; }]. *)
Fixpoint check_claims (m : ResourceManager) (cs : list ResourceClaim) : res unit :=
  match cs with
  | [] => Ok tt
  | c :: cs => let? _ := check_claim m c in check_claims m cs
  end.

Definition put (m : ResourceManager) (id : string) (r : Reservation) : ResourceManager :=
  {| reservations := <[id := r]> (reservations m); capacities := capacities m |}.

(** Operations return the manager and the record. *)
Definition reserve (m : ResourceManager) (r : ReservationRequest)
    : res (ResourceManager * Reservation) :=
  match reservations m !! reservation_id r with
  | Some existing =>
      if bool_decide (request existing = r) then Ok (m, existing) else Err operation_conflict
  | None =>
      let? _ := validate_request r in
      let? _ := check_claims m (claims r) in
      let reservation := {| request := r; state := Pending; failure := None |} in
      Ok (put m (reservation_id r) reservation, reservation)
  end.
End Manager.

Definition with_state (r : Reservation) (s : ReservationState) : Reservation :=
  {| request := request r; state := s; failure := failure r |}.

Definition activate (m : ResourceManager) (id : string) : res (ResourceManager * Reservation) :=
  let? r := ok_or (reservations m !! id) missing in
  match state r with
  | Pending => let r := with_state r Active in Ok (put m id r, r)
  | Active => Ok (m, r)
  | _ => invalid_state "reservation cannot be activated from current state"
  end.

Definition begin_release (m : ResourceManager) (id : string) : res (ResourceManager * Reservation) :=
  let? r := ok_or (reservations m !! id) missing in
  match state r with
  | Pending | Active | Failed => let r := with_state r Releasing in Ok (put m id r, r)
  | Releasing | Released => Ok (m, r)
  end.

Definition finish_release (m : ResourceManager) (id : string) : res (ResourceManager * Reservation) :=
  let? r := ok_or (reservations m !! id) missing in
  match state r with
  | Releasing => let r := with_state r Released in Ok (put m id r, r)
  | Released => Ok (m, r)
  | _ => invalid_state "reservation must be releasing before release completes"
  end.

Definition fail (m : ResourceManager) (id reason : string) : res (ResourceManager * Reservation) :=
  if trimmed_empty reason then invalid "reservation failure reason is required"
  else
    let? r := ok_or (reservations m !! id) missing in
    if negb (bool_decide (state r = Released)) then
      let r := {| request := request r; state := Failed; failure := Some reason |} in
      Ok (put m id r, r)
    else Ok (m, r).

Definition get (m : ResourceManager) (id : string) : option Reservation := reservations m !! id.

(** ** What is held. *)

(** All live claims, with their sessions, in a fixed order. *)
Definition holdings (m : ResourceManager) : list (string * ResourceClaim) :=
  concat (map (fun e => live_claims e.2) (map_to_list (reservations m))).

(** The live claims on one resource. *)
Definition claims_on (k : ResourceKey) (l : list (string * ResourceClaim))
    : list (string * ResourceClaim) :=
  List.filter (fun oc => bool_decide (resource oc.2 = k)) l.

Definition total_units (l : list (string * ResourceClaim)) : Z :=
  fold_right (fun oc acc => units oc.2 + acc) 0 l.

Lemma concat_map_perm {A B} (f : A -> list B) l l' :
  l ≡ₚ l' -> concat (map f l) ≡ₚ concat (map f l').
Proof.
  induction 1; simpl; [done|by f_equiv| |by etrans].
  rewrite !app_assoc. f_equiv. apply Permutation_app_comm.
Qed.

Lemma filter_perm {A} (f : A -> bool) l l' : l ≡ₚ l' -> List.filter f l ≡ₚ List.filter f l'.
Proof.
  induction 1; simpl; [done|by case_match; [f_equiv|]| |by etrans].
  repeat case_match; try done. apply perm_swap.
Qed.

Lemma total_units_perm l l' : l ≡ₚ l' -> total_units l = total_units l'.
Proof. induction 1; simpl; lia. Qed.

Lemma total_units_app l l' : total_units (l ++ l') = total_units l + total_units l'.
Proof. induction l; simpl; lia. Qed.

Lemma claims_on_app k l l' : claims_on k (l ++ l') = claims_on k l ++ claims_on k l'.
Proof. apply List.filter_app. Qed.

Lemma elem_of_claims_on k l oc : oc ∈ claims_on k l <-> oc ∈ l /\ resource oc.2 = k.
Proof.
  unfold claims_on. rewrite !list_elem_of_In, filter_In.
  by rewrite bool_decide_eq_true.
Qed.

Lemma owners_perm {HO : HashOrder string Reservation} m k :
  owners m k ≡ₚ claims_on k (holdings m).
Proof. apply filter_perm, concat_map_perm, hash_iter_perm. Qed.

(** Replacing the record of [id]: the rest of the holdings stays. *)
Lemma holdings_put m id r : exists rest,
  holdings (put m id r) ≡ₚ live_claims r ++ rest /\
  holdings m ≡ₚ match reservations m !! id with Some r0 => live_claims r0 | None => [] end ++ rest.
Proof.
  exists (concat (map (fun e => live_claims e.2) (map_to_list (delete id (reservations m))))).
  unfold holdings, put. simpl. split.
  - rewrite <- insert_delete_eq. rewrite (concat_map_perm _ _ _ (map_to_list_insert _ _ _
      (lookup_delete_eq _ _))). done.
  - destruct (reservations m !! id) as [r0|] eqn:Hr.
    + rewrite <- (insert_delete_id _ _ _ Hr) at 1.
      rewrite (concat_map_perm _ _ _ (map_to_list_insert _ _ _ (lookup_delete_eq _ _))). done.
    + by rewrite delete_id.
Qed.

(** ** When a claim is granted. *)

(** A claim fits next to the claims already held on its resource. *)
Definition grantable (m : ResourceManager) (c : ResourceClaim) : Prop :=
  let held := claims_on (resource c) (holdings m) in
  match claim_mode c with
  | Exclusive => held = []
  | Shared =>
      (forall oc, oc ∈ held -> claim_mode oc.2 = Shared) /\
      total_units held + units c <= umax 64 /\
      match capacities m !! resource c with
      | Some capacity => total_units held + units c <= capacity
      | None => requires_capacity (resource c) = false
      end
  end.

Lemma total_units_nonneg l : (forall oc, oc ∈ l -> 0 <= units oc.2) -> 0 <= total_units l.
Proof.
  induction l as [|x l IH]; intros Hl; simpl; [lia|].
  pose proof (Hl x ltac:(set_solver)). pose proof (IH ltac:(intros; apply Hl; set_solver)). lia.
Qed.

Lemma checked_sum_spec t l :
  (forall oc, oc ∈ l -> 0 <= units oc.2) -> 0 <= t <= umax 64 ->
  checked_sum t l = if t + total_units l <=? umax 64 then Some (t + total_units l) else None.
Proof.
  intros Hl. revert t. induction l as [|oc l IH]; intros t Ht; simpl.
  { rewrite Z.add_0_r. by rewrite (proj2 (Z.leb_le _ _)) by lia. }
  assert (Hu : 0 <= units oc.2) by (apply Hl; set_solver).
  assert (Hl' : forall oc, oc ∈ l -> 0 <= units oc.2) by (intros; apply Hl; set_solver).
  pose proof (total_units_nonneg l Hl').
  unfold checked_add. destruct (Z.leb_spec (t + units oc.2) (umax 64)).
  - rewrite (IH Hl') by lia. by rewrite Z.add_assoc.
  - by rewrite (proj2 (Z.leb_gt _ _)) by lia.
Qed.

Lemma find_None {A} (f : A -> bool) l : List.find f l = None <-> forall x, x ∈ l -> f x = false.
Proof.
  split.
  - intros H x Hx. by eapply find_none, list_elem_of_In.
  - induction l as [|a l IH]; intros H; simpl; [done|]. rewrite H by set_solver.
    apply IH. intros. apply H. set_solver.
Qed.

Section Granting.
Context {HO : HashOrder string Reservation}.

(** [check_claim] decides [grantable], whatever the iteration order. *)
Lemma check_claim_iff m c :
  (forall oc, oc ∈ holdings m -> 0 <= units oc.2) -> 0 <= units c ->
  check_claim m c = Ok tt <-> grantable m c.
Proof.
  intros Hpos Hc. unfold check_claim, grantable. set (k := resource c).
  pose proof (owners_perm m k) as Hperm. set (os := owners m k) in *.
  assert (Hin : forall oc, oc ∈ os <-> oc ∈ claims_on k (holdings m)) by (intros; by rewrite Hperm).
  rewrite <- (total_units_perm _ _ Hperm).
  assert (Hos : forall oc, oc ∈ os -> 0 <= units oc.2).
  { intros oc Hoc. apply Hpos. apply Hin, elem_of_claims_on in Hoc. tauto. }
  destruct (List.find _ os) as [[owner oc]|] eqn:Hf.
  - split; [done|]. apply find_some in Hf as [Hoc Hm]. apply list_elem_of_In in Hoc.
    destruct (claim_mode c) eqn:Hmode.
    + intros Hnil. rewrite Hnil in Hperm. apply Permutation_nil_r in Hperm. rewrite Hperm in Hoc.
      by apply elem_of_nil in Hoc.
    + intros [Hsh _]. rewrite (Hsh _ (proj1 (Hin _) Hoc)) in Hm. done.
  - pose proof (proj1 (find_None _ _) Hf) as Hnone. clear Hf. destruct (claim_mode c) eqn:Hmode; simpl.
    + split; [|done]. intros _. destruct os as [|oc os']; [by apply Permutation_nil_l in Hperm|].
      by specialize (Hnone oc ltac:(set_solver)).
    + assert (Hsh : forall oc, oc ∈ claims_on k (holdings m) -> claim_mode oc.2 = Shared).
      { intros oc Hoc. specialize (Hnone oc (proj2 (Hin _) Hoc)). simpl in Hnone.
        apply bool_decide_eq_false in Hnone. by destruct (claim_mode oc.2). }
      pose proof (total_units_nonneg os Hos). rewrite checked_sum_spec by (done || (split; done)).
      rewrite Z.add_0_l. unfold checked_add.
      destruct (Z.leb_spec (total_units os) (umax 64)); simpl; [|split; [done|intros (_&?&_); lia]].
      destruct (capacities m !! k) as [cap|]; simpl; [|destruct (requires_capacity k); simpl;
        [split; [done|by intros (_&_&?)]|]];
        (destruct (Z.leb_spec (total_units os + units c) (umax 64));
          [|split; [done|intros (_&?&_); lia]]).
      * destruct (Z.leb_spec (total_units os + units c) cap); [by split|].
        split; [done|]. intros (_&_&?). lia.
      * rewrite (proj2 (Z.leb_le _ _)) by lia. by split.
Qed.

Lemma check_claim_total m c : check_claim m c <> Panic.
Proof.
  unfold check_claim. destruct (List.find _ _) as [[? ?]|]; [done|].
  case_bool_decide; [|done]. destruct (checked_sum _ _); simpl; [|done].
  destruct (capacities m !! resource c); [|destruct (requires_capacity _)]; simpl; try done;
    by case_match.
Qed.

Lemma check_claims_iff m cs :
  (forall oc, oc ∈ holdings m -> 0 <= units oc.2) -> Forall (fun c => 0 <= units c) cs ->
  check_claims m cs = Ok tt <-> Forall (grantable m) cs.
Proof.
  intros Hpos. induction 1 as [|c cs Hc _ IH]; simpl; [done|]. rewrite obind_Ok, Forall_cons, <- IH.
  rewrite <- check_claim_iff by done. split.
  - intros ([]&?&?). done.
  - intros [? ?]. by exists tt.
Qed.
End Granting.

(** ** The manager's invariant. *)

(** A valid request holds each resource once, with positive units. *)
Definition claims_ok (cs : list ResourceClaim) : Prop :=
  NoDup (resource <$> cs) /\
  Forall (fun c => 1 <= units c /\ (claim_mode c = Exclusive -> units c = 1) /\
    (requires_exclusive (resource c) = true -> claim_mode c = Exclusive)) cs.

Lemma validate_claims_ok earlier rest :
  Forall (fun c => 0 <= units c) rest -> claims_ok earlier -> validate_claims earlier rest = Ok tt ->
  claims_ok (earlier ++ rest).
Proof.
  intros Hpos. revert earlier. induction Hpos as [|c rest Hc _ IH]; intros earlier He; simpl.
  { by rewrite app_nil_r. }
  destruct (Z.eqb_spec (units c) 0); [done|].
  destruct (_ && negb (units c =? 1)) eqn:Hx; [done|].
  destruct (_ && negb (bool_decide _)) eqn:Hm; [done|].
  destruct (existsb _ earlier) eqn:Hd; [done|]. intros Hv.
  rewrite (cons_middle c earlier rest), app_assoc. apply IH; [|done].
  destruct He as [Hn Hf]. split.
  - rewrite fmap_app. apply NoDup_app. split_and!; [done| |apply NoDup_singleton].
    intros k Hk Hkc. apply list_elem_of_singleton in Hkc as ->.
    apply list_elem_of_fmap in Hk as (e&Hk&He). apply not_true_iff_false in Hd. apply Hd.
    apply existsb_exists. exists e. rewrite <- list_elem_of_In. by rewrite bool_decide_eq_true.
  - apply Forall_app. split; [done|]. apply Forall_singleton. split_and!; [lia|..].
    + intros Hex. rewrite Hex in Hx. simpl in Hx. destruct (Z.eqb_spec (units c) 1); done.
    + intros Hex. rewrite Hex in Hm. destruct (claim_mode c); done.
Qed.

Lemma validate_request_ok r :
  Forall (fun c => 0 <= units c) (claims r) -> validate_request r = Ok tt -> claims_ok (claims r).
Proof.
  intros Hpos. unfold validate_request. destruct (_ || _); [done|].
  destruct (claims r) as [|c cs]; [done|]. intros Hv.
  apply (validate_claims_ok []); [done| |done]. split; [constructor|done].
Qed.

(** Claims held together are compatible: an exclusive one is alone on its
    resource, and shared ones fit in 64 bits and below [limit] where a capacity
    is required (where no capacity was ever set, one exclusive unit). *)
Definition compatible (limit : ResourceKey -> Z) (l : list (string * ResourceClaim)) : Prop :=
  (forall oc, oc ∈ l -> 1 <= units oc.2 /\
     (requires_exclusive (resource oc.2) = true -> claim_mode oc.2 = Exclusive)) /\
  forall k, let held := claims_on k l in
    (forall oc, oc ∈ held -> claim_mode oc.2 = Exclusive -> held = [oc]) /\
    total_units held <= umax 64 /\
    (requires_capacity k = true -> total_units held <= Z.max 1 (limit k)).

Lemma compatible_perm limit l l' : l ≡ₚ l' -> compatible limit l -> compatible limit l'.
Proof.
  intros Hp [H1 H2]. split.
  { intros oc Hoc. apply H1. by rewrite Hp. }
  intros k. cbv zeta. destruct (H2 k) as (Ha&Hb&Hc).
  assert (Hpk : claims_on k l ≡ₚ claims_on k l') by by apply filter_perm.
  split_and!.
  - intros oc Hoc Hm. rewrite <- Hpk in Hoc. specialize (Ha oc Hoc Hm). rewrite Ha in Hpk.
    by apply Permutation_singleton_l in Hpk.
  - by rewrite <- (total_units_perm _ _ Hpk).
  - intros Hk. rewrite <- (total_units_perm _ _ Hpk). by apply Hc.
Qed.

(** Releasing claims keeps the rest compatible. *)
Lemma compatible_tail limit l l' : compatible limit (l ++ l') -> compatible limit l'.
Proof.
  intros [H1 H2]. split.
  { intros oc Hoc. apply H1. set_solver. }
  intros k. cbv zeta. destruct (H2 k) as (Ha&Hb&Hc). rewrite claims_on_app in *.
  assert (Hn : 0 <= total_units (claims_on k l)).
  { apply total_units_nonneg. intros oc Hoc. apply elem_of_claims_on in Hoc as [Hoc _].
    destruct (H1 oc); [set_solver|lia]. }
  rewrite total_units_app in *. split_and!.
  - intros oc Hoc Hm. specialize (Ha oc ltac:(set_solver) Hm).
    destruct (claims_on k l) as [|x xs]; simpl in Ha; [done|].
    injection Ha as _ Ha. apply app_eq_nil in Ha as [_ Ha]. rewrite Ha in Hoc. set_solver.
  - lia.
  - intros Hk. specialize (Hc Hk). lia.
Qed.

(** Granting a request keeps everything compatible: its claims are on distinct
    resources, each grantable next to what is held. *)
Lemma compatible_grant limit m r :
  compatible limit (holdings m) -> claims_ok (claims r) -> Forall (grantable m) (claims r) ->
  (forall k n, capacities m !! k = Some n -> requires_capacity k = true -> n <= limit k) ->
  compatible limit (map (fun c => (session_id r, c)) (claims r) ++ holdings m).
Proof.
  intros [H1 H2] [Hnd Hcs] Hg Hcap. rewrite Forall_forall in Hcs, Hg. split.
  { intros oc [Hoc|Hoc]%elem_of_app; [|by apply H1].
    apply list_elem_of_In, in_map_iff in Hoc as (c&<-&Hc). apply list_elem_of_In in Hc. simpl.
    destruct (Hcs c Hc) as (?&_&?). done. }
  intros k. cbv zeta. rewrite claims_on_app. destruct (H2 k) as (Ha&Hb&Hc).
  assert (Hone : claims_on k (map (fun c => (session_id r, c)) (claims r)) = [] \/
    exists c, c ∈ claims r /\ resource c = k /\
      claims_on k (map (fun c => (session_id r, c)) (claims r)) = [(session_id r, c)]).
  { clear -Hnd. induction (claims r) as [|c cs IH]; simpl; [by left|].
    apply NoDup_cons in Hnd as [Hc Hnd]. case_bool_decide as Hk; simpl in Hk.
    - right. exists c. split_and!; [set_solver|done|]. f_equal.
      destruct (IH Hnd) as [->|(c'&Hc'&Hk'&_)]; [done|]. destruct Hc.
      rewrite Hk, <- Hk'. by apply list_elem_of_fmap_2.
    - destruct (IH Hnd) as [->|(c'&Hc'&Hk'&->)]; [by left|right]. exists c'. set_solver. }
  destruct Hone as [->|(c&Hin&Hk&->)]; [simpl; by split_and!|].
  destruct (Hcs c Hin) as (Hu&Hx&_). specialize (Hg c Hin). unfold grantable in Hg. rewrite Hk in Hg.
  set (old := claims_on k (holdings m)) in *. simpl.
  destruct (claim_mode c) eqn:Hm.
  - rewrite Hg. simpl. rewrite Hx by done. split_and!; [|done|lia].
    intros oc [->|Hoc]%elem_of_cons; [done|set_solver].
  - destruct Hg as (Hs&H64&Hl). split_and!; [|lia|].
    + intros oc [->|Hoc]%elem_of_cons Hox; [simpl in Hox; congruence|].
      rewrite (Hs oc Hoc) in Hox. done.
    + intros Hreq. destruct (capacities m !! k) as [cap|] eqn:Hcp; [|congruence].
      specialize (Hcap k cap Hcp Hreq). lia.
Qed.

(** ** Runs of the manager. *)

Inductive ManagerOp :=
| OpCapacity (k : ResourceKey) (n : Z)
| OpReserve (r : ReservationRequest)
| OpActivate (id : string)
| OpBeginRelease (id : string)
| OpFinishRelease (id : string)
| OpFail (id reason : string).

Section Runs.
Context {HO : HashOrder string Reservation}.

(** The manager after a call; a call that fails leaves it as it is. *)
Definition manager_step (m : ResourceManager) (op : ManagerOp) : ResourceManager :=
  let after {A} (o : res (ResourceManager * A)) :=
    match o with Ok (m', _) => m' | _ => m end in
  match op with
  | OpCapacity k n => match set_capacity m k n with Ok m' => m' | _ => m end
  | OpReserve r => after (reserve m r)
  | OpActivate id => after (activate m id)
  | OpBeginRelease id => after (begin_release m id)
  | OpFinishRelease id => after (finish_release m id)
  | OpFail id reason => after (fail m id reason)
  end.

(** Transitions of one reservation. *)
Inductive lifecycle : ReservationState -> ReservationState -> Prop :=
| life_activate : lifecycle Pending Active
| life_release s : s = Pending \/ s = Active \/ s = Failed -> lifecycle s Releasing
| life_done : lifecycle Releasing Released
| life_fail s : s <> Released -> lifecycle s Failed.

(** What one call does to the reservations: it creates a fresh pending one, or
    moves the state of one along the lifecycle, or nothing. *)
Inductive reservation_change (m : ResourceManager) (op : ManagerOp) (m' : ResourceManager) : Prop :=
| change_none : reservations m' = reservations m -> reservation_change m op m'
| change_new r :
    op = OpReserve r -> reservations m !! reservation_id r = None ->
    validate_request r = Ok tt -> check_claims m (claims r) = Ok tt ->
    m' = put m (reservation_id r) {| request := r; state := Pending; failure := None |} ->
    reservation_change m op m'
| change_state id r0 r :
    reservations m !! id = Some r0 -> request r = request r0 -> lifecycle (state r0) (state r) ->
    m' = put m id r -> reservation_change m op m'.

Lemma manager_step_change m op : reservation_change m op (manager_step m op).
Proof.
  destruct op as [k n|r|id|id|id|id reason]; cbn [manager_step].
  - unfold set_capacity. repeat case_match; simplify_eq/=; by apply change_none.
  - destruct (reserve m r) as [[m' rec]|e|] eqn:Hr; try by apply change_none.
    unfold reserve in Hr. destruct (reservations m !! reservation_id r) as [ex|] eqn:Hex.
    { case_bool_decide; [|done]. injection Hr as <- _. by apply change_none. }
    apply obind_Ok in Hr as ([]&Hv&Hr). apply obind_Ok in Hr as ([]&Hc&Hr). injection Hr as <- _.
    by eapply change_new.
  - unfold activate. destruct (reservations m !! id) as [r0|] eqn:Hr; simpl; [|by apply change_none].
    destruct (state r0) eqn:Hs; simpl; try by apply change_none.
    eapply (change_state _ _ _ id r0 (with_state r0 Active)); try done. rewrite Hs. constructor.
  - unfold begin_release. destruct (reservations m !! id) as [r0|] eqn:Hr; simpl; [|by apply change_none].
    destruct (state r0) eqn:Hs; simpl; try (by apply change_none);
      (eapply (change_state _ _ _ id r0 (with_state r0 Releasing)); try done);
      rewrite Hs; apply life_release; auto.
  - unfold finish_release. destruct (reservations m !! id) as [r0|] eqn:Hr; simpl; [|by apply change_none].
    destruct (state r0) eqn:Hs; simpl; try by apply change_none.
    eapply (change_state _ _ _ id r0 (with_state r0 Released)); try done. rewrite Hs. constructor.
  - unfold fail. destruct (trimmed_empty reason); [by apply change_none|].
    destruct (reservations m !! id) as [r0|] eqn:Hr; simpl; [|by apply change_none].
    case_bool_decide as Hs; simpl; [by apply change_none|].
    eapply (change_state _ _ _ id r0 {| request := request r0; state := Failed; failure := Some reason |});
      try done. by constructor.
Qed.

(** Only [set_capacity] touches the capacities. *)
Lemma manager_step_capacities m op :
  capacities (manager_step m op) = match op with
    | OpCapacity k n => if (n =? 0) || requires_exclusive k then capacities m
                        else <[k := n]> (capacities m)
    | _ => capacities m
    end.
Proof.
  destruct op; cbn [manager_step].
  - unfold set_capacity. destruct (_ =? _), (requires_exclusive k); done.
  - unfold reserve. destruct (reservations m !! _); [by case_bool_decide|].
    destruct (validate_request r); simpl; [|done..]. by destruct (check_claims m _).
  - unfold activate. destruct (reservations m !! id) as [r|]; simpl; [|done]. by destruct (state r).
  - unfold begin_release. destruct (reservations m !! id) as [r|]; simpl; [|done]. by destruct (state r).
  - unfold finish_release. destruct (reservations m !! id) as [r|]; simpl; [|done]. by destruct (state r).
  - unfold fail. destruct (trimmed_empty reason); [done|].
    destruct (reservations m !! id) as [r|]; simpl; [|done]. by case_bool_decide.
Qed.

Record manager_inv (limit : ResourceKey -> Z) (m : ResourceManager) : Prop := {
  mi_compatible : compatible limit (holdings m);
  mi_capacities : forall k n, capacities m !! k = Some n -> requires_capacity k = true -> n <= limit k;
  mi_requests : forall id r, reservations m !! id = Some r ->
    reservation_id (request r) = id /\ claims_ok (claims (request r));
}.

(** Calls as the Rust types admit them, with capacities within [limit]. *)
Definition op_ok (limit : ResourceKey -> Z) (op : ManagerOp) : Prop :=
  match op with
  | OpCapacity k n => requires_capacity k = true -> n <= limit k
  | OpReserve r => Forall (fun c => 0 <= units c) (claims r)
  | _ => True
  end.

Lemma live_claims_state r0 r :
  request r = request r0 -> lifecycle (state r0) (state r) ->
  live_claims r = live_claims r0 \/ live_claims r = [].
Proof.
  intros Hr Hl. unfold live_claims, holds_resources. rewrite Hr.
  destruct Hl as [|s Hs| |s Hs]; simpl; auto.
  - destruct Hs as [->|[->| ->]]; auto.
  - rewrite (bool_decide_eq_false_2 (s = Released)) by done. auto.
Qed.

Lemma holdings_put_state limit m id r0 r :
  reservations m !! id = Some r0 -> request r = request r0 -> lifecycle (state r0) (state r) ->
  compatible limit (holdings m) -> compatible limit (holdings (put m id r)).
Proof.
  intros Hid Hr Hl Hc. destruct (holdings_put m id r) as (rest&Hp&Hm). rewrite Hid in Hm.
  apply (compatible_perm _ _ _ Hm) in Hc.
  eapply compatible_perm; [by symmetry|].
  destruct (live_claims_state r0 r Hr Hl) as [->| ->]; [done|]. by eapply compatible_tail.
Qed.

Lemma manager_step_inv limit m op :
  manager_inv limit m -> op_ok limit op -> manager_inv limit (manager_step m op).
Proof.
  intros [Hc Hcap Hreq] Hop.
  assert (Hcap' : forall k n, capacities (manager_step m op) !! k = Some n ->
    requires_capacity k = true -> n <= limit k).
  { rewrite manager_step_capacities. intros k n. destruct op; try by apply Hcap.
    destruct (_ || _); [by apply Hcap|].
    destruct (decide (k0 = k)) as [->|]; [|rewrite lookup_insert_ne by done; apply Hcap].
    rewrite lookup_insert_eq. intros [= <-]. exact Hop. }
  destruct (manager_step_change m op) as [He|r -> Hn Hv Hg He|id r0 r Hid Hr Hl He].
  - split; [|exact Hcap'|by rewrite He]. unfold holdings. rewrite He. exact Hc.
  - simpl in Hop. pose proof (validate_request_ok r Hop Hv) as Hok.
    split; [|exact Hcap'|].
    + rewrite He. destruct (holdings_put m (reservation_id r)
        {| request := r; state := Pending; failure := None |}) as (rest&Hp&Hm).
      rewrite Hn in Hm. simpl in Hm. eapply compatible_perm; [by rewrite Hp, <- Hm|].
      apply compatible_grant; try done. apply check_claims_iff; [|done|done].
      intros oc Hoc. destruct Hc as [Hc _]. destruct (Hc oc Hoc). lia.
    + rewrite He. intros id' r'. simpl. destruct (decide (reservation_id r = id')) as [<-|].
      * rewrite lookup_insert_eq. by intros [= <-].
      * rewrite lookup_insert_ne by done. apply Hreq.
  - split; [|exact Hcap'|].
    + rewrite He. by eapply holdings_put_state.
    + rewrite He. intros id' r'. simpl. destruct (decide (id = id')) as [<-|].
      * rewrite lookup_insert_eq. intros [= <-]. rewrite Hr. by apply Hreq.
      * rewrite lookup_insert_ne by done. apply Hreq.
Qed.

Lemma new_manager_inv limit : manager_inv limit new_manager.
Proof.
  assert (holdings new_manager = []) as Hnil.
  { unfold holdings. simpl. by rewrite map_to_list_empty. }
  split; [|done|done]. rewrite Hnil. split; [by intros oc ?%elem_of_nil|].
  intros k. simpl. split_and!; [by intros oc ?%elem_of_nil|done|intros; lia].
Qed.

Lemma manager_run_inv limit ops m :
  manager_inv limit m -> Forall (op_ok limit) ops -> manager_inv limit (fold_left manager_step ops m).
Proof.
  intros Hm Hops. revert m Hm. induction Hops as [|op ops Hop _ IH]; intros m Hm; simpl; [done|].
  by apply IH, manager_step_inv.
Qed.
End Runs.

(** ** What the manager promises. *)

(** C37: whatever calls are made, two live reservations never hold the same
    resource unless both share it: an exclusive claim is the only live claim on
    its resource, resources that must be exclusive have at most one, the units
    held never overflow 64 bits (the [capacity-overflow] error is unreachable),
    and a capacity-bound resource never exceeds the largest capacity that was
    configured for it ([limit]). *)
Theorem resource_exclusion {HO : HashOrder string Reservation} (limit : ResourceKey -> Z)
    (ops : list ManagerOp) (k : ResourceKey) :
  Forall (op_ok limit) ops ->
  let held := claims_on k (holdings (fold_left manager_step ops new_manager)) in
  (forall oc, oc ∈ held -> claim_mode oc.2 = Exclusive -> held = [oc]) /\
  (requires_exclusive k = true -> len held <= 1) /\
  0 <= total_units held <= umax 64 /\
  (requires_capacity k = true -> total_units held <= Z.max 1 (limit k)).
Proof.
  intros Hops. destruct (manager_run_inv limit ops _ (new_manager_inv limit) Hops) as [[H1 H2] _ _].
  set (l := holdings _) in *. cbv zeta. destruct (H2 k) as (Ha&Hb&Hc).
  assert (Hpos : 0 <= total_units (claims_on k l)).
  { apply total_units_nonneg. intros oc Hoc. apply elem_of_claims_on in Hoc as [Hoc _].
    destruct (H1 oc Hoc). lia. }
  split_and!; try done. intros Hx. destruct (claims_on k l) as [|oc l'] eqn:Hl; [done|].
  assert (Hoc : oc ∈ claims_on k l) by (rewrite Hl; set_solver).
  apply elem_of_claims_on in Hoc as [Hoc Hk].
  rewrite (Ha oc ltac:(set_solver)); [done|]. apply (H1 oc Hoc). by rewrite Hk.
Qed.

Definition port_claim : ResourceClaim :=
  {| resource := DpdkPort "0000:01:00.0"; claim_mode := Exclusive; units := 1 |}.
Definition port_request (id session : string) : ReservationRequest :=
  {| reservation_id := id; session_id := session; claims := [port_claim] |}.

Lemma resource_exclusion_witness :
  let HO := list_order string Reservation in
  let ops := [OpCapacity (NumaMemory 0) 10; OpReserve (port_request "r1" "s1");
              OpReserve (port_request "r2" "s2")] in
  len (claims_on (DpdkPort "0000:01:00.0") (holdings (fold_left manager_step ops new_manager))) <= 1.
Proof.
  intros HO ops. destruct (resource_exclusion (fun _ => 10) ops (DpdkPort "0000:01:00.0")) as (_&H&_).
  - repeat constructor; simpl; lia.
  - by apply H.
Defined.

(** [reserve] of a new reservation succeeds exactly when the request is
    well formed and every claim fits what is held, whatever order the hash map
    iterates in; it then grants all claims at once, and otherwise none ([reserve]
    fails and the manager is the one before the call). A repeated request
    returns the stored record and changes nothing; the same ID with another
    request is refused. *)
Theorem reserve_atomic {HO : HashOrder string Reservation} (limit : ResourceKey -> Z)
    (m : ResourceManager) (r : ReservationRequest) :
  manager_inv limit m -> Forall (fun c => 0 <= units c) (claims r) ->
  match reservations m !! reservation_id r with
  | Some stored =>
      reserve m r = if bool_decide (request stored = r) then Ok (m, stored)
                    else Err operation_conflict
  | None =>
      (validate_request r = Ok tt /\ Forall (grantable m) (claims r) <->
       exists m' rec, reserve m r = Ok (m', rec) /\ state rec = Pending /\
         reservations m' = <[reservation_id r := rec]> (reservations m) /\
         holdings m' ≡ₚ map (fun c => (session_id r, c)) (claims r) ++ holdings m) /\
      reserve m r <> Panic
  end.
Proof.
  intros [Hc _ _] Hpos. unfold reserve.
  destruct (reservations m !! reservation_id r) as [stored|] eqn:Hr; [done|].
  assert (Hheld : forall oc, oc ∈ holdings m -> 0 <= units oc.2).
  { intros oc Hoc. destruct Hc as [Hc _]. destruct (Hc oc Hoc). lia. }
  rewrite <- (check_claims_iff m (claims r) Hheld Hpos). split.
  - split.
    + intros [-> ->]. simpl. eexists _, _. split; [done|]. split; [done|]. split; [done|].
      destruct (holdings_put m (reservation_id r)
        {| request := r; state := Pending; failure := None |}) as (rest&Hp&Hm).
      rewrite Hr in Hm. by rewrite Hp, Hm.
    + intros (m'&rec&Hres&_). apply obind_Ok in Hres as ([]&Hv&Hres).
      by apply obind_Ok in Hres as ([]&Hcl&_).
  - assert (validate_request r <> Panic) as Hv.
    { unfold validate_request. destruct (_ || _); [done|]. destruct (claims r) as [|c cs]; [done|].
      generalize (@nil ResourceClaim) as earlier. generalize (c :: cs) as l. clear.
      induction l as [|c l IH]; intros earlier; simpl; [done|]. by repeat case_match. }
    destruct (validate_request r); simpl; [|done..].
    assert (check_claims m (claims r) <> Panic) as Hcl.
    { clear. induction (claims r) as [|c cs IH]; simpl; [done|].
      pose proof (check_claim_total m c). by destruct (check_claim m c). }
    by destruct (check_claims m (claims r)).
Qed.

Lemma reserve_atomic_witness :
  let HO := list_order string Reservation in
  let m := fold_left manager_step [OpReserve (port_request "r1" "s1")] new_manager in
  reserve m (port_request "r2" "s2") <> Panic /\
  reserve m (port_request "r2" "s2") =
    Err (conflict (DpdkPort "0000:01:00.0") "s1" Exclusive).
Proof.
  intros HO m. split; [|vm_compute; reflexivity].
  assert (Hinv : manager_inv (fun _ => 0) m).
  { apply manager_run_inv; [apply new_manager_inv|]. repeat constructor. simpl. lia. }
  pose proof (reserve_atomic (fun _ => 0) m (port_request "r2" "s2") Hinv) as H.
  assert (reservations m !! reservation_id (port_request "r2" "s2") = None) as Hn
    by (vm_compute; reflexivity).
  rewrite Hn in H. apply H. repeat constructor. simpl. lia.
Defined.

(** A reservation never disappears, never changes its request, and moves
    only along the lifecycle pending - active - releasing - released, with
    failure from anywhere before release; a released one stays released, so its
    claims are never held again. *)
Theorem reservation_lifecycle {HO : HashOrder string Reservation} (ops : list ManagerOp)
    (m : ResourceManager) (id : string) (r : Reservation) :
  reservations m !! id = Some r ->
  exists r', reservations (fold_left manager_step ops m) !! id = Some r' /\
    request r' = request r /\ rtc lifecycle (state r) (state r') /\
    (state r = Released -> state r' = Released /\ live_claims r' = []).
Proof.
  assert (Hterm : forall s s', lifecycle s s' -> s <> Released).
  { intros s s' []; try done. by destruct H as [->|[->| ->]]. }
  assert (Hrel : forall s s', rtc lifecycle s s' -> s = Released -> s' = Released).
  { intros s s' H Hs. destruct H as [|s s1 s' Hl _]; [done|]. by apply Hterm in Hl. }
  intros Hr. assert (exists r', reservations (fold_left manager_step ops m) !! id = Some r' /\
    request r' = request r /\ rtc lifecycle (state r) (state r')) as (r'&H1&H2&H3).
  { revert m r Hr. induction ops as [|op ops IH]; intros m r Hr; simpl; [by eexists|].
    assert (exists r1, reservations (manager_step m op) !! id = Some r1 /\
      request r1 = request r /\ rtc lifecycle (state r) (state r1)) as (r1&Hr1&Hq1&Hs1).
    { destruct (manager_step_change m op) as [He|r1 _ Hn _ _ He|id' r0 r1 Hid Hreq Hl He].
      - rewrite He. by exists r.
      - rewrite He. simpl. rewrite lookup_insert_ne by congruence. by exists r.
      - rewrite He. simpl. destruct (decide (id' = id)) as [->|].
        + rewrite lookup_insert_eq. rewrite Hr in Hid. injection Hid as <-.
          exists r1. split_and!; [done|done|]. by apply rtc_once.
        + rewrite lookup_insert_ne by done. by exists r. }
    destruct (IH _ _ Hr1) as (r'&?&?&?). exists r'. split_and!; [done|congruence|by etrans]. }
  exists r'. split_and!; try done. intros Hs. specialize (Hrel _ _ H3 Hs). split; [done|].
  unfold live_claims, holds_resources. by rewrite Hrel.
Qed.

Lemma reservation_lifecycle_witness :
  let HO := list_order string Reservation in
  let m := fold_left manager_step [OpReserve (port_request "r1" "s1"); OpBeginRelease "r1";
                                   OpFinishRelease "r1"] new_manager in
  exists r', reservations (fold_left manager_step [OpActivate "r1"; OpFail "r1" "late";
                                                   OpBeginRelease "r1"] m) !! "r1"%string = Some r' /\
    state r' = Released.
Proof.
  intros HO m.
  destruct (reservation_lifecycle [OpActivate "r1"; OpFail "r1" "late"; OpBeginRelease "r1"] m "r1"
    {| request := port_request "r1" "s1"; state := Released; failure := None |})
    as (r'&Hr&_&_&Hrel); [vm_compute; reflexivity|].
  exists r'. split; [exact Hr|]. by apply Hrel.
Defined.

(** The failure reason outlives the failed state: after [fail] and
    [begin_release] the record is releasing (and later released) and still
    carries the reason, although the field is documented to be set only in the
    failed state. *)
Theorem failure_reason_survives (m : ResourceManager) (id reason : string) (r : Reservation) :
  trimmed_empty reason = false -> reservations m !! id = Some r -> state r <> Released ->
  exists m1 m2 m3 r1 r2 r3, fail m id reason = Ok (m1, r1) /\ begin_release m1 id = Ok (m2, r2) /\
    finish_release m2 id = Ok (m3, r3) /\
    (state r2, failure r2) = (Releasing, Some reason) /\
    (state r3, failure r3) = (Released, Some reason).
Proof.
  intros Hb Hr Hs. unfold fail. rewrite Hb, Hr. simpl. rewrite bool_decide_eq_false_2 by done. simpl.
  eexists _, _, _, _, _, _. split; [done|].
  unfold begin_release. simpl. rewrite lookup_insert_eq. simpl. split; [done|].
  unfold finish_release. simpl. rewrite lookup_insert_eq. simpl. done.
Qed.

Lemma failure_reason_survives_witness :
  let HO := list_order string Reservation in
  let m := fold_left manager_step [OpReserve (port_request "r1" "s1")] new_manager in
  exists m1 m2 m3 r1 r2 r3, fail m "r1" "nic gone" = Ok (m1, r1) /\
    begin_release m1 "r1" = Ok (m2, r2) /\ finish_release m2 "r1" = Ok (m3, r3) /\
    (state r2, failure r2) = (Releasing, Some "nic gone"%string) /\
    (state r3, failure r3) = (Released, Some "nic gone"%string).
Proof.
  intros HO m. apply (failure_reason_survives m "r1" "nic gone"
    {| request := port_request "r1" "s1"; state := Pending; failure := None |}).
  - vm_compute. reflexivity.
  - vm_compute. reflexivity.
  - discriminate.
Defined.
