(* ===== verification/Generator.v ===== *)
(** * Raw packet generator

    Model of [crates/packet/src/generator.rs]: validation of a generator
    profile, the frame template with its IP and transport checksums, and the
    theoretical packet rate. A mutable sub-slice is taken out of the frame,
    changed, and written back. The proofs connect the template to the parser of
    [PacketParser] and to the Internet checksum. *)

From stdpp Require Import base list strings gmap.
From Stdlib Require Import ZArith Lia.
From S2P Require Import Prelude ErrorModel PacketParser PacketStats.
Open Scope Z_scope.

Definition PREAMBLE_AND_SFD_BYTES : Z := 8.
Definition INTER_FRAME_GAP_BYTES : Z := 12.
Definition ETHERNET_FCS_BYTES : Z := 4.

Inductive GeneratorNetwork := Ipv4 | Ipv6.
Inductive GeneratorTransport := GeneratorTcp | GeneratorUdp.

Record IpRange := { ip_start : IpAddr; ip_end : IpAddr }.
Record PortRange := { port_start : Z; port_end : Z }.

Record RawGeneratorProfile := {
  ethernet_size : Z;
  network : GeneratorNetwork;
  gen_transport : GeneratorTransport;
  source_ips : IpRange;
  destination_ips : IpRange;
  source_ports : PortRange;
  destination_ports : PortRange;
  flow_count : Z;
  packet_rate : Z;
}.

Definition invalid {A} (m : string) : res A := err InvalidArgument m.

Definition validate_ip_range (r : IpRange) (n : GeneratorNetwork) : res unit :=
  let valid := match ip_start r, ip_end r, n with
               | V4 s, V4 e, Ipv4 => s <=? e
               | V6 s, V6 e, Ipv6 => s <=? e
               | _, _, _ => false
               end in
  if negb valid then invalid "IP range family or order does not match the profile" else Ok tt.

(** The subtraction of the IPv4 branch panics on a reversed range. *)
Definition ip_cardinality (r : IpRange) : res Z :=
  match ip_start r, ip_end r with
  | V4 s, V4 e => match checked_sub e s with Some d => Ok (d + 1) | None => Panic end
  | V6 s, V6 e => Ok (sat_add 128 (sat_sub e s) 1)
  | _, _ => Ok 0
  end.

Definition port_cardinality (r : PortRange) : res Z :=
  if (port_start r =? 0) || (port_end r <? port_start r)
  then invalid "transport port range is invalid"
  else Ok (port_end r - port_start r + 1).

(** [RawGeneratorProfile::validate]. *)
Definition validate (p : RawGeneratorProfile) : res unit :=
  if ethernet_size p <? 64 then invalid "Ethernet wire size must be at least 64 bytes"
  else if (flow_count p =? 0) || (packet_rate p =? 0)
  then invalid "flow count and packet rate must be non-zero"
  else
    let? _ := validate_ip_range (source_ips p) (network p) in
    let? _ := validate_ip_range (destination_ips p) (network p) in
    let? sports := port_cardinality (source_ports p) in
    let? dports := port_cardinality (destination_ports p) in
    let? sips := ip_cardinality (source_ips p) in
    let? dips := ip_cardinality (destination_ips p) in
    let capacity := sat_mul 128 (sat_mul 128 (sat_mul 128 sips dips) sports) dports in
    if capacity <? flow_count p
    then invalid "flow count exceeds the configured address/port matrix"
    else Ok tt.

Definition transmit_length (p : RawGeneratorProfile) : res Z :=
  let? _ := validate p in
  match checked_sub (ethernet_size p) ETHERNET_FCS_BYTES with Some n => Ok n | None => Panic end.

(** ** The Internet checksum. *)

(** [while sum > 0xffff { sum = (sum & 0xffff) + (sum >> 16) }]. *)
Fixpoint fold_carries (fuel : nat) (sum : Z) : Z :=
  match fuel with
  | O => sum
  | S fuel =>
      if umax 16 <? sum then fold_carries fuel (Z.land sum (umax 16) + Z.shiftr sum 16) else sum
  end.

Definition add_word (sum value : Z) : Z := fold_carries 3 (sat_add 32 sum value).

(** [for chunk in bytes.chunks(2)]. *)
Fixpoint checksum_loop (sum : Z) (bs : bytes) : Z :=
  match bs with
  | [] => sum
  | [a] => add_word sum (from_be_bytes [a; 0])
  | a :: b :: bs => checksum_loop (add_word sum (from_be_bytes [a; b])) bs
  end.

(** [!u16::try_from(sum).unwrap_or(u16::MAX)]. *)
Definition checksum (bs : bytes) : Z := umax 16 - clamp 16 (checksum_loop 0 bs).

(** The pseudo header of [transport_checksum]. *)
Definition pseudo_header (source destination : IpAddr) (protocol segment_length : Z)
    : option bytes :=
  match source, destination with
  | V4 _, V4 _ =>
      Some (octets source ++ octets destination ++ [0; protocol] ++
            to_be_bytes 2 (clamp 16 segment_length))
  | V6 _, V6 _ =>
      Some (octets source ++ octets destination ++ to_be_bytes 4 (clamp 32 segment_length) ++
            [0; 0; 0; protocol])
  | _, _ => None
  end.

Definition transport_checksum (source destination : IpAddr) (protocol : Z) (segment : bytes) : Z :=
  match pseudo_header source destination protocol (len segment) with
  | None => 0
  | Some pseudo =>
      let value := checksum (pseudo ++ segment) in
      if value =? 0 then umax 16 else value
  end.

(** ** The template. *)

(** A change of the sub-slice [&mut bytes[a..b]]. *)
Definition on_slice {E} (bs : bytes) (a b : Z) (f : bytes -> outcome E bytes) : outcome E bytes :=
  let? s := slice bs a b in
  let? s := f s in
  copy_at bs a s.

Definition protocol_number (t : GeneratorTransport) : Z :=
  match t with GeneratorTcp => 6 | GeneratorUdp => 17 end.

(** The transport header, written into the zeroed [&mut bytes[base..]]. *)
Definition fill_transport (p : RawGeneratorProfile) (transport : bytes) : res bytes :=
  let? t := copy_at transport 0 (to_be_bytes 2 (port_start (source_ports p))) in
  let? t := copy_at t 2 (to_be_bytes 2 (port_start (destination_ports p))) in
  let? t := match gen_transport p with
            | GeneratorUdp => copy_at t 4 (to_be_bytes 2 (clamp 16 (len transport)))
            | GeneratorTcp => set_index t 12 0x50
            end in
  let c := transport_checksum (ip_start (source_ips p)) (ip_start (destination_ips p))
             (protocol_number (gen_transport p)) t in
  match gen_transport p with
  | GeneratorUdp => copy_at t 6 (to_be_bytes 2 c)
  | GeneratorTcp => copy_at t 16 (to_be_bytes 2 c)
  end.

(** The IPv4 header in the zeroed [&mut bytes[14..34]]. *)
Definition fill_ipv4 (p : RawGeneratorProfile) (length : Z) (ip : bytes) : res bytes :=
  let? ip := set_index ip 0 0x45 in
  let? ip := copy_at ip 2 (to_be_bytes 2 (clamp 16 (length - 14))) in
  let? ip := set_index ip 8 64 in
  let? ip := set_index ip 9 (protocol_number (gen_transport p)) in
  let? ip := copy_at ip 12 (octets (ip_start (source_ips p))) in
  let? ip := copy_at ip 16 (octets (ip_start (destination_ips p))) in
  copy_at ip 10 (to_be_bytes 2 (checksum ip)).

(** The IPv6 header in the zeroed [&mut bytes[14..54]]. *)
Definition fill_ipv6 (p : RawGeneratorProfile) (length : Z) (ip : bytes) : res bytes :=
  let? ip := set_index ip 0 0x60 in
  let? ip := copy_at ip 4 (to_be_bytes 2 (clamp 16 (length - 54))) in
  let? ip := set_index ip 6 (protocol_number (gen_transport p)) in
  let? ip := set_index ip 7 64 in
  let? ip := copy_at ip 8 (octets (ip_start (source_ips p))) in
  copy_at ip 24 (octets (ip_start (destination_ips p))).

(** [RawGeneratorProfile::template_bytes]. *)
Definition template_bytes (p : RawGeneratorProfile) : res bytes :=
  let? length := transmit_length p in
  let transport_header := match gen_transport p with GeneratorUdp => 8 | GeneratorTcp => 20 end in
  let minimum := match network p with
                 | Ipv4 => 14 + 20 + transport_header
                 | Ipv6 => 14 + 40 + transport_header
                 end in
  if length <? minimum
  then invalid "Ethernet frame is too small for the selected IP/transport template"
  else
    let bs := repeat 0 (Z.to_nat length) in
    let? bs := copy_at bs 0 [0x02; 0; 0; 0; 0; 2] in
    let? bs := copy_at bs 6 [0x02; 0; 0; 0; 0; 1] in
    match network p, ip_start (source_ips p), ip_start (destination_ips p) with
    | Ipv4, V4 _, V4 _ =>
        let? bs := copy_at bs 12 (to_be_bytes 2 ETHERTYPE_IPV4) in
        let? bs := on_slice bs 14 34 (fill_ipv4 p length) in
        on_slice bs 34 (len bs) (fill_transport p)
    | Ipv6, V6 _, V6 _ =>
        let? bs := copy_at bs 12 (to_be_bytes 2 ETHERTYPE_IPV6) in
        let? bs := on_slice bs 14 54 (fill_ipv6 p length) in
        on_slice bs 54 (len bs) (fill_transport p)
    | _, _, _ => invalid "generator address family does not match network"
    end.

(** ** The destination address. *)

(** [str::split(':')]. *)
Fixpoint split_colon (part : bytes) (bs : bytes) : list bytes :=
  match bs with
  | [] => [part]
  | b :: bs => if b =? 58 then part :: split_colon [] bs else split_colon (part ++ [b]) bs
  end.

(** The value of a hexadecimal digit, [None] for another byte. *)
Definition hex_value (b : Z) : option Z :=
  if (48 <=? b) && (b <=? 57) then Some (b - 48)
  else if (97 <=? b) && (b <=? 102) then Some (b - 87)
  else if (65 <=? b) && (b <=? 70) then Some (b - 55)
  else None.

Definition is_hex (b : Z) : bool := match hex_value b with Some _ => true | None => false end.

(** [u8::from_str_radix(part, 16)] of hexadecimal digits. *)
Fixpoint parse_hex (acc : Z) (bs : bytes) : option Z :=
  match bs with
  | [] => Some acc
  | b :: bs =>
      match hex_value b with
      | Some d => if acc * 16 + d <=? umax 8 then parse_hex (acc * 16 + d) bs else None
      | None => None
      end
  end.

Fixpoint parse_parts (parts : list bytes) : res bytes :=
  match parts with
  | [] => Ok []
  | part :: parts =>
      let? b := ok_or (parse_hex 0 part)
                  (new_error InvalidArgument "destination MAC address is invalid" false) in
      let? bs := parse_parts parts in
      Ok (b :: bs)
  end.

Definition template_bytes_with_destination_mac (p : RawGeneratorProfile) (destination_mac : string)
    : res bytes :=
  let? bs := template_bytes p in
  let parts := split_colon [] (as_bytes destination_mac) in
  if negb (len parts =? 6) ||
     existsb (fun part => negb (len part =? 2) || negb (forallb is_hex part)) parts
  then invalid "destination MAC address is invalid"
  else
    let? mac := parse_parts parts in
    let? first := index mac 0 in
    if negb (Z.land first 1 =? 0) || bool_decide (mac = repeat 0 6)
    then invalid "destination MAC address must be unicast"
    else copy_at bs 0 mac.

Definition theoretical_packets_per_second (line_rate ethernet_size : Z) : res f64 :=
  if (line_rate =? 0) || (ethernet_size =? 0)
  then invalid "line rate and Ethernet size must be non-zero"
  else
    let bits := (ethernet_size + PREAMBLE_AND_SFD_BYTES + INTER_FRAME_GAP_BYTES) * 8 in
    if bits <=? umax 64 then Ok (f64_div (f64_of_Z line_rate) (f64_of_Z bits))
    else invalid "wire size overflow".

(** ** The checksum is the one's complement sum. *)

Fixpoint word_sum (bs : bytes) : Z :=
  match bs with
  | [] => 0
  | [a] => a * 256
  | a :: b :: bs => a * 256 + b + word_sum bs
  end.

Lemma list_pair_ind {A} (P : list A -> Prop) :
  P [] -> (forall a, P [a]) -> (forall a b l, P l -> P (a :: b :: l)) -> forall l, P l.
Proof.
  intros H0 H1 H2 l. assert (P l /\ forall a, P (a :: l)) as [? _]; [|done].
  induction l as [|b l [IH1 IH2]]; auto.
Qed.

Lemma word_sum_nonneg bs : bytes_ok bs -> 0 <= word_sum bs.
Proof.
  induction bs as [|a|a b bs IH] using list_pair_ind; intros Hb; simpl; [done| |].
  - inversion Hb; subst. unfold is_byte in *. lia.
  - inversion Hb as [|?? Ha Hb']; subst. inversion Hb'; subst. specialize (IH ltac:(done)).
    unfold is_byte in *. lia.
Qed.

Lemma word_sum_app a b : Nat.Even (length a) -> word_sum (a ++ b) = word_sum a + word_sum b.
Proof.
  induction a as [|x|x y a IH] using list_pair_ind; intros He; simpl; [done| |].
  - destruct He as [k Hk]. simpl in Hk. lia.
  - rewrite IH; [lia|]. destruct He as [k Hk]. simpl in Hk. exists (k - 1)%nat. lia.
Qed.

Lemma fold_once s : 65535 < s -> s <= 131070 -> Z.land s (umax 16) + Z.shiftr s 16 = s - 65535.
Proof.
  intros H1 H2. change (umax 16) with (Z.ones 16). rewrite Z.land_ones, Z.shiftr_div_pow2 by lia.
  change (2 ^ 16) with 65536. pose proof (Z.div_mod s 65536 ltac:(lia)).
  pose proof (Z.mod_pos_bound s 65536 ltac:(lia)).
  assert (s / 65536 = 1) by (symmetry; apply (Z.div_unique s 65536 1 (s - 65536)); lia). lia.
Qed.

Lemma add_word_spec s v :
  0 <= s <= 65535 -> 0 <= v <= 65535 ->
  let r := add_word s v in
  0 <= r <= 65535 /\ (r = s + v \/ r = s + v - 65535) /\ (r = 0 <-> s + v = 0).
Proof.
  intros Hs Hv. cbv zeta.
  assert (add_word s v = if umax 16 <? s + v then s + v - 65535 else s + v) as ->.
  { unfold add_word. rewrite sat_add_exact by (unfold umax; lia). cbn [fold_carries].
    destruct (Z.ltb_spec (umax 16) (s + v)); [|done]. unfold umax in *.
    pose proof (fold_once (s + v) ltac:(lia) ltac:(lia)) as Hf. unfold umax in Hf. rewrite !Hf.
    by rewrite (proj2 (Z.ltb_ge _ _)) by lia. }
  unfold umax. destruct (Z.ltb_spec (2 ^ 16 - 1) (s + v)); lia.
Qed.

Lemma be2 a b : from_be_bytes [a; b] = a * 256 + b.
Proof. unfold from_be_bytes. simpl. lia. Qed.

Lemma checksum_loop_spec bs s :
  bytes_ok bs -> 0 <= s <= 65535 ->
  let r := checksum_loop s bs in
  0 <= r <= 65535 /\ (exists k, r = s + word_sum bs - k * 65535) /\ (r = 0 <-> s + word_sum bs = 0).
Proof.
  cbv zeta. revert s. induction bs as [|a|a b bs IH] using list_pair_ind; intros s Hb Hs.
  - cbn [checksum_loop word_sum]. split; [lia|]. split; [exists 0; lia|lia].
  - inversion Hb as [|?? Ha _]; subst. unfold is_byte in Ha. cbn [checksum_loop word_sum].
    rewrite be2. destruct (add_word_spec s (a * 256 + 0) Hs ltac:(lia)) as (?&H1&?).
    split; [lia|]. split; [|lia]. destruct H1; [exists 0|exists 1]; lia.
  - inversion Hb as [|?? Ha Hb']; subst. inversion Hb' as [|?? Hb0 Hb'']; subst.
    unfold is_byte in *. cbn [checksum_loop word_sum]. rewrite be2.
    destruct (add_word_spec s (a * 256 + b) Hs ltac:(lia)) as (Hr&H1&H0).
    destruct (IH _ Hb'' Hr) as (?&[k Hk]&Hz). split; [done|]. pose proof (word_sum_nonneg bs Hb'').
    split; [|lia]. destruct H1 as [H1|H1]; [exists k|exists (k + 1)]; lia.
Qed.

(** The checksum completes the sum to a positive multiple of 65535. *)
Lemma checksum_completes bs :
  bytes_ok bs ->
  uint 16 (checksum bs) /\ 0 < word_sum bs + checksum bs /\
  exists k, word_sum bs + checksum bs = k * 65535.
Proof.
  intros Hb. destruct (checksum_loop_spec bs 0 Hb ltac:(lia)) as (Hr&[k Hk]&Hz).
  pose proof (word_sum_nonneg bs Hb). unfold checksum, uint. change (umax 16) with 65535.
  unfold clamp. change (umax 16) with 65535. rewrite (proj2 (Z.leb_le _ _)) by lia.
  split_and!; [lia|lia|lia|]. exists (k + 1). lia.
Qed.

Lemma checksum_zero bs :
  bytes_ok bs -> 0 < word_sum bs -> (exists k, word_sum bs = k * 65535) -> checksum bs = 0.
Proof.
  intros Hb Hp [k Hk]. destruct (checksum_loop_spec bs 0 Hb ltac:(lia)) as (Hr&[j Hj]&Hz).
  unfold checksum, clamp. change (umax 16) with 65535. rewrite (proj2 (Z.leb_le _ _)) by lia.
  assert (checksum_loop 0 bs = (k - j) * 65535) as He by lia. assert (k - j = 1) by nia. lia.
Qed.

(** Writing the checksum over a zero word at an even position makes the whole
    sum to zero. *)
Lemma checksum_inserted a b c :
  bytes_ok a -> bytes_ok b -> Nat.Even (length a) -> uint 16 c ->
  0 < word_sum (a ++ [0; 0] ++ b) + c ->
  (exists k, word_sum (a ++ [0; 0] ++ b) + c = k * 65535) ->
  checksum (a ++ to_be_bytes 2 c ++ b) = 0.
Proof.
  intros Ha Hb He Hc Hp Hk. rewrite !word_sum_app in Hp, Hk by (done || by exists 1%nat).
  change (word_sum [0; 0]) with 0 in *.
  assert (Hw : word_sum (to_be_bytes 2 c) = c).
  { unfold to_be_bytes. simpl. unfold uint, umax in Hc.
    rewrite (Z.mod_small (c / 256) 256) by (split; [apply Z.div_pos|apply Z.div_lt_upper_bound]; lia).
    pose proof (Z.div_mod c 256). lia. }
  apply checksum_zero.
  - apply Forall_app. split; [done|]. apply Forall_app. split; [|done]. apply to_be_bytes_ok.
  - rewrite !word_sum_app, Hw by (done || by exists 1%nat). lia.
  - rewrite !word_sum_app, Hw by (done || by exists 1%nat). destruct Hk as [k Hk]. exists k. lia.
Qed.

(** ** The layout of the template. *)

(** Writing over a piece [b] of a buffer [l = pre ++ b ++ c]. *)
Lemma copy_at_piece {E} pre b c l i src :
  l = pre ++ b ++ c -> len pre = i -> length b = length src ->
  copy_at (E := E) l i src = Ok (pre ++ src ++ c).
Proof.
  intros -> <- Hb. unfold copy_at. pose proof (len_nonneg pre). pose proof (len_nonneg c).
  rewrite !len_app. unfold len in *. rewrite Hb, (proj2 (Z.leb_le 0 _)), (proj2 (Z.leb_le _ _)) by lia.
  simpl. f_equal. rewrite Nat2Z.id, take_app_length. do 2 f_equal.
  rewrite app_assoc, drop_app_length'; [done|]. rewrite length_app. lia.
Qed.

Lemma set_index_piece {E} (pre : bytes) x y c l i :
  l = pre ++ [x] ++ c -> len pre = i -> set_index (E := E) l i y = Ok (pre ++ [y] ++ c).
Proof.
  intros -> <-. unfold set_index. pose proof (len_nonneg pre). pose proof (len_nonneg c).
  rewrite !len_app. change (len [x]) with 1.
  rewrite (proj2 (Z.leb_le 0 _)), (proj2 (Z.ltb_lt _ _)) by lia. simpl. f_equal.
  unfold len. rewrite Nat2Z.id, insert_app_r_alt, Nat.sub_diag by lia. done.
Qed.

(** A sub-slice between a prefix and a rest. *)
Lemma on_slice_mid {E} hd mid tl f a b (out : bytes) :
  len hd = a -> a + len mid = b -> f mid = Ok out -> len out = len mid ->
  on_slice (E := E) (hd ++ mid ++ tl) a b f = Ok (hd ++ out ++ tl).
Proof.
  intros <- <- Hf Ho. unfold on_slice.
  assert (slice (E := E) (hd ++ mid ++ tl) (len hd) (len hd + len mid) = Ok mid) as ->.
  { unfold slice. pose proof (len_nonneg hd). pose proof (len_nonneg mid).
    rewrite get_range_skip by lia. replace (len hd - len hd) with 0 by lia.
    replace (len hd + len mid - len hd) with (len mid) by lia. by rewrite get_range_head. }
  cbn [obind]. rewrite Hf. cbn [obind]. unfold copy_at. rewrite !len_app.
  pose proof (len_nonneg hd). pose proof (len_nonneg mid). pose proof (len_nonneg tl).
  rewrite (proj2 (Z.leb_le 0 _)), (proj2 (Z.leb_le _ _)) by lia. simpl. f_equal.
  unfold len in *. rewrite take_app_le, take_ge by lia. do 2 f_equal.
  rewrite drop_app_ge by lia. rewrite drop_app_ge by lia. 
  replace (Z.to_nat _ - length hd - length mid)%nat with 0%nat by lia. by rewrite drop_0.
Qed.

Lemma repeat_split {A} (x : A) n k : (k <= n)%nat -> repeat x n = repeat x k ++ repeat x (n - k).
Proof. intros Hk. rewrite <- repeat_app. f_equal. lia. Qed.

Lemma len_repeat {A} (x : A) n : len (repeat x n) = Z.of_nat n.
Proof. unfold len. by rewrite repeat_length. Qed.

Lemma repeat_zero_ok n : bytes_ok (repeat 0 n).
Proof. induction n; simpl; constructor; [unfold is_byte; lia|done]. Qed.

Lemma octets_length a : length (octets a) = match a with V4 _ => 4%nat | V6 _ => 16%nat end.
Proof. destruct a; apply to_be_bytes_length. Qed.

Lemma octets_ok a : bytes_ok (octets a).
Proof. destruct a; apply to_be_bytes_ok. Qed.

Definition header_length (t : GeneratorTransport) : nat :=
  match t with GeneratorTcp => 20%nat | GeneratorUdp => 8%nat end.

(** The transport header the template should carry, with checksum [c]. *)
Definition transport_head (p : RawGeneratorProfile) (n c : Z) : bytes :=
  to_be_bytes 2 (port_start (source_ports p)) ++ to_be_bytes 2 (port_start (destination_ports p)) ++
  match gen_transport p with
  | GeneratorUdp => to_be_bytes 2 n ++ to_be_bytes 2 c
  | GeneratorTcp => repeat 0 8 ++ [0x50; 0; 0; 0] ++ to_be_bytes 2 c ++ [0; 0]
  end.

Definition same_family (p : RawGeneratorProfile) : Prop :=
  match ip_start (source_ips p), ip_start (destination_ips p), network p with
  | V4 _, V4 _, Ipv4 | V6 _, V6 _, Ipv6 => True
  | _, _, _ => False
  end.

Lemma pseudo_header_ok p pr n :
  same_family p -> uint 8 pr -> exists ph,
    pseudo_header (ip_start (source_ips p)) (ip_start (destination_ips p)) pr n = Some ph /\
    bytes_ok ph /\ Nat.Even (length ph).
Proof.
  unfold same_family, pseudo_header. intros Hf Hp.
  assert (Hz : is_byte 0) by (unfold is_byte; lia).
  assert (Hpb : is_byte pr) by (unfold uint, umax, is_byte in *; lia).
  destruct (ip_start (source_ips p)) as [s|s], (ip_start (destination_ips p)) as [d|d]; try done;
    eexists; (split; [reflexivity|]); rewrite !length_app, !octets_length, to_be_bytes_length.
  - split; [|by exists 6%nat]. unfold bytes_ok. rewrite !Forall_app.
    split_and!; try apply octets_ok; try apply to_be_bytes_ok.
    repeat (apply List.Forall_cons; [done|]); apply List.Forall_nil.
  - split; [|by exists 20%nat]. unfold bytes_ok. rewrite !Forall_app.
    split_and!; try apply octets_ok; try apply to_be_bytes_ok.
    repeat (apply List.Forall_cons; [done|]); apply List.Forall_nil.
Qed.

(** The transport checksum completes the sum of pseudo header and segment. *)
Lemma transport_checksum_completes p pr seg ph :
  pseudo_header (ip_start (source_ips p)) (ip_start (destination_ips p)) pr (len seg) = Some ph ->
  bytes_ok ph -> bytes_ok seg ->
  let c := transport_checksum (ip_start (source_ips p)) (ip_start (destination_ips p)) pr seg in
  uint 16 c /\ 0 < word_sum (ph ++ seg) + c /\ (exists k, word_sum (ph ++ seg) + c = k * 65535).
Proof.
  intros Hph Hb Hs. unfold transport_checksum. rewrite Hph. cbv zeta.
  assert (Hall : bytes_ok (ph ++ seg)) by (by apply Forall_app).
  destruct (checksum_completes _ Hall) as (Hc&Hp&[k Hk]).
  destruct (Z.eqb_spec (checksum (ph ++ seg)) 0) as [Hz|Hz]; [|by eauto].
  pose proof (word_sum_nonneg _ Hall). unfold uint. change (umax 16) with 65535.
  split_and!; try lia. exists (k + 1). lia.
Qed.

Definition profile_typed (p : RawGeneratorProfile) : Prop :=
  uint 16 (ethernet_size p) /\
  ip_ok (ip_start (source_ips p)) /\ ip_ok (ip_start (destination_ips p)) /\
  ip_ok (ip_end (source_ips p)) /\ ip_ok (ip_end (destination_ips p)) /\
  uint 16 (port_start (source_ports p)) /\ uint 16 (port_start (destination_ports p)) /\
  uint 16 (port_end (source_ports p)) /\ uint 16 (port_end (destination_ports p)) /\
  uint 64 (flow_count p) /\ uint 64 (packet_rate p).

(** The segment verifies: with its pseudo header it sums to zero. *)
Definition segment_verifies (p : RawGeneratorProfile) (seg : bytes) : Prop :=
  exists ph, pseudo_header (ip_start (source_ips p)) (ip_start (destination_ips p))
    (protocol_number (gen_transport p)) (len seg) = Some ph /\ checksum (ph ++ seg) = 0.

Lemma be2_bytes x : to_be_bytes 2 x = [(x / 256) mod 256; x mod 256].
Proof. reflexivity. Qed.

Lemma fill_transport_spec p n :
  same_family p -> (header_length (gen_transport p) <= n)%nat -> Z.of_nat n <= 65535 ->
  exists c, uint 16 c /\
    let seg := transport_head p (Z.of_nat n) c ++ repeat 0 (n - header_length (gen_transport p)) in
    fill_transport p (repeat 0 n) = Ok seg /\ len seg = Z.of_nat n /\ bytes_ok seg /\
    segment_verifies p seg.
Proof.
  intros Hf Hn Hmax. set (h := header_length (gen_transport p)).
  set (tail := repeat 0 (n - h)).
  assert (Htail : bytes_ok tail) by apply repeat_zero_ok.
  assert (Hlt : len tail = Z.of_nat n - Z.of_nat h) by (unfold len, tail; rewrite repeat_length; lia).
  destruct (pseudo_header_ok p (protocol_number (gen_transport p)) (Z.of_nat n) Hf) as (ph&Hph&Hpb&Hpe);
    [destruct (gen_transport p); by vm_compute|].
  (* the header before the checksum, and the position of the checksum *)
  set (c := transport_checksum (ip_start (source_ips p)) (ip_start (destination_ips p))
             (protocol_number (gen_transport p)) (transport_head p (Z.of_nat n) 0 ++ tail)).
  assert (Hlen : forall c, len (transport_head p (Z.of_nat n) c ++ tail) = Z.of_nat n).
  { intros c'. rewrite len_app, Hlt. unfold transport_head, h, header_length.
    destruct (gen_transport p); rewrite !len_app, !len_to_be_bytes; unfold len; simpl; lia. }
  assert (Hok : forall c, bytes_ok (transport_head p (Z.of_nat n) c ++ tail)).
  { intros c'. unfold transport_head, bytes_ok. destruct (gen_transport p); rewrite !Forall_app;
      split_and!; try apply to_be_bytes_ok; try apply repeat_zero_ok; try exact Htail;
      repeat constructor; unfold is_byte; lia. }
  assert (Hsum := transport_checksum_completes p (protocol_number (gen_transport p))
    (transport_head p (Z.of_nat n) 0 ++ tail) ph).
  rewrite (Hlen 0) in Hsum. specialize (Hsum Hph Hpb (Hok 0)). fold c in Hsum.
  destruct Hsum as (Hc&Hpos&Hk). exists c. split; [done|]. cbv zeta.
  assert (Hver : segment_verifies p (transport_head p (Z.of_nat n) c ++ tail)).
  { exists ph. rewrite Hlen. split; [done|]. revert Hpos Hk Hok. unfold transport_head.
    destruct (gen_transport p).
    - intros Hpos Hk Hok. specialize (Hok 0). unfold bytes_ok in Hok. rewrite !Forall_app in Hok.
      destruct Hok as [[H1 [H2 [H3 [H4 _]]]] _].
      pose proof (checksum_inserted
        (ph ++ to_be_bytes 2 (port_start (source_ports p)) ++ to_be_bytes 2 (port_start (destination_ports p)) ++
         repeat 0 8 ++ [0x50; 0; 0; 0]) ([0; 0] ++ tail) c) as Hins.
      repeat rewrite <- app_assoc in Hins. repeat rewrite <- app_assoc in Hpos, Hk |- *. apply Hins; try done.
      + unfold bytes_ok. rewrite !Forall_app. by split_and!.
      + apply Forall_app. split; [repeat constructor; unfold is_byte; lia|done].
      + destruct Hpe as [k Hpe]. exists (k + 8)%nat. rewrite !length_app, !to_be_bytes_length, Hpe. simpl. lia.
    - intros Hpos Hk Hok. specialize (Hok 0). unfold bytes_ok in Hok. rewrite !Forall_app in Hok.
      destruct Hok as [[H1 [H2 [H3 _]]] _].
      pose proof (checksum_inserted
        (ph ++ to_be_bytes 2 (port_start (source_ports p)) ++ to_be_bytes 2 (port_start (destination_ports p)) ++
         to_be_bytes 2 (Z.of_nat n)) tail c) as Hins.
      repeat rewrite <- app_assoc in Hins. repeat rewrite <- app_assoc in Hpos, Hk |- *. apply Hins; try done.
      + unfold bytes_ok. rewrite !Forall_app. by split_and!.
      + destruct Hpe as [k Hpe]. exists (k + 3)%nat. rewrite !length_app, !to_be_bytes_length, Hpe. simpl. lia. }
  split_and!; [|apply Hlen|apply Hok|exact Hver].
  unfold fill_transport. rewrite (repeat_split 0 n h) by done. fold tail.
  assert (Hlr : len (repeat 0 h ++ tail) = Z.of_nat n).
  { rewrite len_app, Hlt. unfold len. rewrite repeat_length. lia. }
  rewrite Hlr, clamp_id by (unfold umax; lia). unfold c, transport_head, h, header_length in *.
  set (S := to_be_bytes 2 (port_start (source_ports p))) in *.
  set (D := to_be_bytes 2 (port_start (destination_ports p))) in *. clearbody tail.
  assert (HS : length S = 2%nat) by apply to_be_bytes_length.
  assert (HD : length D = 2%nat) by apply to_be_bytes_length. clearbody S D.
  assert (HSl : len S = 2) by (unfold len; by rewrite HS).
  assert (HSD : len (S ++ D) = 4) by (unfold len; by rewrite length_app, HS, HD).
  destruct (gen_transport p).
  - rewrite (copy_at_piece [] [0; 0] (repeat 0 18 ++ tail)) by done. cbn [obind].
    rewrite (copy_at_piece S [0; 0] (repeat 0 16 ++ tail)) by done. cbn [obind].
    rewrite (set_index_piece (S ++ D ++ repeat 0 8) 0 _ (repeat 0 7 ++ tail));
      [|by rewrite <- !app_assoc|by rewrite app_assoc, len_app, HSD]. cbn [obind].
    rewrite (copy_at_piece (S ++ D ++ repeat 0 8 ++ [80; 0; 0; 0]) [0; 0] ([0; 0] ++ tail));
      [by rewrite <- !app_assoc|by rewrite <- !app_assoc|by rewrite app_assoc, len_app, HSD|done].
  - rewrite (copy_at_piece [] [0; 0] (repeat 0 6 ++ tail)) by done. cbn [obind].
    rewrite (copy_at_piece S [0; 0] (repeat 0 4 ++ tail)) by done. cbn [obind].
    rewrite (copy_at_piece (S ++ D) [0; 0] (repeat 0 2 ++ tail));
      [|by rewrite <- !app_assoc|done|by rewrite to_be_bytes_length]. cbn [obind].
    rewrite (copy_at_piece (S ++ D ++ to_be_bytes 2 (Z.of_nat n)) [0; 0] tail);
      [by rewrite <- !app_assoc|by rewrite <- !app_assoc|by rewrite app_assoc, len_app, HSD, len_to_be_bytes
      |by rewrite to_be_bytes_length].
Qed.

(** The IPv4 header, with total length [n] and checksum [c]. *)
Definition ipv4_head (p : RawGeneratorProfile) (n c : Z) : bytes :=
  [0x45; 0] ++ to_be_bytes 2 n ++ [0; 0; 0; 0] ++ [64] ++ [protocol_number (gen_transport p)] ++
  to_be_bytes 2 c ++ octets (ip_start (source_ips p)) ++ octets (ip_start (destination_ips p)).

Definition ipv6_head (p : RawGeneratorProfile) (n : Z) : bytes :=
  [0x60; 0; 0; 0] ++ to_be_bytes 2 n ++ [protocol_number (gen_transport p)] ++ [64] ++
  octets (ip_start (source_ips p)) ++ octets (ip_start (destination_ips p)).

Lemma protocol_byte t : is_byte (protocol_number t).
Proof. destruct t; by vm_compute. Qed.

(** [bytes_ok] of an append of octets, encoded integers and literals. *)
Ltac bytes_pieces :=
  unfold bytes_ok; rewrite ?Forall_app; split_and!; try apply to_be_bytes_ok; try apply octets_ok;
  repeat (apply List.Forall_cons; [done|]); apply List.Forall_nil.
(** Equality of lists up to association of appends. *)
Ltac reassoc := rewrite ?app_nil_r; repeat rewrite <- app_assoc; reflexivity.
Ltac piece_length := rewrite ?len_app, ?len_to_be_bytes; unfold len; simpl; (done || lia).

Lemma fill_ipv4_spec p s d length :
  ip_start (source_ips p) = V4 s -> ip_start (destination_ips p) = V4 d -> 14 <= length <= 65535 ->
  exists c, uint 16 c /\ fill_ipv4 p length (repeat 0 20) = Ok (ipv4_head p (length - 14) c) /\
    checksum (ipv4_head p (length - 14) c) = 0.
Proof.
  intros Hs Hd Hl. exists (checksum (ipv4_head p (length - 14) 0)).
  assert (Hso : List.length (octets (ip_start (source_ips p))) = 4%nat) by (by rewrite Hs, octets_length).
  assert (Hdo : List.length (octets (ip_start (destination_ips p))) = 4%nat) by (by rewrite Hd, octets_length).
  pose proof (protocol_byte (gen_transport p)) as Hpr.
  assert (Hok : bytes_ok (ipv4_head p (length - 14) 0)).
  { unfold ipv4_head. bytes_pieces. }
  destruct (checksum_completes _ Hok) as (Hc&Hpos&Hk). split; [done|]. split.
  - unfold fill_ipv4. rewrite clamp_id by (unfold umax; lia).
    set (N := to_be_bytes 2 (length - 14)) in *. set (PR := protocol_number (gen_transport p)) in *.
    set (S := octets (ip_start (source_ips p))) in *.
    set (D := octets (ip_start (destination_ips p))) in *.
    assert (HN : List.length N = 2%nat) by apply to_be_bytes_length.
    rewrite (set_index_piece [] 0 0x45 (repeat 0 19)) by done. cbn [obind].
    rewrite (copy_at_piece [0x45; 0] [0; 0] (repeat 0 16)) by done. cbn [obind].
    rewrite (set_index_piece ([0x45; 0] ++ N ++ [0; 0; 0; 0]) 0 64 (repeat 0 11));
      [|reassoc|rewrite !len_app; unfold len; rewrite HN; done]. cbn [obind].
    rewrite (set_index_piece ([0x45; 0] ++ N ++ [0; 0; 0; 0] ++ [64]) 0 PR (repeat 0 10));
      [|reassoc|rewrite !len_app; unfold len; rewrite HN; done]. cbn [obind].
    rewrite (copy_at_piece ([0x45; 0] ++ N ++ [0; 0; 0; 0] ++ [64] ++ [PR] ++ [0; 0]) (repeat 0 4) (repeat 0 4));
      [|reassoc|rewrite !len_app; unfold len; rewrite HN; done|by rewrite Hso]. cbn [obind].
    rewrite (copy_at_piece ([0x45; 0] ++ N ++ [0; 0; 0; 0] ++ [64] ++ [PR] ++ [0; 0] ++ S) (repeat 0 4) []);
      [|reassoc|rewrite !len_app; unfold len; rewrite HN, Hso; done|by rewrite Hdo]. cbn [obind].
    rewrite (copy_at_piece ([0x45; 0] ++ N ++ [0; 0; 0; 0] ++ [64] ++ [PR]) [0; 0] (S ++ D));
      [|reassoc|rewrite !len_app; unfold len; rewrite HN; done|done].
    unfold ipv4_head. fold N PR S D. reassoc.
  - unfold ipv4_head in *.
    pose proof (checksum_inserted ([0x45; 0] ++ to_be_bytes 2 (length - 14) ++ [0; 0; 0; 0] ++ [64] ++
      [protocol_number (gen_transport p)])
      (octets (ip_start (source_ips p)) ++ octets (ip_start (destination_ips p)))
      (checksum (ipv4_head p (length - 14) 0))) as Hins.
    repeat rewrite <- app_assoc in Hins. apply Hins; try done.
    + bytes_pieces.
    + bytes_pieces.
    + rewrite !length_app, to_be_bytes_length. by exists 5%nat.
Qed.

Lemma fill_ipv6_spec p s d length :
  ip_start (source_ips p) = V6 s -> ip_start (destination_ips p) = V6 d -> 54 <= length <= 65535 ->
  fill_ipv6 p length (repeat 0 40) = Ok (ipv6_head p (length - 54)).
Proof.
  intros Hs Hd Hl. unfold fill_ipv6, ipv6_head. rewrite clamp_id by (unfold umax; lia).
  set (N := to_be_bytes 2 (length - 54)) in *. set (PR := protocol_number (gen_transport p)) in *.
  set (S := octets (ip_start (source_ips p))) in *.
  set (D := octets (ip_start (destination_ips p))) in *.
  assert (HN : List.length N = 2%nat) by apply to_be_bytes_length.
  assert (HSo : List.length S = 16%nat) by (unfold S; by rewrite Hs, octets_length).
  assert (HDo : List.length D = 16%nat) by (unfold D; by rewrite Hd, octets_length).
  rewrite (set_index_piece [] 0 0x60 (repeat 0 39)) by done. cbn [obind].
  rewrite (copy_at_piece [0x60; 0; 0; 0] [0; 0] (repeat 0 34)) by done. cbn [obind].
  rewrite (set_index_piece ([0x60; 0; 0; 0] ++ N) 0 PR (repeat 0 33));
    [|reassoc|rewrite !len_app; unfold len; rewrite HN; done]. cbn [obind].
  rewrite (set_index_piece ([0x60; 0; 0; 0] ++ N ++ [PR]) 0 64 (repeat 0 32));
    [|reassoc|rewrite !len_app; unfold len; rewrite HN; done]. cbn [obind].
  rewrite (copy_at_piece ([0x60; 0; 0; 0] ++ N ++ [PR] ++ [64]) (repeat 0 16) (repeat 0 16));
    [|reassoc|rewrite !len_app; unfold len; rewrite HN; done|by rewrite HSo]. cbn [obind].
  rewrite (copy_at_piece ([0x60; 0; 0; 0] ++ N ++ [PR] ++ [64] ++ S) (repeat 0 16) []);
    [|reassoc|rewrite !len_app; unfold len; rewrite HN, HSo; done|by rewrite HDo].
  reassoc.
Qed.

Definition ethernet_head (etype : Z) : bytes :=
  [0x02; 0; 0; 0; 0; 2] ++ [0x02; 0; 0; 0; 0; 1] ++ to_be_bytes 2 etype.

(** Everything about a template that was built. *)
Definition template_shape (p : RawGeneratorProfile) (bs : bytes) : Prop :=
  let L := ethernet_size p - 4 in
  exists ip seg c, bs = ethernet_head (match network p with Ipv4 => ETHERTYPE_IPV4 | Ipv6 => ETHERTYPE_IPV6 end)
      ++ ip ++ seg /\
    match network p with
    | Ipv4 => exists ck, uint 16 ck /\ ip = ipv4_head p (L - 14) ck /\ checksum ip = 0 /\ len ip = 20
    | Ipv6 => ip = ipv6_head p (L - 54) /\ len ip = 40
    end /\
    len seg = L - 14 - len ip /\
    seg = transport_head p (len seg) c ++ repeat 0 (Z.to_nat (len seg) - header_length (gen_transport p)) /\
    Z.of_nat (header_length (gen_transport p)) <= len seg /\
    bytes_ok seg /\ segment_verifies p seg /\ uint 16 c.

(** The smallest frame that holds the headers. *)
Definition minimum_length (p : RawGeneratorProfile) : Z :=
  14 + (match network p with Ipv4 => 20 | Ipv6 => 40 end) + Z.of_nat (header_length (gen_transport p)).

Lemma validate_family p : validate p = Ok tt -> same_family p /\ 64 <= ethernet_size p.
Proof.
  unfold validate. destruct (Z.ltb_spec (ethernet_size p) 64); [done|]. destruct (_ || _); [done|].
  intros H1. split; [|done]. apply obind_Ok in H1 as ([]&H1&H2). apply obind_Ok in H2 as ([]&H2&_).
  unfold validate_ip_range, same_family in *.
  destruct (ip_start (source_ips p)), (ip_end (source_ips p)), (network p); try done;
    destruct (ip_start (destination_ips p)), (ip_end (destination_ips p)); done.
Qed.

(** The two sub-slices of the zeroed frame are filled in turn. *)
Lemma assemble p etype k f ip n seg L :
  len ip = Z.of_nat k -> f (repeat 0 k) = Ok ip ->
  fill_transport p (repeat 0 n) = Ok seg -> len seg = Z.of_nat n -> Z.to_nat L = (14 + k + n)%nat ->
  (let? bs := copy_at (repeat 0 (Z.to_nat L)) 0 [0x02; 0; 0; 0; 0; 2] in
   let? bs := copy_at bs 6 [0x02; 0; 0; 0; 0; 1] in
   let? bs := copy_at bs 12 (to_be_bytes 2 etype) in
   let? bs := on_slice bs 14 (14 + Z.of_nat k) f in
   on_slice bs (14 + Z.of_nat k) (len bs) (fill_transport p)) = Ok (ethernet_head etype ++ ip ++ seg).
Proof.
  intros Hip Hf Hs Hn ->. set (E := to_be_bytes 2 etype).
  assert (HE : length E = 2%nat) by apply to_be_bytes_length.
  replace (repeat 0 (14 + k + n)) with (repeat 0 6 ++ repeat 0 6 ++ repeat 0 2 ++ repeat 0 k ++ repeat 0 n)
    by (rewrite <- !repeat_app; f_equal; lia).
  rewrite (copy_at_piece [] (repeat 0 6) (repeat 0 6 ++ repeat 0 2 ++ repeat 0 k ++ repeat 0 n)) by done.
  cbn [obind].
  rewrite (copy_at_piece [2; 0; 0; 0; 0; 2] (repeat 0 6) (repeat 0 2 ++ repeat 0 k ++ repeat 0 n)) by done.
  cbn [obind].
  rewrite (copy_at_piece [2; 0; 0; 0; 0; 2; 2; 0; 0; 0; 0; 1] (repeat 0 2) (repeat 0 k ++ repeat 0 n));
    [|done..]. cbn [obind].
  assert (Hk : len (repeat 0 k) = Z.of_nat k) by (unfold len; by rewrite repeat_length).
  assert (Hn' : len (repeat 0 n) = Z.of_nat n) by (unfold len; by rewrite repeat_length).
  rewrite (app_assoc [2; 0; 0; 0; 0; 2; 2; 0; 0; 0; 0; 1] E).
  assert (H14 : len ([2; 0; 0; 0; 0; 2; 2; 0; 0; 0; 0; 1] ++ E) = 14).
  { rewrite len_app. unfold len. by rewrite HE. }
  rewrite (on_slice_mid _ (repeat 0 k) (repeat 0 n) f 14 (14 + Z.of_nat k) ip); [|lia..|done|lia].
  cbn [obind].
  assert (H34 : len (([2; 0; 0; 0; 0; 2; 2; 0; 0; 0; 0; 1] ++ E) ++ ip) = 14 + Z.of_nat k).
  { rewrite len_app. lia. }
  rewrite (app_assoc _ ip). rewrite <- (app_nil_r (repeat 0 n)).
  rewrite (on_slice_mid _ (repeat 0 n) [] (fill_transport p) (14 + Z.of_nat k) _ seg); [|done| |done|lia].
  - unfold ethernet_head. fold E. f_equal. reassoc.
  - rewrite !app_nil_r. rewrite (len_app _ (repeat 0 n)). lia.
Qed.

Lemma template_spec p :
  validate p = Ok tt -> profile_typed p ->
  (minimum_length p <= ethernet_size p - 4 ->
   exists bs, template_bytes p = Ok bs /\ template_shape p bs) /\
  (ethernet_size p - 4 < minimum_length p ->
   template_bytes p = invalid "Ethernet frame is too small for the selected IP/transport template").
Proof.
  intros Hv Ht. destruct (validate_family p Hv) as [Hf H64]. destruct Ht as ([_ Hes]&_).
  unfold template_bytes, transmit_length. rewrite Hv. cbn [obind]. unfold checked_sub, ETHERNET_FCS_BYTES.
  rewrite (proj2 (Z.leb_le _ _)) by lia. cbn [obind].
  set (L := ethernet_size p - 4) in *. unfold umax in Hes.
  assert (Hmin : (match network p with
    | Ipv4 => 14 + 20 + match gen_transport p with GeneratorTcp => 20 | GeneratorUdp => 8 end
    | Ipv6 => 14 + 40 + match gen_transport p with GeneratorTcp => 20 | GeneratorUdp => 8 end
    end) = minimum_length p).
  { unfold minimum_length. by destruct (network p), (gen_transport p). }
  rewrite Hmin. split; intros Hm; [|by rewrite (proj2 (Z.ltb_lt _ _)) by lia].
  rewrite (proj2 (Z.ltb_ge _ _)) by lia.
  unfold same_family in Hf. unfold minimum_length in Hm.
  destruct (ip_start (source_ips p)) as [s|s] eqn:Es, (ip_start (destination_ips p)) as [d|d] eqn:Ed,
    (network p) eqn:En; try done.
  - destruct (fill_ipv4_spec p s d L Es Ed ltac:(lia)) as (ck&Hck&Hfill&Hsum).
    assert (Hipl : len (ipv4_head p (L - 14) ck) = 20).
    { unfold ipv4_head. rewrite !len_app, !len_to_be_bytes, Es, Ed. unfold len. by rewrite !octets_length. }
    destruct (fill_transport_spec p (Z.to_nat L - 14 - 20)) as (c&Hc&Hseg&Hsl&Hsb&Hsv);
      [unfold same_family; by rewrite Es, Ed, En|lia|lia|]. cbv zeta in Hseg, Hsl, Hsb, Hsv.
    eexists. split.
    { eapply (assemble p ETHERTYPE_IPV4 20 _ _ (Z.to_nat L - 14 - 20)); [exact Hipl|exact Hfill|exact Hseg|exact Hsl|lia]. }
    exists (ipv4_head p (L - 14) ck). eexists _, c. rewrite En, Hsl, Nat2Z.id.
    split_and!; try done; [by eauto|lia..].
  - pose proof (fill_ipv6_spec p s d L Es Ed ltac:(lia)) as Hfill.
    assert (Hipl : len (ipv6_head p (L - 54)) = 40).
    { unfold ipv6_head. rewrite !len_app, !len_to_be_bytes, Es, Ed. unfold len. by rewrite !octets_length. }
    destruct (fill_transport_spec p (Z.to_nat L - 14 - 40)) as (c&Hc&Hseg&Hsl&Hsb&Hsv);
      [unfold same_family; by rewrite Es, Ed, En|lia|lia|]. cbv zeta in Hseg, Hsl, Hsb, Hsv.
    eexists. split.
    { eapply (assemble p ETHERTYPE_IPV6 40 _ _ (Z.to_nat L - 14 - 40)); [exact Hipl|exact Hfill|exact Hseg|exact Hsl|lia]. }
    exists (ipv6_head p (L - 54)). eexists _, c. rewrite En, Hsl, Nat2Z.id.
    split_and!; try done; lia.
Qed.

(** ** The parser reads the template back. *)

Lemma get_range_piece {A} (pre b c l : list A) i j :
  l = pre ++ b ++ c -> len pre = i -> i + len b = j -> get_range l i j = Some b.
Proof.
  intros -> <- <-. pose proof (len_nonneg pre). pose proof (len_nonneg b).
  rewrite get_range_skip by lia. replace (len pre - len pre) with 0 by lia.
  replace (len pre + len b - len pre) with (len b) by lia. apply get_range_head.
Qed.

Lemma index_piece {E A} (pre c l : list A) x i :
  l = pre ++ [x] ++ c -> len pre = i -> index (E := E) l i = Ok x.
Proof.
  intros -> <-. unfold index. pose proof (len_nonneg pre). rewrite (proj2 (Z.leb_le _ _)) by lia.
  change ([x] ++ c) with (x :: c). unfold len. by rewrite Nat2Z.id, list_lookup_middle.
Qed.

Lemma read_u16_piece pre c l x i :
  l = pre ++ to_be_bytes 2 x ++ c -> len pre = i -> uint 16 x -> PacketParser.read_u16 l i = Ok x.
Proof.
  intros Hl Hi Hx. unfold PacketParser.read_u16.
  rewrite (get_range_piece pre (to_be_bytes 2 x) c l i (i + 2) Hl Hi) by (by rewrite len_to_be_bytes).
  transitivity (Ok (E := ParseError) (from_be_bytes (to_be_bytes 2 x))); [reflexivity|].
  f_equal. apply (from_to_be_bytes 2). unfold uint, umax in Hx.
  simpl. lia.
Qed.

Lemma slice_piece {E A} (pre b c l : list A) i j :
  l = pre ++ b ++ c -> len pre = i -> i + len b = j -> slice (E := E) l i j = Ok b.
Proof. intros Hl Hi Hj. unfold slice. by rewrite (get_range_piece pre b c l i j Hl Hi Hj). Qed.

Lemma octets_from a : ip_ok a -> from_be_bytes (octets a) = match a with V4 x | V6 x => x end.
Proof.
  destruct a as [x|x]; simpl; intros [H1 H2]; unfold umax in H2;
    [apply (from_to_be_bytes 4)|apply (from_to_be_bytes 16)]; simpl; lia.
Qed.

(** The packet the template describes. *)
Definition template_transport (p : RawGeneratorProfile) (payload : bytes) : TransportPacket :=
  match gen_transport p with
  | GeneratorTcp => Tcp
      {| tcp_source_port := port_start (source_ports p);
         tcp_destination_port := port_start (destination_ports p); sequence := 0;
         acknowledgement := 0; flags := 0; window := 0; tcp_payload := payload |}
  | GeneratorUdp => Udp
      {| udp_source_port := port_start (source_ports p);
         udp_destination_port := port_start (destination_ports p); udp_payload := payload |}
  end.

Definition template_packet (p : RawGeneratorProfile) (segment payload : bytes) : ParsedPacket :=
  {| ethernet := {| eth_destination := [2; 0; 0; 0; 0; 2]; eth_source := [2; 0; 0; 0; 0; 1];
                    vlan_tags := [None; None];
                    ether_type := match network p with Ipv4 => ETHERTYPE_IPV4 | Ipv6 => ETHERTYPE_IPV6 end |};
     arp := None;
     ip := Some {| ip_source := ip_start (source_ips p); ip_destination := ip_start (destination_ips p);
                   ip_protocol := protocol_number (gen_transport p); non_initial_fragment := false;
                   ip_payload := segment |};
     transport := Some (template_transport p payload) |}.

Lemma parse_ethernet_head n rest :
  parse_ethernet (ethernet_head (match n with Ipv4 => ETHERTYPE_IPV4 | Ipv6 => ETHERTYPE_IPV6 end) ++ rest) =
  Ok {| eth_destination := [2; 0; 0; 0; 0; 2]; eth_source := [2; 0; 0; 0; 0; 1];
        vlan_tags := [None; None];
        ether_type := match n with Ipv4 => ETHERTYPE_IPV4 | Ipv6 => ETHERTYPE_IPV6 end |}.
Proof.
  unfold parse_ethernet.
  assert (get_range (ethernet_head (match n with Ipv4 => ETHERTYPE_IPV4 | Ipv6 => ETHERTYPE_IPV6 end) ++ rest)
    0 ETHERNET_HEADER_LENGTH = Some (ethernet_head (match n with Ipv4 => ETHERTYPE_IPV4 | Ipv6 => ETHERTYPE_IPV6 end)))
    as ->; [|by destruct n].
  apply (get_range_piece [] _ rest); [done|done|]. by destruct n.
Qed.

Lemma parse_transport_head p n c tail :
  uint 16 (port_start (source_ports p)) -> uint 16 (port_start (destination_ports p)) ->
  uint 16 n -> n = Z.of_nat (header_length (gen_transport p)) + len tail ->
  match gen_transport p with
  | GeneratorTcp => let? s := parse_tcp (transport_head p n c ++ tail) in Ok (Tcp s)
  | GeneratorUdp => let? d := parse_udp (transport_head p n c ++ tail) in Ok (Udp d)
  end = Ok (template_transport p tail).
Proof.
  intros H1 H2 Hn Hlen. unfold template_transport, transport_head. pose proof (len_nonneg tail).
  set (S := to_be_bytes 2 (port_start (source_ports p))).
  set (D := to_be_bytes 2 (port_start (destination_ports p))).
  assert (HS : len S = 2) by apply len_to_be_bytes. assert (HD : len D = 2) by apply len_to_be_bytes.
  destruct (gen_transport p); cbn [header_length] in Hlen.
  - set (C := to_be_bytes 2 c). assert (HC : len C = 2) by apply len_to_be_bytes.
    set (hd := S ++ D ++ repeat 0 8 ++ [80; 0; 0; 0] ++ C ++ [0; 0]).
    assert (Hhd : len hd = 20) by (unfold hd; rewrite !len_app, HS, HD, HC; done).
    unfold parse_tcp.
    rewrite (get_range_piece [] hd tail) by (done || lia). cbn [ok_or obind].
    rewrite (index_piece (S ++ D ++ repeat 0 8) ([0; 0; 0] ++ C ++ [0; 0]) _ 80);
      [|unfold hd; reassoc|rewrite !len_app, HS, HD; done]. cbn [obind].
    change (Z.shiftr 80 4 * 4) with 20. change (20 <? 20) with false. cbv iota.
    assert (get_from (hd ++ tail) 20 = Some tail) as ->.
    { unfold get_from. rewrite <- Hhd at 1. apply get_range_tail. }
    cbn [ok_or obind].
    rewrite (read_u16_piece [] (D ++ repeat 0 8 ++ [80; 0; 0; 0] ++ C ++ [0; 0]) hd _ 0 eq_refl eq_refl H1).
    cbn [obind].
    rewrite (read_u16_piece S (repeat 0 8 ++ [80; 0; 0; 0] ++ C ++ [0; 0]) hd _ 2 eq_refl HS H2).
    cbn [obind].
    assert (Hz : forall i, i = 4 \/ i = 8 -> PacketParser.read_u32 hd i = Ok 0).
    { intros i Hi. unfold PacketParser.read_u32.
      destruct Hi as [-> | ->].
      - by rewrite (get_range_piece (S ++ D) (repeat 0 4) (repeat 0 4 ++ [80; 0; 0; 0] ++ C ++ [0; 0]) hd)
          by ((unfold hd; reassoc) || (rewrite len_app; lia) || done).
      - by rewrite (get_range_piece (S ++ D ++ repeat 0 4) (repeat 0 4) ([80; 0; 0; 0] ++ C ++ [0; 0]) hd)
          by ((unfold hd; reassoc) || (rewrite !len_app, HS, HD; done) || done). }
    rewrite !Hz by auto. cbn [obind].
    rewrite (index_piece (S ++ D ++ repeat 0 8 ++ [80]) ([0; 0] ++ C ++ [0; 0]) _ 0);
      [|unfold hd; reassoc|rewrite !len_app, HS, HD; done]. cbn [obind].
    rewrite (read_u16_piece (S ++ D ++ repeat 0 8 ++ [80; 0]) (C ++ [0; 0]) hd 0);
      [done|unfold hd; reassoc|rewrite !len_app, HS, HD; done|by vm_compute].
  - set (C := to_be_bytes 2 c). assert (HC : len C = 2) by apply len_to_be_bytes.
    set (N := to_be_bytes 2 n). assert (HN : len N = 2) by apply len_to_be_bytes.
    set (hd := S ++ D ++ N ++ C).
    assert (Hhd : len hd = 8) by (unfold hd; rewrite !len_app, HS, HD, HC, HN; done).
    unfold parse_udp.
    rewrite (get_range_piece [] hd tail) by (done || lia). cbn [ok_or obind].
    rewrite (read_u16_piece (S ++ D) C hd n 4);
      [|unfold hd; reassoc|rewrite !len_app; lia|done]. cbn [obind].
    rewrite (proj2 (Z.ltb_ge _ _)) by lia.
    rewrite (get_range_piece [] (hd ++ tail) []) by (first [by rewrite app_nil_r|done|rewrite len_app; lia]).
    cbn [ok_or obind].
    rewrite (read_u16_piece [] (D ++ N ++ C) hd _ 0 eq_refl eq_refl H1). cbn [obind].
    rewrite (read_u16_piece S (N ++ C) hd _ 2 eq_refl HS H2). cbn [obind].
    unfold slice_from. rewrite (slice_piece hd tail []); [done|by rewrite app_nil_r|done|rewrite len_app; lia].
Qed.

Lemma parse_ipv4_head p s d n c seg :
  ip_start (source_ips p) = V4 s -> ip_start (destination_ips p) = V4 d ->
  ip_ok (V4 s) -> ip_ok (V4 d) -> uint 16 n -> n = 20 + len seg ->
  parse_ipv4 (ipv4_head p n c ++ seg) =
    Ok {| ip_source := V4 s; ip_destination := V4 d; ip_protocol := protocol_number (gen_transport p);
          non_initial_fragment := false; ip_payload := seg |}.
Proof.
  intros Es Ed Hs Hd Hn Hlen. unfold parse_ipv4, ipv4_head. rewrite Es, Ed.
  set (S := octets (V4 s)). set (D := octets (V4 d)). set (C := to_be_bytes 2 c).
  set (N := to_be_bytes 2 n). set (PR := protocol_number (gen_transport p)).
  assert (HS : len S = 4) by (unfold len, S; by rewrite octets_length).
  assert (HD : len D = 4) by (unfold len, D; by rewrite octets_length).
  assert (HC : len C = 2) by apply len_to_be_bytes. assert (HN : len N = 2) by apply len_to_be_bytes.
  set (hd := [0x45; 0] ++ N ++ [0; 0; 0; 0] ++ [64] ++ [PR] ++ C ++ S ++ D).
  assert (Hhd : len hd = 20) by (unfold hd; rewrite !len_app, HN, HC, HS, HD; done).
  pose proof (len_nonneg seg).
  rewrite (get_range_piece [] hd seg) by (done || lia). cbn [ok_or obind].
  rewrite (index_piece [] ([0] ++ N ++ [0; 0; 0; 0] ++ [64] ++ [PR] ++ C ++ S ++ D) hd 0x45) by done.
  cbn [obind]. change (negb (Z.shiftr 0x45 4 =? 4)) with false.
  change (Z.land 0x45 0x0f * 4) with 20. change (20 <? 20) with false. cbv iota.
  rewrite (read_u16_piece [0x45; 0] ([0; 0; 0; 0] ++ [64] ++ [PR] ++ C ++ S ++ D) hd n) by done.
  cbn [obind]. rewrite (proj2 (Z.ltb_ge n 20)) by lia.
  rewrite (get_range_piece [] (hd ++ seg) []) by (first [by rewrite app_nil_r|done|rewrite len_app; lia]).
  cbn [ok_or obind].
  rewrite (read_u16_piece ([0x45; 0] ++ N ++ [0; 0]) ([64] ++ [PR] ++ C ++ S ++ D) hd 0);
    [|unfold hd; reassoc|by rewrite !len_app, HN|by vm_compute]. cbn [obind].
  rewrite (slice_piece ([0x45; 0] ++ N ++ [0; 0; 0; 0] ++ [64] ++ [PR] ++ C) S D hd);
    [|unfold hd; reassoc|by rewrite !len_app, HN, HC|by rewrite HS]. cbn [obind].
  rewrite (slice_piece ([0x45; 0] ++ N ++ [0; 0; 0; 0] ++ [64] ++ [PR] ++ C ++ S) D [] hd);
    [|unfold hd; reassoc|by rewrite !len_app, HN, HC, HS|by rewrite HD]. cbn [obind].
  rewrite (index_piece ([0x45; 0] ++ N ++ [0; 0; 0; 0] ++ [64]) (C ++ S ++ D) hd PR);
    [|unfold hd; reassoc|by rewrite !len_app, HN]. cbn [obind].
  unfold slice_from. rewrite (slice_piece hd seg []); [|by rewrite app_nil_r|done|rewrite len_app; lia].
  cbn [obind]. unfold S, D. by rewrite !octets_from by done.
Qed.

Lemma parse_ipv6_head p s d n seg :
  ip_start (source_ips p) = V6 s -> ip_start (destination_ips p) = V6 d ->
  ip_ok (V6 s) -> ip_ok (V6 d) -> uint 16 n -> n = len seg ->
  parse_ipv6 (ipv6_head p n ++ seg) =
    Ok {| ip_source := V6 s; ip_destination := V6 d; ip_protocol := protocol_number (gen_transport p);
          non_initial_fragment := false; ip_payload := seg |}.
Proof.
  intros Es Ed Hs Hd Hn Hlen. unfold parse_ipv6, ipv6_head. rewrite Es, Ed.
  set (S := octets (V6 s)). set (D := octets (V6 d)).
  set (N := to_be_bytes 2 n). set (PR := protocol_number (gen_transport p)).
  assert (HS : len S = 16) by (unfold len, S; by rewrite octets_length).
  assert (HD : len D = 16) by (unfold len, D; by rewrite octets_length).
  assert (HN : len N = 2) by apply len_to_be_bytes.
  set (hd := [0x60; 0; 0; 0] ++ N ++ [PR] ++ [64] ++ S ++ D).
  assert (Hhd : len hd = 40) by (unfold hd; rewrite !len_app, HN, HS, HD; done).
  pose proof (len_nonneg seg). assert (Hn64 : 40 + n <= umax 64) by (unfold uint, umax in *; lia).
  rewrite (get_range_piece [] hd seg) by (done || lia). cbn [ok_or obind].
  rewrite (index_piece [] ([0; 0; 0] ++ N ++ [PR] ++ [64] ++ S ++ D) hd 0x60) by done.
  cbn [obind]. change (negb (Z.shiftr 0x60 4 =? 6)) with false. cbv iota.
  rewrite (read_u16_piece [0x60; 0; 0; 0] ([PR] ++ [64] ++ S ++ D) hd n) by done. cbn [obind].
  unfold checked_add. rewrite (proj2 (Z.leb_le _ _)) by done. cbn [ok_or obind].
  rewrite (get_range_piece [] (hd ++ seg) []) by (first [by rewrite app_nil_r|done|rewrite len_app; lia]).
  cbn [ok_or obind].
  rewrite (slice_piece ([0x60; 0; 0; 0] ++ N ++ [PR] ++ [64]) S D hd);
    [|unfold hd; reassoc|by rewrite !len_app, HN|by rewrite HS]. cbn [obind].
  rewrite (slice_piece ([0x60; 0; 0; 0] ++ N ++ [PR] ++ [64] ++ S) D [] hd);
    [|unfold hd; reassoc|by rewrite !len_app, HN, HS|by rewrite HD]. cbn [obind].
  rewrite (index_piece ([0x60; 0; 0; 0] ++ N) ([64] ++ S ++ D) hd PR);
    [|unfold hd; reassoc|by rewrite !len_app, HN]. cbn [obind].
  cbn [ipv6_loop]. assert (ipv6_extension (hd ++ seg) PR 40 false = Ok None) as ->.
  { unfold PR. by destruct (gen_transport p). }
  cbn [obind]. unfold get_from. rewrite <- Hhd at 1. rewrite get_range_tail. cbn [ok_or obind].
  unfold S, D. by rewrite !octets_from by done.
Qed.

Lemma template_parses p bs :
  validate p = Ok tt -> profile_typed p -> template_shape p bs ->
  exists seg tail, parse_packet bs = Ok (template_packet p seg tail) /\
    seg = drop (Z.to_nat (14 + match network p with Ipv4 => 20 | Ipv6 => 40 end)) bs /\
    tail = repeat 0 (Z.to_nat (ethernet_size p - 4 - minimum_length p)) /\
    segment_verifies p seg.
Proof.
  intros Hv Ht (ip&seg&c&->&Hip&Hsl&Hseg&Hmin&Hsb&Hver&Hc).
  destruct (validate_family p Hv) as [Hf H64]. destruct Ht as ([_ Hes]&Hsi&Hdi&_&_&Hsp&Hdp&_).
  unfold umax in Hes. unfold same_family in Hf.
  pose proof (len_nonneg seg). pose proof (len_nonneg ip).
  exists seg, (repeat 0 (Z.to_nat (len seg) - header_length (gen_transport p))).
  assert (Hiplen : len ip = match network p with Ipv4 => 20 | Ipv6 => 40 end).
  { destruct (network p); [by destruct Hip as (ck&_&_&_&?)|apply Hip]. }
  split_and!; [| | |done].
  - unfold parse_packet. rewrite parse_ethernet_head. cbn [obind vlan_tags ether_type].
    change (payload_offset [None; None]) with 14.
    assert (forall e, get_from (ethernet_head e ++ ip ++ seg) 14 = Some (ip ++ seg)) as ->.
    { intros e. unfold get_from. assert (len (ethernet_head e) = 14) as He.
      { unfold ethernet_head. by rewrite !len_app, len_to_be_bytes. }
      rewrite <- He at 1. apply get_range_tail. }
    cbn [ok_or obind].
    assert (Htr : match gen_transport p with
      | GeneratorTcp => let? s := parse_tcp seg in Ok (Tcp s)
      | GeneratorUdp => let? d := parse_udp seg in Ok (Udp d)
      end = Ok (template_transport p (repeat 0 (Z.to_nat (len seg) - header_length (gen_transport p))))).
    { set (tl := repeat 0 _) in *.
      assert (Hl : len seg = Z.of_nat (header_length (gen_transport p)) + len tl)
        by (unfold tl; rewrite len_repeat; lia).
      clearbody tl. pose proof (parse_transport_head p (len seg) c tl Hsp Hdp
        ltac:(unfold uint, umax; lia) Hl) as Hp. by rewrite <- Hseg in Hp. }
    assert (Hfin : forall s d, ip_start (source_ips p) = s -> ip_start (destination_ips p) = d ->
      finish_transport {| ip_source := s; ip_destination := d;
        ip_protocol := protocol_number (gen_transport p); non_initial_fragment := false; ip_payload := seg |}
      = Ok (template_transport p (repeat 0 (Z.to_nat (len seg) - header_length (gen_transport p))))).
    { intros s d _ _. rewrite <- Htr. unfold finish_transport. by destruct (gen_transport p). }
    destruct (ip_start (source_ips p)) as [s|s] eqn:Es, (ip_start (destination_ips p)) as [d|d] eqn:Ed,
      (network p) eqn:En; try done.
    + destruct Hip as (ck&Hck&->&_&_). change (ETHERTYPE_IPV4 =? ETHERTYPE_ARP) with false.
      change (ETHERTYPE_IPV4 =? ETHERTYPE_IPV4) with true. cbv iota.
      rewrite (parse_ipv4_head p s d) by (done || (unfold uint, umax; lia)). cbn [obind].
      unfold finish_ip. rewrite Hfin by done. cbn [obind]. unfold template_packet. by rewrite En, Es, Ed.
    + destruct Hip as (->&_). change (ETHERTYPE_IPV6 =? ETHERTYPE_ARP) with false.
      change (ETHERTYPE_IPV6 =? ETHERTYPE_IPV4) with false.
      change (ETHERTYPE_IPV6 =? ETHERTYPE_IPV6) with true. cbv iota.
      rewrite (parse_ipv6_head p s d) by (done || (unfold uint, umax; lia)). cbn [obind].
      unfold finish_ip. rewrite Hfin by done. cbn [obind]. unfold template_packet. by rewrite En, Es, Ed.
  - rewrite app_assoc. symmetry. apply drop_app_length'. rewrite length_app.
    assert (Z.of_nat (length (ethernet_head (match network p with Ipv4 => ETHERTYPE_IPV4 | Ipv6 => ETHERTYPE_IPV6 end))) = 14)
      by (unfold ethernet_head; rewrite !length_app, to_be_bytes_length; done).
    unfold len in Hiplen. destruct (network p); lia.
  - f_equal. unfold minimum_length. rewrite <- Hiplen. lia.
Qed.

(** A validated profile whose frame holds the headers yields a template of
    exactly [ethernet_size - 4] bytes that the packet parser of this repository
    reads back as the described packet: the profile's first addresses and
    ports, its protocol, no fragment, a zero payload; the IPv4 header and the
    transport segment with its pseudo header verify to a zero checksum. A
    smaller frame is refused, and nothing panics. *)
Theorem template_correct (p : RawGeneratorProfile) :
  validate p = Ok tt -> profile_typed p ->
  (ethernet_size p - 4 < minimum_length p ->
   template_bytes p = invalid "Ethernet frame is too small for the selected IP/transport template") /\
  (minimum_length p <= ethernet_size p - 4 ->
   exists bs seg payload, template_bytes p = Ok bs /\ len bs = ethernet_size p - 4 /\
     parse_packet bs = Ok (template_packet p seg payload) /\
     payload = repeat 0 (Z.to_nat (ethernet_size p - 4 - minimum_length p)) /\
     segment_verifies p seg /\
     (network p = Ipv4 -> exists head rest, drop 14 bs = head ++ rest /\ len head = 20 /\ checksum head = 0)).
Proof.
  intros Hv Ht. destruct (template_spec p Hv Ht) as [Hbig Hsmall]. split; [done|]. intros Hm.
  destruct (Hbig Hm) as (bs&Hbs&Hshape). destruct (template_parses p bs Hv Ht Hshape) as (seg&tail&Hp&_&Htail&Hver).
  exists bs, seg, tail. destruct Hshape as (ip&seg'&c&->&Hip&Hsl&_).
  assert (He : forall e, len (ethernet_head e) = 14)
    by (intros e; unfold ethernet_head; by rewrite !len_app, len_to_be_bytes).
  split_and!; [done| |done|done|done|].
  - rewrite len_app, He, len_app. lia.
  - intros En. rewrite En in Hip |- *. destruct Hip as (ck&_&_&Hck&Hl). exists ip, seg'.
    split_and!; [|done|done]. apply drop_app_length'. unfold ethernet_head.
    rewrite !length_app, to_be_bytes_length. done.
Qed.

Definition sample_profile : RawGeneratorProfile :=
  {| ethernet_size := 64; network := Ipv4; gen_transport := GeneratorUdp;
     source_ips := {| ip_start := V4 3232235777; ip_end := V4 3232235786 |};
     destination_ips := {| ip_start := V4 167772161; ip_end := V4 167772161 |};
     source_ports := {| port_start := 1024; port_end := 2047 |};
     destination_ports := {| port_start := 53; port_end := 53 |};
     flow_count := 100; packet_rate := 1000 |}.

Lemma template_correct_witness :
  exists bs seg payload, template_bytes sample_profile = Ok bs /\ len bs = 60 /\
    parse_packet bs = Ok (template_packet sample_profile seg payload).
Proof.
  destruct (template_correct sample_profile) as [_ H].
  - vm_compute. reflexivity.
  - unfold profile_typed, uint, umax, ip_ok; cbn. unfold uint, umax. lia.
  - destruct H as (bs&seg&payload&H1&H2&H3&_); [vm_compute; discriminate|].
    exists bs, seg, payload. split; [exact H1|]. split; [exact H2|exact H3].
Defined.
