(* ===== verification/UdpProtocol.v ===== *)
(** * UDP speed protocol

    Model of [crates/speed/src/udp.rs] and [crates/speed/src/auth.rs]: the full
    and the compact datagram headers, the exact and the bounded sequence
    trackers, jitter, and authorization tags. *)

From stdpp Require Import base list strings gmap.
From Stdlib Require Import ZArith Lia.
From S2P Require Import Prelude ErrorModel.
Open Scope Z_scope.

Definition UDP_COMPACT_HEADER_BYTES : Z := 16.
Definition SIGNATURE_AND_VERSION : Z := 0xA1.
Definition UDP_SPEED_HEADER_BYTES : Z := 52.
Definition UDP_SPEED_HEADER_LENGTH : Z := 52.
Definition UDP_SPEED_MAGIC : bytes := [78; 84; 85; 80].
Definition UDP_SEQUENCE_WINDOW_SIZE : Z := 65536.
Definition UDP_SPEED_VERSION : Z := 1.

Definition protocol_error (m : string) : NetToolError := new_error ProtocolInvalid m false.

Definition read_be (n : Z) (what : string) (bs : bytes) (offset : Z) : res Z :=
  let? value := ok_or (get_range bs offset (offset + n)) (protocol_error what) in
  Ok (from_be_bytes value).
Definition read_u16 : bytes -> Z -> res Z := read_be 2 "UDP speed u16 field is truncated".
Definition read_u32 : bytes -> Z -> res Z := read_be 4 "UDP speed u32 field is truncated".
Definition read_u64 : bytes -> Z -> res Z := read_be 8 "UDP speed u64 field is truncated".

(** ** The full header. *)

Record UdpSpeedHeader := {
  session_id : bytes;
  stream_id : Z;
  sequence : Z;
  flags : Z;
  send_timestamp_nanoseconds : Z;
  payload_length : Z;
}.

(** [UdpSpeedHeader::encode]: nine copies into a zeroed array. *)
Definition encode (h : UdpSpeedHeader) : outcome Empty_set bytes :=
  let bs := repeat 0 52 in
  let? bs := copy_at bs 0 UDP_SPEED_MAGIC in
  let? bs := copy_at bs 4 (to_be_bytes 2 UDP_SPEED_VERSION) in
  let? bs := copy_at bs 6 (to_be_bytes 2 UDP_SPEED_HEADER_LENGTH) in
  let? bs := copy_at bs 8 (session_id h) in
  let? bs := copy_at bs 24 (to_be_bytes 4 (stream_id h)) in
  let? bs := copy_at bs 28 (to_be_bytes 8 (sequence h)) in
  let? bs := copy_at bs 36 (to_be_bytes 4 (flags h)) in
  let? bs := copy_at bs 40 (to_be_bytes 8 (send_timestamp_nanoseconds h)) in
  copy_at bs 48 (to_be_bytes 4 (payload_length h)).

(** [UdpSpeedHeader::decode_datagram]. *)
Definition decode_datagram (d : bytes) : res UdpSpeedHeader :=
  if len d <? UDP_SPEED_HEADER_BYTES
  then Err (protocol_error "UDP speed datagram is shorter than its header")
  else
    let? magic := slice d 0 4 in
    if negb (bool_decide (magic = UDP_SPEED_MAGIC))
    then Err (protocol_error "UDP speed magic is invalid")
    else
      let? version := read_u16 d 4 in
      if negb (version =? UDP_SPEED_VERSION)
      then Err (protocol_error "UDP speed protocol version is unsupported")
      else
        let? header_length := read_u16 d 6 in
        if negb (header_length =? UDP_SPEED_HEADER_BYTES)
        then Err (protocol_error "UDP speed header length is invalid")
        else
          let? payload := read_u32 d 48 in
          match checked_sub (len d) UDP_SPEED_HEADER_BYTES with
          | None => Panic
          | Some actual =>
              if negb (payload =? actual)
              then Err (protocol_error "UDP speed payload length does not match datagram")
              else
                let? session := slice d 8 24 in
                let? stream := read_u32 d 24 in
                let? seq := read_u64 d 28 in
                let? fl := read_u32 d 36 in
                let? ts := read_u64 d 40 in
                Ok {| session_id := session; stream_id := stream; sequence := seq; flags := fl;
                      send_timestamp_nanoseconds := ts; payload_length := payload |}
          end.

(** ** The compact header. *)

Record UdpCompactHeader := {
  c_flags : Z;
  c_stream_id : Z;
  c_session_tag : Z;
  c_sequence : Z;
}.

Definition encode_compact (h : UdpCompactHeader) : outcome Empty_set bytes :=
  let bs := repeat 0 16 in
  let? bs := set_index bs 0 SIGNATURE_AND_VERSION in
  let? bs := set_index bs 1 (c_flags h) in
  let? bs := copy_at bs 2 (to_be_bytes 2 (c_stream_id h)) in
  let? bs := copy_at bs 4 (to_be_bytes 4 (c_session_tag h)) in
  copy_at bs 8 (to_be_bytes 8 (c_sequence h)).

Definition decode_compact (bs : bytes) : res UdpCompactHeader :=
  if negb (len bs =? UDP_COMPACT_HEADER_BYTES)
  then Err (protocol_error "UDP compact header must be exactly 16 bytes")
  else
    let? signature := index bs 0 in
    if negb (signature =? SIGNATURE_AND_VERSION)
    then Err (protocol_error "UDP compact header signature or version is invalid")
    else
      let? fl := index bs 1 in
      let? s0 := index bs 2 in
      let? s1 := index bs 3 in
      let? tag := slice bs 4 8 in
      let? seq := slice bs 8 16 in
      Ok {| c_flags := fl; c_stream_id := from_be_bytes [s0; s1];
            c_session_tag := from_be_bytes tag; c_sequence := from_be_bytes seq |}.

(** ** Sequence accounting. *)

Record UdpSequenceStats := {
  received : Z;
  lost : Z;
  out_of_order : Z;
  duplicate : Z;
  highest_sequence : option Z;
}.

Definition default_sequence_stats : UdpSequenceStats := Build_UdpSequenceStats 0 0 0 0 None.

Definition sat64 : Z -> Z -> Z := sat_add 64.

(** The exact tracker. *)
Record UdpSequenceTracker := {
  seen : gset Z;
  exact_stats : UdpSequenceStats;
}.

Definition default_tracker : UdpSequenceTracker :=
  {| seen := ∅; exact_stats := default_sequence_stats |}.

(** [UdpSequenceTracker::observe]; the result is the new [exact_stats]. *)
Definition observe_exact (t : UdpSequenceTracker) (q : Z) : UdpSequenceTracker :=
  let s := exact_stats t in
  if bool_decide (q ∈ seen t) then
    {| seen := seen t;
       exact_stats := {| received := received s; lost := lost s; out_of_order := out_of_order s;
                         duplicate := sat64 (duplicate s) 1;
                         highest_sequence := highest_sequence s |} |}
  else
    let late := match highest_sequence s with Some h => q <? h | None => false end in
    let ooo := if late then sat64 (out_of_order s) 1 else out_of_order s in
    let highest := match highest_sequence s with Some h => Z.max h q | None => q end in
    let recv := sat64 (received s) 1 in
    {| seen := {[q]} ∪ seen t;
       exact_stats := {| received := recv; lost := sat_sub (sat64 highest 1) recv;
                         out_of_order := ooo; duplicate := duplicate s;
                         highest_sequence := Some highest |} |}.

(** The bounded tracker. *)
Record BoundedUdpSequenceTracker := {
  window : list Z;
  mask : Z;
  bounded_stats : UdpSequenceStats;
}.

(** [usize::is_power_of_two]. *)
Definition is_power_of_two (n : Z) : bool := (0 <? n) && (Z.land n (n - 1) =? 0).

Definition new_bounded (window_size : Z) : res BoundedUdpSequenceTracker :=
  if (window_size <? 2) || negb (is_power_of_two window_size)
  then err InvalidArgument "UDP sequence window must be a power-of-two of at least two"
  else Ok {| window := repeat (umax 64) (Z.to_nat window_size); mask := window_size - 1;
             bounded_stats := default_sequence_stats |}.

Definition slot (t : BoundedUdpSequenceTracker) (q : Z) : Z := Z.land q (mask t).

Abbreviation step A := (outcome Empty_set A).

(** [for offset in 1..=distance { window[slot(highest + offset)] = MAX }],
    [n] offsets from [first] on. *)
Fixpoint clear_slots (t : BoundedUdpSequenceTracker) (w : list Z) (first : Z) (n : nat)
    : step (list Z) :=
  match n with
  | O => Ok w
  | S n =>
      let? w := set_index w (slot t first) (umax 64) in
      clear_slots t w (first + 1) n
  end.

Definition with_bounded (t : BoundedUdpSequenceTracker) (w : list Z) (s : UdpSequenceStats)
    : BoundedUdpSequenceTracker :=
  {| window := w; mask := mask t; bounded_stats := s |}.

(** [BoundedUdpSequenceTracker::observe]; the result is the new
    [bounded_stats]. *)
Definition observe_bounded (t : BoundedUdpSequenceTracker) (q : Z)
    : step BoundedUdpSequenceTracker :=
  let s := bounded_stats t in
  match highest_sequence s with
  | None =>
      let? w := set_index (window t) (slot t q) q in
      Ok (with_bounded t w {| received := 1; lost := q; out_of_order := out_of_order s;
                              duplicate := duplicate s; highest_sequence := Some q |})
  | Some highest =>
      if highest <? q then
        let distance := q - highest in
        let? w := (if len (window t) <=? distance
                   then Ok (repeat (umax 64) (length (window t)))
                   else clear_slots t (window t) (highest + 1) (Z.to_nat distance)) in
        let? w := set_index w (slot t q) q in
        Ok (with_bounded t w {| received := sat64 (received s) 1;
                                lost := sat64 (lost s) (sat_sub distance 1);
                                out_of_order := out_of_order s; duplicate := duplicate s;
                                highest_sequence := Some q |})
      else
        let distance := highest - q in
        if len (window t) <=? distance then
          Ok (with_bounded t (window t)
                {| received := sat64 (received s) 1; lost := lost s;
                   out_of_order := sat64 (out_of_order s) 1; duplicate := duplicate s;
                   highest_sequence := highest_sequence s |})
        else
          let? held := index (window t) (slot t q) in
          if held =? q then
            Ok (with_bounded t (window t)
                  {| received := received s; lost := lost s; out_of_order := out_of_order s;
                     duplicate := sat64 (duplicate s) 1; highest_sequence := highest_sequence s |})
          else
            let? w := set_index (window t) (slot t q) q in
            Ok (with_bounded t w
                  {| received := sat64 (received s) 1; lost := sat_sub (lost s) 1;
                     out_of_order := sat64 (out_of_order s) 1; duplicate := duplicate s;
                     highest_sequence := highest_sequence s |})
  end.

(** A whole stream. *)
Definition observe_all_exact (t : UdpSequenceTracker) (qs : list Z) : UdpSequenceTracker :=
  fold_left observe_exact qs t.

Fixpoint observe_all_bounded (t : BoundedUdpSequenceTracker) (qs : list Z)
    : step BoundedUdpSequenceTracker :=
  match qs with
  | [] => Ok t
  | q :: qs => let? t := observe_bounded t q in observe_all_bounded t qs
  end.

(** ** Jitter. *)

Record UdpJitterTracker := {
  previous_transit_nanoseconds : option Z;
  jitter_nanoseconds : Z;
}.

Definition default_jitter : UdpJitterTracker := Build_UdpJitterTracker None 0.

(** Saturating subtraction of [i128]. *)
Definition sat_sub_i128 (a b : Z) : Z := Z.max (- 2 ^ 127) (Z.min (2 ^ 127 - 1) (a - b)).

Definition observe_jitter (t : UdpJitterTracker) (sent received : Z) : UdpJitterTracker :=
  let transit := sat_sub_i128 received sent in
  let jitter :=
    match previous_transit_nanoseconds t with
    | Some previous =>
        let delta := clamp 64 (Z.abs (sat_sub_i128 transit previous)) in
        let j := jitter_nanoseconds t in
        if j <=? delta then sat64 j ((delta - j) / 16) else sat_sub j ((j - delta) / 16)
    | None => jitter_nanoseconds t
    end in
  {| previous_transit_nanoseconds := Some transit; jitter_nanoseconds := jitter |}.

(** ** Authorization tags. *)

Definition MAX_AUTHORIZATION_TAG_BYTES : Z := 256.
Definition MIN_AUTHORIZATION_TAG_BYTES : Z := 16.

(** [tag.chars().any(char::is_control)]: the control characters are U+0000 -
    U+001F, U+007F and, encoded in two bytes, U+0080 - U+009F. *)
Fixpoint has_control (bs : bytes) : bool :=
  match bs with
  | [] => false
  | a :: rest =>
      (a <? 32) || (a =? 127) ||
      match rest with
      | b :: _ => (a =? 0xc2) && (0x80 <=? b) && (b <=? 0x9f)
      | [] => false
      end || has_control rest
  end.

Definition validate_authorization_tag (tag : string) : res unit :=
  let n := len (as_bytes tag) in
  if negb ((MIN_AUTHORIZATION_TAG_BYTES <=? n) && (n <=? MAX_AUTHORIZATION_TAG_BYTES))
  then err InvalidArgument "authorization tag length is outside the secure range"
  else if has_control (as_bytes tag)
  then err InvalidArgument "authorization tag contains control characters"
  else Ok tt.

(** [authorization_tag_matches]: the accumulated difference of all bytes. *)
Definition authorization_tag_matches (expected : string) (presented : bytes) : bool :=
  let expected := as_bytes expected in
  if negb (len expected =? len presented) then false
  else
    fold_left (fun difference lr => Z.lor difference (Z.lxor lr.1 lr.2)) (zip expected presented) 0
    =? 0.

(** ** Authorization is equality of tags. *)

Lemma difference_zero (lrs : list (Z * Z)) d :
  fold_left (fun difference lr => Z.lor difference (Z.lxor lr.1 lr.2)) lrs d = 0 <->
  d = 0 /\ Forall (fun lr => lr.1 = lr.2) lrs.
Proof.
  revert d. induction lrs as [|[a b] lrs IH]; intros d; simpl.
  - split; [auto|]. by intros [? _].
  - rewrite IH, Z.lor_eq_0_iff, Z.lxor_eq_0_iff, Forall_cons. simpl. tauto.
Qed.

Lemma tag_matches_iff (expected : string) (presented : bytes) :
  authorization_tag_matches expected presented = true <-> as_bytes expected = presented.
Proof.
  unfold authorization_tag_matches. generalize (as_bytes expected) as l. intros l.
  destruct (Z.eqb_spec (len l) (len presented)) as [Hl|Hl]; cbn [negb].
  - rewrite Z.eqb_eq, difference_zero. unfold len in Hl. apply Nat2Z.inj in Hl. split.
    + intros [_ Hall]. revert presented Hl Hall.
      induction l as [|a l IH]; intros [|b p] Hl Hall; try done.
      inversion Hall; subst; simpl in *. subst. f_equal. apply IH; [lia|done].
    + intros ->. split; [done|]. clear. induction presented; simpl; constructor; done.
  - split; [done|]. intros ->. done.
Qed.

(** The constant-time comparison accepts a presented tag exactly when it is
    byte for byte the expected one. *)
Theorem authorization_exact (expected : string) (presented : bytes) :
  authorization_tag_matches expected presented = true <-> as_bytes expected = presented.
Proof. apply tag_matches_iff. Qed.

(** ** Headers survive the wire. *)

(** Fields within the widths of the Rust types. *)
Definition header_ok (h : UdpSpeedHeader) : Prop :=
  length (session_id h) = 16%nat /\ bytes_ok (session_id h) /\ uint 32 (stream_id h) /\
  uint 64 (sequence h) /\ uint 32 (flags h) /\ uint 64 (send_timestamp_nanoseconds h) /\
  uint 32 (payload_length h).

Definition header_layout (h : UdpSpeedHeader) : bytes :=
  UDP_SPEED_MAGIC ++ to_be_bytes 2 1 ++ to_be_bytes 2 52 ++ session_id h ++
  to_be_bytes 4 (stream_id h) ++ to_be_bytes 8 (sequence h) ++ to_be_bytes 4 (flags h) ++
  to_be_bytes 8 (send_timestamp_nanoseconds h) ++ to_be_bytes 4 (payload_length h).

Lemma encode_layout h : length (session_id h) = 16%nat -> encode h = Ok (header_layout h).
Proof.
  intros Hs. unfold encode. change (repeat 0 52) with ([] ++ repeat 0 52).
  assert (Hls : len (session_id h) = 16) by (unfold len; lia).
  repeat (rewrite copy_at_next by (rewrite ?len_app, ?len_to_be_bytes, ?Hls, ?to_be_bytes_length, ?Hs;
    (reflexivity || (simpl; lia))); cbn [obind]).
  rewrite !to_be_bytes_length, Hs. simpl repeat. unfold header_layout.
  by rewrite app_nil_r, <- !app_assoc.
Qed.

Lemma header_layout_len h : length (session_id h) = 16%nat -> len (header_layout h) = 52.
Proof.
  intros Hs. unfold header_layout. rewrite !len_app, !len_to_be_bytes. unfold len. rewrite Hs. done.
Qed.

Lemma read_be_skip n what a l offset :
  0 <= n -> len a <= offset -> read_be n what (a ++ l) offset = read_be n what l (offset - len a).
Proof. intros ??. unfold read_be. rewrite get_range_skip by lia. do 3 f_equal. lia. Qed.

Lemma read_be_head n what x l :
  0 <= x < 2 ^ (8 * Z.of_nat n) -> read_be (Z.of_nat n) what (to_be_bytes n x ++ l) 0 = Ok x.
Proof.
  intros Hx. unfold read_be. rewrite Z.add_0_l, <- (len_to_be_bytes n x), get_range_head. simpl.
  by rewrite from_to_be_bytes.
Qed.

(** Read a field of [header_layout h ++ payload]. *)
Ltac read_header_field Hls :=
  repeat (rewrite read_be_skip by (change (len UDP_SPEED_MAGIC) with 4;
    rewrite ?len_to_be_bytes, ?Hls; lia));
  change (len UDP_SPEED_MAGIC) with 4; rewrite ?len_to_be_bytes, ?Hls;
  match goal with |- read_be _ _ _ ?o = _ => replace o with 0 by lia end.

Lemma header_layout_fields h payload :
  header_ok h ->
  let d := header_layout h ++ payload in
  read_u16 d 4 = Ok 1 /\ read_u16 d 6 = Ok 52 /\ read_u32 d 48 = Ok (payload_length h) /\
  read_u32 d 24 = Ok (stream_id h) /\ read_u64 d 28 = Ok (sequence h) /\
  read_u32 d 36 = Ok (flags h) /\ read_u64 d 40 = Ok (send_timestamp_nanoseconds h).
Proof.
  intros (Hs&_&H1&H2&H3&H4&H5). cbv zeta. unfold header_layout. rewrite <- !app_assoc.
  assert (Hls : len (session_id h) = 16) by (unfold len; lia).
  unfold uint, umax in *. unfold read_u16, read_u32, read_u64.
  split_and!; read_header_field Hls;
    first [apply (read_be_head 2)|apply (read_be_head 4)|apply (read_be_head 8)]; simpl; lia.
Qed.

Lemma header_layout_session h payload :
  length (session_id h) = 16%nat ->
  get_range (header_layout h ++ payload) 8 24 = Some (session_id h) /\
  get_range (header_layout h ++ payload) 0 4 = Some UDP_SPEED_MAGIC.
Proof.
  intros Hs. assert (Hls : len (session_id h) = 16) by (unfold len; lia).
  unfold header_layout. rewrite <- !app_assoc. split; [|apply (get_range_head UDP_SPEED_MAGIC)].
  rewrite (get_range_skip UDP_SPEED_MAGIC) by (try change (len UDP_SPEED_MAGIC) with 4; lia).
  do 2 (rewrite get_range_skip by (change (len UDP_SPEED_MAGIC) with 4; rewrite ?len_to_be_bytes; lia)).
  change (len UDP_SPEED_MAGIC) with 4. rewrite !len_to_be_bytes.
  replace (24 - 4 - Z.of_nat 2 - Z.of_nat 2) with (len (session_id h)) by lia.
  apply get_range_head.
Qed.

(** A parsed header is laid out in the first 52 bytes. *)
Lemma read_be_Ok n what bs offset x :
  read_be n what bs offset = Ok x ->
  exists s, get_range bs offset (offset + n) = Some s /\ x = from_be_bytes s.
Proof.
  unfold read_be. rewrite obind_Ok. intros (s&Hs&[= <-]). apply ok_or_Ok in Hs. eauto.
Qed.

Lemma read_be_bytes n what bs offset x :
  bytes_ok bs -> read_be (Z.of_nat n) what bs offset = Ok x ->
  get_range bs offset (offset + Z.of_nat n) = Some (to_be_bytes n x) /\ 0 <= x < 2 ^ (8 * Z.of_nat n).
Proof.
  intros Hb Hx. destruct (read_be_Ok _ _ _ _ _ Hx) as (s&Hs&->). rewrite Hs.
  assert (Hsb : bytes_ok s) by (eapply subslice_Forall; [by eapply get_range_subslice|done]).
  assert (Hl : length s = n) by (pose proof (get_range_len _ _ _ _ Hs); unfold len in *; lia).
  pose proof (from_be_bytes_uint s Hsb) as [H0 H1]. unfold umax in H1. unfold len in H1. rewrite Hl in H1.
  split; [|lia]. f_equal. by rewrite <- Hl, to_from_be_bytes.
Qed.

Lemma slice_Ok {E} (l : bytes) a b s : slice (E := E) l a b = Ok s -> get_range l a b = Some s.
Proof. unfold slice. by destruct (get_range l a b); [intros [= <-]|]. Qed.

Lemma decode_layout d h :
  bytes_ok d -> decode_datagram d = Ok h ->
  header_ok h /\ get_range d 0 52 = Some (header_layout h) /\ len d = 52 + payload_length h.
Proof.
  intros Hb Hd. unfold decode_datagram in Hd. destruct (_ <? _); [done|].
  apply obind_Ok in Hd as (magic&Hm&Hd). apply slice_Ok in Hm.
  destruct (bool_decide (magic = UDP_SPEED_MAGIC)) eqn:Hmag; [|done]. simpl in Hd.
  apply bool_decide_eq_true in Hmag as ->.
  apply obind_Ok in Hd as (v&Hv&Hd). destruct (Z.eqb_spec v UDP_SPEED_VERSION) as [->|]; [|done]. simpl in Hd.
  apply obind_Ok in Hd as (hl&Hhl&Hd).
  destruct (Z.eqb_spec hl UDP_SPEED_HEADER_BYTES) as [->|]; [|done]. simpl in Hd.
  apply obind_Ok in Hd as (p&Hp&Hd). unfold checked_sub in Hd. destruct (_ <=? len d); [|done].
  destruct (Z.eqb_spec p (len d - UDP_SPEED_HEADER_BYTES)) as [Hpl|]; [|done]. simpl in Hd.
  apply obind_Ok in Hd as (ses&Hses&Hd). apply slice_Ok in Hses.
  apply obind_Ok in Hd as (st&Hst&Hd). apply obind_Ok in Hd as (q&Hq&Hd).
  apply obind_Ok in Hd as (fl&Hfl&Hd). apply obind_Ok in Hd as (ts&Hts&Hd). injection Hd as <-.
  apply (read_be_bytes 2) in Hv as [Rv _]; [|done]. apply (read_be_bytes 2) in Hhl as [Rh _]; [|done].
  apply (read_be_bytes 4) in Hp as [Rp Bp]; [|done]. apply (read_be_bytes 4) in Hst as [Rs Bs]; [|done].
  apply (read_be_bytes 8) in Hq as [Rq Bq]; [|done]. apply (read_be_bytes 4) in Hfl as [Rf Bf]; [|done].
  apply (read_be_bytes 8) in Hts as [Rt Bt]; [|done]. simpl in *.
  split; [|split; [|unfold UDP_SPEED_HEADER_BYTES in *; lia]].
  - unfold header_ok, uint, umax; simpl. split_and!; try lia.
    + pose proof (get_range_len _ _ _ _ Hses). unfold len in *. lia.
    + eapply subslice_Forall; [by eapply get_range_subslice|done].
  - unfold header_layout; simpl.
    pose proof (get_range_adjacent _ _ _ _ _ _ Rt Rp) as R. apply (get_range_adjacent _ _ _ _ _ _ Rf) in R.
    apply (get_range_adjacent _ _ _ _ _ _ Rq) in R. apply (get_range_adjacent _ _ _ _ _ _ Rs) in R.
    apply (get_range_adjacent _ _ _ _ _ _ Hses) in R. apply (get_range_adjacent _ _ _ _ _ _ Rh) in R.
    apply (get_range_adjacent _ _ _ _ _ _ Rv) in R. apply (get_range_adjacent _ _ _ _ _ _ Hm) in R.
    exact R.
Qed.

Lemma decode_encoded h payload :
  header_ok h -> len payload = payload_length h ->
  decode_datagram (header_layout h ++ payload) = Ok h.
Proof.
  intros Hok Hp. assert (Hok' := Hok). destruct Hok' as [Hs _].
  destruct (header_layout_fields h payload Hok) as (R1&R2&R3&R4&R5&R6&R7).
  destruct (header_layout_session h payload Hs) as [Rs Rm].
  pose proof (header_layout_len h Hs). pose proof (len_nonneg payload).
  unfold decode_datagram, UDP_SPEED_HEADER_BYTES.
  rewrite len_app, (proj2 (Z.ltb_ge _ _)) by lia.
  unfold slice. rewrite Rm, R1, R2, R3. cbn [obind].
  rewrite bool_decide_eq_true_2 by done. unfold checked_sub.
  change (negb true) with false. change (negb (1 =? UDP_SPEED_VERSION)) with false.
  change (negb (52 =? 52)) with false. cbv iota.
  rewrite (proj2 (Z.leb_le _ _)) by lia.
  replace (payload_length h =? len (header_layout h) + len payload - 52) with true
    by (symmetry; apply Z.eqb_eq; lia).
  simpl negb. cbv iota. rewrite Rs, R4, R5, R6, R7. cbn [obind]. by destruct h.
Qed.

(** The UDP speed header and its decoder agree: a header of in-range fields
    followed by a payload of the announced length decodes to itself, and every
    datagram the decoder accepts is the encoding of the header it returns
    followed by exactly [payload_length] bytes, so no two datagrams share a
    header and payload. *)
Theorem speed_header_round_trip (h : UdpSpeedHeader) (d : bytes) :
  bytes_ok d ->
  decode_datagram d = Ok h <->
  header_ok h /\ exists hd payload, encode h = Ok hd /\ len hd = UDP_SPEED_HEADER_BYTES /\
    d = hd ++ payload /\ len payload = payload_length h.
Proof.
  intros Hb. split.
  - intros Hd. destruct (decode_layout d h Hb Hd) as (Hok&Hr&Hl). split; [done|].
    destruct Hok as (Hs&_&_&_&_&_&[Hp0 _]). rewrite encode_layout by done.
    apply get_range_Some in Hr as (_&_&Hr). change (Z.to_nat (52 - 0)) with 52%nat in Hr.
    exists (header_layout h), (drop 52 d). split_and!; [done|by apply header_layout_len| |].
    + rewrite Hr, drop_0. by rewrite take_drop.
    + unfold len in *. rewrite length_drop. lia.
  - intros (Hok&hd&payload&He&_&->&Hp). rewrite encode_layout in He by apply Hok. injection He as <-.
    by apply decode_encoded.
Qed.

Definition sample_header : UdpSpeedHeader :=
  {| session_id := repeat 7 16; stream_id := 3; sequence := 18446744073709551614; flags := 0;
     send_timestamp_nanoseconds := 12345; payload_length := 2 |}.

Lemma speed_header_round_trip_witness :
  exists d, bytes_ok d /\ decode_datagram d = Ok sample_header.
Proof.
  assert (Hb : bytes_ok (header_layout sample_header ++ [9; 9])).
  { assert (forallb (fun b => (0 <=? b) && (b <? 256)) (header_layout sample_header ++ [9; 9]) = true) as H
      by (vm_compute; reflexivity).
    apply List.Forall_forall. intros x Hx. rewrite forallb_forall in H. specialize (H x Hx).
    unfold is_byte. lia. }
  exists (header_layout sample_header ++ [9; 9]). split; [exact Hb|].
  apply (speed_header_round_trip sample_header (header_layout sample_header ++ [9; 9]) Hb). split.
  - unfold header_ok, uint, umax. cbn. split_and!; try lia. repeat constructor; lia.
  - exists (header_layout sample_header), [9; 9]. split_and!; vm_compute; reflexivity.
Defined.

Lemma encode_compact_layout h :
  encode_compact h = Ok (SIGNATURE_AND_VERSION :: c_flags h :: to_be_bytes 2 (c_stream_id h) ++
    to_be_bytes 4 (c_session_tag h) ++ to_be_bytes 8 (c_sequence h)).
Proof.
  change (encode_compact h) with (
    let? bs := copy_at (E := Empty_set) ([SIGNATURE_AND_VERSION; c_flags h] ++ repeat 0 14) 2
                 (to_be_bytes 2 (c_stream_id h)) in
    let? bs := copy_at bs 4 (to_be_bytes 4 (c_session_tag h)) in
    copy_at bs 8 (to_be_bytes 8 (c_sequence h))).
  repeat (rewrite copy_at_next by (rewrite ?len_app, ?len_to_be_bytes, ?to_be_bytes_length;
    (reflexivity || (simpl; lia))); cbn [obind]).
  rewrite !to_be_bytes_length. simpl repeat. by rewrite app_nil_r, <- !app_assoc.
Qed.

(** The compact header survives its encoding, in exactly 16 bytes. *)
Theorem compact_header_round_trip (h : UdpCompactHeader) :
  uint 8 (c_flags h) -> uint 16 (c_stream_id h) -> uint 32 (c_session_tag h) ->
  uint 64 (c_sequence h) ->
  exists bs, encode_compact h = Ok bs /\ len bs = UDP_COMPACT_HEADER_BYTES /\
    decode_compact bs = Ok h.
Proof.
  intros H1 H2 H3 H4. rewrite encode_compact_layout. eexists. split; [reflexivity|].
  set (s := to_be_bytes 2 _). set (t := to_be_bytes 4 _). set (q := to_be_bytes 8 _).
  assert (Hl : len (SIGNATURE_AND_VERSION :: c_flags h :: s ++ t ++ q) = 16).
  { change (SIGNATURE_AND_VERSION :: c_flags h :: s ++ t ++ q)
      with ([SIGNATURE_AND_VERSION; c_flags h] ++ s ++ t ++ q).
    unfold s, t, q. rewrite !len_app, !len_to_be_bytes. reflexivity. }
  split; [done|]. unfold decode_compact. rewrite Hl. change (negb (16 =? _)) with false. cbv iota.
  unfold uint, umax in *.
  assert (Hs : exists s0 s1, s = [s0; s1]).
  { pose proof (to_be_bytes_length 2 (c_stream_id h)) as Hl2. fold s in Hl2.
    destruct s as [|s0 [|s1 [|]]]; try done. eauto. }
  destruct Hs as (s0&s1&Hs). assert (Hs' : from_be_bytes [s0; s1] = c_stream_id h).
  { rewrite <- Hs. apply (from_to_be_bytes 2). simpl. lia. }
  assert (get_range (SIGNATURE_AND_VERSION :: c_flags h :: s ++ t ++ q) 4 8 = Some t) as Ht.
  { rewrite Hs. change (SIGNATURE_AND_VERSION :: c_flags h :: [s0; s1] ++ t ++ q)
      with ([SIGNATURE_AND_VERSION; c_flags h; s0; s1] ++ t ++ q).
    rewrite get_range_skip by (change (len [_;_;_;_]) with 4; lia). change (len [_;_;_;_]) with 4.
    replace (8 - 4) with (len t) by (unfold t; by rewrite len_to_be_bytes). apply get_range_head. }
  assert (get_range (SIGNATURE_AND_VERSION :: c_flags h :: s ++ t ++ q) 8 16 = Some q) as Hq.
  { rewrite <- Hl. change (SIGNATURE_AND_VERSION :: c_flags h :: s ++ t ++ q)
      with ([SIGNATURE_AND_VERSION; c_flags h] ++ s ++ t ++ q).
    rewrite app_assoc, app_assoc. replace 8 with (len (([SIGNATURE_AND_VERSION; c_flags h] ++ s) ++ t)) at 1
      by (unfold s, t; rewrite !len_app, !len_to_be_bytes; reflexivity).
    apply get_range_tail. }
  unfold slice. rewrite Ht, Hq, Hs. change ([s0; s1] ++ t ++ q) with (s0 :: s1 :: t ++ q).
  assert (forall l, index (E := NetToolError) (SIGNATURE_AND_VERSION :: c_flags h :: s0 :: s1 :: l) 0
      = Ok SIGNATURE_AND_VERSION /\ index (E := NetToolError) (SIGNATURE_AND_VERSION :: c_flags h :: s0 :: s1 :: l) 1
      = Ok (c_flags h) /\ index (E := NetToolError) (SIGNATURE_AND_VERSION :: c_flags h :: s0 :: s1 :: l) 2
      = Ok s0 /\ index (E := NetToolError) (SIGNATURE_AND_VERSION :: c_flags h :: s0 :: s1 :: l) 3
      = Ok s1) as Hi by done.
  destruct (Hi (t ++ q)) as (->&->&->&->). cbn [obind]. rewrite Hs'.
  change (negb (SIGNATURE_AND_VERSION =? SIGNATURE_AND_VERSION)) with false. cbv iota.
  unfold t, q. rewrite (from_to_be_bytes 4), (from_to_be_bytes 8) by (simpl; lia). by destruct h.
Qed.

Lemma compact_header_round_trip_witness :
  let h := {| c_flags := 1; c_stream_id := 65535; c_session_tag := 4294967295; c_sequence := 9 |} in
  exists bs, encode_compact h = Ok bs /\ len bs = UDP_COMPACT_HEADER_BYTES /\ decode_compact bs = Ok h.
Proof.
  intros h. apply (compact_header_round_trip h); unfold uint, umax; cbn; lia.
Defined.

(** ** The bounded tracker refines the exact one. *)

(** Late packets stay within [w] of the highest sequence seen before them. *)
Fixpoint within_window (w : Z) (highest : option Z) (qs : list Z) : Prop :=
  match qs with
  | [] => True
  | q :: qs =>
      match highest with
      | Some h => h - q < w /\ within_window w (Some (Z.max h q)) qs
      | None => within_window w (Some q) qs
      end
  end.

Lemma power_of_two_log n : is_power_of_two n = true -> n = 2 ^ Z.log2 n.
Proof.
  unfold is_power_of_two. intros H. apply andb_true_iff in H as [H0 H1].
  apply Z.ltb_lt in H0. apply Z.eqb_eq in H1.
  pose proof (Z.log2_spec n H0) as [Hl Hu]. set (k := Z.log2 n) in *.
  pose proof (Z.log2_nonneg n). fold k in H. rewrite Z.pow_succ_r in Hu by lia.
  destruct (decide (n = 2 ^ k)) as [|Hne]; [done|]. exfalso.
  assert (Z.testbit (Z.land n (n - 1)) k = true) as Hb; [|rewrite H1, Z.bits_0 in Hb; done].
  rewrite Z.land_spec. apply andb_true_iff. split.
  - apply Z.testbit_true; [lia|]. assert (n / 2 ^ k = 1) as ->; [|done].
    symmetry. apply (Z.div_unique n (2 ^ k) 1 (n - 2 ^ k)); lia.
  - apply Z.testbit_true; [lia|]. assert ((n - 1) / 2 ^ k = 1) as ->; [|done].
    symmetry. apply (Z.div_unique (n - 1) (2 ^ k) 1 (n - 1 - 2 ^ k)); lia.
Qed.

(** Positions of the window, for a power-of-two size. *)
Lemma slot_mod t k q : 0 <= k -> mask t = 2 ^ k - 1 -> slot t q = q mod 2 ^ k.
Proof.
  intros Hk Hm. unfold slot. rewrite Hm. rewrite <- Z.land_ones by done. f_equal.
  rewrite Z.ones_equiv. lia.
Qed.

Lemma mod_distinct w a b : 0 < w -> a <> b -> Z.abs (a - b) < w -> a mod w <> b mod w.
Proof.
  intros Hw Hne Hab He. pose proof (Z.div_mod a w ltac:(lia)). pose proof (Z.div_mod b w ltac:(lia)).
  assert (a - b = w * (a / w - b / w)) by lia. assert (a / w - b / w <> 0) by nia. nia.
Qed.

Lemma set_index_ok {E A} (l : list A) i x :
  0 <= i < len l -> set_index (E := E) l i x = Ok (<[Z.to_nat i := x]> l).
Proof. intros Hi. unfold set_index. by rewrite (proj2 (Z.leb_le _ _)), (proj2 (Z.ltb_lt _ _)) by lia. Qed.

Lemma len_insert {A} (l : list A) i x : len (<[i := x]> l) = len l.
Proof. unfold len. by rewrite length_insert. Qed.

(** The exact tracker's own invariant, once something was seen: [lost] counts
    the gaps below the highest sequence. *)
Definition counted (e : UdpSequenceTracker) (h : Z) : Prop :=
  0 <= h < umax 64 /\ h ∈ seen e /\ (forall x, x ∈ seen e -> 0 <= x <= h) /\
  received (exact_stats e) = Z.of_nat (size (seen e)) /\
  lost (exact_stats e) = h + 1 - Z.of_nat (size (seen e)) /\
  highest_sequence (exact_stats e) = Some h.

Lemma bounded_size (X : gset Z) h :
  0 <= h -> (forall x, x ∈ X -> 0 <= x <= h) -> Z.of_nat (size X) <= h + 1.
Proof.
  intros Hh HX. assert (X ⊆ list_to_set (seqZ 0 (h + 1))) as Hsub.
  { intros x Hx%HX. apply elem_of_list_to_set, elem_of_seqZ. lia. }
  apply subseteq_size in Hsub. rewrite size_list_to_set in Hsub by apply NoDup_seqZ.
  rewrite length_seqZ in Hsub. lia.
Qed.

Lemma gaps_below (X : gset Z) h :
  0 <= h -> (forall x, x ∈ X -> 0 <= x <= h) ->
  Z.of_nat (size (list_to_set (seqZ 0 (h + 1)) ∖ X : gset Z)) = h + 1 - Z.of_nat (size X).
Proof.
  intros Hh HX. pose proof (bounded_size X h Hh HX).
  assert (X ⊆ list_to_set (seqZ 0 (h + 1))) as Hsub.
  { intros x Hx%HX. apply elem_of_list_to_set, elem_of_seqZ. lia. }
  rewrite (size_difference (list_to_set (seqZ 0 (h + 1)) : gset Z) X Hsub).
  rewrite size_list_to_set by apply NoDup_seqZ. rewrite length_seqZ. lia.
Qed.

Lemma exact_repeat e q :
  q ∈ seen e ->
  observe_exact e q =
    {| seen := seen e;
       exact_stats := {| received := received (exact_stats e); lost := lost (exact_stats e);
                         out_of_order := out_of_order (exact_stats e);
                         duplicate := sat64 (duplicate (exact_stats e)) 1;
                         highest_sequence := highest_sequence (exact_stats e) |} |}.
Proof. intros Hq. unfold observe_exact. by rewrite bool_decide_eq_true_2. Qed.

Lemma exact_fresh e h q :
  counted e h -> q ∉ seen e -> 0 <= q < umax 64 ->
  let n := Z.of_nat (size (seen e)) in
  observe_exact e q =
    {| seen := {[q]} ∪ seen e;
       exact_stats := {| received := n + 1; lost := Z.max h q - n;
                         out_of_order := (if q <? h then sat64 (out_of_order (exact_stats e)) 1
                                          else out_of_order (exact_stats e));
                         duplicate := duplicate (exact_stats e);
                         highest_sequence := Some (Z.max h q) |} |} /\
  counted (observe_exact e q) (Z.max h q) /\ n + 1 <= Z.max h q + 1.
Proof.
  intros (Hh&Hin&Hall&Hr&Hlost&Hhi) Hq Hq0. cbv zeta.
  assert (size ({[q]} ∪ seen e) = S (size (seen e))) as Hsz
    by (rewrite size_union by set_solver; rewrite size_singleton; lia).
  assert (Hall' : forall x, x ∈ ({[q]} ∪ seen e) -> 0 <= x <= Z.max h q).
  { intros x [->%elem_of_singleton|Hx%Hall]%elem_of_union; lia. }
  pose proof (bounded_size _ (Z.max h q) ltac:(lia) Hall') as Hb. rewrite Hsz in Hb.
  assert (He : observe_exact e q =
    {| seen := {[q]} ∪ seen e;
       exact_stats := {| received := Z.of_nat (size (seen e)) + 1; lost := Z.max h q - Z.of_nat (size (seen e));
                         out_of_order := (if q <? h then sat64 (out_of_order (exact_stats e)) 1
                                          else out_of_order (exact_stats e));
                         duplicate := duplicate (exact_stats e);
                         highest_sequence := Some (Z.max h q) |} |}).
  { unfold observe_exact. rewrite bool_decide_eq_false_2 by done. rewrite Hhi, Hr. f_equal.
    unfold sat64. rewrite !(sat_add_exact 64) by lia. unfold sat_sub. f_equal. lia. }
  split_and!; [done| |lia]. rewrite He. unfold counted; simpl. rewrite Hsz.
  split_and!; try lia; try done.
  destruct (Z.max_spec h q) as [[_ ->]|[_ ->]]; set_solver.
Qed.

Lemma exact_first q :
  0 <= q < umax 64 ->
  observe_exact default_tracker q =
    {| seen := {[q]} ∪ ∅; exact_stats := Build_UdpSequenceStats 1 q 0 0 (Some q) |} /\
  counted (observe_exact default_tracker q) q.
Proof.
  intros Hq. assert (He : observe_exact default_tracker q =
    {| seen := {[q]} ∪ ∅; exact_stats := Build_UdpSequenceStats 1 q 0 0 (Some q) |}).
  { unfold observe_exact. rewrite bool_decide_eq_false_2 by set_solver. simpl.
    unfold sat64. rewrite !(sat_add_exact 64) by (unfold umax in *; lia). unfold sat_sub.
    do 2 f_equal. lia. }
  split; [done|]. rewrite He. unfold counted; cbn [seen exact_stats received lost highest_sequence].
  rewrite union_empty_r_L, size_singleton. split_and!; try lia; try done; set_solver.
Qed.

(** A stream without loss or reordering. *)
Lemma exact_in_order e a m :
  0 < a -> counted e (a - 1) -> exact_stats e = Build_UdpSequenceStats a 0 0 0 (Some (a - 1)) ->
  0 <= m -> a + m <= umax 64 ->
  exact_stats (observe_all_exact e (seqZ a m)) = Build_UdpSequenceStats (a + m) 0 0 0 (Some (a + m - 1)).
Proof.
  intros Ha Hc Hs Hm. revert a e Ha Hc Hs. pattern m. apply natlike_ind; [| |done]; clear m Hm.
  { intros a e ?? Hs _. simpl. rewrite Hs. repeat f_equal; lia. }
  intros m Hm IH a e Ha Hc Hs Hb. rewrite seqZ_cons by lia. simpl.
  assert (Hnin : a ∉ seen e).
  { intros Hin. destruct Hc as (_&_&Hall&_). apply Hall in Hin. lia. }
  destruct (exact_fresh e (a - 1) a Hc Hnin ltac:(lia)) as (He&Hc2&_).
  assert (Hsz : Z.of_nat (size (seen e)) = a).
  { destruct Hc as (_&_&_&Hr&_). rewrite Hs in Hr. by simpl in Hr. }
  rewrite (proj2 (Z.ltb_ge a (a - 1))), Hsz, Z.max_r, Hs in He by lia. simpl in He.
  rewrite Z.max_r in Hc2 by lia.
  replace (Z.pred (Z.succ m)) with m by lia. replace (Z.succ a) with (a + 1) by lia.
  replace (a + Z.succ m) with (a + 1 + m) by lia. apply IH; [lia| | |lia].
  - by replace (a + 1 - 1) with a by lia.
  - rewrite He; simpl. f_equal; [lia|]. f_equal. lia.
Qed.

Lemma within_in_order w a m :
  0 < w -> 0 <= m -> within_window w (Some (a - 1)) (seqZ a m).
Proof.
  intros Hw Hm. revert a. pattern m. apply natlike_ind; [done| |done]; clear m Hm.
  intros m Hm IH a. rewrite seqZ_cons by lia. simpl. split; [lia|].
  rewrite Z.max_r by lia. replace (Z.pred (Z.succ m)) with m by lia.
  specialize (IH (a + 1)). replace (a + 1 - 1) with a in IH by lia. done.
Qed.

Section Window.
Context (k : Z) (Hk : 0 <= k).
Let w := 2 ^ k.

Lemma window_pos : 0 < w.
Proof. unfold w. apply Z.pow_pos_nonneg; lia. Qed.

Lemma clear_slots_spec t l first n :
  mask t = w - 1 -> len l = w ->
  exists l', clear_slots t l first n = Ok l' /\ len l' = w /\
    (forall q, first <= q < first + Z.of_nat n -> l' !! Z.to_nat (q mod w) = Some (umax 64)) /\
    (forall i, l !! i = Some (umax 64) -> l' !! i = Some (umax 64)) /\
    (forall i, (forall q, first <= q < first + Z.of_nat n -> Z.to_nat (q mod w) <> i) ->
       l' !! i = l !! i).
Proof.
  intros Hm. pose proof window_pos as Hw.
  revert l first. induction n as [|n IH]; intros l first Hl; simpl.
  { exists l. split_and!; try done. lia. }
  rewrite (slot_mod t k) by (done || lia). fold w.
  pose proof (Z.mod_pos_bound first w Hw). rewrite set_index_ok by lia. simpl.
  destruct (IH (<[Z.to_nat (first mod w) := umax 64]> l) (first + 1)) as (l'&->&Hl'&Hin&Hkeep&Hout);
    [by rewrite len_insert|].
  assert (<[Z.to_nat (first mod w) := umax 64]> l !! Z.to_nat (first mod w) = Some (umax 64)) as Hf.
  { apply list_lookup_insert_eq. unfold len in Hl. lia. }
  exists l'. split_and!; [done|done| | |].
  - intros q Hq. destruct (decide (first + 1 <= q)); [apply Hin; lia|].
    assert (q = first) as -> by lia. by apply Hkeep.
  - intros i Hi. apply Hkeep. destruct (decide (i = Z.to_nat (first mod w))) as [->|]; [done|].
    by rewrite list_lookup_insert_ne.
  - intros i Hi. rewrite Hout; [|intros q Hq; apply Hi; lia].
    apply list_lookup_insert_ne. apply Hi. lia.
Qed.

(** What the window shows of sequence [q]. *)
Definition shown (e : UdpSequenceTracker) (q : Z) : Z :=
  if decide (q ∈ seen e) then q else umax 64.

Definition tracks (t : BoundedUdpSequenceTracker) (e : UdpSequenceTracker) : Prop :=
  mask t = w - 1 /\ len (window t) = w /\ bounded_stats t = exact_stats e /\
  match highest_sequence (exact_stats e) with
  | None => e = default_tracker /\ window t = repeat (umax 64) (Z.to_nat w)
  | Some h => counted e h /\
      forall q, h - w < q <= h -> window t !! Z.to_nat (q mod w) = Some (shown e q)
  end.

Lemma tracks_new t : new_bounded w = Ok t -> tracks t default_tracker.
Proof.
  unfold new_bounded. destruct (_ || _); [done|]. intros [= <-]. unfold tracks; simpl.
  pose proof window_pos. split_and!; try done. unfold len. rewrite repeat_length. lia.
Qed.

Lemma lookup_repeat {A} (x : A) n i : (i < n)%nat -> repeat x n !! i = Some x.
Proof. revert i. induction n as [|n IH]; intros [|i] Hi; simpl; try lia; [done|]. apply IH. lia. Qed.

(** Overwriting one slot. *)
Lemma window_set (l : list Z) q :
  len l = w ->
  set_index (E := Empty_set) l (q mod w) q = Ok (<[Z.to_nat (q mod w) := q]> l) /\
  <[Z.to_nat (q mod w) := q]> l !! Z.to_nat (q mod w) = Some q /\
  forall q', q' <> q -> Z.abs (q' - q) < w ->
    <[Z.to_nat (q mod w) := q]> l !! Z.to_nat (q' mod w) = l !! Z.to_nat (q' mod w).
Proof.
  intros Hl. pose proof window_pos as Hw. pose proof (Z.mod_pos_bound q w Hw).
  split_and!; [apply set_index_ok; lia|apply list_lookup_insert_eq; unfold len in Hl; lia|].
  intros q' Hne Hd. apply list_lookup_insert_ne. pose proof (Z.mod_pos_bound q' w Hw).
  pose proof (mod_distinct w q' q Hw Hne Hd). lia.
Qed.

Lemma shown_other e e' q q' :
  seen e' = {[q]} ∪ seen e -> q' <> q -> shown e' q' = shown e q'.
Proof. intros He Hne. unfold shown. rewrite He. repeat case_decide; set_solver. Qed.

Lemma shown_self e e' q : seen e' = {[q]} ∪ seen e -> shown e' q = q.
Proof. intros He. unfold shown. rewrite He. case_decide; set_solver. Qed.

(** The window after advancing to a new highest sequence. *)
Lemma advance_window t h q :
  mask t = w - 1 -> len (window t) = w -> h < q ->
  exists l, (if len (window t) <=? q - h then Ok (E := Empty_set) (repeat (umax 64) (length (window t)))
             else clear_slots t (window t) (h + 1) (Z.to_nat (q - h))) = Ok l /\ len l = w /\
    (forall q', h < q' <= q -> q - w < q' -> l !! Z.to_nat (q' mod w) = Some (umax 64)) /\
    (forall q', q - w < q' <= h -> l !! Z.to_nat (q' mod w) = window t !! Z.to_nat (q' mod w)).
Proof.
  intros Hm Hl Hq. pose proof window_pos as Hw. rewrite Hl. destruct (Z.leb_spec w (q - h)).
  - eexists. split; [done|]. split_and!; [unfold len in *; rewrite repeat_length; done| |lia].
    intros q' _ _. pose proof (Z.mod_pos_bound q' w Hw). apply lookup_repeat.
    unfold len in Hl. lia.
  - destruct (clear_slots_spec t (window t) (h + 1) (Z.to_nat (q - h)) Hm Hl)
      as (l&->&Hll&Hin&_&Hout). exists l. split_and!; [done|done| |].
    + intros q' ??. apply Hin. lia.
    + intros q' Hq'. apply Hout. intros q'' Hq''.
      pose proof (Z.mod_pos_bound q' w Hw). pose proof (Z.mod_pos_bound q'' w Hw).
      pose proof (mod_distinct w q'' q' Hw ltac:(lia) ltac:(lia)). lia.
Qed.

Lemma tracks_first t q :
  tracks t default_tracker -> 0 <= q < umax 64 ->
  exists t', observe_bounded t q = Ok t' /\ tracks t' (observe_exact default_tracker q).
Proof.
  intros (Hm&Hl&Hs&_&Hw) Hq. destruct (exact_first q Hq) as [He Hc].
  unfold observe_bounded. rewrite Hs. cbn [default_tracker exact_stats default_sequence_stats
    highest_sequence out_of_order duplicate].
  rewrite (slot_mod t k) by done. fold w. destruct (window_set (window t) q Hl) as (->&Hself&Hne).
  cbn [obind]. eexists. split; [done|]. unfold tracks. rewrite He in Hc |- *.
  cbn [exact_stats highest_sequence with_bounded mask window bounded_stats].
  split_and!; [done|by rewrite len_insert|done|done|].
  pose proof window_pos as Hwp. intros q' Hq'.
  destruct (decide (q' = q)) as [->|Hd]; [by rewrite Hself, (shown_self default_tracker)|].
  rewrite Hne by lia. rewrite Hw. pose proof (Z.mod_pos_bound q' w Hwp).
  rewrite lookup_repeat by lia. by rewrite (shown_other default_tracker _ q) by done.
Qed.

(** A packet above the highest sequence. *)
Lemma tracks_advance t e h q :
  tracks t e -> highest_sequence (exact_stats e) = Some h -> h < q < umax 64 ->
  exists t', observe_bounded t q = Ok t' /\ tracks t' (observe_exact e q).
Proof.
  intros (Hm&Hl&Hs&Hcase) Hh Hq. rewrite Hh in Hcase. destruct Hcase as [Hc Hw].
  assert (Hc' := Hc). destruct Hc' as (Hb&_&Hall&Hr&Hlost&_).
  assert (Hnin : q ∉ seen e) by (intros Hi%Hall; lia).
  destruct (exact_fresh e h q Hc Hnin ltac:(lia)) as (He&Hc2&Hn). rewrite He in Hc2 |- *.
  rewrite (proj2 (Z.ltb_ge q h)) in Hc2 |- * by lia. rewrite Z.max_r in Hc2, Hn |- * by lia.
  unfold observe_bounded. rewrite Hs, Hh, (proj2 (Z.ltb_lt h q)) by lia. cbv zeta.
  destruct (advance_window t h q Hm Hl ltac:(lia)) as (l&->&Hll&Hnew&Hold). cbn [obind].
  rewrite (slot_mod t k) by done. fold w. destruct (window_set l q Hll) as (->&Hself&Hne).
  cbn [obind]. eexists. split; [done|]. unfold tracks.
  cbn [exact_stats highest_sequence with_bounded mask window bounded_stats].
  pose proof (bounded_size _ h ltac:(lia) Hall) as Hsz.
  split_and!; [done|by rewrite len_insert| |done|].
  - rewrite Hr, Hlost. unfold sat64, sat_sub. rewrite !sat_add_exact by lia. f_equal. lia.
  - intros q' Hq'. destruct (decide (q' = q)) as [->|Hd].
    { rewrite Hself. f_equal. symmetry. by apply (shown_self e). }
    rewrite Hne by lia. rewrite (shown_other e _ q) by done.
    destruct (decide (h < q')) as [Hlt|]; [|rewrite Hold by lia; apply Hw; lia].
    rewrite Hnew by lia. f_equal. unfold shown. case_decide as Hi; [|done]. apply Hall in Hi. lia.
Qed.

(** A late packet inside the window. *)
Lemma tracks_late t e h q :
  tracks t e -> highest_sequence (exact_stats e) = Some h -> 0 <= q <= h -> h - q < w ->
  exists t', observe_bounded t q = Ok t' /\ tracks t' (observe_exact e q).
Proof.
  intros (Hm&Hl&Hs&Hcase) Hh Hq Hin. rewrite Hh in Hcase. destruct Hcase as [Hc Hw].
  assert (Hc' := Hc). destruct Hc' as (Hb&_&Hall&Hr&Hlost&_).
  unfold observe_bounded. rewrite Hs, Hh, (proj2 (Z.ltb_ge h q)) by lia. cbv zeta.
  rewrite Hl, (proj2 (Z.leb_gt _ _)) by lia. rewrite (slot_mod t k) by done. fold w.
  pose proof window_pos as Hwp. pose proof (Z.mod_pos_bound q w Hwp).
  assert (index (E := Empty_set) (window t) (q mod w) = Ok (shown e q)) as ->.
  { unfold index. rewrite (proj2 (Z.leb_le _ _)) by lia. by rewrite Hw by lia. }
  cbn [obind]. unfold shown at 1. destruct (decide (q ∈ seen e)) as [Hi|Hi].
  - rewrite Z.eqb_refl, (exact_repeat e q Hi). eexists. split; [done|]. unfold tracks.
    cbn [exact_stats highest_sequence with_bounded mask window bounded_stats]. rewrite Hh.
    split_and!; [done|done|done| |done].
    unfold counted; cbn [seen exact_stats received lost highest_sequence].
    destruct Hc as (?&?&?&?&?&?). split_and!; (done || lia).
  - rewrite (proj2 (Z.eqb_neq _ _)) by lia.
    destruct (exact_fresh e h q Hc Hi ltac:(lia)) as (He&Hc2&Hn). rewrite He in Hc2 |- *.
    assert (q <> h) by (intros ->; apply Hi; apply Hc).
    rewrite (proj2 (Z.ltb_lt q h)) in Hc2 |- * by lia. rewrite Z.max_l in Hc2, Hn |- * by lia.
    destruct (window_set (window t) q Hl) as (->&Hself&Hne). cbn [obind]. eexists. split; [done|].
    unfold tracks. cbn [exact_stats highest_sequence with_bounded mask window bounded_stats].
    split_and!; [done|by rewrite len_insert| |done|].
    + rewrite Hr, Hlost. unfold sat64, sat_sub. rewrite (sat_add_exact 64 (Z.of_nat _)) by lia.
      f_equal. lia.
    + intros q' Hq'. destruct (decide (q' = q)) as [->|Hd].
      { rewrite Hself. f_equal. symmetry. by apply (shown_self e). }
      rewrite Hne by lia. rewrite (shown_other e _ q) by done. apply Hw. lia.
Qed.

Lemma tracks_all t e qs :
  tracks t e -> Forall (fun q => 0 <= q < umax 64) qs ->
  within_window w (highest_sequence (exact_stats e)) qs ->
  exists t', observe_all_bounded t qs = Ok t' /\ tracks t' (observe_all_exact e qs).
Proof.
  revert t e. induction qs as [|q qs IH]; intros t e Ht Hq Hw; simpl; [eauto|].
  inversion Hq as [|?? Hq0 Hqs]; subst.
  destruct (highest_sequence (exact_stats e)) as [h|] eqn:Hh.
  - destruct Hw as [Hd Hw].
    assert (exists t', observe_bounded t q = Ok t' /\ tracks t' (observe_exact e q)) as (t'&->&Ht').
    { destruct (decide (h < q)); [eapply tracks_advance|eapply tracks_late]; eauto; lia. }
    cbn [obind]. apply IH; [done|done|].
    assert (highest_sequence (exact_stats (observe_exact e q)) = Some (Z.max h q)) as ->; [|done].
    assert (Hc : counted e h) by (destruct Ht as (_&_&_&Hc); rewrite Hh in Hc; apply Hc).
    destruct (decide (q ∈ seen e)) as [Hi|Hi].
    + rewrite exact_repeat by done; simpl. rewrite Hh. destruct Hc as (_&_&Hall&_).
      apply Hall in Hi. f_equal. lia.
    + by destruct (exact_fresh e h q Hc Hi Hq0) as (->&_).
  - assert (e = default_tracker) as -> by (destruct Ht as (_&_&_&Hc); rewrite Hh in Hc; apply Hc).
    destruct (tracks_first t q Ht Hq0) as (t'&->&Ht'). cbn [obind]. apply IH; [done|done|].
    by destruct (exact_first q Hq0) as [-> _].
Qed.

(** No sequence number, however wild, makes the tracker panic. *)
Lemma observe_total t q :
  mask t = w - 1 -> len (window t) = w ->
  exists t', observe_bounded t q = Ok t' /\ mask t' = w - 1 /\ len (window t') = w.
Proof.
  intros Hm Hl. unfold observe_bounded. rewrite (slot_mod t k) by done. fold w.
  destruct (window_set (window t) q Hl) as (Hset&_&_).
  destruct (highest_sequence (bounded_stats t)) as [h|].
  2: { rewrite Hset. eexists. split_and!; [done|done|]. simpl. by rewrite len_insert. }
  destruct (Z.ltb_spec h q) as [Hq|Hq]; cbv zeta.
  - destruct (advance_window t h q Hm Hl Hq) as (l&->&Hll&_). cbn [obind].
    destruct (window_set l q Hll) as (->&_&_). eexists. split_and!; [done|done|].
    simpl. by rewrite len_insert.
  - destruct (_ <=? _); [by eexists|].
    pose proof (Z.mod_pos_bound q w window_pos).
    destruct (window t !! Z.to_nat (q mod w)) as [v|] eqn:Hv.
    2: { apply lookup_ge_None in Hv. unfold len in Hl. lia. }
    unfold index. rewrite (proj2 (Z.leb_le _ _)), Hv by lia. cbn [obind].
    destruct (v =? q); [by eexists|]. rewrite Hset. eexists. split_and!; [done|done|].
    simpl. by rewrite len_insert.
Qed.
End Window.

(** The statistics of a lossless stream of [m] packets. *)
Lemma bounded_in_order k t m :
  0 <= k -> new_bounded (2 ^ k) = Ok t -> 0 < m -> m <= umax 64 ->
  exists t', observe_all_bounded t (seqZ 0 m) = Ok t' /\
    bounded_stats t' = Build_UdpSequenceStats m 0 0 0 (Some (m - 1)).
Proof.
  intros Hk Hn Hm Hb. pose proof (Z.pow_pos_nonneg 2 k ltac:(lia) Hk).
  destruct (tracks_all k Hk t default_tracker (seqZ 0 m)) as (t'&Ht'&_&_&Hs&_).
  - by apply tracks_new.
  - apply List.Forall_forall. intros q Hq. apply list_elem_of_In, elem_of_seqZ in Hq. lia.
  - rewrite seqZ_cons by lia. simpl. by apply (within_in_order (2 ^ k) 1); lia.
  - exists t'. split; [done|]. rewrite Hs, seqZ_cons by lia. simpl.
    destruct (exact_first 0 ltac:(lia)) as [He Hc]. rewrite He in Hc |- *.
    rewrite (exact_in_order _ 1); [|lia|done|done|lia|lia]. f_equal; [lia|]. f_equal. lia.
Qed.

(** C36: the fixed-memory sequence tracker refines the exact one: while every
    late packet is less than the window size behind the highest sequence seen so
    far, no index is out of bounds and after every stream the bounded tracker
    reports exactly the statistics of the tracker that remembers every
    sequence. *)
Theorem bounded_tracker_refines (window_size : Z) (t : BoundedUdpSequenceTracker) (qs : list Z) :
  new_bounded window_size = Ok t ->
  Forall (fun q => 0 <= q < umax 64) qs ->
  within_window window_size None qs ->
  exists t', observe_all_bounded t qs = Ok t' /\
    bounded_stats t' = exact_stats (observe_all_exact default_tracker qs).
Proof.
  intros Hn Hq Hw. assert (is_power_of_two window_size = true) as Hp.
  { unfold new_bounded in Hn. by destruct (_ <? _), (is_power_of_two window_size). }
  apply power_of_two_log in Hp. assert (Hk : 0 <= Z.log2 window_size) by apply Z.log2_nonneg.
  revert Hk Hp. generalize (Z.log2 window_size). intros k Hk ->.
  destruct (tracks_all k Hk t default_tracker qs) as (t'&Ht'&_&_&Hs&_); try done; [|eauto].
  by apply tracks_new.
Qed.

Lemma counted_repeat e h q : counted e h -> q ∈ seen e -> counted (observe_exact e q) h.
Proof.
  intros (?&?&?&?&?&?) Hi. rewrite exact_repeat by done. unfold counted; simpl. split_and!; done || lia.
Qed.

(** Every observed sequence is either new or counted as a duplicate. *)
Lemma exact_accounting qs e h :
  Forall (fun q => 0 <= q < umax 64) qs -> counted e h ->
  0 <= duplicate (exact_stats e) -> duplicate (exact_stats e) + len qs <= umax 64 ->
  let e' := observe_all_exact e qs in
  exists h', counted e' h' /\ seen e' = seen e ∪ list_to_set qs /\
    duplicate (exact_stats e') + Z.of_nat (size (seen e'))
      = duplicate (exact_stats e) + len qs + Z.of_nat (size (seen e)).
Proof.
  cbv zeta. revert e h. induction qs as [|q qs IH]; intros e h Hq Hc Hd Hb; simpl.
  { exists h. split_and!; [done|set_solver|unfold len; simpl; lia]. }
  inversion Hq as [|?? Hq0 Hqs]; subst. rewrite len_cons in *. pose proof (len_nonneg qs).
  destruct (decide (q ∈ seen e)) as [Hi|Hi].
  - pose proof (counted_repeat e h q Hc Hi) as Hc2. rewrite exact_repeat in * by done.
    destruct (IH _ h Hqs Hc2) as (h'&Hc'&Hs'&Hd'); simpl in *; unfold sat64 in *;
      rewrite ?sat_add_exact in * by lia; try lia.
    exists h'. split_and!; [done|rewrite Hs'; set_solver|lia].
  - destruct (exact_fresh e h q Hc Hi Hq0) as (He&Hc2&_). rewrite He in Hc2 |- *.
    destruct (IH _ _ Hqs Hc2) as (h'&Hc'&Hs'&Hd'); simpl in *; try lia.
    exists h'. split_and!; [done|rewrite Hs'; set_solver|].
    rewrite Hd', size_union, size_singleton by set_solver. lia.
Qed.

(** The exact tracker's statistics mean what they say: after any stream,
    [received] is the number of distinct sequences, [duplicate] the number of
    repeats, [highest_sequence] their maximum and [lost] the number of absent
    sequences below it. *)
Theorem exact_tracker_counts (q0 : Z) (qs : list Z) :
  Forall (fun q => 0 <= q < umax 64) (q0 :: qs) -> len (q0 :: qs) <= umax 64 ->
  let t := observe_all_exact default_tracker (q0 :: qs) in
  let distinct := (list_to_set (q0 :: qs) : gset Z) in
  exists h, highest_sequence (exact_stats t) = Some h /\ h ∈ (q0 :: qs) /\
    Forall (fun q => q <= h) (q0 :: qs) /\
    received (exact_stats t) = Z.of_nat (size distinct) /\
    duplicate (exact_stats t) = len (q0 :: qs) - Z.of_nat (size distinct) /\
    lost (exact_stats t) = Z.of_nat (size (list_to_set (seqZ 0 (h + 1)) ∖ distinct : gset Z)).
Proof.
  intros Hq Hlen. cbv zeta.
  inversion Hq as [|?? Hq0 Hqs]; subst. destruct (exact_first q0 Hq0) as [He Hc]. simpl.
  rewrite len_cons in *. rewrite He in Hc |- *.
  destruct (exact_accounting qs _ q0 Hqs Hc) as (h&Hh&Hs&Hd); [simpl; lia|simpl; lia|].
  cbn [seen exact_stats duplicate] in Hs, Hd.
  assert (Hset : seen (observe_all_exact
    {| seen := {[q0]} ∪ ∅; exact_stats := Build_UdpSequenceStats 1 q0 0 0 (Some q0) |} qs)
    = {[q0]} ∪ list_to_set qs) by (rewrite Hs; set_solver).
  rewrite Hset in *. assert (Hone : size ({[q0]} ∪ ∅ : gset Z) = 1%nat)
    by (rewrite union_empty_r_L; apply size_singleton). rewrite Hone in Hd.
  destruct Hh as (Hb&Hin&Hall&Hr&Hl&Hhi). rewrite Hset in Hin, Hall, Hr, Hl. exists h.
  split_and!; [done|set_solver| |done|lia|].
  - apply List.Forall_forall. intros x Hx. apply Hall. apply list_elem_of_In in Hx. set_solver.
  - rewrite Hl. symmetry. apply gaps_below; [lia|done].
Qed.

(** Jitter ignores the unknown offset between the two clocks: shifting every
    receive timestamp by the same amount leaves the jitter estimate unchanged
    after every packet. *)
Theorem jitter_offset_invariant (offset : Z) (samples : list (Z * Z)) :
  Forall (fun s => uint 64 s.1 /\ uint 64 s.2 /\ uint 64 (s.2 + offset)) samples ->
  jitter_nanoseconds (fold_left (fun t s => observe_jitter t s.1 (s.2 + offset)) samples default_jitter)
  = jitter_nanoseconds (fold_left (fun t s => observe_jitter t s.1 s.2) samples default_jitter).
Proof.
  intros Hs.
  assert (forall t t', jitter_nanoseconds t = jitter_nanoseconds t' ->
    (forall p, previous_transit_nanoseconds t' = Some p -> Z.abs p <= umax 64) ->
    (forall p, previous_transit_nanoseconds t' = Some p -> Z.abs (p + offset) <= umax 64) ->
    previous_transit_nanoseconds t = option_map (fun p => p + offset) (previous_transit_nanoseconds t') ->
    jitter_nanoseconds (fold_left (fun t s => observe_jitter t s.1 (s.2 + offset)) samples t)
    = jitter_nanoseconds (fold_left (fun t s => observe_jitter t s.1 s.2) samples t')) as Hgen.
  { induction samples as [|[a b] samples IH]; intros t t' Hj Hb Hb' Hp; [done|].
    inversion Hs as [|?? (H1&H2&H3) Hs']; subst. simpl in *. unfold uint, umax in *.
    apply IH; [done|..]; unfold observe_jitter; cbn [jitter_nanoseconds previous_transit_nanoseconds];
      unfold sat_sub_i128.
    - rewrite Hp, Hj. destruct (previous_transit_nanoseconds t') as [p|]; simpl; [|done].
      specialize (Hb p eq_refl). specialize (Hb' p eq_refl).
      replace (Z.max (- 2 ^ 127) (Z.min (2 ^ 127 - 1)
        (Z.max (- 2 ^ 127) (Z.min (2 ^ 127 - 1) (b + offset - a)) - (p + offset))))
        with (Z.max (- 2 ^ 127) (Z.min (2 ^ 127 - 1)
        (Z.max (- 2 ^ 127) (Z.min (2 ^ 127 - 1) (b - a)) - p))) by lia.
      done.
    - intros p [= <-]. lia.
    - intros p [= <-]. lia.
    - simpl. f_equal. lia. }
  apply Hgen; done.
Qed.

Definition sample_stream : list Z := [0; 3; 1; 1; 5; 4; 2].

Lemma bounded_tracker_refines_witness :
  exists t t', new_bounded 4 = Ok t /\ observe_all_bounded t sample_stream = Ok t' /\
    bounded_stats t' = exact_stats (observe_all_exact default_tracker sample_stream).
Proof.
  exists {| window := repeat (umax 64) 4; mask := 3; bounded_stats := default_sequence_stats |}.
  assert (Hn : new_bounded 4 = Ok {| window := repeat (umax 64) 4; mask := 3;
    bounded_stats := default_sequence_stats |}) by (vm_compute; reflexivity).
  destruct (bounded_tracker_refines 4 _ sample_stream Hn) as (t'&?&?); [| |eauto].
  - unfold sample_stream, umax. repeat constructor; lia.
  - simpl. lia.
Defined.

Lemma exact_tracker_counts_witness :
  received (exact_stats (observe_all_exact default_tracker sample_stream)) = 6 /\
  exists h, highest_sequence (exact_stats (observe_all_exact default_tracker sample_stream)) = Some h /\
    h ∈ sample_stream.
Proof.
  split; [vm_compute; reflexivity|].
  destruct (exact_tracker_counts 0 [3; 1; 1; 5; 4; 2]) as (h&?&?&_); [| |eauto].
  - unfold umax. repeat constructor; lia.
  - unfold umax. vm_compute. discriminate.
Defined.

Lemma jitter_offset_invariant_witness :
  let samples := [(1000, 1700); (2000, 2900); (3000, 3650)] in
  jitter_nanoseconds (fold_left (fun t s => observe_jitter t s.1 (s.2 + 500)) samples default_jitter)
  = jitter_nanoseconds (fold_left (fun t s => observe_jitter t s.1 s.2) samples default_jitter).
Proof.
  intros samples. apply (jitter_offset_invariant 500 samples).
  unfold samples, uint, umax. repeat constructor; simpl; lia.
Defined.

(** The full window is one step wider than the tracker promises: a packet that
    is exactly the window size late is counted as received, never as a
    duplicate. *)
Example bounded_tracker_forgets :
  (let? t := new_bounded 2 in
   match observe_all_bounded t [0; 2; 0] with
   | Ok t => Ok (bounded_stats t)
   | _ => Panic
   end) = Ok (Build_UdpSequenceStats 3 1 1 0 (Some 2)).
Proof. vm_compute. reflexivity. Qed.
