(* ===== verification/Pacing.v ===== *)
(** * Rate modes, pacing and the ramp search

    Model of [crates/speed/src/pacing.rs]: validation of a rate mode, the choice
    of a pacing strategy, the batch pacer's budget and the search for the last
    rate below a loss threshold. *)

From stdpp Require Import base list strings gmap.
From Stdlib Require Import ZArith Lia Sorted.
From S2P Require Import Prelude ErrorModel.
Open Scope Z_scope.

Definition invalid {A} (m : string) : res A := err InvalidArgument m.

(** Integer division, which panics on a zero divisor. *)
Definition div_panics {E} (a b : Z) : outcome E Z := if b =? 0 then Panic else Ok (a / b).

Inductive UdpRateMode :=
  | Unlimited
  | Fixed (bits_per_second : Z)
  | Ramp (steps_bits_per_second : list Z).

(** [steps.windows(2).any(|pair| pair[0] >= pair[1])]. *)
Fixpoint any_not_increasing (steps : list Z) : bool :=
  match steps with
  | a :: (b :: _) as rest => (b <=? a) || any_not_increasing rest
  | _ => false
  end.

(** [UdpRateMode::validate]. *)
Definition validate_mode (m : UdpRateMode) : res unit :=
  match m with
  | Unlimited => Ok tt
  | Fixed bps =>
      if 0 <? bps then Ok tt else invalid "fixed UDP rate must be greater than zero"
  | Ramp [] => invalid "UDP ramp requires steps"
  | Ramp steps =>
      let? first := index steps 0 in
      if (first =? 0) || any_not_increasing steps
      then invalid "UDP ramp steps must be non-zero and increasing"
      else Ok tt
  end.

Definition standard_100g_ramp : UdpRateMode :=
  Ramp [10000000000; 20000000000; 40000000000; 60000000000; 80000000000; 90000000000;
        95000000000; 100000000000].

Inductive PacingStrategy :=
  | Timer
  | Batch (maximum_packets_per_burst : Z)
  | Hardware.

Record PacingPolicy := {
  hardware_pacing : bool;
  high_rate_threshold_bits_per_second : Z;
  policy_maximum_packets_per_burst : Z;
}.

(** [PacingPolicy::select]. *)
Definition select (p : PacingPolicy) (target : Z) : res PacingStrategy :=
  if (target =? 0) || (high_rate_threshold_bits_per_second p =? 0)
  then invalid "pacing rates must be greater than zero"
  else if negb ((1 <=? policy_maximum_packets_per_burst p) &&
                (policy_maximum_packets_per_burst p <=? 4096))
  then invalid "pacing burst size must be between 1 and 4096"
  else if high_rate_threshold_bits_per_second p <=? target then
    if hardware_pacing p then Ok Hardware else Ok (Batch (policy_maximum_packets_per_burst p))
  else Ok Timer.

(** ** The batch pacer. *)

Record BatchPacer := {
  bits_per_second : Z;
  wire_bytes_per_packet : Z;
  sent_packets : Z;
}.

Definition new_pacer (bps wire : Z) : res BatchPacer :=
  if (bps =? 0) || (wire =? 0)
  then invalid "batch pacer rate and wire size must be non-zero"
  else Ok {| bits_per_second := bps; wire_bytes_per_packet := wire; sent_packets := 0 |}.

(** [BatchPacer::available_packets]; the arithmetic is that of [u128]. *)
Definition available_packets {E} (p : BatchPacer) (elapsed maximum_burst : Z) : outcome E Z :=
  let? allowed_bits := div_panics (sat_mul 128 (bits_per_second p) elapsed) 1000000000 in
  let bits_per_packet := sat_mul 128 (wire_bytes_per_packet p) 8 in
  let? allowed_packets := div_panics allowed_bits bits_per_packet in
  let outstanding := sat_sub allowed_packets (sent_packets p) in
  let n := Z.min outstanding maximum_burst in
  Ok (if n <=? umax 32 then n else maximum_burst).

(** [BatchPacer::record_sent]. *)
Definition record_sent (p : BatchPacer) (packets : Z) : res BatchPacer :=
  let? sent := ok_or (checked_add 64 (sent_packets p) packets)
                 (new_error InvalidArgument "UDP sent packet counter overflow" false) in
  Ok {| bits_per_second := bits_per_second p; wire_bytes_per_packet := wire_bytes_per_packet p;
        sent_packets := sent |}.

(** ** The ramp search. *)

Record RampObservation := {
  target_bits_per_second : Z;
  tx_packets : Z;
  sequence_loss_packets : Z;
}.

Fixpoint search_threshold (maximum : Z) (last_rate : Z) (best : option Z)
    (os : list RampObservation) : res (option Z) :=
  match os with
  | [] => Ok best
  | o :: os =>
      if (target_bits_per_second o =? 0) || (target_bits_per_second o <=? last_rate) ||
         (tx_packets o =? 0) || (tx_packets o <? sequence_loss_packets o)
      then invalid "ramp observation is invalid"
      else
        let? loss_ppm := div_panics (sat_mul 128 (sequence_loss_packets o) 1000000) (tx_packets o) in
        if maximum <? loss_ppm then Ok best
        else search_threshold maximum (target_bits_per_second o) (Some (target_bits_per_second o)) os
  end.

Definition find_loss_threshold (os : list RampObservation) (maximum : Z) : res (option Z) :=
  if 1000000 <? maximum then invalid "loss threshold ppm cannot exceed one million"
  else search_threshold maximum 0 None os.

(** ** Rate modes. *)

Lemma any_not_increasing_spec a steps :
  any_not_increasing (a :: steps) = false -> Sorted Z.lt (a :: steps).
Proof.
  revert a. induction steps as [|b steps IH]; intros a; [repeat constructor|].
  cbn [any_not_increasing]. rewrite orb_false_iff. intros [H1%Z.leb_gt H2].
  constructor; [by apply IH|constructor; lia].
Qed.

Lemma increasing_not_any a steps :
  Sorted Z.lt (a :: steps) -> any_not_increasing (a :: steps) = false.
Proof.
  revert a. induction steps as [|b steps IH]; intros a Hs; [done|].
  inversion Hs as [|?? Hs' Hd]; subst. inversion Hd; subst. cbn [any_not_increasing].
  apply orb_false_iff. split; [apply Z.leb_gt; lia|by apply IH].
Qed.

(** A rate mode validates exactly when its rates are usable: a fixed rate is
    positive and a ramp is a non-empty, strictly increasing list of positive
    rates; nothing panics. *)
Theorem rate_mode_validation (m : UdpRateMode) :
  match m with
  | Unlimited => True
  | Fixed bps => uint 64 bps
  | Ramp steps => Forall (uint 64) steps
  end ->
  (validate_mode m = Ok tt <->
   match m with
   | Unlimited => True
   | Fixed bps => 0 < bps
   | Ramp steps => steps <> [] /\ StronglySorted Z.lt steps /\ Forall (fun r => 0 < r) steps
   end) /\ validate_mode m <> Panic.
Proof.
  destruct m as [|bps|[|a steps]]; simpl; intros Hm; [done| |split; [|done]; split; [done|by intros [? _]]|].
  - destruct (Z.ltb_spec 0 bps); split; done || (split; done || lia).
  - inversion Hm as [|?? Ha Hs]; subst. unfold index; simpl.
    destruct (Z.eqb_spec a 0) as [->|Hz]; simpl.
    + split; [|done]. split; [done|]. intros (_&_&Hp). inversion Hp; lia.
    + destruct (any_not_increasing (a :: steps)) eqn:Hn; simpl in Hn; rewrite Hn.
      * split; [|done]. split; [done|]. intros (_&Hs'%StronglySorted_Sorted&_).
        apply increasing_not_any in Hs'. simpl in Hs'. congruence.
      * split; [|done]. split; [intros _|done].
        assert (Hsorted : StronglySorted Z.lt (a :: steps)).
        { apply Sorted_StronglySorted; [by intros ???; lia|]. by apply any_not_increasing_spec. }
        split_and!; [done|done|]. inversion Hsorted as [|?? _ Hall]; subst. unfold uint in Ha.
        constructor; [lia|]. eapply Forall_impl; [exact Hall|]. simpl. lia.
Qed.

Lemma rate_mode_validation_witness : validate_mode standard_100g_ramp = Ok tt.
Proof.
  apply (rate_mode_validation standard_100g_ramp).
  - unfold standard_100g_ramp, uint, umax. repeat constructor; lia.
  - split_and!; [done| |]; repeat constructor; lia.
Defined.

(** ** The pacer. *)

Lemma pow64 : 2 ^ 64 = 18446744073709551616. Proof. done. Qed.
Lemma pow32 : 2 ^ 32 = 4294967296. Proof. done. Qed.
Lemma pow128 : 2 ^ 128 = 2 ^ 64 * 2 ^ 64. Proof. done. Qed.

Lemma div_panics_pos {E} a b : 0 < b -> div_panics (E := E) a b = Ok (a / b).
Proof. intros Hb. unfold div_panics. by rewrite (proj2 (Z.eqb_neq _ _)) by lia. Qed.

Lemma sat_mul_128 a b : uint 64 a -> uint 64 b -> sat_mul 128 a b = a * b.
Proof.
  unfold sat_mul, uint, umax. intros Ha Hb. rewrite pow128. rewrite pow64 in *. nia.
Qed.

(** The packets a rate allows in [t] nanoseconds. *)
Definition budget (p : BatchPacer) (t : Z) : Z :=
  bits_per_second p * t / (1000000000 * (wire_bytes_per_packet p * 8)).

Definition pacer_ok (p : BatchPacer) : Prop :=
  0 < bits_per_second p <= umax 64 /\ 0 < wire_bytes_per_packet p <= umax 32 /\
  0 <= sent_packets p.

Lemma available_exact {E} p t burst :
  pacer_ok p -> uint 64 t -> uint 32 burst ->
  available_packets (E := E) p t burst = Ok (Z.min (sat_sub (budget p t) (sent_packets p)) burst).
Proof.
  intros (Hb&Hw&Hs) Ht Hm. unfold available_packets.
  assert (umax 32 <= umax 64) by (vm_compute; discriminate).
  rewrite !sat_mul_128 by (unfold uint in *; first [lia | unfold umax; lia]).
  rewrite div_panics_pos by lia. cbn [obind]. rewrite div_panics_pos by lia. cbn [obind].
  rewrite Z.div_div by lia. fold (budget p t). unfold uint in Hm.
  by rewrite (proj2 (Z.leb_le _ _)) by lia.
Qed.

Lemma budget_bound p t :
  pacer_ok p -> 0 <= t ->
  0 <= budget p t /\ budget p t * (wire_bytes_per_packet p * 8) * 1000000000 <= bits_per_second p * t.
Proof.
  intros (Hb&Hw&_) Ht. unfold budget. split; [apply Z.div_pos; nia|].
  pose proof (Z.mul_div_le (bits_per_second p * t) (1000000000 * (wire_bytes_per_packet p * 8))). nia.
Qed.

Lemma budget_mono p t t' : pacer_ok p -> t <= t' -> budget p t <= budget p t'.
Proof. intros (Hb&Hw&_) Ht. apply Z.div_le_mono; nia. Qed.

(** Any use of a pacer: at non-decreasing times a burst of at most the available
    packets is sent and recorded. *)
Inductive paced (p0 : BatchPacer) : Z -> BatchPacer -> Prop :=
  | paced_new : paced p0 0 p0
  | paced_burst now p elapsed maximum available sent p' :
      paced p0 now p -> now <= elapsed -> uint 64 elapsed -> uint 32 maximum ->
      available_packets (E := NetToolError) p elapsed maximum = Ok available ->
      0 <= sent <= available ->
      record_sent p sent = Ok p' ->
      paced p0 elapsed p'.

Lemma paced_inv p0 now p :
  pacer_ok p0 -> sent_packets p0 = 0 -> paced p0 now p ->
  pacer_ok p /\ sent_packets p <= budget p now /\ 0 <= now /\
  bits_per_second p = bits_per_second p0 /\ wire_bytes_per_packet p = wire_bytes_per_packet p0.
Proof.
  intros H0 Hz Hp. induction Hp as [|now p elapsed burst av sent p' Hp IH Hle He Hm Hav Hsent Hrec].
  - split_and!; try done. rewrite Hz. by apply budget_bound.
  - destruct IH as (Hok&Hbud&Hnow&Hbps&Hwire).
    rewrite (available_exact p elapsed burst Hok He Hm) in Hav. injection Hav as <-.
    unfold record_sent in Hrec. apply obind_Ok in Hrec as (s&Hs&[= <-]).
    apply ok_or_Ok, checked_add_Some in Hs as [-> Hs].
    pose proof (budget_mono p now elapsed Hok Hle) as Hmono.
    destruct Hok as (?&?&?). unfold sat_sub in *. unfold pacer_ok, budget in *; simpl.
    split_and!; lia.
Qed.

(** A pacer never lets the sender exceed its rate, and never holds back a
    packet the rate allows: whatever bursts were sent before, the bits sent
    stay below [rate * time], and the next burst offers exactly the packets the
    rate allows by then and that were not sent yet, up to the burst limit.
    Nothing panics. *)
Theorem pacer_exact (bps wire now t burst : Z) (p0 p : BatchPacer) :
  uint 64 bps -> uint 32 wire -> new_pacer bps wire = Ok p0 -> paced p0 now p ->
  now <= t -> uint 64 t -> uint 32 burst ->
  sent_packets p * (wire * 8) * 1000000000 <= bps * now /\
  exists n, available_packets (E := NetToolError) p t burst = Ok n /\
    n = Z.min (bps * t / (1000000000 * (wire * 8)) - sent_packets p) burst.
Proof.
  intros Hb Hw Hn Hp Hle Ht Hm. unfold new_pacer in Hn.
  destruct (Z.eqb_spec bps 0); [done|]. destruct (Z.eqb_spec wire 0); [done|]. simpl in Hn.
  injection Hn as <-. unfold uint, umax in Hb, Hw.
  apply paced_inv in Hp; [|unfold pacer_ok, umax; cbn [bits_per_second wire_bytes_per_packet sent_packets]; lia|done].
  destruct Hp as (Hok&Hs&H0&Hbps&Hwire).
  simpl in Hbps, Hwire. pose proof (budget_bound p now Hok H0) as [_ Hbound].
  pose proof (budget_mono p now t Hok Hle) as Hmono. split.
  - rewrite <- Hbps, <- Hwire. destruct Hok as (?&?&?). nia.
  - rewrite available_exact by done. eexists. split; [done|]. rewrite <- Hbps, <- Hwire.
    fold (budget p t). unfold sat_sub. lia.
Qed.

Lemma pacer_exact_witness :
  exists p0 p, new_pacer 8000 100 = Ok p0 /\ paced p0 500000000 p /\
    sent_packets p * (100 * 8) * 1000000000 <= 8000 * 500000000 /\
    available_packets (E := NetToolError) p 1000000000 4 = Ok 4.
Proof.
  set (p0 := {| bits_per_second := 8000; wire_bytes_per_packet := 100; sent_packets := 0 |}).
  set (p := {| bits_per_second := 8000; wire_bytes_per_packet := 100; sent_packets := 3 |}).
  assert (Hp : paced p0 500000000 p).
  { eapply (paced_burst p0 0 p0 500000000 64 5 3);
      [constructor|lia|unfold uint, umax; lia|unfold uint, umax; lia|reflexivity|lia|reflexivity]. }
  exists p0, p. split; [reflexivity|]. split; [done|].
  destruct (pacer_exact 8000 100 500000000 1000000000 4 p0 p) as [Hs (n&Hn&->)];
    [unfold uint, umax; lia|unfold uint, umax; lia|reflexivity|done|lia|unfold uint, umax; lia
    |unfold uint, umax; lia|].
  split; [exact Hs|exact Hn].
Defined.

(** ** The ramp search. *)

Definition observation_ok (o : RampObservation) : Prop :=
  uint 64 (target_bits_per_second o) /\ uint 64 (tx_packets o) /\ uint 64 (sequence_loss_packets o).

(** A stage passes when its loss is below [maximum + 1] packets per million. *)
Definition passes (maximum : Z) (o : RampObservation) : Prop :=
  sequence_loss_packets o * 1000000 < (maximum + 1) * tx_packets o.

(** The observations a search accepts after rate [last_rate]. *)
Fixpoint well_ordered (last_rate : Z) (os : list RampObservation) : Prop :=
  match os with
  | [] => True
  | o :: os => last_rate < target_bits_per_second o /\ 0 < tx_packets o /\
      sequence_loss_packets o <= tx_packets o /\ well_ordered (target_bits_per_second o) os
  end.

Definition last_rate_of (best : option Z) (os : list RampObservation) : option Z :=
  match last os with Some o => Some (target_bits_per_second o) | None => best end.

Lemma last_rate_of_cons best o os :
  last_rate_of best (o :: os) = last_rate_of (Some (target_bits_per_second o)) os.
Proof. unfold last_rate_of. rewrite last_cons. by destruct (last os). Qed.

Lemma search_threshold_spec maximum last_rate best os out :
  Forall observation_ok os -> 0 <= last_rate ->
  search_threshold maximum last_rate best os = Ok out <->
  exists passed rest, os = passed ++ rest /\ Forall (passes maximum) passed /\
    out = last_rate_of best passed /\
    match rest with
    | [] => well_ordered last_rate passed
    | o :: _ => ~ passes maximum o /\ well_ordered last_rate (passed ++ [o])
    end.
Proof.
  intros Hok. revert last_rate best. induction os as [|o os IH]; intros last_rate best Hr.
  { simpl. split.
    - intros [= <-]. exists [], []. done.
    - intros (passed&rest&He&_&->&_). symmetry in He. apply app_eq_nil in He as [-> ->]. done. }
  inversion Hok as [|?? (H1&H2&H3) Hok']; subst. specialize (IH Hok'). cbn [search_threshold].
  assert (Hord : forall l, well_ordered last_rate (o :: l) ->
    (target_bits_per_second o =? 0) || (target_bits_per_second o <=? last_rate) ||
    (tx_packets o =? 0) || (tx_packets o <? sequence_loss_packets o) = false).
  { intros l (?&?&?&_). rewrite !orb_false_iff, !Z.eqb_neq, Z.leb_gt, Z.ltb_ge. lia. }
  destruct (_ || _ || _ || _) eqn:Hbad.
  { split; [done|]. intros (passed&rest&He&_&_&Hrest). destruct passed as [|o' passed].
    - simpl in He. subst rest. destruct Hrest as [_ Hw]. by specialize (Hord _ Hw).
    - injection He as <- ->. destruct rest as [|o2 rest].
      + by specialize (Hord _ Hrest).
      + destruct Hrest as [_ Hw]. by specialize (Hord _ Hw). }
  rewrite !orb_false_iff, !Z.eqb_neq, Z.leb_gt, Z.ltb_ge in Hbad. destruct Hbad as (((?&?)&?)&?).
  unfold uint in H1, H2, H3. rewrite sat_mul_128 by (unfold uint, umax in *; lia).
  rewrite div_panics_pos by lia. cbn [obind].
  assert (Hpass : maximum < sequence_loss_packets o * 1000000 / tx_packets o <-> ~ passes maximum o).
  { unfold passes. rewrite Z.nlt_ge. split; intros Hq.
    - pose proof (Z.mul_div_le (sequence_loss_packets o * 1000000) (tx_packets o)). nia.
    - apply Z.lt_le_trans with (maximum + 1); [lia|]. apply Z.div_le_lower_bound; lia. }
  destruct (Z.ltb_spec maximum (sequence_loss_packets o * 1000000 / tx_packets o)) as [Hf|Hf].
  - apply Hpass in Hf. split.
    + intros [= <-]. exists [], (o :: os). split_and!; try done; simpl; lia.
    + intros (passed&rest&He&Hall&->&_). destruct passed as [|o' passed]; [done|].
      injection He as <- ->. by inversion Hall.
  - assert (Hp : passes maximum o) by (unfold passes in *; lia). rewrite IH by lia. split.
    + intros (passed&rest&->&Hall&->&Hrest). exists (o :: passed), rest.
      split_and!; [done|by constructor|by rewrite last_rate_of_cons|].
      destruct rest; simpl; [|destruct Hrest as [? Hrest]; split; [done|]]; split_and!; try lia; done.
    + intros (passed&rest&He&Hall&->&Hrest). destruct passed as [|o' passed].
      { simpl in He. subst rest. by destruct Hrest as [? _]. }
      injection He as <- ->. inversion Hall; subst. exists passed, rest.
      split_and!; [done|done|by rewrite last_rate_of_cons|].
      destruct rest; [|destruct Hrest as [? Hrest]; split; [done|]]; apply Hrest.
Qed.

(** The ramp search returns the rate of the last stage before the first
    failing one, for the whole accepted input and for no other: every stage up
    to the first failing one has a positive, strictly larger rate, was really
    transmitted and lost no more than it sent. *)
Theorem loss_threshold_exact (os : list RampObservation) (maximum : Z) (out : option Z) :
  Forall observation_ok os ->
  find_loss_threshold os maximum = Ok out <->
  maximum <= 1000000 /\
  exists passed rest, os = passed ++ rest /\ Forall (passes maximum) passed /\
    out = last_rate_of None passed /\
    match rest with
    | [] => well_ordered 0 passed
    | o :: _ => ~ passes maximum o /\ well_ordered 0 (passed ++ [o])
    end.
Proof.
  intros Hok. unfold find_loss_threshold. destruct (Z.ltb_spec 1000000 maximum).
  - split; [done|]. intros [? _]. lia.
  - rewrite search_threshold_spec by done. naive_solver.
Qed.

Lemma loss_threshold_exact_witness :
  let o r l := {| target_bits_per_second := r; tx_packets := 1000000; sequence_loss_packets := l |} in
  find_loss_threshold [o 10 10; o 20 101; o 30 0] 100 = Ok (Some 10).
Proof.
  intros o. apply loss_threshold_exact.
  - repeat constructor; unfold uint, umax; simpl; lia.
  - split; [lia|]. exists [o 10 10], [o 20 101; o 30 0].
    split_and!; [done|repeat constructor|done|unfold passes|..]; cbn; lia.
Defined.
