(* ===== verification/UdpSocket.v ===== *)
(** * The UDP speed engine over a socket

    Model of [crates/speed/src/socket_udp.rs]: the sender stage with its
    authorization and end datagrams and its burst pacing, the receiver with its
    authorization gate, and the throughput computation. The socket and the
    clock are parameters of the model: [clock n] is the [n]-th reading of the
    monotonic clock in nanoseconds, [send_result n d] what the operating system
    reports for the [n]-th datagram, and the receiver runs on the list of what
    [recv_from] returns before the idle timeout. *)

From stdpp Require Import base list strings gmap.
From Stdlib Require Import ZArith Lia.
From S2P Require Import Prelude ErrorModel UdpProtocol Pacing.
Open Scope Z_scope.

Definition UDP_FLAG_END : Z := 1.
Definition UDP_FLAG_AUTH : Z := 2.
Definition MAX_UDP_DATAGRAM_BYTES : Z := 65507.

Definition invalid_socket (m : string) : NetToolError := new_error InvalidArgument m false.
Definition engine_error (m : string) (r : bool) : NetToolError := new_error SpeedFailed m r.
Definition io_error (m : string) : NetToolError :=
  new_error SpeedFailed ("UDP speed I/O failed: " +:+ m) true.

(** [std::net::SocketAddr]. *)
Inductive SocketAddr :=
  | SocketV4 (ip : Z) (port : Z)
  | SocketV6 (ip : Z) (port : Z) (flowinfo : Z) (scope_id : Z).

#[export] Instance SocketAddr_eq_dec : EqDecision SocketAddr.
Proof. solve_decision. Defined.

Record UdpSenderConfig := {
  s_session_id : bytes;
  s_stream_id : Z;
  datagram_bytes : Z;
  measurement_milliseconds : Z;
  s_target_bits_per_second : option Z;
  s_maximum_packets_per_burst : Z;
  s_authorization_tag : string;
}.

Definition validate_sender (c : UdpSenderConfig) : res unit :=
  if negb ((UDP_SPEED_HEADER_BYTES <=? datagram_bytes c) &&
           (datagram_bytes c <=? MAX_UDP_DATAGRAM_BYTES))
  then err InvalidArgument "UDP datagram size is outside the valid socket range"
  else if negb ((100 <=? measurement_milliseconds c) && (measurement_milliseconds c <=? 86400000))
  then err InvalidArgument "UDP measurement must be between 100 ms and 24 hours"
  else if bool_decide (s_target_bits_per_second c = Some 0)
  then err InvalidArgument "UDP target rate must be greater than zero"
  else if negb ((1 <=? s_maximum_packets_per_burst c) && (s_maximum_packets_per_burst c <=? 4096))
  then err InvalidArgument "UDP burst size must be between 1 and 4096"
  else validate_authorization_tag (s_authorization_tag c).

Record UdpReceiverConfig := {
  r_session_id : bytes;
  r_stream_id : Z;
  expected_source : SocketAddr;
  maximum_datagram_bytes : Z;
  idle_timeout_milliseconds : Z;
  r_authorization_tag : string;
}.

Definition validate_receiver (c : UdpReceiverConfig) : res unit :=
  if negb ((UDP_SPEED_HEADER_BYTES <=? maximum_datagram_bytes c) &&
           (maximum_datagram_bytes c <=? MAX_UDP_DATAGRAM_BYTES))
  then err InvalidArgument "UDP receive buffer is outside the valid socket range"
  else if negb ((100 <=? idle_timeout_milliseconds c) && (idle_timeout_milliseconds c <=? 60000))
  then err InvalidArgument "UDP idle timeout must be between 100 ms and 60 seconds"
  else validate_authorization_tag (r_authorization_tag c).

Record UdpSenderResult := {
  s_tx_packets : Z;
  tx_datagram_bytes : Z;
  s_elapsed_nanoseconds : Z;
  tx_bits_per_second : Z;
}.

Record UdpReceiverResult := {
  rx_packets : Z;
  rx_datagram_bytes : Z;
  r_elapsed_nanoseconds : Z;
  rx_bits_per_second : Z;
  sequence_stats : UdpSequenceStats;
  jitter : Z;
  invalid_datagrams : Z;
  unauthorized_datagrams : Z;
  graceful_end : bool;
}.

(** [rate]: [bytes * 8 * 10^9 / elapsed], saturating at every step. *)
Definition rate (bs elapsed : Z) : Z :=
  let bits := sat_mul 64 (sat_mul 64 bs 8) 1000000000 in
  let elapsed := Z.max elapsed 1 in
  if elapsed =? 0 then 0 else bits / elapsed.

(** An operation that cannot fail, only panic. *)
Definition infallible {A} (o : outcome Empty_set A) : res A :=
  match o with
  | Ok a => Ok a
  | Err e => match e with end
  | Panic => Panic
  end.

(** [u64::try_from((now - started).as_nanos()).unwrap_or(u64::MAX)]; the
    difference of two instants saturates at zero. *)
Definition elapsed_since (started now : Z) : Z := clamp 64 (sat_sub now started).

(** ** The receiver. *)

(** One return of [recv_from]: the datagram, its source, the reading of the
    clock right after it, and the reading made when the datagram is measured. *)
Record Reception := {
  source : SocketAddr;
  datagram : bytes;
  received_at : Z;
  measured_at : Z;
}.

Inductive RecvEvent :=
  | Arrived (r : Reception)
  | RecvFailed (m : string).

(** The local variables of the receive loop. *)
Record Receiver := {
  tracker : BoundedUdpSequenceTracker;
  jitter_tracker : UdpJitterTracker;
  started : option Z;
  packets : Z;
  rx_bytes : Z;
  invalid_count : Z;
  unauthorized_count : Z;
  authorized : bool;
}.

Definition count_invalid (s : Receiver) : Receiver :=
  {| tracker := tracker s; jitter_tracker := jitter_tracker s; started := started s;
     packets := packets s; rx_bytes := rx_bytes s; invalid_count := sat64 (invalid_count s) 1;
     unauthorized_count := unauthorized_count s; authorized := authorized s |}.
Definition count_unauthorized (s : Receiver) : Receiver :=
  {| tracker := tracker s; jitter_tracker := jitter_tracker s; started := started s;
     packets := packets s; rx_bytes := rx_bytes s; invalid_count := invalid_count s;
     unauthorized_count := sat64 (unauthorized_count s) 1; authorized := authorized s |}.
Definition set_authorized (s : Receiver) : Receiver :=
  {| tracker := tracker s; jitter_tracker := jitter_tracker s; started := started s;
     packets := packets s; rx_bytes := rx_bytes s; invalid_count := invalid_count s;
     unauthorized_count := unauthorized_count s; authorized := true |}.

(** [&buffer[..received]]: the socket keeps what fits the buffer. *)
Definition received_bytes (c : UdpReceiverConfig) (r : Reception) : bytes :=
  take (Z.to_nat (maximum_datagram_bytes c)) (datagram r).

(** The measurement of one data datagram. *)
Definition measure (s : Receiver) (h : UdpSpeedHeader) (r : Reception) (received : Z)
    : res Receiver :=
  let start := match started s with Some t => t | None => received_at r end in
  let timestamp := elapsed_since start (measured_at r) in
  let? t := infallible (observe_bounded (tracker s) (sequence h)) in
  Ok {| tracker := t;
        jitter_tracker := observe_jitter (jitter_tracker s) (send_timestamp_nanoseconds h) timestamp;
        started := Some start;
        packets := sat64 (packets s) 1;
        rx_bytes := sat64 (rx_bytes s) (clamp 64 received);
        invalid_count := invalid_count s; unauthorized_count := unauthorized_count s;
        authorized := authorized s |}.

(** One iteration of the receive loop after [recv_from] returned; the flag is
    [true] when the loop breaks with a graceful end. *)
Definition handle_datagram (c : UdpReceiverConfig) (s : Receiver) (r : Reception)
    : res (Receiver * bool) :=
  let d := received_bytes c r in
  match decode_datagram d with
  | Panic => Panic
  | Err _ => Ok (count_invalid s, false)
  | Ok h =>
      if negb (bool_decide (source r = expected_source c)) ||
         negb (bool_decide (session_id h = r_session_id c)) ||
         negb (stream_id h =? r_stream_id c)
      then Ok (count_unauthorized s, false)
      else if flags h =? UDP_FLAG_AUTH then
        let? presented := slice d UDP_SPEED_HEADER_BYTES (len d) in
        if authorized s || negb (sequence h =? 0) ||
           negb (authorization_tag_matches (r_authorization_tag c) presented)
        then Ok (count_unauthorized s, false)
        else Ok (set_authorized s, false)
      else if negb (authorized s) then Ok (count_unauthorized s, false)
      else if flags h =? UDP_FLAG_END then
        if negb (payload_length h =? 0) then Ok (count_invalid s, false) else Ok (s, true)
      else if negb (flags h =? 0) then Ok (count_invalid s, false)
      else
        let? s := measure s h r (len d) in
        Ok (s, false)
  end.

(** The receive loop; the end of the list is the idle timeout. *)
Fixpoint receive_loop (c : UdpReceiverConfig) (s : Receiver) (es : list RecvEvent)
    : res (Receiver * bool) :=
  match es with
  | [] =>
      match started s with
      | Some _ => Ok (s, false)
      | None => Err (engine_error "UDP receiver initial timeout" true)
      end
  | RecvFailed m :: _ => Err (io_error m)
  | Arrived r :: es =>
      let? '(s, ended) := handle_datagram c s r in
      if ended then Ok (s, true) else receive_loop c s es
  end.

Definition new_receiver : res Receiver :=
  match new_bounded UDP_SEQUENCE_WINDOW_SIZE with
  | Ok t => Ok {| tracker := t; jitter_tracker := default_jitter; started := None; packets := 0;
                  rx_bytes := 0; invalid_count := 0; unauthorized_count := 0;
                  authorized := false |}
  | _ => Panic
  end.

(** [run_udp_receiver]; [finished] is the last reading of the clock. *)
Definition run_udp_receiver (c : UdpReceiverConfig) (es : list RecvEvent) (finished : Z)
    : res UdpReceiverResult :=
  let? _ := validate_receiver c in
  let? s := new_receiver in
  let? '(s, graceful) := receive_loop c s es in
  let? start := ok_or (started s)
                  (engine_error "UDP receiver got END before any measurement packet" false) in
  let elapsed := Z.max (elapsed_since start finished) 1 in
  Ok {| rx_packets := packets s; rx_datagram_bytes := rx_bytes s; r_elapsed_nanoseconds := elapsed;
        rx_bits_per_second := rate (rx_bytes s) elapsed;
        sequence_stats := bounded_stats (tracker s);
        jitter := jitter_nanoseconds (jitter_tracker s);
        invalid_datagrams := invalid_count s; unauthorized_datagrams := unauthorized_count s;
        graceful_end := graceful |}.

(** ** The sender. *)

Section Sender.
Context (clock : nat -> Z) (send_result : nat -> bytes -> Z + string).

(** What the sender did to its environment: the readings of the clock it made
    and the datagrams the socket took. *)
Record Net := { reads : nat; sent : list (SocketAddr * bytes) }.

Definition now : method Net Z := fun n =>
  ({| reads := S (reads n); sent := sent n |}, Ok (clock (reads n))).

Definition send_to (d : bytes) (destination : SocketAddr) : method Net Z := fun n =>
  match send_result (length (sent n)) d with
  | inl k => ({| reads := reads n; sent := sent n ++ [(destination, d)] |}, Ok k)
  | inr m => (n, Err (io_error m))
  end.

Definition control_header (c : UdpSenderConfig) (seq fl timestamp payload : Z) : UdpSpeedHeader :=
  {| session_id := s_session_id c; stream_id := s_stream_id c; sequence := seq; flags := fl;
     send_timestamp_nanoseconds := timestamp; payload_length := payload |}.

Definition send_end (destination : SocketAddr) (c : UdpSenderConfig) (seq timestamp : Z)
    : method Net unit :=
  let! header := m_ret (infallible (encode (control_header c seq UDP_FLAG_END timestamp 0))) in
  let! k := send_to header destination in
  m_ret (if negb (k =? len header)
         then Err (engine_error "UDP socket reported a partial END send" true) else Ok tt).

Definition send_auth (destination : SocketAddr) (c : UdpSenderConfig) : method Net unit :=
  let tag := as_bytes (s_authorization_tag c) in
  let! payload := m_ret (if len tag <=? umax 32 then Ok (len tag)
                         else Err (invalid_socket "authorization tag length cannot be represented")) in
  let! header := m_ret (infallible (encode (control_header c 0 UDP_FLAG_AUTH 0 payload))) in
  let d := header ++ tag in
  let! k := send_to d destination in
  m_ret (if negb (k =? len d)
         then Err (engine_error "UDP socket reported a partial AUTH datagram send" true) else Ok tt).

(** The variables of the measurement loop. *)
Record Sending := {
  buffer : bytes;
  pacer : option BatchPacer;
  next_sequence : Z;
  transmitted_bytes : Z;
}.

(** [for _ in 0..available]: [n] iterations are left, [burst] packets were
    sent. *)
Fixpoint send_burst (destination : SocketAddr) (c : UdpSenderConfig) (payload wire : Z)
    (start deadline : Z) (n : nat) (s : Sending) (burst : Z) : method Net (Sending * Z) :=
  match n with
  | O => m_ret (Ok (s, burst))
  | S n =>
      let! t := now in
      if deadline <=? t then m_ret (Ok (s, burst))
      else
        let! t := now in
        let! header := m_ret (infallible
          (encode (control_header c (next_sequence s) 0 (elapsed_since start t) payload))) in
        let! d := m_ret (copy_at (buffer s) 0 header) in
        let! k := send_to d destination in
        if negb (k =? len d)
        then m_ret (Err (engine_error "UDP socket reported a partial datagram send" true))
        else
          let! q := m_ret (ok_or (checked_add 64 (next_sequence s) 1)
                             (invalid_socket "UDP sequence counter overflow")) in
          let! b := m_ret (ok_or (checked_add 64 (transmitted_bytes s) wire)
                             (invalid_socket "UDP byte counter overflow")) in
          let! burst := m_ret (match checked_add 32 burst 1 with Some b => Ok b | None => Panic end) in
          send_burst destination c payload wire start deadline n
            {| buffer := d; pacer := pacer s; next_sequence := q; transmitted_bytes := b |} burst
  end.

(** [while Instant::now() < deadline]; [None] when the fuel runs out. *)
Fixpoint send_loop (fuel : nat) (destination : SocketAddr) (c : UdpSenderConfig) (payload wire : Z)
    (start deadline : Z) (s : Sending) : method Net (option Sending) :=
  match fuel with
  | O => m_ret (Ok None)
  | S fuel =>
      let! t := now in
      if deadline <=? t then m_ret (Ok (Some s))
      else
        let! t := now in
        let! available := m_ret
          (match pacer s with
           | None => Ok (s_maximum_packets_per_burst c)
           | Some p => available_packets p (elapsed_since start t) (s_maximum_packets_per_burst c)
           end) in
        if available =? 0 then send_loop fuel destination c payload wire start deadline s
        else
          let! '(s, burst) :=
            send_burst destination c payload wire start deadline (Z.to_nat available) s 0 in
          let! p := m_ret (match pacer s with
                           | None => Ok None
                           | Some p => let? p := record_sent p burst in Ok (Some p)
                           end) in
          send_loop fuel destination c payload wire start deadline
            {| buffer := buffer s; pacer := p; next_sequence := next_sequence s;
               transmitted_bytes := transmitted_bytes s |}
  end.

Definition u32_or (n : Z) (m : string) : res Z :=
  if n <=? umax 32 then Ok n else Err (invalid_socket m).

(** [run_udp_sender]. *)
Definition run_udp_sender (fuel : nat) (destination : SocketAddr) (c : UdpSenderConfig)
    : method Net (option UdpSenderResult) :=
  let! _ := m_ret (validate_sender c) in
  let! _ := send_auth destination c in
  let! payload := m_ret (match checked_sub (datagram_bytes c) UDP_SPEED_HEADER_BYTES with
                         | Some p => Ok p | None => Panic end) in
  let! payload := m_ret (u32_or payload "UDP payload length cannot be represented") in
  let! wire := m_ret (u32_or (datagram_bytes c) "UDP datagram size cannot be represented") in
  let! p := m_ret (match s_target_bits_per_second c with
                   | Some r => let? p := new_pacer r wire in Ok (Some p)
                   | None => Ok None
                   end) in
  let! start := now in
  let deadline := start + measurement_milliseconds c * 1000000 in
  let! out := send_loop fuel destination c payload wire start deadline
    {| buffer := repeat 0xA5 (Z.to_nat (datagram_bytes c)); pacer := p; next_sequence := 0;
       transmitted_bytes := 0 |} in
  match out with
  | None => m_ret (Ok None)
  | Some s =>
      let! t := now in
      let elapsed := Z.max (elapsed_since start t) 1 in
      let! _ := send_end destination c (next_sequence s) elapsed in
      m_ret (Ok (Some {| s_tx_packets := next_sequence s;
                         tx_datagram_bytes := transmitted_bytes s;
                         s_elapsed_nanoseconds := elapsed;
                         tx_bits_per_second := rate (transmitted_bytes s) elapsed |}))
  end.

End Sender.

(** ** The receiver measures exactly the datagrams of its session. *)

(** The datagram belongs to the session: it decodes, and its source, session
    and stream are the expected ones. *)
Definition own (c : UdpReceiverConfig) (r : Reception) : option UdpSpeedHeader :=
  match decode_datagram (received_bytes c r) with
  | Ok h =>
      if decide (source r = expected_source c /\ session_id h = r_session_id c /\
                 stream_id h = r_stream_id c)
      then Some h else None
  | _ => None
  end.

Definition own_datagrams (c : UdpReceiverConfig) (es : list RecvEvent)
    : list (UdpSpeedHeader * Reception) :=
  omap (fun e => match e with
                 | Arrived r => h ← own c r; Some (h, r)
                 | RecvFailed _ => None
                 end) es.

(** A valid authorization: the first packet of the session, with its tag. *)
Definition authorizes (c : UdpReceiverConfig) (hr : UdpSpeedHeader * Reception) : Prop :=
  flags hr.1 = UDP_FLAG_AUTH /\ sequence hr.1 = 0 /\
  drop 52 (received_bytes c hr.2) = as_bytes (r_authorization_tag c).
#[export] Instance authorizes_dec c hr : Decision (authorizes c hr) := _.

Definition ends (hr : UdpSpeedHeader * Reception) : Prop :=
  flags hr.1 = UDP_FLAG_END /\ payload_length hr.1 = 0.
#[export] Instance ends_dec hr : Decision (ends hr) := _.

Definition is_data (hr : UdpSpeedHeader * Reception) : Prop := flags hr.1 = 0.
#[export] Instance is_data_dec hr : Decision (is_data hr) := _.

(** The rest of a list after its first element with [P]. *)
Fixpoint after_first {A} (P : A -> Prop) `{!forall x, Decision (P x)} (l : list A) : list A :=
  match l with
  | [] => []
  | x :: l => if decide (P x) then l else after_first P l
  end.

Fixpoint before_first {A} (P : A -> Prop) `{!forall x, Decision (P x)} (l : list A) : list A :=
  match l with
  | [] => []
  | x :: l => if decide (P x) then [] else x :: before_first P l
  end.

(** The datagrams a receiver should measure: of its session, after the
    authorization, before the end, with data flags. *)
Definition measured (c : UdpReceiverConfig) (es : list RecvEvent)
    : list (UdpSpeedHeader * Reception) :=
  filter is_data (before_first ends (after_first (authorizes c) (own_datagrams c es))).

Definition measured_from (c : UdpReceiverConfig) (s : Receiver) (es : list RecvEvent)
    : list (UdpSpeedHeader * Reception) :=
  if authorized s then filter is_data (before_first ends (own_datagrams c es))
  else measured c es.

(** What the measurement of [hrs] adds to the state. *)
Definition start_of (s : Receiver) (hrs : list (UdpSpeedHeader * Reception)) : option Z :=
  match started s with
  | Some t => Some t
  | None => received_at ∘ snd <$> head hrs
  end.

Definition zsum (l : list Z) : Z := foldr Z.add 0 l.

Definition sizes (c : UdpReceiverConfig) (hrs : list (UdpSpeedHeader * Reception)) : list Z :=
  (fun hr => len (received_bytes c hr.2)) <$> hrs.

Definition samples (start : Z) (hrs : list (UdpSpeedHeader * Reception)) : list (Z * Z) :=
  (fun hr => (send_timestamp_nanoseconds hr.1, elapsed_since start (measured_at hr.2))) <$> hrs.

Definition accounts (c : UdpReceiverConfig) (s s' : Receiver)
    (hrs : list (UdpSpeedHeader * Reception)) : Prop :=
  packets s' = sat64 (packets s) (len hrs) /\
  rx_bytes s' = sat64 (rx_bytes s) (zsum (sizes c hrs)) /\
  started s' = start_of s hrs /\
  observe_all_bounded (tracker s) (sequence ∘ fst <$> hrs) = Ok (tracker s') /\
  forall start, start_of s hrs = Some start ->
    jitter_tracker s' = fold_left (fun j sr => observe_jitter j sr.1 sr.2) (samples start hrs)
                          (jitter_tracker s).

Lemma own_spec c r h :
  own c r = Some h <->
  decode_datagram (received_bytes c r) = Ok h /\ source r = expected_source c /\
  session_id h = r_session_id c /\ stream_id h = r_stream_id c.
Proof.
  unfold own. destruct (decode_datagram _) as [h'| |]; [|naive_solver|naive_solver].
  case_decide; naive_solver.
Qed.

Lemma decode_no_panic d : decode_datagram d <> Panic.
Proof.
  unfold decode_datagram. destruct (Z.ltb_spec (len d) UDP_SPEED_HEADER_BYTES) as [|Hl]; [done|].
  unfold UDP_SPEED_HEADER_BYTES in *.
  assert (Hs : forall a b, 0 <= a <= b -> b <= len d -> exists s, slice (E := NetToolError) d a b = Ok s).
  { intros a b ??. unfold slice, get_range.
    rewrite (proj2 (Z.leb_le 0 a)), (proj2 (Z.leb_le a b)), (proj2 (Z.leb_le b _)) by lia. eauto. }
  assert (Hr : forall n w a, read_be n w d a <> Panic).
  { intros n w a. unfold read_be. by destruct (get_range d a (a + n)). }
  destruct (Hs 0 4) as [? ->]; [lia|lia|]. cbn [obind]. destruct (negb _); [done|].
  unfold read_u16, read_u32, read_u64.
  destruct (read_be 2 _ d 4) eqn:E1; [|done|by apply Hr in E1]. cbn [obind]. destruct (negb _); [done|].
  destruct (read_be 2 _ d 6) eqn:E2; [|done|by apply Hr in E2]. cbn [obind]. destruct (negb _); [done|].
  destruct (read_be 4 _ d 48) eqn:E3; [|done|by apply Hr in E3]. cbn [obind].
  unfold checked_sub. rewrite (proj2 (Z.leb_le _ _)) by lia. destruct (negb _); [done|].
  destruct (Hs 8 24) as [? ->]; [lia|lia|]. cbn [obind].
  destruct (read_be 4 _ d 24) eqn:E4; [|done|by apply Hr in E4]. cbn [obind].
  destruct (read_be 8 _ d 28) eqn:E5; [|done|by apply Hr in E5]. cbn [obind].
  destruct (read_be 4 _ d 36) eqn:E6; [|done|by apply Hr in E6]. cbn [obind].
  by destruct (read_be 8 _ d 40) eqn:E7; [| |apply Hr in E7].
Qed.

(** One datagram, by what it is to the receiver. *)
Inductive datagram_case (c : UdpReceiverConfig) (s : Receiver) (r : Reception)
    : res (Receiver * bool) -> Prop :=
  | case_malformed e :
      decode_datagram (received_bytes c r) = Err e ->
      datagram_case c s r (Ok (count_invalid s, false))
  | case_foreign h :
      decode_datagram (received_bytes c r) = Ok h -> own c r = None ->
      datagram_case c s r (Ok (count_unauthorized s, false))
  | case_authorizes h :
      own c r = Some h -> authorized s = false -> authorizes c (h, r) ->
      datagram_case c s r (Ok (set_authorized s, false))
  | case_unauthorized h :
      own c r = Some h -> (authorized s = false -> ~ authorizes c (h, r)) ->
      (authorized s = true -> flags h = UDP_FLAG_AUTH) ->
      datagram_case c s r (Ok (count_unauthorized s, false))
  | case_end h :
      own c r = Some h -> authorized s = true -> ends (h, r) ->
      datagram_case c s r (Ok (s, true))
  | case_invalid h :
      own c r = Some h -> authorized s = true -> ~ ends (h, r) -> ~ is_data (h, r) ->
      datagram_case c s r (Ok (count_invalid s, false))
  | case_data h :
      own c r = Some h -> authorized s = true -> is_data (h, r) ->
      datagram_case c s r
        (let? s := measure s h r (len (received_bytes c r)) in Ok (s, false)).

Lemma handle_datagram_case c s r : datagram_case c s r (handle_datagram c s r).
Proof.
  unfold handle_datagram. destruct (decode_datagram (received_bytes c r)) as [h|e|] eqn:Hd;
    [|by eapply case_malformed|by apply decode_no_panic in Hd].
  assert (Hl : 52 <= len (received_bytes c r)).
  { unfold decode_datagram in Hd. unfold UDP_SPEED_HEADER_BYTES in *.
    destruct (Z.ltb_spec (len (received_bytes c r)) 52); [done|lia]. }
  destruct (own c r) as [h'|] eqn:Ho.
  2: { assert (negb (bool_decide (source r = expected_source c)) ||
         negb (bool_decide (session_id h = r_session_id c)) ||
         negb (stream_id h =? r_stream_id c) = true) as ->; [|by eapply case_foreign].
       apply not_false_is_true. rewrite !orb_false_iff, !negb_false_iff, !bool_decide_eq_true, Z.eqb_eq.
       intros [[??]?]. assert (own c r = Some h) by (by apply own_spec). congruence. }
  pose proof Ho as Ho'. apply own_spec in Ho' as (Hd'&Hsrc&Hses&Hstr).
  assert (h' = h) as -> by congruence.
  rewrite !bool_decide_eq_true_2, Hstr, Z.eqb_refl by done. cbn [negb orb].
  change (negb true || negb true || negb true) with false. cbv iota.
  assert (slice (E := NetToolError) (received_bytes c r) UDP_SPEED_HEADER_BYTES (len (received_bytes c r))
          = Ok (drop 52 (received_bytes c r))) as ->.
  { unfold slice, get_range, UDP_SPEED_HEADER_BYTES.
    rewrite (proj2 (Z.leb_le _ _)), (proj2 (Z.leb_le 52 _)), Z.leb_refl by lia. cbn [andb].
    change (Z.to_nat 52) with 52%nat. rewrite take_ge; [done|]. rewrite length_drop.
    unfold len in *. lia. }
  cbn [obind].
  destruct (Z.eqb_spec (flags h) UDP_FLAG_AUTH) as [Hauth|Hauth].
  - destruct (authorized s) eqn:Has; cbn [orb].
    { eapply case_unauthorized; [done|by rewrite Has|done]. }
    destruct (Z.eqb_spec (sequence h) 0) as [Hq|Hq]; cbn [negb orb].
    + destruct (authorization_tag_matches _ _) eqn:Ht; cbn [negb].
      * eapply case_authorizes; [done|done|]. split_and!; [done|done|].
        symmetry. by apply tag_matches_iff.
      * eapply case_unauthorized; [done| |by rewrite Has].
        intros _ (_&_&Htag). symmetry in Htag. apply tag_matches_iff in Htag. simpl in Htag. congruence.
    + eapply case_unauthorized; [done| |by rewrite Has]. by intros _ (_&?&_).
  - destruct (authorized s) eqn:Has; cbn [negb].
    2: { eapply case_unauthorized; [done| |by rewrite Has]. by intros _ (?&_). }
    destruct (Z.eqb_spec (flags h) UDP_FLAG_END) as [Hend|Hend].
    + destruct (Z.eqb_spec (payload_length h) 0) as [Hp|Hp]; cbn [negb].
      * by eapply case_end.
      * eapply case_invalid; [done|done|by intros [_ ?]|]. unfold is_data; simpl. by rewrite Hend.
    + destruct (Z.eqb_spec (flags h) 0) as [Hz|Hz]; cbn [negb]; [by eapply case_data|].
      eapply case_invalid; [done|done|by intros [? _]|done].
Qed.

Lemma own_datagrams_cons c r es :
  own_datagrams c (Arrived r :: es) =
    match own c r with Some h => (h, r) :: own_datagrams c es | None => own_datagrams c es end.
Proof. unfold own_datagrams. simpl. by destruct (own c r). Qed.

Lemma measured_from_none c s s' r es :
  own c r = None -> authorized s' = authorized s ->
  measured_from c s (Arrived r :: es) = measured_from c s' es.
Proof.
  intros Ho Ha. unfold measured_from, measured. rewrite own_datagrams_cons, Ho, Ha. done.
Qed.

Lemma measured_from_other c s s' r h es :
  own c r = Some h -> authorized s' = authorized s ->
  (authorized s = false -> ~ authorizes c (h, r)) ->
  (authorized s = true -> ~ ends (h, r) /\ ~ is_data (h, r)) ->
  measured_from c s (Arrived r :: es) = measured_from c s' es.
Proof.
  intros Ho Ha Hna Hnd. unfold measured_from, measured. rewrite own_datagrams_cons, Ho, Ha.
  destruct (authorized s); simpl.
  - destruct Hnd as [He Hd]; [done|]. rewrite decide_False by done.
    by rewrite filter_cons_False.
  - by rewrite decide_False by auto.
Qed.

(** A state that measures nothing of [es] accounts for nothing. *)
Lemma accounts_nil c s :
  uint 64 (packets s) -> uint 64 (rx_bytes s) -> accounts c s s [].
Proof.
  unfold uint. intros ??. unfold accounts, sat64, sat_add, len; simpl.
  split_and!; try lia; try done. unfold start_of; simpl. by destruct (started s).
Qed.

Lemma accounts_weaken c s s1 s' hrs :
  accounts c s1 s' hrs -> packets s1 = packets s -> rx_bytes s1 = rx_bytes s ->
  started s1 = started s -> tracker s1 = tracker s -> jitter_tracker s1 = jitter_tracker s ->
  accounts c s s' hrs.
Proof. unfold accounts, start_of. by intros ? <- <- <- <- <-. Qed.

Lemma accounts_measure c s s1 s' h r hrs :
  uint 64 (packets s) -> uint 64 (rx_bytes s) -> len (received_bytes c r) <= umax 64 ->
  measure s h r (len (received_bytes c r)) = Ok s1 -> accounts c s1 s' hrs ->
  accounts c s s' ((h, r) :: hrs).
Proof.
  intros Hp Hb Hl Hm (H1&H2&H3&H4&H5). unfold measure in Hm.
  apply obind_Ok in Hm as (t&Ht&[= <-]). simpl in *.
  destruct (observe_bounded (tracker s) (sequence h)) as [t'|[]|] eqn:Ho; [|done].
  injection Ht as ->. pose proof (len_nonneg hrs). pose proof (len_nonneg (received_bytes c r)).
  assert (0 <= zsum (sizes c hrs)).
  { clear. induction hrs as [|hr hrs IH]; simpl; [done|]. pose proof (len_nonneg (received_bytes c hr.2)). lia. }
  unfold uint in *. unfold accounts. split_and!.
  - rewrite H1, len_cons. unfold sat64, sat_add. lia.
  - rewrite H2. unfold sat64, sat_add. simpl. rewrite clamp_id by lia. lia.
  - rewrite H3. unfold start_of; simpl. by destruct (started s).
  - simpl. rewrite Ho. cbn [obind]. done.
  - intros start Hs. rewrite (H5 start).
    + unfold start_of in Hs; simpl in *. destruct (started s); by injection Hs as ->.
    + unfold start_of in *; simpl in *. by destruct (started s).
Qed.

Lemma measure_uint s h r n s1 :
  uint 64 (packets s) -> uint 64 (rx_bytes s) -> 0 <= n -> measure s h r n = Ok s1 ->
  uint 64 (packets s1) /\ uint 64 (rx_bytes s1) /\ authorized s1 = authorized s.
Proof.
  unfold measure. intros [??] [??] Hn (t&_&[= <-])%obind_Ok. simpl. split_and!; [| |done].
  - apply sat_add_uint; lia.
  - apply sat_add_uint; try lia. by apply (clamp_uint 64).
Qed.

Lemma receive_loop_accounts c es s s' g :
  0 <= maximum_datagram_bytes c <= umax 64 -> uint 64 (packets s) -> uint 64 (rx_bytes s) ->
  receive_loop c s es = Ok (s', g) -> accounts c s s' (measured_from c s es).
Proof.
  intros Hmax. revert s. induction es as [|[r|m] es IH]; intros s Hp Hb Hr; simpl in Hr; [| |done].
  { destruct (started s); [|done]. injection Hr as -> <-. unfold measured_from, measured; simpl.
    destruct (authorized s'); by apply accounts_nil. }
  apply obind_Ok in Hr as ([s1 ended]&Hh&Hr). pose proof (handle_datagram_case c s r) as Hc.
  rewrite Hh in Hc.
  assert (Hl : len (received_bytes c r) <= umax 64).
  { unfold received_bytes, len. rewrite length_take. lia. }
  inversion Hc as [e Hd He|h Hd Ho He|h Ho Ha Hau He|h Ho Hna Hfl He|h Ho Ha Hend He|h Ho Ha Hne Hnd He
    |h Ho Ha Hdat He]; subst; clear Hc.
  - rewrite (measured_from_none c s (count_invalid s)); [| |done].
    + eapply accounts_weaken; [by apply IH|done..].
    + destruct (own c r) eqn:Ho; [|done]. apply own_spec in Ho as [? _]. congruence.
  - rewrite (measured_from_none c s (count_unauthorized s)) by done.
    eapply accounts_weaken; [by apply IH|done..].
  - assert (measured_from c s (Arrived r :: es) = measured_from c (set_authorized s) es) as ->.
    { unfold measured_from, measured. rewrite own_datagrams_cons, Ho, Ha. simpl.
      by rewrite decide_True. }
    eapply accounts_weaken; [by apply IH|done..].
  - rewrite (measured_from_other c s (count_unauthorized s) r h); [|done|done|done|].
    + eapply accounts_weaken; [by apply IH|done..].
    + intros Ha. specialize (Hfl Ha). unfold ends, is_data; simpl. rewrite Hfl. split; [by intros [? _]|done].
  - injection Hr as -> <-. unfold measured_from. rewrite Ha, own_datagrams_cons, Ho. simpl.
    rewrite decide_True by done. by apply accounts_nil.
  - rewrite (measured_from_other c s (count_invalid s) r h); [|done|done|congruence|done].
    eapply accounts_weaken; [by apply IH|done..].
  - apply obind_Ok in He as (s2&Hm&[= -> <-]).
    destruct (measure_uint _ _ _ _ _ Hp Hb (len_nonneg _) Hm) as (?&?&Hau).
    unfold measured_from. rewrite Ha, own_datagrams_cons, Ho. simpl.
    rewrite decide_False by (unfold is_data, ends in *; simpl in *; by rewrite Hdat; intros [? _]).
    rewrite filter_cons_True by done. eapply accounts_measure; [done|done|done|done|].
    replace (filter is_data (before_first ends (own_datagrams c es))) with (measured_from c s1 es);
      [by apply IH|]. unfold measured_from. by rewrite Hau, Ha.
Qed.

(** ** Totality. *)

Definition receiver_ok (s : Receiver) : Prop :=
  mask (tracker s) = 2 ^ 16 - 1 /\ len (window (tracker s)) = 2 ^ 16 /\
  uint 64 (packets s) /\ uint 64 (rx_bytes s).

Lemma new_receiver_ok :
  exists s, new_receiver = Ok s /\ receiver_ok s /\ authorized s = false /\ started s = None /\
    packets s = 0 /\ rx_bytes s = 0 /\ jitter_tracker s = default_jitter /\
    new_bounded UDP_SEQUENCE_WINDOW_SIZE = Ok (tracker s) /\ invalid_count s = 0 /\
    unauthorized_count s = 0.
Proof.
  unfold new_receiver, new_bounded.
  change ((UDP_SEQUENCE_WINDOW_SIZE <? 2) || negb (is_power_of_two UDP_SEQUENCE_WINDOW_SIZE))
    with false. cbv iota. eexists. split; [reflexivity|].
  cbn [tracker packets rx_bytes authorized started jitter_tracker mask window invalid_count
    unauthorized_count].
  unfold receiver_ok. cbn [tracker packets rx_bytes mask window].
  assert (Hl : len (repeat (umax 64) (Z.to_nat UDP_SEQUENCE_WINDOW_SIZE)) = 2 ^ 16).
  { unfold len. rewrite repeat_length. apply Z2Nat.id. done. }
  pose proof (umax_nonneg 64). unfold uint.
  split_and!; try done; try lia.
Qed.

Lemma measure_ok s h r n :
  receiver_ok s -> 0 <= n ->
  exists s1, measure s h r n = Ok s1 /\ receiver_ok s1 /\ authorized s1 = authorized s /\
    started s1 <> None.
Proof.
  intros (Hm&Hl&Hp&Hb) Hn. unfold measure.
  destruct (observe_total 16 ltac:(lia) (tracker s) (sequence h) Hm Hl) as (t&->&Hm'&Hl').
  cbn [obind infallible]. eexists. split; [reflexivity|]. unfold receiver_ok; simpl.
  unfold uint in *. split_and!; try done;
    try (by apply (sat_add_uint 64); lia); apply (sat_add_uint 64); try lia; by apply (clamp_uint 64).
Qed.

Lemma receive_loop_total c es s :
  receiver_ok s -> (forall m, RecvFailed m ∉ es) ->
  (exists s' g, receive_loop c s es = Ok (s', g) /\ receiver_ok s') \/
  exists e, receive_loop c s es = Err e /\ started s = None /\ measured_from c s es = [].
Proof.
  revert s. induction es as [|[r|m] es IH]; intros s Hs Hf; simpl.
  { destruct (started s) eqn:Hst; [left; eauto|]. right. eexists. split_and!; [done|done|].
    unfold measured_from, measured; simpl. by destruct (authorized s). }
  2: { exfalso. apply (Hf m). left. }
  assert (Hf' : forall m, RecvFailed m ∉ es) by (intros m Hin; apply (Hf m); by right).
  assert (Hstep : forall s1, receiver_ok s1 -> started s1 = started s ->
    measured_from c s (Arrived r :: es) = measured_from c s1 es ->
    (exists s' g, receive_loop c s1 es = Ok (s', g) /\ receiver_ok s') \/
    (exists e, receive_loop c s1 es = Err e /\ started s = None /\
       measured_from c s (Arrived r :: es) = [])).
  { intros s1 H1 Hst Hmeas. destruct (IH s1 H1 Hf') as [?|(e&?&Hn&Hnil)]; [by left|right].
    exists e. rewrite Hmeas, <- Hst. done. }
  pose proof (handle_datagram_case c s r) as Hc. revert Hc.
  generalize (handle_datagram c s r). intros o Hc.
  destruct Hc as [e Hd|h Hd Ho|h Ho Ha Hau|h Ho Hna Hfl|h Ho Ha Hend|h Ho Ha Hne Hnd|h Ho Ha Hdat];
    cbn [obind]; cbv iota.
  - apply Hstep; [done|done|]. apply measured_from_none; [|done].
    destruct (own c r) eqn:Ho; [|done]. apply own_spec in Ho as [? _]. congruence.
  - apply Hstep; [done|done|]. by apply measured_from_none.
  - apply Hstep; [done|done|]. unfold measured_from, measured. rewrite own_datagrams_cons, Ho, Ha. simpl.
    by rewrite decide_True.
  - apply Hstep; [done|done|]. apply (measured_from_other _ _ _ _ h); [done|done|done|].
    intros Ha. specialize (Hfl Ha). unfold ends, is_data; simpl. rewrite Hfl. split; [by intros [? _]|done].
  - left. eauto.
  - apply Hstep; [done|done|]. apply (measured_from_other _ _ _ _ h); [done|done|congruence|done].
  - destruct (measure_ok s h r _ Hs (len_nonneg (received_bytes c r))) as (s1&->&H1&Hau&Hst).
    cbn [obind]. destruct (IH s1 H1 Hf') as [?|(e&?&Hn&_)]; [by left|done].
Qed.

(** The datagrams a receiver with a buffer of 52 bytes and the tag can measure. *)
Definition can_authorize (c : UdpReceiverConfig) : Prop :=
  UDP_SPEED_HEADER_BYTES + len (as_bytes (r_authorization_tag c)) <= maximum_datagram_bytes c.

Lemma authorizes_fits c h r :
  own c r = Some h -> authorizes c (h, r) -> validate_receiver c = Ok tt -> can_authorize c.
Proof.
  intros Ho (_&_&Ht) Hv. simpl in Ht. apply own_spec in Ho as [Hd _].
  assert (Hl : 52 <= len (received_bytes c r)).
  { unfold decode_datagram in Hd. unfold UDP_SPEED_HEADER_BYTES in *.
    destruct (Z.ltb_spec (len (received_bytes c r)) 52); [done|lia]. }
  unfold can_authorize. rewrite <- Ht. unfold UDP_SPEED_HEADER_BYTES, len in *. rewrite length_drop.
  unfold received_bytes in *. rewrite length_take in *.
  lia.
Qed.

Lemma validate_receiver_range c :
  validate_receiver c = Ok tt -> 0 <= maximum_datagram_bytes c <= umax 64.
Proof.
  unfold validate_receiver, UDP_SPEED_HEADER_BYTES, MAX_UDP_DATAGRAM_BYTES, umax. intros H.
  destruct (Z.leb_spec 52 (maximum_datagram_bytes c)); [|done].
  destruct (Z.leb_spec (maximum_datagram_bytes c) 65507); [|done]. lia.
Qed.

(** The receiver measures exactly its session: a run that returns counts
    precisely the datagrams that decode, come from the expected source with the
    session's and stream's identifiers, follow the datagram that presented the
    authorization tag, precede the end and carry data flags; packets, bytes,
    sequence statistics and jitter are those of this list, and the clock starts
    at its first element. *)
Theorem receiver_measures (c : UdpReceiverConfig) (es : list RecvEvent) (finished : Z)
    (out : UdpReceiverResult) :
  run_udp_receiver c es finished = Ok out ->
  let data := measured c es in
  exists first, head data = Some first /\
    rx_packets out = Z.min (len data) (umax 64) /\
    rx_datagram_bytes out = Z.min (zsum (sizes c data)) (umax 64) /\
    r_elapsed_nanoseconds out = Z.max (elapsed_since (received_at first.2) finished) 1 /\
    jitter out = jitter_nanoseconds
      (fold_left (fun j sr => observe_jitter j sr.1 sr.2) (samples (received_at first.2) data)
         default_jitter) /\
    exists t0 t, new_bounded UDP_SEQUENCE_WINDOW_SIZE = Ok t0 /\
      observe_all_bounded t0 (sequence ∘ fst <$> data) = Ok t /\
      sequence_stats out = bounded_stats t.
Proof.
  unfold run_udp_receiver. intros Hrun. apply obind_Ok in Hrun as ([]&Hv&Hrun).
  apply validate_receiver_range in Hv as Hmax.
  destruct new_receiver_ok as (s&Hn&(_&_&Hp&Hb)&Ha&Hst&Hp0&Hb0&Hj&Ht&_). rewrite Hn in Hrun. cbn [obind] in Hrun.
  apply obind_Ok in Hrun as ([s' g]&Hl&Hrun). apply obind_Ok in Hrun as (start&Hs'&[= <-]).
  apply ok_or_Ok in Hs'. cbn [rx_packets rx_datagram_bytes r_elapsed_nanoseconds jitter sequence_stats].
  apply receive_loop_accounts in Hl as (H1&H2&H3&H4&H5); [|done|done|done].
  assert (measured_from c s es = measured c es) as Hm by (unfold measured_from; by rewrite Ha).
  rewrite Hm in *. unfold start_of in *. rewrite Hst in *. rewrite Hs' in H3.
  destruct (head (measured c es)) as [first|]; [|done]. injection H3 as ->.
  exists first. rewrite H1, H2, Hp0, Hb0, Hj in *. rewrite (H5 _ eq_refl).
  split_and!; [done|done|done|done|done|]. eauto.
Qed.

(** The receiver always decides: without socket errors and with a valid
    configuration it returns a measurement exactly when there is a datagram to
    measure, an error otherwise, and it never panics, whatever bytes arrive. A
    buffer shorter than a header with the tag never authorizes, so such a
    receiver never returns a measurement although its configuration validates. *)
Theorem receiver_total (c : UdpReceiverConfig) (es : list RecvEvent) (finished : Z) :
  validate_receiver c = Ok tt -> (forall m, RecvFailed m ∉ es) ->
  run_udp_receiver c es finished <> Panic /\
  ((exists out, run_udp_receiver c es finished = Ok out) <-> measured c es <> []) /\
  (measured c es <> [] -> can_authorize c).
Proof.
  intros Hv Hf. unfold run_udp_receiver. rewrite Hv. cbn [obind].
  destruct new_receiver_ok as (s&->&Hok&Ha&Hst&_). cbn [obind].
  assert (Hm : measured_from c s es = measured c es) by (unfold measured_from; by rewrite Ha).
  assert (Hcan : measured c es <> [] -> can_authorize c).
  { unfold measured. intros Hne. assert (Hne' : after_first (authorizes c) (own_datagrams c es) <> [])
      by (intros He; rewrite He in Hne; done). clear Hne Hf Hm. revert Hne'.
    induction es as [|[r|m] es IH]; simpl; [done| |done].
    change (omap _ es) with (own_datagrams c es). destruct (own c r) as [h|] eqn:Ho; simpl; [|done].
    case_decide; [|done]. intros _. by eapply authorizes_fits. }
  destruct (receive_loop_total c es s Hok Hf) as [(s'&g&Hl&_)|(e&He&_&Hnil)].
  - rewrite Hl. cbn [obind].
    apply receive_loop_accounts in Hl as (_&_&H3&_); [|by apply validate_receiver_range|apply Hok..].
    unfold start_of in H3. rewrite Hst, Hm in H3. rewrite H3.
    destruct (measured c es) as [|first rest]; cbn [head fmap option_fmap option_map ok_or obind].
    + split_and!; [done| |done]. split; [|done]. intros [? ?]. done.
    + split_and!; [done| |done]. split; [done|eauto].
  - rewrite He. cbn [obind]. rewrite Hm in Hnil. rewrite Hnil.
    split_and!; [done| |by rewrite Hnil in Hcan]. split; [|done]. by intros [? ?].
Qed.

(** ** Foreign datagrams do not influence the measurement. *)

Definition erase (s : Receiver) : Receiver :=
  {| tracker := tracker s; jitter_tracker := jitter_tracker s; started := started s;
     packets := packets s; rx_bytes := rx_bytes s; invalid_count := 0;
     unauthorized_count := 0; authorized := authorized s |}.

Definition erase_res (o : res (Receiver * bool)) : res (Receiver * bool) :=
  let? '(s, b) := o in Ok (erase s, b).

Lemma handle_datagram_erase c s r :
  erase_res (handle_datagram c (erase s) r) = erase_res (handle_datagram c s r).
Proof.
  unfold handle_datagram. destruct (decode_datagram _) as [h|e|]; [|done|done].
  destruct (_ || _ || _); [done|]. destruct (_ =? UDP_FLAG_AUTH).
  - destruct (slice _ _ _); [|done|done]. cbn [obind erase authorized]. by destruct (_ || _ || _).
  - cbn [erase authorized]. destruct (negb _); [done|]. destruct (_ =? UDP_FLAG_END); [by destruct (negb _)|].
    destruct (negb _); [done|]. unfold measure. cbn [erase tracker].
    by destruct (infallible _).
Qed.

Lemma receive_loop_erase c s1 s2 es :
  erase s1 = erase s2 -> erase_res (receive_loop c s1 es) = erase_res (receive_loop c s2 es).
Proof.
  revert s1 s2. induction es as [|[r|m] es IH]; intros s1 s2 Hs; simpl; [| |done].
  - assert (started s1 = started s2) as -> by (by injection Hs).
    destruct (started s2); simpl; [by rewrite Hs|done].
  - pose proof (handle_datagram_erase c s1 r) as H1. pose proof (handle_datagram_erase c s2 r) as H2.
    rewrite Hs, H2 in H1. clear H2 Hs.
    destruct (handle_datagram c s1 r) as [[t1 b1]| |], (handle_datagram c s2 r) as [[t2 b2]| |];
      simpl in H1; try discriminate; cbn [obind]; [|congruence|done].
    assert (erase t1 = erase t2 /\ b1 = b2) as [Ht <-] by (split; congruence).
    destruct b1; simpl; [congruence|by apply IH].
Qed.

(** The part of a result that describes the measurement. *)
Definition measurement (o : res UdpReceiverResult) : res UdpReceiverResult :=
  let? out := o in
  Ok {| rx_packets := rx_packets out; rx_datagram_bytes := rx_datagram_bytes out;
        r_elapsed_nanoseconds := r_elapsed_nanoseconds out; rx_bits_per_second := rx_bits_per_second out;
        sequence_stats := sequence_stats out; jitter := jitter out; invalid_datagrams := 0;
        unauthorized_datagrams := 0; graceful_end := graceful_end out |}.

Lemma handle_foreign c s r :
  own c r = None -> exists s', handle_datagram c s r = Ok (s', false) /\ erase s' = erase s.
Proof.
  intros Ho. pose proof (handle_datagram_case c s r) as Hc. revert Hc.
  generalize (handle_datagram c s r). intros o Hc. destruct Hc; try congruence; eauto.
Qed.

Lemma receive_loop_foreign c r es1 es2 s :
  own c r = None ->
  erase_res (receive_loop c s (es1 ++ Arrived r :: es2)) = erase_res (receive_loop c s (es1 ++ es2)).
Proof.
  intros Ho. revert s. induction es1 as [|[r1|m] es1 IH]; intros s; simpl; [| |done].
  - destruct (handle_foreign c s r Ho) as (s'&->&He). cbn [obind]. by apply receive_loop_erase.
  - destruct (handle_datagram c s r1) as [[s1 []]| |]; cbn [obind]; [done|apply IH|done|done].
Qed.

(** Strangers cannot influence a measurement: a datagram that does not
    decode, comes from another source, or carries another session or stream
    identifier, at any point of the run, changes neither the outcome nor any
    measured value, only the counters of invalid and unauthorized datagrams. *)
Theorem receiver_noninterference (c : UdpReceiverConfig) (es1 es2 : list RecvEvent) (r : Reception)
    (finished : Z) :
  own c r = None ->
  measurement (run_udp_receiver c (es1 ++ Arrived r :: es2) finished) =
  measurement (run_udp_receiver c (es1 ++ es2) finished).
Proof.
  intros Ho. unfold run_udp_receiver. destruct (validate_receiver c); [|done|done]. cbn [obind].
  destruct new_receiver as [s| |]; [|done|done]. cbn [obind].
  pose proof (receive_loop_foreign c r es1 es2 s Ho) as He.
  destruct (receive_loop c s (es1 ++ Arrived r :: es2)) as [[s1 b1]| |],
    (receive_loop c s (es1 ++ es2)) as [[s2 b2]| |]; simpl in He; try discriminate; cbn [obind];
    [|congruence|done].
  injection He as Ht Hj Hst Hp Hb Ha Hg. subst b2. rewrite Hst.
  destruct (started s2); [|done]. cbn [ok_or obind measurement]. unfold measurement. cbn [obind].
  by rewrite Hp, Hb, Ht, Hj.
Qed.

(** ** A concrete session. *)

Definition sample_sender : UdpSenderConfig :=
  {| s_session_id := repeat 9 16; s_stream_id := 3; datagram_bytes := 54;
     measurement_milliseconds := 100; s_target_bits_per_second := Some 1000000;
     s_maximum_packets_per_burst := 32; s_authorization_tag := "0123456789abcdef" |}.
Definition sample_receiver : UdpReceiverConfig :=
  {| r_session_id := repeat 9 16; r_stream_id := 3; expected_source := SocketV4 2130706433 5000;
     maximum_datagram_bytes := 1500; idle_timeout_milliseconds := 2000;
     r_authorization_tag := "0123456789abcdef" |}.

Definition sample_datagram (seq fl timestamp : Z) (payload : bytes) (at_ : Z) : Reception :=
  {| source := SocketV4 2130706433 5000;
     datagram := header_layout (control_header sample_sender seq fl timestamp (len payload)) ++ payload;
     received_at := at_; measured_at := at_ |}.

Definition sample_auth : Reception :=
  sample_datagram 0 UDP_FLAG_AUTH 0 (as_bytes "0123456789abcdef") 5.
Definition sample_data : Reception := sample_datagram 0 0 10 [0xA5; 0xA5] 1000.
Definition sample_stranger : Reception :=
  {| source := SocketV4 16909060 5000; datagram := datagram sample_data; received_at := 900;
     measured_at := 900 |}.
Definition sample_events : list RecvEvent := [Arrived sample_auth; Arrived sample_data].

Lemma sample_measured :
  measured sample_receiver sample_events =
    [(control_header sample_sender 0 0 10 2, sample_data)].
Proof. vm_compute. reflexivity. Qed.

Lemma receiver_total_witness :
  validate_receiver sample_receiver = Ok tt /\
  exists out, run_udp_receiver sample_receiver sample_events 2000 = Ok out.
Proof.
  assert (Hv : validate_receiver sample_receiver = Ok tt) by (vm_compute; reflexivity).
  split; [exact Hv|].
  destruct (receiver_total sample_receiver sample_events 2000 Hv) as (_&[_ Hok]&_).
  - intros m Hin. unfold sample_events in Hin. apply list_elem_of_In in Hin. by destruct Hin as [?|[?|[]]].
  - apply Hok. by rewrite sample_measured.
Defined.

Lemma sample_run : exists out, run_udp_receiver sample_receiver sample_events 2000 = Ok out.
Proof.
  assert (Hf : forall m, RecvFailed m ∉ sample_events).
  { intros m Hin. unfold sample_events in Hin. apply list_elem_of_In in Hin. by destruct Hin as [?|[?|[]]]. }
  unfold run_udp_receiver.
  assert (validate_receiver sample_receiver = Ok tt) as -> by (vm_compute; reflexivity). cbn [obind].
  destruct new_receiver_ok as (s&->&Hok&Ha&Hst&_). cbn [obind].
  assert (Hm : measured_from sample_receiver s sample_events = measured sample_receiver sample_events)
    by (unfold measured_from; by rewrite Ha).
  destruct (receive_loop_total sample_receiver sample_events s Hok Hf) as [(s'&g&Hl&_)|(e&_&_&Hn)].
  - rewrite Hl. cbn [obind].
    apply receive_loop_accounts in Hl as (_&_&H3&_); [|by unfold umax|apply Hok..].
    unfold start_of in H3. rewrite Hst, Hm, sample_measured in H3. rewrite H3. simpl. eauto.
  - rewrite Hm, sample_measured in Hn. done.
Qed.

Lemma receiver_measures_witness :
  exists out, run_udp_receiver sample_receiver sample_events 2000 = Ok out /\ rx_packets out = 1 /\
    rx_datagram_bytes out = 54.
Proof.
  destruct sample_run as (out&Hrun). exists out. split; [exact Hrun|].
  pose proof (receiver_measures sample_receiver sample_events 2000 out Hrun) as H.
  cbv zeta in H. rewrite sample_measured in H. destruct H as (first&_&Hp&Hb&_).
  rewrite Hp, Hb. split; vm_compute; reflexivity.
Defined.

Lemma receiver_noninterference_witness :
  measurement (run_udp_receiver sample_receiver [Arrived sample_auth; Arrived sample_stranger; Arrived sample_data] 2000)
  = measurement (run_udp_receiver sample_receiver sample_events 2000).
Proof.
  apply (receiver_noninterference sample_receiver [Arrived sample_auth] [Arrived sample_data]
    sample_stranger 2000). vm_compute. reflexivity.
Defined.

(** ** The sender. *)

Definition data_datagram (c : UdpSenderConfig) (payload q timestamp : Z) : bytes :=
  header_layout (control_header c q 0 timestamp payload) ++ repeat 0xA5 (Z.to_nat payload).

(** Data datagrams with consecutive sequences from [q] on, sent at [ts]. *)
Fixpoint data_stream (destination : SocketAddr) (c : UdpSenderConfig) (payload q : Z) (ts : list Z)
    : list (SocketAddr * bytes) :=
  match ts with
  | [] => []
  | t :: ts => (destination, data_datagram c payload q t) :: data_stream destination c payload (q + 1) ts
  end.

Lemma data_stream_app destination c payload q ts1 ts2 :
  data_stream destination c payload q (ts1 ++ ts2) =
  data_stream destination c payload q ts1 ++ data_stream destination c payload (q + len ts1) ts2.
Proof.
  revert q. induction ts1 as [|t ts1 IH]; intros q; simpl; [by rewrite Z.add_0_r|].
  rewrite IH, len_cons. do 3 f_equal. lia.
Qed.

Definition auth_datagram (c : UdpSenderConfig) : bytes :=
  header_layout (control_header c 0 UDP_FLAG_AUTH 0 (len (as_bytes (s_authorization_tag c)))) ++
  as_bytes (s_authorization_tag c).

Lemma elapsed_mono start t t' : t <= t' -> elapsed_since start t <= elapsed_since start t'.
Proof. intros. unfold elapsed_since, clamp, sat_sub. repeat case_match; lia. Qed.

Lemma elapsed_uint start t : uint 64 (elapsed_since start t).
Proof. unfold elapsed_since, sat_sub. apply clamp_uint; lia. Qed.

Lemma new_pacer_ok wire r p0 :
  uint 64 r -> uint 32 wire -> new_pacer r wire = Ok p0 ->
  pacer_ok p0 /\ sent_packets p0 = 0.
Proof.
  unfold new_pacer, uint. intros ?? Hn. destruct (Z.eqb_spec r 0); [done|].
  destruct (Z.eqb_spec wire 0); [done|]. injection Hn as <-. unfold pacer_ok; simpl.
  split; [|done]. unfold umax in *. lia.
Qed.

Section SenderProofs.
Context (clock : nat -> Z) (send_result : nat -> bytes -> Z + string).
Context (clock_mono : forall i j, (i <= j)%nat -> clock i <= clock j).
Context (destination : SocketAddr) (c : UdpSenderConfig) (payload : Z) (start deadline : Z).
Context (session16 : length (s_session_id c) = 16%nat) (payload_nonneg : 0 <= payload).
Let wire := 52 + payload.

Lemma header_ok_encode q fl t p :
  encode (control_header c q fl t p) = Ok (header_layout (control_header c q fl t p)).
Proof. by apply encode_layout. Qed.

Definition buffer_ok (b : bytes) : Prop :=
  exists hd, len hd = 52 /\ b = hd ++ repeat 0xA5 (Z.to_nat payload).

Lemma copy_header q t b :
  buffer_ok b ->
  copy_at (E := NetToolError) b 0 (header_layout (control_header c q 0 t payload)) =
    Ok (data_datagram c payload q t) /\ buffer_ok (data_datagram c payload q t) /\
  len (data_datagram c payload q t) = wire.
Proof.
  intros (hd&Hh&->). pose proof (header_layout_len (control_header c q 0 t payload) session16) as Hl.
  assert (Hr : len (repeat 0xA5 (Z.to_nat payload)) = payload) by (unfold len; rewrite repeat_length; lia).
  split; [|split].
  - unfold copy_at. rewrite len_app, Hl, Hr, Hh. change (0 <=? 0) with true.
    rewrite (proj2 (Z.leb_le (0 + 52) _)) by lia. cbn [andb]. change (Z.to_nat 0) with 0%nat.
    change (Z.to_nat (0 + 52)) with 52%nat. rewrite take_0, app_nil_l.
    unfold data_datagram. do 2 f_equal.
    assert (length hd = 52%nat) as <- by (unfold len in Hh; lia). apply drop_app_length.
  - eexists. split; [exact Hl|done].
  - unfold data_datagram, wire. rewrite len_app, Hl, Hr. done.
Qed.

Definition sending_ok (s : Sending) : Prop :=
  buffer_ok (buffer s) /\ 0 <= next_sequence s <= umax 64 /\ transmitted_bytes s <= umax 64 /\
  transmitted_bytes s = next_sequence s * wire.

(** [s'] sent the datagrams at [ts] after [s]. *)
Definition advanced (s s' : Sending) (n n' : Net) (ts : list Z) : Prop :=
  sent n' = sent n ++ data_stream destination c payload (next_sequence s) ts /\
  next_sequence s' = next_sequence s + len ts /\ Forall (uint 64) ts /\ sending_ok s'.

(** The steps of a sender. *)
Lemma m_holds_now {A} (k : Z -> method Net A) n Q :
  m_holds (k (clock (reads n))) {| reads := S (reads n); sent := sent n |} Q ->
  m_holds (m_bind (now clock) k) n Q.
Proof. done. Qed.

Lemma m_holds_pure {S A B} (a : A) (k : A -> method S B) s Q :
  m_holds (k a) s Q -> m_holds (m_bind (m_ret (Ok a)) k) s Q.
Proof. done. Qed.

Lemma m_holds_fail {S A B} e (k : A -> method S B) s Q :
  Q s (Err e) -> m_holds (m_bind (m_ret (Err e)) k) s Q.
Proof. done. Qed.

Lemma m_holds_send {A} d dest (k : Z -> method Net A) n (Q : Net -> res A -> Prop) :
  (forall e, Q n (Err e)) ->
  (forall r, m_holds (k r) {| reads := reads n; sent := sent n ++ [(dest, d)] |} Q) ->
  m_holds (m_bind (send_to send_result d dest) k) n Q.
Proof.
  intros He Hk. unfold m_holds, m_bind, send_to. destruct (send_result _ _) as [r|m]; [apply Hk|].
  split; [done|apply He].
Qed.

Lemma m_holds_checked {A} w a b e (k : Z -> method Net A) n (Q : Net -> res A -> Prop) :
  Q n (Err e) -> (a + b <= umax w -> m_holds (k (a + b)) n Q) ->
  m_holds (m_bind (m_ret (ok_or (checked_add w a b) e)) k) n Q.
Proof.
  intros He Hk. destruct (checked_add w a b) as [x|] eqn:Hx; [|by apply m_holds_fail].
  apply checked_add_Some in Hx as [-> Hx]. by apply m_holds_pure, Hk.
Qed.

Lemma send_burst_spec k s burst n :
  sending_ok s -> 0 <= burst -> burst + Z.of_nat k <= umax 32 ->
  m_holds (send_burst clock send_result destination c payload wire start deadline k s burst) n
    (fun n' r => (reads n <= reads n')%nat /\
       match r with
       | Ok (s', burst') => exists ts, advanced s s' n n' ts /\ burst' = burst + len ts /\
           len ts <= Z.of_nat k /\ pacer s' = pacer s
       | _ => True
       end).
Proof.
  revert s burst n. induction k as [|k IH]; intros s b n Hs Hb Hk; cbn [send_burst].
  { apply m_holds_ret; [done|]. split; [done|]. exists []. unfold advanced; simpl.
    rewrite app_nil_r, !Z.add_0_r. by split_and!. }
  apply m_holds_now. destruct (deadline <=? clock (reads n)).
  { apply m_holds_ret; [done|]. simpl. split; [lia|]. exists []. unfold advanced; simpl.
    rewrite app_nil_r, !Z.add_0_r. split_and!; try done; lia. }
  apply m_holds_now. cbn [reads sent]. rewrite header_ok_encode. apply m_holds_pure.
  set (ts0 := elapsed_since start (clock (S (reads n)))).
  assert (Hts0 : uint 64 ts0) by (unfold ts0, elapsed_since, sat_sub; apply clamp_uint; lia).
  destruct Hs as (Hbuf&Hq&Hbytes0&Hbytes). destruct (copy_header (next_sequence s) ts0 _ Hbuf) as (->&Hbuf'&Hlen).
  apply m_holds_pure. apply m_holds_send; [simpl; intros; split; [lia|done]|].
  intros r. cbn [reads sent]. destruct (negb _); [apply m_holds_ret; [done|]; simpl; split; [lia|done]|].
  apply m_holds_checked; [simpl; split; [lia|done]|]. intros Hq1.
  apply m_holds_checked; [simpl; split; [lia|done]|]. intros Hb1.
  unfold checked_add. rewrite (proj2 (Z.leb_le _ _)) by lia. apply m_holds_pure.
  match goal with |- m_holds (send_burst _ _ _ _ _ _ _ _ _ ?s1 _) ?n1 _ =>
    destruct (IH s1 (b + 1) n1) as [Hp [Hr HQ]]; [split_and!; simpl; try done; lia|lia|lia|] end.
  split; [done|]. split; [simpl in *; lia|].
  destruct (send_burst _ _ _ _ _ _ _ _ _ _ _ _) as [n2 [[s2 b2]| |]]; simpl in *; [|done|done].
  destruct HQ as (ts&(H1&H2&H3&H4)&->&Hl&Hpc). exists (ts0 :: ts). rewrite len_cons.
  split_and!; [|lia|lia|done]. unfold advanced. simpl in *. rewrite H1, len_cons, <- app_assoc.
  split_and!; [done|lia|by constructor|done].
Qed.

(** The pacer agrees with what was sent and with the clock. *)
Definition pacing_ok (s : Sending) (n : Net) : Prop :=
  match pacer s, s_target_bits_per_second c with
  | None, None => True
  | Some p, Some r => exists p0 last, new_pacer r wire = Ok p0 /\ paced p0 last p /\
      sent_packets p = next_sequence s /\ last <= elapsed_since start (clock (reads n))
  | _, _ => False
  end.

Lemma pacing_later s n n' :
  pacing_ok s n -> (reads n <= reads n')%nat -> pacing_ok s n'.
Proof.
  unfold pacing_ok. intros Hp Hr. destruct (pacer s), (s_target_bits_per_second c); try done.
  destruct Hp as (p0&last&?&?&?&?). exists p0, last. split_and!; try done.
  etrans; [done|]. apply elapsed_mono, clock_mono. done.
Qed.

(** What the pacer offers at time [t]. *)
Lemma offered s n burst t :
  pacing_ok s n -> clock (reads n) <= t -> uint 32 wire -> uint 32 burst ->
  match s_target_bits_per_second c with Some r => uint 64 r | None => True end ->
  exists a, (match pacer s with
             | None => Ok burst
             | Some p => available_packets p (elapsed_since start t) burst
             end) = Ok (E := NetToolError) a /\ 0 <= a <= burst.
Proof.
  intros Hp Ht Hw Hb Hr. unfold pacing_ok in Hp. destruct (pacer s) as [p|].
  2: { exists burst. unfold uint in *. split; [done|lia]. }
  destruct (s_target_bits_per_second c) as [r|]; [|done].
  destruct Hp as (p0&last&Hn&Hpaced&Hs&Hl). destruct (new_pacer_ok wire r p0 Hr Hw Hn) as [Hok Hz].
  destruct (paced_inv _ _ _ Hok Hz Hpaced) as (Hok'&_). 
  rewrite available_exact; [|done|apply elapsed_uint|done]. eexists. split; [done|].
  unfold sat_sub, uint in *. lia.
Qed.

(** Recording a burst keeps the pacer's accounts. *)
Lemma pacing_burst s s' n n' t burst a b (ts : list Z) :
  pacing_ok s n -> clock (reads n) <= t -> (forall i, (reads n' <= i)%nat -> t <= clock i) ->
  uint 32 wire -> uint 32 burst ->
  match s_target_bits_per_second c with Some r => uint 64 r | None => True end ->
  (match pacer s with
   | None => Ok burst
   | Some p => available_packets p (elapsed_since start t) burst
   end) = Ok (E := NetToolError) a ->
  b = len ts -> b <= a -> next_sequence s' = next_sequence s + len ts -> pacer s' = pacer s ->
  match (match pacer s' with
         | None => Ok None
         | Some p => let? p := record_sent p b in Ok (Some p)
         end) with
  | Ok p => pacing_ok {| buffer := buffer s'; pacer := p; next_sequence := next_sequence s';
                         transmitted_bytes := transmitted_bytes s' |} n'
  | Err _ => True
  | Panic => False
  end.
Proof.
  intros Hp Ht Hlater Hw Hb Hr Ha -> Hba Hq ->. unfold pacing_ok in Hp |- *; simpl.
  destruct (pacer s) as [p|]; [|done]. destruct (s_target_bits_per_second c) as [r|]; [|done].
  destruct Hp as (p0&last&Hn&Hpaced&Hs&Hl).
  destruct (record_sent p (len ts)) as [p'|e|] eqn:Hrec; simpl; [|done|].
  2: { unfold record_sent in Hrec. by destruct (checked_add _ _ _). }
  exists p0, (elapsed_since start t). pose proof (len_nonneg ts). split_and!; [done| | |].
  - eapply (paced_burst p0 last p); [done| |apply elapsed_uint|exact Hb|exact Ha| |exact Hrec]; [|lia].
    etrans; [exact Hl|]. by apply elapsed_mono.
  - unfold record_sent in Hrec. apply obind_Ok in Hrec as (x&Hx&[= <-]). simpl.
    apply ok_or_Ok, checked_add_Some in Hx as [-> _]. lia.
  - apply elapsed_mono, Hlater. done.
Qed.

Lemma advanced_trans s s1 s2 n n1 n2 ts1 ts2 :
  advanced s s1 n n1 ts1 -> advanced s1 s2 n1 n2 ts2 -> advanced s s2 n n2 (ts1 ++ ts2).
Proof.
  intros (H1&H2&H3&H4) (G1&G2&G3&G4). unfold advanced.
  rewrite G1, H1, G2, H2, data_stream_app, len_app, app_assoc.
  split_and!; [done|lia|by apply Forall_app|done].
Qed.

Lemma send_loop_spec fuel s n N :
  sending_ok s -> pacing_ok s n -> 1 <= s_maximum_packets_per_burst c <= 4096 -> uint 32 wire ->
  match s_target_bits_per_second c with Some r => uint 64 r | None => True end ->
  (forall i, (N <= i)%nat -> deadline <= clock i) -> (N - reads n < fuel)%nat ->
  m_holds (send_loop clock send_result fuel destination c payload wire start deadline s) n
    (fun n' r => match r with
                 | Ok None => False
                 | Ok (Some s') => exists ts, advanced s s' n n' ts /\ pacing_ok s' n' /\
                     (reads n <= reads n')%nat
                 | _ => True
                 end).
Proof.
  intros Hs Hp Hmax Hw Hr HN. revert s n Hs Hp. induction fuel as [|fuel IH]; intros s n Hs Hp Hf; [lia|].
  cbn [send_loop]. apply m_holds_now. destruct (Z.leb_spec deadline (clock (reads n))) as [Hd|Hd].
  { apply m_holds_ret; [done|]. exists []. split_and!; [|by eapply pacing_later; [done|simpl; lia]|simpl; lia].
    unfold advanced; simpl. rewrite app_nil_r, Z.add_0_r. by split_and!. }
  assert (Hlt : (reads n < N)%nat) by (apply Nat.nle_gt; intros Hle; specialize (HN _ Hle); lia).
  apply m_holds_now. cbn [reads sent]. set (t := clock (S (reads n))).
  assert (Hb32 : uint 32 (s_maximum_packets_per_burst c)) by (unfold uint, umax; lia).
  assert (Ht : clock (reads n) <= t) by (apply clock_mono; lia).
  destruct (offered s n (s_maximum_packets_per_burst c) t Hp Ht Hw Hb32 Hr) as (a&Ha&Ha0). rewrite Ha.
  apply m_holds_pure. destruct (Z.eqb_spec a 0) as [Hz|Hz].
  { eapply m_holds_weaken; [apply IH; [done|eapply pacing_later; [done|simpl; lia]|simpl; lia]|].
    intros n' [[s'|]| |]; try done. intros (ts&H1&H2&H3). exists ts. split_and!; [done|done|simpl in *; lia]. }
  eapply m_holds_bind; [apply (send_burst_spec (Z.to_nat a) s 0); [done|lia|unfold umax; lia]| |].
  { by intros. }
  intros n1 [s1 b1] [Hr1 (ts&Hadv&Hb1&Hlen&Hpc)]. simpl in Hr1.
  pose proof (pacing_burst s s1 n n1 t (s_maximum_packets_per_burst c) a b1 ts Hp Ht) as Hpb.
  specialize (Hpb ltac:(intros i Hi; apply clock_mono; lia) Hw Hb32 Hr Ha ltac:(lia) ltac:(lia)
    ltac:(apply Hadv) Hpc).
  destruct (match pacer s1 with Some _ => _ | None => _ end) as [p'|e|]; [|by apply m_holds_fail|done].
  apply m_holds_pure. eapply m_holds_weaken.
  - apply IH; [by destruct Hadv as (_&_&_&?)|exact Hpb|lia].
  - intros n' [[s'|]| |]; try done. intros (ts'&H1&H2&H3). exists (ts ++ ts').
    split_and!; [|done|lia]. eapply advanced_trans; [exact Hadv|]. exact H1.
Qed.
End SenderProofs.

Lemma validate_sender_range c :
  validate_sender c = Ok tt ->
  52 <= datagram_bytes c <= 65507 /\ 100 <= measurement_milliseconds c /\
  1 <= s_maximum_packets_per_burst c <= 4096 /\ s_target_bits_per_second c <> Some 0 /\
  16 <= len (as_bytes (s_authorization_tag c)) <= 256.
Proof.
  unfold validate_sender, UDP_SPEED_HEADER_BYTES, MAX_UDP_DATAGRAM_BYTES, validate_authorization_tag,
    MIN_AUTHORIZATION_TAG_BYTES, MAX_AUTHORIZATION_TAG_BYTES. intros H.
  destruct (Z.leb_spec 52 (datagram_bytes c)); [|done].
  destruct (Z.leb_spec (datagram_bytes c) 65507); [|done].
  destruct (Z.leb_spec 100 (measurement_milliseconds c)); [|done].
  destruct (Z.leb_spec (measurement_milliseconds c) 86400000); [|done]. simpl in H.
  destruct (bool_decide_reflect (s_target_bits_per_second c = Some 0)); [done|].
  destruct (Z.leb_spec 1 (s_maximum_packets_per_burst c)); [|done].
  destruct (Z.leb_spec (s_maximum_packets_per_burst c) 4096); [|done]. cbn [negb andb] in H.
  destruct (Z.leb_spec 16 (len (as_bytes (s_authorization_tag c)))); [|done].
  destruct (Z.leb_spec (len (as_bytes (s_authorization_tag c))) 256); [|done].
  split_and!; done || lia.
Qed.

(** The sender's promise for a run that started from [n] and ended in [n']. *)
Definition sender_promise (destination : SocketAddr) (c : UdpSenderConfig) (n n' : Net)
    (out : UdpSenderResult) : Prop :=
  exists ts elapsed, len ts = s_tx_packets out /\ Forall (uint 64) ts /\ uint 64 elapsed /\
    s_elapsed_nanoseconds out = elapsed /\ s_tx_packets out <= umax 64 /\
    tx_datagram_bytes out <= umax 64 /\
    sent n' = sent n ++ [(destination, auth_datagram c)] ++
      data_stream destination c (datagram_bytes c - 52) 0 ts ++
      [(destination, header_layout (control_header c (len ts) UDP_FLAG_END elapsed 0))] /\
    tx_datagram_bytes out = s_tx_packets out * datagram_bytes c /\
    tx_bits_per_second out = rate (tx_datagram_bytes out) elapsed /\
    forall r, s_target_bits_per_second c = Some r ->
      tx_datagram_bytes out * 8 * 1000000000 <= r * elapsed.

Lemma send_auth_spec send_result destination c n :
  length (s_session_id c) = 16%nat -> len (as_bytes (s_authorization_tag c)) <= 256 ->
  m_holds (send_auth send_result destination c) n (fun n1 r => reads n1 = reads n /\
    match r with Ok _ => sent n1 = sent n ++ [(destination, auth_datagram c)] | _ => True end).
Proof.
  intros H16 Htag. unfold send_auth. rewrite (proj2 (Z.leb_le _ _)) by (unfold umax; lia).
  apply m_holds_pure. rewrite header_ok_encode by done. apply m_holds_pure.
  apply m_holds_send; [done|]. intros r. destruct (negb _); apply m_holds_ret; done.
Qed.

Lemma send_end_spec send_result destination c q t n :
  length (s_session_id c) = 16%nat ->
  m_holds (send_end send_result destination c q t) n (fun n1 r =>
    match r with
    | Ok _ => sent n1 = sent n ++ [(destination, header_layout (control_header c q UDP_FLAG_END t 0))]
    | _ => True
    end).
Proof.
  intros H16. unfold send_end. rewrite header_ok_encode by done. apply m_holds_pure.
  apply m_holds_send; [done|]. intros r. destruct (negb _); apply m_holds_ret; done.
Qed.

Lemma run_udp_sender_spec clock send_result fuel destination c n N :
  (forall i j, (i <= j)%nat -> clock i <= clock j) ->
  length (s_session_id c) = 16%nat ->
  match s_target_bits_per_second c with Some r => uint 64 r | None => True end ->
  (forall i, (N <= i)%nat -> clock (reads n) + measurement_milliseconds c * 1000000 <= clock i) ->
  (N - reads n < fuel)%nat ->
  m_holds (run_udp_sender clock send_result fuel destination c) n
    (fun n' r => match r with
                 | Ok None => False
                 | Ok (Some out) => sender_promise destination c n n' out
                 | _ => True
                 end).
Proof.
  intros Hclock H16 Hrate HN Hfuel. unfold run_udp_sender.
  destruct (validate_sender c) as [[]|e|] eqn:Hv; [|by apply m_holds_fail|].
  2: { exfalso. revert Hv. unfold validate_sender, validate_authorization_tag.
       repeat (destruct (negb _); [done|]). destruct (bool_decide _); [done|].
       repeat (destruct (negb _); [done|]). by destruct (has_control _). }
  apply m_holds_pure. apply validate_sender_range in Hv as (Hd&Hms&Hmax&Htgt&Htag).
  eapply m_holds_bind; [apply send_auth_spec; [done|lia]|done|].
  intros n1 [] [Hr1 Hs1]. unfold checked_sub, UDP_SPEED_HEADER_BYTES.
  rewrite (proj2 (Z.leb_le _ _)) by lia. apply m_holds_pure. unfold u32_or.
  rewrite (proj2 (Z.leb_le _ _)) by (unfold umax; lia). apply m_holds_pure.
  rewrite (proj2 (Z.leb_le _ _)) by (unfold umax; lia). apply m_holds_pure.
  set (payload := datagram_bytes c - 52).
  replace (datagram_bytes c) with (52 + payload) by (unfold payload; lia).
  assert (Hw : uint 32 (52 + payload)) by (unfold payload, uint, umax; lia).
  destruct (match s_target_bits_per_second c with Some _ => _ | None => _ end) as [p|e|] eqn:Hp;
    [|by apply m_holds_fail|].
  2: { destruct (s_target_bits_per_second c); [|done]. unfold new_pacer in Hp. by destruct (_ || _). }
  apply m_holds_pure. apply m_holds_now. rewrite Hr1. set (start := clock (reads n)).
  set (deadline := start + measurement_milliseconds c * 1000000).
  set (s0 := {| buffer := repeat 0xA5 (Z.to_nat (52 + payload)); pacer := p; next_sequence := 0;
                transmitted_bytes := 0 |}).
  assert (Hs0 : sending_ok payload s0).
  { split_and!; try done. exists (repeat 0xA5 52). split; [done|]. unfold s0; cbn [buffer].
    rewrite <- repeat_app. f_equal. unfold payload. lia. }
  eapply m_holds_bind.
  { apply (send_loop_spec clock send_result Hclock destination c payload start deadline H16
      ltac:(unfold payload; lia) fuel s0 _ N); [done| |done|done|done|exact HN|simpl; lia].
    unfold pacing_ok, s0; simpl. destruct (s_target_bits_per_second c) as [r|].
    - apply obind_Ok in Hp as (p0&Hp0&[= <-]). exists p0, 0.
      destruct (new_pacer_ok (52 + payload) r p0 Hrate Hw Hp0) as [Hok Hz].
      split_and!; [done|constructor|done|]. apply elapsed_uint.
    - by injection Hp as <-. }
  { by intros. }
  intros n2 [s2|]; [|done]. intros (ts&(Hsent&Hq&Hts&(_&Hqb&Hbb&Hbytes))&Hpace&_).
  simpl in Hsent, Hq. apply m_holds_now. cbv zeta.
  set (elapsed := Z.max (elapsed_since start (clock (reads n2))) 1).
  pose proof (elapsed_uint start (clock (reads n2))) as He.
  eapply m_holds_bind; [by apply send_end_spec|by intros|].
  intros n3 [] Hs3. cbn [sent] in Hs3. apply m_holds_ret; [done|].
  assert (Helapsed : uint 64 elapsed) by (unfold uint, umax in *; lia).
  rewrite Z.add_0_l in Hq. simpl in Hsent. unfold sender_promise.
  cbn [s_tx_packets tx_datagram_bytes s_elapsed_nanoseconds tx_bits_per_second].
  exists ts, elapsed. split_and!; try done; try lia.
  - rewrite Hs3, Hsent, Hs1, Hq. fold payload. by rewrite <- !app_assoc.
  - intros r Hr. unfold pacing_ok in Hpace. rewrite Hr in Hpace, Hrate.
    destruct (pacer s2) as [p2|]; [|done]. destruct Hpace as (p0&last&Hn&Hpaced&Hsp&Hlast).
    destruct (new_pacer_ok (52 + payload) r p0 Hrate Hw Hn) as [Hok Hz].
    destruct (paced_inv _ _ _ Hok Hz Hpaced) as (Hok2&Hb&Hl0&Hbps&Hwire).
    pose proof (budget_bound p2 last Hok2 Hl0) as [_ Hbound]. rewrite Hbps, Hwire in Hbound.
    unfold new_pacer in Hn. destruct (_ || _); [done|]. injection Hn as <-. simpl in *.
    rewrite Hbytes, <- Hsp. destruct Hok2 as (_&_&?).
    assert (last <= elapsed) by (unfold elapsed; fold start in Hlast; lia).
    assert (0 <= r) by apply Hrate. nia.
Qed.

(** C39: the sender keeps its promises and terminates: whatever the socket
    reports, once the clock passes the deadline the run ends, without panic, in
    an error or in a result. A result means that exactly one authorization
    datagram, then data datagrams with the consecutive sequences
    [0 .. tx_packets - 1], then one end datagram were handed to the socket; that
    the byte count is that of the data datagrams; and that a fixed rate was not
    exceeded over the reported time. *)
Theorem sender_contract (clock : nat -> Z) (send_result : nat -> bytes -> Z + string)
    (fuel N : nat) (destination : SocketAddr) (c : UdpSenderConfig) (n : Net) :
  (forall i j, (i <= j)%nat -> clock i <= clock j) ->
  (forall i, (N <= i)%nat -> clock (reads n) + measurement_milliseconds c * 1000000 <= clock i) ->
  (N - reads n < fuel)%nat ->
  length (s_session_id c) = 16%nat ->
  match s_target_bits_per_second c with Some r => uint 64 r | None => True end ->
  exists n' r, run_udp_sender clock send_result fuel destination c n = (n', r) /\
    r <> Panic /\ r <> Ok None /\
    forall out, r = Ok (Some out) -> sender_promise destination c n n' out.
Proof.
  intros Hc HN Hf H16 Hr.
  destruct (run_udp_sender_spec clock send_result fuel destination c n N Hc H16 Hr HN Hf) as [Hp HQ].
  destruct (run_udp_sender _ _ _ _ _ _) as [n' r]. exists n', r. simpl in *.
  split_and!; [done|done|by intros ->|by intros out ->].
Qed.

(** A clock that ticks every 30 milliseconds and a socket that always sends. *)
Definition sample_clock (i : nat) : Z := Z.of_nat i * 30000000.
Definition sample_socket (i : nat) (d : bytes) : Z + string := inl (len d).

Lemma sample_sender_run :
  exists n' out, run_udp_sender sample_clock sample_socket 10 (SocketV4 1 2) sample_sender
    {| reads := 0; sent := [] |} = (n', Ok (Some out)) /\ s_tx_packets out = 1.
Proof. eexists _, _. split; [vm_compute; reflexivity|reflexivity]. Qed.

Lemma sender_contract_witness :
  exists n' out, run_udp_sender sample_clock sample_socket 10 (SocketV4 1 2) sample_sender
    {| reads := 0; sent := [] |} = (n', Ok (Some out)) /\
  sender_promise (SocketV4 1 2) sample_sender {| reads := 0; sent := [] |} n' out.
Proof.
  destruct sample_sender_run as (n'&out&Hrun&_). exists n', out. split; [exact Hrun|].
  destruct (sender_contract sample_clock sample_socket 10 4 (SocketV4 1 2) sample_sender
    {| reads := 0; sent := [] |}) as (n2&r&Hr&_&_&Hp).
  - intros i j Hij. unfold sample_clock. lia.
  - intros i Hi. unfold sample_clock. simpl. lia.
  - simpl. lia.
  - reflexivity.
  - unfold uint, umax; simpl; lia.
  - rewrite Hrun in Hr. injection Hr as <- <-. apply Hp. reflexivity.
Defined.

(** The reported throughput is [bytes * 8 * 10^9 / elapsed] only up to
    2,305,843,009 transferred bytes; beyond, the product saturates and the
    report is the constant [u64::MAX / elapsed], however much was sent. *)
Theorem rate_saturates (bs elapsed : Z) :
  uint 64 bs -> 0 < elapsed ->
  rate bs elapsed = if bs <=? 2305843009 then bs * 8 * 1000000000 / elapsed else umax 64 / elapsed.
Proof.
  intros Hb He. unfold rate. rewrite Z.max_l, (proj2 (Z.eqb_neq _ _)) by lia.
  assert (umax 64 = 18446744073709551615) as Hu by done.
  unfold uint, sat_mul in *. rewrite Hu in *. destruct (Z.leb_spec bs 2305843009); f_equal; lia.
Qed.

(** Three gigabytes in one second are reported as 18.4 Gbit/s. *)
Lemma rate_saturates_witness :
  rate 3000000000 1000000000 = 18446744073 /\ 3000000000 * 8 * 1000000000 / 1000000000 = 24000000000.
Proof.
  split; [|reflexivity]. rewrite (rate_saturates 3000000000 1000000000); [reflexivity| |lia].
  unfold uint, umax. lia.
Defined.

(** ** A session end to end. *)

(** The receiver of the sender's session. *)
Definition same_session (cs : UdpSenderConfig) (cr : UdpReceiverConfig) : Prop :=
  r_session_id cr = s_session_id cs /\ r_stream_id cr = s_stream_id cs /\
  r_authorization_tag cr = s_authorization_tag cs /\
  datagram_bytes cs <= maximum_datagram_bytes cr /\ can_authorize cr.

(** Values of the Rust types. *)
Definition sender_typed (c : UdpSenderConfig) : Prop :=
  length (s_session_id c) = 16%nat /\ bytes_ok (s_session_id c) /\ uint 32 (s_stream_id c) /\
  match s_target_bits_per_second c with Some r => uint 64 r | None => True end.

(** The network delivers every sent datagram, in order. *)
Definition delivers (cr : UdpReceiverConfig) (sent : list (SocketAddr * bytes)) (rs : list Reception)
    : Prop :=
  Forall2 (fun d r => datagram r = d.2 /\ source r = expected_source cr) sent rs.

Section Delivery.
Context (cs : UdpSenderConfig) (cr : UdpReceiverConfig).
Context (typed : sender_typed cs) (same : same_session cs cr).
Context (big : UDP_SPEED_HEADER_BYTES <= maximum_datagram_bytes cr).

Lemma own_delivered q fl t pl r :
  uint 64 q -> uint 32 fl -> uint 64 t -> len pl <= umax 32 ->
  52 + len pl <= maximum_datagram_bytes cr ->
  datagram r = header_layout (control_header cs q fl t (len pl)) ++ pl ->
  source r = expected_source cr ->
  received_bytes cr r = datagram r /\ own cr r = Some (control_header cs q fl t (len pl)).
Proof.
  intros Hq Hfl Ht Hpl Hmax Hd Hsrc. destruct typed as (H16&Hb&Hst&_). destruct same as (Hs1&Hs2&_&_&_).
  pose proof (header_layout_len (control_header cs q fl t (len pl)) H16) as Hl.
  assert (Hr : received_bytes cr r = datagram r).
  { unfold received_bytes. apply take_ge. rewrite Hd, length_app. unfold len in *. lia. }
  split; [done|]. apply own_spec. rewrite Hr, Hd. split_and!; [|done|done|done].
  apply decode_encoded; [|done]. pose proof (len_nonneg pl).
  unfold header_ok; simpl. split_and!; try done; unfold uint; lia.
Qed.

Lemma handle_auth s r :
  authorized s = false -> datagram r = auth_datagram cs -> source r = expected_source cr ->
  len (as_bytes (s_authorization_tag cs)) <= umax 32 ->
  handle_datagram cr s r = Ok (set_authorized s, false) /\
  exists h, own cr r = Some h /\ authorizes cr (h, r).
Proof.
  intros Ha Hd Hsrc Htag. destruct same as (_&_&Ht&_&Hcan). pose proof typed as (H16&_).
  unfold can_authorize, UDP_SPEED_HEADER_BYTES in Hcan. rewrite Ht in Hcan.
  pose proof (umax_nonneg 64) as Hu. pose proof (umax_nonneg 32) as Hu2.
  destruct (own_delivered 0 UDP_FLAG_AUTH 0 (as_bytes (s_authorization_tag cs)) r) as [Hr Ho];
    [by split; [|apply Hu]|by vm_compute|by split; [|apply Hu]|done|done|exact Hd|done|].
  assert (Hauth : authorizes cr (control_header cs 0 UDP_FLAG_AUTH 0 (len (as_bytes (s_authorization_tag cs))), r)).
  { split_and!; [done|done|]. cbn [snd]. rewrite Hr, Hd, Ht. unfold auth_datagram.
    pose proof (header_layout_len (control_header cs 0 UDP_FLAG_AUTH 0
      (len (as_bytes (s_authorization_tag cs)))) H16) as Hl.
    apply drop_app_length'. unfold len in Hl at 1. lia. }
  split; [|eauto].
  pose proof (handle_datagram_case cr s r) as Hc. revert Hc. generalize (handle_datagram cr s r).
  intros o Hc. destruct Hc as [e Hdd|h Hdd Ho2|h Ho2 Ha2 Hau|h Ho2 Hna Hfl|h Ho2 Ha2 Hend|h Ho2 Ha2 Hne Hnd|h Ho2 Ha2 Hdat];
    try congruence.
  - apply own_spec in Ho as [Ho _]. congruence.
  - exfalso. rewrite Ho in Ho2. injection Ho2 as <-. by apply Hna.
Qed.

Lemma handle_end s r q t :
  authorized s = true -> uint 64 q -> uint 64 t ->
  datagram r = header_layout (control_header cs q UDP_FLAG_END t 0) -> source r = expected_source cr ->
  handle_datagram cr s r = Ok (s, true) /\
  own cr r = Some (control_header cs q UDP_FLAG_END t 0).
Proof.
  intros Ha Hq Ht Hd Hsrc. pose proof (umax_nonneg 32 ltac:(lia)) as Hu. unfold UDP_SPEED_HEADER_BYTES in big.
  destruct (own_delivered q UDP_FLAG_END t [] r) as [Hr Ho]; try done;
    try (change (len (@nil Z)) with 0; lia); try (by rewrite app_nil_r). change (len (@nil Z)) with 0 in Ho.
  split; [|done].
  pose proof (handle_datagram_case cr s r) as Hc. revert Hc. generalize (handle_datagram cr s r).
  intros o Hc. destruct Hc as [e Hdd|h Hdd Ho2|h Ho2 Ha2 Hau|h Ho2 Hna Hfl|h Ho2 Ha2 Hend|h Ho2 Ha2 Hne Hnd|h Ho2 Ha2 Hdat];
    try congruence; try rewrite Ho in Ho2.
  - apply own_spec in Ho as [Ho _]. congruence.
  - injection Ho2 as <-. by specialize (Hfl Ha).
  - injection Ho2 as <-. exfalso. by apply Hne.
  - injection Ho2 as <-. done.
Qed.

Lemma handle_data s r q t payload :
  receiver_ok s -> authorized s = true -> uint 64 q -> uint 64 t -> 0 <= payload <= umax 32 ->
  52 + payload <= maximum_datagram_bytes cr ->
  datagram r = data_datagram cs payload q t -> source r = expected_source cr ->
  exists s', handle_datagram cr s r = Ok (s', false) /\ receiver_ok s' /\ authorized s' = true /\
    invalid_count s' = invalid_count s /\ unauthorized_count s' = unauthorized_count s /\
    len (received_bytes cr r) = 52 + payload /\
    own cr r = Some (control_header cs q 0 t payload).
Proof.
  intros Hok Ha Hq Ht Hp Hmax Hd Hsrc. pose proof typed as (H16&_).
  assert (Hlen : len (repeat 0xA5 (Z.to_nat payload)) = payload) by (unfold len; rewrite repeat_length; lia).
  destruct (own_delivered q 0 t (repeat 0xA5 (Z.to_nat payload)) r) as [Hr Ho];
    rewrite ?Hlen; try done; try lia.
  rewrite Hlen in Ho.
  assert (Hrl : len (received_bytes cr r) = 52 + payload).
  { rewrite Hr, Hd. unfold data_datagram. by rewrite len_app, header_layout_len, Hlen by done. }
  pose proof (handle_datagram_case cr s r) as Hc. revert Hc. generalize (handle_datagram cr s r).
  intros o Hc. destruct Hc as [e Hdd|h Hdd Ho2|h Ho2 Ha2 Hau|h Ho2 Hna Hfl|h Ho2 Ha2 Hend|h Ho2 Ha2 Hne Hnd|h Ho2 Ha2 Hdat];
    try congruence; try rewrite Ho in Ho2.
  - apply own_spec in Ho as [Ho _]. congruence.
  - injection Ho2 as <-. by specialize (Hfl Ha).
  - injection Ho2 as <-. by destruct Hend.
  - injection Ho2 as <-. exfalso. by apply Hnd.
  - injection Ho2 as <-. destruct (measure_ok s (control_header cs q 0 t payload) r _ Hok (len_nonneg (received_bytes cr r)))
      as (s1&Hm&Hok1&Ha1&_). rewrite Hm. cbn [obind]. exists s1.
    split_and!; try done; [congruence|..]; unfold measure in Hm; apply obind_Ok in Hm as (x&_&[= <-]); done.
Qed.

Lemma zsum_repeat x n : zsum (repeat x n) = Z.of_nat n * x.
Proof. induction n as [|n IH]; simpl; [done|]. rewrite IH. lia. Qed.

(** The data of a stream and its end, received by an authorized receiver. *)
Lemma deliver_stream destination payload ts q s rs r t :
  receiver_ok s -> authorized s = true -> 0 <= q -> q + len ts <= umax 64 ->
  Forall (uint 64) ts -> uint 64 t -> 0 <= payload <= umax 32 ->
  52 + payload <= maximum_datagram_bytes cr ->
  delivers cr (data_stream destination cs payload q ts) rs ->
  datagram r = header_layout (control_header cs (q + len ts) UDP_FLAG_END t 0) ->
  source r = expected_source cr ->
  exists s' hrs, receive_loop cr s (Arrived <$> rs ++ [r]) = Ok (s', true) /\
    invalid_count s' = invalid_count s /\ unauthorized_count s' = unauthorized_count s /\
    filter is_data (before_first ends (own_datagrams cr (Arrived <$> rs ++ [r]))) = hrs /\
    sequence ∘ fst <$> hrs = seqZ q (len ts) /\ sizes cr hrs = repeat (52 + payload) (length ts).
Proof.
  revert q s rs. induction ts as [|t0 ts IH]; intros q s rs Hok Ha Hq Hqb Hts Ht Hp Hmax Hd Hr Hsrc.
  - inversion Hd; subst. change (len []) with 0 in Hr. rewrite Z.add_0_r in Hr.
    destruct (handle_end s r q t Ha) as [Hh Ho]; [unfold uint; rewrite len_nil in Hqb; lia|done|done|done|].
    exists s, []. change (Arrived <$> [] ++ [r]) with [Arrived r].
    rewrite own_datagrams_cons, Ho. cbn [receive_loop]. rewrite Hh. cbn [obind].
    by split_and!.
  - inversion Hd as [|? r0 ? rs' [Hd0 Hs0] Hrest]; subst. inversion Hts as [|?? Ht0 Hts']; subst.
    rewrite len_cons in *. pose proof (len_nonneg ts).
    destruct (handle_data s r0 q t0 payload Hok Ha) as (s1&Hh&Hok1&Ha1&Hi1&Hu1&Hl1&Ho1);
      [unfold uint; lia|done|done|done|done|done|].
    destruct (IH (q + 1) s1 rs') as (s'&hrs&Hloop&Hi&Hu&Hf&Hseq&Hsz);
      [done|done|lia|lia|done|done|done|done|done| |done|].
    { rewrite Hr. do 2 f_equal. lia. }
    exists s', ((control_header cs q 0 t0 payload, r0) :: hrs).
    change (Arrived <$> (r0 :: rs') ++ [r]) with (Arrived r0 :: (Arrived <$> rs' ++ [r])).
    rewrite own_datagrams_cons, Ho1. cbn [receive_loop]. rewrite Hh. cbn [obind].
    rewrite Hloop, <- Hi1, <- Hu1, Hi, Hu. cbn [before_first].
    split_and!; try done.
    + rewrite decide_False by (by intros [? _]). by rewrite filter_cons_True, Hf by done.
    + change (q :: (sequence ∘ fst <$> hrs) = seqZ q (1 + len ts)).
      rewrite Hseq, (seqZ_cons q) by lia. f_equal. f_equal; lia.
    + change (len (received_bytes cr r0) :: sizes cr hrs = (52 + payload) :: repeat (52 + payload) (length ts)).
      by rewrite Hl1, Hsz.
Qed.
End Delivery.

(** A session over a network that delivers in order and without loss is
    measured exactly: when the sender returns a result with at least one packet
    and the receiver of the same session gets its datagrams, the receiver
    returns, counts exactly the sender's packets and bytes, no loss, reordering,
    duplicate, invalid or unauthorized datagram, and ends gracefully. *)
Theorem lossless_session (clock : nat -> Z) (send_result : nat -> bytes -> Z + string)
    (fuel N : nat) (destination : SocketAddr) (cs : UdpSenderConfig) (cr : UdpReceiverConfig)
    (n' : Net) (out : UdpSenderResult) (rs : list Reception) (finished : Z) :
  (forall i j, (i <= j)%nat -> clock i <= clock j) ->
  (forall i, (N <= i)%nat -> clock 0%nat + measurement_milliseconds cs * 1000000 <= clock i) ->
  (N < fuel)%nat ->
  sender_typed cs -> same_session cs cr -> validate_receiver cr = Ok tt ->
  run_udp_sender clock send_result fuel destination cs {| reads := 0; sent := [] |}
    = (n', Ok (Some out)) ->
  0 < s_tx_packets out -> delivers cr (sent n') rs ->
  exists res, run_udp_receiver cr (Arrived <$> rs) finished = Ok res /\
    rx_packets res = s_tx_packets out /\ rx_datagram_bytes res = tx_datagram_bytes out /\
    sequence_stats res = Build_UdpSequenceStats (s_tx_packets out) 0 0 0 (Some (s_tx_packets out - 1)) /\
    invalid_datagrams res = 0 /\ unauthorized_datagrams res = 0 /\ graceful_end res = true.
Proof.
  intros Hc HN Hf Htyped Hsame Hv Hrun Hpos Hdel.
  assert (HQ := run_udp_sender_spec clock send_result fuel destination cs {| reads := 0; sent := [] |} N Hc
    (proj1 Htyped) (proj2 (proj2 (proj2 Htyped))) HN ltac:(simpl; lia)).
  destruct HQ as [_ HQ]. assert (Hvs : validate_sender cs = Ok tt).
  { unfold run_udp_sender in Hrun. unfold m_bind at 1, m_ret at 1 in Hrun.
    by destruct (validate_sender cs) as [[]| |]. }
  rewrite Hrun in HQ. simpl in HQ.
  destruct HQ as (ts&elapsed&Hlen&Hts&Hel&_&Hpb&Hbb&Hsent&Hbytes&_).
  apply validate_sender_range in Hvs as (Hdb&_&_&_&Htag).
  pose proof (validate_receiver_range cr Hv) as Hmaxr.
  assert (Hbig : UDP_SPEED_HEADER_BYTES <= maximum_datagram_bytes cr).
  { destruct Hsame as (_&_&_&_&Hcan). unfold can_authorize, UDP_SPEED_HEADER_BYTES in *.
    pose proof (len_nonneg (as_bytes (r_authorization_tag cr))). lia. }
  rewrite Hsent in Hdel. simpl in Hdel. inversion Hdel as [|? ra ? rs1 [Hda Hsa] Hdel1]; subst.
  unfold delivers in Hdel1. apply Forall2_app_inv_l in Hdel1 as (rd&re&Hrd&Hre&->).
  inversion Hre as [|? r ? rnil [Hde Hse] Hnil]; subst. inversion Hnil; subst. clear Hre Hnil Hdel.
  destruct new_receiver_ok as (s&Hn&Hok&Ha&Hst&Hp0&Hb0&_&Ht&Hi0&Hu0).
  destruct (handle_auth cs cr Htyped Hsame s ra Ha Hda Hsa) as (Hauth&h&Ho&Hauthz);
    [unfold umax; lia|].
  assert (Hmax : 52 + (datagram_bytes cs - 52) <= maximum_datagram_bytes cr).
  { destruct Hsame as (_&_&_&?&_). lia. }
  destruct (deliver_stream cs cr Htyped Hsame Hbig destination (datagram_bytes cs - 52) ts 0
    (set_authorized s) rd r elapsed) as (s'&hrs&Hloop&Hi&Hu&Hfil&Hseq&Hsz);
    try done; [lia|unfold umax; lia|].
  assert (Hall : receive_loop cr s (Arrived <$> ra :: rd ++ [r]) = Ok (s', true)).
  { simpl. rewrite Hauth. cbn [obind]. exact Hloop. }
  assert (Hm : measured_from cr s (Arrived <$> ra :: rd ++ [r]) = hrs).
  { unfold measured_from, measured. rewrite Ha. rewrite fmap_cons, own_datagrams_cons, Ho. simpl.
    by rewrite decide_True. }
  pose proof (receive_loop_accounts cr _ s s' true Hmaxr ltac:(rewrite Hp0; by vm_compute)
    ltac:(rewrite Hb0; by vm_compute) Hall) as (H1&H2&H3&H4&_). rewrite Hm in *.
  assert (Hlh : len hrs = len ts).
  { apply (f_equal length) in Hseq. rewrite length_fmap, length_seqZ in Hseq. unfold len in *. lia. }
  destruct (bounded_in_order 16 (tracker s) (len ts)) as (t'&Ht'&Hst'); [done|exact Ht|lia|lia|].
  rewrite Hseq, Ht' in H4. injection H4 as ->.
  unfold start_of in H3. rewrite Hst in H3. destruct hrs as [|first hrs']; [rewrite len_nil in Hlh; lia|].
  simpl in H3. unfold run_udp_receiver. rewrite Hv. cbn [obind]. rewrite Hn. cbn [obind].
  rewrite Hall. cbn [obind]. rewrite H3. cbn [ok_or obind]. eexists. split; [reflexivity|].
  cbn [rx_packets rx_datagram_bytes sequence_stats invalid_datagrams unauthorized_datagrams graceful_end].
  simpl in Hi, Hu. rewrite H1, H2, Hp0, Hb0, Hsz, zsum_repeat, Hlh, Hst', Hi, Hu, Hi0, Hu0.
  unfold sat64, sat_add, len in *. split_and!; try done; try lia. by rewrite Hlen.
Qed.

(** What a faithful network hands to the receiver. *)
Definition deliver_all (cr : UdpReceiverConfig) (sent : list (SocketAddr * bytes)) : list Reception :=
  (fun d => {| source := expected_source cr; datagram := d.2; received_at := 7; measured_at := 7 |}) <$> sent.

Lemma deliver_all_delivers cr sent : delivers cr sent (deliver_all cr sent).
Proof. induction sent as [|d sent IH]; [constructor|]. by constructor. Qed.

Lemma lossless_session_witness :
  exists n' out res,
    run_udp_sender sample_clock sample_socket 10 (SocketV4 1 2) sample_sender
      {| reads := 0; sent := [] |} = (n', Ok (Some out)) /\
    run_udp_receiver sample_receiver (Arrived <$> deliver_all sample_receiver (sent n')) 9 = Ok res /\
    rx_packets res = 1.
Proof.
  destruct sample_sender_run as (n'&out&Hrun&Htx). exists n', out.
  destruct (lossless_session sample_clock sample_socket 10 4 (SocketV4 1 2) sample_sender sample_receiver
    n' out (deliver_all sample_receiver (sent n')) 9) as (res&Hres&Hrx&_).
  - intros i j Hij. unfold sample_clock. lia.
  - intros i Hi. unfold sample_clock. simpl. lia.
  - lia.
  - unfold sender_typed, uint, umax; simpl. split_and!; try lia. repeat constructor; lia.
  - unfold same_session. by split_and!.
  - vm_compute. reflexivity.
  - exact Hrun.
  - rewrite Htx. lia.
  - apply deliver_all_delivers.
  - exists res. rewrite Hrx, Htx. split_and!; [exact Hrun|exact Hres|reflexivity].
Defined.
