(* ===== verification/HelperProtocol.v ===== *)
(** * Privileged helper requests

    Model of [crates/helper-protocol/src/lib.rs] and of the network
    configuration data of [crates/domain/src/model.rs]: the closed set of
    privileged operations, the desired network state, and their validation. The
    methods return [Result<(), &'static str>], here [outcome string unit].
    Deserialization (serde) is not modelled; [str::parse::<IpAddr>] is the
    parameter [parse_ip]. *)

From stdpp Require Import base list strings gmap.
From Stdlib Require Import ZArith Lia Ascii.
From S2P Require Import Prelude ErrorModel UdpProtocol.
Open Scope Z_scope.

Record IpPrefix := { prefix_address : IpAddr; prefix_length : Z }.

Inductive Ipv4Configuration :=
  | Dhcp
  | StaticV4 (addresses : list IpPrefix)
  | DisabledV4.

Inductive Ipv6Configuration :=
  | Automatic
  | StaticV6 (addresses : list IpPrefix)
  | DisabledV6.

Record DnsConfiguration := {
  dns_automatic : bool;
  servers : list IpAddr;
  search_domains : list string;
}.

Record RouteConfiguration := {
  route_destination : IpPrefix;
  gateway : option IpAddr;
  metric : option Z;
}.

Record NetworkDesiredState := {
  ipv4 : Ipv4Configuration;
  ipv6 : Ipv6Configuration;
  dns : DnsConfiguration;
  routes : list RouteConfiguration;
  mtu : option Z;
}.

#[export] Instance IpPrefix_eq_dec : EqDecision IpPrefix.
Proof. solve_decision. Defined.
#[export] Instance RouteConfiguration_eq_dec : EqDecision RouteConfiguration.
Proof. solve_decision. Defined.
#[export] Instance Ipv4Configuration_eq_dec : EqDecision Ipv4Configuration.
Proof. solve_decision. Defined.
#[export] Instance Ipv6Configuration_eq_dec : EqDecision Ipv6Configuration.
Proof. solve_decision. Defined.
#[export] Instance DnsConfiguration_eq_dec : EqDecision DnsConfiguration.
Proof. solve_decision. Defined.
#[export] Instance NetworkDesiredState_eq_dec : EqDecision NetworkDesiredState.
Proof. solve_decision. Defined.

Abbreviation checked := (outcome string unit).

Definition is_ipv4 (a : IpAddr) : bool := match a with V4 _ => true | V6 _ => false end.
Definition is_unspecified (a : IpAddr) : bool := match a with V4 x | V6 x => x =? 0 end.

Definition validate_prefix (p : IpPrefix) (v4 : bool) : checked :=
  let family_matches := Bool.eqb (is_ipv4 (prefix_address p)) v4 in
  let maximum := if v4 then 32 else 128 in
  if negb family_matches || (maximum <? prefix_length p) || is_unspecified (prefix_address p)
  then Err "IP prefix address family or length is invalid"%string
  else Ok tt.

(** The loop of [validate_prefixes]; [unique] is the [HashSet]. *)
Fixpoint prefixes_loop (unique : list IpPrefix) (ps : list IpPrefix) (v4 : bool) : checked :=
  match ps with
  | [] => Ok tt
  | p :: ps =>
      let? _ := validate_prefix p v4 in
      if bool_decide (p ∈ unique) then Err "duplicate static address is not allowed"%string
      else prefixes_loop (p :: unique) ps v4
  end.

Definition validate_prefixes (ps : list IpPrefix) (v4 : bool) : checked :=
  if (len ps =? 0) || (16 <? len ps)
  then Err "static address count must be between one and sixteen"%string
  else prefixes_loop [] ps v4.

(** [str::split('.')] on the bytes of a string. *)
Fixpoint split_dot (part : bytes) (bs : bytes) : list bytes :=
  match bs with
  | [] => [part]
  | b :: bs => if b =? 46 then part :: split_dot [] bs else split_dot (part ++ [b]) bs
  end.

Definition is_alphanumeric (b : Z) : bool :=
  ((48 <=? b) && (b <=? 57)) || ((65 <=? b) && (b <=? 90)) || ((97 <=? b) && (b <=? 122)).

Definition valid_label (l : bytes) : bool :=
  negb (len l =? 0) && (len l <=? 63) &&
  negb (bool_decide (head l = Some 45)) && negb (bool_decide (last l = Some 45)) &&
  forallb (fun b => is_alphanumeric b || (b =? 45)) l.

Definition valid_domain (d : string) : bool :=
  let bs := as_bytes d in
  negb (len bs =? 0) && (len bs <=? 253) &&
  negb (bool_decide (head bs = Some 46)) && negb (bool_decide (last bs = Some 46)) &&
  forallb valid_label (split_dot [] bs).

(** The loop over the routes; [seen] is the [HashSet] of identities, which are
    the routes themselves. *)
Fixpoint routes_loop (seen : list RouteConfiguration) (rs : list RouteConfiguration) : checked :=
  match rs with
  | [] => Ok tt
  | r :: rs =>
      let v4 := is_ipv4 (prefix_address (route_destination r)) in
      let? _ := validate_prefix (route_destination r) v4 in
      if match gateway r with
         | Some g => negb (Bool.eqb (is_ipv4 g) v4) || is_unspecified g
         | None => false
         end
      then Err "route gateway address family is invalid"%string
      else if bool_decide (r ∈ seen) then Err "duplicate route is not allowed"%string
      else routes_loop (r :: seen) rs
  end.

Fixpoint domains_loop (ds : list string) : checked :=
  match ds with
  | [] => Ok tt
  | d :: ds => if negb (valid_domain d) then Err "DNS search domain is invalid"%string
               else domains_loop ds
  end.

(** [NetworkDesiredState::validate]. *)
Definition validate_desired (s : NetworkDesiredState) : checked :=
  let? _ := match ipv4 s with StaticV4 a => validate_prefixes a true | _ => Ok tt end in
  let? _ := match ipv6 s with StaticV6 a => validate_prefixes a false | _ => Ok tt end in
  if 256 <? len (routes s) then Err "route count exceeds limit"%string
  else
    let? _ := routes_loop [] (routes s) in
    if (16 <? len (servers (dns s))) || (32 <? len (search_domains (dns s)))
    then Err "DNS configuration exceeds limit"%string
    else if existsb is_unspecified (servers (dns s))
    then Err "DNS server must not be unspecified"%string
    else
      let? _ := domains_loop (search_domains (dns s)) in
      if match mtu s with Some m => negb ((576 <=? m) && (m <=? 65535)) | None => false end
      then Err "MTU must be between 576 and 65535"%string
      else Ok tt.

(** ** Operations. *)

Record CallerIdentity := { principal : string; process_id : option Z }.

Record ManagedHostsEntry := {
  entry_address : string;
  hostname : string;
  comment : option string;
  enabled : bool;
}.

Inductive PrivilegedOperation :=
  | NetworkReadState (interface_id : string)
  | NetworkApply (interface_id : string) (desired_state : NetworkDesiredState)
      (confirm_timeout_seconds : Z)
  | NetworkRestore (snapshot_id : string)
  | HostsRead
  | HostsBackup
  | HostsRestore
  | HostsAtomicReplace (profile_id : string) (entries : list ManagedHostsEntry)
  | NicPrepareDpdk (pci_address : string)
  | NicRestoreDriver (pci_address prepare_operation_id : string)
  | HugepagePrepare (node : option Z) (pages page_size_kib : Z)
  | HugepageRelease (operation_id : string)
  | SafeApplyConfirm (operation_id : string)
  | SafeApplyRollback (operation_id : string)
  | SafeApplyListPending.

Definition operation_name (o : PrivilegedOperation) : string :=
  match o with
  | NetworkReadState _ => "network.read_state"
  | NetworkApply _ _ _ => "network.apply"
  | NetworkRestore _ => "network.restore"
  | HostsRead => "hosts.read"
  | HostsBackup => "hosts.backup"
  | HostsRestore => "hosts.restore"
  | HostsAtomicReplace _ _ => "hosts.atomic_replace"
  | NicPrepareDpdk _ => "nic.prepare_dpdk"
  | NicRestoreDriver _ _ => "nic.restore_driver"
  | HugepagePrepare _ _ _ => "hugepage.prepare"
  | HugepageRelease _ => "hugepage.release"
  | SafeApplyConfirm _ => "safe_apply.confirm"
  | SafeApplyRollback _ => "safe_apply.rollback"
  | SafeApplyListPending => "safe_apply.list_pending"
  end.

Definition non_empty (v : string) : checked :=
  if trimmed_empty v || (256 <? len (as_bytes v)) || has_control (as_bytes v)
  then Err "required identifier is empty"%string else Ok tt.

Definition is_hexdigit (b : Z) : bool :=
  ((48 <=? b) && (b <=? 57)) || ((65 <=? b) && (b <=? 70)) || ((97 <=? b) && (b <=? 102)).

Definition validate_pci_address (v : string) : checked :=
  let bs := as_bytes v in
  let valid := (len bs =? 12) &&
    match bs !! 4%nat, bs !! 7%nat, bs !! 10%nat with
    | Some a, Some b, Some c => (a =? 58) && (b =? 58) && (c =? 46)
    | _, _, _ => false
    end &&
    forallb (fun ib => match ib.1 with
                       | 4%nat | 7%nat | 10%nat => true
                       | _ => is_hexdigit ib.2
                       end) (imap pair bs) in
  if valid then Ok tt else Err "PCI address must use dddd:bb:ss.f format"%string.

Section Hosts.
Context (parse_ip : string -> option IpAddr).

Fixpoint entries_loop (es : list ManagedHostsEntry) : checked :=
  match es with
  | [] => Ok tt
  | e :: es =>
      match parse_ip (entry_address e) with
      | None => Err "hosts entry address is invalid"%string
      | Some _ =>
          let h := as_bytes (hostname e) in
          if (len h =? 0) || (253 <? len h) ||
             negb (forallb (fun b => is_alphanumeric b || (b =? 45) || (b =? 46) || (b =? 95)) h)
          then Err "hosts entry hostname is invalid"%string
          else if match comment e with
                  | Some c => existsb (fun b => (b =? 13) || (b =? 10)) (as_bytes c)
                  | None => false
                  end
          then Err "hosts entry comment contains a newline"%string
          else entries_loop es
      end
  end.

Definition validate_hosts (profile_id : string) (es : list ManagedHostsEntry) : checked :=
  let p := as_bytes profile_id in
  if (len p =? 0) || negb (forallb (fun b => is_alphanumeric b || (b =? 45) || (b =? 95)) p)
  then Err "hosts profile ID contains unsupported characters"%string
  else if 10000 <? len es then Err "managed hosts entry count exceeds limit"%string
  else entries_loop es.

(** [PrivilegedOperation::validate]. *)
Definition validate_operation (o : PrivilegedOperation) : checked :=
  match o with
  | NetworkReadState i | NetworkRestore i => non_empty i
  | NetworkApply i desired timeout =>
      let? _ := non_empty i in
      if negb ((10 <=? timeout) && (timeout <=? 600))
      then Err "confirm timeout must be between 10 and 600 seconds"%string
      else validate_desired desired
  | HostsAtomicReplace profile es => validate_hosts profile es
  | NicPrepareDpdk pci => validate_pci_address pci
  | NicRestoreDriver pci op =>
      let? _ := validate_pci_address pci in non_empty op
  | HugepagePrepare _ pages size =>
      if (pages =? 0) || (size =? 0)
      then Err "huge page count and size must be non-zero"%string
      else if match (if pages * size <=? umax 64 then Some (pages * size) else None) with
              | Some total => 1073741824 <? total
              | None => true
              end
      then Err "requested huge page capacity exceeds one TiB safety limit"%string
      else Ok tt
  | HugepageRelease op | SafeApplyConfirm op | SafeApplyRollback op => non_empty op
  | _ => Ok tt
  end.
End Hosts.

Record PrivilegedWireRequest := {
  wire_request_id : string;
  wire_operation_id : string;
  wire_operation : PrivilegedOperation;
  wire_dry_run : bool;
}.

Record PrivilegedRequest := {
  request_id : string;
  operation_id : string;
  caller_identity : CallerIdentity;
  operation : PrivilegedOperation;
  dry_run : bool;
}.

Definition authenticate (r : PrivilegedWireRequest) (c : CallerIdentity) : PrivilegedRequest :=
  {| request_id := wire_request_id r; operation_id := wire_operation_id r; caller_identity := c;
     operation := wire_operation r; dry_run := wire_dry_run r |}.

(** ** Validation accepts exactly the applicable states. *)

Definition prefix_ok (v4 : bool) (p : IpPrefix) : Prop :=
  is_ipv4 (prefix_address p) = v4 /\ prefix_length p <= (if v4 then 32 else 128) /\
  is_unspecified (prefix_address p) = false.

Definition route_ok (r : RouteConfiguration) : Prop :=
  prefix_ok (is_ipv4 (prefix_address (route_destination r))) (route_destination r) /\
  forall g, gateway r = Some g ->
    is_ipv4 g = is_ipv4 (prefix_address (route_destination r)) /\ is_unspecified g = false.

Lemma validate_prefix_spec p v4 : validate_prefix p v4 = Ok tt <-> prefix_ok v4 p.
Proof.
  unfold validate_prefix, prefix_ok.
  destruct (Bool.eqb (is_ipv4 (prefix_address p)) v4) eqn:He.
  - apply Bool.eqb_prop in He. destruct (Z.ltb_spec (if v4 then 32 else 128) (prefix_length p));
      destruct (is_unspecified (prefix_address p)); simpl; split; try done; intros (?&?&?); try done; lia.
  - split; [done|]. intros [E _]. by rewrite E, Bool.eqb_reflx in He.
Qed.

(** A duplicate check threaded through a loop is [NoDup]. *)
Lemma nodup_seen {A} (seen xs : list A) x :
  (NoDup (x :: xs) /\ Forall (fun y => y ∉ seen) (x :: xs)) <->
  (x ∉ seen /\ NoDup xs /\ Forall (fun y => y ∉ x :: seen) xs).
Proof.
  rewrite NoDup_cons, !Forall_forall. setoid_rewrite not_elem_of_cons.
  setoid_rewrite list_elem_of_In. simpl. split.
  - intros [[Hx Hn] Hs]. split_and!; [apply Hs; by left|done|]. intros y Hy. split; [|apply Hs; by right].
    intros ->. done.
  - intros (Hx&Hn&Hs). split_and!; [|done|].
    + intros Hin. by destruct (Hs x Hin).
    + intros y [<-|Hy]; [done|]. by apply Hs.
Qed.

Lemma bind_ok (m k : checked) : (let? _ := m in k) = Ok tt <-> m = Ok tt /\ k = Ok tt.
Proof. destruct m as [[]| |]; simpl; split; try done; by intros [? ?]. Qed.

Lemma reject_ok (b : bool) e (k : checked) :
  (if b then Err e else k) = Ok tt <-> b = false /\ k = Ok tt.
Proof. destruct b; split; try done; by intros [? ?]. Qed.

Lemma prefixes_loop_spec v4 ps : forall seen,
  prefixes_loop seen ps v4 = Ok tt <->
  Forall (prefix_ok v4) ps /\ NoDup ps /\ Forall (fun p => p ∉ seen) ps.
Proof.
  induction ps as [|p ps IH]; intros seen; simpl.
  { split; [|done]. intros _. split_and!; constructor. }
  rewrite bind_ok, reject_ok, bool_decide_eq_false, IH, validate_prefix_spec, Forall_cons.
  pose proof (nodup_seen seen ps p). tauto.
Qed.

Lemma len_zero {A} (l : list A) : (len l =? 0) = false <-> l <> [].
Proof. destruct l; unfold len; simpl; split; try done; intros; apply Z.eqb_neq; lia. Qed.

Lemma validate_prefixes_spec ps v4 :
  validate_prefixes ps v4 = Ok tt <->
  ps <> [] /\ len ps <= 16 /\ Forall (prefix_ok v4) ps /\ NoDup ps.
Proof.
  unfold validate_prefixes. rewrite reject_ok, orb_false_iff, len_zero, Z.ltb_ge, prefixes_loop_spec.
  assert (Forall (fun p => p ∉ []) ps) by (apply Forall_true; intros; apply not_elem_of_nil).
  tauto.
Qed.

Lemma gateway_spec r :
  (match gateway r with
   | Some g => negb (Bool.eqb (is_ipv4 g) (is_ipv4 (prefix_address (route_destination r))))
               || is_unspecified g
   | None => false
   end) = false <->
  forall g, gateway r = Some g ->
    is_ipv4 g = is_ipv4 (prefix_address (route_destination r)) /\ is_unspecified g = false.
Proof.
  destruct (gateway r) as [g|]; [|by split].
  rewrite orb_false_iff, negb_false_iff, Bool.eqb_true_iff. split; [by intros H ? [= <-]|by intros H; apply H].
Qed.

Lemma routes_loop_spec rs : forall seen,
  routes_loop seen rs = Ok tt <-> Forall route_ok rs /\ NoDup rs /\ Forall (fun r => r ∉ seen) rs.
Proof.
  induction rs as [|r rs IH]; intros seen; simpl.
  { split; [|done]. intros _. split_and!; constructor. }
  rewrite bind_ok, !reject_ok, gateway_spec, bool_decide_eq_false, IH, validate_prefix_spec, Forall_cons.
  pose proof (nodup_seen seen rs r). unfold route_ok at 2. tauto.
Qed.

Lemma domains_loop_spec ds :
  domains_loop ds = Ok tt <-> Forall (fun d => valid_domain d = true) ds.
Proof.
  induction ds as [|d ds IH]; simpl; [by split|].
  by rewrite reject_ok, negb_false_iff, IH, Forall_cons.
Qed.

(** What a desired network state must satisfy, without the order of the checks. *)
Record applicable (s : NetworkDesiredState) : Prop := {
  ok_v4 : forall a, ipv4 s = StaticV4 a ->
    a <> [] /\ len a <= 16 /\ Forall (prefix_ok true) a /\ NoDup a;
  ok_v6 : forall a, ipv6 s = StaticV6 a ->
    a <> [] /\ len a <= 16 /\ Forall (prefix_ok false) a /\ NoDup a;
  ok_routes : len (routes s) <= 256 /\ Forall route_ok (routes s) /\ NoDup (routes s);
  ok_dns : len (servers (dns s)) <= 16 /\ len (search_domains (dns s)) <= 32 /\
    Forall (fun a => is_unspecified a = false) (servers (dns s)) /\
    Forall (fun d => valid_domain d = true) (search_domains (dns s));
  ok_mtu : forall m, mtu s = Some m -> 576 <= m <= 65535;
}.

Lemma existsb_false {A} (f : A -> bool) l : existsb f l = false <-> Forall (fun a => f a = false) l.
Proof.
  induction l as [|a l IH]; simpl; [by split|]. by rewrite orb_false_iff, IH, Forall_cons.
Qed.

Lemma mtu_spec m :
  match m with Some m => negb ((576 <=? m) && (m <=? 65535)) | None => false end = false <->
  forall v, m = Some v -> 576 <= v <= 65535.
Proof.
  destruct m as [m|]; [|by split].
  rewrite negb_false_iff, andb_true_iff, !Z.leb_le. split; [by intros H ? [= <-]|by intros H; apply H].
Qed.

(** Validation returns: none of its checks panics. *)
Lemma reject_total (b : bool) e (k : checked) : k <> Panic -> (if b then Err e else k) <> Panic.
Proof. by destruct b. Qed.

Lemma bind_total (m k : checked) : m <> Panic -> k <> Panic -> (let? _ := m in k) <> Panic.
Proof. by destruct m. Qed.

Lemma validate_prefix_total p v4 : validate_prefix p v4 <> Panic.
Proof. unfold validate_prefix. by apply reject_total. Qed.

Lemma prefixes_total ps v4 : validate_prefixes ps v4 <> Panic.
Proof.
  unfold validate_prefixes. apply reject_total. generalize (@nil IpPrefix) as seen.
  induction ps as [|p ps IH]; intros seen; simpl; [done|].
  apply bind_total; [apply validate_prefix_total|by apply reject_total].
Qed.

Lemma routes_total rs : forall seen, routes_loop seen rs <> Panic.
Proof.
  induction rs as [|r rs IH]; intros seen; simpl; [done|].
  apply bind_total; [apply validate_prefix_total|by apply reject_total, reject_total].
Qed.

Lemma domains_total ds : domains_loop ds <> Panic.
Proof. induction ds as [|d ds IH]; simpl; [done|]. by apply reject_total. Qed.

Lemma validate_desired_total s : validate_desired s <> Panic.
Proof.
  unfold validate_desired. apply bind_total; [destruct (ipv4 s); try done; apply prefixes_total|].
  apply bind_total; [destruct (ipv6 s); try done; apply prefixes_total|].
  apply reject_total, bind_total; [apply routes_total|].
  apply reject_total, reject_total, bind_total; [apply domains_total|by apply reject_total].
Qed.

(** A desired network state is accepted exactly when it is applicable: the
    static address lists are non-empty, of at most sixteen distinct prefixes of
    the right family and length; at most 256 distinct routes, whose gateways are
    of the family of the destination; bounded DNS lists without unspecified
    servers and with valid domains only; and an MTU in 576..=65535. The
    acceptance does not depend on the order in which the checks are made. *)
Theorem desired_state_validation s : validate_desired s = Ok tt <-> applicable s.
Proof.
  unfold validate_desired.
  rewrite !bind_ok, !reject_ok, bind_ok, !reject_ok, bind_ok, reject_ok, routes_loop_spec,
    domains_loop_spec, mtu_spec, existsb_false, orb_false_iff, !Z.ltb_ge.
  assert (Forall (fun r => r ∉ []) (routes s)) by (apply Forall_true; intros; apply not_elem_of_nil).
  assert (H4 : (match ipv4 s with StaticV4 a => validate_prefixes a true | _ => Ok tt end) = Ok tt <->
    (forall a, ipv4 s = StaticV4 a -> a <> [] /\ len a <= 16 /\ Forall (prefix_ok true) a /\ NoDup a)).
  { destruct (ipv4 s) as [|l|]; [by split| |by split]. rewrite validate_prefixes_spec.
    split; [by intros ?? [= <-]|by intros E; apply E]. }
  assert (H6 : (match ipv6 s with StaticV6 a => validate_prefixes a false | _ => Ok tt end) = Ok tt <->
    (forall a, ipv6 s = StaticV6 a -> a <> [] /\ len a <= 16 /\ Forall (prefix_ok false) a /\ NoDup a)).
  { destruct (ipv6 s) as [|l|]; [by split| |by split]. rewrite validate_prefixes_spec.
    split; [by intros ?? [= <-]|by intros E; apply E]. }
  rewrite H4, H6. split; [intros; constructor; tauto|intros []; tauto].
Qed.

Lemma non_empty_total v : non_empty v <> Panic.
Proof. unfold non_empty. by case_match. Qed.

Lemma pci_total v : validate_pci_address v <> Panic.
Proof. unfold validate_pci_address. by case_match. Qed.

(** Validation of an operation never panics. *)
Lemma validate_operation_total parse_ip o : validate_operation parse_ip o <> Panic.
Proof.
  destruct o; simpl; try apply non_empty_total; try apply pci_total; try done.
  - apply bind_total; [apply non_empty_total|]. apply reject_total, validate_desired_total.
  - unfold validate_hosts. apply reject_total, reject_total.
    induction entries as [|e es IH]; [done|]. simpl.
    destruct (parse_ip (entry_address e)); [|done]. by apply reject_total, reject_total.
  - apply bind_total; [apply pci_total|apply non_empty_total].
  - apply reject_total. by case_match; case_match.
Qed.
