(* ===== verification/Hosts.v ===== *)
(** * The managed section of the hosts file

    Model of [crates/helper-core/src/hosts.rs]: the text of a hosts file with the
    section of one profile replaced or appended. Text is its UTF-8 bytes. *)

From stdpp Require Import base list sets strings.
From Stdlib Require Import ZArith Lia.
From S2P Require Import Prelude ErrorModel Text HelperProtocol.
Open Scope Z_scope.

Record ManagedHostsEntry := {
  address : IpAddr;
  hostname : string;
  comment : option string;
  enabled : bool;
}.

Definition hosts_error {A} (m : string) : res A := err InvalidArgument m.

Definition validate_profile_id (profile_id : string) : res unit :=
  let p := as_bytes profile_id in
  if bool_decide (p = []) || negb (forallb (fun b => is_alphanumeric b || (b =? 45) || (b =? 95)) p)
  then hosts_error "hosts profile ID contains unsupported characters"
  else Ok tt.

Definition validate_entry (e : ManagedHostsEntry) : res unit :=
  let h := as_bytes (hostname e) in
  if bool_decide (h = []) || (253 <? len h)
     || negb (forallb (fun b => is_alphanumeric b || (b =? 45) || (b =? 46) || (b =? 95)) h)
  then hosts_error "hosts entry hostname is invalid"
  else if match comment e with
          | Some c => existsb (fun b => (b =? 13) || (b =? 10)) (as_bytes c)
          | None => false
          end
  then hosts_error "hosts entry comment contains a newline"
  else Ok tt.

Fixpoint validate_entries (es : list ManagedHostsEntry) : res unit :=
  match es with
  | [] => Ok tt
  | e :: es => let? _ := validate_entry e in validate_entries es
  end.

Definition BEGIN_MARKER : bytes := as_bytes "# BEGIN NETTOOL PROFILE ".
Definition begin_marker (profile_id : string) : bytes := BEGIN_MARKER ++ as_bytes profile_id.
Definition end_marker (profile_id : string) : bytes :=
  as_bytes "# END NETTOOL PROFILE " ++ as_bytes profile_id.

(** The line of an entry. *)
Definition entry_line (e : ManagedHostsEntry) : bytes :=
  (if enabled e then [] else as_bytes "# NETTOOL DISABLED ")
  ++ as_bytes (ip_to_string (address e)) ++ [32] ++ as_bytes (hostname e)
  ++ match comment e with None => [] | Some c => as_bytes " # " ++ as_bytes c end.

Definition section (first last : bytes) (es : list ManagedHostsEntry) : list bytes :=
  first :: map entry_line es ++ [last].

Definition render_section (first last : bytes) (es : list ManagedHostsEntry) (newline : bytes) : bytes :=
  join newline (section first last es) ++ newline.

(** The indices of the lines that are a marker. *)
Fixpoint positions (marker : bytes) (i : Z) (ls : list bytes) : list Z :=
  match ls with
  | [] => []
  | l :: ls =>
      if bool_decide (trim l = marker) then i :: positions marker (i + 1) ls
      else positions marker (i + 1) ls
  end.

(** The section is appended after an empty line. *)
Definition append_section (existing newline managed : bytes) : bytes :=
  let result := existing in
  let result :=
    if negb (bool_decide (result = [])) && negb (ends_with [10] result || ends_with [13] result)
    then result ++ newline else result in
  let result :=
    if negb (bool_decide (result = [])) && negb (ends_with (newline ++ newline) result)
    then result ++ newline else result in
  result ++ managed.

Definition nested (l : bytes) : bool := starts_with BEGIN_MARKER (trim l).

Definition replace_managed_section (existing : bytes) (profile_id : string)
    (es : list ManagedHostsEntry) : res bytes :=
  let? _ := validate_profile_id profile_id in
  let? _ := validate_entries es in
  let first := begin_marker profile_id in
  let last := end_marker profile_id in
  let newline := newline_of (contains CRLF existing) in
  let ls := lines existing in
  let begins := positions first 0 ls in
  let ends := positions last 0 ls in
  if (1 <? len begins) || (1 <? len ends) || negb (len begins =? len ends)
  then hosts_error "managed hosts markers are missing or duplicated"
  else
    let managed := render_section first last es newline in
    match begins with
    | [] => Ok (append_section existing newline managed)
    | start :: _ =>
        let? finish := index ends 0 in
        let? inside := (if finish <? start then Ok [] else slice ls (start + 1) finish) in
        if (finish <? start) || existsb nested inside
        then hosts_error "managed hosts markers are nested or out of order"
        else
          let? before := slice ls 0 start in
          let? after := slice_from ls (finish + 1) in
          let output := before ++ split newline (trim_end_matches CRLF managed) ++ after in
          let result := join newline output in
          Ok (if ends_with [10] existing then result ++ newline else result)
    end.

Definition sample_entry (name : string) (on : bool) : ManagedHostsEntry :=
  {| address := V4 3221225985; hostname := name; comment := None; enabled := on |}.

Definition lf_lines (ls : list string) : bytes := mjoin (map (fun l => as_bytes l ++ [10]) ls).

Example replaces_only_matching_managed_section :
  replace_managed_section
    (lf_lines ["before"; "# BEGIN NETTOOL PROFILE lab"; "192.0.2.9 old.lab"; "# END NETTOOL PROFILE lab"; "after"])
    "lab" [sample_entry "new.lab" true] =
  Ok (lf_lines ["before"; "# BEGIN NETTOOL PROFILE lab"; "192.0.2.1 new.lab"; "# END NETTOOL PROFILE lab"; "after"]).
Proof. by vm_compute. Qed.

Example preserves_all_unmanaged_content :
  replace_managed_section (lf_lines ["127.0.0.1 localhost"; "# user entry"]) "lab" [sample_entry "api.lab" false] =
  Ok (lf_lines ["127.0.0.1 localhost"; "# user entry"; ""; "# BEGIN NETTOOL PROFILE lab";
                "# NETTOOL DISABLED 192.0.2.1 api.lab"; "# END NETTOOL PROFILE lab"]).
Proof. by vm_compute. Qed.

Example rejects_unbalanced_markers :
  replace_managed_section (lf_lines ["# BEGIN NETTOOL PROFILE lab"]) "lab" [] =
  hosts_error "managed hosts markers are missing or duplicated".
Proof. by vm_compute. Qed.

(** ** The lines of a section. *)

Definition printable (c : Z) : Prop := 32 <= c <= 126.

Lemma printable_clean l : Forall printable l -> clean l.
Proof.
  intros Hl. split; intros Hin; rewrite Forall_forall in Hl; apply Hl in Hin; unfold printable in Hin; lia.
Qed.

Lemma alphanumeric_visible b : is_alphanumeric b = true -> visible b.
Proof. unfold is_alphanumeric, visible. lia. Qed.

Lemma profile_chars id : validate_profile_id id = Ok tt ->
  exists q c, as_bytes id = q ++ [c] /\ Forall visible (as_bytes id).
Proof.
  unfold validate_profile_id. case_bool_decide as Hne; [done|]. simpl.
  destruct (forallb _ _) eqn:Hf; [intros _|done].
  destruct (as_bytes id) as [|c q _] using rev_ind; [done|]. exists q, c. split; [done|].
  apply Forall_forall. intros b Hb. rewrite forallb_forall in Hf.
  specialize (Hf b ltac:(by apply list_elem_of_In)). unfold visible, is_alphanumeric in *. lia.
Qed.

Lemma visible_printable l : Forall visible l -> Forall printable l.
Proof. intros H. eapply Forall_impl; [exact H|]. unfold visible, printable. lia. Qed.

Lemma printable_ascii l : forallb (fun b => (32 <=? b) && (b <=? 126)) l = true -> Forall printable l.
Proof.
  rewrite forallb_forall. intros H. apply Forall_forall. intros b Hb.
  specialize (H b ltac:(by apply list_elem_of_In)). unfold printable. lia.
Qed.

Section Markers.
Context (id : string) (Hid : validate_profile_id id = Ok tt).

Lemma marker_facts h : h = BEGIN_MARKER \/ h = as_bytes "# END NETTOOL PROFILE " ->
  clean (h ++ as_bytes id) /\ trim (h ++ as_bytes id) = h ++ as_bytes id /\
  exists l c, h ++ as_bytes id = l ++ [c] /\ visible c.
Proof.
  intros Hh. destruct (profile_chars id Hid) as (q&c&Hq&Hv).
  assert (Forall printable h) as Hp.
  { by destruct Hh as [->| ->]; apply printable_ascii. }
  assert (visible c) as Hc.
  { rewrite Hq in Hv. by apply Forall_app in Hv as [_ [? _]%Forall_cons]. }
  split_and!.
  - apply printable_clean, Forall_app. split; [done|by apply visible_printable].
  - unfold trim. assert (trim_start (h ++ as_bytes id) = h ++ as_bytes id) as ->.
    { destruct Hh as [->| ->]; apply (trim_start_visible 35); unfold visible; lia. }
    rewrite Hq, (assoc_L (++)). by apply trim_end_visible.
  - exists (h ++ q), c. by rewrite Hq, (assoc_L (++)).
Qed.

Lemma begin_facts : clean (begin_marker id) /\ trim (begin_marker id) = begin_marker id.
Proof. destruct (marker_facts BEGIN_MARKER) as (?&?&_); [by left|done]. Qed.

Lemma end_facts : clean (end_marker id) /\ trim (end_marker id) = end_marker id /\
  exists l c, end_marker id = l ++ [c] /\ visible c.
Proof. apply (marker_facts (as_bytes "# END NETTOOL PROFILE ")). by right. Qed.

End Markers.

Lemma markers_differ id id' : begin_marker id <> end_marker id'.
Proof. unfold begin_marker, end_marker, BEGIN_MARKER. intros H. apply (f_equal (take 3)) in H. discriminate H. Qed.

Lemma entry_clean e : validate_entry e = Ok tt -> clean (entry_line e).
Proof.
  unfold validate_entry. destruct (_ || _) eqn:Hh; [done|]. destruct (match comment e with Some _ => _ | None => _ end) eqn:Hc; [done|].
  intros _. apply orb_false_iff in Hh as [_ Hh%negb_false_iff]. rewrite forallb_forall in Hh.
  assert (Forall printable (as_bytes (hostname e))) as Hhost.
  { apply Forall_forall. intros b Hb. specialize (Hh b ltac:(by apply list_elem_of_In)).
    unfold printable, is_alphanumeric in *. lia. }
  assert (Forall printable (as_bytes (ip_to_string (address e)))) as Hip.
  { eapply Forall_impl; [apply ip_chars|]. unfold ip_char, printable. lia. }
  assert (forall x y, clean x -> clean y -> clean (x ++ y)) as Happ.
  { intros x y [? ?] [? ?]. split; rewrite elem_of_app; tauto. }
  unfold entry_line. repeat apply Happ; try by apply printable_clean.
  - apply printable_clean. destruct (enabled e); [apply Forall_nil_2|]. by apply printable_ascii.
  - by apply printable_clean, printable_ascii.
  - destruct (comment e) as [c|]; [|by split; apply not_elem_of_nil].
    apply Happ; [by apply printable_clean, printable_ascii|].
    split; intros Hin; rewrite <- not_true_iff_false in Hc; apply Hc, existsb_exists;
      eexists; (split; [by apply list_elem_of_In|done]).
Qed.

(** An entry is no marker: its third character is not that of one, or it begins otherwise. *)
Lemma trim_first c l : visible c -> exists t, c :: l = trim (c :: l) ++ t.
Proof. intros Hc. unfold trim. rewrite trim_start_visible by done. apply trim_end_prefix. Qed.

Lemma entry_first e : exists c t, entry_line e = c :: t /\ visible c /\
  (c = 35 -> take 2 t = [32; 78]).
Proof.
  unfold entry_line. destruct (enabled e).
  - pose proof (ip_chars (address e)) as Hip. pose proof (ip_nonempty (address e)) as Hne.
    destruct (as_bytes (ip_to_string (address e))) as [|c t]; [done|].
    apply Forall_cons in Hip as [Hc _]. exists c. eexists. split; [done|].
    unfold ip_char, visible in *. split; [lia|]. intros ->. lia.
  - change (as_bytes "# NETTOOL DISABLED ") with (35 :: 32 :: 78 :: as_bytes "ETTOOL DISABLED ").
    exists 35. eexists. split; [reflexivity|]. split; [unfold visible; lia|done].
Qed.

Lemma entry_no_marker e b t : b <> 78 -> trim (entry_line e) = [35; 32; b] ++ t -> False.
Proof.
  intros Hb Ht. destruct (entry_first e) as (c&s&He&Hc&Hs). rewrite He in Ht.
  destruct (trim_first c s Hc) as [u Hu]. rewrite Ht in Hu. injection Hu as -> Hs'.
  rewrite Hs' in Hs. specialize (Hs eq_refl). simpl in Hs. congruence.
Qed.

(** ** Where a profile has its section. *)

Definition free (id : string) (l : bytes) : Prop := trim l <> begin_marker id /\ trim l <> end_marker id.

(** Nowhere, or between the lines [before] and [after]. *)
Inductive placed (id : string) (ls : list bytes) : option (list bytes * list bytes) -> Prop :=
  | placed_nowhere : Forall (free id) ls -> placed id ls None
  | placed_between before first inside last after :
      ls = before ++ first :: inside ++ last :: after ->
      trim first = begin_marker id -> trim last = end_marker id ->
      Forall (free id) before -> Forall (free id) inside -> Forall (free id) after ->
      Forall (fun l => nested l = false) inside -> placed id ls (Some (before, after)).

Lemma positions_app m i l1 l2 :
  positions m i (l1 ++ l2) = positions m i l1 ++ positions m (i + len l1) l2.
Proof.
  revert i. induction l1 as [|l l1 IH]; intros i; [by rewrite Z.add_0_r|]. simpl. rewrite IH.
  replace (i + 1 + len l1) with (i + len (l :: l1)) by (unfold len; simpl; lia). by case_bool_decide.
Qed.

Lemma positions_none m i ls : positions m i ls = [] <-> Forall (fun l => trim l <> m) ls.
Proof.
  revert i. induction ls as [|l ls IH]; intros i; [done|]. simpl. rewrite Forall_cons, <- (IH (i + 1)).
  case_bool_decide; naive_solver.
Qed.

Lemma positions_one m i ls k : positions m i ls = [k] -> exists pre l post,
  ls = pre ++ l :: post /\ k = i + len pre /\ trim l = m /\
  Forall (fun l => trim l <> m) pre /\ Forall (fun l => trim l <> m) post.
Proof.
  revert i. induction ls as [|l ls IH]; intros i; [done|]. simpl. case_bool_decide as Hl.
  - intros [= <- Hp%positions_none]. exists [], l, ls. split_and!; [done|by rewrite Z.add_0_r|done..].
  - intros (pre&l'&post&->&->&Hl'&Hpre&Hpost)%IH. exists (l :: pre), l', post.
    split_and!; [done|unfold len; simpl; lia|done|by constructor|done].
Qed.

Lemma free_both id ls : Forall (free id) ls <->
  Forall (fun l => trim l <> begin_marker id) ls /\ Forall (fun l => trim l <> end_marker id) ls.
Proof. rewrite <- Forall_and. done. Qed.

Lemma positions_placed id before first inside last after :
  trim first = begin_marker id -> trim last = end_marker id ->
  Forall (free id) before -> Forall (free id) inside -> Forall (free id) after ->
  let ls := before ++ first :: inside ++ last :: after in
  positions (begin_marker id) 0 ls = [len before] /\
  positions (end_marker id) 0 ls = [len before + 1 + len inside].
Proof.
  intros Hf Hl [Hb1 Hb2]%free_both [Hi1 Hi2]%free_both [Ha1 Ha2]%free_both ls. unfold ls.
  pose proof (markers_differ id id) as Hd.
  rewrite !positions_app, !(proj2 (positions_none _ _ before)) by done.
  cbn [app positions]. rewrite Hf, !(bool_decide_true (_ = _)), (bool_decide_false (_ = end_marker id)) by done.
  rewrite !positions_app, !(proj2 (positions_none _ _ inside)) by done. cbn [app positions].
  rewrite Hl, (bool_decide_false (_ = begin_marker id)), bool_decide_true by congruence.
  by rewrite !(proj2 (positions_none _ _ after)) by done.
Qed.

(** ** The result. *)

Definition valid_section (id : string) (es : list ManagedHostsEntry) : Prop :=
  validate_profile_id id = Ok tt /\ Forall (fun e => validate_entry e = Ok tt) es.

Lemma entries_valid es : validate_entries es = Ok tt <-> Forall (fun e => validate_entry e = Ok tt) es.
Proof.
  induction es as [|e es IH]; [done|]. simpl. rewrite Forall_cons, <- IH.
  destruct (validate_entry e) as [[]|x|]; simpl; naive_solver.
Qed.

Definition section_of (id : string) (es : list ManagedHostsEntry) : list bytes :=
  section (begin_marker id) (end_marker id) es.

Lemma section_clean id es : valid_section id es -> Forall clean (section_of id es).
Proof.
  intros [Hid Hes]. unfold section_of, section. apply Forall_cons. split; [by apply begin_facts|].
  apply Forall_app. split; [|by apply Forall_singleton, end_facts].
  apply Forall_fmap. eapply Forall_impl; [exact Hes|]. apply entry_clean.
Qed.

Lemma section_split id es crlf : valid_section id es ->
  split (newline_of crlf) (trim_end_matches CRLF
    (render_section (begin_marker id) (end_marker id) es (newline_of crlf))) = section_of id es.
Proof.
  intros Hv. pose proof (section_clean id es Hv) as Hc. destruct Hv as [Hid _].
  destruct (end_facts id Hid) as (_&_&l&c&He&Hvis). unfold visible in Hvis.
  unfold render_section, section_of, section in *. rewrite app_comm_cons in *. rewrite join_snoc, He.
  rewrite <- (assoc_L (++)), <- (assoc_L (++)), (assoc_L (++) _ l).
  rewrite trim_newline by lia. rewrite <- (assoc_L (++)), <- He, <- join_snoc. by apply split_join.
Qed.

Definition result_of (existing : bytes) (id : string) (es : list ManagedHostsEntry)
    (p : option (list bytes * list bytes)) : bytes :=
  let newline := newline_of (contains CRLF existing) in
  match p with
  | None => append_section existing newline (render_section (begin_marker id) (end_marker id) es newline)
  | Some (before, after) =>
      join newline (before ++ section_of id es ++ after) ++ if ends_with [10] existing then newline else []
  end.

Lemma inside_slice {E} (pre mid post : list bytes) l1 l2 :
  slice (E := E) (pre ++ l1 :: mid ++ l2 :: post) (len pre + 1) (len pre + 1 + len mid) = Ok mid.
Proof.
  replace (pre ++ l1 :: mid ++ l2 :: post) with ((pre ++ [l1]) ++ mid ++ l2 :: post) by (by rewrite <- (assoc_L (++))).
  apply slice_app; rewrite len_app, len_cons, len_nil; lia.
Qed.

Lemma before_slice {E} (pre rest : list bytes) : slice (E := E) (pre ++ rest) 0 (len pre) = Ok pre.
Proof. apply (slice_app [] pre); [done|]. rewrite len_nil. lia. Qed.

Lemma after_slice {E} (pre mid post : list bytes) l1 l2 :
  slice_from (E := E) (pre ++ l1 :: mid ++ l2 :: post) (len pre + 1 + len mid + 1) = Ok post.
Proof.
  replace (pre ++ l1 :: mid ++ l2 :: post) with ((pre ++ l1 :: mid ++ [l2]) ++ post ++ [])
    by (rewrite app_nil_r, <- (assoc_L (++)); simpl; by rewrite <- (assoc_L (++))).
  unfold slice_from. apply slice_app; rewrite !len_app, !len_cons, ?len_app, ?len_cons, !len_nil; lia.
Qed.

Lemma many_markers (b e : list Z) : (forall i k, ~ (b = [] /\ e = [] \/ b = [i] /\ e = [k])) ->
  (1 <? len b) || (1 <? len e) || negb (len b =? len e) = true.
Proof.
  intros Hn. pose proof (len_nonneg (tail (tail b))). pose proof (len_nonneg (tail (tail e))).
  destruct b as [|i [|j b]], e as [|k [|k' e]]; simpl in *; rewrite ?len_cons, ?len_nil;
    try lia; first [by destruct (Hn 0 0); left|by destruct (Hn i k); right].
Qed.

Lemma single_markers (i k : Z) : (1 <? len [i]) || (1 <? len [k]) || negb (len [i] =? len [k]) = false.
Proof. done. Qed.

Lemma index_single {E} (k : Z) : index (E := E) [k] 0 = Ok k.
Proof. done. Qed.

Lemma replace_placed existing id es p : valid_section id es -> placed id (lines existing) p ->
  replace_managed_section existing id es = Ok (result_of existing id es p).
Proof.
  intros Hv Hp. pose proof Hv as [Hid Hes%entries_valid]. unfold replace_managed_section.
  rewrite Hid, Hes. cbn [obind]. inversion Hp as [Hf|pre l1 mid l2 post Hls H1 H2 Hpre Hmid Hpost Hn]; subst p.
  - apply free_both in Hf as [->%(positions_none _ 0) ->%(positions_none _ 0)]. done.
  - rewrite Hls. destruct (positions_placed id pre l1 mid l2 post H1 H2 Hpre Hmid Hpost) as [-> ->].
    pose proof (len_nonneg pre). pose proof (len_nonneg mid). pose proof (len_nonneg post).
    rewrite single_markers, index_single. cbn [obind].
    assert (len pre + 1 + len mid <? len pre = false) as -> by (apply Z.ltb_ge; lia).
    assert (slice (E := NetToolError) (pre ++ l1 :: mid ++ l2 :: post) (len pre + 1) (len pre + 1 + len mid) = Ok mid) as ->
      by apply inside_slice.
    cbn [obind orb]. rewrite (proj2 (existsb_false nested mid)) by done.
    rewrite before_slice, after_slice.
    cbn [obind]. rewrite section_split by done. unfold result_of.
    destruct (ends_with [10] existing); [done|by rewrite app_nil_r].
Qed.

Lemma free_app id l1 l2 : Forall (free id) (l1 ++ l2) <-> Forall (free id) l1 /\ Forall (free id) l2.
Proof. apply Forall_app. Qed.

(** Two single markers, the end after the begin. *)
Lemma markers_between id ls i k :
  positions (begin_marker id) 0 ls = [i] -> positions (end_marker id) 0 ls = [k] -> i <= k ->
  exists before first inside last after, ls = before ++ first :: inside ++ last :: after /\
    trim first = begin_marker id /\ trim last = end_marker id /\ i = len before /\
    k = len before + 1 + len inside /\
    Forall (free id) before /\ Forall (free id) inside /\ Forall (free id) after.
Proof.
  intros Hb He Hik. pose proof (markers_differ id id) as Hd.
  destruct (positions_one _ _ _ _ Hb) as (pre&l1&rest&->&->&H1&Hpre&Hrest).
  rewrite positions_app in He. cbn [positions] in He.
  rewrite (bool_decide_false (trim l1 = _)) in He by congruence.
  assert (positions (end_marker id) 0 pre = []) as Hp.
  { destruct (positions (end_marker id) 0 pre) as [|x xs] eqn:Hp; [done|].
    injection He as -> [-> _]%app_eq_nil. apply positions_one in Hp as (p1&l&p2&->&->&_).
    exfalso. clear -Hik. unfold len in Hik. rewrite length_app in Hik. cbn [length] in Hik. lia. }
  rewrite Hp in He. apply positions_one in He as (mid&l2&post&->&->&H2&Hmid&Hpost).
  apply Forall_app in Hrest as [Hm [_ Hpo]%Forall_cons]. apply positions_none in Hp.
  exists pre, l1, mid, l2, post. rewrite !free_both. by split_and!.
Qed.

Lemma replace_total existing id es : validate_profile_id id <> Panic /\
  replace_managed_section existing id es <> Panic /\
  forall r, replace_managed_section existing id es = Ok r ->
    valid_section id es /\ exists p, placed id (lines existing) p.
Proof.
  split; [unfold validate_profile_id; by case_match|].
  unfold replace_managed_section. 
  destruct (validate_profile_id id) as [[]|e|] eqn:Hid; cbn [obind]; [|done|].
  2: { revert Hid. unfold validate_profile_id. by case_match. }
  assert (validate_entries es <> Panic) as Hes.
  { induction es as [|e es IH]; [done|]. simpl. unfold validate_entry. by repeat case_match. }
  destruct (validate_entries es) as [[]|e|] eqn:Hv; cbn [obind]; [|done|done].
  assert (valid_section id es) as Hvalid by (split; [done|by apply entries_valid]).
  set (ls := lines existing).
  destruct (positions (begin_marker id) 0 ls) as [|i [|j l]] eqn:Hb;
    destruct (positions (end_marker id) 0 ls) as [|k [|k' l']] eqn:He;
    try (rewrite many_markers; [done|naive_solver]).
  - split; [done|]. intros r _. split; [exact Hvalid|]. exists None. constructor. apply free_both.
    split; by apply (positions_none _ 0).
  - rewrite single_markers, index_single. cbn [obind].
    destruct (Z.ltb_spec k i) as [Hki|Hik]; [done|].
    destruct (markers_between id ls i k Hb He Hik) as (pre&l1&mid&l2&post&Hls&H1&H2&Hi&Hk&Hpre&Hmid&Hpost).
    rewrite Hls. subst i k.
    assert (slice (E := NetToolError) (pre ++ l1 :: mid ++ l2 :: post) (len pre + 1) (len pre + 1 + len mid) = Ok mid) as ->
      by apply inside_slice.
    cbn [obind orb]. destruct (existsb nested mid) eqn:Hn; [done|].
    assert (placed id (pre ++ l1 :: mid ++ l2 :: post) (Some (pre, post))) as Hp.
    { eapply placed_between; try done. by apply existsb_false. }
    rewrite before_slice, after_slice. cbn [obind]. split; [done|]. intros r _.
    split; [exact Hvalid|]. by eexists.
Qed.

(** ** The lines of the result. *)

Lemma clean_no_cr l : clean l -> ends_cr l = false.
Proof.
  intros [_ Hl]. unfold ends_cr. apply bool_decide_eq_false. intros Hx. apply last_Some in Hx as [k ->].
  apply Hl, elem_of_app. right. by left.
Qed.

Lemma ended_app {A} term (init k : list A) z : ended term (init ++ k) z = init ++ ended term k z.
Proof. unfold ended. by rewrite (assoc_L (++)). Qed.

(** A section in place of another one keeps a text sound. *)
Lemma sound_replace crlf term before mid after init z sec s :
  before ++ mid ++ after = init ++ [z] -> sound crlf term init z -> mid <> [] ->
  sec <> [] -> s <> [] -> Forall clean (sec ++ [s]) ->
  exists init' z', before ++ (sec ++ [s]) ++ after = init' ++ [z'] /\ sound crlf term init' z' /\
    ended term init' z' <> [].
Proof.
  intros Heq [Hl Hcr Hz] Hmid Hsec Hs Hc.
  assert (Forall one_line (sec ++ [s])) as Ho.
  { eapply Forall_impl; [exact Hc|]. by intros l []. }
  assert (Forall (fun l => ends_cr l = false) (sec ++ [s])) as Hn.
  { eapply Forall_impl; [exact Hc|]. apply clean_no_cr. }
  assert (forall k y, before ++ sec ++ k ++ y <> []) as Hne.
  { intros k y. rewrite !app_nil. intros (_&Hx&_). by apply Hsec. }
  rewrite <- Heq, !Forall_app in Hl. destruct Hl as (Hlb&_&Hla).
  destruct after as [|z0 after _] using rev_ind.
  - exists (before ++ sec), s. rewrite app_nil_r, (assoc_L (++)). split; [done|].
    destruct mid as [|z0 mid _] using rev_ind; [done|]. rewrite app_nil_r, (assoc_L (++)) in Heq.
    apply app_inj_2 in Heq as [<- _]; [|done]. split; [split|].
    + rewrite <- (assoc_L (++)). apply Forall_app. done.
    + intros Hf. specialize (Hcr Hf). unfold ended in Hcr. rewrite !Forall_app in Hcr.
      destruct Hcr as [[Hb _] _]. rewrite Forall_app in Hn. unfold ended.
      rewrite !Forall_app. destruct Hn as [? ?]. destruct term; by repeat split.
    + done.
    + unfold ended. rewrite <- (assoc_L (++)). specialize (Hne [] (if term then [s] else [])). done.
  - rewrite !(assoc_L (++)) in Heq. apply app_inj_2 in Heq as [Hi [= ->]]; [|done].
    exists (before ++ (sec ++ [s]) ++ after), z. rewrite !(assoc_L (++)). split; [done|]. split; [split|].
    + rewrite <- !(assoc_L (++)), !Forall_app in *. tauto.
    + intros Hf. specialize (Hcr Hf). rewrite <- Hi in Hcr. unfold ended in *.
      rewrite <- !(assoc_L (++)), !Forall_app in *. tauto.
    + done.
    + unfold ended. rewrite <- !(assoc_L (++)). apply Hne.
Qed.

Lemma end_marker_nonempty id : end_marker id <> [].
Proof. unfold end_marker. intros [H _]%app_nil. discriminate H. Qed.

Lemma result_text existing id es before first inside last after :
  valid_section id es -> lines existing = before ++ first :: inside ++ last :: after ->
  exists init z, before ++ section_of id es ++ after = init ++ [z] /\
    sound (contains CRLF existing) (ends_with [10] existing) init z /\
    ended (ends_with [10] existing) init z <> [] /\
    result_of existing id es (Some (before, after)) =
      text (contains CRLF existing) (ends_with [10] existing) init z.
Proof.
  intros Hv Hls. pose proof (section_clean id es Hv) as Hc.
  assert (exists init z, lines existing = init ++ [z]) as (init&z&Hi).
  { destruct (lines existing) as [|z init _] using rev_ind; [|by exists init, z].
    symmetry in Hls. apply app_nil in Hls as [_ ?]. done. }
  pose proof (lines_sound existing init z Hi) as Hs. rewrite Hls in Hi.
  replace (first :: inside ++ last :: after) with ((first :: inside ++ [last]) ++ after) in Hi
    by (simpl; by rewrite <- (assoc_L (++))).
  unfold section_of, section in *. rewrite app_comm_cons in *.
  destruct (sound_replace _ _ before (first :: inside ++ [last]) after init z (begin_marker id :: map entry_line es)
    (end_marker id) Hi Hs ltac:(done) ltac:(done)
    (end_marker_nonempty id) Hc) as (init'&z'&He&Hs'&Hne).
  exists init', z'. split; [done|]. split_and!; [done|done|].
  unfold result_of, text, section_of, section. rewrite app_comm_cons, He. done.
Qed.

(** The text outside the section, line by line, its newline and its end are kept. *)
Lemma result_lines existing id es before first inside last after :
  valid_section id es -> lines existing = before ++ first :: inside ++ last :: after ->
  let r := result_of existing id es (Some (before, after)) in
  lines r = before ++ section_of id es ++ after /\ ends_with [10] r = ends_with [10] existing /\
  contains CRLF r = contains CRLF existing.
Proof.
  intros Hv Hls r. destruct (result_text existing id es _ _ _ _ _ Hv Hls) as (init&z&He&Hs&Hne&Hr).
  unfold r. rewrite Hr, He. split_and!; [by apply text_lines|by apply text_ends|by apply text_newline].
Qed.

Lemma render_lines id es crlf : valid_section id es ->
  lines (render_section (begin_marker id) (end_marker id) es (newline_of crlf)) = section_of id es.
Proof.
  intros Hv. pose proof (section_clean id es Hv) as Hc. unfold section_of, section in *.
  rewrite app_comm_cons in *. apply (text_lines crlf true (begin_marker id :: map entry_line es) (end_marker id)). split; [| |done].
  - eapply Forall_impl; [exact Hc|]. by intros l [].
  - intros _. eapply Forall_impl; [exact Hc|]. apply clean_no_cr.
Qed.

(** What is put between the text and an appended section. *)
Lemma append_gap existing crlf managed : exists gap,
  append_section existing (newline_of crlf) managed = existing ++ gap ++ managed /\
  (gap = [] \/ gap = newline_of crlf \/ gap = newline_of crlf ++ newline_of crlf) /\
  (existing ++ gap = [] \/ ends_with [10] (existing ++ gap) = true).
Proof.
  unfold append_section. set (n := newline_of crlf).
  assert (forall x, exists gap,
    (if negb (bool_decide (x = [])) && negb (ends_with (n ++ n) x) then x ++ n else x) = x ++ gap /\
    (gap = [] \/ gap = n) /\ (x ++ gap = [] \/ ends_with [10] (x ++ gap) = true)) as Hsecond.
  { intros x. case_bool_decide as Hx; simpl.
    - exists []. rewrite app_nil_r. split_and!; [done|by left|by left].
    - destruct (ends_with (n ++ n) x) eqn:He; simpl.
      + exists []. rewrite app_nil_r. split_and!; [done|by left|right].
        apply ends_with_spec in He as [t ->]. rewrite (assoc_L (++)). apply ends_lf_newline.
      + exists n. split_and!; [done|by right|right]. apply ends_lf_newline. }
  destruct (negb (bool_decide (existing = [])) && _).
  - destruct (Hsecond (existing ++ n)) as (gap&->&Hg&He). exists (n ++ gap).
    rewrite <- !(assoc_L (++)) in *. split_and!; [done| |done].
    destruct Hg as [->| ->]; [right; left; apply app_nil_r|by right; right].
  - destruct (Hsecond existing) as (gap&->&Hg&He). exists gap. rewrite <- (assoc_L (++)).
    split_and!; [done| |done]. destruct Hg; auto.
Qed.

(** Text with the section of a profile has it placed there. *)
Lemma section_placed id es before after : valid_section id es ->
  Forall (free id) before -> Forall (free id) after ->
  placed id (before ++ section_of id es ++ after) (Some (before, after)).
Proof.
  intros [Hid Hes] Hb Ha. destruct (begin_facts id Hid) as [_ Hbt].
  destruct (end_facts id Hid) as (_&Het&_).
  apply (placed_between _ _ before (begin_marker id) (map entry_line es) (end_marker id) after); try done.
  - unfold section_of, section. simpl. by rewrite <- (assoc_L (++)).
  - apply Forall_fmap, Forall_true. intros e. split; intros Ht.
    + by apply (entry_no_marker e 66 (as_bytes "EGIN NETTOOL PROFILE " ++ as_bytes id)).
    + by apply (entry_no_marker e 69 (as_bytes "ND NETTOOL PROFILE " ++ as_bytes id)).
  - apply Forall_fmap, Forall_true. intros e. unfold compose, nested.
    apply not_true_iff_false. intros [t Ht]%starts_with_spec.
    by apply (entry_no_marker e 66 (as_bytes "EGIN NETTOOL PROFILE " ++ t)).
Qed.

(** ** What a replacement promises. *)

(** A replacement of valid entries succeeds exactly when the markers of the profile
    place its section nowhere or once; it never panics. With no section yet, the file
    is kept byte for byte and the lines of the section follow it, after at most two
    newlines. With a section, its lines are replaced and every other line is kept, and
    so are the style of the newlines and whether the last line is ended. *)
Theorem hosts_replaced existing id es :
  replace_managed_section existing id es <> Panic /\
  (forall r, replace_managed_section existing id es = Ok r ->
    valid_section id es /\ exists p, placed id (lines existing) p) /\
  forall p, valid_section id es -> placed id (lines existing) p ->
    exists r, replace_managed_section existing id es = Ok r /\
    match p with
    | None => exists gap tail, r = existing ++ gap ++ tail /\
        gap ∈ [[]; newline_of (contains CRLF existing);
               newline_of (contains CRLF existing) ++ newline_of (contains CRLF existing)] /\
        lines r = lines (existing ++ gap) ++ section_of id es
    | Some (before, after) =>
        lines r = before ++ section_of id es ++ after /\
        ends_with [10] r = ends_with [10] existing /\ contains CRLF r = contains CRLF existing
    end.
Proof.
  destruct (replace_total existing id es) as (_&Hp&Hok). split_and!; [done|done|].
  intros p Hv Hpl. exists (result_of existing id es p). split; [by apply replace_placed|].
  inversion Hpl as [Hf|before first inside last after Hls]; subst p.
  - unfold result_of.
    destruct (append_gap existing (contains CRLF existing) (render_section (begin_marker id) (end_marker id) es
      (newline_of (contains CRLF existing)))) as (gap&Hg&Hgap&Hend).
    rewrite Hg. exists gap. eexists. split_and!; [done| |].
    + rewrite !elem_of_cons. naive_solver.
    + rewrite (assoc_L (++)), lines_app by done. by rewrite render_lines.
  - by apply (result_lines existing id es before first inside last after).
Qed.

(** Once a file has the section of a profile, the last replacement wins: replacing
    twice gives the bytes that the second replacement alone would give, so replacing
    again with the same entries changes nothing. *)
Theorem hosts_last_replacement existing id es es' r p
    (Hr : replace_managed_section existing id es = Ok r) (Hv : valid_section id es')
    (Hp : placed id (lines existing) (Some p)) :
  replace_managed_section r id es' = replace_managed_section existing id es' /\
  replace_managed_section r id es = Ok r.
Proof.
  destruct (replace_total existing id es) as (_&_&Hok). destruct (Hok r Hr) as [Hes _].
  rewrite (replace_placed existing id es (Some p) Hes Hp) in Hr.
  assert (r = result_of existing id es (Some p)) as -> by congruence. clear Hr.
  destruct p as [before after].
  inversion Hp as [|b first inside last a Hls Hf Hl Hb Hi Ha Hn Heq]; subst b a.
  destruct (result_lines existing id es before first inside last after Hes Hls) as (Hrl&Hre&Hrc).
  set (r := result_of existing id es (Some (before, after))) in *.
  assert (placed id (lines r) (Some (before, after))) as Hpr by (rewrite Hrl; by apply section_placed).
  assert (forall k, result_of r id k (Some (before, after)) = result_of existing id k (Some (before, after))) as Hsame.
  { intros k. unfold result_of. by rewrite Hre, Hrc. }
  split.
  - by rewrite !(replace_placed _ id es' (Some (before, after))), Hsame.
  - by rewrite (replace_placed r id es (Some (before, after))), Hsame.
Qed.

Definition sample_hosts : bytes :=
  lf_lines ["before"; "# BEGIN NETTOOL PROFILE lab"; "192.0.2.9 old.lab"; "# END NETTOOL PROFILE lab"; "after"].

Lemma sample_placed : placed "lab" (lines sample_hosts) (Some ([as_bytes "before"], [as_bytes "after"])).
Proof.
  apply (placed_between _ _ _ (as_bytes "# BEGIN NETTOOL PROFILE lab") [as_bytes "192.0.2.9 old.lab"]
    (as_bytes "# END NETTOOL PROFILE lab")); try reflexivity;
    repeat (apply Forall_cons_2; [first [reflexivity|split; vm_compute; discriminate]|]); apply Forall_nil_2.
Qed.

Lemma hosts_last_replacement_witness : exists r,
  replace_managed_section sample_hosts "lab" [sample_entry "new.lab" true] = Ok r /\
  replace_managed_section r "lab" [] = replace_managed_section sample_hosts "lab" [] /\
  replace_managed_section r "lab" [sample_entry "new.lab" true] = Ok r.
Proof.
  eexists. split; [reflexivity|].
  apply (hosts_last_replacement sample_hosts "lab" [sample_entry "new.lab" true] [] _
    ([as_bytes "before"], [as_bytes "after"])); [reflexivity| |exact sample_placed].
  split; [reflexivity|apply Forall_nil_2].
Defined.

Lemma hosts_replaced_witness : exists r,
  replace_managed_section sample_hosts "lab" [] = Ok r /\
  lines r = [as_bytes "before"; begin_marker "lab"; end_marker "lab"; as_bytes "after"].
Proof.
  destruct (hosts_replaced sample_hosts "lab" []) as (_&_&H).
  destruct (H _ (conj eq_refl (Forall_nil_2 _)) sample_placed) as (r&Hr&Hl&_). by exists r.
Defined.

(** Lines of a file that mixes both styles of newlines are kept, their newlines are not. *)
Example mixed_newlines_normalised :
  replace_managed_section
    ([97; 10; 98; 13; 10] ++ lf_lines ["# BEGIN NETTOOL PROFILE p"; "# END NETTOOL PROFILE p"]) "p" [] =
  Ok ([97; 13; 10; 98; 13; 10] ++ as_bytes "# BEGIN NETTOOL PROFILE p" ++ CRLF
      ++ as_bytes "# END NETTOOL PROFILE p" ++ CRLF).
Proof. by vm_compute. Qed.
