(* ===== verification/SafeApply.v ===== *)
(** * Safe Apply

    Model of [crates/helper-core/src/lib.rs]: network changes that are rolled
    back unless they are confirmed before a deadline, also when the helper is
    restarted in between. The store is a list of records in memory
    ([SafeApplyManager]) and its image on the disk of [FileIo], whose system
    calls may fail. The platform is an interface ([NetworkExecutor]); JSON and
    SHA-256 are an interface too ([Codec]), of which only the round trip of the
    store is assumed. *)

From stdpp Require Import base pretty countable strings gmap relations list.
From Stdlib Require Import ZArith Lia Ascii.
From S2P Require Import Prelude ErrorModel FileIo Paths UdpProtocol HelperProtocol.
Open Scope Z_scope.

Inductive SafeApplyState :=
  | Prepared | PendingConfirmation | Confirmed | RollingBack | RolledBack | Failed.

#[export] Instance SafeApplyState_eq_dec : EqDecision SafeApplyState.
Proof. solve_decision. Defined.

Record PendingSafeApply := {
  operation_id : string;
  target_interface : string;
  snapshot_id : string;
  deadline_unix_seconds : Z;
  state : SafeApplyState;
  old_state_hash : string;
  new_state_hash : string;
}.

#[export] Instance PendingSafeApply_eq_dec : EqDecision PendingSafeApply.
Proof. solve_decision. Defined.

(** The assignment [record.state = s]. *)
Definition set_state (s : SafeApplyState) (r : PendingSafeApply) : PendingSafeApply :=
  {| operation_id := operation_id r; target_interface := target_interface r;
     snapshot_id := snapshot_id r; deadline_unix_seconds := deadline_unix_seconds r;
     state := s; old_state_hash := old_state_hash r; new_state_hash := new_state_hash r |}.

Definition is_pending (s : SafeApplyState) : bool :=
  match s with Prepared | PendingConfirmation | RollingBack => true | _ => false end.

(** ** Interfaces. *)

(** [trait NetworkExecutor], over a platform state [P] and JSON values [V]. A
    Rust [Result] of the executor is a sum: an executor returns. *)
Class NetworkExecutor (P V : Type) := {
  read_state : string -> P -> P * (NetToolError + V);
  snapshot : string -> P -> P * (NetToolError + string * V);
  apply : string -> NetworkDesiredState -> P -> P * (NetToolError + unit);
  verify : string -> NetworkDesiredState -> P -> P * (NetToolError + unit);
  restore : string -> P -> P * (NetToolError + unit);
}.

(** [serde_json] and [sha2]: a serialization fails with a message. *)
Class Codec (V : Type) := {
  pending_to_vec : list PendingSafeApply -> string + bytes;
  pending_from_slice : bytes -> string + list PendingSafeApply;
  value_to_vec : V -> string + bytes;
  desired_to_vec : NetworkDesiredState -> string + bytes;
  audit_event : Z -> PendingSafeApply -> string -> bytes;
  sha256_hex : bytes -> string;
}.

(** What [serde_json] promises: types without maps serialize, and a serialized
    store deserializes to itself. *)
Class CodecLaws (V : Type) `{Codec V} := {
  pending_total : forall l, exists b, pending_to_vec l = inr b;
  pending_round_trip : forall l b, pending_to_vec l = inr b -> pending_from_slice b = inr l;
  value_total : forall v, exists b, value_to_vec v = inr b;
  desired_total : forall d, exists b, desired_to_vec d = inr b;
}.

Record SafeApplyManager := {
  state_path : string;
  audit_path : string;
  pending : list PendingSafeApply;
}.

(** The helper process and what it acts on; [clock] holds the next readings of
    [now_unix_seconds]. *)
Record Env (P : Type) := {
  manager : SafeApplyManager;
  world : World;
  platform : P;
  clock : list Z;
}.
Arguments manager {P} e.
Arguments world {P} e.
Arguments platform {P} e.
Arguments clock {P} e.
Arguments Build_Env {P}.

Record BeginSafeApply := {
  req_operation_id : string;
  req_interface_id : string;
  req_desired_state : NetworkDesiredState;
  req_confirm_timeout_seconds : Z;
  req_now_unix_seconds : Z;
}.

Definition io_error (e : IoError) : NetToolError :=
  new_error PersistenceFailed ("helper persistence failed: " +:+ io_message e) true.
Definition state_error (m : string) : NetToolError :=
  new_error PersistenceFailed ("helper state is invalid: " +:+ m) false.

Section Manager.
Context {P V : Type} `{NetworkExecutor P V} `{Codec V}.
Implicit Types (r : PendingSafeApply) (l : list PendingSafeApply).

Abbreviation op A := (method (Env P) A).

(** ** Steps. *)

Definition gets {A} (f : Env P -> A) : op A := fun e => (e, Ok (f e)).

Definition set_pending l : op unit := fun e =>
  ({| manager := {| state_path := state_path (manager e); audit_path := audit_path (manager e);
                    pending := l |};
      world := world e; platform := platform e; clock := clock e |}, Ok tt).

Definition io {A} (m : IO A) : op A := fun e =>
  let '(w, o) := m (world e) in
  ({| manager := manager e; world := w; platform := platform e; clock := clock e |},
   match o with Ok a => Ok a | Err x => Err (io_error x) | Panic => Panic end).

Definition exec {A} (f : P -> P * (NetToolError + A)) : op A := fun e =>
  let '(p, o) := f (platform e) in
  ({| manager := manager e; world := world e; platform := p; clock := clock e |},
   match o with inr a => Ok a | inl x => Err x end).

Definition serialized {A} (o : string + A) : op A :=
  m_ret (match o with inr a => Ok a | inl m => Err (state_error m) end).

Definition now_unix_seconds : op Z := fun e =>
  ({| manager := manager e; world := world e; platform := platform e; clock := tail (clock e) |},
   Ok (default 0 (head (clock e)))).

Definition reject {A} (c : ErrorCode) (m : string) : op A := m_ret (err c m).

(** [hash_json]. *)
Definition hash_json (o : string + bytes) : op string :=
  let! b := serialized o in m_ret (Ok (sha256_hex b)).

(** ** The store. *)

Definition create_parent (path : string) : op unit :=
  match parent_of path with
  | ParentDir => io create_dir_all
  | _ => m_ret (Ok tt)
  end.

Definition sync_parent (path : string) : op unit :=
  match parent_of path with
  | NoParent => m_ret (Ok tt)
  | EmptyParent => io (fun w => (w, Err not_found))
  | ParentDir => io (directory_open ;;? file_sync)
  end.

Definition persist : op unit :=
  let! m := gets manager in
  let! _ := create_parent (state_path m) in
  let temporary := with_extension_tmp (state_path m) in
  let! b := serialized (pending_to_vec (pending m)) in
  let! _ := io (file_create temporary) in
  let! _ := io (write_all temporary b ;;? file_sync) in
  let! _ := io (file_rename temporary (state_path m)) in
  sync_parent (state_path m).

(** [serde_json::to_writer]: an I/O error is reported as a state error. *)
Definition to_writer (path : string) (event : bytes) : op unit := fun e =>
  match write_all path event (world e) with
  | (w, o) =>
      ({| manager := manager e; world := w; platform := platform e; clock := clock e |},
       match o with Ok _ => Ok tt | Err x => Err (state_error (io_message x)) | Panic => Panic end)
  end.

Definition audit (r : PendingSafeApply) (result : string) : op unit :=
  let! path := gets (fun e => audit_path (manager e)) in
  let! _ := create_parent path in
  let! now := now_unix_seconds in
  let! _ := io (file_append path) in
  let! _ := to_writer path (audit_event now r result) in
  io (write_all path [10] ;;? file_sync).

(** The assignment to the slot found by [iter_mut().find]. *)
Fixpoint replace_in (r : PendingSafeApply) (l : list PendingSafeApply) :
    option (list PendingSafeApply) :=
  match l with
  | [] => None
  | x :: l =>
      if bool_decide (operation_id x = operation_id r) then Some (r :: l)
      else l ← replace_in r l; Some (x :: l)
  end.

Definition replace_record (r : PendingSafeApply) : op unit :=
  let! l := gets (fun e => pending (manager e)) in
  match replace_in r l with
  | None => reject InvalidState "Safe Apply record disappeared"
  | Some l => let! _ := set_pending l in persist
  end.

Definition find_active (id : string) : op PendingSafeApply :=
  let! l := gets (fun e => pending (manager e)) in
  m_ret (ok_or (List.find (fun r => bool_decide (operation_id r = id) && is_pending (state r)) l)
               (new_error InvalidState "Safe Apply operation is not pending" false)).

(** ** Operations. *)

(** [open]; a missing file is an empty store. *)
Definition open (state_path audit_path : string) (w : World) : World * res SafeApplyManager :=
  let made l := {| state_path := state_path; audit_path := audit_path; pending := l |} in
  match file_read state_path w with
  | (w, Ok b) => (w, match pending_from_slice b with
                     | inr l => Ok (made l)
                     | inl m => Err (state_error m)
                     end)
  | (w, Err e) => (w, match io_kind e with NotFound => Ok (made []) | _ => Err (io_error e) end)
  | (w, Panic) => (w, Panic)
  end.

Definition rollback_internal (id result : string) : op unit :=
  let! r := find_active id in
  let! _ := replace_record (set_state RollingBack r) in
  fun e =>
    match exec (restore (snapshot_id r)) e with
    | (e, Ok _) =>
        (let! _ := replace_record (set_state RolledBack r) in
         audit (set_state RolledBack r) result) e
    | (e, o) =>
        (let! _ := replace_record (set_state Failed r) in
         let! _ := audit (set_state Failed r) "rollback_failed" in
         m_ret o) e
    end.

Definition rollback (id : string) : op unit := rollback_internal id "explicit_rollback".

Definition confirm_at (id : string) (now : Z) : op PendingSafeApply :=
  let! r := find_active id in
  if deadline_unix_seconds r <=? now
  then reject InvalidState "Safe Apply deadline has expired; rollback is required"
  else
    let r := set_state Confirmed r in
    let! _ := replace_record r in
    let! _ := audit r "confirmed" in
    m_ret (Ok r).

Definition confirm (id : string) : op PendingSafeApply :=
  let! now := now_unix_seconds in confirm_at id now.

Fixpoint rollback_all (ids : list string) : op unit :=
  match ids with
  | [] => m_ret (Ok tt)
  | id :: ids => let! _ := rollback_internal id "deadline_expired" in rollback_all ids
  end.

Definition is_expired (now : Z) (r : PendingSafeApply) : bool :=
  is_pending (state r) && (deadline_unix_seconds r <=? now).

Definition recover_expired (now : Z) : op (list string) :=
  let! l := gets (fun e => pending (manager e)) in
  let expired := operation_id <$> List.filter (is_expired now) l in
  let! _ := rollback_all expired in
  m_ret (Ok expired).

(** The accessor [pending]. *)
Definition pending_operations (m : SafeApplyManager) : list PendingSafeApply :=
  List.filter (fun r => is_pending (state r)) (pending m).

(** [begin] up to the durable record: an operation already known returns its
    record ([inl]), a new one the record of the prepared transaction. *)
Definition prepare (q : BeginSafeApply) : op (PendingSafeApply + PendingSafeApply) :=
  if trimmed_empty (req_operation_id q) || trimmed_empty (req_interface_id q)
  then reject InvalidArgument "operation and interface IDs are required"
  else if negb ((10 <=? req_confirm_timeout_seconds q) && (req_confirm_timeout_seconds q <=? 600))
  then reject InvalidArgument "confirm timeout must be between 10 and 600 seconds"
  else
    let! _ := m_ret (match validate_desired (req_desired_state q) with
                     | Ok _ => Ok tt
                     | Err m => err InvalidArgument m
                     | Panic => Panic
                     end) in
    let! desired_hash := hash_json (desired_to_vec (req_desired_state q)) in
    let! l := gets (fun e => pending (manager e)) in
    match List.find (fun r => bool_decide (operation_id r = req_operation_id q)) l with
    | Some existing =>
        if is_pending (state existing) &&
           bool_decide (target_interface existing = req_interface_id q) &&
           bool_decide (new_state_hash existing = desired_hash)
        then m_ret (Ok (inl existing))
        else reject OperationConflict
               "operation ID was reused with a different Safe Apply request"
    | None =>
        if existsb (fun r => is_pending (state r) &&
                             bool_decide (target_interface r = req_interface_id q)) l
        then reject ResourceConflict "interface already has a pending Safe Apply"
        else
          let! ' (snapshot_id, old_state) := exec (snapshot (req_interface_id q)) in
          let! deadline :=
            m_ret (ok_or (checked_add 64 (req_now_unix_seconds q) (req_confirm_timeout_seconds q))
                         (new_error InvalidArgument "rollback deadline overflow" false)) in
          let! old_hash := hash_json (value_to_vec old_state) in
          let r := {| operation_id := req_operation_id q;
                      target_interface := req_interface_id q;
                      snapshot_id := snapshot_id;
                      deadline_unix_seconds := deadline;
                      state := Prepared;
                      old_state_hash := old_hash;
                      new_state_hash := desired_hash |} in
          let! _ := set_pending (l ++ [r]) in
          let! _ := persist in
          m_ret (Ok (inr r))
    end.

(** The chain [executor.apply(..).and_then(|()| executor.verify(..))]. *)
Definition attempt (q : BeginSafeApply) : op unit :=
  let! _ := exec (apply (req_interface_id q) (req_desired_state q)) in
  exec (verify (req_interface_id q) (req_desired_state q)).

(** The rest of [begin]: apply and verify; restore when either fails. *)
Definition apply_prepared (q : BeginSafeApply) (r : PendingSafeApply) : op PendingSafeApply :=
  fun e =>
    match attempt q e with
    | (e, Ok _) =>
        let r := set_state PendingConfirmation r in
        (let! _ := replace_record r in
         let! _ := audit r "pending_confirmation" in
         m_ret (Ok r)) e
    | (e, Err apply_error) =>
        match rollback_internal (req_operation_id q) "apply_failed" e with
        | (e, Ok _) => (e, Err apply_error)
        | (e, Err rollback_error) =>
            (e, err RollbackFailed
                  ("apply failed (" +:+ display apply_error +:+ "); rollback also failed (" +:+
                   display rollback_error +:+ ")"))
        | (e, Panic) => (e, Panic)
        end
    | (e, Panic) => (e, Panic)
    end.

Definition begin (q : BeginSafeApply) : op PendingSafeApply :=
  let! p := prepare q in
  match p with
  | inl existing => m_ret (Ok existing)
  | inr r => apply_prepared q r
  end.

(** ** The life of a record. *)

Inductive transition : SafeApplyState -> SafeApplyState -> Prop :=
  | applied : transition Prepared PendingConfirmation
  | confirmed s : is_pending s = true -> transition s Confirmed
  | restoring s : is_pending s = true -> transition s RollingBack
  | restored : transition RollingBack RolledBack
  | not_restored : transition RollingBack Failed.

(** [r'] is a later version of the record [r]: only the state has moved. *)
Definition advance r r' : Prop :=
  r' = set_state (state r') r /\ rtc transition (state r) (state r').

(** [l'] is a later version of the list [l]: records advance, none disappears. *)
Definition evolves l l' : Prop := exists l1 l2, l' = l1 ++ l2 /\ Forall2 advance l l1.

Lemma set_state_same r : set_state (state r) r = r.
Proof. by destruct r. Qed.

#[export] Instance advance_preorder : PreOrder advance.
Proof.
  split.
  - intros r. split; [by rewrite set_state_same|done].
  - intros r1 r2 r3 [-> H1] [-> H2]. split; [done|by etrans].
Qed.

#[export] Instance evolves_preorder : PreOrder evolves.
Proof.
  split.
  - intros l. exists l, []. by rewrite app_nil_r.
  - intros a b c (b1&b2&->&H1) (c1&c2&->&H2).
    apply Forall2_app_inv_l in H2 as (d1&d2&H3&_&->).
    exists d1, (d2 ++ c2). rewrite app_assoc. split; [done|].
    by etrans.
Qed.

Lemma terminal_stays s s' : rtc transition s s' -> is_pending s = false -> s' = s.
Proof. intros Hr Hs. destruct Hr as [|s t u Ht]; [done|]. by inversion Ht; subst; simplify_eq/=; congruence. Qed.

Lemma evolves_terminal l l' r :
  evolves l l' -> r ∈ l -> is_pending (state r) = false -> r ∈ l'.
Proof.
  intros (l1&l2&->&Hf) Hr Hp. apply elem_of_app. left.
  apply list_elem_of_lookup in Hr as [i Hi].
  destruct (Forall2_lookup_l _ _ _ _ _ Hf Hi) as (r'&Hr'&Ha&Ht).
  apply list_elem_of_lookup. exists i. rewrite Hr', Ha, (terminal_stays _ _ Ht Hp).
  by rewrite set_state_same.
Qed.

Lemma evolves_snoc l r : evolves l (l ++ [r]).
Proof. exists l, [r]. split; [done|]. reflexivity. Qed.

Lemma evolves_replace l1 x r l2 : advance x r -> evolves (l1 ++ x :: l2) (l1 ++ r :: l2).
Proof.
  intros Ha. exists (l1 ++ r :: l2), []. rewrite app_nil_r. split; [done|].
  apply Forall2_app; [reflexivity|]. constructor; [done|reflexivity].
Qed.

(** Operation IDs are unique; an interface has at most one pending record. *)
Record wf l : Prop := {
  unique_ids : NoDup (operation_id <$> l);
  exclusive : forall r r', r ∈ l -> r' ∈ l -> is_pending (state r) = true ->
    is_pending (state r') = true -> target_interface r = target_interface r' -> r = r';
}.

Lemma same_id l r r' : wf l -> r ∈ l -> r' ∈ l -> operation_id r = operation_id r' -> r = r'.
Proof.
  intros [Hn _] Hr Hr' He. apply list_elem_of_lookup in Hr as [i Hi], Hr' as [j Hj].
  assert (i = j) as ->; [|congruence].
  eapply (NoDup_lookup _ i j (operation_id r) Hn); rewrite list_lookup_fmap;
    [by rewrite Hi|by rewrite Hj, He].
Qed.

Lemma wf_nil : wf [].
Proof. split; [constructor|]. intros r r' Hr. by apply not_elem_of_nil in Hr. Qed.

Lemma wf_snoc l r :
  wf l -> operation_id r ∉ operation_id <$> l ->
  (forall x, x ∈ l -> is_pending (state x) = true -> target_interface x <> target_interface r) ->
  wf (l ++ [r]).
Proof.
  intros [Hn He] Hid Hex. split.
  - rewrite fmap_app. apply NoDup_app. split_and!; [done| |apply NoDup_singleton].
    intros x Hx Hr. apply list_elem_of_singleton in Hr as ->. done.
  - intros a b Ha Hb Pa Pb Hab. apply elem_of_app in Ha, Hb.
    rewrite !list_elem_of_singleton in Ha, Hb.
    destruct Ha as [Ha| ->], Hb as [Hb| ->]; auto.
    + by destruct (Hex a Ha Pa).
    + by destruct (Hex b Hb Pb).
Qed.

Lemma wf_replace l1 x r l2 :
  wf (l1 ++ x :: l2) -> operation_id r = operation_id x ->
  target_interface r = target_interface x ->
  (is_pending (state r) = true -> is_pending (state x) = true) -> wf (l1 ++ r :: l2).
Proof.
  intros Hwf Hid Ht Hp. pose proof Hwf as [Hn He]. split.
  - rewrite fmap_app, fmap_cons in *. by rewrite Hid.
  - assert (Hx : x ∈ l1 ++ x :: l2) by (rewrite elem_of_app, elem_of_cons; auto).
    assert (Hin : forall a, a ∈ l1 ++ r :: l2 -> is_pending (state a) = true ->
      a = r \/ a ∈ l1 ++ x :: l2 /\ a <> x).
    { intros a Ha _. apply elem_of_app in Ha. rewrite elem_of_cons in Ha.
      rewrite fmap_app, fmap_cons in Hn. apply NoDup_app in Hn as (_&Hd&Hn).
      apply NoDup_cons in Hn as [Hn _].
      destruct Ha as [Ha|[->|Ha]]; [right|by left|right];
        (split; [rewrite elem_of_app, elem_of_cons; auto|]); intros ->.
      - apply (Hd (operation_id x)); [by apply list_elem_of_fmap_2|by left].
      - apply Hn. by apply list_elem_of_fmap_2. }
    intros a b Ha Hb Pa Pb Hab.
    destruct (Hin a Ha Pa) as [->|[Ha' Na]], (Hin b Hb Pb) as [->|[Hb' Nb]]; auto.
    + destruct Nb. symmetry. apply He; auto. congruence.
    + destruct Na. apply He; auto. congruence.
Qed.

Lemma replace_in_spec r x l :
  NoDup (operation_id <$> l) -> x ∈ l -> operation_id x = operation_id r ->
  exists l1 l2, l = l1 ++ x :: l2 /\ replace_in r l = Some (l1 ++ r :: l2).
Proof.
  intros Hn Hx He. induction l as [|y l IH]; [by apply not_elem_of_nil in Hx|].
  rewrite fmap_cons in Hn. apply NoDup_cons in Hn as [Hy Hn]. simpl.
  apply elem_of_cons in Hx as [->|Hx].
  - exists [], l. rewrite bool_decide_eq_true_2 by done. done.
  - rewrite bool_decide_eq_false_2.
    + destruct (IH Hn Hx) as (l1&l2&->&->). by exists (y :: l1), l2.
    + intros E. apply Hy. rewrite E, <- He. by apply list_elem_of_fmap_2.
Qed.

(** ** Memory and disk. *)

(** The store as the next [open] would read it. *)
Definition durable (e : Env P) : option (list PendingSafeApply) :=
  match files (world e) !! state_path (manager e) with
  | None => Some []
  | Some b => match pending_from_slice b with inr l => Some l | inl _ => None end
  end.

Definition memory (e : Env P) : list PendingSafeApply := pending (manager e).

Definition paths_ok (m : SafeApplyManager) : Prop :=
  with_extension_tmp (state_path m) <> state_path m /\ audit_path m <> state_path m.

(** Paths with a directory: their parent can be opened and synced. *)
Definition placed (m : SafeApplyManager) : Prop :=
  parent_of (state_path m) <> EmptyParent /\ parent_of (audit_path m) <> EmptyParent.

(** The invariant: memory and disk are well formed and the disk holds an
    earlier version of the memory. *)
Record intact (e : Env P) : Prop := {
  intact_paths : paths_ok (manager e);
  intact_memory : wf (memory e);
  intact_disk : exists d, durable e = Some d /\ wf d /\ evolves d (memory e);
}.

(** What every operation does, however it ends. *)
Record progress (e e' : Env P) : Prop := {
  same_state_path : state_path (manager e') = state_path (manager e);
  same_audit_path : audit_path (manager e') = audit_path (manager e);
  memory_evolves : evolves (memory e) (memory e');
  disk_evolves : forall d d', durable e = Some d -> durable e' = Some d' -> evolves d d';
  no_new_faults : faults (world e) = [] -> faults (world e') = [];
}.

Lemma progress_refl e : progress e e.
Proof. split; try done. intros d d' -> [= ->]. done. Qed.

Lemma progress_trans e1 e2 e3 : intact e2 -> progress e1 e2 -> progress e2 e3 -> progress e1 e3.
Proof.
  intros [_ _ (d2&Hd2&_)] H1 H2. split.
  - by rewrite (same_state_path _ _ H2), (same_state_path _ _ H1).
  - by rewrite (same_audit_path _ _ H2), (same_audit_path _ _ H1).
  - etrans; [apply (memory_evolves _ _ H1)|apply (memory_evolves _ _ H2)].
  - intros d d' Hd Hd'. etrans; [by apply (disk_evolves _ _ H1 d d2)|by apply (disk_evolves _ _ H2 d2 d')].
  - intros Hf. by apply (no_new_faults _ _ H2), (no_new_faults _ _ H1).
Qed.

(** A step that leaves the manager and the state file alone. *)
Record aside (e e' : Env P) : Prop := {
  aside_manager : manager e' = manager e;
  aside_file : files (world e') !! state_path (manager e) =
               files (world e) !! state_path (manager e);
  aside_faults : faults (world e) = [] -> faults (world e') = [];
}.

Lemma aside_refl e : aside e e.
Proof. by split. Qed.

Lemma aside_trans e1 e2 e3 : aside e1 e2 -> aside e2 e3 -> aside e1 e3.
Proof.
  intros [H1 H2 H3] [H4 H5 H6]. split; [congruence|congruence|auto].
Qed.

Lemma aside_durable e e' : aside e e' -> durable e' = durable e.
Proof. intros [Hm Hf _]. unfold durable. by rewrite Hm, Hf. Qed.

Lemma aside_intact e e' : aside e e' -> intact e -> intact e'.
Proof.
  intros Ha [Hp Hm Hd]. pose proof (aside_durable _ _ Ha) as Hdur.
  destruct Ha as [Hma _ _]. split; unfold memory in *; rewrite ?Hma, ?Hdur; done.
Qed.

Lemma aside_progress e e' : aside e e' -> progress e e'.
Proof.
  intros Ha. pose proof (aside_durable _ _ Ha) as Hdur. destruct Ha as [Hma _ Hf].
  split; unfold memory; rewrite ?Hma; try done. intros d d' Hd Hd'.
  rewrite Hdur, Hd in Hd'. by injection Hd' as ->.
Qed.

(** An I/O computation that never touches the file at [path] and fails only by
    a fault. *)
Definition spares (path : string) (m : IO unit) : Prop := forall w,
  files (m w).1 !! path = files w !! path /\ (m w).2 <> Panic /\
  (faults w = [] -> (m w).2 = Ok tt /\ faults (m w).1 = []).

Lemma spares_syscall path effect :
  (forall f, effect f !! path = f !! path) -> spares path (syscall effect).
Proof.
  intros He [f [|[k|] q]]; unfold syscall, next_fault; simpl; rewrite ?He; by split_and!.
Qed.

Lemma spares_write path p b : p <> path -> spares path (write_all p b).
Proof.
  intros Hp [f [|[k|] q]]; unfold write_all, next_fault, append_to; simpl;
    rewrite lookup_insert_ne by done; by split_and!.
Qed.

Lemma spares_bind path m k : spares path m -> spares path k -> spares path (m ;;? k).
Proof.
  intros Hm Hk w. unfold io_bind. destruct (Hm w) as (Hf&Hp&Ho).
  destruct (m w) as [w' [[]|x|]]; simpl in *.
  - destruct (Hk w') as (Hf'&Hp'&Ho'). split_and!; [congruence|done|]. intros Hw. by apply Ho', Ho.
  - by split_and!.
  - done.
Qed.

Lemma spares_append path p : p <> path -> spares path (file_append p).
Proof.
  intros Hp. apply spares_syscall. intros f. destruct (f !! p); [done|]. by rewrite lookup_insert_ne.
Qed.

Lemma io_aside m e :
  spares (state_path (manager e)) m ->
  m_holds (io m) e (fun e' o =>
    aside e e' /\ platform e' = platform e /\ (faults (world e) = [] -> o = Ok tt)).
Proof.
  intros Hm. unfold m_holds, io. destruct (Hm (world e)) as (Hf&Hp&Ho).
  destruct (m (world e)) as [w [[]|x|]]; simpl in *; try done; split_and!; try done.
  - split; try done. simpl. intros Hw. by apply Ho.
  - split; try done. simpl. intros Hw. by destruct (Ho Hw).
  - intros Hw. by destruct (Ho Hw).
Qed.

(** The outcome of a step that only touches other files: it succeeds when no
    fault is left. *)
Definition on_the_side (e : Env P) (e' : Env P) (o : res unit) : Prop :=
  aside e e' /\ platform e' = platform e /\ (faults (world e) = [] -> o = Ok tt).

Lemma side_bind (m k : op unit) e :
  m_holds m e (on_the_side e) ->
  (forall e', aside e e' -> m_holds k e' (on_the_side e')) ->
  m_holds (m_bind m (fun _ => k)) e (on_the_side e).
Proof.
  intros Hm Hk. eapply m_holds_bind; [exact Hm| |].
  - intros e' x (Ha&Hp&Ho). split_and!; [done|done|]. intros Hf. by discriminate (Ho Hf).
  - intros e' [] (Ha&Hp&Ho). eapply m_holds_weaken; [by apply Hk|].
    intros e2 o (Ha2&Hp2&Ho2). split_and!; [by eapply aside_trans|congruence|].
    intros Hf. apply Ho2. by apply (aside_faults _ _ Ha).
Qed.

Lemma side_ret e : m_holds (m_ret (Ok tt)) e (on_the_side e).
Proof. apply m_holds_ret; [done|]. split_and!; [apply aside_refl|done|done]. Qed.

Lemma side_create_parent path e : m_holds (create_parent path) e (on_the_side e).
Proof.
  unfold create_parent. destruct (parent_of path); try apply side_ret.
  by apply io_aside, spares_syscall.
Qed.

(** Like [on_the_side], for a path whose parent can be synced. *)
Definition by_side (ok : Prop) (e : Env P) (e' : Env P) (o : res unit) : Prop :=
  aside e e' /\ platform e' = platform e /\ (ok -> faults (world e) = [] -> o = Ok tt).

Lemma side_sync_parent path e :
  m_holds (sync_parent path) e (by_side (parent_of path <> EmptyParent) e).
Proof.
  unfold sync_parent. destruct (parent_of path).
  - eapply m_holds_weaken; [apply side_ret|]. intros e' o (?&?&?). by split_and!; auto.
  - split; [done|]. split_and!; [by split|done|done].
  - eapply m_holds_weaken; [by apply io_aside, spares_bind; apply spares_syscall|].
    intros e' o (?&?&?). by split_and!; auto.
Qed.

Lemma side_to_writer path event e :
  path <> state_path (manager e) -> m_holds (to_writer path event) e (on_the_side e).
Proof.
  intros Hne. unfold m_holds, to_writer.
  destruct (spares_write (state_path (manager e)) path event Hne (world e)) as (Hf&Hp&Ho).
  destruct (write_all path event (world e)) as [w [[]|x|]]; simpl in *; [| |done];
    (split; [done|split_and!; [split; try done; simpl|done|]]); intros Hw; by destruct (Ho Hw).
Qed.

Lemma side_now (k : Z -> op unit) e :
  (forall now e', aside e e' -> m_holds (k now) e' (on_the_side e')) ->
  m_holds (let! now := now_unix_seconds in k now) e (on_the_side e).
Proof.
  intros Hk. set (e' := (now_unix_seconds e).1).
  assert (Ha : aside e e') by by split.
  destruct (Hk (default 0 (head (clock e))) e' Ha) as [Hp (Ha'&Hpl&Ho)].
  split; [exact Hp|]. split_and!; [by eapply aside_trans|exact Hpl|exact Ho].
Qed.

Lemma audit_spec r result e :
  audit_path (manager e) <> state_path (manager e) ->
  m_holds (audit r result) e (on_the_side e).
Proof.
  intros Hne. change (m_holds (let! _ := create_parent (audit_path (manager e)) in
    let! now := now_unix_seconds in
    let! _ := io (file_append (audit_path (manager e))) in
    let! _ := to_writer (audit_path (manager e)) (audit_event now r result) in
    io (write_all (audit_path (manager e)) [10] ;;? file_sync)) e (on_the_side e)).
  apply side_bind; [apply side_create_parent|]. intros e1 H1.
  apply side_now. intros now e2 H2. apply side_bind.
  { apply io_aside, spares_append. by rewrite (aside_manager _ _ H2), (aside_manager _ _ H1). }
  intros e3 H3.
  assert (E3 : manager e3 = manager e)
    by by rewrite (aside_manager _ _ H3), (aside_manager _ _ H2), (aside_manager _ _ H1).
  apply side_bind; [apply side_to_writer; congruence|]. intros e4 H4. apply io_aside, spares_bind.
  - apply spares_write. rewrite (aside_manager _ _ H4). congruence.
  - by apply spares_syscall.
Qed.

Lemma io_seq {A} (a b : IO unit) (k : unit -> op A) e :
  m_bind (io a) (fun _ => m_bind (io b) k) e = m_bind (io (a ;;? b)) k e.
Proof.
  unfold m_bind, io, io_bind. simpl. destruct (a (world e)) as [w [[]|x|]]; simpl; [|done|done].
  by destruct (b w) as [w' [[]|x|]].
Qed.

Section Store.
Context `{!CodecLaws V}.

Definition with_world (e : Env P) (w : World) : Env P :=
  {| manager := manager e; world := w; platform := platform e; clock := clock e |}.

Lemma m_holds_io (m : IO unit) (k : op unit) e Q :
  (let '(w, o) := m (world e) in
   match o with
   | Ok _ => m_holds k (with_world e w) Q
   | Err x => Q (with_world e w) (Err (io_error x))
   | Panic => False
   end) -> m_holds (let! _ := io m in k) e Q.
Proof.
  unfold m_holds, m_bind, io, with_world. destruct (m (world e)) as [w [[]|x|]]; simpl; by auto.
Qed.

(** What [persist] leaves behind: the old store or the new one, and the new one
    when it succeeds; without faults it succeeds. *)
Definition persisted (e e' : Env P) (o : res unit) : Prop :=
  manager e' = manager e /\ platform e' = platform e /\
  (durable e' = durable e /\ o <> Ok tt \/ durable e' = Some (memory e)) /\
  (faults (world e) = [] -> faults (world e') = [] /\ (placed (manager e) -> o = Ok tt)).

Lemma persist_spec e : paths_ok (manager e) -> m_holds persist e (persisted e).
Proof.
  intros [Ht _]. unfold persist.
  change (m_holds (let! _ := create_parent (state_path (manager e)) in
    let! b := serialized (pending_to_vec (memory e)) in
    let! _ := io (file_create (with_extension_tmp (state_path (manager e)))) in
    let! _ := io (write_all (with_extension_tmp (state_path (manager e))) b ;;? file_sync) in
    let! _ := io (file_rename (with_extension_tmp (state_path (manager e)))
                              (state_path (manager e))) in
    sync_parent (state_path (manager e))) e (persisted e)).
  eapply m_holds_bind; [apply side_create_parent| |].
  { intros e1 x (Ha&Hp&Ho). unfold persisted.
    rewrite (aside_durable _ _ Ha), (aside_manager _ _ Ha). split_and!; [done|done|by left|]. intros Hf. by discriminate (Ho Hf). }
  intros e1 [] (Ha&Hp&Ho). destruct (pending_total (memory e)) as [b Hb]. rewrite Hb.
  unfold serialized, m_holds. rewrite (m_bind_lift _ _ b) by done.
  rewrite !io_seq. fold (replace_file (with_extension_tmp (state_path (manager e)))
    (state_path (manager e)) b).
  apply (m_holds_io (replace_file _ _ b) (sync_parent (state_path (manager e)))).
  pose proof (replace_file_spec (with_extension_tmp (state_path (manager e)))
    (state_path (manager e)) b (world e1) Ht) as Hr.
  destruct (replace_file _ _ b (world e1)) as [w o]. destruct Hr as (Hop&Hor&Hof).
  destruct o as [[]|x|]; [|simpl|done].
  - destruct Hor as [[_ Hbad]|Hfile]; [by destruct Hbad|].
    set (e2 := with_world e1 w).
    assert (Hd2 : durable e2 = Some (memory e)).
    { unfold durable, e2. simpl. rewrite (aside_manager _ _ Ha), Hfile.
      by rewrite (pending_round_trip _ _ Hb). }
    apply (m_holds_weaken (sync_parent (state_path (manager e))) e2 _ _ (side_sync_parent _ e2)).
    intros e3 o (Has&Hps&Hos). unfold persisted. rewrite (aside_manager _ _ Has), Hps, (aside_durable _ _ Has). simpl.
    split_and!; [apply (aside_manager _ _ Ha)|done|by right|].
    intros Hf. assert (Hf2 : faults (world e2) = []) by (apply Hof, (aside_faults _ _ Ha), Hf).
    split; [by apply (aside_faults _ _ Has)|]. intros [Hpl _]. by apply Hos.
  - split_and!; [apply (aside_manager _ _ Ha)|done| |].
    + unfold durable. simpl. rewrite (aside_manager _ _ Ha).
      destruct Hor as [[-> _]|Hfile].
      * left. by rewrite (aside_file _ _ Ha).
      * right. by rewrite Hfile, (pending_round_trip _ _ Hb).
    + intros Hf. by destruct (Hof (aside_faults _ _ Ha Hf)).
Qed.

(** ** Operations preserve the invariant. *)

Lemma placed_progress e e' : progress e e' -> placed (manager e) -> placed (manager e').
Proof. intros Hp. unfold placed. by rewrite (same_state_path _ _ Hp), (same_audit_path _ _ Hp). Qed.

(** After storing [l] in memory and trying to persist it. *)
Lemma persist_after_set e l :
  intact e -> wf l -> evolves (memory e) l ->
  m_holds (let! _ := set_pending l in persist) e (fun e' o =>
    intact e' /\ progress e e' /\ platform e' = platform e /\ memory e' = l /\
    (o = Ok tt -> durable e' = Some l) /\
    (faults (world e) = [] -> placed (manager e) -> o = Ok tt)).
Proof.
  intros [Hpaths Hwf (d&Hd&Hwd&Hev)] Hl Hel.
  pose proof (persist_spec (set_pending l e).1 Hpaths) as Hs.
  unfold m_holds. rewrite (m_bind_ok _ _ tt e (set_pending l e).1) by done.
  destruct Hs as [Hp (Hm&Hpl&Hdur&Hf)]. split; [exact Hp|].
  destruct (persist (set_pending l e).1) as [e' o]. cbn [fst snd] in *.
  assert (Hd' : durable e' = Some d /\ o <> Ok tt \/ durable e' = Some l).
  { destruct Hdur as [[-> Ho]| ->]; [left|by right]. by rewrite <- Hd. }
  assert (Hmem : memory e' = l) by (unfold memory; by rewrite Hm).
  split_and!.
  - split; [by rewrite Hm|by rewrite Hmem|]. rewrite Hmem.
    destruct Hd' as [[-> _]| ->]; [exists d|exists l]; split_and!; try done. by etrans.
  - split; [by rewrite Hm|by rewrite Hm|by rewrite Hmem| |intros Hf0; by apply Hf].
    intros d1 d2 Hd1 Hd2. rewrite Hd in Hd1. injection Hd1 as <-.
    destruct Hd' as [[Hd' _]|Hd']; rewrite Hd' in Hd2; injection Hd2 as <-; [done|by etrans].
  - done.
  - done.
  - intros Ho. by destruct Hd' as [[_ Hn]|Hd'].
  - intros Hf0 Hplaced. by apply Hf.
Qed.

(** [replace_record r] where [r] is a later version of the pending record [x]. *)
Definition replaced r (e e' : Env P) (o : res unit) : Prop :=
  intact e' /\ progress e e' /\ platform e' = platform e /\ r ∈ memory e' /\
  (forall y, y ∈ memory e -> operation_id y <> operation_id r -> y ∈ memory e') /\
  (o = Ok tt -> durable e' = Some (memory e')) /\
  (faults (world e) = [] -> placed (manager e) -> o = Ok tt).

Lemma replace_record_spec e x r :
  intact e -> x ∈ memory e -> is_pending (state x) = true -> advance x r ->
  m_holds (replace_record r) e (replaced r e).
Proof.
  intros Hi Hx Hpx Ha. pose proof (intact_memory _ Hi) as Hwf.
  assert (Hid : operation_id x = operation_id r) by by destruct Ha as [-> _].
  destruct (replace_in_spec r x (memory e) (unique_ids _ Hwf) Hx Hid) as (l1&l2&Hl&Hr).
  unfold replace_record, m_holds. rewrite (m_bind_ok _ _ (memory e) e e) by done. rewrite Hr.
  eapply (m_holds_weaken (let! _ := set_pending (l1 ++ r :: l2) in persist) e).
  - apply persist_after_set; [done| |].
    + rewrite Hl in Hwf. eapply wf_replace; [done|done| |done]. by destruct Ha as [-> _].
    + rewrite Hl. by apply evolves_replace.
  - intros e' o (Hi'&Hp'&Hpl&Hm&Hd&Ho). unfold replaced. rewrite Hm. split_and!; try done.
    + apply elem_of_app. right. by left.
    + intros y Hy Hne. rewrite Hl in Hy. rewrite elem_of_app, elem_of_cons in *.
      destruct Hy as [Hy|[->|Hy]]; auto. by destruct Hne.
Qed.

(** [find_active]. *)
Lemma find_active_spec e id :
  exists o, find_active id e = (e, o) /\
  match o with
  | Ok r => r ∈ memory e /\ operation_id r = id /\ is_pending (state r) = true
  | Err x => forall r, r ∈ memory e -> operation_id r = id -> is_pending (state r) = false
  | Panic => False
  end.
Proof.
  unfold find_active, m_bind, gets, m_ret, memory. eexists. split; [done|].
  destruct (List.find _ _) as [r|] eqn:Hf; simpl.
  - apply find_some in Hf as [Hin Hb]. apply andb_true_iff in Hb as [Hid Hp].
    split_and!; [by apply list_elem_of_In|by apply bool_decide_eq_true in Hid|done].
  - intros r Hr Hid. apply list_elem_of_In in Hr. pose proof (find_none _ _ Hf r Hr) as Hn.
    simpl in Hn. rewrite bool_decide_eq_true_2 in Hn by done. done.
Qed.

Lemma find_active_ok e r :
  intact e -> r ∈ memory e -> is_pending (state r) = true ->
  find_active (operation_id r) e = (e, Ok r).
Proof.
  intros Hi Hr Hp. destruct (find_active_spec e (operation_id r)) as ([x|x|]&->&Ho); [|exfalso|done].
  - destruct Ho as (Hx&Hid&_). by rewrite (same_id _ _ _ (intact_memory _ Hi) Hx Hr Hid).
  - by rewrite (Ho r Hr) in Hp.
Qed.

(** Stopping at an error keeps what was reached; the rest is composed. *)
Definition kept {A} (e e' : Env P) (o : res A) : Prop := intact e' /\ progress e e'.

Lemma kept_bind {A B} (m : op A) (k : A -> op B) e :
  m_holds m e (kept e) ->
  (forall e' a, m e = (e', Ok a) -> intact e' -> m_holds (k a) e' (kept e')) ->
  m_holds (m_bind m k) e (kept e).
Proof.
  unfold m_holds, m_bind. intros [Hp [Hi Hg]] Hk.
  destruct (m e) as [e' [a|x|]]; cbn [fst snd] in *; [|split; [done|by split]|done].
  destruct (Hk e' a eq_refl Hi) as [Hp' [Hi' Hg']]. split; [done|].
  split; [done|]. exact (progress_trans _ _ _ Hi Hg Hg').
Qed.

Lemma kept_same {A} (o : res A) e : intact e -> o <> Panic -> m_holds (m_ret o) e (kept e).
Proof. intros Hi Ho. apply m_holds_ret; [done|]. split; [done|]. apply progress_refl. Qed.

Lemma kept_audit r result e : intact e -> m_holds (audit r result) e (kept e).
Proof.
  intros Hi. eapply m_holds_weaken; [apply audit_spec; apply (intact_paths _ Hi)|].
  intros e' o (Ha&_). split; [by eapply aside_intact|by apply aside_progress].
Qed.

Lemma exec_aside {A} (f : P -> P * (NetToolError + A)) e : aside e (exec f e).1.
Proof. unfold exec. destruct (f (platform e)). by split. Qed.

Lemma kept_exec {A} (f : P -> P * (NetToolError + A)) e :
  intact e -> m_holds (exec f) e (kept e).
Proof.
  intros Hi. pose proof (exec_aside f e) as Ha. split.
  - unfold exec. by destruct (f (platform e)) as [p [x|a]].
  - split; [by eapply aside_intact|by apply aside_progress].
Qed.

Lemma kept_replace e x r :
  intact e -> x ∈ memory e -> is_pending (state x) = true -> advance x r ->
  m_holds (replace_record r) e (kept e).
Proof.
  intros Hi Hx Hp Ha. eapply m_holds_weaken; [by eapply replace_record_spec|]. by intros e' o (?&?&_).
Qed.

Lemma move r s : transition (state r) s -> advance r (set_state s r).
Proof. intros Ht. split; [done|]. by apply rtc_once. Qed.

Lemma set_state_twice a b r : set_state a (set_state b r) = set_state a r.
Proof. done. Qed.

Lemma kept_rollback_internal id result e :
  intact e -> m_holds (rollback_internal id result) e (kept e).
Proof.
  intros Hi. unfold rollback_internal, m_holds.
  destruct (find_active_spec e id) as (o&Hf&Ho). destruct o as [r|x|]; [|unfold m_bind; rewrite Hf|done].
  - rewrite (m_bind_ok _ _ _ _ _ Hf). destruct Ho as (Hr&_&Hp).
    eapply kept_bind.
    { eapply kept_replace; [done|exact Hr|done|]. by apply move, restoring. }
    intros e1 [] E1 Hi1.
    pose proof (replace_record_spec e r (set_state RollingBack r) Hi Hr Hp
      (move _ _ (restoring _ Hp))) as [_ Hrep]. rewrite E1 in Hrep.
    destruct Hrep as (_&_&_&Hin&_&_&_). cbn [fst] in Hin.
    destruct (kept_exec (restore (snapshot_id r)) e1 Hi1) as [Hnp [Hi2 Hg2]].
    destruct (exec_aside (restore (snapshot_id r)) e1) as [Hm2 _ _].
    unfold m_holds. destruct (exec (restore (snapshot_id r)) e1) as [e2 o].
    cbn [fst snd] in *.
    assert (Hin2 : set_state RollingBack r ∈ memory e2) by by unfold memory; rewrite Hm2.
    assert (Hk : m_holds (match o with
       | Ok _ => let! _ := replace_record (set_state RolledBack r) in
                 audit (set_state RolledBack r) result
       | _ => let! _ := replace_record (set_state Failed r) in
              let! _ := audit (set_state Failed r) "rollback_failed" in m_ret o
       end) e2 (kept e2)).
    { destruct o as [[]|x|]; [| |done].
      - apply (kept_bind (replace_record (set_state RolledBack r))).
        + eapply kept_replace; [done|exact Hin2|done|apply (move (set_state RollingBack r)), restored].
        + intros e3 _ _ Hi3. by apply kept_audit.
      - apply (kept_bind (replace_record (set_state Failed r))).
        + eapply kept_replace;
            [done|exact Hin2|done|apply (move (set_state RollingBack r)), not_restored].
        + intros e3 _ _ Hi3. apply (kept_bind (audit _ _)); [by apply kept_audit|].
          intros e4 _ _ Hi4. by apply kept_same. }
    destruct o as [[]|x|]; [| |done]; destruct Hk as [Hp' [Hi' Hg']];
      (split; [exact Hp'|split; [exact Hi'|exact (progress_trans _ _ _ Hi2 Hg2 Hg')]]).
  - split; [done|]. split; [done|apply progress_refl].
Qed.

Lemma replace_ok e x r :
  intact e -> placed (manager e) -> faults (world e) = [] ->
  x ∈ memory e -> is_pending (state x) = true -> advance x r ->
  exists e', replace_record r e = (e', Ok tt) /\ replaced r e e' (Ok tt).
Proof.
  intros Hi Hpl Hf Hx Hp Ha. destruct (replace_record_spec e x r Hi Hx Hp Ha) as [Hnp Hr].
  destruct (replace_record r e) as [e' o]. cbn [fst snd] in *. exists e'.
  assert (o = Ok tt) as -> by by apply Hr. done.
Qed.

Lemma audit_ok r result e :
  intact e -> faults (world e) = [] ->
  exists e', audit r result e = (e', Ok tt) /\ aside e e' /\ platform e' = platform e.
Proof.
  intros Hi Hf. destruct (audit_spec r result e) as [Hnp (Ha&Hp&Ho)]; [apply (intact_paths _ Hi)|].
  destruct (audit r result e) as [e' o]. cbn [fst snd] in *. exists e'. by rewrite (Ho Hf).
Qed.

(** What a rollback of the pending record [r] does when no system call fails. *)
Record rolled_back r (s : SafeApplyState) (e e' : Env P) : Prop := {
  rolled_intact : intact e';
  rolled_progress : progress e e';
  rolled_platform : platform e' = (restore (snapshot_id r) (platform e)).1;
  rolled_record : set_state s r ∈ memory e';
  rolled_durable : durable e' = Some (memory e');
  rolled_others : forall y, y ∈ memory e -> operation_id y <> operation_id r -> y ∈ memory e';
}.

(** Replacing the record after the executor's step and logging it. *)
Lemma settle e x r result :
  intact e -> placed (manager e) -> faults (world e) = [] ->
  x ∈ memory e -> is_pending (state x) = true -> advance x r ->
  exists e', (let! _ := replace_record r in audit r result) e = (e', Ok tt) /\
    intact e' /\ progress e e' /\ platform e' = platform e /\ r ∈ memory e' /\
    durable e' = Some (memory e') /\
    (forall y, y ∈ memory e -> operation_id y <> operation_id r -> y ∈ memory e').
Proof.
  intros Hi Hpl Hf Hx Hp Ha.
  destruct (replace_ok e x r Hi Hpl Hf Hx Hp Ha) as (e1&E1&Hi1&Hg1&Hp1&Hin1&Ho1&Hd1&_).
  destruct (audit_ok r result e1 Hi1) as (e2&E2&Ha2&Hp2); [by apply (no_new_faults _ _ Hg1)|].
  exists e2. rewrite (m_bind_ok _ _ _ _ _ E1). unfold memory in *.
  rewrite (aside_durable _ _ Ha2), (aside_manager _ _ Ha2).
  split_and!; [done|by eapply aside_intact| |congruence|done|by apply Hd1|done].
  eapply progress_trans; [exact Hi1|done|by apply aside_progress].
Qed.

Lemma rollback_internal_ok e r result :
  intact e -> placed (manager e) -> faults (world e) = [] ->
  r ∈ memory e -> is_pending (state r) = true ->
  exists e', rollback_internal (operation_id r) result e =
    (e', match (restore (snapshot_id r) (platform e)).2 with inr _ => Ok tt | inl x => Err x end) /\
    rolled_back r (match (restore (snapshot_id r) (platform e)).2 with
                   | inr _ => RolledBack | inl _ => Failed end) e e'.
Proof.
  intros Hi Hpl Hf Hr Hp.
  destruct (replace_ok e r (set_state RollingBack r) Hi Hpl Hf Hr Hp) as
    (e1&E1&Hi1&Hg1&Hp1&Hin1&Ho1&Hd1&_); [by apply move, restoring|].
  unfold rollback_internal. rewrite (m_bind_ok _ _ _ _ _ (find_active_ok e r Hi Hr Hp)).
  rewrite (m_bind_ok _ _ _ _ _ E1). unfold exec at 1. rewrite Hp1.
  destruct (restore (snapshot_id r) (platform e)) as [p' out] eqn:Hres. cbn [fst snd].
  set (e2 := {| manager := manager e1; world := world e1; platform := p'; clock := clock e1 |}).
  assert (Ha2 : aside e1 e2) by by split.
  pose proof (aside_intact _ _ Ha2 Hi1) as Hi2.
  pose proof (progress_trans _ _ _ Hi1 Hg1 (aside_progress _ _ Ha2)) as Hg2.
  assert (Hpl2 : placed (manager e2)) by by eapply placed_progress.
  assert (Hf2 : faults (world e2) = []) by by apply (no_new_faults _ _ Hg2).
  assert (Hset : forall s result, transition RollingBack s -> exists e',
    (let! _ := replace_record (set_state s r) in audit (set_state s r) result) e2 = (e', Ok tt) /\
    rolled_back r s e e').
  { intros s result' Ht. destruct (settle e2 (set_state RollingBack r) (set_state s r) result' Hi2 Hpl2
      Hf2 Hin1 eq_refl) as (e'&E'&Hi'&Hg'&Hp'&Hin'&Hd'&Ho').
    { by apply (move (set_state RollingBack r)). }
    exists e'. split; [done|]. split; try done.
    - exact (progress_trans _ _ _ Hi2 Hg2 Hg').
    - by rewrite Hp', Hres.
    - intros y Hy Hne. apply Ho'; [|done]. by apply Ho1. }
  destruct out as [x|[]].
  - destruct (Hset Failed "rollback_failed"%string not_restored) as (e'&E'&Hrb). exists e'. split; [|done].
    unfold m_bind in *. destruct (replace_record _ e2) as [e3 [[]|y|]]; try done.
    by rewrite E'.
  - destruct (Hset RolledBack result restored) as (e'&E'&Hrb). by exists e'.
Qed.

Lemma kept_find {A} (k : PendingSafeApply -> op A) id e :
  intact e ->
  (forall r, r ∈ memory e -> operation_id r = id -> is_pending (state r) = true ->
     m_holds (k r) e (kept e)) ->
  m_holds (m_bind (find_active id) k) e (kept e).
Proof.
  intros Hi Hk. unfold m_holds.
  destruct (find_active_spec e id) as ([r|x|]&Hf&Ho); [|unfold m_bind; rewrite Hf|done].
  - rewrite (m_bind_ok _ _ _ _ _ Hf). by apply Hk; apply Ho.
  - split; [done|]. split; [done|apply progress_refl].
Qed.

(** [confirm_at]: a confirmation that is returned is on the disk. *)
Definition confirmation id now (e' : Env P) (o : res PendingSafeApply) : Prop :=
  forall r, o = Ok r -> state r = Confirmed /\ operation_id r = id /\ r ∈ memory e' /\
    durable e' = Some (memory e') /\ now < deadline_unix_seconds r.

Lemma confirm_at_spec id now e :
  intact e ->
  m_holds (confirm_at id now) e (fun e' o => kept e e' o /\ confirmation id now e' o).
Proof.
  intros Hi. unfold confirm_at, m_holds.
  destruct (find_active_spec e id) as ([r|x|]&Hf&Ho); [|unfold m_bind; rewrite Hf|done].
  2: { split; [done|]. split; [by split; [|apply progress_refl]|done]. }
  rewrite (m_bind_ok _ _ _ _ _ Hf). destruct Ho as (Hr&Hid&Hp).
  destruct (Z.leb_spec (deadline_unix_seconds r) now) as [Hlt|Hlt].
  { split; [done|]. split; [by split; [|apply progress_refl]|done]. }
  change (m_holds (let! _ := replace_record (set_state Confirmed r) in
    let! _ := audit (set_state Confirmed r) "confirmed" in
    m_ret (Ok (set_state Confirmed r))) e (fun e' o => kept e e' o /\ confirmation id now e' o)).
  eapply (m_holds_bind (replace_record (set_state Confirmed r))).
  { apply (replace_record_spec e r); [done..|]. by apply move, confirmed. }
  { intros e1 x (Hi1&Hg1&_). split; [by split|by intros ? [=]]. }
  intros e1 [] (Hi1&Hg1&_&Hin1&_&Hd1&_).
  eapply (m_holds_bind (audit (set_state Confirmed r) "confirmed")).
  { apply audit_spec, (intact_paths _ Hi1). }
  { intros e2 x (Ha2&_). split; [|by intros ? [=]]. split; [by eapply aside_intact|].
    by eapply progress_trans; [exact Hi1|exact Hg1|apply aside_progress]. }
  intros e2 [] (Ha2&_). apply m_holds_ret; [done|]. split.
  { split; [by eapply aside_intact|].
    by eapply progress_trans; [exact Hi1|exact Hg1|apply aside_progress]. }
  intros r' [= <-]. unfold memory in *.
  rewrite (aside_durable _ _ Ha2), (aside_manager _ _ Ha2). by split_and!; [..|apply Hd1|].
Qed.

Lemma kept_rollback_all ids : forall e, intact e -> m_holds (rollback_all ids) e (kept e).
Proof.
  induction ids as [|id ids IH]; intros e Hi; simpl; [by apply kept_same|].
  apply kept_bind; [by apply kept_rollback_internal|]. intros e' _ _ Hi'. by apply IH.
Qed.

Lemma kept_recover_expired now e : intact e -> m_holds (recover_expired now) e (kept e).
Proof.
  intros Hi. unfold recover_expired, m_holds. rewrite (m_bind_ok _ _ (memory e) e e) by done.
  apply (kept_bind (rollback_all _)); [by apply kept_rollback_all|].
  intros e' _ _ Hi'. by apply kept_same.
Qed.

Lemma kept_step {A B} (o : res A) (k : A -> op B) e :
  intact e -> o <> Panic -> (forall a, o = Ok a -> m_holds (k a) e (kept e)) ->
  m_holds (m_bind (m_ret o) k) e (kept e).
Proof.
  intros Hi Ho Hk. apply kept_bind; [by apply kept_same|].
  intros e' a [= <- Ha] _. by apply Hk.
Qed.

Lemma kept_weaken {A} (m : op A) e (Q : Env P -> res A -> Prop) :
  m_holds m e (fun e' o => kept e e' o /\ Q e' o) -> m_holds m e (kept e).
Proof. intros Hm. eapply m_holds_weaken; [exact Hm|]. by intros e' o [? _]. Qed.

Lemma find_id_none l id :
  List.find (fun r => bool_decide (operation_id r = id)) l = None -> id ∉ operation_id <$> l.
Proof.
  intros Hf Hin. apply list_elem_of_fmap in Hin as (r&->&Hr). apply list_elem_of_In in Hr.
  apply (find_none _ _ Hf) in Hr. by rewrite bool_decide_eq_true_2 in Hr.
Qed.

Lemma existsb_pending l i :
  existsb (fun r => is_pending (state r) && bool_decide (target_interface r = i)) l = false ->
  forall x, x ∈ l -> is_pending (state x) = true -> target_interface x <> i.
Proof.
  intros He x Hx Hp <-. apply existsb_false in He. rewrite Forall_forall in He.
  specialize (He x Hx). simpl in He. rewrite Hp, bool_decide_eq_true_2 in He; done.
Qed.

(** The record of a new transaction. *)
Definition new_record q r (e e' : Env P) : Prop :=
  state r = Prepared /\ operation_id r = req_operation_id q /\
  target_interface r = req_interface_id q /\
  deadline_unix_seconds r = req_now_unix_seconds q + req_confirm_timeout_seconds q /\
  memory e' = memory e ++ [r] /\ durable e' = Some (memory e') /\
  exists v, snapshot (req_interface_id q) (platform e) = (platform e', inr (snapshot_id r, v)).

Definition prepared q e (e' : Env P) (o : res (PendingSafeApply + PendingSafeApply)) : Prop :=
  kept e e' o /\
  match o with
  | Ok (inl r) => e' = e /\ r ∈ memory e /\ is_pending (state r) = true /\
                  operation_id r = req_operation_id q /\ target_interface r = req_interface_id q
  | Ok (inr r) => new_record q r e e'
  | _ => True
  end.

Lemma prepared_reject q e c m : intact e -> m_holds (reject c m) e (prepared q e).
Proof. intros Hi. apply m_holds_ret; [done|]. split; [split; [done|apply progress_refl]|done]. Qed.

Lemma hash_json_ok b e : hash_json (inr b) e = (e, Ok (sha256_hex b)).
Proof. done. Qed.

Lemma prepare_spec q e : intact e -> m_holds (prepare q) e (prepared q e).
Proof.
  intros Hi. unfold prepare.
  destruct (trimmed_empty _ || trimmed_empty _); [by apply prepared_reject|].
  destruct (negb _) eqn:Ht; [by apply prepared_reject|].
  apply (m_holds_lift _ _ _ (fun _ => True)).
  { pose proof (validate_desired_total (req_desired_state q)). by destruct (validate_desired _). }
  { intros x. split; [split; [done|apply progress_refl]|done]. }
  intros [] _. destruct (desired_total (req_desired_state q)) as [b Hb]. rewrite Hb.
  apply (m_holds_step _ _ _ _ _ _ (hash_json_ok b e)).
  apply (m_holds_step (gets (fun e => pending (manager e))) _ (memory e) e e); [done|].
  destruct (List.find _ _) as [r|] eqn:Hf.
  - destruct (is_pending _ && _ && _) eqn:Hb2; [|by apply prepared_reject].
    apply andb_true_iff in Hb2 as [[Hp Ht2]%andb_true_iff Hh]. apply find_some in Hf as [Hin Hid].
    apply bool_decide_eq_true in Ht2, Hid. apply list_elem_of_In in Hin.
    apply m_holds_ret; [done|]. by split; [split; [|apply progress_refl]|].
  - destruct (existsb _ _) eqn:Hex; [by apply prepared_reject|].
    pose proof (exec_aside (snapshot (req_interface_id q)) e) as Ha.
    destruct (exec (snapshot (req_interface_id q)) e) as [e1 o] eqn:He1. cbn [fst] in Ha.
    pose proof (aside_intact _ _ Ha Hi) as Hi1. pose proof (aside_progress _ _ Ha) as Hg1.
    unfold exec in He1.
    destruct (snapshot (req_interface_id q) (platform e)) as [p [x|[sid v]]] eqn:Hsnap;
      injection He1 as <- <-.
    { unfold m_holds, m_bind, exec. rewrite Hsnap. split; [done|]. by split. }
    eapply m_holds_step; [unfold exec; rewrite Hsnap; reflexivity|]. cbv beta iota.
    apply (m_holds_lift _ _ _ (fun d => d = req_now_unix_seconds q + req_confirm_timeout_seconds q)).
    { apply holds_ok_or. intros d Hd. apply checked_add_Some in Hd. apply Hd. }
    { intros x. by split. }
    intros deadline ->. destruct (value_total v) as [bv Hbv]. rewrite Hbv.
    apply (m_holds_step _ _ _ _ _ _ (hash_json_ok bv _)).
    set (r := {| operation_id := _ |}). set (e1 := {| manager := manager e |}) in *.
    apply (m_holds_assoc (set_pending (memory e ++ [r])) (fun _ => persist)).
    eapply m_holds_bind; [apply (persist_after_set e1)| |].
    + done.
    + apply wf_snoc; [apply (intact_memory _ Hi)|by apply find_id_none|by apply existsb_pending].
    + apply evolves_snoc.
    + intros e2 x (Hi2&Hg2&_). split; [|done]. split; [done|].
      exact (progress_trans _ _ _ Hi1 Hg1 Hg2).
    + intros e2 [] (Hi2&Hg2&Hp2&Hm2&Hd2&_). apply m_holds_ret; [done|].
      split; [split; [done|exact (progress_trans _ _ _ Hi1 Hg1 Hg2)]|].
      split_and!; try done; [by rewrite Hm2; apply Hd2|]. exists v. by rewrite Hsnap, Hp2.
Qed.

Lemma kept_attempt q e : intact e -> m_holds (attempt q) e (kept e).
Proof. intros Hi. apply kept_bind; [by apply kept_exec|]. intros. by apply kept_exec. Qed.

Lemma attempt_memory q e : memory (attempt q e).1 = memory e.
Proof.
  unfold attempt, memory, m_bind, exec. destruct (apply _ _ _) as [p [x|[]]]; [done|]. simpl.
  by destruct (verify _ _ _).
Qed.

Lemma kept_apply_prepared q r e :
  intact e -> r ∈ memory e -> state r = Prepared ->
  m_holds (apply_prepared q r) e (kept e).
Proof.
  intros Hi Hr Hs. unfold apply_prepared, m_holds.
  destruct (kept_attempt q e Hi) as [Hnp [Hi1 Hg1]]. pose proof (attempt_memory q e) as Hm1.
  destruct (attempt q e) as [e1 o]. cbn [fst snd] in *.
  destruct o as [[]|x|]; [| |done].
  - assert (Hk : m_holds (let! _ := replace_record (set_state PendingConfirmation r) in
      let! _ := audit (set_state PendingConfirmation r) "pending_confirmation" in
      m_ret (Ok (set_state PendingConfirmation r))) e1 (kept e1)).
    { apply (kept_bind (replace_record _)).
      - eapply (kept_replace e1 r); [done|by rewrite Hm1|by rewrite Hs|].
        apply move. rewrite Hs. constructor.
      - intros e2 _ _ Hi2. apply (kept_bind (audit _ _)); [by apply kept_audit|].
        intros e3 _ _ Hi3. by apply kept_same. }
    destruct Hk as [Hp [Hi' Hg']]. split; [exact Hp|].
    split; [exact Hi'|exact (progress_trans _ _ _ Hi1 Hg1 Hg')].
  - destruct (kept_rollback_internal (req_operation_id q) "apply_failed" e1 Hi1) as [Hp [Hi' Hg']].
    destruct (rollback_internal _ _ e1) as [e2 [[]|y|]]; [| |done]; cbn [fst snd] in *;
      (split; [done|split; [exact Hi'|exact (progress_trans _ _ _ Hi1 Hg1 Hg')]]).
Qed.

Lemma kept_begin q e : intact e -> m_holds (begin q) e (kept e).
Proof.
  intros Hi. unfold begin. apply kept_bind; [eapply kept_weaken; by apply prepare_spec|].
  intros e' [r|r] E Hi'; [by apply kept_same|].
  pose proof (prepare_spec q e Hi) as [_ Hp]. rewrite E in Hp. destruct Hp as [_ (Hs&_&_&_&Hm&_)].
  apply kept_apply_prepared; [done| |done]. simpl in Hm. rewrite Hm.
  apply elem_of_app. right. by apply list_elem_of_singleton.
Qed.

(** ** All histories. *)

(** One operation of the helper, on any faults to come and any platform; or a
    restart: the memory is lost, the store read again. A crash at a system call
    is that call's fault followed by a restart, as every method returns at the
    first failed call. *)
Inductive step : Env P -> Env P -> Prop :=
  | step_begin q e : step e (begin q e).1
  | step_confirm id now e : step e (confirm_at id now e).1
  | step_rollback id e : step e (rollback id e).1
  | step_recover now e : step e (recover_expired now e).1
  | step_environment e q p c :
      step e {| manager := manager e; world := {| files := files (world e); faults := q |};
                platform := p; clock := c |}
  | step_restart e w m :
      open (state_path (manager e)) (audit_path (manager e)) (world e) = (w, Ok m) ->
      step e {| manager := m; world := w; platform := platform e; clock := clock e |}.

(** [open] reads the store. *)
Lemma open_spec sp ap w w' m :
  open sp ap w = (w', Ok m) ->
  state_path m = sp /\ audit_path m = ap /\ files w' = files w /\
  match files w !! sp with
  | Some b => pending_from_slice b = inr (pending m)
  | None => pending m = []
  end.
Proof.
  unfold open, file_read, next_fault. destruct w as [f [|[k|] q]]; simpl;
    [|done|]; (destruct (f !! sp) as [b|]; [|intros [= <- <-]; done]);
    destruct (pending_from_slice b) as [x|l]; try done; by intros [= <- <-].
Qed.

Lemma durable_restart e w m :
  open (state_path (manager e)) (audit_path (manager e)) (world e) = (w, Ok m) ->
  durable e = Some (pending m) /\
  durable {| manager := m; world := w; platform := platform e; clock := clock e |} = durable e.
Proof.
  intros Ho. apply open_spec in Ho as (Hs&Ha&Hf&Hb). unfold durable. simpl. rewrite Hs, Hf.
  destruct (files (world e) !! _) as [b|]; [|by rewrite Hb]. by rewrite Hb.
Qed.


Lemma step_kept {A} (m : op A) e :
  intact e -> m_holds m e (kept e) ->
  intact (m e).1 /\
  forall d d', durable e = Some d -> durable (m e).1 = Some d' -> evolves d d'.
Proof. intros Hi [_ [Hi' Hg]]. split; [done|]. apply (disk_evolves _ _ Hg). Qed.

Lemma step_intact e e' :
  step e e' -> intact e ->
  intact e' /\ forall d d', durable e = Some d -> durable e' = Some d' -> evolves d d'.
Proof.
  intros Hs Hi. destruct Hs as [q e|id now e|id e|now e|e q p c|e w m Ho].
  - by apply step_kept, kept_begin.
  - apply step_kept; [done|]. eapply kept_weaken. by apply confirm_at_spec.
  - by apply step_kept, kept_rollback_internal.
  - by apply step_kept, kept_recover_expired.
  - split; [by destruct Hi|]. intros d d' Hd Hd'. change (durable e = Some d') in Hd'.
    rewrite Hd in Hd'. by injection Hd' as ->.
  - destruct (durable_restart e w m Ho) as [Hd Hd2]. destruct Hi as [Hp Hm (d&Hd'&Hw&_)].
    rewrite Hd in Hd'. injection Hd' as <-. apply open_spec in Ho as (Hsp&Hap&_).
    split; [split|].
    + unfold paths_ok in *. simpl. by rewrite Hsp, Hap.
    + done.
    + exists (pending m). by rewrite Hd2.
    + intros d d' Hd1 Hd3. rewrite Hd2, Hd1 in Hd3. by injection Hd3 as ->.
Qed.

Lemma steps_intact e e' :
  rtc step e e' -> intact e ->
  intact e' /\ forall d d', durable e = Some d -> durable e' = Some d' -> evolves d d'.
Proof.
  intros Hs. induction Hs as [e|e e1 e' Hs _ IH]; intros Hi.
  - split; [done|]. intros d d' -> [= ->]. done.
  - destruct (step_intact _ _ Hs Hi) as [Hi1 He1]. destruct (IH Hi1) as [Hi' He'].
    split; [done|]. intros d d' Hd Hd'. destruct (intact_disk _ Hi1) as (d1&Hd1&_).
    etrans; [by apply (He1 d d1)|by apply (He' d1 d')].
Qed.

Lemma refused e r :
  intact e -> r ∈ memory e -> is_pending (state r) = false ->
  forall result, rollback_internal (operation_id r) result e =
    (e, Err (new_error InvalidState "Safe Apply operation is not pending" false)).
Proof.
  intros Hi Hr Hp result. unfold rollback_internal, find_active, m_bind, gets, m_ret.
  destruct (List.find _ (pending (manager e))) as [x|] eqn:Hf; [exfalso|done].
  apply find_some in Hf as [Hin [Hid Hpx]%andb_true_iff]. apply bool_decide_eq_true in Hid.
  apply list_elem_of_In in Hin.
  rewrite (same_id _ _ _ (intact_memory _ Hi) Hin Hr Hid) in Hpx. congruence.
Qed.

(** C18: in every history of begins, confirmations, rollbacks, recoveries,
    restarts and crashes, whatever system calls fail and whatever the platform
    does, operation IDs stay unique and an interface never has two pending
    transactions, in memory and on the disk; and the disk always holds a valid
    store that is an earlier version of the memory. *)
Theorem pending_exclusive e e' :
  intact e -> rtc step e e' ->
  wf (memory e') /\ exists d, durable e' = Some d /\ wf d /\ evolves d (memory e').
Proof. intros Hi Hs. by destruct (steps_intact _ _ Hs Hi) as [[_ Hm Hd] _]. Qed.

(** C22: A confirmation that was returned is final: after any later operations,
    failures, restarts and crashes, the record is still confirmed in memory and
    on the disk, and rolling it back is refused without touching the platform. *)
Theorem confirmation_final e e1 e' id now r :
  intact e -> confirm_at id now e = (e1, Ok r) -> rtc step e1 e' ->
  state r = Confirmed /\ operation_id r = id /\ now < deadline_unix_seconds r /\
  r ∈ memory e' /\ (exists d, durable e' = Some d /\ r ∈ d) /\
  forall result, rollback_internal id result e' =
    (e', Err (new_error InvalidState "Safe Apply operation is not pending" false)).
Proof.
  intros Hi Hc Hs. destruct (confirm_at_spec id now e Hi) as [_ [[Hi1 _] Hr]]. rewrite Hc in *.
  destruct (Hr r eq_refl) as (Hst&Hid&Hin&Hd1&Hnow). cbn [fst] in *.
  destruct (steps_intact _ _ Hs Hi1) as [Hi' Hev]. destruct (intact_disk _ Hi') as (d&Hd&_&Hdm).
  assert (Hp : is_pending (state r) = false) by by rewrite Hst.
  assert (Hrd : r ∈ d) by (eapply evolves_terminal; [by apply (Hev _ _ Hd1 Hd)|done|done]).
  assert (Hrm : r ∈ memory e') by by eapply evolves_terminal.
  split_and!; [done|done|done|done|by exists d|]. rewrite <- Hid. by apply refused.
Qed.

(** ** Recovery. *)

(** What the platform keeps: the configuration of each interface, and the
    snapshots with the interface and configuration they hold. A restore that
    succeeds puts the saved configuration back on its interface; no operation
    on an interface changes another one or loses a snapshot. *)
Class ExecutorLaws := {
  observe : P -> string -> V;
  saved : P -> string -> option (string * V);
  snapshot_law i p p' sid v : snapshot i p = (p', inr (sid, v)) ->
    v = observe p i /\ saved p' sid = Some (i, v) /\
    (forall j, observe p' j = observe p j) /\
    (forall s x, saved p s = Some x -> saved p' s = Some x);
  apply_law i d p : let p' := (apply i d p).1 in
    saved p' = saved p /\ forall j, j <> i -> observe p' j = observe p j;
  verify_law i d p : let p' := (verify i d p).1 in
    saved p' = saved p /\ forall j, observe p' j = observe p j;
  restore_law sid p p' i v : restore sid p = (p', inr tt) -> saved p sid = Some (i, v) ->
    saved p' = saved p /\ observe p' i = v /\ forall j, j <> i -> observe p' j = observe p j;
}.

Context `{!ExecutorLaws}.

(** The platform can restore every snapshot it keeps. *)
Definition restorable (p : P) : Prop :=
  forall p' sid x, saved p' = saved p -> saved p' sid = Some x ->
    (restore sid p').2 = inr tt.

(** The snapshot of [r] holds the configuration [v] of its interface. *)
Definition covers (p : P) r (v : V) : Prop :=
  saved p (snapshot_id r) = Some (target_interface r, v).

Lemma restore_covered p r v :
  restorable p -> covers p r v ->
  let p' := (restore (snapshot_id r) p).1 in
  (restore (snapshot_id r) p).2 = inr tt /\ saved p' = saved p /\ restorable p' /\
  observe p' (target_interface r) = v /\
  forall j, j <> target_interface r -> observe p' j = observe p j.
Proof.
  intros Hr Hc. pose proof (Hr p _ _ eq_refl Hc) as Ho.
  destruct (restore (snapshot_id r) p) as [p' o] eqn:E. simpl in *. subst o.
  destruct (restore_law _ _ _ _ _ E Hc) as (Hs&Hv&Hj). split_and!; try done.
  intros p2 sid x Hs2. apply Hr. by rewrite Hs2.
Qed.

(** The records [rs] are pending, of distinct interfaces, with their snapshots. *)
Lemma rollback_all_restores (val : PendingSafeApply -> V) rs : forall e,
  intact e -> placed (manager e) -> faults (world e) = [] -> restorable (platform e) ->
  NoDup (operation_id <$> rs) ->
  Forall (fun r => r ∈ memory e /\ is_pending (state r) = true /\
                   covers (platform e) r (val r)) rs ->
  exists e', rollback_all (operation_id <$> rs) e = (e', Ok tt) /\
    intact e' /\ progress e e' /\
    (durable e = Some (memory e) -> durable e' = Some (memory e')) /\
    Forall (fun r => set_state RolledBack r ∈ memory e' /\
                     observe (platform e') (target_interface r) = val r) rs /\
    (forall j, j ∉ target_interface <$> rs -> observe (platform e') j = observe (platform e) j) /\
    (forall y, y ∈ memory e -> operation_id y ∉ operation_id <$> rs -> y ∈ memory e').
Proof.
  induction rs as [|r rs IH]; intros e Hi Hpl Hf Hres Hn Hall; cbn [fmap list_fmap rollback_all].
  { exists e. split_and!; try done. apply progress_refl. }
  apply Forall_cons in Hall as [(Hr&Hp&Hc) Hall]. rewrite fmap_cons in Hn.
  apply NoDup_cons in Hn as [Hnr Hn].
  destruct (restore_covered _ _ _ Hres Hc) as (Ho&Hsv&Hres'&Hobs&Hoth).
  destruct (rollback_internal_ok e r "deadline_expired" Hi Hpl Hf Hr Hp) as (e1&E1&Hrb).
  rewrite Ho in E1, Hrb. destruct Hrb as [Hi1 Hg1 Hp1 Hin1 Hd1 Ho1].
  destruct (IH e1) as (e'&E'&Hi'&Hg'&Hd'&Hall'&Hoth'&Hk'); [done|by eapply placed_progress|
    by apply (no_new_faults _ _ Hg1)|by rewrite Hp1|done| |].
  { apply Forall_forall. intros x Hx. rewrite Forall_forall in Hall.
    destruct (Hall x Hx) as (Hxm&Hxp&Hxc). split_and!; [|done|].
    - apply Ho1; [done|]. intros Heq. apply Hnr. rewrite <- Heq. by apply list_elem_of_fmap_2.
    - unfold covers in *. by rewrite Hp1, Hsv. }
  exists e'. rewrite (m_bind_ok _ _ _ _ _ E1).
  assert (Hne : forall x, x ∈ rs -> target_interface x <> target_interface r).
  { intros x Hx Heq. rewrite Forall_forall in Hall. destruct (Hall x Hx) as (Hxm&Hxp&_).
    apply Hnr. rewrite <- (exclusive _ (intact_memory _ Hi) x r Hxm Hr Hxp Hp Heq).
    by apply list_elem_of_fmap_2. }
  split_and!; [done|done|exact (progress_trans _ _ _ Hi1 Hg1 Hg')|intros _; by apply Hd'| | |].
  - constructor; [|done]. split.
    + by apply Hk'.
    + rewrite Hoth', Hp1; [done|]. intros Hin. apply list_elem_of_fmap in Hin as (x&Hx&Hxr).
      by apply (Hne x Hxr).
  - intros j Hj. apply not_elem_of_cons in Hj as [Hj1 Hj2]. by rewrite Hoth', Hp1, Hoth.
  - intros y Hy Hj. apply not_elem_of_cons in Hj as [Hj1 Hj2]. apply Hk'; [|done]. by apply Ho1.
Qed.

Lemma filter_is_sublist {A} (f : A -> bool) (l : list A) : List.filter f l `sublist_of` l.
Proof. induction l as [|x l IH]; simpl; [done|]. destruct (f x); by constructor. Qed.

(** Recovery at a time [now], when no system call fails and the platform can
    restore the snapshots it keeps: every pending transaction whose deadline has
    come is reported, rolled back in memory and on the disk, and its interface
    has its saved configuration again, while interfaces without an expired
    transaction are left as they are. *)
Theorem expired_recovered e now (val : PendingSafeApply -> V) :
  intact e -> placed (manager e) -> faults (world e) = [] -> restorable (platform e) ->
  (forall r, r ∈ memory e -> is_expired now r = true -> covers (platform e) r (val r)) ->
  durable e = Some (memory e) ->
  exists e' ids, recover_expired now e = (e', Ok ids) /\ intact e' /\
    durable e' = Some (memory e') /\
    (forall r, r ∈ memory e -> is_expired now r = true ->
       operation_id r ∈ ids /\ set_state RolledBack r ∈ memory e' /\
       observe (platform e') (target_interface r) = val r) /\
    (forall j, (forall r, r ∈ memory e -> is_expired now r = true -> target_interface r <> j) ->
       observe (platform e') j = observe (platform e) j).
Proof.
  intros Hi Hpl Hf Hres Hcov Hd.
  assert (Hin : forall r, r ∈ List.filter (is_expired now) (memory e) <->
    r ∈ memory e /\ is_expired now r = true).
  { intros r. rewrite !list_elem_of_In. apply filter_In. }
  destruct (rollback_all_restores val (List.filter (is_expired now) (memory e)) e)
    as (e'&E'&Hi'&_&Hd'&Hall&Hoth&_); try done.
  { eapply sublist_NoDup; [apply (unique_ids _ (intact_memory _ Hi))|].
    apply fmap_sublist, filter_is_sublist. }
  { apply Forall_forall. intros r [Hr He]%Hin. split_and!; [done| |by apply Hcov].
    by apply andb_true_iff in He as [? _]. }
  exists e', (operation_id <$> List.filter (is_expired now) (memory e)). split_and!; [|done|by apply Hd'| |].
  - unfold recover_expired. rewrite (m_bind_ok _ _ (memory e) e e) by done.
    by rewrite (m_bind_ok _ _ _ _ _ E').
  - intros r Hr He. rewrite Forall_forall in Hall. destruct (Hall r) as [Hm Ho]; [by apply Hin|].
    split_and!; [|done|done]. apply list_elem_of_fmap_2. by apply Hin.
  - intros j Hj. apply Hoth. intros Hex. apply list_elem_of_fmap in Hex as (r&->&[Hr He]%Hin).
    by apply (Hj r).
Qed.

(** Reopening a store without faults gives the durable records back. *)
Lemma reopen e d p c :
  intact e -> durable e = Some d ->
  let w := {| files := files (world e); faults := [] |} in
  exists m, open (state_path (manager e)) (audit_path (manager e)) w = (w, Ok m) /\
    let e' := {| manager := m; world := w; platform := p; clock := c |} in
    intact e' /\ memory e' = d /\ durable e' = Some d /\
    state_path m = state_path (manager e) /\ audit_path m = audit_path (manager e).
Proof.
  intros Hi Hd w.
  assert (Ho : exists m, open (state_path (manager e)) (audit_path (manager e)) w = (w, Ok m)).
  { unfold durable in Hd. unfold open, file_read, next_fault, w. simpl.
    destruct (files (world e) !! _) as [b|]; [|eauto]. destruct (pending_from_slice b); [done|eauto]. }
  destruct Ho as [m Ho]. exists m. split; [done|].
  pose proof (open_spec _ _ _ _ _ Ho) as (Hs&Ha&_&_).
  set (e1 := {| manager := manager e; world := w; platform := p; clock := c |}).
  assert (Hi1 : intact e1) by by destruct Hi.
  destruct (durable_restart e1 w m Ho) as [Hd1 Hd2].
  change (durable e = Some (pending m)) in Hd1. rewrite Hd in Hd1. injection Hd1 as ->.
  destruct (step_intact e1 _ (step_restart e1 w m Ho) Hi1) as [Hi2 _].
  split_and!; try done. exact (eq_trans Hd2 Hd).
Qed.

(** The configuration that the snapshot of [r] holds. *)
Definition saved_of (p : P) (default : V) r : V :=
  match saved p (snapshot_id r) with Some (_, v) => v | None => default end.

Definition covered (e : Env P) : Prop := forall r, r ∈ memory e -> is_pending (state r) = true ->
  exists v, covers (platform e) r v.

(** C17: when [begin] gets past the point where it first changes the interface,
    a crash at any later moment is recoverable: the store that a restarted
    helper reads from the disk holds the transaction, and recovery at the
    deadline gives the interface the configuration it had before [begin],
    whatever was applied to the platform in between. *)
Theorem crash_recovery q e e1 r p c now :
  intact e -> placed (manager e) -> covered e -> prepare q e = (e1, Ok (inr r)) ->
  restorable p -> (forall s x, saved (platform e1) s = Some x -> saved p s = Some x) ->
  deadline_unix_seconds r <= now ->
  let w := {| files := files (world e1); faults := [] |} in
  exists m e2 ids, open (state_path (manager e)) (audit_path (manager e)) w = (w, Ok m) /\
    recover_expired now {| manager := m; world := w; platform := p; clock := c |} = (e2, Ok ids) /\
    req_operation_id q ∈ ids /\ set_state RolledBack r ∈ memory e2 /\
    durable e2 = Some (memory e2) /\
    observe (platform e2) (req_interface_id q) = observe (platform e) (req_interface_id q).
Proof.
  intros Hi Hpl Hcov Hprep Hres Hsaved Hnow w.
  destruct (prepare_spec q e Hi) as [_ [[Hi1 Hg1] Hq]]. rewrite Hprep in *. cbn [fst snd] in *.
  destruct Hq as (Hst&Hid&Hif&_&Hm&Hd&v&Hsnap).
  destruct (snapshot_law _ _ _ _ _ Hsnap) as (Hv&Hsv&_&Hold).
  destruct (reopen e1 (memory e1) p c Hi1 Hd) as (m&Ho&Hi2&Hm2&Hd2&Hs2&Ha2). fold w in Ho, Hi2, Hm2, Hd2.
  rewrite (same_state_path _ _ Hg1), (same_audit_path _ _ Hg1) in Ho.
  set (e2 := {| manager := m; world := w; platform := p; clock := c |}) in *.
  assert (Hr : r ∈ memory e2).
  { rewrite Hm2, Hm. apply elem_of_app. right. by apply list_elem_of_singleton. }
  assert (Hexp : is_expired now r = true).
  { unfold is_expired. rewrite Hst. simpl. by apply Z.leb_le. }
  assert (Hrv : covers p r v) by (unfold covers; rewrite Hif; by apply Hsaved).
  destruct (expired_recovered e2 now (saved_of p v)) as (e3&ids&E3&_&Hd3&Hall&_);
    [done| |done|done| |by rewrite Hm2| ].
  - unfold placed. simpl. rewrite Hs2, Ha2. by apply (placed_progress _ _ Hg1).
  - intros x Hx Hex. rewrite Hm2, Hm in Hx. apply andb_true_iff in Hex as [Hpx _].
    assert (Hc : exists v', covers p x v').
    { apply elem_of_app in Hx as [Hx|Hx].
      - destruct (Hcov x Hx Hpx) as [v' Hc]. exists v'. by apply Hsaved, Hold.
      - apply list_elem_of_singleton in Hx as ->. by exists v. }
    destruct Hc as [v' Hc]. unfold covers, saved_of in *. simpl. by rewrite Hc.
  - exists m, e3, ids. destruct (Hall r Hr Hexp) as (Hin&Hrb&Hobs). split_and!; try done.
    + by rewrite <- Hid.
    + rewrite <- Hif, Hobs. unfold saved_of. rewrite Hrv. by rewrite Hv, Hif.
Qed.

(** The platform after applying and verifying. *)
Lemma attempt_platform q e :
  saved (platform (attempt q e).1) = saved (platform e) /\
  forall j, j <> req_interface_id q ->
    observe (platform (attempt q e).1) j = observe (platform e) j.
Proof.
  unfold attempt, m_bind, exec. simpl.
  destruct (apply_law (req_interface_id q) (req_desired_state q) (platform e)) as [Hs Ho].
  destruct (apply _ _ (platform e)) as [p1 [x|[]]]; simpl in *; [done|].
  destruct (verify_law (req_interface_id q) (req_desired_state q) p1) as [Hs2 Ho2].
  destruct (verify _ _ p1) as [p2 [x|[]]]; simpl in *;
    (split; [congruence|intros j Hj; rewrite Ho2; auto]).
Qed.

(** How a transaction that was prepared as [r] ends: pending with the desired
    state verified; or restored; or, when the restore fails too, failed. *)
Definition transaction_end q r (e e' : Env P) (o : res PendingSafeApply) : Prop :=
  let i := req_interface_id q in
  let unchanged := forall j, j <> i -> observe (platform e') j = observe (platform e) j in
  match o with
  | Ok r' => r' = set_state PendingConfirmation r /\ r' ∈ memory e' /\ unchanged /\
             exists p, verify i (req_desired_state q) p = (platform e', inr tt)
  | Err x => set_state RolledBack r ∈ memory e' /\ unchanged /\
             observe (platform e') i = observe (platform e) i \/
             set_state Failed r ∈ memory e' /\ code x = RollbackFailed
  | Panic => False
  end.

Lemma attempt_aside q e : aside e (attempt q e).1.
Proof.
  unfold attempt, m_bind, exec. destruct (apply _ _ _) as [p [x|[]]]; simpl; [by split|].
  by destruct (verify _ _ _).
Qed.

Lemma attempt_verified q e e' :
  attempt q e = (e', Ok tt) ->
  exists p, verify (req_interface_id q) (req_desired_state q) p = (platform e', inr tt).
Proof.
  unfold attempt, m_bind, exec. destruct (apply _ _ _) as [p [x|[]]]; simpl; [done|].
  destruct (verify _ _ p) as [p2 [x|[]]] eqn:Hv; simpl; [done|]. intros [= <-]. by exists p.
Qed.

(** Without failing system calls, a [begin] that prepared the record [r] ends
    in one of three ways, each recorded on the disk: the desired state was
    applied and verified and [r] awaits confirmation; or apply or verify failed,
    the error is returned, [r] is rolled back and the interface has the
    configuration it had before; or the restore failed too, which is reported
    as such. Other interfaces are untouched in the first two. *)
Theorem begin_transaction q e e1 r :
  intact e -> placed (manager e) -> faults (world e) = [] -> prepare q e = (e1, Ok (inr r)) ->
  exists e' o, begin q e = (e', o) /\ intact e' /\ durable e' = Some (memory e') /\
    transaction_end q r e e' o.
Proof.
  intros Hi Hpl Hf Hprep. destruct (prepare_spec q e Hi) as [_ [[Hi1 Hg1] Hq]].
  rewrite Hprep in Hi1, Hg1, Hq. destruct Hq as (Hst&Hid&Hif&_&Hm&Hd&v&Hsnap). cbn [fst snd] in *.
  destruct (snapshot_law _ _ _ _ _ Hsnap) as (Hv&Hsv&Hobs&_).
  unfold begin. rewrite (m_bind_ok _ _ _ _ _ Hprep). unfold apply_prepared.
  destruct (attempt q e1) as [e2 o] eqn:Hat.
  pose proof (attempt_aside q e1) as Ha. pose proof (attempt_platform q e1) as [Hs2 Ho2].
  pose proof (attempt_memory q e1) as Hm2. rewrite Hat in *. cbn [fst] in *.
  pose proof (aside_intact _ _ Ha Hi1) as Hi2.
  pose proof (progress_trans _ _ _ Hi1 Hg1 (aside_progress _ _ Ha)) as Hg2.
  pose proof (placed_progress _ _ Hg2 Hpl) as Hpl2.
  pose proof (no_new_faults _ _ Hg2 Hf) as Hf2.
  assert (Hr : r ∈ memory e2).
  { rewrite Hm2, Hm. apply elem_of_app. right. by apply list_elem_of_singleton. }
  assert (Hp : is_pending (state r) = true) by by rewrite Hst.
  assert (Hoth : forall j, j <> req_interface_id q ->
    observe (platform e2) j = observe (platform e) j).
  { intros j Hj. by rewrite Ho2, Hobs. }
  destruct o as [[]|x|].
  - destruct (settle e2 r (set_state PendingConfirmation r) "pending_confirmation" Hi2 Hpl2 Hf2 Hr Hp)
      as (e3&E3&Hi3&_&Hp3&Hin3&Hd3&_); [apply move; rewrite Hst; constructor|].
    exists e3, (Ok (set_state PendingConfirmation r)). split; [|split; [done|split; [done|]]].
    + unfold m_bind in *. destruct (replace_record _ e2) as [e4 [[]|y|]]; try done. by rewrite E3.
    + split; [done|]. split; [done|]. rewrite Hp3. split; [by apply Hoth|].
      by eapply attempt_verified.
  - destruct (rollback_internal_ok e2 r "apply_failed" Hi2 Hpl2 Hf2 Hr Hp) as (e3&E3&Hrb).
    rewrite <- Hid, E3. destruct (restore (snapshot_id r) (platform e2)) as [p' [y|[]]] eqn:Hres;
      cbn [fst snd] in *; destruct Hrb as [Hi3 _ Hp3 Hin3 Hd3 _].
    + eexists e3, _. split; [reflexivity|]. split; [done|]. split; [done|]. by right.
    + rewrite Hres in Hp3. cbn [fst] in Hp3.
      destruct (restore_law _ _ _ (target_interface r) v Hres) as (_&Hri&Hro).
      { by rewrite Hs2, Hif. }
      exists e3, (Err x). split; [done|]. split; [done|]. split; [done|]. left.
      split; [done|]. split.
      * intros j Hj. rewrite Hp3, Hro by congruence. by apply Hoth.
      * by rewrite Hp3, <- Hif, Hri, Hv, Hif.
  - exfalso. pose proof (kept_attempt q e1 Hi1) as [Hnp _]. by rewrite Hat in Hnp.
Qed.

End Store.

End Manager.

(** ** A concrete platform and codec. *)

Module Sample.

#[local] Instance state_countable : Countable SafeApplyState.
Proof.
  refine (inj_countable' (fun s => match s with
      | Prepared => 0 | PendingConfirmation => 1 | Confirmed => 2
      | RollingBack => 3 | RolledBack => 4 | Failed => 5 end)
    (fun n => match n with
      | 0 => Prepared | 1 => PendingConfirmation | 2 => Confirmed
      | 3 => RollingBack | 4 => RolledBack | _ => Failed end) _).
  by intros [].
Defined.

#[local] Instance record_countable : Countable PendingSafeApply.
Proof.
  refine (inj_countable' (fun r =>
      (operation_id r, target_interface r, snapshot_id r, deadline_unix_seconds r, state r,
       old_state_hash r, new_state_hash r))
    (fun '(a, b, c, d, s, o, n) => Build_PendingSafeApply a b c d s o n) _).
  by intros [].
Defined.

(** The binary digits of an encoded store. *)
Fixpoint digits (p : positive) : bytes :=
  match p with xH => [2] | xO p => 0 :: digits p | xI p => 1 :: digits p end.

Fixpoint undigits (b : bytes) : option positive :=
  match b with
  | [2] => Some xH
  | 0 :: b => xO <$> undigits b
  | 1 :: b => xI <$> undigits b
  | _ => None
  end.

Lemma undigits_digits p : undigits (digits p) = Some p.
Proof. induction p as [p IH|p IH|]; cbn; [| |done]; (destruct (digits p) eqn:E; [done|]); by rewrite IH. Qed.

Definition parse (b : bytes) : string + list PendingSafeApply :=
  match undigits b with
  | Some p => match countable.decode p with Some l => inr l | None => inl "invalid"%string end
  | None => inl "invalid"%string
  end.

(** An interface is configured by a desired state, or as it was found. *)
Abbreviation conf := (option NetworkDesiredState).

#[local] Instance codec : Codec conf := {|
  pending_to_vec l := inr (digits (countable.encode l));
  pending_from_slice := parse;
  value_to_vec v := inr (match v with Some _ => [1] | None => [0] end);
  desired_to_vec d := inr (match mtu d with Some m => to_be_bytes 2 m | None => [] end);
  audit_event now r result := [now];
  sha256_hex b := pretty (foldr Z.add 0 b);
|}.

#[local] Instance codec_laws : CodecLaws conf.
Proof.
  split.
  - intros l. by eexists.
  - intros l b [= <-]. simpl. unfold parse. by rewrite undigits_digits, countable.decode_encode.
  - intros v. by eexists.
  - intros d. by eexists.
Qed.

(** A snapshot ID counts the snapshots taken before it, in unary. *)
Record Platform := {
  configured : gmap string NetworkDesiredState;
  snapshots : list (string * conf);
}.

Fixpoint snapshot_name (n : nat) : string :=
  match n with O => "" | S n => String "s" (snapshot_name n) end.

Lemma snapshot_name_length n : String.length (snapshot_name n) = n.
Proof. induction n; simpl; congruence. Qed.

Definition refusal : NetToolError := new_error HelperExecutionFailed "rejected" false.

(** Interfaces named [bad] refuse to be configured. *)
#[local] Instance executor : NetworkExecutor Platform conf := {|
  read_state i p := (p, inr (configured p !! i));
  snapshot i p :=
    ({| configured := configured p; snapshots := snapshots p ++ [(i, configured p !! i)] |},
     inr (snapshot_name (length (snapshots p)), configured p !! i));
  apply i d p :=
    if bool_decide (i = "bad"%string) then (p, inl refusal)
    else ({| configured := <[i := d]> (configured p); snapshots := snapshots p |}, inr tt);
  verify i d p :=
    (p, if bool_decide (configured p !! i = Some d) then inr tt else inl refusal);
  restore sid p :=
    match snapshots p !! String.length sid with
    | Some (i, v) => ({| configured := partial_alter (fun _ => v) i (configured p);
                         snapshots := snapshots p |}, inr tt)
    | None => (p, inl refusal)
    end;
|}.

#[local] Program Instance executor_laws : ExecutorLaws (P := Platform) (V := conf) := {|
  observe p i := configured p !! i;
  saved p s := snapshots p !! String.length s;
|}.
Next Obligation.
  intros i p p' sid v [= <- <- <-]. cbn [configured snapshots]. rewrite snapshot_name_length.
  split_and!; [done|by apply list_lookup_middle|done|].
  intros s x Hs. by apply lookup_app_l_Some.
Qed.
Next Obligation.
  intros i d p. simpl. case_bool_decide; simpl; [done|].
  split; [done|]. intros j Hj. by rewrite lookup_insert_ne.
Qed.
Next Obligation. done. Qed.
Next Obligation.
  intros sid p p' i v. simpl. destruct (snapshots p !! String.length sid) as [[j w]|]; [|done].
  intros [= <-] [= -> ->]. simpl. split_and!; [done|by rewrite lookup_partial_alter_eq|].
  intros j Hj. by rewrite lookup_partial_alter_ne.
Qed.

Definition found : Platform := {| configured := ∅; snapshots := [] |}.

Definition desired : NetworkDesiredState :=
  {| ipv4 := Dhcp; ipv6 := Automatic;
     dns := {| dns_automatic := true; servers := []; search_domains := [] |};
     routes := []; mtu := Some 1500 |}.

Definition request (id i : string) : BeginSafeApply :=
  {| req_operation_id := id; req_interface_id := i; req_desired_state := desired;
     req_confirm_timeout_seconds := 10; req_now_unix_seconds := 100 |}.

(** A fresh store with the fault script [q]. *)
Definition start (q : list (option nat)) : Env Platform :=
  {| manager := {| state_path := "/s/state.json"; audit_path := "/s/audit"; pending := [] |};
     world := {| files := ∅; faults := q |}; platform := found; clock := [] |}.

Lemma start_intact q : intact (start q).
Proof.
  split; [by vm_compute|apply wf_nil|]. exists []. split_and!; [done|apply wf_nil|].
  exists [], []. done.
Qed.

Lemma start_placed q : placed (manager (start q)).
Proof. by vm_compute. Qed.

Lemma found_restorable p : restorable p.
Proof. intros p' sid [i v] _ Hs. simpl in *. by rewrite Hs. Qed.

Lemma start_covered q : covered (start q).
Proof. intros r Hr. by apply not_elem_of_nil in Hr. Qed.

Definition began : Env Platform := (begin (request "op" "eth0") (start [])).1.

Definition applied_record : PendingSafeApply :=
  {| operation_id := "op"; target_interface := "eth0"; snapshot_id := "";
     deadline_unix_seconds := 110; state := PendingConfirmation; old_state_hash := "0";
     new_state_hash := "225" |}.

(** The request of the samples, prepared. *)
Lemma prepared_run : prepare (request "op" "eth0") (start []) =
  ((prepare (request "op" "eth0") (start [])).1, Ok (inr (set_state Prepared applied_record))).
Proof. by vm_compute. Qed.

Lemma began_intact : intact began.
Proof. destruct (kept_begin (request "op" "eth0") (start []) (start_intact [])) as [_ [Hi _]]. exact Hi. Qed.

Lemma pending_exclusive_witness :
  rtc step (start []) began /\ length (memory began) = 1%nat /\
  wf (memory began) /\ exists d, durable began = Some d /\ wf d /\ evolves d (memory began).
Proof.
  assert (Hs : rtc step (start []) began) by apply rtc_once, step_begin.
  split_and!; [exact Hs|by vm_compute| |]; apply (pending_exclusive (start []) began (start_intact []) Hs).
Defined.

Lemma confirmation_final_witness :
  let e1 := (confirm_at "op" 105 began).1 in
  let r := set_state Confirmed applied_record in
  r ∈ memory (recover_expired 200 e1).1.
Proof.
  cbn zeta.
  assert (Hc : confirm_at "op" 105 began =
    ((confirm_at "op" 105 began).1, Ok (set_state Confirmed applied_record))) by by vm_compute.
  destruct (confirmation_final began _ (recover_expired 200 (confirm_at "op" 105 began).1).1 "op" 105
    _ began_intact Hc) as (_&_&_&H&_); [apply rtc_once, step_recover|exact H].
Defined.

Lemma expired_recovered_witness : exists e' ids,
  recover_expired 110 began = (e', Ok ids) /\ observe (platform e') "eth0" = None.
Proof.
  destruct (expired_recovered began 110 (fun _ => None) began_intact) as (e'&ids&E&_&_&Hr&_).
  - by vm_compute.
  - by vm_compute.
  - apply found_restorable.
  - intros r Hr _. assert (Hm : memory began = [applied_record]) by by vm_compute.
    rewrite Hm in Hr. apply list_elem_of_singleton in Hr as ->. by vm_compute.
  - by vm_compute.
  - exists e', ids. split; [exact E|]. apply (Hr applied_record); [|done].
    assert (Hm : memory began = [applied_record]) by by vm_compute.
    rewrite Hm. by apply list_elem_of_singleton.
Defined.

(** The crash comes after the interface was configured: the platform is that of
    [began], the disk that of the prepared transaction. *)
Lemma crash_recovery_witness :
  observe (platform began) "eth0" = Some desired /\
  let w := {| files := files (world (prepare (request "op" "eth0") (start [])).1); faults := [] |} in
  exists m e2 ids, open "/s/state.json" "/s/audit" w = (w, Ok m) /\
    recover_expired 110 {| manager := m; world := w; platform := platform began; clock := [] |} =
      (e2, Ok ids) /\
    observe (platform e2) "eth0" = None.
Proof.
  split; [by vm_compute|].
  destruct (crash_recovery (request "op" "eth0") (start []) _ _ (platform began) [] 110
    (start_intact []) (start_placed []) (start_covered []) prepared_run (found_restorable _))
    as (m&e2&ids&Ho&Hr&_&_&_&Hobs); [|done|].
  - intros s x Hs.
    assert (Hsn : snapshots (platform began) =
      snapshots (platform (prepare (request "op" "eth0") (start [])).1)) by by vm_compute.
    simpl saved in *. by rewrite Hsn.
  - exists m, e2, ids. split; [exact Ho|]. split; [exact Hr|]. exact Hobs.
Defined.

Lemma begin_transaction_witness : exists e' o, begin (request "op" "eth0") (start []) = (e', o) /\
  transaction_end (request "op" "eth0") (set_state Prepared applied_record) (start []) e' o.
Proof.
  destruct (begin_transaction (request "op" "eth0") (start []) _ _ (start_intact [])
    (start_placed []) eq_refl prepared_run) as (e'&o&E&_&_&H). exists e', o. split; [exact E|exact H].
Defined.

(** A [begin] whose store could not be written fails with a retryable error, but
    leaves its record in memory: the retry reports success without having
    applied or stored anything, and the operation can then be confirmed. *)
Theorem retry_reports_unapplied :
  let q := request "op" "eth0" in
  let '(e1, first) := begin q (start [Some 0%nat]) in
  let '(e2, second) := begin q e1 in
  let '(e3, third) := confirm_at "op" 105 e2 in
  (exists x, first = Err x /\ retryable x = true) /\
  second = Ok (set_state Prepared applied_record) /\
  third = Ok (set_state Confirmed applied_record) /\
  durable e2 = Some [] /\ configured (platform e3) = ∅.
Proof. vm_compute. split_and!; try done. by eexists. Qed.

End Sample.
