(* ===== verification/LinuxResources.v ===== *)
(** * Privileged Linux resources

    Model of [crates/helper-core/src/linux_resources.rs]: binding a network card to
    the DPDK driver and reserving huge pages, each with a snapshot on disk from which
    the original state is restored. The kernel's pseudo-files are an interface; the
    snapshots are files with injected faults. *)

From stdpp Require Import base list strings gmap relations.
From Stdlib Require Import ZArith Lia Ascii.
From S2P Require Import Prelude ErrorModel Text FileIo Paths.
Open Scope Z_scope.

Definition RESOURCE_STATE_VERSION : Z := 1.
Definition DPDK_DRIVER : string := "vfio-pci".

(** Each call acts on the kernel and gives a value or an I/O error. *)
Class KernelAccess (K : Type) := {
  read_link : string -> K -> K * (IoError + string);
  read_to_string : string -> K -> K * (IoError + string);
  write : string -> bytes -> K -> K * (IoError + unit);
}.

Record NicSnapshot := {
  nic_version : Z; nic_operation_id : string; pci_address : string;
  original_driver : option string; nic_released : bool;
}.
Record HugepageSnapshot := {
  huge_version : Z; huge_operation_id : string; node : option Z; page_size_kib : Z;
  previous_pages : Z; requested_pages : Z; huge_released : bool;
}.

(** [serde_json] and [sha2]. *)
Class SnapshotCodec := {
  nic_to_vec : NicSnapshot -> string + bytes;
  nic_from_slice : bytes -> string + NicSnapshot;
  huge_to_vec : HugepageSnapshot -> string + bytes;
  huge_from_slice : bytes -> string + HugepageSnapshot;
  sha256 : bytes -> bytes;
}.

Record LinuxResourceExecutor := { sysfs_root : string; state_directory : string }.

Record ValueResult := {
  result_original_driver : option string; active_driver : option string;
  result_previous_pages : option Z; active_pages : option Z;
}.

(** The kernel and the disk that the executor acts on. *)
Record Host (K : Type) := { kernel : K; disk : World }.
Arguments kernel {K}.
Arguments disk {K}.
Arguments Build_Host {K}.

Definition persistence_error (e : IoError) : NetToolError :=
  new_error PersistenceFailed ("resource snapshot persistence failed: " +:+ io_message e) true.
Definition state_error (m : string) : NetToolError :=
  new_error PersistenceFailed ("resource snapshot is invalid: " +:+ m) false.
Definition kernel_error (context : string) (e : IoError) : NetToolError :=
  new_error HelperExecutionFailed (context +:+ ": " +:+ io_message e)
    (match io_kind e with Interrupted => true | _ => false end).
Definition execution_error {A} (m : string) : res A := err HelperExecutionFailed m.
Definition operation_conflict {A} : res A :=
  err OperationConflict "resource operation ID was reused with different arguments".

Definition validate_pci_address (v : string) : res unit :=
  let bs := as_bytes v in
  let at_ i c := bool_decide (bs !! i = Some c) in
  if (len bs =? 12) && at_ 4%nat 58 && at_ 7%nat 58 && at_ 10%nat 46
     && forallb (fun '(i, b) => bool_decide (i ∈ [4%nat; 7%nat; 10%nat]) || is_ascii_hexdigit b) (imap pair bs)
  then Ok tt
  else err InvalidArgument "PCI address must use dddd:bb:ss.f format".

Definition validate_hugepages (pages size : Z) : res unit :=
  if (pages =? 0) || (size =? 0)
     || match (if pages * size <=? umax 64 then Some (pages * size) else None) with
        | Some total => 1073741824 <? total
        | None => true
        end
  then err InvalidArgument "Huge Page request is outside the safety limit"
  else Ok tt.

Section Executor.
Context {K : Type} `{KernelAccess K} `{SnapshotCodec}.

Abbreviation op A := (method (Host K) A).

Definition on_disk {A} (m : IO A) : op A := fun h =>
  let '(w, o) := m (disk h) in
  ({| kernel := kernel h; disk := w |},
   match o with Ok a => Ok a | Err e => Err (persistence_error e) | Panic => Panic end).

(** The result of a call of the kernel is inspected by the caller. *)
Definition call {A} (f : K -> K * A) : op A := fun h =>
  let '(k, a) := f (kernel h) in ({| kernel := k; disk := disk h |}, Ok a).

Definition on_kernel {A} (context : string) (f : K -> K * (IoError + A)) : op A :=
  let! o := call f in
  m_ret (match o with inr a => Ok a | inl e => Err (kernel_error context e) end).

Definition exists_ (path : string) : op bool := fun h =>
  let '(w, b) := path_exists path (disk h) in ({| kernel := kernel h; disk := w |}, Ok b).

(** ** Snapshots. *)

Definition write_state (path : string) (encoded : string + bytes) : op unit :=
  let temporary := with_extension "tmp" path in
  match encoded with
  | inl m => m_ret (Err (state_error m))
  | inr bytes =>
      on_disk (replace_file temporary path bytes ;;? sync_parent path)
  end.

Definition read_state {A} (decode : bytes -> string + A) (path : string) : op A :=
  let! bytes := on_disk (file_read path) in
  m_ret (match decode bytes with inr a => Ok a | inl m => Err (state_error m) end).

Definition state_path (x : LinuxResourceExecutor) (kind operation_id : string) : string :=
  path_join (state_directory x)
    (kind +:+ "-" +:+ hex (sha256 (as_bytes operation_id)) +:+ ".json").

(** ** Drivers. *)

Definition device_path (x : LinuxResourceExecutor) (pci : string) : string :=
  path_join (path_join (sysfs_root x) "bus/pci/devices") pci.
Definition unbind_path (x : LinuxResourceExecutor) (driver : string) : string :=
  path_join (path_join (path_join (sysfs_root x) "bus/pci/drivers") driver) "unbind".
Definition probe_path (x : LinuxResourceExecutor) : string :=
  path_join (sysfs_root x) "bus/pci/drivers_probe".

Definition current_driver (x : LinuxResourceExecutor) (pci : string) : op (option string) :=
  let! o := call (read_link (path_join (device_path x pci) "driver")) in
  m_ret (match o with
         | inr target =>
             match file_name target with
             | Some name =>
                 if utf8_valid (as_bytes name) then Ok (Some name)
                 else execution_error "PCI driver symlink is invalid"
             | None => execution_error "PCI driver symlink is invalid"
             end
         | inl e => match io_kind e with
                    | NotFound => Ok None
                    | _ => Err (kernel_error "read PCI driver" e)
                    end
         end).

Definition bind_driver (x : LinuxResourceExecutor) (pci : string) (target : option string) : op unit :=
  let device := device_path x pci in
  let! current := current_driver x pci in
  if bool_decide (current = target) then m_ret (Ok tt)
  else
    let override_value := as_bytes (default ""%string target) in
    let! _ := on_kernel "write PCI driver override" (write (path_join device "driver_override") override_value) in
    let! _ := match current with
              | Some driver => on_kernel "unbind PCI driver" (write (unbind_path x driver) (as_bytes pci))
              | None => m_ret (Ok tt)
              end in
    let! _ := if bool_decide (is_Some target)
              then on_kernel "probe PCI driver" (write (probe_path x) (as_bytes pci))
              else m_ret (Ok tt) in
    let! read_back := current_driver x pci in
    if bool_decide (read_back = target) then m_ret (Ok tt)
    else m_ret (execution_error "PCI driver read-back verification failed").

Definition set_nic_released (b : bool) (s : NicSnapshot) : NicSnapshot :=
  {| nic_version := nic_version s; nic_operation_id := nic_operation_id s; pci_address := pci_address s;
     original_driver := original_driver s; nic_released := b |}.

(** The snapshot of the operation: an earlier one, or a new one that is recorded. *)
Definition nic_snapshot (x : LinuxResourceExecutor) (operation_id pci : string) : op NicSnapshot :=
  let path := state_path x "nic" operation_id in
  let! found := exists_ path in
  if found : bool then
    let! existing := read_state nic_from_slice path in
    if negb (bool_decide (nic_operation_id existing = operation_id))
       || negb (bool_decide (pci_address existing = pci))
    then m_ret operation_conflict
    else m_ret (Ok existing)
  else
    let! driver := current_driver x pci in
    let snapshot := {| nic_version := RESOURCE_STATE_VERSION; nic_operation_id := operation_id;
                       pci_address := pci; original_driver := driver; nic_released := false |} in
    let! _ := write_state path (nic_to_vec snapshot) in
    m_ret (Ok snapshot).

Definition prepare_dpdk (x : LinuxResourceExecutor) (operation_id pci : string) : op ValueResult :=
  let! _ := m_ret (validate_pci_address pci) in
  let path := state_path x "nic" operation_id in
  let! snapshot := nic_snapshot x operation_id pci in
  if nic_released snapshot then m_ret (err InvalidState "NIC prepare operation was already released")
  else
    let! _ := bind_driver x pci (Some DPDK_DRIVER) in
    let snapshot := set_nic_released false snapshot in
    let! _ := write_state path (nic_to_vec snapshot) in
    m_ret (Ok {| result_original_driver := original_driver snapshot; active_driver := Some DPDK_DRIVER;
                 result_previous_pages := None; active_pages := None |}).

Definition restore_driver (x : LinuxResourceExecutor) (prepare_operation_id pci : string) : op ValueResult :=
  let! _ := m_ret (validate_pci_address pci) in
  let path := state_path x "nic" prepare_operation_id in
  let! snapshot := read_state nic_from_slice path in
  if negb (nic_version snapshot =? RESOURCE_STATE_VERSION)
     || negb (bool_decide (nic_operation_id snapshot = prepare_operation_id))
     || negb (bool_decide (pci_address snapshot = pci))
  then m_ret operation_conflict
  else
    let! _ :=
      if nic_released snapshot then m_ret (Ok tt)
      else
        let! _ := bind_driver x pci (original_driver snapshot) in
        let! _ := on_kernel "clear PCI driver override"
                    (write (path_join (device_path x pci) "driver_override") [10]) in
        write_state path (nic_to_vec (set_nic_released true snapshot)) in
    m_ret (Ok {| result_original_driver := original_driver snapshot; active_driver := original_driver snapshot;
                 result_previous_pages := None; active_pages := None |}).

(** ** Huge pages. *)

Definition hugepage_path (x : LinuxResourceExecutor) (node : option Z) (size : Z) : string :=
  let suffix := "hugepages/hugepages-" +:+ dec size +:+ "kB/nr_hugepages" in
  match node with
  | None => path_join (path_join (sysfs_root x) "kernel/mm") suffix
  | Some n => path_join (path_join (path_join (sysfs_root x) "devices/system/node") ("node" +:+ dec n)) suffix
  end.

Definition read_count (path : string) : op Z :=
  let! text := on_kernel "read Huge Page count" (read_to_string path) in
  m_ret (match parse_unsigned 64 (trim (as_bytes text)) with
         | Some n => Ok n
         | None => execution_error "Huge Page count is invalid"
         end).

Definition write_count (path : string) (pages : Z) : op unit :=
  let! _ := on_kernel "write Huge Page count" (write path (as_bytes (dec pages))) in
  let! n := read_count path in
  if n =? pages then m_ret (Ok tt) else m_ret (execution_error "Huge Page read-back verification failed").

Definition set_huge_released (b : bool) (s : HugepageSnapshot) : HugepageSnapshot :=
  {| huge_version := huge_version s; huge_operation_id := huge_operation_id s; node := node s;
     page_size_kib := page_size_kib s; previous_pages := previous_pages s;
     requested_pages := requested_pages s; huge_released := b |}.

Definition huge_snapshot (x : LinuxResourceExecutor) (operation_id : string) (n : option Z) (pages size : Z) :
    op HugepageSnapshot :=
  let path := state_path x "hugepage" operation_id in
  let! found := exists_ path in
  if found : bool then
    let! existing := read_state huge_from_slice path in
    if negb (bool_decide (huge_operation_id existing = operation_id))
       || negb (bool_decide (node existing = n)) || negb (page_size_kib existing =? size)
       || negb (requested_pages existing =? pages)
    then m_ret operation_conflict
    else m_ret (Ok existing)
  else
    let! previous := read_count (hugepage_path x n size) in
    let snapshot := {| huge_version := RESOURCE_STATE_VERSION; huge_operation_id := operation_id; node := n;
                       page_size_kib := size; previous_pages := previous; requested_pages := pages;
                       huge_released := false |} in
    let! _ := write_state path (huge_to_vec snapshot) in
    m_ret (Ok snapshot).

Definition prepare_hugepages (x : LinuxResourceExecutor) (operation_id : string) (n : option Z) (pages size : Z) :
    op ValueResult :=
  let! _ := m_ret (validate_hugepages pages size) in
  let path := state_path x "hugepage" operation_id in
  let! snapshot := huge_snapshot x operation_id n pages size in
  if huge_released snapshot then m_ret (err InvalidState "Huge Page prepare operation was already released")
  else
    let! _ := write_count (hugepage_path x n size) pages in
    let snapshot := set_huge_released false snapshot in
    let! _ := write_state path (huge_to_vec snapshot) in
    m_ret (Ok {| result_original_driver := None; active_driver := None;
                 result_previous_pages := Some (previous_pages snapshot); active_pages := Some pages |}).

Definition release_hugepages (x : LinuxResourceExecutor) (prepare_operation_id : string) : op ValueResult :=
  let path := state_path x "hugepage" prepare_operation_id in
  let! snapshot := read_state huge_from_slice path in
  if negb (huge_version snapshot =? RESOURCE_STATE_VERSION)
     || negb (bool_decide (huge_operation_id snapshot = prepare_operation_id))
  then m_ret operation_conflict
  else
    let! _ :=
      if huge_released snapshot then m_ret (Ok tt)
      else
        let! _ := write_count (hugepage_path x (node snapshot) (page_size_kib snapshot))
                    (previous_pages snapshot) in
        write_state path (huge_to_vec (set_huge_released true snapshot)) in
    m_ret (Ok {| result_original_driver := None; active_driver := None;
                 result_previous_pages := Some (previous_pages snapshot);
                 active_pages := Some (previous_pages snapshot) |}).
End Executor.

(** ** What the operations rely on. *)

Class SnapshotLaws `{SnapshotCodec} := {
  nic_total : forall s, exists b, nic_to_vec s = inr b;
  nic_round_trip : forall s b, nic_to_vec s = inr b -> nic_from_slice b = inr s;
  huge_total : forall s, exists b, huge_to_vec s = inr b;
  huge_round_trip : forall s b, huge_to_vec s = inr b -> huge_from_slice b = inr s;
}.

(** sysfs for one device: the driver it is bound to and its override. Any call may fail
    with another error than [NotFound]; the link is missing when no driver is bound; a
    probe binds an unbound device to the driver of its override, or to none. *)
Class DeviceLaw (K : Type) `{KernelAccess K} (x : LinuxResourceExecutor) (pci : string) := {
  bound : K -> option string;
  wanted : K -> bytes;
  link_law : forall k k' o, read_link (path_join (device_path x pci) "driver") k = (k', o) ->
    bound k' = bound k /\ wanted k' = wanted k /\
    match o with
    | inr target => bound k = file_name target /\ bound k <> None
    | inl e => match io_kind e with NotFound => bound k = None | _ => True end
    end;
  override_law : forall v k k' o,
    write (path_join (device_path x pci) "driver_override") v k = (k', o) ->
    bound k' = bound k /\ (o = inr tt -> wanted k' = v);
  unbind_law : forall d k k' o, write (unbind_path x d) (as_bytes pci) k = (k', o) ->
    wanted k' = wanted k /\ (bound k' = bound k \/ bound k' = None);
  probe_law : forall k k' o, write (probe_path x) (as_bytes pci) k = (k', o) ->
    wanted k' = wanted k /\
    (bound k' = bound k \/ bound k = None /\ exists d, as_bytes d = wanted k /\ bound k' = Some d);
}.

(** sysfs for the huge pages of one size: a write may reserve fewer pages. *)
Class PagesLaw (K : Type) `{KernelAccess K} (path : string) := {
  reserved : K -> Z;
  count_law : forall k k' o, read_to_string path k = (k', o) ->
    reserved k' = reserved k /\
    forall t, o = inr t -> parse_unsigned 64 (trim (as_bytes t)) = Some (reserved k);
  pages_law : forall v k k' o, write path v k = (k', o) ->
    match o with inl _ => reserved k' = reserved k | inr _ => True end;
}.

(** ** Files of snapshots. *)

Section State.
Context {K : Type} `{KernelAccess K} `{SnapshotCodec}.
Implicit Types (h : Host K) (x : LinuxResourceExecutor).

Definition state_name kind op : string := kind +:+ "-" +:+ hex (sha256 (as_bytes op)) +:+ ".json".

Lemma state_name_facts kind op : kind = "nic"%string \/ kind = "hugepage"%string ->
  slashless (state_name kind op) /\ is_absolute (state_name kind op) = false /\
  skipped (state_name kind op) = false /\ state_name kind op <> ".."%string /\
  last (as_bytes (state_name kind op)) = Some 110.
Proof.
  intros Hk. unfold state_name. set (digest := hex (sha256 (as_bytes op)) +:+ ".json").
  assert (slashless digest) as Hd by (apply hex_slashless; by apply slashless_dec).
  assert (last (as_bytes digest) = Some 110) as Hl.
  { unfold digest. rewrite as_bytes_app. by rewrite last_append. }
  assert (as_bytes digest <> []) as Hn by (by intros Hn; rewrite Hn in Hl).
  split_and!; [|by destruct Hk as [->| ->]..|].
  - apply slashless_app; [|apply slashless_app]; [by destruct Hk as [->| ->]; apply slashless_dec|by apply slashless_dec|done].
  - rewrite !as_bytes_app, (assoc_L (++)), last_append, Hl by done. done.
Qed.

Lemma state_temporary x kind op : kind = "nic"%string \/ kind = "hugepage"%string ->
  with_extension "tmp" (state_path x kind op) <> state_path x kind op.
Proof.
  intros Hk. destruct (state_name_facts kind op Hk) as (Hs&Ha&Hd&Hp&Hl).
  apply (with_extension_differs _ (state_name kind op)); try done. by rewrite Hl.
Qed.

(** What [write_state] does to the disk. *)
Definition saved h path : option bytes := files (disk h) !! path.

Definition written path b h (h' : Host K) (o : res unit) : Prop :=
  kernel h' = kernel h /\ (saved h' path = saved h path /\ o <> Ok tt \/ saved h' path = Some b).

Lemma write_state_spec path b h : with_extension "tmp" path <> path ->
  m_holds (write_state path (inr b)) h (written path b h).
Proof.
  intros Ht. unfold write_state, m_holds, on_disk, written, saved.
  pose proof (replace_file_spec (with_extension "tmp" path) path b (disk h) Ht) as Hr.
  unfold io_bind. destruct (replace_file _ _ _ _) as [w o]. destruct Hr as (Hp&Ho&_).
  destruct o as [[]|e|]; [|simpl|done].
  - destruct Ho as [[_ Ho]|Ho]; [by destruct Ho|]. pose proof (sync_parent_spec path w) as Hs.
    destruct (sync_parent path w) as [w' o]. destruct Hs as (Hf&Hpan&_).
    destruct o as [[]|e|]; simpl; (split; [done|]); (split; [done|]); right; by rewrite Hf.
  - split; [done|]. split; [done|]. destruct Ho as [[-> _]|Ho]; [by left|by right].
Qed.

Lemma read_state_spec {A} (decode : bytes -> string + A) path h :
  m_holds (read_state decode path) h (fun h' o => kernel h' = kernel h /\ files (disk h') = files (disk h) /\
    forall a, o = Ok a -> exists b, saved h path = Some b /\ decode b = inr a).
Proof.
  unfold read_state, m_holds, m_bind, on_disk, file_read, saved, m_ret.
  destruct (disk h) as [f q] eqn:Hd. unfold next_fault. destruct q as [|[k|] q]; simpl.
  all: try (destruct (f !! path) as [b|] eqn:Hb; simpl;
    [destruct (decode b) as [m|a] eqn:Ha; simpl; (split; [done|]); (split_and!; [done|done|]);
       intros a' Ha'; [done|injection Ha' as <-; by exists b]|]).
  all: split; [done|]; by split_and!.
Qed.

Lemma exists_spec path h :
  m_holds (exists_ path) h (fun h' o => kernel h' = kernel h /\ files (disk h') = files (disk h) /\
    exists b, o = Ok b /\ (b = true -> is_Some (saved h path)) /\
      (hd None (faults (disk h)) = None -> b = false -> saved h path = None)).
Proof.
  unfold exists_, m_holds, path_exists, saved, next_fault. destruct (disk h) as [f q].
  assert (forall b, b = bool_decide (is_Some (f !! path)) -> (b = true -> is_Some (f !! path)) /\
    (b = false -> f !! path = None)) as Hb.
  { intros b ->. split; [by intros ?%bool_decide_eq_true|].
    intros ?%bool_decide_eq_false. by apply eq_None_not_Some. }
  destruct q as [|[k|] q]; simpl; (split; [done|]); (split_and!; [done|done|]); eexists;
    (split; [done|]); try (by split); destruct (Hb _ eq_refl); by split.
Qed.
(** A file that holds one snapshot, marked as given back or not; [untouched] says that
    the kernel is as it was before. *)
Section Journal.
Context {T : Type} (encode : T -> string + bytes) (decode : bytes -> string + T).
Context (Htotal : forall s, exists b, encode s = inr b).
Context (Htrip : forall s b, encode s = inr b -> decode b = inr s).
Context (path : string) (Htemporary : with_extension "tmp" path <> path).
Context (mark : bool -> T) (Hmark : mark false <> mark true) (untouched : K -> Prop).

Definition journaled (released : bool) h : Prop := exists b,
  saved h path = Some b /\ decode b = inr (mark released).

(** Nothing was recorded and nothing changed, or the snapshot is recorded, or it is
    recorded as given back and nothing is changed. *)
Definition journal_safe h : Prop :=
  saved h path = None /\ untouched (kernel h) \/ journaled false h \/
  journaled true h /\ untouched (kernel h).

Lemma journaled_saved released h h' : saved h' path = saved h path -> journaled released h -> journaled released h'.
Proof. intros Hs (b&Hb&Hr). exists b. by rewrite Hs. Qed.

Lemma journaled_unique r r' h : journaled r h -> journaled r' h -> r = r'.
Proof.
  intros (b&Hb&Hr) (b'&Hb'&Hr'). rewrite Hb in Hb'. injection Hb' as <-. rewrite Hr in Hr'.
  assert (mark r = mark r') as Hm by congruence. destruct r, r'; try done; by destruct Hmark.
Qed.

Lemma journal_safe_same h h' : saved h' path = saved h path -> (untouched (kernel h) -> untouched (kernel h')) ->
  journal_safe h -> journal_safe h'.
Proof.
  intros Hs Hu [[? ?]|[?|[? ?]]]; [left; split; [congruence|auto]|right; left|right; right; split; [|auto]];
    eauto using journaled_saved.
Qed.

Lemma journal_read h b s : journal_safe h -> saved h path = Some b -> decode b = inr s ->
  exists r, s = mark r /\ journaled r h.
Proof.
  intros Hs Hb Hd. assert (exists r, journaled r h) as (r&b'&Hb'&Hr).
  { destruct Hs as [[Hs _]|[Hr|[Hr _]]]; [congruence|by eexists..]. }
  exists r. split; [congruence|]. by exists b'.
Qed.

Lemma journal_released h : journal_safe h -> journaled true h -> untouched (kernel h).
Proof.
  intros Hs Hr. destruct Hs as [[? _]|[Hr'|[_ ?]]]; [by destruct Hr as (b&?&_); congruence| |done].
  by discriminate (journaled_unique _ _ _ Hr Hr').
Qed.

Lemma journal_none h : journal_safe h -> saved h path = None -> untouched (kernel h).
Proof.
  intros Hs Hn. destruct Hs as [[_ ?]|[Hr|[_ ?]]]; [done| |done].
  destruct Hr as (b&Hb&_). rewrite Hn in Hb. discriminate Hb.
Qed.

Lemma journal_write r h : m_holds (write_state path (encode (mark r))) h (fun h' o =>
  kernel h' = kernel h /\ (saved h' path = saved h path /\ o <> Ok tt \/ journaled r h')).
Proof.
  destruct (Htotal (mark r)) as [b Hb]. rewrite Hb.
  eapply m_holds_weaken; [apply (write_state_spec path b h Htemporary)|].
  intros h' o [Hk [Ho|Ho]]; (split; [done|]); [by left|right]. exists b. auto.
Qed.
End Journal.
End State.

(** ** A device gets its driver back. *)

Section Device.
Context {K : Type} `{KernelAccess K} `{SnapshotCodec} `{!SnapshotLaws}.
Context (x : LinuxResourceExecutor) (op pci : string) `{!DeviceLaw K x pci}.
Implicit Types h : Host K.

Definition driver h : option string := bound (kernel h).
Definition nic_path : string := state_path x "nic" op.

Lemma current_driver_spec h : m_holds (current_driver x pci) h (fun h' o =>
  disk h' = disk h /\ driver h' = driver h /\ wanted (kernel h') = wanted (kernel h) /\
  forall d, o = Ok d -> d = driver h).
Proof.
  unfold current_driver, m_holds, m_bind, call, driver.
  destruct (read_link _ (kernel h)) as [k o] eqn:Hl. destruct (link_law _ _ _ Hl) as (Hb&Hw&Ho).
  simpl. destruct o as [e|target].
  - destruct (io_kind e); simpl; split; try done; split_and!; try done; by intros d [= <-].
  - destruct Ho as [Ht Hn]. destruct (file_name target) as [name|]; [|done].
    destruct (utf8_valid (as_bytes name)); simpl; (split; [done|]); split_and!; try done.
    by intros d [= <-].
Qed.

Lemma on_kernel_spec {A} context (f : K -> K * (IoError + A)) h :
  m_holds (on_kernel context f) h (fun h' o => disk h' = disk h /\
    exists k r, f (kernel h) = (k, r) /\ kernel h' = k /\ (forall a, o = Ok a -> r = inr a)).
Proof.
  unfold on_kernel, m_holds, m_bind, call. destruct (f (kernel h)) as [k r]. simpl.
  split; [by destruct r|]. split; [done|]. exists k, r. split_and!; [done..|].
  destruct r; intros a' Ha; [done|]. simpl in Ha. congruence.
Qed.

(** A successful bind leaves the device with the driver it was asked for. *)
Lemma bind_driver_spec target h : m_holds (bind_driver x pci target) h (fun h' o =>
  disk h' = disk h /\ (o = Ok tt -> driver h' = target)).
Proof.
  unfold bind_driver. eapply m_holds_bind; [apply current_driver_spec| |].
  { intros h' e (?&_). by split. }
  intros h1 d (Hd1&Hb1&_&Hd). specialize (Hd d eq_refl). case_bool_decide as Ht.
  { apply m_holds_ret; [done|]. split; [done|]. intros _. by rewrite Hb1, <- Hd. }
  eapply m_holds_bind; [apply on_kernel_spec| |].
  { intros h' e (Hd'&_). split; [by rewrite Hd'|done]. }
  assert (forall (m : method (Host K) unit) h', disk h' = disk h ->
    (m = m_ret (Ok tt) \/ exists c f, m = on_kernel c f) ->
    m_holds m h' (fun h'' _ => disk h'' = disk h)) as Hstep.
  { intros m h' Hd' [->|(c&f&->)]; [by apply m_holds_ret|].
    eapply m_holds_weaken; [apply on_kernel_spec|]. intros h'' o [-> _]. done. }
  intros h2 [] (Hd2&_). eapply (m_holds_bind _ _ _ (fun h' _ => disk h' = disk h)).
  { apply Hstep; [congruence|]. destruct d; [right; by do 2 eexists|by left]. }
  { by intros h' e Hd'. }
  intros h3 [] Hd3. eapply (m_holds_bind _ _ _ (fun h' _ => disk h' = disk h)).
  { apply Hstep; [done|]. destruct (bool_decide _); [right; by do 2 eexists|by left]. }
  { by intros h' e Hd'. }
  intros h4 [] Hd4. eapply m_holds_bind; [apply current_driver_spec| |].
  { intros h' e (Hd'&_). split; [congruence|done]. }
  intros h5 d5 (Hd5&Hb5&_&Hr). case_bool_decide as Ht5; apply m_holds_ret; try done;
    (split; [congruence|]); [|done]. intros _. by rewrite Hb5, <- (Hr d5 eq_refl).
Qed.

(** The snapshot of the operation is on the disk, with the driver [o]. *)
Definition snapshot_with (o : option string) (released : bool) : NicSnapshot :=
  {| nic_version := RESOURCE_STATE_VERSION; nic_operation_id := op; pci_address := pci;
     original_driver := o; nic_released := released |}.
Definition recorded (o : option string) : bool -> Host K -> Prop :=
  journaled nic_from_slice nic_path (snapshot_with o).
Definition safe (o : option string) : Host K -> Prop :=
  journal_safe nic_from_slice nic_path (snapshot_with o) (fun k => bound k = o).

Lemma nic_temporary : with_extension "tmp" nic_path <> nic_path.
Proof. apply state_temporary. by left. Qed.

Lemma write_snapshot o released h : m_holds (write_state nic_path (nic_to_vec (snapshot_with o released))) h
  (fun h' r => driver h' = driver h /\
    (saved h' nic_path = saved h nic_path /\ r <> Ok tt \/ recorded o released h')).
Proof.
  eapply m_holds_weaken.
  - apply (journal_write nic_to_vec nic_from_slice nic_total nic_round_trip nic_path nic_temporary (snapshot_with o)).
  - intros h' r [Hk Hr]. unfold driver. by rewrite Hk.
Qed.

Lemma recorded_saved o released h h' : saved h' nic_path = saved h nic_path ->
  recorded o released h -> recorded o released h'.
Proof. apply journaled_saved. Qed.

Lemma safe_same o h h' : saved h' nic_path = saved h nic_path -> driver h' = driver h ->
  safe o h -> safe o h'.
Proof. intros Hs Hb. apply journal_safe_same; [done|]. unfold driver in Hb. congruence. Qed.

Lemma same_files h h' : files (disk h') = files (disk h) -> saved h' nic_path = saved h nic_path.
Proof. unfold saved. by intros ->. Qed.

Lemma safe_read o h b s : safe o h -> saved h nic_path = Some b -> nic_from_slice b = inr s ->
  s = snapshot_with o (nic_released s) /\ recorded o (nic_released s) h.
Proof. intros Hs Hb Hd. destruct (journal_read _ _ _ _ h b s Hs Hb Hd) as (r&->&Hr). done. Qed.

Lemma nic_snapshot_spec o h : hd None (faults (disk h)) = None -> safe o h ->
  m_holds (nic_snapshot x op pci) h (fun h' r => safe o h' /\
    forall s, r = Ok s -> s = snapshot_with o (nic_released s) /\ recorded o (nic_released s) h' /\
      driver h' = driver h).
Proof.
  intros Hf Hs. unfold nic_snapshot. fold nic_path.
  eapply m_holds_bind; [apply exists_spec| |].
  { intros h' e (_&_&b&?&_). done. }
  intros h1 found (Hk1&Hd1&b&[= <-]&Ht&Hn). apply same_files in Hd1.
  assert (driver h1 = driver h) as Hb1 by (unfold driver; by rewrite Hk1).
  pose proof (safe_same o h h1 Hd1 Hb1 Hs) as Hs1.
  destruct found.
  - eapply m_holds_bind; [apply read_state_spec| |].
    { intros h' e (Hk&Hd&_). split; [|done]. apply (safe_same o h1); [by apply same_files|unfold driver; by rewrite Hk|done]. }
    intros h2 s (Hk2&Hd2&Hr). destruct (Hr s eq_refl) as (b&Hb&Hdec). apply same_files in Hd2.
    destruct (safe_read o h1 b s Hs1 Hb Hdec) as [-> Hrec].
    rewrite !bool_decide_true by done. cbn [negb orb].
    assert (driver h2 = driver h1) as Hb2 by (unfold driver; by rewrite Hk2).
    apply m_holds_ret; [done|]. split; [by apply (safe_same o h1)|]. intros s' [= <-].
    split_and!; [done| |congruence]. by apply (recorded_saved _ _ h1).
  - assert (saved h1 nic_path = None) as Hnone by (rewrite Hd1; by apply Hn).
    assert (driver h1 = o) as Ho.
    { by apply (journal_none _ _ _ _ _ Hs1). }
    eapply m_holds_bind; [apply current_driver_spec| |].
    { intros h' e (Hd&Hb&_). split; [|done]. apply (safe_same o h1); [unfold saved; by rewrite Hd|done|done]. }
    intros h2 d (Hd2&Hb2&_&Hd). rewrite (Hd d eq_refl), Ho. fold (snapshot_with o false).
    assert (saved h2 nic_path = None) as Hn2 by (unfold saved in *; by rewrite Hd2).
    eapply m_holds_bind; [apply write_snapshot| |].
    { intros h' e [Hb [[Hw _]|Hrec]]; (split; [|done]); [left; split; [congruence|]; change (driver h' = o); congruence|by right; left]. }
    intros h3 [] [Hb3 [[_ ?]|Hrec]]; [done|]. apply m_holds_ret; [done|].
    split; [by right; left|]. intros s [= <-]. split_and!; [done|done|congruence].
Qed.

(** A prepare, whatever fails in it after the first look for the snapshot. *)
Lemma nic_prepare_spec o h : hd None (faults (disk h)) = None -> safe o h ->
  m_holds (prepare_dpdk x op pci) h (fun h' r => safe o h' /\
    forall v, r = Ok v -> recorded o false h' /\ driver h' = Some DPDK_DRIVER /\
      result_original_driver v = o /\ active_driver v = Some DPDK_DRIVER).
Proof.
  intros Hf Hs. unfold prepare_dpdk. fold nic_path.
  eapply (m_holds_lift _ _ _ (fun _ => True)).
  { unfold validate_pci_address. by case_match. }
  { intros e. by split. }
  intros _ _. eapply m_holds_bind; [by apply nic_snapshot_spec| |].
  { intros h' e [? _]. by split. }
  intros h1 s [Hs1 Hr]. destruct (Hr s eq_refl) as (->&Hrec&Hb1). cbn [nic_released snapshot_with] in *.
  set (released := nic_released s) in *. destruct released; [by apply m_holds_ret|].
  eapply m_holds_bind; [apply bind_driver_spec| |].
  { intros h' e [Hd _]. split; [|done]. right. left. apply (recorded_saved _ _ h1); [unfold saved; by rewrite Hd|done]. }
  intros h2 [] [Hd2 Hb2]. assert (recorded o false h2) as Hrec2.
  { apply (recorded_saved _ _ h1); [unfold saved; by rewrite Hd2|done]. }
  change (set_nic_released false (snapshot_with o false)) with (snapshot_with o false).
  assert (forall h' (r : res unit), driver h' = driver h2 /\
    (saved h' nic_path = saved h2 nic_path /\ r <> Ok tt \/ recorded o false h') -> recorded o false h') as Hkeep.
  { intros h' r [_ [[Hw _]|?]]; [by apply (recorded_saved _ _ h2)|done]. }
  eapply m_holds_bind; [apply write_snapshot| |].
  { intros h' e Hw. split; [|done]. right. left. by apply (Hkeep h' (Err e)). }
  intros h3 [] Hw. pose proof (Hkeep _ _ Hw) as Hrec3. destruct Hw as [Hb3 _].
  apply m_holds_ret; [done|]. split; [by right; left|]. intros v [= <-]. cbn.
  split_and!; try done. rewrite Hb3. by apply Hb2.
Qed.
Lemma recorded_unique o r r' h : recorded o r h -> recorded o r' h -> r = r'.
Proof. by apply journaled_unique. Qed.

Lemma released_safe o h : safe o h -> recorded o true h -> driver h = o.
Proof.
  by apply (journal_released nic_from_slice nic_path (snapshot_with o) ltac:(done) (fun k => bound k = o)).
Qed.

(** Giving the device back: its driver, then the mark in the snapshot. *)
Lemma give_back_spec o h : recorded o false h ->
  m_holds (let! _ := bind_driver x pci o in
           let! _ := on_kernel "clear PCI driver override"
                       (write (path_join (device_path x pci) "driver_override") [10]) in
           write_state nic_path (nic_to_vec (snapshot_with o true))) h
    (fun h' r => safe o h' /\ (r = Ok tt -> recorded o true h' /\ driver h' = o)).
Proof.
  intros Hrec. assert (forall h', disk h' = disk h -> recorded o false h') as Hkeep.
  { intros h' Hd. apply (recorded_saved _ _ h); [unfold saved; by rewrite Hd|done]. }
  eapply m_holds_bind; [apply bind_driver_spec| |].
  { intros h' e [Hd _]. split; [|done]. right. left. by apply Hkeep. }
  intros h1 [] [Hd1 Hb1]. specialize (Hb1 eq_refl).
  eapply m_holds_bind; [apply on_kernel_spec| |].
  { intros h' e [Hd _]. split; [|done]. right. left. apply Hkeep. congruence. }
  intros h2 [] (Hd2&k&r&Hw&Hk2&_). apply override_law in Hw as [Hb2 _].
  assert (driver h2 = o) as Ho by (unfold driver in *; congruence).
  eapply m_holds_weaken; [apply write_snapshot|].
  intros h3 r' [Hb3 [[Hw Hr]|Hrec3]].
  - split; [|done]. right. left. apply (recorded_saved _ _ h2); [done|]. apply Hkeep. congruence.
  - split; [|intros _; split; [done|congruence]]. right. right. split; [done|].
    change (driver h3 = o). congruence.
Qed.

(** A restore, whatever fails in it. *)
Lemma restore_spec o h : safe o h ->
  m_holds (restore_driver x op pci) h (fun h' r => safe o h' /\
    forall v, r = Ok v -> recorded o true h' /\ driver h' = o /\ active_driver v = o /\
      (recorded o true h -> kernel h' = kernel h)).
Proof.
  intros Hs. unfold restore_driver. fold nic_path.
  eapply (m_holds_lift _ _ _ (fun _ => True)).
  { unfold validate_pci_address. by case_match. }
  { intros e. by split. }
  intros _ _. eapply m_holds_bind; [apply read_state_spec| |].
  { intros h' e (Hk&Hd&_). split; [|done]. apply (safe_same o h); [by apply same_files|unfold driver; by rewrite Hk|done]. }
  intros h1 s (Hk1&Hd1&Hr). destruct (Hr s eq_refl) as (b&Hb&Hdec). apply same_files in Hd1.
  destruct (safe_read o h b s Hs Hb Hdec) as [-> Hrec]. set (released := nic_released s) in *.
  assert (driver h1 = driver h) as Hb1 by (unfold driver; by rewrite Hk1).
  pose proof (recorded_saved _ _ h h1 Hd1 Hrec) as Hrec1.
  pose proof (safe_same o h h1 Hd1 Hb1 Hs) as Hs1.
  cbn [nic_version snapshot_with nic_operation_id pci_address original_driver nic_released].
  rewrite Z.eqb_refl, !bool_decide_true by done. cbn [negb orb].
  change (set_nic_released true (snapshot_with o released)) with (snapshot_with o true).
  eapply (m_holds_bind _ _ _ (fun h' r => safe o h' /\ (r = Ok tt -> recorded o true h' /\ driver h' = o /\
    (recorded o true h -> kernel h' = kernel h)))).
  - destruct released.
    + apply m_holds_ret; [done|]. split; [done|]. intros _. split_and!; [done|by apply released_safe|done].
    + eapply m_holds_weaken; [by apply give_back_spec|]. intros h' r [Hs' Hr']. split; [done|].
      intros Hok. destruct (Hr' Hok) as [? ?]. split_and!; [done|done|].
      intros Hrec'. discriminate (recorded_unique _ _ _ _ Hrec Hrec').
  - intros h' e [? _]. by split.
  - intros h' [] [Hs' Hr']. destruct (Hr' eq_refl) as (?&?&?). apply m_holds_ret; [done|].
    split; [done|]. intros v [= <-]. by split_and!.
Qed.

(** The life of a prepare operation: attempts to prepare and to restore the device, in
    which anything may fail after the first look for the snapshot, and restarts of the
    helper, after which other calls fail. *)
Inductive nic_step h : Host K -> Prop :=
  | try_prepare h' r : hd None (faults (disk h)) = None -> prepare_dpdk x op pci h = (h', r) -> nic_step h h'
  | try_restore h' r : restore_driver x op pci h = (h', r) -> nic_step h h'
  | restart f : nic_step h {| kernel := kernel h; disk := {| files := files (disk h); faults := f |} |}.

Lemma nic_safe h h' o : rtc nic_step h h' -> safe o h -> safe o h'.
Proof.
  induction 1 as [|h1 h2 h3 Hstep _ IH]; [done|]. intros Hs. apply IH. destruct Hstep as [h2 r Hf Hp|h2 r Hp|f].
  - destruct (nic_prepare_spec o h1 Hf Hs) as [_ [? _]]. by rewrite Hp in *.
  - destruct (restore_spec o h1 Hs) as [_ [? _]]. by rewrite Hp in *.
  - by apply (safe_same o h1).
Qed.
End Device.

(** C20: Through any attempts to prepare and restore a network card under one operation ID,
    failures and restarts in between: as long as the card has another driver than it
    had, the original one is recorded on the disk; a prepare that succeeds leaves the
    card with the DPDK driver and reports the original one; a restore that succeeds
    gives the original driver back and marks the snapshot, and repeating it changes
    nothing. Nothing panics. *)
Theorem nic_original_restored {K} `{KernelAccess K} `{SnapshotCodec} `{!SnapshotLaws}
    (x : LinuxResourceExecutor) (op pci : string) `{!DeviceLaw K x pci} (h h1 : Host K)
    (Hnew : saved h (nic_path x op) = None) (Hsteps : rtc (nic_step x op pci) h h1) :
  let original := driver x pci h in
  (driver x pci h1 <> original -> recorded x op pci original false h1) /\
  (hd None (faults (disk h1)) = None -> m_holds (prepare_dpdk x op pci) h1 (fun h2 r => forall v, r = Ok v ->
    driver x pci h2 = Some DPDK_DRIVER /\ result_original_driver v = original)) /\
  m_holds (restore_driver x op pci) h1 (fun h2 r => forall v, r = Ok v ->
    driver x pci h2 = original /\ active_driver v = original /\ recorded x op pci original true h2 /\
    forall h3 v', restore_driver x op pci h2 = (h3, Ok v') ->
      kernel h3 = kernel h2 /\ active_driver v' = original).
Proof.
  intros original. assert (safe x op pci original h1) as Hs.
  { apply (nic_safe x op pci h h1); [done|by left]. }
  split_and!.
  - intros Hne. by destruct Hs as [[_ ?]|[?|[_ ?]]].
  - intros Hf. eapply m_holds_weaken; [by apply nic_prepare_spec|].
    intros h2 r [_ Hr] v Hv. by destruct (Hr v Hv) as (_&?&?&_).
  - eapply m_holds_weaken; [by apply restore_spec|]. intros h2 r [Hs2 Hr] v Hv.
    destruct (Hr v Hv) as (Hrec&Hd&Ha&_). split_and!; [done..|]. intros h3 v' Hv'.
    destruct (restore_spec x op pci original h2 Hs2) as [_ [_ Hr2]]. rewrite Hv' in Hr2.
    destruct (Hr2 v' eq_refl) as (_&_&?&Hk). split; [by apply Hk|done].
Qed.

(** ** Reserved pages are given back. *)

Section Pages.
Context {K : Type} `{KernelAccess K} `{SnapshotCodec} `{!SnapshotLaws}.
Context (x : LinuxResourceExecutor) (op : string) (n : option Z) (pages size : Z).
Context `{!PagesLaw K (hugepage_path x n size)}.
Implicit Types h : Host K.

Definition pages_of h : Z := reserved (kernel h).
Definition huge_file : string := state_path x "hugepage" op.
Definition huge_mark (previous : Z) (released : bool) : HugepageSnapshot :=
  {| huge_version := RESOURCE_STATE_VERSION; huge_operation_id := op; node := n; page_size_kib := size;
     previous_pages := previous; requested_pages := pages; huge_released := released |}.
Definition pages_recorded (previous : Z) : bool -> Host K -> Prop :=
  journaled huge_from_slice huge_file (huge_mark previous).
Definition pages_safe (previous : Z) : Host K -> Prop :=
  journal_safe huge_from_slice huge_file (huge_mark previous) (fun k => reserved k = previous).

Lemma huge_temporary : with_extension "tmp" huge_file <> huge_file.
Proof. apply state_temporary. by right. Qed.

Lemma read_count_spec h : m_holds (read_count (hugepage_path x n size)) h (fun h' o =>
  disk h' = disk h /\ pages_of h' = pages_of h /\ forall v, o = Ok v -> v = pages_of h).
Proof.
  unfold read_count. eapply m_holds_bind; [apply on_kernel_spec| |].
  - intros h' e (Hd&k&r&Hk&Hk'&_). apply count_law in Hk as [Hr _]. subst k. by split_and!.
  - intros h' t (Hd&k&r&Hk&Hk'&Ht). apply count_law in Hk as [Hr Hv]. subst k.
    rewrite (Hv t (Ht t eq_refl)). apply m_holds_ret; [done|]. split_and!; try done. by intros v [= <-].
Qed.

Lemma write_count_spec v h : m_holds (write_count (hugepage_path x n size) v) h (fun h' o =>
  disk h' = disk h /\ (o = Ok tt -> pages_of h' = v)).
Proof.
  unfold write_count. eapply m_holds_bind; [apply on_kernel_spec| |].
  { by intros h' e (Hd&_). }
  intros h1 [] (Hd1&_). eapply m_holds_bind; [apply read_count_spec| |].
  { intros h' e (Hd&_). split; [congruence|done]. }
  intros h2 c (Hd2&Hp2&Hc). specialize (Hc c eq_refl).
  destruct (Z.eqb_spec c v) as [->|]; apply m_holds_ret; try done; (split; [congruence|]); [|done].
  intros _. congruence.
Qed.

Lemma huge_same h h' previous : files (disk h') = files (disk h) -> pages_of h' = pages_of h ->
  pages_safe previous h -> pages_safe previous h'.
Proof.
  intros Hd Hp. apply journal_safe_same; [unfold saved; by rewrite Hd|]. unfold pages_of in Hp. congruence.
Qed.

Lemma huge_kept h h' previous released : disk h' = disk h -> pages_recorded previous released h ->
  pages_recorded previous released h'.
Proof. intros Hd. apply journaled_saved. unfold saved. by rewrite Hd. Qed.

Lemma huge_write previous released h :
  m_holds (write_state huge_file (huge_to_vec (huge_mark previous released))) h (fun h' o =>
    kernel h' = kernel h /\ (saved h' huge_file = saved h huge_file /\ o <> Ok tt \/ pages_recorded previous released h')).
Proof.
  apply (journal_write huge_to_vec huge_from_slice huge_total huge_round_trip huge_file huge_temporary).
Qed.

Lemma huge_read previous h b s : pages_safe previous h -> saved h huge_file = Some b ->
  huge_from_slice b = inr s -> s = huge_mark previous (huge_released s) /\ pages_recorded previous (huge_released s) h.
Proof. intros Hs Hb Hd. destruct (journal_read _ _ _ _ h b s Hs Hb Hd) as (r&->&Hr). done. Qed.

Lemma huge_snapshot_spec previous h : hd None (faults (disk h)) = None -> pages_safe previous h ->
  m_holds (huge_snapshot x op n pages size) h (fun h' r => pages_safe previous h' /\
    forall s, r = Ok s -> s = huge_mark previous (huge_released s) /\ pages_recorded previous (huge_released s) h').
Proof.
  intros Hf Hs. unfold huge_snapshot. fold huge_file.
  eapply m_holds_bind; [apply exists_spec| |].
  { intros h' e (_&_&b&?&_). done. }
  intros h1 found (Hk1&Hd1&b&[= <-]&Ht&Hn).
  assert (pages_of h1 = pages_of h) as Hp1 by (unfold pages_of; by rewrite Hk1).
  pose proof (huge_same h h1 previous Hd1 Hp1 Hs) as Hs1.
  destruct found.
  - eapply m_holds_bind; [apply read_state_spec| |].
    { intros h' e (Hk&Hd&_). split; [|done]. apply (huge_same h1); [done|unfold pages_of; by rewrite Hk|done]. }
    intros h2 s (Hk2&Hd2&Hr). destruct (Hr s eq_refl) as (b&Hb&Hdec).
    destruct (huge_read previous h1 b s Hs1 Hb Hdec) as [-> Hrec].
    assert (pages_of h2 = pages_of h1) as Hp2 by (unfold pages_of; by rewrite Hk2).
    rewrite !bool_decide_true by done. cbn [huge_mark page_size_kib requested_pages].
    rewrite !Z.eqb_refl. cbn [negb orb]. apply m_holds_ret; [done|].
    split; [by apply (huge_same h1)|]. intros s' [= <-]. split; [done|].
    apply (journaled_saved _ _ _ _ h1); [unfold saved; by rewrite Hd2|done].
  - assert (saved h1 huge_file = None) as Hnone by (unfold saved in *; rewrite Hd1; by apply Hn).
    pose proof (journal_none _ _ _ _ _ Hs1 Hnone) as Hp. simpl in Hp.
    eapply m_holds_bind; [apply read_count_spec| |].
    { intros h' e (Hd&Hc&_). split; [|done]. apply (huge_same h1); [by rewrite Hd|done|done]. }
    intros h2 c (Hd2&Hp2&Hc). rewrite (Hc c eq_refl). unfold pages_of at 1 2. rewrite Hp. fold (huge_mark previous false).
    eapply m_holds_bind; [apply huge_write| |].
    { intros h' e [Hk [[Hw _]|Hrec]]; (split; [|done]); [left|by right; left].
      split; [rewrite Hw; unfold saved in *; by rewrite Hd2|]. unfold pages_of in Hp2. rewrite Hk. congruence. }
    intros h3 [] [Hk3 [[_ ?]|Hrec]]; [done|]. apply m_holds_ret; [done|].
    split; [by right; left|]. by intros s [= <-].
Qed.

Lemma prepare_pages_spec previous h : hd None (faults (disk h)) = None -> pages_safe previous h ->
  m_holds (prepare_hugepages x op n pages size) h (fun h' r => pages_safe previous h' /\
    forall v, r = Ok v -> pages_of h' = pages /\ result_previous_pages v = Some previous).
Proof.
  intros Hf Hs. unfold prepare_hugepages. fold huge_file.
  eapply (m_holds_lift _ _ _ (fun _ => True)).
  { unfold validate_hugepages. by case_match. }
  { intros e. by split. }
  intros _ _. eapply m_holds_bind; [by apply huge_snapshot_spec| |].
  { intros h' e [? _]. by split. }
  intros h1 s [Hs1 Hr]. destruct (Hr s eq_refl) as (->&Hrec). cbn [huge_released huge_mark] in *.
  set (released := huge_released s) in *. destruct released; [by apply m_holds_ret|].
  eapply m_holds_bind; [apply write_count_spec| |].
  { intros h' e [Hd _]. split; [|done]. right. left. by apply (huge_kept h1). }
  intros h2 [] [Hd2 Hp2]. pose proof (huge_kept h1 h2 _ _ Hd2 Hrec) as Hrec2.
  change (set_huge_released false (huge_mark previous false)) with (huge_mark previous false).
  eapply m_holds_bind; [apply huge_write| |].
  { intros h' e [_ [[Hw _]|?]]; (split; [|done]); right; left; [by apply (journaled_saved _ _ _ _ h2)|done]. }
  intros h3 [] [Hk3 [[_ ?]|Hrec3]]; [done|]. apply m_holds_ret; [done|]. split; [by right; left|].
  intros v [= <-]. split; [|done]. unfold pages_of in *. rewrite Hk3. by apply Hp2.
Qed.

Lemma huge_release_spec previous h : pages_safe previous h ->
  m_holds (release_hugepages x op) h (fun h' r => pages_safe previous h' /\
    forall v, r = Ok v -> pages_recorded previous true h' /\ pages_of h' = previous /\
      active_pages v = Some previous /\ (pages_recorded previous true h -> kernel h' = kernel h)).
Proof.
  intros Hs. unfold release_hugepages. fold huge_file.
  eapply m_holds_bind; [apply read_state_spec| |].
  { intros h' e (Hk&Hd&_). split; [|done]. apply (huge_same h); [done|unfold pages_of; by rewrite Hk|done]. }
  intros h1 s (Hk1&Hd1&Hr). destruct (Hr s eq_refl) as (b&Hb&Hdec).
  destruct (huge_read previous h b s Hs Hb Hdec) as [-> Hrec]. set (released := huge_released s) in *.
  assert (pages_of h1 = pages_of h) as Hp1 by (unfold pages_of; by rewrite Hk1).
  pose proof (huge_same h h1 previous Hd1 Hp1 Hs) as Hs1.
  assert (pages_recorded previous released h1) as Hrec1.
  { apply (journaled_saved _ _ _ _ h); [unfold saved; by rewrite Hd1|done]. }
  cbn [huge_version huge_mark huge_operation_id node page_size_kib previous_pages huge_released].
  rewrite Z.eqb_refl, bool_decide_true by done. cbn [negb orb].
  change (set_huge_released true (huge_mark previous released)) with (huge_mark previous true).
  eapply (m_holds_bind _ _ _ (fun h' r => pages_safe previous h' /\ (r = Ok tt ->
    pages_recorded previous true h' /\ pages_of h' = previous /\
    (pages_recorded previous true h -> kernel h' = kernel h)))).
  - destruct released.
    + apply m_holds_ret; [done|]. split; [done|]. intros _. split_and!; [done| |done].
      apply (journal_released huge_from_slice huge_file (huge_mark previous) ltac:(done)
        (fun k => reserved k = previous) h1 Hs1 Hrec1).
    + eapply m_holds_bind; [apply write_count_spec| |].
      { intros h' e [Hd _]. split; [|done]. right. left. by apply (huge_kept h1). }
      intros h2 [] [Hd2 Hp2]. specialize (Hp2 eq_refl). eapply m_holds_weaken; [apply huge_write|].
      intros h3 r [Hk3 [[Hw Hno]|Hrec3]].
      * split; [|done]. right. left. apply (journaled_saved _ _ _ _ h2); [done|]. by apply (huge_kept h1).
      * assert (pages_of h3 = previous) as Hp3 by (unfold pages_of in *; congruence).
        split; [by right; right|]. intros _. split_and!; [done|done|]. intros Hrec'.
        assert (huge_mark previous false <> huge_mark previous true) as Hm by done.
        discriminate (journaled_unique _ _ _ Hm _ _ _ Hrec Hrec').
  - intros h' e [? _]. by split.
  - intros h' [] [Hs' Hr']. destruct (Hr' eq_refl) as (?&?&?). apply m_holds_ret; [done|].
    split; [done|]. intros v [= <-]. by split_and!.
Qed.

Inductive pages_step h : Host K -> Prop :=
  | try_reserve h' r : hd None (faults (disk h)) = None -> prepare_hugepages x op n pages size h = (h', r) ->
      pages_step h h'
  | try_release h' r : release_hugepages x op h = (h', r) -> pages_step h h'
  | restart_helper f : pages_step h {| kernel := kernel h; disk := {| files := files (disk h); faults := f |} |}.

Lemma pages_safe_steps h h' previous : rtc pages_step h h' -> pages_safe previous h -> pages_safe previous h'.
Proof.
  induction 1 as [|h1 h2 h3 Hstep _ IH]; [done|]. intros Hs. apply IH. destruct Hstep as [h2 r Hf Hp|h2 r Hp|f].
  - destruct (prepare_pages_spec previous h1 Hf Hs) as [_ [? _]]. by rewrite Hp in *.
  - destruct (huge_release_spec previous h1 Hs) as [_ [? _]]. by rewrite Hp in *.
  - by apply (huge_same h1).
Qed.
End Pages.

(** C21: Through any attempts to reserve and release huge pages under one operation ID,
    failures and restarts in between: a reservation that succeeds reads back as the
    requested number and reports the number before the first attempt; as long as the
    number differs, that earlier number is recorded on the disk; a release that succeeds
    restores it and is idempotent. Nothing panics. *)
Theorem hugepages_restored {K} `{KernelAccess K} `{SnapshotCodec} `{!SnapshotLaws}
    (x : LinuxResourceExecutor) (op : string) (n : option Z) (pages size : Z)
    `{!PagesLaw K (hugepage_path x n size)} (h h1 : Host K)
    (Hnew : saved h (huge_file x op) = None) (Hsteps : rtc (pages_step x op n pages size) h h1) :
  let previous := pages_of x n size h in
  (pages_of x n size h1 <> previous -> pages_recorded x op n pages size previous false h1) /\
  (hd None (faults (disk h1)) = None -> m_holds (prepare_hugepages x op n pages size) h1 (fun h2 r =>
    forall v, r = Ok v -> pages_of x n size h2 = pages /\ result_previous_pages v = Some previous)) /\
  m_holds (release_hugepages x op) h1 (fun h2 r => forall v, r = Ok v ->
    pages_of x n size h2 = previous /\ active_pages v = Some previous /\
    forall h3 v', release_hugepages x op h2 = (h3, Ok v') ->
      kernel h3 = kernel h2 /\ active_pages v' = Some previous).
Proof.
  intros previous. assert (pages_safe x op n pages size previous h1) as Hs.
  { apply (pages_safe_steps x op n pages size h h1); [done|by left]. }
  split_and!.
  - intros Hne. by destruct Hs as [[_ ?]|[?|[_ ?]]].
  - intros Hf. eapply m_holds_weaken; [by apply prepare_pages_spec|]. intros h2 r [_ Hr] v Hv. by apply Hr.
  - eapply m_holds_weaken; [by apply huge_release_spec|]. intros h2 r [Hs2 Hr] v Hv.
    destruct (Hr v Hv) as (Hrec&Hd&Ha&_). split_and!; [done..|]. intros h3 v' Hv'.
    destruct (huge_release_spec x op n pages size previous h2 Hs2) as [_ [_ Hr2]]. rewrite Hv' in Hr2.
    destruct (Hr2 v' eq_refl) as (_&_&?&Hk). split; [by apply Hk|done].
Qed.

(** ** Other files are left alone. *)

Section Quiet.
Context {K : Type} `{KernelAccess K} `{SnapshotCodec}.
Context (x : LinuxResourceExecutor) (path : string).

(** No file of the executor is the one at [path]. *)
Definition apart : Prop := forall kind op, kind = "nic"%string \/ kind = "hugepage"%string ->
  state_path x kind op <> path /\ with_extension "tmp" (state_path x kind op) <> path.

Definition quiet {A} (m : method (Host K) A) : Prop := forall h,
  saved (m h).1 path = saved h path /\ (m h).2 <> Panic /\
  (faults (disk h) = [] -> faults (disk (m h).1) = []).

Lemma quiet_host_ret {A} (o : res A) : o <> Panic -> quiet (m_ret o).
Proof. intros Ho h. by split_and!. Qed.

Lemma quiet_host_bind {A B} (m : method (Host K) A) (k : A -> method (Host K) B) :
  quiet m -> (forall a, quiet (k a)) -> quiet (m_bind m k).
Proof.
  intros Hm Hk h. unfold m_bind. destruct (Hm h) as (Hf&Hp&Hq). destruct (m h) as [h' [a|e|]]; simpl in *;
    [|by split_and!|done].
  destruct (Hk a h') as (Hf'&Hp'&Hq'). split_and!; [congruence|done|auto].
Qed.

Lemma quiet_disk {A} (m : IO A) : leaves path m -> quiet (on_disk m).
Proof.
  intros Hm h. unfold on_disk, saved. destruct (Hm (disk h)) as (Hf&Hp&Hq).
  destruct (m (disk h)) as [w [a|e|]]; simpl in *; by split_and!.
Qed.

Lemma quiet_call {A} (f : K -> K * A) : quiet (call f).
Proof. intros h. unfold call. destruct (f (kernel h)). by split_and!. Qed.

Lemma quiet_kernel {A} context (f : K -> K * (IoError + A)) : quiet (on_kernel context f).
Proof. apply quiet_host_bind; [apply quiet_call|]. intros o. apply quiet_host_ret. by destruct o. Qed.

Lemma quiet_exists p : quiet (exists_ p).
Proof.
  intros h. unfold exists_, path_exists, saved. destruct (disk h) as [f [|[k|] q]]; by split_and!.
Qed.

Lemma quiet_read {A} (decode : bytes -> string + A) p : quiet (read_state decode p).
Proof.
  apply quiet_host_bind; [apply quiet_disk, leaves_read|]. intros b. apply quiet_host_ret. by destruct (decode b).
Qed.

Lemma quiet_write p b : p <> path -> with_extension "tmp" p <> path -> quiet (write_state p b).
Proof.
  intros Hp Ht. unfold write_state. destruct b; [by apply quiet_host_ret|]. apply quiet_disk.
  apply leaves_bind; [by apply leaves_replace|]. intros []. unfold sync_parent. destruct (parent_of p).
  - apply leaves_ret.
  - apply leaves_err.
  - by apply leaves_bind; [|intros []]; apply leaves_syscall.
Qed.

Lemma quiet_driver pci : quiet (current_driver x pci).
Proof. apply quiet_host_bind; [apply quiet_call|]. intros o. apply quiet_host_ret. by repeat case_match. Qed.

Lemma quiet_bind_driver pci target : quiet (bind_driver x pci target).
Proof.
  apply quiet_host_bind; [apply quiet_driver|]. intros d. case_bool_decide; [by apply quiet_host_ret|].
  apply quiet_host_bind; [apply quiet_kernel|]. intros [].
  apply quiet_host_bind; [destruct d; [apply quiet_kernel|by apply quiet_host_ret]|]. intros [].
  apply quiet_host_bind; [destruct (bool_decide (is_Some target)); [apply quiet_kernel|by apply quiet_host_ret]|]. intros [].
  apply quiet_host_bind; [apply quiet_driver|]. intros r. case_bool_decide; by apply quiet_host_ret.
Qed.

Lemma quiet_read_count p : quiet (read_count p).
Proof. apply quiet_host_bind; [apply quiet_kernel|]. intros t. apply quiet_host_ret. by case_match. Qed.

Lemma quiet_write_count p v : quiet (write_count p v).
Proof.
  apply quiet_host_bind; [apply quiet_kernel|]. intros []. apply quiet_host_bind; [apply quiet_read_count|].
  intros n. case_match; by apply quiet_host_ret.
Qed.

Context (Hapart : apart).

Lemma quiet_nic op b : quiet (write_state (state_path x "nic" op) b).
Proof. destruct (Hapart "nic" op) as [? ?]; [by left|]. by apply quiet_write. Qed.

Lemma quiet_huge op b : quiet (write_state (state_path x "hugepage" op) b).
Proof. destruct (Hapart "hugepage" op) as [? ?]; [by right|]. by apply quiet_write. Qed.

Lemma quiet_prepare_dpdk op pci : quiet (prepare_dpdk x op pci).
Proof.
  apply quiet_host_bind; [apply quiet_host_ret; unfold validate_pci_address; by case_match|]. intros [].
  apply quiet_host_bind.
  - apply quiet_host_bind; [apply quiet_exists|]. intros [].
    + apply quiet_host_bind; [apply quiet_read|]. intros s. case_match; by apply quiet_host_ret.
    + apply quiet_host_bind; [apply quiet_driver|]. intros d.
      apply quiet_host_bind; [apply quiet_nic|]. intros []. by apply quiet_host_ret.
  - intros s. case_match; [by apply quiet_host_ret|].
    apply quiet_host_bind; [apply quiet_bind_driver|]. intros [].
    apply quiet_host_bind; [apply quiet_nic|]. intros []. by apply quiet_host_ret.
Qed.

Lemma quiet_restore_driver op pci : quiet (restore_driver x op pci).
Proof.
  apply quiet_host_bind; [apply quiet_host_ret; unfold validate_pci_address; by case_match|]. intros [].
  apply quiet_host_bind; [apply quiet_read|]. intros s. case_match; [by apply quiet_host_ret|].
  apply quiet_host_bind; [|intros []; by apply quiet_host_ret]. case_match; [by apply quiet_host_ret|].
  apply quiet_host_bind; [apply quiet_bind_driver|]. intros [].
  apply quiet_host_bind; [apply quiet_kernel|]. intros []. apply quiet_nic.
Qed.

Lemma quiet_prepare_hugepages op n pages size : quiet (prepare_hugepages x op n pages size).
Proof.
  apply quiet_host_bind; [apply quiet_host_ret; unfold validate_hugepages; by case_match|]. intros [].
  apply quiet_host_bind.
  - apply quiet_host_bind; [apply quiet_exists|]. intros [].
    + apply quiet_host_bind; [apply quiet_read|]. intros s. case_match; by apply quiet_host_ret.
    + apply quiet_host_bind; [apply quiet_read_count|]. intros d.
      apply quiet_host_bind; [apply quiet_huge|]. intros []. by apply quiet_host_ret.
  - intros s. case_match; [by apply quiet_host_ret|].
    apply quiet_host_bind; [apply quiet_write_count|]. intros [].
    apply quiet_host_bind; [apply quiet_huge|]. intros []. by apply quiet_host_ret.
Qed.

Lemma quiet_release_hugepages op : quiet (release_hugepages x op).
Proof.
  apply quiet_host_bind; [apply quiet_read|]. intros s. case_match; [by apply quiet_host_ret|].
  apply quiet_host_bind; [|intros []; by apply quiet_host_ret]. case_match; [by apply quiet_host_ret|].
  apply quiet_host_bind; [apply quiet_write_count|]. intros []. apply quiet_huge.
Qed.
End Quiet.

(** ** A kernel with one device and one size of pages. *)

Module FakeKernel.
Inductive Driver := Ixgbe | Vfio.
Definition name (d : Driver) : string := match d with Ixgbe => "ixgbe" | Vfio => DPDK_DRIVER end.

Record fake := { fake_driver : option Driver; fake_override : bytes; fake_pages : Z }.

Definition x : LinuxResourceExecutor := {| sysfs_root := "/sys"; state_directory := "/var/lib/nettool/resources" |}.
Definition pci : string := "0000:01:00.0".

Definition set_driver (d : option Driver) (k : fake) : fake :=
  {| fake_driver := d; fake_override := fake_override k; fake_pages := fake_pages k |}.

#[export] Instance fake_kernel : KernelAccess fake := {|
  read_link _ k := (k, match fake_driver k with
                       | Some d => inr ("../../../bus/pci/drivers/" +:+ name d)
                       | None => inl not_found
                       end);
  read_to_string _ k := (k, inr (dec (fake_pages k mod 2 ^ 64)));
  write path v k :=
    if ends_with (as_bytes "unbind") (as_bytes path) then (set_driver None k, inr tt)
    else if bool_decide (path = probe_path x) then
      (match fake_driver k with
       | Some _ => k
       | None => if bool_decide (fake_override k = as_bytes "ixgbe") then set_driver (Some Ixgbe) k
                 else if bool_decide (fake_override k = as_bytes DPDK_DRIVER) then set_driver (Some Vfio) k
                 else k
       end, inr tt)
    else if ends_with (as_bytes "driver_override") (as_bytes path)
    then ({| fake_driver := fake_driver k; fake_override := v; fake_pages := fake_pages k |}, inr tt)
    else ({| fake_driver := fake_driver k; fake_override := fake_override k;
             fake_pages := default 0 (parse_unsigned 64 v) |}, inr tt);
|}.

#[export] Instance fake_device : DeviceLaw fake x pci.
Proof.
  refine {| bound k := name <$> fake_driver k; wanted := fake_override |}.
  - intros k k' o [= <- <-]. split_and!; try done. by destruct (fake_driver k) as [[]|].
  - intros v k k' o [= <- <-]. done.
  - intros d k k' o Hw. cbn [write fake_kernel] in Hw.
    assert (ends_with (as_bytes "unbind") (as_bytes (unbind_path x d)) = true) as He.
    { apply ends_with_spec. destruct (join_last (path_join (path_join (sysfs_root x) "bus/pci/drivers") d)
        "unbind" ltac:(by apply slashless_dec) ltac:(done)) as (_&u&_&Hu).
      exists (as_bytes u). unfold unbind_path. by rewrite Hu, as_bytes_app. }
    rewrite He in Hw. injection Hw as <- <-. split; [done|by right].
  - intros k k' o [= <- <-]. destruct (fake_driver k) as [d|] eqn:Hd; [split; [done|left; by rewrite ?Hd]|].
    case_bool_decide as H1; [|case_bool_decide as H2].
    + split; [done|]. right. split; [by rewrite ?Hd|]. exists "ixgbe"%string. by rewrite H1.
    + split; [done|]. right. split; [by rewrite ?Hd|]. exists DPDK_DRIVER. by rewrite H2.
    + split; [done|left; by rewrite ?Hd].
Defined.

Lemma trim_visible l : Forall visible l -> trim l = l.
Proof.
  intros Hl. unfold trim. destruct l as [|c l]; [done|].
  assert (visible c) as Hc by (by apply Forall_cons in Hl as [? _]). rewrite trim_start_visible by done.
  destruct (c :: l) as [|b k _] using rev_ind; [done|].
  apply Forall_app in Hl as [_ [Hb _]%Forall_cons]. by apply trim_end_visible.
Qed.

#[export] Instance fake_pages_law : PagesLaw fake (hugepage_path x None 2048).
Proof.
  refine {| reserved k := fake_pages k mod 2 ^ 64 |}.
  - intros k k' o [= <- <-]. split; [done|]. intros t [= <-]. rewrite trim_visible.
    + apply parse_unsigned_dec. pose proof (Z.mod_pos_bound (fake_pages k) (2 ^ 64) ltac:(lia)).
      unfold uint, umax. lia.
    + eapply Forall_impl; [apply dec_digits|]. unfold visible. simpl. lia.
  - by intros v k k' o [= <- <-].
Defined.

#[export] Instance NicSnapshot_eq_dec : EqDecision NicSnapshot.
Proof. solve_decision. Defined.
#[export] Instance NicSnapshot_countable : Countable NicSnapshot.
Proof.
  refine (inj_countable' (fun s => (nic_version s, nic_operation_id s, pci_address s, original_driver s, nic_released s))
    (fun '(v, o, p, d, r) => {| nic_version := v; nic_operation_id := o; pci_address := p; original_driver := d; nic_released := r |}) _).
  by intros [].
Defined.
#[export] Instance HugepageSnapshot_eq_dec : EqDecision HugepageSnapshot.
Proof. solve_decision. Defined.
#[export] Instance HugepageSnapshot_countable : Countable HugepageSnapshot.
Proof.
  refine (inj_countable' (fun s => (huge_version s, huge_operation_id s, node s, page_size_kib s, previous_pages s,
      requested_pages s, huge_released s))
    (fun '(v, o, n, p, q, u, r) => {| huge_version := v; huge_operation_id := o; node := n; page_size_kib := p;
      previous_pages := q; requested_pages := u; huge_released := r |}) _).
  by intros [].
Defined.

(** The digest keeps the operation ID. *)
#[export] Instance fake_codec : SnapshotCodec := {|
  nic_to_vec s := inr (number s); nic_from_slice := denumber;
  huge_to_vec s := inr (number s); huge_from_slice := denumber; sha256 b := b;
|}.
#[export] Instance fake_codec_laws : SnapshotLaws.
Proof.
  split; try (intros s; by eexists); intros s b [= <-]; apply denumber_number.
Qed.

Definition host (f : list (option nat)) : Host fake :=
  {| kernel := {| fake_driver := Some Ixgbe; fake_override := []; fake_pages := 8 |};
     disk := {| files := ∅; faults := f |} |}.
End FakeKernel.

Section Witnesses.
Import FakeKernel.

(** The snapshot is written and the device bound, but the second write of the snapshot
    fails: the prepare reports an error. *)
Definition failed : list (option nat) := replicate 7 None ++ [Some 0%nat].
Definition first_try : Host fake := (prepare_dpdk x "op" pci (host failed)).1.

Lemma nic_original_restored_witness :
  driver x pci first_try = Some DPDK_DRIVER /\
  exists v, (restore_driver x "op" pci first_try).2 = Ok v /\
    driver x pci (restore_driver x "op" pci first_try).1 = Some "ixgbe"%string.
Proof.
  split; [by vm_compute|].
  assert (rtc (nic_step x "op" pci) (host failed) first_try) as Hsteps.
  { apply rtc_once. by apply (try_prepare x "op" pci _ _ (prepare_dpdk x "op" pci (host failed)).2). }
  destruct (nic_original_restored x "op" pci (host failed) first_try eq_refl Hsteps) as (_&_&_&Hr).
  assert (exists v, (restore_driver x "op" pci first_try).2 = Ok v) as [v Hv]
    by (eexists; vm_compute; reflexivity).
  exists v. split; [exact Hv|]. exact (proj1 (Hr v Hv)).
Defined.

Lemma hugepages_restored_witness : exists v,
  (prepare_hugepages x "op" None 16 2048 (host [])).2 = Ok v /\
  pages_of x None 2048 (prepare_hugepages x "op" None 16 2048 (host [])).1 = 16.
Proof.
  destruct (hugepages_restored x "op" None 16 2048 (host []) (host []) eq_refl (rtc_refl _ _)) as (_&Hp&_).
  destruct (Hp eq_refl) as [_ Hr].
  assert (exists v, (prepare_hugepages x "op" None 16 2048 (host [])).2 = Ok v) as [v Hv]
    by (eexists; vm_compute; reflexivity).
  exists v. split; [exact Hv|]. exact (proj1 (Hr v Hv)).
Defined.

(** When the look for the snapshot itself fails, the retry takes it for absent and
    records the DPDK driver as the original one. *)
Example unseen_snapshot :
  let h := (prepare_dpdk x "op" pci (host [])).1 in
  let h := {| kernel := kernel h; disk := {| files := files (disk h); faults := [Some 0%nat] |} |} in
  (result_original_driver <$> match (prepare_dpdk x "op" pci h).2 with Ok v => Some v | _ => None end) =
    Some (Some DPDK_DRIVER).
Proof. by vm_compute. Qed.
End Witnesses.
