(* ===== verification/NetworkManager.v ===== *)
(** * The NetworkManager executor

    Model of [crates/helper-core/src/linux_network_manager.rs]: the network executor of
    Linux, which configures the active connection of an Ethernet device through
    [nmcli]. Processes are an interface ([CommandRunner]); snapshots are files on the
    disk of [FileIo]. Texts are UTF-8 bytes, a [BTreeMap] is a [gmap] that is iterated
    in the order of its keys. *)

From stdpp Require Import base list strings gmap sorting.
From Stdlib Require Import ZArith Lia Ascii.
From S2P Require Import Prelude ErrorModel Text FileIo Paths UdpProtocol HelperProtocol SafeApply.
Open Scope Z_scope.

Definition SNAPSHOT_VERSION : Z := 1.

Definition PROFILE_PROPERTIES : list string :=
  ["ipv4.method"; "ipv4.addresses"; "ipv4.dns"; "ipv4.dns-search"; "ipv4.routes"; "ipv4.ignore-auto-dns";
   "ipv6.method"; "ipv6.addresses"; "ipv6.dns"; "ipv6.dns-search"; "ipv6.routes"; "ipv6.ignore-auto-dns";
   "802-3-ethernet.mtu"].

Record CommandOutput := { success : bool; stdout : bytes; stderr : bytes }.

(** [run] of a program with its arguments. *)
Class CommandRunner (R : Type) := {
  run : string -> list bytes -> R -> R * (NetToolError + CommandOutput);
}.

Record NetworkManagerSnapshot := {
  version : Z; interface_id : string; connection_uuid : bytes; properties : gmap string bytes;
}.

(** [serde_json] and [sha2]. *)
Class SnapshotCodec (V : Type) := {
  snapshot_to_vec : NetworkManagerSnapshot -> string + bytes;
  snapshot_from_slice : bytes -> string + NetworkManagerSnapshot;
  snapshot_to_value : NetworkManagerSnapshot -> string + V;
  sha256 : bytes -> bytes;
}.

(** The runner, the disk of the snapshots, and the next draws of the operating
    system's randomness (or their errors) and clock. *)
Record Executor (R : Type) := {
  runner : R; disk : World; entropy : list (string + bytes); nanos : list Z;
}.
Arguments runner {R}.
Arguments disk {R}.
Arguments entropy {R}.
Arguments nanos {R}.
Arguments Build_Executor {R}.

Definition execution_error (context : string) (detail : bytes) (r : bool) : NetToolError :=
  new_error HelperExecutionFailed
    (context +:+ ": " +:+ match detail with [] => "no platform detail" | _ => of_bytes detail end) r.
Definition persistence_error (e : IoError) : NetToolError :=
  new_error PersistenceFailed ("network snapshot persistence failed: " +:+ io_message e) true.
Definition snapshot_state_error (m : string) : NetToolError :=
  new_error PersistenceFailed ("network snapshot is invalid: " +:+ m) false.

(** A character of white space somewhere in the text. *)
Fixpoint has_whitespace (bs : bytes) : bool :=
  match bs with
  | [] => false
  | _ :: rest => negb (bool_decide (trim_start bs = bs)) || has_whitespace rest
  end.

(** ** Properties of a profile. *)

Definition comma : bytes := [44].

Definition format_addresses (addresses : list IpPrefix) : bytes :=
  join comma (map (fun p => as_bytes (ip_to_string (prefix_address p) +:+ "/" +:+ dec (prefix_length p))) addresses).

Definition route_text (v4 : bool) (r : RouteConfiguration) : bytes :=
  let value := ip_to_string (prefix_address (route_destination r)) +:+ "/" +:+ dec (prefix_length (route_destination r)) in
  let value :=
    match gateway r with
    | Some g => value +:+ " " +:+ ip_to_string g
    | None => match metric r with
              | Some _ => value +:+ (if v4 then " 0.0.0.0" else " ::")
              | None => value
              end
    end in
  as_bytes (match metric r with Some m => value +:+ " " +:+ dec m | None => value end).

Definition format_routes (rs : list RouteConfiguration) (v4 : bool) : bytes :=
  join comma (map (route_text v4)
    (filter (fun r => is_ipv4 (prefix_address (route_destination r)) = v4) rs)).

Definition dns_text (v4 : bool) (d : DnsConfiguration) : bytes :=
  join comma (map (fun a => as_bytes (ip_to_string a)) (filter (fun a => is_ipv4 a = v4) (servers d))).

Definition build_network_manager_properties (s : NetworkDesiredState) : gmap string bytes :=
  let m : gmap string bytes := ∅ in
  let m := match ipv4 s with
           | Dhcp => <["ipv4.addresses" := []]> (<["ipv4.method" := as_bytes "auto"]> m)
           | StaticV4 a => <["ipv4.addresses" := format_addresses a]> (<["ipv4.method" := as_bytes "manual"]> m)
           | DisabledV4 => <["ipv4.addresses" := []]> (<["ipv4.method" := as_bytes "disabled"]> m)
           end in
  let m := match ipv6 s with
           | Automatic => <["ipv6.addresses" := []]> (<["ipv6.method" := as_bytes "auto"]> m)
           | StaticV6 a => <["ipv6.addresses" := format_addresses a]> (<["ipv6.method" := as_bytes "manual"]> m)
           | DisabledV6 => <["ipv6.addresses" := []]> (<["ipv6.method" := as_bytes "disabled"]> m)
           end in
  let m := <["ipv4.dns" := dns_text true (dns s)]> m in
  let m := <["ipv6.dns" := dns_text false (dns s)]> m in
  let m := <["ipv4.dns-search" := join comma (map as_bytes (search_domains (dns s)))]> m in
  let m := <["ipv6.dns-search" := []]> m in
  let ignore_auto := as_bytes (if dns_automatic (dns s) then "no" else "yes") in
  let m := <["ipv4.ignore-auto-dns" := ignore_auto]> m in
  let m := <["ipv6.ignore-auto-dns" := ignore_auto]> m in
  let m := <["ipv4.routes" := format_routes (routes s) true]> m in
  let m := <["ipv6.routes" := format_routes (routes s) false]> m in
  match mtu s with Some v => <["802-3-ethernet.mtu" := as_bytes (dec v)]> m | None => m end.

Definition normalize_property (value : bytes) : bytes :=
  join comma (filter (fun item => item <> []) (map trim (split comma value))).

(** ** The executor. *)

Section Executor.
Context {R V : Type} `{CommandRunner R} `{SnapshotCodec V}.
Context (nmcli_path snapshot_directory : string).

Abbreviation op A := (method (Executor R) A).

Definition with_runner (r : R) (e : Executor R) : Executor R :=
  {| runner := r; disk := disk e; entropy := entropy e; nanos := nanos e |}.

Definition run_checked (arguments : list bytes) : op bytes := fun e =>
  match run nmcli_path arguments (runner e) with
  | (r, inl x) => (with_runner r e, Err x)
  | (r, inr output) =>
      (with_runner r e,
       if success output then Ok (stdout output)
       else Err (execution_error "NetworkManager command failed" (trim (stderr output)) false))
  end.

Definition device_show (field interface : string) : list bytes :=
  map as_bytes ["--get-values"; field; "device"; "show"; interface]%string.

Definition connection_uuid_of (interface : string) : op bytes :=
  let! output := run_checked (device_show "GENERAL.CON-UUID" interface) in
  let uuid := trim output in
  m_ret (if bool_decide (uuid = []) || bool_decide (uuid = as_bytes "--") || has_whitespace uuid
         then Err (execution_error "resolve active NetworkManager connection UUID"
                     (as_bytes "device has no unambiguous active connection") false)
         else Ok uuid).

Definition ensure_ethernet (interface : string) : op unit :=
  let! output := run_checked (device_show "GENERAL.TYPE" interface) in
  m_ret (if bool_decide (trim output = as_bytes "ethernet") then Ok tt
         else err Unsupported "Linux NetworkManager executor currently supports Ethernet devices only").

Definition show_arguments (uuid : bytes) (property : string) : list bytes :=
  [as_bytes "--get-values"; as_bytes property; as_bytes "connection"; as_bytes "show"; as_bytes "uuid"; uuid].

Definition read_property (uuid : bytes) (property : string) : op bytes :=
  let! output := run_checked (show_arguments uuid property) in m_ret (Ok (trim output)).

Definition up_arguments (uuid : bytes) (interface : string) : list bytes :=
  [as_bytes "--wait"; as_bytes "30"; as_bytes "connection"; as_bytes "up"; as_bytes "uuid"; uuid;
   as_bytes "ifname"; as_bytes interface].

Definition activate (uuid : bytes) (interface : string) : op unit :=
  let! _ := run_checked (up_arguments uuid interface) in m_ret (Ok tt).

Definition modify_arguments (uuid : bytes) (m : gmap string bytes) : list bytes :=
  [as_bytes "connection"; as_bytes "modify"; as_bytes "uuid"; uuid] ++
  flat_map (fun '(property, value) => [as_bytes property; value]) (btree_iter m).

Definition modify (uuid : bytes) (m : gmap string bytes) : op unit :=
  let! _ := run_checked (modify_arguments uuid m) in m_ret (Ok tt).

Definition snapshot_path (snapshot_id : string) : res string :=
  if negb (len (as_bytes snapshot_id) =? 64) || negb (forallb is_ascii_hexdigit (as_bytes snapshot_id))
  then err InvalidArgument "snapshot ID is invalid"
  else Ok (path_join snapshot_directory (snapshot_id +:+ ".json")).

(** The loop over [PROFILE_PROPERTIES]. *)
Fixpoint read_properties (uuid : bytes) (ps : list string) (m : gmap string bytes) : op (gmap string bytes) :=
  match ps with
  | [] => m_ret (Ok m)
  | p :: ps => let! v := read_property uuid p in read_properties uuid ps (<[p := v]> m)
  end.

Definition current_snapshot (interface : string) : op NetworkManagerSnapshot :=
  let! _ := ensure_ethernet interface in
  let! uuid := connection_uuid_of interface in
  let! m := read_properties uuid PROFILE_PROPERTIES ∅ in
  m_ret (Ok {| version := SNAPSHOT_VERSION; interface_id := interface; connection_uuid := uuid; properties := m |}).

(** [getrandom::fill] and [SystemTime::now]. *)
Definition draw_entropy : op bytes := fun e =>
  ({| runner := runner e; disk := disk e; entropy := tail (entropy e); nanos := nanos e |},
   match default (inl "no entropy"%string) (head (entropy e)) with
   | inr b => Ok b
   | inl m => Err (new_error RandomFailed ("generate snapshot identifier: " +:+ m) true)
   end).
Definition read_nanos : op Z := fun e =>
  ({| runner := runner e; disk := disk e; entropy := entropy e; nanos := tail (nanos e) |},
   Ok (default 0 (head (nanos e)))).

Definition on_disk {A} (m : IO A) : op A := fun e =>
  let '(w, o) := m (disk e) in
  ({| runner := runner e; disk := w; entropy := entropy e; nanos := nanos e |},
   match o with Ok a => Ok a | Err x => Err (persistence_error x) | Panic => Panic end).

Definition serialized {A} (o : string + A) : res A :=
  match o with inr a => Ok a | inl m => Err (snapshot_state_error m) end.

Definition write_snapshot (s : NetworkManagerSnapshot) : op string :=
  let! random := draw_entropy in
  let! timestamp := read_nanos in
  let snapshot_id := hex (sha256 (random ++ to_be_bytes 16 timestamp ++ as_bytes (interface_id s))) in
  let! path := m_ret (snapshot_path snapshot_id) in
  let! bytes := m_ret (serialized (snapshot_to_vec s)) in
  let! _ := on_disk (write_new (with_extension "tmp" path) path bytes) in
  m_ret (Ok snapshot_id).

Definition nm_read_state (interface : string) : op V :=
  let! s := current_snapshot interface in m_ret (serialized (snapshot_to_value s)).

Definition nm_snapshot (interface : string) : op (string * V) :=
  let! s := current_snapshot interface in
  let! snapshot_id := write_snapshot s in
  let! state := m_ret (serialized (snapshot_to_value s)) in
  m_ret (Ok (snapshot_id, state)).

Definition nm_apply (interface : string) (desired : NetworkDesiredState) : op unit :=
  let! _ := m_ret (match validate_desired desired with
                   | Ok _ => Ok tt | Err m => err InvalidArgument m | Panic => Panic end) in
  let! _ := ensure_ethernet interface in
  let! uuid := connection_uuid_of interface in
  let! _ := modify uuid (build_network_manager_properties desired) in
  activate uuid interface.

Definition property_error (property : string) : NetToolError :=
  let e := execution_error "verify NetworkManager state"
             (as_bytes "profile property does not match requested state") false in
  {| code := code e; message := message e; retryable := retryable e;
     details := <["property" := property]> (details e) |}.

Fixpoint verify_properties (uuid : bytes) (expected : list (string * bytes)) : op unit :=
  match expected with
  | [] => m_ret (Ok tt)
  | (property, value) :: rest =>
      let! actual := read_property uuid property in
      if negb (bool_decide (normalize_property actual = normalize_property value))
      then m_ret (Err (property_error property))
      else verify_properties uuid rest
  end.

Definition nm_verify (interface : string) (desired : NetworkDesiredState) : op unit :=
  let! uuid := connection_uuid_of interface in
  verify_properties uuid (btree_iter (build_network_manager_properties desired)).

Definition nm_restore (snapshot_id : string) : op unit :=
  let! path := m_ret (snapshot_path snapshot_id) in
  let! bytes := on_disk (file_read path) in
  let! s := m_ret (serialized (snapshot_from_slice bytes)) in
  if negb (version s =? SNAPSHOT_VERSION)
  then m_ret (err ProtocolIncompatible "network snapshot version is unsupported")
  else
    let! _ := modify (connection_uuid s) (properties s) in
    activate (connection_uuid s) (interface_id s).

(** The operations never panic, see [nm_total]. *)
Definition to_sum {A} (o : res A) : NetToolError + A :=
  match o with Ok a => inr a | Err x => inl x | Panic => inl (new_error HelperExecutionFailed "panicked" false) end.
Definition as_call {A} (m : op A) : Executor R -> Executor R * (NetToolError + A) := fun e =>
  let '(e, o) := m e in (e, to_sum o).

#[export] Instance network_manager : NetworkExecutor (Executor R) V := {|
  SafeApply.read_state i := as_call (nm_read_state i);
  SafeApply.snapshot i := as_call (nm_snapshot i);
  SafeApply.apply i d := as_call (nm_apply i d);
  SafeApply.verify i d := as_call (nm_verify i d);
  SafeApply.restore s := as_call (nm_restore s);
|}.
End Executor.

(** ** What [nmcli] does.

    A connection has a profile, the text of each property as [nmcli] prints it; a device
    has an active connection. Showing changes nothing. A modification touches the listed
    properties of its connection only, and stores each value that [nmcli] itself has
    printed for that property as it is. Bringing a connection up changes no profile, and
    no other device unless it used that connection. *)
Class NmcliLaw (R : Type) `{CommandRunner R} (nmcli : string) := {
  profile : R -> bytes -> string -> bytes;
  active : R -> string -> bytes;
  printed : string -> bytes -> Prop;
  profile_printed : forall r u p, printed p (profile r u p);
  device_law : forall field i r r' o, run nmcli (device_show field i) r = (r', o) ->
    (forall u p, profile r' u p = profile r u p) /\ (forall j, active r' j = active r j) /\
    (field = "GENERAL.CON-UUID"%string -> forall out, o = inr out -> success out = true ->
     trim (stdout out) = active r i);
  show_law : forall u p r r' o, run nmcli (show_arguments u p) r = (r', o) ->
    (forall u p, profile r' u p = profile r u p) /\ (forall j, active r' j = active r j) /\
    (forall out, o = inr out -> success out = true -> trim (stdout out) = profile r u p);
  modify_law : forall u m r r' o, run nmcli (modify_arguments u m) r = (r', o) ->
    (forall u' p, u' <> u \/ m !! p = None -> profile r' u' p = profile r u' p) /\
    (forall j, active r' j = active r j) /\
    (forall out p v, o = inr out -> success out = true -> m !! p = Some v -> printed p v ->
     profile r' u p = v);
  up_law : forall u i r r' o, run nmcli (up_arguments u i) r = (r', o) ->
    (forall u p, profile r' u p = profile r u p) /\
    (forall j, j <> i -> active r j <> u -> active r' j = active r j) /\
    (forall out, o = inr out -> success out = true -> active r' i = u);
}.

Class SnapshotLaws (V : Type) `{SnapshotCodec V} := {
  snapshot_round_trip : forall s b, snapshot_to_vec s = inr b -> snapshot_from_slice b = inr s;
}.

Section Laws.
Context {R V : Type} `{CommandRunner R} `{SnapshotCodec V} `{!SnapshotLaws V}.
Context (nmcli directory : string) `{!NmcliLaw R nmcli}.
Implicit Types (e : Executor R).

(** A step that shows something: profiles, devices and the disk stay. *)
Record shows e e' : Prop := {
  shows_profile : forall u p, profile (runner e') u p = profile (runner e) u p;
  shows_active : forall j, active (runner e') j = active (runner e) j;
  shows_disk : disk e' = disk e;
}.

Lemma shows_refl e : shows e e.
Proof. by split. Qed.
Lemma shows_trans e1 e2 e3 : shows e1 e2 -> shows e2 e3 -> shows e1 e3.
Proof. intros [P1 A1 D1] [P2 A2 D2]. split; intros; by rewrite ?P2, ?A2, ?D2, ?P1, ?A1. Qed.

(** [m] shows, and an [Ok] of it satisfies [Q]. *)
Definition reader {A} (m : method (Executor R) A) e (Q : A -> Prop) : Prop :=
  m_holds m e (fun e' o => shows e e' /\ forall a, o = Ok a -> Q a).

Lemma reader_bind {A B} (m : method (Executor R) A) (k : A -> method (Executor R) B) e P Q :
  reader m e P -> (forall e' a, shows e e' -> P a -> reader (k a) e' Q) -> reader (m_bind m k) e Q.
Proof.
  intros Hm Hk. eapply m_holds_bind; [exact Hm|by intros e' x [? _]|].
  intros e' a [Hs Ha]. eapply m_holds_weaken; [by apply Hk; [|apply Ha]|].
  intros e'' o [Hs' Ho]. split; [by eapply shows_trans|done].
Qed.

Lemma reader_ret {A} (o : res A) e (Q : A -> Prop) : holds o Q -> reader (m_ret o) e Q.
Proof.
  intros Ho. apply m_holds_ret; [by eapply holds_not_panic|]. split; [apply shows_refl|].
  intros a ->. exact Ho.
Qed.

Lemma run_reader arguments e (Q : bytes -> Prop) :
  (forall r' o, run nmcli arguments (runner e) = (r', o) ->
    (forall u p, profile r' u p = profile (runner e) u p) /\ (forall j, active r' j = active (runner e) j) /\
    (forall out, o = inr out -> success out = true -> Q (stdout out))) ->
  reader (run_checked nmcli arguments) e Q.
Proof.
  intros Hr. unfold reader, m_holds, run_checked. destruct (run nmcli arguments (runner e)) as [r' o].
  destruct (Hr r' o eq_refl) as (Hp&Ha&Hq).
  destruct o as [x|out]; [|destruct (success out) eqn:Hs]; (split; [done|]); (split; [by split|]);
    intros a; try done. intros [= <-]. by apply Hq.
Qed.

Lemma uuid_reader i e : reader (connection_uuid_of nmcli i) e (fun u => u = active (runner e) i).
Proof.
  eapply reader_bind.
  { apply (run_reader _ _ (fun out => trim out = active (runner e) i)). intros r' o Hr.
    destruct (device_law _ _ _ _ _ Hr) as (?&?&?). split_and!; [done|done|naive_solver]. }
  intros e' out Hs Hq. apply reader_ret. by destruct (_ || _).
Qed.

Lemma ethernet_reader i e : reader (ensure_ethernet nmcli i) e (fun _ => True).
Proof.
  eapply reader_bind.
  { apply (run_reader _ _ (fun _ => True)). intros r' o Hr. by destruct (device_law _ _ _ _ _ Hr) as (?&?&?). }
  intros e' out Hs _. apply reader_ret. by destruct (bool_decide _).
Qed.

Lemma property_reader u p e : reader (read_property nmcli u p) e (fun v => v = profile (runner e) u p).
Proof.
  eapply reader_bind.
  { apply (run_reader _ _ (fun out => trim out = profile (runner e) u p)). intros r' o Hr.
    by destruct (show_law _ _ _ _ _ Hr) as (?&?&?). }
  intros e' out Hs Hq. by apply reader_ret.
Qed.

Lemma properties_reader u ps : forall m e, reader (read_properties nmcli u ps m) e (fun m' => forall p,
  m' !! p = if bool_decide (p ∈ ps) then Some (profile (runner e) u p) else m !! p).
Proof.
  induction ps as [|q ps IH]; intros m e; simpl; [by apply reader_ret|].
  eapply reader_bind; [apply property_reader|]. intros e' v Hs ->.
  eapply m_holds_weaken; [apply IH|]. intros e'' o [Hs' Ho]. split; [done|]. intros m' Hm p.
  rewrite (Ho m' Hm), (shows_profile _ _ Hs). clear.
  destruct (decide (p = q)) as [->|Hne].
  - rewrite lookup_insert_eq, (bool_decide_true (q ∈ q :: ps)) by left. by destruct (bool_decide _).
  - rewrite lookup_insert_ne by done. by rewrite (bool_decide_ext (p ∈ q :: ps) (p ∈ ps)) by set_solver.
Qed.

(** The snapshot of an interface: its active connection with all properties. *)
Definition snapshot_of e i (s : NetworkManagerSnapshot) : Prop :=
  version s = SNAPSHOT_VERSION /\ interface_id s = i /\ connection_uuid s = active (runner e) i /\
  forall p, properties s !! p =
    if bool_decide (p ∈ PROFILE_PROPERTIES) then Some (profile (runner e) (connection_uuid s) p) else None.

Lemma snapshot_reader i e : reader (current_snapshot nmcli i) e (snapshot_of e i).
Proof.
  eapply reader_bind; [apply ethernet_reader|]. intros e1 _ Hs1 _.
  eapply reader_bind; [apply uuid_reader|]. intros e2 u Hs2 ->.
  eapply reader_bind; [apply properties_reader|]. intros e3 m Hs3 Hm.
  apply reader_ret. split_and!; [done|done|by apply (shows_active _ _ Hs1)|].
  intros p. cbn [properties connection_uuid]. rewrite Hm, lookup_empty.
  by rewrite (shows_profile _ _ Hs2), (shows_profile _ _ Hs1).
Qed.

Lemma verify_reader u l : forall e, reader (verify_properties nmcli u l) e (fun _ =>
  Forall (fun '(p, v) => normalize_property (profile (runner e) u p) = normalize_property v) l).
Proof.
  induction l as [|[p v] l IH]; intros e; simpl; [apply reader_ret; constructor|].
  eapply reader_bind; [apply property_reader|]. intros e' a Hs ->.
  case_bool_decide as Heq; cbn [negb]; [|by apply reader_ret].
  eapply m_holds_weaken; [apply IH|]. intros e'' o [Hs' Ho]. split; [done|]. intros [] Hok.
  constructor; [done|]. eapply Forall_impl; [exact (Ho tt Hok)|]. intros [q w].
  by rewrite (shows_profile _ _ Hs).
Qed.

(** ** The steps that change something. *)

Lemma run_spec arguments e : let '(e', o) := run_checked nmcli arguments e in
  exists r' out, run nmcli arguments (runner e) = (r', out) /\ e' = with_runner r' e /\ o <> Panic /\
    (forall b, o = Ok b -> exists output, out = inr output /\ success output = true).
Proof.
  unfold run_checked. destruct (run nmcli arguments (runner e)) as [r' [x|output]] eqn:E.
  - by exists r', (inl x).
  - exists r', (inr output). split_and!; [done|done|by destruct (success output)|].
    intros b Hb. exists output. by destruct (success output).
Qed.

Lemma modify_spec u m e : m_holds (modify nmcli u m) e (fun e' o =>
  disk e' = disk e /\ (forall j, active (runner e') j = active (runner e) j) /\
  (forall u' p, u' <> u \/ m !! p = None -> profile (runner e') u' p = profile (runner e) u' p) /\
  (o = Ok tt -> forall p v, m !! p = Some v -> printed p v -> profile (runner e') u p = v)).
Proof.
  unfold modify, m_holds, m_bind. pose proof (run_spec (modify_arguments u m) e) as Hs.
  destruct (run_checked nmcli (modify_arguments u m) e) as [e' o]. destruct Hs as (r'&out&Hr&->&Hp&Hok).
  destruct (modify_law _ _ _ _ _ Hr) as (Hf&Ha&Hv).
  destruct o as [b|x|]; [|split_and!; done|done]. split_and!; [done..|].
  intros _ p v Hm Hc. destruct (Hok b eq_refl) as (output&->&Hs). by apply (Hv output).
Qed.

Lemma activate_spec u i e : m_holds (activate nmcli u i) e (fun e' o =>
  disk e' = disk e /\ (forall u p, profile (runner e') u p = profile (runner e) u p) /\
  (forall j, j <> i -> active (runner e) j <> u -> active (runner e') j = active (runner e) j) /\
  (o = Ok tt -> active (runner e') i = u)).
Proof.
  unfold activate, m_holds, m_bind. pose proof (run_spec (up_arguments u i) e) as Hs.
  destruct (run_checked nmcli (up_arguments u i) e) as [e' o]. destruct Hs as (r'&out&Hr&->&Hp&Hok).
  destruct (up_law _ _ _ _ _ Hr) as (Hf&Ha&Hv).
  destruct o as [b|x|]; [|split_and!; done|done]. split_and!; [done..|].
  intros _. destruct (Hok b eq_refl) as (output&->&Hs). by apply (Hv output).
Qed.

(** [e'] differs from [e] in the listed properties of one profile and in what the
    interface and the devices of that connection use. *)
Record touches (u : bytes) (i : string) (ps : string -> Prop) e e' : Prop := {
  touches_disk : disk e' = disk e;
  touches_profile : forall u' p, u' <> u \/ ~ ps p -> profile (runner e') u' p = profile (runner e) u' p;
  touches_active : forall j, j <> i -> active (runner e) j <> u -> active (runner e') j = active (runner e) j;
}.

Definition configured u i (m : gmap string bytes) e e' (o : res unit) : Prop :=
  touches u i (fun p => m !! p <> None) e e' /\
  (o = Ok tt -> active (runner e') i = u /\
  forall p v, m !! p = Some v -> printed p v -> profile (runner e') u p = v).

(** [nm_apply] and [nm_restore] end in a modification and an activation. *)
Lemma configure_spec u i m e :
  m_holds (let! _ := modify nmcli u m in activate nmcli u i) e (configured u i m e).
Proof.
  eapply m_holds_bind; [apply modify_spec| |].
  - intros e' x (Hd&Ha&Hf&_). split; [|done]. split; [done| |intros; apply Ha].
    intros u' p [?|Hn]; apply Hf; [by left|right; by apply dec_stable].
  - intros e1 [] (Hd&Ha&Hf&Hv). eapply m_holds_weaken; [apply activate_spec|].
    intros e2 o (Hd2&Hf2&Ha2&Hv2). split; [split|].
    + by rewrite Hd2.
    + intros u' p Hn. rewrite Hf2. apply Hf. destruct Hn as [?|Hn]; [by left|right; by apply dec_stable].
    + intros j Hj Hu. rewrite Ha2 by (rewrite ?Ha; done). by rewrite Ha.
    + intros Ho. split; [by apply Hv2|]. intros p v Hm Hc. rewrite Hf2. by apply Hv.
Qed.

(** Only properties that a snapshot records are ever set. *)
Lemma build_recorded d p : build_network_manager_properties d !! p <> None -> p ∈ PROFILE_PROPERTIES.
Proof.
  intros Hp. apply dec_stable. intros Hn. apply Hp. unfold PROFILE_PROPERTIES in Hn.
  rewrite !not_elem_of_cons in Hn. unfold build_network_manager_properties.
  destruct (ipv4 d), (ipv6 d), (mtu d); rewrite ?lookup_insert_ne by naive_solver; done.
Qed.

Lemma apply_spec i d e : m_holds (nm_apply nmcli i d) e (fun e' o =>
  touches (active (runner e) i) i (fun p => p ∈ PROFILE_PROPERTIES) e e' /\
  (o = Ok tt -> validate_desired d = Ok tt /\ active (runner e') i = active (runner e) i)).
Proof.
  assert (forall e1 (x : res unit), shows e e1 -> x <> Ok tt ->
    touches (active (runner e) i) i (fun p => p ∈ PROFILE_PROPERTIES) e e1 /\
  (x = Ok tt -> validate_desired d = Ok tt /\ active (runner e1) i = active (runner e) i)) as Hearly.
  { intros e1 x [Hp Ha Hd] Hx. split; [|done]. split; [done|intros; apply Hp|intros; apply Ha]. }
  unfold nm_apply.
  destruct (validate_desired d) as [[]|m|] eqn:Hv.
  3: { by destruct (validate_desired_total d). }
  2: { split; [done|]. by apply Hearly; [apply shows_refl|]. }
  eapply m_holds_step; [reflexivity|].
  eapply m_holds_bind; [apply ethernet_reader|intros e' x [Hs _]; by apply Hearly|]. intros e1 _ [Hs1 _].
  eapply m_holds_bind; [apply uuid_reader|intros e' x [Hs _]; apply Hearly; [by eapply shows_trans|done]|].
  intros e2 u [Hs2 Hu]. rewrite (Hu u eq_refl), (shows_active _ _ Hs1).
  eapply m_holds_weaken; [apply configure_spec|]. intros e3 o [[Hd Hp Ha] Ho].
  assert (shows e e2) as [P A D] by (by eapply shows_trans).
  split.
  - split; [by rewrite Hd|intros u' p Hn|intros j Hj Hu']; rewrite <- ?P, <- ?A.
    + apply Hp. destruct Hn as [?|Hn]; [by left|right]. intros Hb. by apply Hn, (build_recorded d).
    + apply Ha; [done|]. by rewrite A.
  - intros Hok. split; [done|]. by apply Ho.
Qed.

(** ** Snapshots on disk. *)

Lemma snapshot_path_slashless sid path : snapshot_path directory sid = Ok path -> slashless sid.
Proof.
  unfold snapshot_path. destruct (_ || _) eqn:Hc; [done|]. intros _.
  apply orb_false_iff in Hc as [_ Hh%negb_false_iff]. intros Hin.
  rewrite forallb_forall in Hh. specialize (Hh 47). cut (is_ascii_hexdigit 47 = true); [done|].
  apply Hh. apply list_elem_of_In. unfold as_bytes. apply list_elem_of_fmap. by exists "/"%char.
Qed.

(** The snapshot [s] is stored under the ID. *)
Definition stored e sid (s : NetworkManagerSnapshot) : Prop := exists path b,
  snapshot_path directory sid = Ok path /\ snapshot_to_vec s = inr b /\ files (disk e) !! path = Some b.

Lemma write_snapshot_spec s e : m_holds (write_snapshot directory s) e (fun e' o =>
  runner e' = runner e /\ forall sid, o = Ok sid -> stored e' sid s).
Proof.
  unfold write_snapshot.
  eapply (m_holds_bind _ _ _ (fun e' _ => runner e' = runner e)); [|by intros e' x Hr|].
  { unfold m_holds, draw_entropy. split; [by destruct (default _ _)|done]. }
  intros e1 random Hr1. eapply m_holds_step; [reflexivity|].
  set (sid := hex _). set (e2 := Build_Executor _ _ _ _).
  destruct (snapshot_path directory sid) as [path|x|] eqn:Hpath.
  3: { exfalso. revert Hpath. unfold snapshot_path. by destruct (_ || _). }
  2: { by split. }
  eapply m_holds_step; [reflexivity|].
  destruct (snapshot_to_vec s) as [m|b] eqn:Hb; [by split|]. eapply m_holds_step; [reflexivity|].
  assert (path = path_join directory (sid +:+ ".json")) as Hjoin.
  { revert Hpath. unfold snapshot_path. destruct (_ || _); [done|]. by intros [= <-]. }
  assert (with_extension "tmp" path <> path) as Hne.
  { rewrite Hjoin. by eapply json_temporary, snapshot_path_slashless. }
  pose proof (write_new_spec _ path b (disk e2) Hne) as Hw. unfold m_holds, m_bind, on_disk.
  destruct (write_new _ path b (disk e2)) as [w o]. destruct Hw as (Hp&_&Hc&_).
  destruct o as [[]|x|]; [|by split_and!|done]. split_and!; [done|by simpl|].
  intros sid' [= <-]. exists path, b. split_and!; [done|done|]. by destruct Hc as [[_ Hn]|Hc].
Qed.

Lemma snapshot_spec i e : m_holds (nm_snapshot nmcli directory i) e (fun e' o =>
  (forall u p, profile (runner e') u p = profile (runner e) u p) /\
  (forall j, active (runner e') j = active (runner e) j) /\
  forall sid v, o = Ok (sid, v) -> exists s, snapshot_of e i s /\ stored e' sid s /\ snapshot_to_value s = inr v).
Proof.
  unfold nm_snapshot. eapply m_holds_bind; [apply snapshot_reader|by intros e' x [[] _]|].
  intros e1 s [[P1 A1 D1] Hs]. specialize (Hs s eq_refl).
  eapply m_holds_bind; [apply write_snapshot_spec| |].
  { intros e' x [Hr _]. split_and!; [intros; by rewrite Hr|intros; by rewrite Hr|done]. }
  intros e2 sid [Hr Hst]. specialize (Hst sid eq_refl).
  destruct (snapshot_to_value s) as [m|v] eqn:Hv; unfold m_holds, m_bind; simpl.
  - split; [done|]. split_and!; [intros; by rewrite Hr|intros; by rewrite Hr|done].
  - split; [done|]. split_and!; [intros; by rewrite Hr|intros; by rewrite Hr|].
    intros sid' v' [= <- <-]. by exists s.
Qed.

(** A restore of a stored snapshot configures its connection and interface. *)
Lemma nm_restore_spec sid s e : stored e sid s -> version s = SNAPSHOT_VERSION ->
  m_holds (nm_restore nmcli directory sid) e (fun e' o =>
    runner e' = runner e /\ o <> Ok tt \/
    exists e1, runner e1 = runner e /\ configured (connection_uuid s) (interface_id s) (properties s) e1 e' o).
Proof.
  intros (path&b&Hpath&Hb&Hf) Hv. unfold nm_restore. rewrite Hpath. eapply m_holds_step; [reflexivity|].
  eapply (m_holds_bind _ _ _ (fun e' o => runner e' = runner e /\ forall b', o = Ok b' -> b' = b)).
  { unfold m_holds, on_disk, file_read, next_fault. destruct e as [r [f [|[k|] q]] en ns]; simpl in *;
      rewrite ?Hf; simpl; split_and!; try done; by intros b' [= ->]. }
  { intros e' x [Hr _]. by left. }
  intros e1 b' [Hr Heq]. rewrite (Heq b' eq_refl), (snapshot_round_trip _ _ Hb).
  eapply m_holds_step; [reflexivity|]. rewrite Hv. cbn [negb Z.eqb SNAPSHOT_VERSION Pos.eqb].
  eapply m_holds_weaken; [apply configure_spec|]. intros e2 o Hc. right. by exists e1.
Qed.

(** The operations never panic. *)
Lemma nm_total {A} (m : method (Executor R) A) e Q : m_holds m e Q -> (as_call m e).2 = match (m e).2 with
  | Ok a => inr a | Err x => inl x | Panic => (as_call m e).2 end.
Proof. intros [Hp _]. unfold as_call. by destruct (m e) as [e' [a|x|]]. Qed.

Lemma verify_spec i d e : reader (nm_verify nmcli i d) e (fun _ => forall p v,
  build_network_manager_properties d !! p = Some v ->
  normalize_property (profile (runner e) (active (runner e) i) p) = normalize_property v).
Proof.
  eapply reader_bind; [apply uuid_reader|]. intros e1 u Hs ->.
  eapply m_holds_weaken; [apply verify_reader|]. intros e2 o [Hs2 Ho]. split; [done|].
  intros a Hok p v Hp. specialize (Ho a Hok). rewrite Forall_forall in Ho.
  rewrite <- (shows_profile _ _ Hs). apply (Ho (p, v)). by apply btree_iter_elem.
Qed.
End Laws.

Section Theorems.
Context {R V : Type} `{CommandRunner R} `{SnapshotCodec V} `{!SnapshotLaws V}.
Context (nmcli directory : string) `{!NmcliLaw R nmcli}.
Implicit Types (e : Executor R).

(** C23: A change is undone exactly: after a snapshot of an interface, any attempt to apply
    a state to it, failed halfway or not, and any verification, a successful restore
    of that snapshot gives every property of every connection and the active connection
    of the interface the value it had, and changes no device that uses another
    connection. *)
Theorem nm_change_undone i d sid v e e1 e2 e3 e4 o o'
    (Hsnap : nm_snapshot nmcli directory i e = (e1, Ok (sid, v)))
    (Happly : nm_apply nmcli i d e1 = (e2, o)) (Hverify : nm_verify nmcli i d e2 = (e3, o'))
    (Hrestore : nm_restore nmcli directory sid e3 = (e4, Ok tt)) :
  (forall u p, profile (runner e4) u p = profile (runner e) u p) /\
  active (runner e4) i = active (runner e) i /\
  (forall j, j <> i -> active (runner e) j <> active (runner e) i -> active (runner e4) j = active (runner e) j).
Proof.
  destruct (snapshot_spec nmcli directory i e) as [_ (P1&A1&Hs)]. rewrite Hsnap in P1, A1, Hs.
  destruct (Hs sid v eq_refl) as (s&(Hv&Hi&Hu&Hprops)&(path&b&Hpath&Hb&Hf)&_). simpl in *.
  destruct (apply_spec nmcli i d e1) as [_ [[D2 P2 A2] _]]. rewrite Happly in D2, P2, A2. simpl in *.
  destruct (verify_spec nmcli i d e2) as [_ [[P3 A3 D3] _]]. rewrite Hverify in P3, A3, D3. simpl in *.
  assert (stored directory e3 sid s) as Hst.
  { exists path, b. split_and!; [done|done|]. by rewrite D3, D2. }
  destruct (nm_restore_spec nmcli directory sid s e3 Hst Hv) as [_ Hr]. rewrite Hrestore in Hr. simpl in Hr.
  destruct Hr as [[_ Hn]|(e0&He0&[D4 P4 A4]&Ho)]; [done|]. destruct (Ho eq_refl) as [Hact Hval].
  rewrite He0 in *. rewrite Hi, Hu in *. split_and!.
  - intros u p. destruct (decide (u = active (runner e) i /\ p ∈ PROFILE_PROPERTIES)) as [[-> Hp]|Hn].
    + apply Hval; [|apply profile_printed]. rewrite Hprops. by rewrite bool_decide_true.
    + rewrite P4, P3, P2, P1; [done| |].
      * rewrite A1. destruct (decide (u = active (runner e) i)); [right|by left]. naive_solver.
      * destruct (decide (u = active (runner e) i)); [right|by left]. rewrite Hprops.
        rewrite bool_decide_false by naive_solver. naive_solver.
  - done.
  - intros j Hj Hu'. rewrite A4, A3, A2, A1; rewrite ?A1; try done. rewrite A3, A2, A1; rewrite ?A1; done.
Qed.

(** An apply that reports success was of a valid state, and if its verification
    succeeds too, the active connection has the requested properties up to blanks around
    commas. It is still active, and no other connection, and no property that a
    snapshot does not record, has changed. *)
Theorem nm_verified i d e e1 e2 (Happly : nm_apply nmcli i d e = (e1, Ok tt))
    (Hverify : nm_verify nmcli i d e1 = (e2, Ok tt)) :
  validate_desired d = Ok tt /\ active (runner e2) i = active (runner e) i /\
  (forall p v, build_network_manager_properties d !! p = Some v ->
    normalize_property (profile (runner e2) (active (runner e) i) p) = normalize_property v) /\
  forall u p, u <> active (runner e) i \/ p ∉ PROFILE_PROPERTIES ->
    profile (runner e2) u p = profile (runner e) u p.
Proof.
  destruct (apply_spec nmcli i d e) as [_ [[D1 P1 A1] Ho]]. rewrite Happly in D1, P1, A1, Ho. simpl in *.
  destruct (Ho eq_refl) as [Hv Ha].
  destruct (verify_spec nmcli i d e1) as [_ [[P2 A2 D2] Hq]]. rewrite Hverify in P2, A2, D2, Hq. simpl in *.
  split_and!; [done|by rewrite A2| |].
  - intros p v Hp. rewrite P2, <- Ha. by apply (Hq tt eq_refl).
  - intros u p Hn. rewrite P2. by apply P1.
Qed.
End Theorems.

(** ** A fake [nmcli]. *)

Module FakeNmcli.

(** The values of the properties, and the active connections; only values without
    outer blanks are shown. *)
Record fake := { values : gmap (bytes * bytes) bytes; connections : gmap bytes bytes }.

Definition shown (v : option bytes) : bytes :=
  match v with Some v => if bool_decide (trim v = v) then v else [] | None => [] end.
Lemma trim_shown v : trim (shown v) = shown v.
Proof. destruct v as [v|]; [|done]. simpl. by case_bool_decide. Qed.

Fixpoint set_pairs (uuid : bytes) (arguments : list bytes) (m : gmap (bytes * bytes) bytes) :=
  match arguments with
  | p :: v :: rest => set_pairs uuid rest (<[(uuid, p) := v]> m)
  | _ => m
  end.

Definition output (b : bytes) : NetToolError + CommandOutput := inr {| success := true; stdout := b; stderr := [] |}.

#[export] Instance fake_runner : CommandRunner fake := {|
  run _ arguments r :=
    match arguments with
    | first :: a :: _ :: uuid :: rest =>
        if bool_decide (first = as_bytes "connection")
        then ({| values := set_pairs uuid rest (values r); connections := connections r |}, output [])
        else match rest with
             | [i] => (r, output (if bool_decide (a = as_bytes "GENERAL.TYPE") then as_bytes "ethernet"
                                  else shown (connections r !! i)))
             | [_; uuid] => (r, output (shown (values r !! (uuid, a))))
             | [_; uuid; _; i] => ({| values := values r; connections := <[i := uuid]> (connections r) |},
                                   if bool_decide (trim uuid = uuid) then output []
                                   else inl (new_error HelperExecutionFailed "no connection" false))
             | _ => (r, output [])
             end
    | _ => (r, output [])
    end;
|}.

Lemma set_pairs_other u l : forall m k, (forall p v, (p, v) ∈ l -> (u, as_bytes p) <> k) ->
  set_pairs u (flat_map (fun '(p, v) => [as_bytes p; v]) l) m !! k = m !! k.
Proof.
  induction l as [|[p v] l IH]; intros m k Hk; [done|]. simpl. rewrite IH.
  - rewrite lookup_insert_ne; [done|]. apply (Hk p v). by left.
  - intros q w Hin. apply (Hk q w). by right.
Qed.

Lemma set_pairs_set u l : forall m p v, NoDup l.*1 -> (p, v) ∈ l ->
  set_pairs u (flat_map (fun '(p, v) => [as_bytes p; v]) l) m !! (u, as_bytes p) = Some v.
Proof.
  induction l as [|[q w] l IH]; intros m p v Hnd Hin; [by apply elem_of_nil in Hin|].
  simpl in *. apply NoDup_cons in Hnd as [Hq Hnd]. apply elem_of_cons in Hin as [[= -> ->]|Hin]; [|by apply IH].
  rewrite set_pairs_other; [by rewrite lookup_insert_eq|].
  intros p v Hin [= Heq%as_bytes_inj]. apply Hq. rewrite <- Heq. apply list_elem_of_fmap. by exists (p, v).
Qed.

#[export] Instance fake_law nmcli : NmcliLaw fake nmcli.
Proof.
  refine {| profile r u p := shown (values r !! (u, as_bytes p));
            active r i := shown (connections r !! as_bytes i);
            printed p v := trim v = v |}.
  - intros r u p. apply trim_shown.
  - intros field i r r' o [= <- <-]. split_and!; [done|done|]. intros -> out [= <-] _. apply trim_shown.
  - intros u p r r' o [= <- <-]. split_and!; [done|done|]. intros out [= <-] _. apply trim_shown.
  - intros u m r r' o Hr. unfold modify_arguments, run, fake_runner in Hr. simpl in Hr.
    injection Hr as <- <-. simpl. split_and!; [|done|].
    + intros u' p Hn. rewrite set_pairs_other; [done|]. intros q w Hin%btree_iter_elem [= <- Hq%as_bytes_inj].
      subst. destruct Hn as [?|Hn]; [done|congruence].
    + intros out p v _ _ Hm Hv. rewrite (set_pairs_set _ _ _ p v); [|apply btree_iter_keys|by apply btree_iter_elem].
      simpl. by rewrite bool_decide_true.
  - intros u i r r' o Hr. simpl in Hr. injection Hr as <- <-. simpl. split_and!; [done| |].
    + intros j Hj _. rewrite lookup_insert_ne; [done|]. intros Hij%as_bytes_inj. by subst.
    + intros out Ho _. rewrite lookup_insert_eq. simpl. by case_bool_decide.
Defined.

#[export] Instance snapshot_eq_dec : EqDecision NetworkManagerSnapshot.
Proof. solve_decision. Defined.
#[export] Instance snapshot_countable : Countable NetworkManagerSnapshot.
Proof.
  refine (inj_countable' (fun s => (version s, interface_id s, connection_uuid s, properties s))
    (fun '(v, i, u, m) => {| version := v; interface_id := i; connection_uuid := u; properties := m |}) _).
  by intros [].
Defined.

#[export] Instance fake_codec : SnapshotCodec (gmap string bytes) := {|
  snapshot_to_vec s := inr (number s); snapshot_from_slice := denumber;
  snapshot_to_value s := inr (properties s); sha256 b := take 32 (b ++ replicate 32 0);
|}.
#[export] Instance fake_codec_laws : SnapshotLaws (gmap string bytes).
Proof. split. intros s b [= <-]. apply denumber_number. Qed.

Definition desired : NetworkDesiredState :=
  {| ipv4 := StaticV4 [{| prefix_address := V4 3221225994; prefix_length := 24 |}]; ipv6 := Automatic;
     dns := {| dns_automatic := false; servers := [V4 3221225985; V6 1]; search_domains := ["lab.example"%string] |};
     routes := [{| route_destination := {| prefix_address := V4 3325256704; prefix_length := 24 |};
                   gateway := None; metric := Some 10 |}]; mtu := Some 9000 |}.

(** The properties of a state, as the code's own test expects them. *)
Example properties_of_desired :
  let m := build_network_manager_properties desired in
  m !! "ipv4.addresses"%string = Some (as_bytes "192.0.2.10/24") /\
  m !! "ipv4.routes"%string = Some (as_bytes "198.51.100.0/24 0.0.0.0 10") /\
  m !! "ipv4.dns"%string = Some (as_bytes "192.0.2.1") /\ m !! "ipv6.dns"%string = Some (as_bytes "::1") /\
  (btree_iter m).*1 = ["802-3-ethernet.mtu"; "ipv4.addresses"; "ipv4.dns"; "ipv4.dns-search"; "ipv4.ignore-auto-dns";
    "ipv4.method"; "ipv4.routes"; "ipv6.addresses"; "ipv6.dns"; "ipv6.dns-search"; "ipv6.ignore-auto-dns";
    "ipv6.method"; "ipv6.routes"]%string.
Proof. by vm_compute. Qed.

Definition executor : Executor fake :=
  {| runner := {| values := {[(as_bytes "u-1", as_bytes "ipv4.method") := as_bytes "auto"]};
                  connections := {[as_bytes "eth0" := as_bytes "u-1"]} |};
     disk := {| files := ∅; faults := [] |}; entropy := [inr (replicate 32 7)]; nanos := [5] |}.

Abbreviation snap := (nm_snapshot (V := gmap string bytes) "/usr/bin/nmcli" "/s" "eth0").
Abbreviation undo sid := (nm_restore (V := gmap string bytes) "/usr/bin/nmcli" "/s" sid).

Abbreviation method_of e := (profile (nmcli := "/usr/bin/nmcli") (runner e) (as_bytes "u-1") "ipv4.method").

Definition snapped : Executor fake := (snap executor).1.
Definition changed : Executor fake := (nm_apply "/usr/bin/nmcli" "eth0" desired snapped).1.
Definition checked_change : Executor fake := (nm_verify "/usr/bin/nmcli" "eth0" desired changed).1.
Definition sid : string := hex (replicate 32 7).
Definition undone : Executor fake := (undo sid checked_change).1.

Lemma method_shown e : method_of e = shown (values (runner e) !! (as_bytes "u-1", as_bytes "ipv4.method")).
Proof. reflexivity. Qed.

Lemma pair_of {A B} (x : A * B) a b : x.1 = a -> x.2 = b -> x = (a, b).
Proof. destruct x. simpl. congruence. Qed.

Lemma nm_change_undone_witness : method_of changed = as_bytes "manual" /\ method_of undone = as_bytes "auto".
Proof.
  rewrite method_shown. split; [by vm_compute|].
  assert (exists v, snap executor = (snapped, Ok (sid, v))) as [v Hsnap].
  { eexists. apply pair_of; [reflexivity|]. vm_compute. reflexivity. }
  destruct (nm_change_undone "/usr/bin/nmcli" "/s" "eth0" desired sid v executor snapped changed checked_change
    undone (nm_apply "/usr/bin/nmcli" "eth0" desired snapped).2
    (nm_verify "/usr/bin/nmcli" "eth0" desired changed).2 Hsnap) as (Hp&_&_);
    [by apply surjective_pairing|by apply surjective_pairing|apply pair_of; [reflexivity|by vm_compute]|].
  rewrite Hp, method_shown. by vm_compute.
Defined.

Lemma nm_verified_witness :
  normalize_property (profile (nmcli := "/usr/bin/nmcli") (runner checked_change) (as_bytes "u-1") "ipv4.addresses") =
  as_bytes "192.0.2.10/24".
Proof.
  destruct (nm_verified "/usr/bin/nmcli" "eth0" desired snapped changed checked_change) as (_&_&Hv&_);
    [apply pair_of; [reflexivity|by vm_compute]|apply pair_of; [reflexivity|by vm_compute]|].
  specialize (Hv "ipv4.addresses"%string (as_bytes "192.0.2.10/24") ltac:(by vm_compute)).
  etrans; [exact Hv|by vm_compute].
Defined.
End FakeNmcli.
