(* ===== verification/PlatformCommands.v ===== *)
(** * Platform commands

    Model of the command boundary of [crates/helper-core/src/platform_network.rs] and
    of the state query of [platform_network_windows.rs]: the programs that the macOS
    and Windows executors may run, and the validation of their arguments. *)

From stdpp Require Import base list strings.
From Stdlib Require Import ZArith Lia Ascii.
From S2P Require Import Prelude ErrorModel Text UdpProtocol HelperProtocol NetworkManager.
Open Scope Z_scope.

Record PlatformCommand := { program : string; arguments : list bytes }.

Inductive PlatformBackend := Macos | Windows.
#[export] Instance PlatformBackend_eq_dec : EqDecision PlatformBackend.
Proof. solve_decision. Defined.

Definition NETWORKSETUP : string := "/usr/sbin/networksetup".
Definition NETSH_EXE : string := "C:\Windows\System32\netsh.exe".
Definition POWERSHELL_EXE : string := "C:\Windows\System32\WindowsPowerShell\v1.0\powershell.exe".

Definition invalid {A} (m : string) : res A := err InvalidArgument m.
Definition platform_reader_error {A} (m : string) : res A := Err (new_error HelperExecutionFailed m true).

(** [validate_interface]: the length in bytes, and no NUL or newline. *)
Definition validate_interface (interface_id : bytes) : res unit :=
  if bool_decide (interface_id = []) || (256 <? len interface_id)
     || existsb (fun c => (c =? 0) || (c =? 10) || (c =? 13)) interface_id
  then invalid "interface ID contains unsupported characters"
  else Ok tt.

Definition WINDOWS_STATE_QUERY : string := "& {
param([Parameter(Mandatory=$true)][string]$InterfaceId)
$ErrorActionPreference = 'Stop'
Set-StrictMode -Version Latest
[Console]::OutputEncoding = [System.Text.UTF8Encoding]::new($false)
$adapter = @(Get-NetAdapter -Name $InterfaceId -ErrorAction Stop)
if ($adapter.Count -ne 1) { throw 'interface lookup did not return exactly one adapter' }
$index = $adapter[0].ifIndex
$v4Interface = @(Get-NetIPInterface -InterfaceIndex $index -AddressFamily IPv4 -ErrorAction Stop)
$v6Interface = @(Get-NetIPInterface -InterfaceIndex $index -AddressFamily IPv6 -ErrorAction Stop)
if ($v4Interface.Count -ne 1 -or $v6Interface.Count -ne 1) { throw 'IP interface lookup did not return exactly one entry per family' }
$v4 = @(Get-NetIPAddress -InterfaceIndex $index -AddressFamily IPv4 -ErrorAction Stop |
    Where-Object { $_.AddressState -eq 'Preferred' }) |
    ForEach-Object { @{ address=$_.IPAddress; prefix_length=[int]$_.PrefixLength } }
$v6 = @(Get-NetIPAddress -InterfaceIndex $index -AddressFamily IPv6 -ErrorAction Stop |
    Where-Object { $_.AddressState -eq 'Preferred' -and $_.PrefixOrigin -eq 'Manual' }) |
    ForEach-Object { @{ address=$_.IPAddress; prefix_length=[int]$_.PrefixLength } }
$routes = @(Get-NetRoute -InterfaceIndex $index -ErrorAction Stop |
    Where-Object { $_.RouteMetric -ge 0 -and $_.NextHop -notin @('0.0.0.0','::') })
$gateways = @($routes | Where-Object { $_.DestinationPrefix -in @('0.0.0.0/0','::/0') } |
    ForEach-Object { $_.NextHop })
$dns = @(Get-DnsClientServerAddress -InterfaceIndex $index -ErrorAction Stop |
    ForEach-Object { $_.ServerAddresses } | Where-Object { $_ })
$ipv6State = if ($v6.Count -gt 0) {
    'static'
} elseif ($v6Interface[0].RouterDiscovery -eq 'Disabled' -and $v6Interface[0].Dhcp -eq 'Disabled') {
    'disabled'
} else {
    'automatic'
}
@{ schema_version=1; interface_count=$adapter.Count; interface_id=$adapter[0].Name;
   ipv4=@{ dhcp=($v4Interface[0].Dhcp -eq 'Enabled'); addresses=@($v4) };
   ipv6=@{ state=$ipv6State; addresses=@($v6) };
   dns=@{ servers=@($dns) }; mtu=[int]$v4Interface[0].NlMtu;
   default_gateways=@($gateways); route_count=$routes.Count } | ConvertTo-Json -Compress -Depth 6
}".

Definition QUERY_PREFIX : list bytes :=
  map as_bytes ["-NoLogo"; "-NoProfile"; "-NonInteractive"; "-ExecutionPolicy"; "Bypass"; "-Command"].

Definition validate_state_query_command (c : PlatformCommand) : res unit :=
  let tampered := invalid "PowerShell state query arguments are not allowlisted" in
  if negb (len (arguments c) =? len QUERY_PREFIX + 3) then tampered
  else
    let? prefix := slice (arguments c) 0 (len QUERY_PREFIX) in
    let? query := index (arguments c) (len QUERY_PREFIX) in
    let? separator := index (arguments c) (len QUERY_PREFIX + 1) in
    if negb (bool_decide (prefix = QUERY_PREFIX)) || negb (bool_decide (query = as_bytes WINDOWS_STATE_QUERY))
       || negb (bool_decide (separator = as_bytes "--"))
    then tampered
    else
      let? interface_id := index (arguments c) (len QUERY_PREFIX + 2) in
      validate_interface interface_id.

(** NUL, newlines and the control characters of shells. *)
Definition forbidden (c : Z) : bool :=
  bool_decide (c ∈ [0; 10; 13; 59; 124; 38; 96; 36]).

Definition validate_platform_command (c : PlatformCommand) : res unit :=
  if negb (bool_decide (program c = NETWORKSETUP)) && negb (bool_decide (program c = NETSH_EXE))
     && negb (bool_decide (program c = POWERSHELL_EXE))
  then invalid "platform command executable is not allowlisted"
  else if bool_decide (program c = POWERSHELL_EXE) then validate_state_query_command c
  else if bool_decide (arguments c = []) || (32 <? len (arguments c))
  then invalid "platform command argument count is invalid"
  else if existsb (fun a => bool_decide (a = []) || existsb forbidden a) (arguments c)
  then invalid "platform command argument contains forbidden syntax"
  else Ok tt.

Fixpoint validate_each (cs : list PlatformCommand) : res unit :=
  match cs with
  | [] => Ok tt
  | c :: cs => let? _ := validate_platform_command c in validate_each cs
  end.

Definition validate_commands (cs : list PlatformCommand) : res unit :=
  match cs with
  | [] => invalid "platform command sequence is empty"
  | _ => validate_each cs
  end.

Definition ipv4_netmask (prefix : Z) : res bytes :=
  if 32 <? prefix then invalid "IPv4 prefix is out of range"
  else
    let mask := if prefix =? 0 then 0 else wrap 32 (Z.shiftl (umax 32) (32 - prefix)) in
    Ok (as_bytes (ipv4_to_string mask)).

Section Runner.
Context {R : Type} `{CommandRunner R}.

Abbreviation op A := (method R A).

(** The call of the runner. *)
Definition call (c : PlatformCommand) : op CommandOutput := fun r =>
  let '(r, o) := run (program c) (arguments c) r in
  (r, match o with inr output => Ok output | inl e => Err e end).

Definition run_validated_platform_command (c : PlatformCommand) : op CommandOutput :=
  let! _ := m_ret (validate_platform_command c) in call c.

Fixpoint execute_each (cs : list PlatformCommand) : op unit :=
  match cs with
  | [] => m_ret (Ok tt)
  | c :: cs =>
      let! output := run_validated_platform_command c in
      if negb (success output)
      then m_ret (Err (new_error HelperExecutionFailed "platform network command failed" true))
      else execute_each cs
  end.

Definition execute_platform_commands (cs : list PlatformCommand) : op unit :=
  let! _ := m_ret (validate_commands cs) in execute_each cs.
End Runner.

(** ** What may run. *)

(** An allowlisted program; the query of PowerShell is the fixed script on one
    interface, every other argument is free of shell syntax. *)
Inductive confined : PlatformCommand -> Prop :=
  | confined_tool p args : p = NETWORKSETUP \/ p = NETSH_EXE -> args <> [] -> len args <= 32 ->
      Forall (fun a => a <> [] /\ Forall (fun c => forbidden c = false) a) args ->
      confined {| program := p; arguments := args |}
  | confined_query i : i <> [] -> len i <= 256 -> Forall (fun c => c <> 0 /\ c <> 10 /\ c <> 13) i ->
      confined {| program := POWERSHELL_EXE;
                  arguments := QUERY_PREFIX ++ [as_bytes WINDOWS_STATE_QUERY; as_bytes "--"; i] |}.

Lemma existsb_Forall {A} (f : A -> bool) l : existsb f l = false <-> Forall (fun x => f x = false) l.
Proof.
  induction l as [|x l IH]; simpl; [by split; [constructor|]|]. rewrite orb_false_iff, IH, Forall_cons. done.
Qed.

Lemma interface_exact i : validate_interface i = Ok tt <->
  i <> [] /\ len i <= 256 /\ Forall (fun c => c <> 0 /\ c <> 10 /\ c <> 13) i.
Proof.
  unfold validate_interface. destruct (_ || _) eqn:Hc.
  - split; [done|]. intros (H1&H2&H3). exfalso. rewrite (bool_decide_false _ H1) in Hc. simpl in Hc.
    rewrite (proj2 (Z.ltb_ge _ _) H2) in Hc. simpl in Hc. apply not_false_iff_true in Hc. apply Hc.
    apply existsb_Forall. eapply Forall_impl; [exact H3|]. simpl. lia.
  - apply orb_false_iff in Hc as [[H1 H2]%orb_false_iff H3]. apply bool_decide_eq_false in H1.
    apply Z.ltb_ge in H2. apply existsb_Forall in H3. split; [|done]. intros _. split_and!; [done..|].
    eapply Forall_impl; [exact H3|]. simpl. lia.
Qed.

Lemma state_query_total c : validate_state_query_command c <> Panic.
Proof.
  unfold validate_state_query_command. destruct (len (arguments c) =? len QUERY_PREFIX + 3) eqn:Hl; [|done].
  apply Z.eqb_eq in Hl. change (len QUERY_PREFIX) with 6 in *. unfold len in Hl.
  destruct (arguments c) as [|a0 [|a1 [|a2 [|a3 [|a4 [|a5 [|a6 [|a7 [|a8 [|]]]]]]]]]] eqn:E; simpl in Hl; try lia.
  simpl. destruct (_ || _); [done|]. unfold validate_interface. by destruct (_ || _).
Qed.

(** The checks on nine arguments. *)
Lemma query_arguments a0 a1 a2 a3 a4 a5 a6 a7 a8 :
  let args := [a0; a1; a2; a3; a4; a5; a6; a7; a8] in
  validate_state_query_command {| program := POWERSHELL_EXE; arguments := args |} =
    if negb (bool_decide ([a0; a1; a2; a3; a4; a5] = QUERY_PREFIX))
       || negb (bool_decide (a6 = as_bytes WINDOWS_STATE_QUERY)) || negb (bool_decide (a7 = as_bytes "--"))
    then invalid "PowerShell state query arguments are not allowlisted" else validate_interface a8.
Proof. unfold validate_state_query_command. cbn [arguments]. change (len QUERY_PREFIX) with 6. reflexivity. Qed.

Lemma query_exact args : validate_state_query_command {| program := POWERSHELL_EXE; arguments := args |} = Ok tt <->
  exists i, args = QUERY_PREFIX ++ [as_bytes WINDOWS_STATE_QUERY; as_bytes "--"; i] /\ validate_interface i = Ok tt.
Proof.
  split.
  - intros Hv. assert (len args = 9) as Hl.
    { revert Hv. unfold validate_state_query_command. cbn [arguments]. change (len QUERY_PREFIX) with 6.
      destruct (len args =? 6 + 3) eqn:Hl; [|done]. intros _. by apply Z.eqb_eq in Hl. }
    unfold len in Hl.
    destruct args as [|a0 [|a1 [|a2 [|a3 [|a4 [|a5 [|a6 [|a7 [|a8 [|]]]]]]]]]]; simpl in Hl; try lia.
    rewrite query_arguments in Hv. destruct (_ || _) eqn:Hc; [done|].
    apply orb_false_iff in Hc as [[H1 H2]%orb_false_iff H3].
    apply negb_false_iff, bool_decide_eq_true in H1, H2, H3. exists a8. rewrite <- H1, <- H2, <- H3. done.
  - intros (i&->&Hi). change (QUERY_PREFIX ++ [as_bytes WINDOWS_STATE_QUERY; as_bytes "--"; i]) with
      [as_bytes "-NoLogo"; as_bytes "-NoProfile"; as_bytes "-NonInteractive"; as_bytes "-ExecutionPolicy";
       as_bytes "Bypass"; as_bytes "-Command"; as_bytes WINDOWS_STATE_QUERY; as_bytes "--"; i].
    rewrite query_arguments. by rewrite !bool_decide_true.
Qed.

(** A command passes exactly when it is confined. *)
Lemma command_exact c : validate_platform_command c = Ok tt <-> confined c.
Proof.
  destruct c as [p args]. unfold validate_platform_command. cbn [program arguments]. split.
  - destruct (_ && _) eqn:Hp; [done|]. destruct (bool_decide_reflect (p = POWERSHELL_EXE)) as [Hps|Hps].
    + subst p. intros (i&->&(H1&H2&H3)%interface_exact)%query_exact. by constructor.
    + destruct (_ || _) eqn:Hc; [done|]. destruct (existsb _ _) eqn:He; [done|]. intros _.
      apply orb_false_iff in Hc as [H1%bool_decide_eq_false H2%Z.ltb_ge]. constructor; [|done|done|].
      * destruct (decide (p = NETWORKSETUP)); [by left|]. destruct (decide (p = NETSH_EXE)); [by right|].
        by rewrite !bool_decide_false in Hp by done.
      * apply existsb_Forall in He. eapply Forall_impl; [exact He|]. intros a [Ha Hf]%orb_false_iff.
        split; [by apply bool_decide_eq_false in Ha|by apply existsb_Forall].
  - intros Hc. inversion Hc as [p' args' Hp Hne Hlen Hall Hq|i H1 H2 H3 Hq]; subst p args; clear Hc.
    + rewrite (bool_decide_false (p' = POWERSHELL_EXE)) by (by destruct Hp as [->| ->]).
      assert (negb (bool_decide (p' = NETWORKSETUP)) && negb (bool_decide (p' = NETSH_EXE)) = false) as ->.
      { destruct Hp as [->| ->]; [by rewrite (bool_decide_true (NETWORKSETUP = _))|].
        rewrite (bool_decide_true (NETSH_EXE = NETSH_EXE)) by done. by rewrite andb_false_r. }
      cbn [andb]. rewrite bool_decide_false by done. rewrite (proj2 (Z.ltb_ge _ _)) by done. cbn [orb].
      rewrite (proj2 (existsb_Forall _ _)); [done|]. eapply Forall_impl; [exact Hall|]. intros a [Ha Hf].
      rewrite bool_decide_false by done. by apply existsb_Forall.
    + change (negb (bool_decide (POWERSHELL_EXE = NETWORKSETUP)) && negb (bool_decide (POWERSHELL_EXE = NETSH_EXE))
        && negb (bool_decide (POWERSHELL_EXE = POWERSHELL_EXE))) with false.
      rewrite (bool_decide_true (POWERSHELL_EXE = POWERSHELL_EXE)) by done. apply query_exact. exists i.
      split; [done|]. by apply interface_exact.
Qed.

Lemma command_total c : validate_platform_command c <> Panic.
Proof.
  unfold validate_platform_command. destruct (_ && _); [done|]. case_bool_decide; [apply state_query_total|].
  destruct (_ || _); [done|]. by destruct (existsb _ _).
Qed.

Lemma commands_exact cs : validate_commands cs = Ok tt <-> cs <> [] /\ Forall confined cs.
Proof.
  assert (forall cs, validate_each cs = Ok tt <-> Forall confined cs) as Heach.
  { clear. intros cs. induction cs as [|c cs IH]; simpl; [by split; [constructor|]|].
    rewrite Forall_cons, <- command_exact, <- IH. destruct (validate_platform_command c) as [[]|e|]; simpl; naive_solver. }
  destruct cs as [|c cs]; [naive_solver|]. unfold validate_commands. rewrite Heach. naive_solver.
Qed.

Lemma commands_total cs : validate_commands cs <> Panic.
Proof.
  assert (forall cs, validate_each cs <> Panic) as Heach.
  { clear. intros cs. induction cs as [|c cs IH]; [done|]. simpl.
    pose proof (command_total c). by destruct (validate_platform_command c) as [[]|e|]. }
  destruct cs as [|c cs]; [done|apply (Heach (c :: cs))].
Qed.

(** ** A runner that keeps a log. *)

Section Logged.
Context {R : Type} `{CommandRunner R}.

#[export] Instance logged : CommandRunner (R * list PlatformCommand) := {|
  run p a x := let '(r, o) := run p a x.1 in ((r, x.2 ++ [{| program := p; arguments := a |}]), o);
|}.

Abbreviation log := (R * list PlatformCommand)%type.

(** [m] runs confined commands only. *)
Definition careful {A} (m : method log A) : Prop := forall x,
  m_holds m x (fun x' o => exists cs, x'.2 = x.2 ++ cs /\ Forall confined cs).

Lemma careful_ret {A} (o : res A) : o <> Panic -> careful (m_ret o).
Proof. intros Ho x. apply m_holds_ret; [done|]. exists []. by rewrite app_nil_r. Qed.

Lemma careful_bind {A B} (m : method log A) (k : A -> method log B) :
  careful m -> (forall a, careful (k a)) -> careful (m_bind m k).
Proof.
  intros Hm Hk x. eapply m_holds_bind; [apply Hm|done|]. intros x' a (cs&Hcs&Hc).
  eapply m_holds_weaken; [apply Hk|]. intros x'' o (cs'&Hcs'&Hc'). exists (cs ++ cs').
  split; [by rewrite Hcs', Hcs, (assoc_L (++))|by apply Forall_app].
Qed.

Lemma careful_run c : careful (run_validated_platform_command c).
Proof.
  intros x. unfold run_validated_platform_command. pose proof (command_total c) as Ht.
  destruct (validate_platform_command c) as [[]|e|] eqn:Hv; [| |done].
  2: { split; [done|]. exists []. by rewrite app_nil_r. }
  eapply m_holds_step; [reflexivity|]. unfold m_holds, call, run, logged.
  destruct (@run R _ (program c) (arguments c) x.1) as [r o]. simpl. split; [by destruct o|].
  exists [c]. split; [by destruct c|]. apply Forall_singleton. by apply command_exact.
Qed.

(** All commands of a sequence are checked before the first one runs. *)
Lemma careful_commands cs : careful (execute_platform_commands cs).
Proof.
  apply careful_bind; [apply careful_ret, commands_total|]. intros _.
  induction cs as [|c cs IH]; simpl; [by apply careful_ret|].
  apply careful_bind; [apply careful_run|]. intros output. destruct (success output); simpl; [done|by apply careful_ret].
Qed.
End Logged.
