(* ===== verification/MacosNetwork.v ===== *)
(** * The macOS adapter

    Model of [crates/helper-core/src/platform_network_macos.rs]: the commands of
    [networksetup] for a desired state, and the state that its output shows.
    [str::parse::<IpAddr>] is the parameter [parse_ip]; texts are UTF-8 bytes. *)

From stdpp Require Import base list strings.
From Stdlib Require Import ZArith Lia Ascii.
From S2P Require Import Prelude ErrorModel Text UdpProtocol HelperProtocol NetworkManager PlatformCommands.
Open Scope Z_scope.

(** [desired.validate()] with the error of the adapters. *)
Definition validated (c : ErrorCode) (s : NetworkDesiredState) : res unit :=
  match validate_desired s with Ok _ => Ok tt | Err m => err c m | Panic => Panic end.

(** A static configuration of one address. *)
Definition one_address (count missing : string) (a : list IpPrefix) : res IpPrefix :=
  if negb (len a =? 1) then invalid count else match a with p :: _ => Ok p | [] => invalid missing end.

Definition networksetup (args : list bytes) : PlatformCommand :=
  {| program := NETWORKSETUP; arguments := args |}.

Definition macos_ipv4 (i : bytes) (c : Ipv4Configuration) : res PlatformCommand :=
  match c with
  | Dhcp => Ok (networksetup [as_bytes "-setdhcp"; i])
  | DisabledV4 => Ok (networksetup [as_bytes "-setmanual"; i; as_bytes "0.0.0.0"; as_bytes "0.0.0.0"; as_bytes "0.0.0.0"])
  | StaticV4 addresses =>
      let? prefix := one_address "macOS networksetup requires exactly one IPv4 address"
                       "macOS static IPv4 requires an address" addresses in
      match prefix_address prefix with
      | V4 address =>
          let? mask := ipv4_netmask (prefix_length prefix) in
          Ok (networksetup [as_bytes "-setmanual"; i; as_bytes (ipv4_to_string address); mask; as_bytes "0.0.0.0"])
      | V6 _ => invalid "macOS IPv4 adapter received a non-IPv4 address"
      end
  end.

Definition macos_ipv6 (i : bytes) (c : Ipv6Configuration) : res PlatformCommand :=
  match c with
  | Automatic => Ok (networksetup [as_bytes "-setv6automatic"; i])
  | DisabledV6 => Ok (networksetup [as_bytes "-setv6off"; i])
  | StaticV6 addresses =>
      let? prefix := one_address "macOS networksetup requires exactly one IPv6 address"
                       "macOS static IPv6 requires an address" addresses in
      match prefix_address prefix with
      | V6 address =>
          Ok (networksetup [as_bytes "-setv6manual"; i; as_bytes (ipv6_to_string address);
                            as_bytes (dec (prefix_length prefix)); as_bytes "::"])
      | V4 _ => invalid "macOS IPv6 adapter received a non-IPv6 address"
      end
  end.

Definition macos_dns (i : bytes) (d : DnsConfiguration) : PlatformCommand :=
  if dns_automatic d then networksetup [as_bytes "-setdnsservers"; i; as_bytes "Empty"]
  else networksetup ([as_bytes "-setdnsservers"; i] ++ map (fun a => as_bytes (ip_to_string a)) (servers d)
                     ++ match servers d with [] => [as_bytes "Empty"] | _ => [] end).

Definition build_macos_networksetup_commands (interface_id : string) (desired : NetworkDesiredState) :
    res (list PlatformCommand) :=
  let i := as_bytes interface_id in
  let? _ := validate_interface i in
  let? _ := validated InvalidArgument desired in
  if negb (bool_decide (routes desired = [])) || negb (bool_decide (search_domains (dns desired) = []))
  then err Unsupported "macOS networksetup adapter does not apply routes or DNS search domains"
  else
    let? v4 := macos_ipv4 i (ipv4 desired) in
    let? v6 := macos_ipv6 i (ipv6 desired) in
    let commands := [v4; v6; macos_dns i (dns desired)] ++
      match mtu desired with
      | Some m => [networksetup [as_bytes "-setMTU"; i; as_bytes (dec m)]]
      | None => []
      end in
    let? _ := validate_commands commands in
    Ok commands.

(** ** Reading. *)

(** [find_map] of the lines with [strip_prefix] and [trim]. *)
Fixpoint find_label (label : bytes) (ls : list bytes) : option bytes :=
  match ls with
  | [] => None
  | l :: ls => if starts_with label l then Some (trim (drop (length label) l)) else find_label label ls
  end.

(** [u32::leading_ones]. *)
Fixpoint leading_ones (n : nat) (x : Z) : Z :=
  match n with
  | O => 0
  | S n => if Z.testbit x (Z.of_nat n) then 1 + leading_ones n x else 0
  end.

Definition prefix_from_netmask (bits : Z) : res Z :=
  let prefix := leading_ones 32 bits in
  if umax 8 <? prefix then platform_reader_error "IPv4 prefix length overflow"
  else if negb (bits =? if prefix =? 0 then 0 else wrap 32 (Z.shiftl (umax 32) (32 - prefix)))
  then platform_reader_error "macOS subnet mask is not contiguous"
  else Ok prefix.

(** [split_whitespace().next()]. *)
Fixpoint word (bs : bytes) : bytes :=
  match bs with
  | [] => []
  | b :: rest => if bool_decide (trim_start bs = bs) then b :: word rest else []
  end.
Definition first_word (bs : bytes) : option bytes :=
  match word (trim_start bs) with [] => None | w => Some w end.

Definition parse_mtu (output : bytes) : res Z :=
  match split (as_bytes "Current Setting:") output !! 1%nat with
  | Some value =>
      match first_word value with
      | Some w => match parse_unsigned 32 (trim_end_matches [41] w) with
                  | Some m => Ok m
                  | None => platform_reader_error "macOS MTU is invalid"
                  end
      | None => platform_reader_error "macOS MTU output is invalid"
      end
  | None => platform_reader_error "macOS MTU output is invalid"
  end.

Section Reader.
Context (parse_ip : bytes -> option IpAddr).

Definition parse_optional_ip_label (output : bytes) (label : string) : res (option IpAddr) :=
  match find_label (as_bytes label) (lines output) with
  | None => Ok None
  | Some value =>
      if bool_decide (value = []) || eq_ignore_ascii_case value (as_bytes "none") then Ok None
      else match parse_ip value with
           | Some a => Ok (Some a)
           | None => platform_reader_error ("macOS state has invalid " +:+ label)
           end
  end.

Definition parse_ip_label (output : bytes) (label : string) : res IpAddr :=
  let? o := parse_optional_ip_label output label in
  match o with Some a => Ok a | None => platform_reader_error ("macOS state is missing " +:+ label) end.

Definition parse_u8_label (output : bytes) (label : string) : res Z :=
  match find_label (as_bytes label) (lines output) with
  | None => platform_reader_error ("macOS state is missing " +:+ label)
  | Some value => match parse_unsigned 8 value with
                  | Some n => Ok n
                  | None => platform_reader_error ("macOS state has invalid " +:+ label)
                  end
  end.

(** The gateways that the adapter can not set again. *)
Definition no_gateway (output : bytes) (label message : string) : res unit :=
  let? router := parse_optional_ip_label output label in
  match router with
  | Some a => if is_unspecified a then Ok tt else platform_reader_error message
  | None => Ok tt
  end.

Fixpoint parse_dns_lines (ls : list bytes) : res (list IpAddr) :=
  match ls with
  | [] => Ok []
  | l :: ls =>
      match parse_ip l with
      | Some a => let? rest := parse_dns_lines ls in Ok (a :: rest)
      | None => platform_reader_error "macOS DNS output is not an IP address"
      end
  end.

Definition parse_macos_dns (output : bytes) : res (list IpAddr) :=
  if contains (as_bytes "There aren't any DNS Servers") output || bool_decide (trim output = []) then Ok []
  else parse_dns_lines (filter (fun l => l <> []) (map trim (lines output))).

Definition parse_macos_ipv4 (info : bytes) : res Ipv4Configuration :=
  if contains (as_bytes "DHCP Configuration") info then Ok Dhcp
  else
    let? address := parse_ip_label info "IP address:" in
    let? mask := parse_ip_label info "Subnet mask:" in
    match address, mask with
    | V4 a, V4 m =>
        let? prefix := prefix_from_netmask m in
        let? _ := no_gateway info "Router:" "macOS state contains a gateway not representable by this adapter" in
        Ok (StaticV4 [{| prefix_address := V4 a; prefix_length := prefix |}])
    | V6 _, _ => platform_reader_error "macOS IPv4 address has wrong family"
    | _, _ => platform_reader_error "macOS IPv4 subnet mask has wrong family"
    end.

Definition parse_macos_ipv6 (v6_info : bytes) : res Ipv6Configuration :=
  if contains (as_bytes "Off") v6_info || contains (as_bytes "Disabled") v6_info then Ok DisabledV6
  else if contains (as_bytes "Automatic") v6_info then Ok Automatic
  else
    let? address := parse_ip_label v6_info "IPv6 IP address:" in
    match address with
    | V6 a =>
        let? prefix := parse_u8_label v6_info "Prefix Length:" in
        let? _ := no_gateway v6_info "IPv6 Router:"
                    "macOS IPv6 state contains a gateway not representable by this adapter" in
        Ok (StaticV6 [{| prefix_address := V6 a; prefix_length := prefix |}])
    | V4 _ => platform_reader_error "macOS IPv6 address has wrong family"
    end.

Definition parse_macos_state (info v6_info dns_info mtu_info : bytes) : res NetworkDesiredState :=
  let? v4 := parse_macos_ipv4 info in
  let? v6 := parse_macos_ipv6 v6_info in
  let? dns_servers := parse_macos_dns dns_info in
  let? m := parse_mtu mtu_info in
  let state := {| ipv4 := v4; ipv6 := v6;
                  dns := {| dns_automatic := bool_decide (dns_servers = []); servers := dns_servers;
                            search_domains := [] |};
                  routes := []; mtu := Some m |} in
  let? _ := validated ProtocolInvalid state in
  Ok state.

Context {R : Type} `{CommandRunner R}.

Definition macos_query (i : bytes) (operation : string) : method R bytes :=
  let! output := run_validated_platform_command (networksetup [as_bytes operation; i]) in
  m_ret (if success output then Ok (stdout output)
         else Err (new_error HelperExecutionFailed "networksetup state query failed" true)).

Definition macos_read_state (interface_id : string) : method R NetworkDesiredState :=
  let i := as_bytes interface_id in
  let! _ := m_ret (validate_interface i) in
  let! info := macos_query i "-getinfo" in
  let! v6_info := macos_query i "-getv6info" in
  let! dns_info := macos_query i "-getdnsservers" in
  let! mtu_info := macos_query i "-getMTU" in
  m_ret (parse_macos_state info v6_info dns_info mtu_info).
End Reader.
