(* ===== verification/WindowsNetwork.v ===== *)
(** * The Windows adapter

    Model of [crates/helper-core/src/platform_network_windows.rs]: the commands of
    [netsh.exe] for a desired state, and the state that the PowerShell query reports.
    [serde_json] and the address parsers are parameters. *)

From stdpp Require Import base list strings.
From Stdlib Require Import ZArith Lia Ascii.
From S2P Require Import Prelude ErrorModel Text UdpProtocol HelperProtocol NetworkManager PlatformCommands MacosNetwork.
Open Scope Z_scope.

Definition netsh (args : list bytes) : PlatformCommand := {| program := NETSH_EXE; arguments := args |}.

(** An option [key=value] of [netsh]. *)
Definition option_text (key : string) (value : bytes) : bytes := as_bytes key ++ [61] ++ value.

Definition netsh_set (family what : string) (rest : list bytes) : PlatformCommand :=
  netsh ([as_bytes "interface"; as_bytes family; as_bytes "set"; as_bytes what] ++ rest).

Definition windows_ipv4 (i : bytes) (c : Ipv4Configuration) : res PlatformCommand :=
  match c with
  | Dhcp => Ok (netsh_set "ipv4" "address" [option_text "name" i; as_bytes "source=dhcp"])
  | DisabledV4 =>
      Ok (netsh_set "ipv4" "address"
            [option_text "name" i; as_bytes "source=static"; as_bytes "addr=0.0.0.0"; as_bytes "mask=0.0.0.0";
             as_bytes "gateway=none"])
  | StaticV4 addresses =>
      let? prefix := one_address "Windows netsh requires exactly one IPv4 address"
                       "Windows static IPv4 requires an address" addresses in
      match prefix_address prefix with
      | V4 address =>
          let? mask := ipv4_netmask (prefix_length prefix) in
          Ok (netsh_set "ipv4" "address"
                [option_text "name" i; as_bytes "source=static";
                 option_text "addr" (as_bytes (ipv4_to_string address)); option_text "mask" mask;
                 as_bytes "gateway=none"])
      | V6 _ => invalid "Windows IPv4 adapter received a non-IPv4 address"
      end
  end.

Definition windows_ipv6 (i : bytes) (c : Ipv6Configuration) : res PlatformCommand :=
  match c with
  | Automatic => Ok (netsh_set "ipv6" "address" [option_text "interface" i; as_bytes "source=dhcp"])
  | DisabledV6 => Ok (netsh_set "ipv6" "address" [option_text "interface" i; as_bytes "source=none"])
  | StaticV6 addresses =>
      let? prefix := one_address "Windows netsh requires exactly one IPv6 address"
                       "Windows static IPv6 requires an address" addresses in
      match prefix_address prefix with
      | V6 address =>
          Ok (netsh_set "ipv6" "address"
                [option_text "interface" i; option_text "address" (as_bytes (ipv6_to_string address));
                 option_text "prefixlength" (as_bytes (dec (prefix_length prefix))); as_bytes "store=active"])
      | V4 _ => invalid "Windows IPv6 adapter received a non-IPv6 address"
      end
  end.

Definition windows_dns (i : bytes) (d : DnsConfiguration) : res PlatformCommand :=
  let head source := [option_text "name" i; as_bytes source] in
  if dns_automatic d then Ok (netsh_set "ipv4" "dnsservers" (head "source=dhcp"))
  else match servers d with
       | server :: _ =>
           Ok (netsh_set "ipv4" "dnsservers"
                 (head "source=static" ++ [option_text "address" (as_bytes (ip_to_string server));
                                           as_bytes "validate=no"]))
       | [] => invalid "Windows static DNS requires at least one server"
       end.

Definition build_windows_netsh_commands (interface_id : string) (desired : NetworkDesiredState) :
    res (list PlatformCommand) :=
  let i := as_bytes interface_id in
  let? _ := validate_interface i in
  let? _ := validated InvalidArgument desired in
  if negb (bool_decide (routes desired = [])) || negb (bool_decide (search_domains (dns desired) = []))
  then err Unsupported "Windows netsh adapter does not apply routes or DNS search domains"
  else
    let? v4 := windows_ipv4 i (ipv4 desired) in
    let? v6 := windows_ipv6 i (ipv6 desired) in
    let? d := windows_dns i (dns desired) in
    let commands := [v4; v6; d] ++
      match mtu desired with
      | Some m => [netsh_set "ipv4" "subinterface"
                     [option_text "interface" i; option_text "mtu" (as_bytes (dec m)); as_bytes "store=active"]]
      | None => []
      end in
    let? _ := validate_commands commands in
    Ok commands.

(** ** Reading. *)

Definition WINDOWS_STATE_SCHEMA_VERSION : Z := 1.

Record WindowsAddress := { address_text : bytes; address_prefix : Z }.
Record WindowsStateDocument := {
  schema_version : Z; interface_count : Z; document_interface : string;
  v4_dhcp : bool; v4_addresses : list WindowsAddress;
  v6_state : string; v6_addresses : list WindowsAddress;
  dns_servers : list bytes; document_mtu : Z; default_gateways : list bytes; route_count : Z;
}.

Section Reader.
Context (from_str : bytes -> option WindowsStateDocument).
Context (parse_ip : bytes -> option IpAddr) (parse_ipv4 parse_ipv6 : bytes -> option Z).

Definition one_ipv4_address (addresses : list WindowsAddress) : res (Z * Z) :=
  if negb (len addresses =? 1) then platform_reader_error "Windows static IPv4 must have one address"
  else
    let? a := index addresses 0 in
    match parse_ipv4 (address_text a) with
    | Some x => Ok (x, address_prefix a)
    | None => platform_reader_error "Windows IPv4 address is invalid"
    end.

(** The zone after a percent sign is cut off. *)
Definition one_ipv6_address (addresses : list WindowsAddress) : res (Z * Z) :=
  if negb (len addresses =? 1) then platform_reader_error "Windows static IPv6 must have one address"
  else
    let? a := index addresses 0 in
    match head (split [37] (address_text a)) with
    | Some text => match parse_ipv6 text with
                   | Some x => Ok (x, address_prefix a)
                   | None => platform_reader_error "Windows IPv6 address is invalid"
                   end
    | None => platform_reader_error "Windows IPv6 address is invalid"
    end.

Fixpoint parse_servers (l : list bytes) : res (list IpAddr) :=
  match l with
  | [] => Ok []
  | s :: l => match parse_ip s with
              | Some a => let? rest := parse_servers l in Ok (a :: rest)
              | None => platform_reader_error "Windows DNS address is invalid"
              end
  end.

Definition windows_ipv6_state (d : WindowsStateDocument) : res Ipv6Configuration :=
  if bool_decide (v6_state d = "disabled"%string) then
    if negb (bool_decide (len (v6_addresses d) = 0)) then platform_reader_error "disabled IPv6 has addresses"
    else Ok DisabledV6
  else if bool_decide (v6_state d = "automatic"%string) then Ok Automatic
  else if bool_decide (v6_state d = "static"%string) then
    let? a := one_ipv6_address (v6_addresses d) in
    Ok (StaticV6 [{| prefix_address := V6 a.1; prefix_length := a.2 |}])
  else platform_reader_error "Windows IPv6 state is invalid".

Definition parse_windows_json_state (output : bytes) (expected_interface_id : string) : res NetworkDesiredState :=
  match from_str output with
  | None => platform_reader_error "Windows state JSON is malformed"
  | Some d =>
      if negb (schema_version d =? WINDOWS_STATE_SCHEMA_VERSION) || negb (interface_count d =? 1)
         || negb (bool_decide (document_interface d = expected_interface_id)) || negb (route_count d =? 0)
         || negb (bool_decide (default_gateways d = [])) || (16 <? len (dns_servers d))
         || negb ((576 <=? document_mtu d) && (document_mtu d <=? 65535))
      then platform_reader_error "Windows state JSON failed schema validation"
      else
        let? v4 := (if v4_dhcp d then Ok Dhcp
                    else let? a := one_ipv4_address (v4_addresses d) in
                         Ok (StaticV4 [{| prefix_address := V4 a.1; prefix_length := a.2 |}])) in
        let? v6 := windows_ipv6_state d in
        let? s := parse_servers (dns_servers d) in
        let state := {| ipv4 := v4; ipv6 := v6;
                        dns := {| dns_automatic := bool_decide (s = []); servers := s; search_domains := [] |};
                        routes := []; mtu := Some (document_mtu d) |} in
        let? _ := validated ProtocolInvalid state in
        Ok state
  end.

Context {R : Type} `{CommandRunner R}.

Definition state_query (i : bytes) : PlatformCommand :=
  {| program := POWERSHELL_EXE; arguments := QUERY_PREFIX ++ [as_bytes WINDOWS_STATE_QUERY; as_bytes "--"; i] |}.

Definition windows_query (i : bytes) : method R bytes :=
  let! output := run_validated_platform_command (state_query i) in
  m_ret (if success output then Ok (stdout output)
         else Err (new_error HelperExecutionFailed "PowerShell state query failed" true)).

Definition windows_read_state (interface_id : string) : method R NetworkDesiredState :=
  let! _ := m_ret (validate_interface (as_bytes interface_id)) in
  let! output := windows_query (as_bytes interface_id) in
  m_ret (parse_windows_json_state output interface_id).
End Reader.
