(* ===== verification/PlatformNetwork.v ===== *)
(** * The executor of macOS and Windows

    Model of [PlatformNetworkExecutor] of [crates/helper-core/src/platform_network.rs]:
    snapshots, changes, verification and restoration through the commands of a platform
    and a reader of its state. The runner of the reader and that of the executor act on
    the same system. Snapshots are files on the disk of [FileIo]. *)

From stdpp Require Import base list strings gmap.
From Stdlib Require Import ZArith Lia Ascii.
From S2P Require Import Prelude ErrorModel Text FileIo Paths UdpProtocol HelperProtocol SafeApply NetworkManager.
From S2P Require Import PlatformCommands MacosNetwork WindowsNetwork.
Open Scope Z_scope.

Definition PLATFORM_SNAPSHOT_VERSION : Z := 1.

Record PlatformSnapshot := {
  platform_version : Z; platform_interface : string; platform_backend : PlatformBackend;
  platform_state : NetworkDesiredState;
}.

Class PlatformCodec (V : Type) := {
  platform_to_vec : PlatformSnapshot -> string + bytes;
  platform_from_slice : bytes -> string + PlatformSnapshot;
  state_to_value : NetworkDesiredState -> string + V;
  platform_sha256 : bytes -> bytes;
}.

Record Platform (R : Type) := { system : R; snapshots : World; platform_nanos : list Z }.
Arguments system {R}.
Arguments snapshots {R}.
Arguments platform_nanos {R}.
Arguments Build_Platform {R}.

Definition platform_persistence_error (e : IoError) : NetToolError :=
  new_error PersistenceFailed ("platform snapshot persistence failed: " +:+ io_message e) true.
Definition platform_snapshot_error (m : string) : NetToolError :=
  new_error PersistenceFailed ("platform snapshot state is invalid: " +:+ m) false.

Definition platform_snapshot_path (directory snapshot_id : string) : res string :=
  if negb (len (as_bytes snapshot_id) =? 64) || negb (forallb is_ascii_hexdigit (as_bytes snapshot_id))
  then invalid "platform snapshot ID is invalid"
  else Ok (path_join directory (snapshot_id +:+ ".json")).

Definition commands (b : PlatformBackend) (i : string) (s : NetworkDesiredState) : res (list PlatformCommand) :=
  match b with
  | Macos => build_macos_networksetup_commands i s
  | Windows => build_windows_netsh_commands i s
  end.

Section Executor.
Context {R V : Type} `{CommandRunner R} `{PlatformCodec V}.
Context (reader : string -> method R NetworkDesiredState) (backend : PlatformBackend) (directory : string).

Abbreviation op A := (method (Platform R) A).

Definition on_system {A} (m : method R A) : op A := fun e =>
  let '(r, o) := m (system e) in
  ({| system := r; snapshots := snapshots e; platform_nanos := platform_nanos e |}, o).

Definition on_snapshots {A} (m : IO A) : op A := fun e =>
  let '(w, o) := m (snapshots e) in
  ({| system := system e; snapshots := w; platform_nanos := platform_nanos e |},
   match o with Ok a => Ok a | Err x => Err (platform_persistence_error x) | Panic => Panic end).

Definition read_clock : op Z := fun e =>
  ({| system := system e; snapshots := snapshots e; platform_nanos := tail (platform_nanos e) |},
   Ok (default 0 (head (platform_nanos e)))).

Definition encoded {A} (o : string + A) : res A :=
  match o with inr a => Ok a | inl m => Err (platform_snapshot_error m) end.

Definition write_platform_snapshot (s : PlatformSnapshot) : op string :=
  let! timestamp := read_clock in
  let! bytes := m_ret (encoded (platform_to_vec s)) in
  let snapshot_id := hex (platform_sha256 (to_be_bytes 16 timestamp ++ bytes)) in
  let! path := m_ret (platform_snapshot_path directory snapshot_id) in
  let! _ := on_snapshots (write_new (with_extension "tmp" path) path bytes) in
  m_ret (Ok snapshot_id).

Definition platform_read_state (i : string) : op V :=
  let! s := on_system (reader i) in m_ret (encoded (state_to_value s)).

Definition platform_snapshot (i : string) : op (string * V) :=
  let! s := on_system (reader i) in
  let! _ := m_ret (validated InvalidArgument s) in
  let! snapshot_id := write_platform_snapshot
    {| platform_version := PLATFORM_SNAPSHOT_VERSION; platform_interface := i; platform_backend := backend;
       platform_state := s |} in
  let! v := m_ret (encoded (state_to_value s)) in
  m_ret (Ok (snapshot_id, v)).

Definition platform_apply (i : string) (desired : NetworkDesiredState) : op unit :=
  let! _ := m_ret (validated InvalidArgument desired) in
  let! cs := m_ret (commands backend i desired) in
  on_system (execute_platform_commands cs).

Definition platform_verify (i : string) (desired : NetworkDesiredState) : op unit :=
  let! actual := on_system (reader i) in
  m_ret (if negb (bool_decide (actual = desired))
         then err HelperExecutionFailed "platform network state does not match requested state"
         else Ok tt).

Definition platform_restore (snapshot_id : string) : op unit :=
  let! path := m_ret (platform_snapshot_path directory snapshot_id) in
  let! bytes := on_snapshots (file_read path) in
  let! s := m_ret (encoded (platform_from_slice bytes)) in
  if negb (platform_version s =? PLATFORM_SNAPSHOT_VERSION) || negb (bool_decide (platform_backend s = backend))
  then m_ret (err ProtocolIncompatible "platform snapshot version or backend is unsupported")
  else
    let! cs := m_ret (commands backend (platform_interface s) (platform_state s)) in
    on_system (execute_platform_commands cs).

Definition platform_call {A} (m : op A) : Platform R -> Platform R * (NetToolError + A) := fun e =>
  let '(e, o) := m e in (e, to_sum o).

#[export] Instance platform_executor : NetworkExecutor (Platform R) V := {|
  SafeApply.read_state i := platform_call (platform_read_state i);
  SafeApply.snapshot i := platform_call (platform_snapshot i);
  SafeApply.apply i d := platform_call (platform_apply i d);
  SafeApply.verify i d := platform_call (platform_verify i d);
  SafeApply.restore s := platform_call (platform_restore s);
|}.
End Executor.

(** ** The readers and the builders return. *)

Lemma chain_total {A B} (o : res A) (k : A -> res B) : o <> Panic -> (forall a, k a <> Panic) -> obind o k <> Panic.
Proof. intros Ho Hk. destruct o; [apply Hk|done|done]. Qed.

Lemma validated_total c s : validated c s <> Panic.
Proof. unfold validated. pose proof (validate_desired_total s). by destruct (validate_desired s). Qed.

Lemma interface_total i : validate_interface i <> Panic.
Proof. unfold validate_interface. by case_match. Qed.

Lemma netmask_total p : ipv4_netmask p <> Panic.
Proof. unfold ipv4_netmask. by case_match. Qed.

Create HintDb platform.
#[export] Hint Resolve validated_total interface_total netmask_total commands_total : platform.

(** A chain of steps and cases, each of which returns. *)
Ltac returns := repeat first
  [ done | progress eauto with platform | apply chain_total; [|intros ?] | progress case_match ].

Lemma one_address_total a b l : one_address a b l <> Panic.
Proof. unfold one_address. returns. Qed.
#[export] Hint Resolve one_address_total : platform.

Lemma commands_return b i s : commands b i s <> Panic.
Proof.
  destruct b; simpl; unfold build_macos_networksetup_commands, build_windows_netsh_commands;
    unfold macos_ipv4, macos_ipv6, windows_ipv4, windows_ipv6, windows_dns; returns.
Qed.

Section Readers.
Context (parse_ip : bytes -> option IpAddr).

Lemma optional_total o l : parse_optional_ip_label parse_ip o l <> Panic.
Proof. unfold parse_optional_ip_label. returns. Qed.
#[local] Hint Resolve optional_total : platform.
Lemma label_total o l : parse_ip_label parse_ip o l <> Panic.
Proof. unfold parse_ip_label. returns. Qed.
#[local] Hint Resolve label_total : platform.
Lemma gateway_total o l m : no_gateway parse_ip o l m <> Panic.
Proof. unfold no_gateway. returns. Qed.
Lemma dns_total ls : parse_dns_lines parse_ip ls <> Panic.
Proof. induction ls as [|l ls IH]; [done|]. simpl. case_match; [|done]. by apply chain_total. Qed.
#[local] Hint Resolve gateway_total dns_total : platform.

Lemma macos_parse_total a b c d : parse_macos_state parse_ip a b c d <> Panic.
Proof.
  unfold parse_macos_state, parse_macos_ipv4, parse_macos_ipv6, parse_macos_dns, parse_mtu, prefix_from_netmask,
    parse_u8_label. returns.
Qed.
End Readers.

Section WindowsReader.
Context (from_str : bytes -> option WindowsStateDocument).
Context (parse_ip : bytes -> option IpAddr) (parse_ipv4 parse_ipv6 : bytes -> option Z).

Lemma one_index {A} (l : list A) : negb (len l =? 1) = false -> exists a, index (E := NetToolError) l 0 = Ok a.
Proof.
  intros Hl%negb_false_iff%Z.eqb_eq. unfold len in Hl. destruct l as [|a [|]]; simpl in Hl; try lia. by exists a.
Qed.

Lemma one_ipv4_total l : one_ipv4_address parse_ipv4 l <> Panic.
Proof.
  unfold one_ipv4_address. destruct (negb _) eqn:Hl; [done|]. destruct (one_index l Hl) as [a ->]. simpl. returns.
Qed.
Lemma one_ipv6_total l : one_ipv6_address parse_ipv6 l <> Panic.
Proof.
  unfold one_ipv6_address. destruct (negb _) eqn:Hl; [done|]. destruct (one_index l Hl) as [a ->]. simpl. returns.
Qed.
Lemma servers_total l : parse_servers parse_ip l <> Panic.
Proof. induction l as [|s l IH]; [done|]. simpl. case_match; [|done]. by apply chain_total. Qed.
#[local] Hint Resolve one_ipv4_total one_ipv6_total servers_total : platform.

Lemma windows_parse_total o i : parse_windows_json_state from_str parse_ip parse_ipv4 parse_ipv6 o i <> Panic.
Proof. unfold parse_windows_json_state, windows_ipv6_state. returns. Qed.
End WindowsReader.

(** ** Confinement. *)

Section Careful.
Context {R V : Type} `{CommandRunner R} `{PlatformCodec V}.
Context (from_str : bytes -> option WindowsStateDocument).
Context (parse_ip : bytes -> option IpAddr) (parse_ipv4 parse_ipv6 : bytes -> option Z).

Abbreviation log := (R * list PlatformCommand)%type.

(** The reader of a platform. *)
Definition reader_of (T : Type) `{CommandRunner T} (b : PlatformBackend) : string -> method T NetworkDesiredState :=
  match b with
  | Macos => macos_read_state parse_ip
  | Windows => windows_read_state from_str parse_ip parse_ipv4 parse_ipv6
  end.

Lemma careful_reader b i : careful (reader_of log b i).
Proof.
  assert (forall c (A : Type) (k : CommandOutput -> res A), (forall out, k out <> Panic) ->
    careful (let! out := run_validated_platform_command c in m_ret (k out))) as Hquery.
  { intros c A k Hk. apply careful_bind; [apply careful_run|]. intros out. apply careful_ret, Hk. }
  destruct b; simpl.
  - unfold macos_read_state. apply careful_bind; [apply careful_ret, interface_total|]. intros _.
    do 4 (apply careful_bind; [apply Hquery; intros out; by case_match|]; intros ?).
    apply careful_ret, macos_parse_total.
  - unfold windows_read_state. apply careful_bind; [apply careful_ret, interface_total|]. intros _.
    apply careful_bind; [apply Hquery; intros out; by case_match|]. intros out.
    apply careful_ret, windows_parse_total.
Qed.

(** [m] ends, and what it ran is confined. *)
Definition platform_careful {A} (m : method (Platform log) A) : Prop := forall e,
  m_holds m e (fun e' o => exists cs, (system e').2 = (system e).2 ++ cs /\ Forall confined cs).

Lemma platform_bind {A B} (m : method (Platform log) A) (k : A -> method (Platform log) B) :
  platform_careful m -> (forall a, platform_careful (k a)) -> platform_careful (m_bind m k).
Proof.
  intros Hm Hk x. eapply m_holds_bind; [apply Hm|done|]. intros x' a (cs&Hcs&Hc).
  eapply m_holds_weaken; [apply Hk|]. intros x'' o (cs'&Hcs'&Hc'). exists (cs ++ cs').
  split; [by rewrite Hcs', Hcs, (assoc_L (++))|by apply Forall_app].
Qed.

Lemma platform_ret {A} (o : res A) : o <> Panic -> platform_careful (m_ret o).
Proof. intros Ho x. apply m_holds_ret; [done|]. exists []. by rewrite app_nil_r. Qed.

Lemma platform_system {A} (m : method log A) : careful m -> platform_careful (on_system m).
Proof.
  intros Hm e. destruct (Hm (system e)) as [Hp (cs&Hcs&Hc)]. unfold m_holds, on_system.
  destruct (m (system e)) as [r o]. split; [done|]. by exists cs.
Qed.

(** Steps on the disk and the clock run nothing. *)
Lemma platform_aside {A} (m : method (Platform log) A) :
  (forall e, (m e).2 <> Panic /\ system (m e).1 = system e) -> platform_careful m.
Proof. intros Hm e. destruct (Hm e) as [Hp Hs]. split; [done|]. exists []. by rewrite app_nil_r, Hs. Qed.

Lemma platform_io {A} (m : IO A) : io_holds m (fun _ => True) -> platform_careful (on_snapshots m).
Proof.
  intros Hm. apply platform_aside. intros e. specialize (Hm (snapshots e)). unfold on_snapshots.
  destruct (m (snapshots e)) as [w [a|x|]]; by simpl.
Qed.

Lemma write_new_io t p b : io_holds (write_new t p b) (fun _ => True).
Proof.
  assert (forall path, io_holds (file_create_new path) (fun _ => True)) as Hc.
  { intros path w. unfold file_create_new. destruct (next_fault w) as [[k|] w']; [done|]. simpl. by case_match. }
  assert (forall a c, io_holds (file_rename a c) (fun _ => True)) as Hr.
  { intros a c w. unfold file_rename. destruct (next_fault w) as [[k|] w']; [done|]. simpl. by case_match. }
  unfold write_new. eapply io_holds_bind; [apply Hc|]. intros [] _.
  eapply io_holds_bind; [eapply io_holds_bind; [apply io_holds_write|intros [] _; apply io_holds_syscall]|]. intros [] _.
  eapply io_holds_bind; [apply Hr|]. intros [] _. intros w. pose proof (sync_parent_spec p w) as Hs.
  destruct (Paths.sync_parent p w) as [w' [[]|x|]]; [done|done|naive_solver].
Qed.

Lemma platform_restore_path d s : platform_snapshot_path d s <> Panic.
Proof. unfold platform_snapshot_path. by case_match. Qed.

Lemma encoded_total {A} (o : string + A) : encoded o <> Panic.
Proof. by destruct o. Qed.
#[local] Hint Resolve platform_restore_path commands_return : platform.

Ltac confines := repeat first
  [ apply platform_ret; first [done | apply encoded_total | apply validated_total | apply commands_return
                              | apply platform_restore_path | by case_match]
  | apply platform_system; first [apply careful_reader | apply careful_commands]
  | apply platform_io; apply write_new_io
  | apply platform_bind; [|intros ?] ].

(** C24: On macOS and Windows, no operation of the executor panics, and every program it
    runs, to read the state, to change it, or to restore any file that claims to be a
    snapshot, is an allowlisted one with arguments free of shell syntax, or the fixed
    PowerShell query on one interface. *)
Theorem platform_confined (b : PlatformBackend) (directory : string) :
  (forall i, platform_careful (platform_read_state (V := V) (reader_of log b) i)) /\
  (forall i, platform_careful (platform_snapshot (V := V) (reader_of log b) b directory i)) /\
  (forall i d, platform_careful (platform_apply b i d)) /\
  (forall i d, platform_careful (platform_verify (reader_of log b) i d)) /\
  (forall sid, platform_careful (platform_restore (V := V) b directory sid)).
Proof.
  split_and!; intros.
  - unfold platform_read_state. confines.
  - unfold platform_snapshot, write_platform_snapshot. confines.
    apply platform_aside. by intros e.
  - unfold platform_apply. confines.
  - unfold platform_verify. confines.
  - unfold platform_restore. confines.
    + apply platform_io. intros w. unfold file_read. destruct (next_fault w) as [[k|] w']; [done|]. simpl. by case_match.
    + case_match; confines.
Qed.
End Careful.

(** ** What can be verified. *)

(** The states that a reader can report. *)
Record representable (s : NetworkDesiredState) : Prop := {
  representable_v4 : ipv4 s = Dhcp \/ exists p, ipv4 s = StaticV4 [p];
  representable_v6 : ipv6 s = Automatic \/ ipv6 s = DisabledV6 \/ exists p, ipv6 s = StaticV6 [p];
  representable_dns : dns_automatic (dns s) = bool_decide (servers (dns s) = []) /\ search_domains (dns s) = [];
  representable_routes : routes s = [];
  representable_mtu : mtu s <> None;
  representable_valid : validate_desired s = Ok tt;
}.

Lemma validated_ok c s : validated c s = Ok tt -> validate_desired s = Ok tt.
Proof. unfold validated. destruct (validate_desired s) as [[]|m|]; done. Qed.

Section Representable.
Context (from_str : bytes -> option WindowsStateDocument).
Context (parse_ip : bytes -> option IpAddr) (parse_ipv4 parse_ipv6 : bytes -> option Z).

Lemma macos_representable a b c d s : parse_macos_state parse_ip a b c d = Ok s -> representable s.
Proof.
  unfold parse_macos_state. intros (v4&H4&Hr)%obind_Ok. revert Hr. intros (v6&H6&Hr)%obind_Ok. revert Hr.
  intros (sv&_&Hr)%obind_Ok. revert Hr. intros (m&_&Hr)%obind_Ok. revert Hr. intros ([]&Hv&[= <-])%obind_Ok.
  apply validated_ok in Hv. split; simpl; try done.
  - revert H4. unfold parse_macos_ipv4. case_match; [intros [= <-]; by left|].
    intros (x&_&Hr)%obind_Ok. revert Hr. intros (y&_&Hr)%obind_Ok. revert Hr. destruct x, y; try done.
    intros (p&_&Hr)%obind_Ok. revert Hr. intros ([]&_&[= <-])%obind_Ok. right. by eexists.
  - revert H6. unfold parse_macos_ipv6. case_match; [intros [= <-]; right; by left|].
    case_match; [intros [= <-]; by left|]. intros (x&_&Hr)%obind_Ok. revert Hr. destruct x; [done|].
    intros (p&_&Hr)%obind_Ok. revert Hr. intros ([]&_&[= <-])%obind_Ok. right. right. by eexists.
Qed.

Lemma windows_representable o i s :
  parse_windows_json_state from_str parse_ip parse_ipv4 parse_ipv6 o i = Ok s -> representable s.
Proof.
  unfold parse_windows_json_state. destruct (from_str o) as [d|]; [|done]. case_match; [done|].
  intros (v4&H4&Hr)%obind_Ok. revert Hr. intros (v6&H6&Hr)%obind_Ok. revert Hr.
  intros (sv&_&Hr)%obind_Ok. revert Hr. intros ([]&Hv&[= <-])%obind_Ok.
  apply validated_ok in Hv. split; simpl; try done.
  - revert H4. case_match; [intros [= <-]; by left|]. intros (x&_&[= <-])%obind_Ok. right. by eexists.
  - clear H4. revert H6. unfold windows_ipv6_state.
    destruct (bool_decide (v6_state d = "disabled"%string)); [destruct (bool_decide (len (v6_addresses d) = 0)); [|done]; simpl; intros [= <-]; right; by left|].
    destruct (bool_decide (v6_state d = "automatic"%string)); [intros [= <-]; by left|].
    destruct (bool_decide (v6_state d = "static"%string)); [|done].
    intros (x&_&[= <-])%obind_Ok. right. right. by eexists.
Qed.

Context {R : Type} `{CommandRunner R}.

(** A method whose last step is [k]. *)
Lemma ends_with_step {S A B} (m : method S A) (k : A -> method S B) s s' b :
  m_bind m k s = (s', Ok b) -> exists s1 a, k a s1 = (s', Ok b).
Proof. unfold m_bind. destruct (m s) as [s1 [a|e|]]; [by exists s1, a|done|done]. Qed.

Lemma reader_representable b i r r' s :
  reader_of from_str parse_ip parse_ipv4 parse_ipv6 R b i r = (r', Ok s) -> representable s.
Proof.
  destruct b; simpl.
  - unfold macos_read_state. do 5 (intros Hm; apply ends_with_step in Hm as (?&?&Hm); revert Hm).
    intros [= _ Hs]. by apply macos_representable in Hs.
  - unfold windows_read_state. do 2 (intros Hm; apply ends_with_step in Hm as (?&?&Hm); revert Hm).
    intros [= _ Hs]. by apply windows_representable in Hs.
Qed.

(** C25: On macOS and Windows a change can only be verified if the desired state has an
    MTU, does not disable IPv4, has at most one static address per family, no routes
    and no search domains, and asks for automatic DNS exactly if it names no server:
    no other state is ever read back, so Safe Apply rolls every other change back. *)
Theorem platform_verifies (b : PlatformBackend) i d (e e' : Platform R)
    (Hverify : platform_verify (reader_of from_str parse_ip parse_ipv4 parse_ipv6 R b) i d e = (e', Ok tt)) :
  representable d.
Proof.
  unfold platform_verify, m_bind, on_system in Hverify.
  destruct (reader_of _ _ _ _ R b i (system e)) as [r [s|x|]] eqn:Hr; try done.
  injection Hverify as _ Hs. destruct (bool_decide (s = d)) eqn:Hd; [|done].
  apply bool_decide_eq_true in Hd as <-. by eapply reader_representable.
Qed.
End Representable.

(** ** Netmasks. *)

Definition mask_of (p : Z) : Z := if p =? 0 then 0 else wrap 32 (Z.shiftl (umax 32) (32 - p)).

Lemma masks_checked : forallb (fun n => match prefix_from_netmask (mask_of (Z.of_nat n)) with
    | Ok q => q =? Z.of_nat n | _ => false end) (seq 0 33) = true.
Proof. by vm_compute. Qed.

Lemma leading_ones_bound n x : 0 <= leading_ones n x <= Z.of_nat n.
Proof. induction n as [|n IH]; [done|]. cbn [leading_ones]. case_match; lia. Qed.

(** The prefix length that macOS reports is read exactly from the netmasks of the
    33 prefix lengths, the ones that the adapter writes; every other mask is refused. *)
Theorem netmask_exact (m p : Z) (Hm : uint 32 m) :
  prefix_from_netmask m = Ok p <-> 0 <= p <= 32 /\ m = mask_of p.
Proof.
  pose proof (leading_ones_bound 32 m) as Hb. split.
  - unfold prefix_from_netmask. case_match; [done|]. fold (mask_of (leading_ones 32 m)).
    destruct (Z.eqb_spec m (mask_of (leading_ones 32 m))) as [He|]; [|done]. cbn [negb]. intros Hq.
    assert (p = leading_ones 32 m) as -> by congruence. split; [lia|done].
  - intros [Hp ->]. pose proof masks_checked as Hc. rewrite forallb_forall in Hc.
    specialize (Hc (Z.to_nat p)). rewrite Z2Nat.id in Hc by lia.
    assert (In (Z.to_nat p) (seq 0 33)) as Hin by (apply in_seq; lia). specialize (Hc Hin).
    destruct (prefix_from_netmask (mask_of p)) as [q|x|]; [|done|done]. apply Z.eqb_eq in Hc. by rewrite Hc.
Qed.

(** ** DNS servers on Windows. *)

Definition with_servers (l : list IpAddr) (s : NetworkDesiredState) : NetworkDesiredState :=
  {| ipv4 := ipv4 s; ipv6 := ipv6 s;
     dns := {| dns_automatic := dns_automatic (dns s); servers := l; search_domains := search_domains (dns s) |};
     routes := routes s; mtu := mtu s |}.

(** The commands of Windows set the first DNS server only: whatever further servers a
    valid state has, the same commands are built, so a restore of a snapshot with
    several servers loses all but the first. *)
Theorem windows_first_server i s a l (Hv : validate_desired (with_servers (a :: l) s) = Ok tt)
    (Hv1 : validate_desired (with_servers [a] s) = Ok tt) :
  build_windows_netsh_commands i (with_servers (a :: l) s) = build_windows_netsh_commands i (with_servers [a] s).
Proof. unfold build_windows_netsh_commands, validated. by rewrite Hv, Hv1. Qed.

(** ** A macOS system that shows one state. *)

Module FakeMac.
Definition address : IpAddr := V4 3221225994.
Definition show_lines (l : list string) : bytes := mjoin (map (fun s => as_bytes s ++ [10]) l).

Definition answer (operation : bytes) : bytes :=
  if bool_decide (operation = as_bytes "-getinfo") then
    show_lines ["Manual Configuration"; "IP address: 192.0.2.10"; "Subnet mask: 255.255.255.0"; "Router: 0.0.0.0"]
  else if bool_decide (operation = as_bytes "-getv6info") then show_lines ["IPv6: Automatic"]
  else if bool_decide (operation = as_bytes "-getdnsservers") then show_lines ["192.0.2.10"]
  else show_lines ["Active MTU: 1500 (Current Setting: 1500)"].

#[export] Instance fake_mac : CommandRunner unit := {|
  run _ args r := (r, inr {| success := true; stdout := answer (default [] (head args)); stderr := [] |});
|}.

Definition parse_ip (b : bytes) : option IpAddr :=
  if bool_decide (b = as_bytes "192.0.2.10") then Some address
  else if bool_decide (b = as_bytes "255.255.255.0") then Some (V4 4294967040)
  else if bool_decide (b = as_bytes "0.0.0.0") then Some (V4 0)
  else None.

Definition shown_state : NetworkDesiredState :=
  {| ipv4 := StaticV4 [{| prefix_address := address; prefix_length := 24 |}]; ipv6 := Automatic;
     dns := {| dns_automatic := false; servers := [address]; search_domains := [] |}; routes := []; mtu := Some 1500 |}.

(** The output of the tool is read as the state it shows. *)
Example macos_state_read : macos_read_state parse_ip "en0" tt = (tt, Ok shown_state).
Proof. by vm_compute. Qed.

Definition mac : Platform unit := {| system := tt; snapshots := {| files := ∅; faults := [] |}; platform_nanos := [] |}.

Lemma platform_verifies_witness : representable shown_state.
Proof.
  apply (platform_verifies (fun _ => None) parse_ip (fun _ => None) (fun _ => None) Macos "en0" shown_state mac mac).
  by vm_compute.
Defined.

(** A state without an MTU is applied, but never verified. *)
Example no_mtu_applied :
  let d := {| ipv4 := Dhcp; ipv6 := Automatic; dns := dns shown_state; routes := []; mtu := None |} in
  (platform_apply Macos "en0" d mac).2 = Ok tt /\ (platform_apply Windows "en0" d mac).2 = Ok tt /\
  (platform_verify (macos_read_state parse_ip) "en0" d mac).2 =
    err HelperExecutionFailed "platform network state does not match requested state".
Proof. by vm_compute. Qed.

Lemma netmask_exact_witness : prefix_from_netmask 4294967040 = Ok 24.
Proof. apply (netmask_exact 4294967040 24); [by vm_compute|]. split; [lia|reflexivity]. Defined.

Lemma windows_first_server_witness :
  build_windows_netsh_commands "Ethernet" (with_servers [address; V6 1] shown_state) =
  build_windows_netsh_commands "Ethernet" (with_servers [address] shown_state).
Proof. apply windows_first_server; by vm_compute. Defined.
End FakeMac.
