(* ===== verification/HelperServer.v ===== *)
(** * The transport of the privileged helper

    Model of [crates/helper-server/src/lib.rs] and of the response records of
    [crates/helper-protocol/src/lib.rs]: the allowlist of callers, the frames, and one
    exchange. The stream, [serde_json] and the handler are interfaces; the identity of
    the peer comes from the kernel and is a parameter. *)

From stdpp Require Import base list strings gmap sets.
From Stdlib Require Import ZArith Lia.
From S2P Require Import Prelude ErrorModel FileIo HelperProtocol.
Open Scope Z_scope.

Definition MAX_HELPER_FRAME_LENGTH : Z := 1024 * 1024.

Record PeerCredentials := { peer_principal : string; peer_process_id : option Z }.

Record AuthorizationPolicy := { allowed_principals : gset string }.

Definition new_policy (principals : list string) : AuthorizationPolicy :=
  {| allowed_principals := list_to_set principals |}.

Definition authorize (p : AuthorizationPolicy) (peer : PeerCredentials) : res CallerIdentity :=
  if negb (bool_decide (peer_principal peer ∈ allowed_principals p))
  then err HelperUnauthorized "helper caller is not authorized"
  else Ok {| principal := peer_principal peer; process_id := peer_process_id peer |}.

(** [Value] is the JSON of the results. *)
Record PrivilegedError := { error_code : string; error_message : string; error_retryable : bool }.
Record PrivilegedResponse (Value : Type) := {
  response_id : string; result : option Value; response_error : option PrivilegedError;
}.
Arguments Build_PrivilegedResponse {Value}.
Arguments response_id {Value}.
Arguments result {Value}.
Arguments response_error {Value}.

Definition error_response {Value} (request_id : string) (e : NetToolError) : PrivilegedResponse Value :=
  {| response_id := request_id; result := None;
     response_error := Some {| error_code := as_str (code e); error_message := message e;
                               error_retryable := retryable e |} |}.

(** A stream of the peer; a read of [n] bytes gives [n] bytes or fails. *)
Class HelperStream (S : Type) := {
  stream_read : Z -> S -> S * (IoError + bytes);
  stream_write : bytes -> S -> S * (IoError + unit);
  stream_flush : S -> S * (IoError + unit);
}.

Class HelperJson (Value : Type) := {
  request_from_slice : bytes -> string + PrivilegedWireRequest;
  response_to_vec : PrivilegedResponse Value -> string + bytes;
}.

(** [handle] returns a response, or panics ([None]). *)
Class PrivilegedRequestHandler (H Value : Type) := {
  handle : PrivilegedRequest -> H -> H * option (PrivilegedResponse Value);
}.

Definition transport_error (context : string) (e : IoError) : NetToolError :=
  new_error HelperTransportFailed (context +:+ ": " +:+ io_message e)
    (match io_kind e with Interrupted => true | _ => false end).

Section Server.
Context {S H Value : Type} `{HelperStream S} `{HelperJson Value} `{PrivilegedRequestHandler H Value}.
Context (parse_ip : string -> option IpAddr).

(** The stream and the handler. *)
Abbreviation op A := (method (S * H) A).

Definition stream {A} (context : string) (f : S -> S * (IoError + A)) : op A := fun '(s, h) =>
  let '(s, o) := f s in
  ((s, h), match o with inr a => Ok a | inl e => Err (transport_error context e) end).

Definition on_handler {A} (f : H -> H * option A) : op A := fun '(s, h) =>
  let '(h, o) := f h in ((s, h), match o with Some a => Ok a | None => Panic end).

Definition read_request : op PrivilegedWireRequest :=
  let! field := stream "read helper frame length" (stream_read 4) in
  let length := from_be_bytes field in
  if (length =? 0) || (MAX_HELPER_FRAME_LENGTH <? length)
  then m_ret (err ControlFrameTooLarge "helper frame length is invalid")
  else
    let! payload := stream "read helper frame payload" (stream_read length) in
    m_ret (match request_from_slice payload with
           | inr r => Ok r
           | inl m => err ProtocolInvalid ("helper request is invalid: " +:+ m)
           end).

Definition write_response (r : PrivilegedResponse Value) : op unit :=
  match response_to_vec r with
  | inl m => m_ret (err ProtocolInvalid ("helper response cannot be encoded: " +:+ m))
  | inr payload =>
      if MAX_HELPER_FRAME_LENGTH <? len payload
      then m_ret (err ControlFrameTooLarge "helper response exceeds frame limit")
      else
        let! _ := stream "write helper frame length"
                    (stream_write (to_be_bytes 4 (if len payload <=? umax 32 then len payload else umax 32))) in
        let! _ := stream "write helper frame payload" (stream_write payload) in
        stream "flush helper frame" stream_flush
  end.

Definition serve_one (peer : PeerCredentials) (policy : AuthorizationPolicy) : op unit :=
  let! identity := m_ret (authorize policy peer) in
  let! wire := read_request in
  if trimmed_empty (wire_request_id wire) || trimmed_empty (wire_operation_id wire)
  then m_ret (err InvalidArgument "helper request and operation IDs are required")
  else
    let! _ := m_ret (match validate_operation parse_ip (wire_operation wire) with
                     | Ok _ => Ok tt
                     | Err m => err InvalidArgument m
                     | Panic => Panic
                     end) in
    let! response := on_handler (handle (authenticate wire identity)) in
    write_response response.

(** ** What one exchange does. *)

(** A request that may reach the handler: of an allowed peer, with the identity that the
    kernel gave, with IDs and a valid operation, from a payload within the limit. *)
Definition admitted (peer : PeerCredentials) (policy : AuthorizationPolicy) (r : PrivilegedRequest) : Prop :=
  peer_principal peer ∈ allowed_principals policy /\
  (exists wire payload, request_from_slice payload = inr wire /\
    r = authenticate wire {| principal := peer_principal peer; process_id := peer_process_id peer |}) /\
  trimmed_empty (request_id r) = false /\ trimmed_empty (operation_id r) = false /\
  validate_operation parse_ip (operation r) = Ok tt.

(** Steps of the stream leave the handler alone. *)
Definition handler_kept {A} (h : H) (x' : S * H) (o : res A) : Prop := x'.2 = h.

Lemma stream_spec {A} context (f : S -> S * (IoError + A)) x :
  m_holds (stream context f) x (handler_kept x.2).
Proof.
  destruct x as [s h]. unfold m_holds, stream. destruct (f s) as [s' [e|a]]; by split.
Qed.

Lemma read_request_spec x : m_holds read_request x (fun x' o => x'.2 = x.2 /\
  forall w, o = Ok w -> exists payload, request_from_slice payload = inr w).
Proof.
  unfold read_request. eapply m_holds_bind; [apply stream_spec| |].
  { by intros x' e Hk. }
  intros x1 field Hk1. destruct (_ || _); [by apply m_holds_ret|].
  eapply m_holds_bind; [apply stream_spec| |].
  { unfold handler_kept in *. intros x' e Hk. split; [congruence|done]. }
  unfold handler_kept in *. intros x2 payload Hk2. apply m_holds_ret; [by case_match|].
  split; [congruence|]. intros w Hw. exists payload. destruct (request_from_slice payload); [done|congruence].
Qed.

Lemma write_response_spec r x : m_holds (write_response r) x (fun x' o => x'.2 = x.2 /\
  (o = Ok tt -> exists payload, response_to_vec r = inr payload /\ len payload <= MAX_HELPER_FRAME_LENGTH)).
Proof.
  unfold write_response. destruct (response_to_vec r) as [m|payload] eqn:Hr; [by apply m_holds_ret|].
  destruct (Z.ltb_spec MAX_HELPER_FRAME_LENGTH (len payload)); [by apply m_holds_ret|].
  eapply m_holds_bind; [apply stream_spec| |]; unfold handler_kept.
  { by intros x' e Hk. }
  intros x1 [] Hk1. eapply m_holds_bind; [apply stream_spec| |]; unfold handler_kept.
  { intros x' e Hk. split; [congruence|done]. }
  intros x2 [] Hk2. eapply m_holds_weaken; [apply stream_spec|]. unfold handler_kept. intros x3 o Hk3.
  split; [congruence|]. intros _. by exists payload.
Qed.

(** One exchange, for a handler that does not panic. *)
Definition exchanged (peer : PeerCredentials) (policy : AuthorizationPolicy) (h : H) (x' : S * H) (o : res unit) : Prop :=
  x'.2 = h /\ o <> Ok tt \/
  exists r response, admitted peer policy r /\ handle r h = (x'.2, Some response) /\
    (o = Ok tt -> exists payload, response_to_vec response = inr payload /\ len payload <= MAX_HELPER_FRAME_LENGTH).

Lemma serve_one_spec peer policy x
    (Htotal : forall r, admitted peer policy r -> (handle r x.2).2 <> None) :
  m_holds (serve_one peer policy) x (exchanged peer policy x.2).
Proof.
  unfold serve_one, authorize. case_bool_decide as Hin; cbn [negb].
  2: { split; [done|left; by split]. }
  eapply m_holds_step; [reflexivity|].
  eapply m_holds_bind; [apply read_request_spec| |].
  { intros x' e [Hk _]. left. by split. }
  intros x1 w [Hk1 Hw]. destruct (Hw w eq_refl) as [payload Hp].
  destruct (_ || _) eqn:Hids; [apply m_holds_ret; [done|left; by split]|].
  apply orb_false_iff in Hids as [Hid1 Hid2].
  pose proof (validate_operation_total parse_ip (wire_operation w)) as Hnp.
  destruct (validate_operation parse_ip (wire_operation w)) as [[]|m|] eqn:Hv; [| |done].
  2: { split; [done|left; by split]. }
  eapply m_holds_step; [reflexivity|].
  set (r := authenticate w _).
  assert (admitted peer policy r) as Hadm.
  { split_and!; try done. by exists w, payload. }
  specialize (Htotal r Hadm). destruct x1 as [s1 h1]. simpl in Hk1. subst h1.
  destruct (handle r x.2) as [h2 [response|]] eqn:Hh; [|done].
  eapply m_holds_step; [unfold on_handler; by rewrite Hh|].
  destruct (write_response_spec response (s1, h2)) as [Hnp' [Hk Hok]]. split; [done|].
  right. exists r, response. simpl in Hk. rewrite Hk. by split_and!.
Qed.

(** A caller that is not allowed: nothing is read from it and nothing happens. *)
Lemma refused_peer peer policy x : peer_principal peer ∉ allowed_principals policy ->
  serve_one peer policy x = (x, err HelperUnauthorized "helper caller is not authorized").
Proof. intros Hp. unfold serve_one, authorize. by rewrite bool_decide_false. Qed.
End Server.
