(* ===== verification/HelperService.v ===== *)
(** * The privileged helper

    Model of the Unix helper of [apps/helper/src/main.rs]: the service that executes
    requests on the network configuration ([SafeApply]), the hosts file ([Hosts]) and
    the Linux resources ([LinuxResources]), which share one disk, and the loop that
    serves callers ([HelperServer]) and recovers expired transactions. *)

From stdpp Require Import base list strings gmap sets relations.
From Stdlib Require Import ZArith Lia.
From S2P Require Import Prelude ErrorModel Text FileIo Paths UdpProtocol HelperProtocol Hosts SafeApply LinuxResources HelperServer.
Open Scope Z_scope.

(** [HelperService]: the paths, and the state: the Safe Apply manager with the network
    platform, the disk and the clock, and the kernel of the resources. *)
Record HelperConfiguration := {
  resources : LinuxResourceExecutor; hosts_path : string; hosts_backup_path : string;
}.
Record HelperService (P K : Type) := { safe_apply : Env P; resource_kernel : K }.
Arguments safe_apply {P K}.
Arguments resource_kernel {P K}.
Arguments Build_HelperService {P K}.

(** The JSON values that the service answers with, by their content. *)
Inductive HelperResult (V : Type) :=
  | ReadState (v : V)
  | Applied (r : PendingSafeApply)
  | Restored
  | HostsText (text : bytes)
  | BackedUp (size : Z)
  | HostsRestored (size : Z)
  | Updated (entry_count : Z)
  | RolledBackResult
  | PendingList (l : list PendingSafeApply)
  | ResourceResult (v : ValueResult)
  | DryRun (operation : string).
Arguments ReadState {V}.
Arguments Applied {V}.
Arguments Restored {V}.
Arguments HostsText {V}.
Arguments BackedUp {V}.
Arguments HostsRestored {V}.
Arguments Updated {V}.
Arguments RolledBackResult {V}.
Arguments PendingList {V}.
Arguments ResourceResult {V}.
Arguments DryRun {V}.

Definition hosts_io_error (e : IoError) : NetToolError :=
  new_error PersistenceFailed ("helper file operation failed: " +:+ io_message e) true.

(** [atomic_replace]: the permissions are not modelled, setting them may fail. *)
Definition atomic_replace (path : string) (bs : bytes) : IO unit :=
  let temporary := with_extension "nettool.tmp" path in
  file_metadata path ;;?
  file_create_new temporary ;;?
  syscall id ;;?
  (write_all temporary bs ;;? file_sync) ;;?
  file_rename temporary path ;;?
  match parent_of path with
  | NoParent => io_ret tt
  | EmptyParent => fun w => (w, Err not_found)
  | ParentDir => directory_open ;;? file_sync
  end.

Section Service.
Context {P V K : Type} `{NetworkExecutor P V} `{!SafeApply.Codec V} `{KernelAccess K} `{SnapshotCodec}.
Context (parse_ip : string -> option IpAddr) (c : HelperConfiguration).

Abbreviation op A := (method (HelperService P K) A).

Definition on_safe {A} (m : method (Env P) A) : op A := fun s =>
  let '(e, o) := m (safe_apply s) in
  ({| safe_apply := e; resource_kernel := resource_kernel s |}, o).

Definition with_disk (e : Env P) (w : World) : Env P :=
  {| SafeApply.manager := manager e; world := w; platform := platform e; clock := clock e |}.

Definition on_resources {A} (m : method (Host K) A) : op A := fun s =>
  let '(h, o) := m {| kernel := resource_kernel s; disk := world (safe_apply s) |} in
  ({| safe_apply := with_disk (safe_apply s) (disk h); resource_kernel := kernel h |}, o).

Definition on_hosts {A} (m : IO A) : op A := fun s =>
  let '(w, o) := m (world (safe_apply s)) in
  ({| safe_apply := with_disk (safe_apply s) w; resource_kernel := resource_kernel s |},
   match o with Ok a => Ok a | Err e => Err (hosts_io_error e) | Panic => Panic end).

(** An entry of the request as one of the hosts file. *)
Definition hosts_entry (e : HelperProtocol.ManagedHostsEntry) : res Hosts.ManagedHostsEntry :=
  match parse_ip (entry_address e) with
  | None => err InvalidArgument "hosts address is invalid"
  | Some a => Ok {| Hosts.address := a; Hosts.hostname := HelperProtocol.hostname e;
                    Hosts.comment := HelperProtocol.comment e; Hosts.enabled := HelperProtocol.enabled e |}
  end.
Fixpoint hosts_entries (es : list HelperProtocol.ManagedHostsEntry) : res (list Hosts.ManagedHostsEntry) :=
  match es with
  | [] => Ok []
  | e :: es => let? e := hosts_entry e in let? es := hosts_entries es in Ok (e :: es)
  end.

Definition begin_request (r : PrivilegedRequest) (interface_id : string) (desired : NetworkDesiredState)
    (timeout now : Z) : BeginSafeApply :=
  {| req_operation_id := HelperProtocol.operation_id r; req_interface_id := interface_id;
     req_desired_state := desired; req_confirm_timeout_seconds := timeout; req_now_unix_seconds := now |}.

Definition execute (r : PrivilegedRequest) : op (HelperResult V) :=
  if dry_run r then m_ret (Ok (DryRun (operation_name (operation r))))
  else
    match operation r with
    | NetworkReadState i => let! v := on_safe (exec (SafeApply.read_state i)) in m_ret (Ok (ReadState v))
    | NetworkApply i desired timeout =>
        let! now := on_safe now_unix_seconds in
        let! p := on_safe (begin (begin_request r i desired timeout now)) in
        m_ret (Ok (Applied p))
    | NetworkRestore s => let! _ := on_safe (exec (restore s)) in m_ret (Ok Restored)
    | HostsRead => let! text := on_hosts (file_read_to_string (hosts_path c)) in m_ret (Ok (HostsText text))
    | HostsBackup =>
        let! current := on_hosts (file_read (hosts_path c)) in
        let! _ := on_hosts (atomic_replace (hosts_backup_path c) current) in
        m_ret (Ok (BackedUp (len current)))
    | HostsRestore =>
        let! backup := on_hosts (file_read (hosts_backup_path c)) in
        let! _ := on_hosts (atomic_replace (hosts_path c) backup) in
        m_ret (Ok (HostsRestored (len backup)))
    | HostsAtomicReplace profile es =>
        let! current := on_hosts (file_read_to_string (hosts_path c)) in
        let! entries := m_ret (hosts_entries es) in
        let! updated := m_ret (replace_managed_section current profile entries) in
        let! _ := on_hosts (atomic_replace (hosts_path c) updated) in
        m_ret (Ok (Updated (len entries)))
    | SafeApplyConfirm id => let! p := on_safe (confirm id) in m_ret (Ok (Applied p))
    | SafeApplyRollback id => let! _ := on_safe (rollback id) in m_ret (Ok RolledBackResult)
    | SafeApplyListPending =>
        let! m := on_safe (gets manager) in m_ret (Ok (PendingList (pending_operations m)))
    | NicPrepareDpdk pci =>
        let! v := on_resources (prepare_dpdk (resources c) (HelperProtocol.operation_id r) pci) in
        m_ret (Ok (ResourceResult v))
    | NicRestoreDriver pci prepare_id =>
        let! v := on_resources (restore_driver (resources c) prepare_id pci) in m_ret (Ok (ResourceResult v))
    | HugepagePrepare n pages size =>
        let! v := on_resources (prepare_hugepages (resources c) (HelperProtocol.operation_id r) n pages size) in
        m_ret (Ok (ResourceResult v))
    | HugepageRelease id =>
        let! v := on_resources (release_hugepages (resources c) id) in m_ret (Ok (ResourceResult v))
    end.

Definition handle_request (r : PrivilegedRequest) (s : HelperService P K) :
    HelperService P K * option (PrivilegedResponse (HelperResult V)) :=
  match execute r s with
  | (s, Ok v) => (s, Some {| response_id := request_id r; result := Some v; response_error := None |})
  | (s, Err e) => (s, Some (error_response (request_id r) e))
  | (s, Panic) => (s, None)
  end.

#[export] Instance helper_handler : PrivilegedRequestHandler (HelperService P K) (HelperResult V) :=
  {| handle := handle_request |}.

Definition recover : op (list string) :=
  let! now := on_safe now_unix_seconds in on_safe (recover_expired now).

(** The backup file that [run] makes before it serves. *)
Definition create_backup : op unit := fun s =>
  let '(w, present) := path_exists (hosts_backup_path c) (world (safe_apply s)) in
  let s := {| safe_apply := with_disk (safe_apply s) w; resource_kernel := resource_kernel s |} in
  if present then (s, Ok tt)
  else on_hosts (file_create_new (hosts_backup_path c) ;;? syscall id) s.

(** ** The transactions stay intact. *)

Context `{!CodecLaws V}.

(** The files of the hosts and of the resources are not the store of the transactions. *)
Record separate (store : string) : Prop := {
  separate_resources : apart (resources c) store;
  separate_hosts : hosts_path c <> store /\ with_extension "nettool.tmp" (hosts_path c) <> store;
  separate_backup : hosts_backup_path c <> store /\ with_extension "nettool.tmp" (hosts_backup_path c) <> store;
}.

Definition store (s : HelperService P K) : string := SafeApply.state_path (manager (safe_apply s)).

Definition kept_service {A} (s s' : HelperService P K) (o : res A) : Prop :=
  kept (safe_apply s) (safe_apply s') o.

Lemma service_bind {A B} (m : op A) (k : A -> op B) s :
  m_holds m s (kept_service s) ->
  (forall s' a, intact (safe_apply s') -> store s' = store s -> m_holds (k a) s' (kept_service s')) ->
  m_holds (m_bind m k) s (kept_service s).
Proof.
  intros Hm Hk. eapply m_holds_bind; [exact Hm|done|]. intros s' a [Hi Hp].
  eapply m_holds_weaken; [apply Hk; [done|]|].
  - unfold store. by rewrite (same_state_path _ _ Hp).
  - intros s'' o [Hi' Hp']. split; [done|]. by apply (progress_trans _ (safe_apply s')).
Qed.

Lemma service_ret {A} (o : res A) s : intact (safe_apply s) -> o <> Panic ->
  m_holds (m_ret o) s (kept_service s).
Proof. intros Hi Ho. apply m_holds_ret; [done|]. split; [done|apply progress_refl]. Qed.

Lemma service_safe {A} (m : method (Env P) A) s :
  m_holds m (safe_apply s) (kept (safe_apply s)) -> m_holds (on_safe m) s (kept_service s).
Proof.
  unfold m_holds, on_safe, kept_service. destruct (m (safe_apply s)) as [e o]. done.
Qed.

Lemma service_aside {A} (m : op A) s : intact (safe_apply s) ->
  (m s).2 <> Panic -> aside (safe_apply s) (safe_apply (m s).1) -> m_holds m s (kept_service s).
Proof. intros Hi Hp Ha. split; [done|]. split; [by eapply aside_intact|by apply aside_progress]. Qed.

Lemma service_resources {A} (m : method (Host K) A) s : intact (safe_apply s) -> quiet (store s) m ->
  m_holds (on_resources m) s (kept_service s).
Proof.
  intros Hi Hq. destruct (Hq {| kernel := resource_kernel s; disk := world (safe_apply s) |}) as (Hf&Hp&Hn).
  apply service_aside; [done| |]; unfold on_resources;
    destruct (m {| kernel := resource_kernel s; disk := world (safe_apply s) |}) as [h o]; [done|].
  by split.
Qed.

Lemma service_hosts {A} (m : IO A) s : intact (safe_apply s) -> leaves (store s) m ->
  m_holds (on_hosts m) s (kept_service s).
Proof.
  intros Hi Hq. destruct (Hq (world (safe_apply s))) as (Hf&Hp&Hn).
  apply service_aside; [done| |]; unfold on_hosts;
    destruct (m (world (safe_apply s))) as [w [a|e|]]; try done; by split.
Qed.

Lemma leaves_atomic_replace path p b : p <> path -> with_extension "nettool.tmp" p <> path ->
  leaves path (atomic_replace p b).
Proof.
  intros Hp Ht. unfold atomic_replace.
  repeat (apply leaves_bind; [|intros []]); try by apply leaves_syscall.
  - apply leaves_metadata.
  - by apply leaves_create_new.
  - by apply leaves_write.
  - by apply leaves_rename.
  - destruct (parent_of p); [apply leaves_ret|apply leaves_err|].
    by apply leaves_bind; [|intros []]; apply leaves_syscall.
Qed.

Lemma kept_now (e : Env P) : intact e -> m_holds (now_unix_seconds (P := P)) e (kept e).
Proof.
  intros Hi. split; [done|]. assert (aside e (now_unix_seconds e).1) as Ha by (by split).
  split; [by eapply aside_intact|by apply aside_progress].
Qed.

Lemma kept_confirm id (e : Env P) : intact e -> m_holds (confirm id) e (kept e).
Proof.
  intros Hi. unfold confirm. apply kept_bind; [by apply kept_now|]. intros e' now _ Hi'.
  eapply m_holds_weaken; [by apply confirm_at_spec|]. by intros e'' o [? _].
Qed.

Lemma hosts_entries_total es : hosts_entries es <> Panic.
Proof.
  induction es as [|e es IH]; [done|]. simpl. unfold hosts_entry. destruct (parse_ip _); [|done].
  simpl. by destruct (hosts_entries es).
Qed.

(** Whatever is requested and whatever fails. *)
Lemma execute_kept r s : intact (safe_apply s) -> separate (store s) ->
  m_holds (execute r) s (kept_service s).
Proof.
  intros Hi [Hr [Hh1 Hh2] [Hb1 Hb2]]. unfold execute. destruct (dry_run r); [by apply service_ret|].
  destruct (operation r).
  1, 3: apply service_bind; [apply service_safe, kept_exec; done|]; intros; by apply service_ret.
  - apply service_bind; [by apply service_safe, kept_now|]. intros s1 now Hi1 Hs1.
    apply service_bind; [by apply service_safe, kept_begin|]. intros; by apply service_ret.
  - apply service_bind; [apply service_hosts; [done|apply leaves_read_to_string]|]. intros; by apply service_ret.
  - apply service_bind; [apply service_hosts; [done|apply leaves_read]|]. intros s1 b Hi1 Hs1.
    apply service_bind; [apply service_hosts; [done|rewrite Hs1; by apply leaves_atomic_replace]|].
    intros; by apply service_ret.
  - apply service_bind; [apply service_hosts; [done|apply leaves_read]|]. intros s1 b Hi1 Hs1.
    apply service_bind; [apply service_hosts; [done|rewrite Hs1; by apply leaves_atomic_replace]|].
    intros; by apply service_ret.
  - apply service_bind; [apply service_hosts; [done|apply leaves_read_to_string]|]. intros s1 b Hi1 Hs1.
    apply service_bind; [apply service_ret; [done|apply hosts_entries_total]|]. intros s2 es Hi2 Hs2.
    apply service_bind; [apply service_ret; [done|by apply replace_total]|]. intros s3 u Hi3 Hs3.
    apply service_bind; [apply service_hosts; [done|rewrite Hs3, Hs2, Hs1; by apply leaves_atomic_replace]|].
    intros; by apply service_ret.
  - apply service_bind; [apply service_resources; [done|by apply quiet_prepare_dpdk]|]. intros; by apply service_ret.
  - apply service_bind; [apply service_resources; [done|by apply quiet_restore_driver]|]. intros; by apply service_ret.
  - apply service_bind; [apply service_resources; [done|by apply quiet_prepare_hugepages]|]. intros; by apply service_ret.
  - apply service_bind; [apply service_resources; [done|by apply quiet_release_hugepages]|]. intros; by apply service_ret.
  - apply service_bind; [by apply service_safe, kept_confirm|]. intros; by apply service_ret.
  - apply service_bind; [by apply service_safe, kept_rollback_internal|]. intros; by apply service_ret.
  - apply service_bind; [|intros; by apply service_ret]. apply service_safe.
    split; [done|]. split; [done|apply progress_refl].
Qed.

Lemma recover_kept s : intact (safe_apply s) -> m_holds recover s (kept_service s).
Proof.
  intros Hi. unfold recover. apply service_bind; [by apply service_safe, kept_now|].
  intros s1 now Hi1 _. by apply service_safe, kept_recover_expired.
Qed.

(** The helper keeps the transactions in [safe-apply.json] and the backup in
    [hosts.backup] of its state directory. *)
Lemma separate_layout dir : hosts_backup_path c = path_join dir "hosts.backup" ->
  hosts_path c <> path_join dir "safe-apply.json" ->
  with_extension "nettool.tmp" (hosts_path c) <> path_join dir "safe-apply.json" ->
  separate (path_join dir "safe-apply.json").
Proof.
  intros Hb Hh Ht.
  assert (forall d n e, slashless n -> is_absolute n = false -> skipped n = false -> n <> ".."%string ->
    last (as_bytes e) = Some 112 -> as_bytes e <> [] -> with_extension e (path_join d n) <> path_join dir "safe-apply.json") as Htmp.
  { intros d n e N1 N2 N3 N4 Hl He Heq. destruct (with_extension_join d n e N1 N2 N3 N4) as (u&_&Hu).
    destruct (with_extension_join dir "safe-apply.json" e) as (v&Hv&_); [by apply slashless_dec|done..|].
    rewrite Hu, Hv in Heq. apply (f_equal (last ∘ as_bytes)) in Heq. unfold compose in Heq.
    rewrite !as_bytes_app in Heq. change (as_bytes "safe-apply.json") with (as_bytes "safe-apply.jso" ++ [110]) in Heq.
    rewrite !(assoc_L (++)), !last_append, Hl in Heq by done. discriminate. }
  split; [|done|].
  - intros kind op Hk. destruct (state_name_facts kind op Hk) as (N1&N2&N3&N4&_).
    split; [|by apply (Htmp _ (state_name kind op))].
    intros Heq. apply path_join_name in Heq as Heq; [|done|by apply slashless_dec|done|done].
    by destruct Hk as [->| ->].
  - rewrite Hb. split; [|apply Htmp; [by apply slashless_dec|done..]].
    intros Heq. apply path_join_name in Heq; [done|by apply slashless_dec|by apply slashless_dec|done|done].
Qed.

(** ** Requests on the hosts file. *)

Definition content (path : string) (s : HelperService P K) : option bytes := files (world (safe_apply s)) !! path.

(** Only the disk differs. *)
Definition same_system (s s' : HelperService P K) : Prop :=
  resource_kernel s' = resource_kernel s /\ manager (safe_apply s') = manager (safe_apply s) /\
  platform (safe_apply s') = platform (safe_apply s).

(** A file is as it was, or is replaced whole by [new]; success means replaced. *)
Definition replaced_or_kept {A} (path : string) (s s' : HelperService P K) (o : res A) (new : bytes -> Prop) : Prop :=
  o <> Panic /\ same_system s s' /\
  (content path s' = content path s /\ (forall v, o <> Ok v) \/ exists b, new b /\ content path s' = Some b).

Lemma atomic_replace_spec path b w : with_extension "nettool.tmp" path <> path ->
  let '(w', o) := atomic_replace path b w in
  o <> Panic /\ (files w' !! path = files w !! path /\ o <> Ok tt \/ files w' !! path = Some b) /\
  (forall p, p <> path -> p <> with_extension "nettool.tmp" path -> files w' !! p = files w !! p) /\
  (faults w = [] -> is_Some (files w !! path) -> files w !! with_extension "nettool.tmp" path = None ->
   parent_of path <> EmptyParent ->
   o = Ok tt /\ w' = {| files := <[path := b]> (files w); faults := [] |}).
Proof.
  intros Hne. destruct w as [f q]. unfold atomic_replace. fold (Paths.sync_parent path).
  set (t := with_extension "nettool.tmp" path) in *.
  assert (forall m : gmap string bytes, m !! t = None -> <[path := b]> (delete t (<[t := b]> m)) = <[path := b]> m) as Hren.
  { intros m Hm. by rewrite delete_insert_id. }
  pose proof (Paths.sync_parent_spec path) as Hsync. revert Hsync. generalize (Paths.sync_parent path) as tail. intros tail Hsync.
  unfold io_bind, file_metadata, next_fault. cbn [files faults].
  destruct (f !! path) as [old|] eqn:Hold.
  2: { destruct q as [|[k|] q]; simpl; rewrite ?Hold; (split_and!; [done|by left|done|by intros _ [? [=]]]). }
  unfold file_create_new, next_fault. destruct (f !! t) as [stale|] eqn:Ht.
  { destruct q as [|[k|] [|[k'|] q]]; simpl; rewrite ?Hold; simpl; rewrite ?Ht; (split_and!; [done|by left|done|done]). }
  unfold write_all, file_sync, file_rename, syscall, next_fault, append_to, with_files.
  destruct q as [|[k0|] [|[k1|] [|[k2|] [|[k3|] [|[k4|] [|[k5|] q]]]]]]; simpl; rewrite ?Hold; simpl;
    rewrite ?Ht; simpl; rewrite ?lookup_insert_eq; simpl; rewrite ?lookup_insert_eq; simpl;
    rewrite ?insert_insert_eq, ?Hren by done;
    try (split_and!; [done|left; by rewrite ?lookup_insert_ne by done|intros p Hp Hpt; by rewrite ?lookup_insert_ne by done|done]);
    match goal with |- context[tail ?w] => specialize (Hsync w); destruct (tail w) as [w' o] end;
    simpl in Hsync; destruct Hsync as (Hf&Hp&Hok); rewrite Hf;
    (split_and!; [done|right; by rewrite lookup_insert_eq|intros p Hp' Hpt; by rewrite ?lookup_insert_ne by done|]);
    simpl; try done; intros _ _ _ Hd; destruct (Hok eq_refl Hd) as [-> Hq']; destruct w'; simpl in *; by subst.
Qed.

Definition same_files (s s' : HelperService P K) : Prop :=
  same_system s s' /\ forall p, content p s' = content p s.

Lemma same_files_refl s : same_files s s.
Proof. by split_and!. Qed.

Lemma replaced_weaken {A} path s s1 s2 (o : res A) (new new' : bytes -> Prop) : same_files s s1 ->
  (forall b, new b -> new' b) -> replaced_or_kept path s1 s2 o new -> replaced_or_kept path s s2 o new'.
Proof.
  intros [(E1&E2&E3) Hf] Hn (Hp&(E4&E5&E6)&Hc). split; [done|].
  split; [by split_and!; etrans; eauto|]. rewrite <- (Hf path).
  destruct Hc as [?|(b&?&?)]; [by left|right; eauto].
Qed.

(** What fails before the write changes nothing. *)
Lemma replaced_early {A} path s s1 (o : res A) new : same_files s s1 -> o <> Panic -> (forall v, o <> Ok v) ->
  replaced_or_kept path s s1 o new.
Proof. intros [Hs Hf] Hp Hv. split; [done|]. split; [done|]. by left. Qed.

Lemma on_hosts_read (m : IO bytes) path s : m = file_read path \/ m = file_read_to_string path ->
  m_holds (on_hosts m) s (fun s' o => same_files s s' /\ (forall b, o = Ok b -> content path s = Some b)).
Proof.
  unfold m_holds, on_hosts, same_files, same_system, content.
  destruct s as [[m0 [f [|[k|] q]] p cl] k0]; intros [-> | ->];
    unfold file_read_to_string, io_bind, file_read, next_fault; simpl; try done;
    destruct (f !! path) as [b|] eqn:Hb; simpl; try done;
    try (split_and!; [done..|by intros b' [= ->]]);
    destruct (utf8_valid b); simpl; split_and!; try done; by intros b' [= ->].
Qed.

Lemma on_hosts_replace path b s : with_extension "nettool.tmp" path <> path ->
  m_holds (on_hosts (atomic_replace path b)) s (fun s' o =>
    replaced_or_kept path s s' o (eq b) /\
    (forall p, p <> path -> p <> with_extension "nettool.tmp" path -> content p s' = content p s)).
Proof.
  intros Hne. unfold m_holds, on_hosts. pose proof (atomic_replace_spec path b (world (safe_apply s)) Hne) as Hs.
  destruct (atomic_replace path b (world (safe_apply s))) as [w o]. destruct Hs as (Hp&Hc&Hf&_). simpl.
  unfold replaced_or_kept, same_system, content. simpl.
  destruct o as [[]|e|]; [| |done]; (split_and!; [done..| |exact Hf]); destruct Hc as [[Hc Ho]|Hc];
    first [done | left; by split | right; by exists b].
Qed.

(** A replacement from files like those of [s], and the answer. *)
Lemma replaced_answer {A} path b v s s1 (new : bytes -> Prop) : with_extension "nettool.tmp" path <> path ->
  same_files s s1 -> (forall b', b = b' -> new b') ->
  m_holds (let! _ := on_hosts (atomic_replace path b) in m_ret (Ok v : res A)) s1
    (fun s' o => replaced_or_kept path s s' o new).
Proof.
  intros Hne Hs Hn. eapply m_holds_bind; [by apply on_hosts_replace| |].
  - intros s' e [Hr _]. destruct (replaced_weaken path s s1 s' (Err e : res unit) _ new Hs Hn Hr) as (_&Hk&Hc).
    split; [done|]. split; [done|]. destruct Hc as [[Hc _]|Hc]; [by left|by right].
  - intros s' [] [Hr _]. destruct (replaced_weaken path s s1 s' (Ok tt : res unit) _ new Hs Hn Hr) as (_&Hk&Hc).
    apply m_holds_ret; [done|]. split; [done|]. split; [done|].
    destruct Hc as [[_ Hc]|Hc]; [by destruct (Hc tt)|by right].
Qed.

Lemma copied {A} from path (f : bytes -> A) s : with_extension "nettool.tmp" path <> path ->
  m_holds (let! b := on_hosts (file_read from) in let! _ := on_hosts (atomic_replace path b) in m_ret (Ok (f b) : res A)) s
    (fun s' o => replaced_or_kept path s s' o (fun b => content from s = Some b)).
Proof.
  intros Hne. eapply m_holds_bind; [apply on_hosts_read; by left| |].
  { intros s' e [Hs _]. by apply (replaced_early _ _ s'). }
  intros s1 b [Hs1 Hb]. apply replaced_answer; [done|done|]. intros b' <-. by apply Hb.
Qed.

(** The replacement of the section of a profile. *)
Lemma replace_outcome r s profile es (Hdry : dry_run r = false) (Hop : operation r = HostsAtomicReplace profile es)
    (Hh : with_extension "nettool.tmp" (hosts_path c) <> hosts_path c) :
  m_holds (execute r) s (fun s' o =>
    replaced_or_kept (hosts_path c) s s' o (fun b => exists old entries,
      content (hosts_path c) s = Some old /\ hosts_entries es = Ok entries /\
      replace_managed_section old profile entries = Ok b)).
Proof.
  unfold execute. rewrite Hdry, Hop. eapply m_holds_bind; [apply on_hosts_read; by right| |].
  { intros s' e [Hs _]. by apply (replaced_early _ _ s'). }
  intros s1 old [Hs1 Hold]. specialize (Hold old eq_refl).
  destruct (hosts_entries es) as [entries|e|] eqn:He; [| |by destruct (hosts_entries_total es)].
  2: { split; [done|]. by apply (replaced_early _ _ s1). }
  eapply m_holds_step; [reflexivity|]. destruct (replace_total old profile entries) as (_&Hp&_).
  destruct (replace_managed_section old profile entries) as [u|e|] eqn:Hu; [| |done].
  2: { split; [done|]. by apply (replaced_early _ _ s1). }
  eapply m_holds_step; [reflexivity|].
  eapply replaced_answer; [done|done|]. intros b <-. by exists old, entries.
Qed.

(** What the three requests that write a file do to it, whatever fails: the file is
    as it was and the request fails, or it is replaced whole, the hosts file by its
    text with the section of the profile replaced, or by the backup, and the backup by
    the hosts file. Nothing else of the system changes, and no other file than the
    one replaced and its temporary file. *)
Theorem hosts_file_atomic r s (Hdry : dry_run r = false)
    (Hh : with_extension "nettool.tmp" (hosts_path c) <> hosts_path c)
    (Hb : with_extension "nettool.tmp" (hosts_backup_path c) <> hosts_backup_path c) :
  match operation r with
  | HostsAtomicReplace profile es => m_holds (execute r) s (fun s' o =>
      replaced_or_kept (hosts_path c) s s' o (fun b => exists old entries,
        content (hosts_path c) s = Some old /\ hosts_entries es = Ok entries /\
        replace_managed_section old profile entries = Ok b))
  | HostsRestore => m_holds (execute r) s (fun s' o =>
      replaced_or_kept (hosts_path c) s s' o (fun b => content (hosts_backup_path c) s = Some b))
  | HostsBackup => m_holds (execute r) s (fun s' o =>
      replaced_or_kept (hosts_backup_path c) s s' o (fun b => content (hosts_path c) s = Some b))
  | _ => True
  end.
Proof.
  destruct (operation r) as [| | | | | |profile es| | | | | | |] eqn:Hop; try done.
  - unfold execute. rewrite Hdry, Hop. by apply copied.
  - unfold execute. rewrite Hdry, Hop. by apply copied.
  - by apply replace_outcome.
Qed.

Definition temporary (path : string) : string := with_extension "nettool.tmp" path.

Definition with_files_of (s : HelperService P K) (m : gmap string bytes) : HelperService P K :=
  {| safe_apply := with_disk (safe_apply s) {| files := m; faults := [] |}; resource_kernel := resource_kernel s |}.

(** Without faults, a valid replacement of the hosts file is written and answered,
    unless a temporary file of an earlier attempt is left: then the request fails and
    changes nothing, so that every later one fails as well. *)
Theorem hosts_replacement_outcome r s profile es old entries b
    (Hdry : dry_run r = false) (Hop : operation r = HostsAtomicReplace profile es)
    (Hq : faults (world (safe_apply s)) = []) (Hh : temporary (hosts_path c) <> hosts_path c)
    (Hdir : parent_of (hosts_path c) <> EmptyParent)
    (Hold : content (hosts_path c) s = Some old) (Hutf : utf8_valid old = true)
    (Hes : hosts_entries es = Ok entries) (Hb : replace_managed_section old profile entries = Ok b) :
  execute r s =
    match content (temporary (hosts_path c)) s with
    | None => (with_files_of s (<[hosts_path c := b]> (files (world (safe_apply s)))), Ok (Updated (len entries)))
    | Some _ => (s, Err (hosts_io_error already_exists))
    end.
Proof.
  unfold execute. rewrite Hdry, Hop. destruct s as [[m [f q] p cl] k]. unfold content in *. simpl in *. subst q.
  assert (forall A (m1 : op A) (g : A -> op (HelperResult V)) s1 s2 a, m1 s1 = (s2, Ok a) -> m_bind m1 g s1 = g a s2) as Hbind.
  { intros * E. unfold m_bind. by rewrite E. }
  erewrite Hbind.
  2: { unfold on_hosts, file_read_to_string, io_bind, file_read, next_fault. simpl. rewrite Hold, Hutf. reflexivity. }
  erewrite Hbind by (unfold m_ret; rewrite Hes; reflexivity).
  erewrite Hbind by (unfold m_ret; rewrite Hb; reflexivity). simpl.
  set (w := {| files := f; faults := [] |}).
  destruct (f !! temporary (hosts_path c)) as [stale|] eqn:Ht.
  - assert (atomic_replace (hosts_path c) b w = (w, Err already_exists)) as E.
    { unfold atomic_replace, io_bind, file_metadata, file_create_new, next_fault. simpl.
      rewrite Hold. fold (temporary (hosts_path c)). simpl. by rewrite Ht. }
    unfold m_bind, on_hosts. simpl. fold w. by rewrite E.
  - pose proof (atomic_replace_spec (hosts_path c) b w Hh) as Hs.
    destruct (atomic_replace (hosts_path c) b w) as [w' o] eqn:E.
    destruct Hs as (_&_&_&Hok). destruct Hok as [-> ->]; [done|by eexists|done|done|].
    erewrite Hbind by (unfold on_hosts; simpl; fold w; rewrite E; reflexivity).
    reflexivity.
Qed.

(** ** The running helper. *)

Section Loop.
Context {S : Type} `{HelperStream S} `{HelperJson (HelperResult V)}.
Context (policy : AuthorizationPolicy).

(** A round of the loop: a caller is served over its stream, or the watchdog ticks. *)
Inductive helper_step : relation (HelperService P K) :=
  | step_serve peer (stream : S) s : helper_step s (serve_one parse_ip peer policy (stream, s)).1.2
  | step_watchdog s : helper_step s (recover s).1.

Lemma handle_kept r s : intact (safe_apply s) -> separate (store s) ->
  (handle_request r s).2 <> None /\ intact (safe_apply (handle_request r s).1) /\
  progress (safe_apply s) (safe_apply (handle_request r s).1).
Proof.
  intros Hi Hs. destruct (execute_kept r s Hi Hs) as [Hp [Hi' Hg]]. unfold handle_request.
  by destruct (execute r s) as [s' [v|e|]].
Qed.

Lemma serve_exchanged peer (stream : S) s : intact (safe_apply s) -> separate (store s) ->
  m_holds (serve_one parse_ip peer policy) (stream, s)
    (exchanged (H := HelperService P K) parse_ip peer policy s).
Proof.
  intros Hi Hs. apply serve_one_spec. intros r _. simpl. by apply handle_kept.
Qed.

Lemma helper_step_kept s s' : intact (safe_apply s) -> separate (store s) -> helper_step s s' ->
  intact (safe_apply s') /\ progress (safe_apply s) (safe_apply s').
Proof.
  intros Hi Hs Hst. inversion Hst as [peer stream s1|s1]; subst s1 s'; clear Hst.
  - destruct (serve_exchanged peer stream s Hi Hs) as [_ [[-> _]|(r&resp&_&Hh&_)]].
    + split; [done|apply progress_refl].
    + destruct (handle_kept r s Hi Hs) as (_&Hk). simpl in Hh. by rewrite Hh in Hk.
  - by destruct (recover_kept s Hi) as [_ Hk].
Qed.

Lemma helper_steps_kept s s' : intact (safe_apply s) -> separate (store s) -> rtc helper_step s s' ->
  intact (safe_apply s') /\ progress (safe_apply s) (safe_apply s') /\ store s' = store s.
Proof.
  intros Hi Hs Hsteps. induction Hsteps as [s|s1 s2 s3 H12 H23 IH]; [by split_and!; [|apply progress_refl|]|].
  destruct (helper_step_kept _ _ Hi Hs H12) as [Hi2 Hg2].
  assert (store s2 = store s1) as Hst by apply (same_state_path _ _ Hg2).
  destruct IH as (Hi3&Hg3&Hst3); [done|by rewrite Hst|].
  split_and!; [done|by apply (progress_trans _ _ _ Hi2)|congruence].
Qed.

(** C19: However long the helper runs, whoever calls it, whatever their streams carry and
    whichever file operations fail: the transactions stay intact in memory and on disk,
    their records only advance, and no exchange panics. A caller outside the allowlist
    changes nothing and is only refused; any other exchange changes nothing, or is one
    request of that caller that passed every check, and a dry run changes nothing. *)
Theorem helper_guarded s s' (Hi : intact (safe_apply s)) (Hs : separate (store s))
    (Hsteps : rtc helper_step s s') :
  intact (safe_apply s') /\ progress (safe_apply s) (safe_apply s') /\
  forall peer (stream : S),
    let '((_, s''), o) := serve_one parse_ip peer policy (stream, s') in
    o <> Panic /\
    (peer_principal peer ∉ allowed_principals policy -> s'' = s' /\
       o = err HelperUnauthorized "helper caller is not authorized") /\
    (s'' = s' /\ o <> Ok tt \/
     exists r response, admitted parse_ip peer policy r /\ handle_request r s' = (s'', Some response) /\
       response_id response = request_id r /\ (dry_run r = true -> s'' = s')).
Proof.
  destruct (helper_steps_kept s s' Hi Hs Hsteps) as (Hi'&Hg&Hst). split_and!; [done|done|].
  intros peer stream. rewrite <- Hst in Hs.
  pose proof (refused_peer (H := HelperService P K) (Value := HelperResult V) parse_ip peer policy (stream, s')) as Href.
  destruct (serve_exchanged peer stream s' Hi' Hs) as [Hp Hx].
  destruct (serve_one parse_ip peer policy (stream, s')) as [[st s''] o]. unfold exchanged in Hx. simpl in Hp, Hx.
  split_and!; [done|intros Hn; specialize (Href Hn); by simplify_eq|].
  destruct Hx as [[-> Ho]|(r&resp&Hadm&Hh&_)]; [by left|right].
  exists r, resp. split_and!; [done|done| |]; simpl in Hh; unfold handle_request in Hh.
  - destruct (execute r s') as [s2 [v|e|]]; by simplify_eq.
  - intros Hdry. unfold execute in Hh. rewrite Hdry in Hh. cbn in Hh. by simplify_eq.
Qed.
End Loop.
End Service.

(** ** A helper on a fake system. *)

Module ServiceSample.
#[local] Existing Instance SafeApply.Sample.codec.
#[local] Existing Instance SafeApply.Sample.codec_laws.
#[local] Existing Instance SafeApply.Sample.executor.
Import FakeKernel.

Definition parse_ip (_ : string) : option IpAddr := Some (V4 3221225985).

Definition configuration : HelperConfiguration :=
  {| resources := FakeKernel.x; hosts_path := "/etc/hosts"; hosts_backup_path := "/s/hosts.backup" |}.

Abbreviation System := (HelperService SafeApply.Sample.Platform fake).
Abbreviation Answer := (HelperResult SafeApply.Sample.conf).

Definition service (m : gmap string bytes) (q : list (option nat)) : System :=
  {| safe_apply := {| SafeApply.manager := {| SafeApply.state_path := "/s/safe-apply.json";
                                              audit_path := "/s/audit.jsonl"; pending := [] |};
                      world := {| files := m; faults := q |};
                      platform := SafeApply.Sample.found; clock := [100] |};
     resource_kernel := kernel (host []) |}.

Definition disk0 : gmap string bytes := {["/etc/hosts"%string := as_bytes "a" ++ [10]]}.

Definition request (o : PrivilegedOperation) : PrivilegedRequest :=
  {| request_id := "r"; HelperProtocol.operation_id := "op"; caller_identity := {| principal := "0"; process_id := Some 7 |};
     operation := o; dry_run := false |}.

Definition lab : HelperProtocol.ManagedHostsEntry :=
  {| entry_address := "192.0.2.1"; HelperProtocol.hostname := "node.lab";
     HelperProtocol.comment := None; HelperProtocol.enabled := true |}.
Definition replace_lab : PrivilegedRequest := request (HostsAtomicReplace "lab" [lab]).
Definition lab_entry : Hosts.ManagedHostsEntry := Hosts.sample_entry "node.lab" true.
Definition with_lab : bytes :=
  as_bytes "a" ++ [10; 10] ++ lf_lines ["# BEGIN NETTOOL PROFILE lab"; "192.0.2.1 node.lab"; "# END NETTOOL PROFILE lab"].

Definition run : PrivilegedRequest -> System -> System * res Answer :=
  execute parse_ip configuration.

Definition hosts_now (s : System) : option bytes := content (hosts_path configuration) s.

Lemma service_intact : intact (safe_apply (service disk0 [])).
Proof.
  split; [by vm_compute|apply wf_nil|]. exists []. split_and!; [by vm_compute|apply wf_nil|].
  exists [], []. done.
Qed.

Lemma service_separate : separate configuration (store (service disk0 [])).
Proof. by apply (separate_layout configuration "/s"). Qed.

Lemma hosts_file_atomic_witness :
  let '(s', o) := run replace_lab (service disk0 [None; None; None; None; Some 3%nat]) in
  (forall v, o <> Ok v) /\ hosts_now s' = Some (as_bytes "a" ++ [10]).
Proof.
  pose proof (hosts_file_atomic parse_ip configuration replace_lab
    (service disk0 [None; None; None; None; Some 3%nat]) eq_refl ltac:(by vm_compute) ltac:(by vm_compute)) as H.
  destruct H as (_&_&_&[[Hc Ho]|(b&(old&es&Ho&He&Hr)&Hb)]).
  - destruct (execute _ _ _ _) as [s' o] eqn:E. unfold run. rewrite E. split; [exact Ho|exact Hc].
  - exfalso. vm_compute in Ho, He, Hb. injection Ho as <-. injection He as <-. injection Hb as <-.
    by vm_compute in Hr.
Defined.

Lemma hosts_replacement_outcome_witness :
  run replace_lab (service disk0 []) =
    (with_files_of (service disk0 []) (<["/etc/hosts"%string := with_lab]> disk0), Ok (Updated 1)).
Proof.
  unfold run. rewrite (hosts_replacement_outcome parse_ip configuration replace_lab (service disk0 []) "lab" [lab]
    (as_bytes "a" ++ [10]) [lab_entry] with_lab); by vm_compute.
Defined.

(** A write that fails leaves the temporary file, and the next request fails over it. *)
Example stale_temporary_blocks :
  let '(s1, first) := run replace_lab (service disk0 [None; None; None; None; Some 3%nat]) in
  let '(s2, second) := run replace_lab s1 in
  first = Err (hosts_io_error os_error) /\ faults (world (safe_apply s1)) = [] /\
  second = Err (hosts_io_error already_exists) /\ hosts_now s2 = hosts_now s1.
Proof. by vm_compute. Qed.

(** A restore without a backup: the empty file made at the start replaces the hosts. *)
Example restore_without_backup :
  let '(s1, made) := create_backup configuration (service disk0 []) in
  let '(s2, answer) := run (request HostsRestore) s1 in
  made = Ok tt /\ answer = Ok (HostsRestored 0) /\ hosts_now s2 = Some [].
Proof. by vm_compute. Qed.

(** A stream carries the bytes that the peer sent. *)
#[local] Instance stream : HelperStream bytes := {|
  stream_read n s := if len s <? n then (s, inl {| io_kind := UnexpectedEof; io_message := "end" |})
                     else (drop (Z.to_nat n) s, inr (take (Z.to_nat n) s));
  stream_write _ s := (s, inr tt);
  stream_flush s := (s, inr tt);
|}.

Definition wire_apply : PrivilegedWireRequest :=
  {| wire_request_id := "r"; wire_operation_id := "op"; wire_dry_run := false;
     wire_operation := NetworkApply "eth0" SafeApply.Sample.desired 10 |}.

#[local] Instance json : HelperJson Answer := {|
  request_from_slice b := if bool_decide (b = [1]) then inr wire_apply else inl "expected value"%string;
  response_to_vec _ := inr [0];
|}.

Definition policy : AuthorizationPolicy := new_policy ["1000"].
Definition peer (uid : string) : PeerCredentials := {| peer_principal := uid; peer_process_id := None |}.

Definition served (uid : string) (s : System) : bytes * System * res unit :=
  @serve_one bytes System Answer stream json (helper_handler parse_ip configuration) parse_ip
    (peer uid) policy ([0; 0; 0; 1; 1], s).

(** An allowed caller configures an interface; another one is then refused. *)
Lemma helper_guarded_witness :
  let s1 := (served "1000" (service disk0 [])).1.2 in
  memory (safe_apply s1) <> [] /\ intact (safe_apply s1) /\ (served "0" s1).1.2 = s1.
Proof.
  intros s1. split; [by vm_compute|].
  destruct (helper_guarded parse_ip configuration policy (service disk0 []) s1 service_intact service_separate)
    as (Hi&_&Hx).
  { apply rtc_once. exact (step_serve parse_ip configuration policy (peer "1000") [0; 0; 0; 1; 1] (service disk0 [])). }
  split; [exact Hi|]. specialize (Hx (peer "0") [0; 0; 0; 1; 1]).
  unfold served. destruct (serve_one _ _ _ _) as [[st s2] o]. destruct Hx as (_&Hr&_).
  exact (proj1 (Hr ltac:(by vm_compute))).
Defined.
End ServiceSample.
