(* ===== verification/Whitespace.v ===== *)
(** * White space and fields

    The string methods of the Standard Library by which the agent reads a line of text
    ([split_whitespace], [split_once]), on UTF-8, and how they commute
    with trimming. *)

From stdpp Require Import base list strings.
From Stdlib Require Import ZArith Lia Ascii.
From S2P Require Import Prelude Text.
Open Scope Z_scope.

(** [split_once] at an ASCII character. *)
Fixpoint split_once (c : Z) (bs : bytes) : option (bytes * bytes) :=
  match bs with
  | [] => None
  | b :: rest =>
      if b =? c then Some ([], rest)
      else match split_once c rest with Some (x, y) => Some (b :: x, y) | None => None end
  end.

(** [split_whitespace]; [part] is the word that has begun. *)
Definition emit (part : bytes) (ws : list bytes) : list bytes := match part with [] => ws | _ => part :: ws end.
Fixpoint words (part bs : bytes) : list bytes :=
  match bs with
  | [] => emit part []
  | a :: t0 =>
      if blank [a] then emit part (words [] t0)
      else
        match t0 with
        | [] => words (part ++ [a]) t0
        | b :: t1 =>
            if blank [a; b] then emit part (words [] t1)
            else
              match t1 with
              | [] => words (part ++ [a]) t0
              | c :: t2 => if blank [a; b; c] then emit part (words [] t2) else words (part ++ [a]) t0
              end
        end
  end.
Definition split_whitespace (bs : bytes) : list bytes := words [] bs.

(** ** How a text begins: with a white space character, or not. *)

Definition one (a : Z) : bool := ((9 <=? a) && (a <=? 13)) || (a =? 32).
Definition two (a b : Z) : bool := (a =? 0xc2) && ((b =? 0x85) || (b =? 0xa0)).
Definition three (a b c : Z) : bool :=
  ((a =? 0xe1) && (b =? 0x9a) && (c =? 0x80))
  || ((a =? 0xe2) && (b =? 0x80) && (((0x80 <=? c) && (c <=? 0x8a)) || (c =? 0xa8) || (c =? 0xa9) || (c =? 0xaf)))
  || ((a =? 0xe2) && (b =? 0x81) && (c =? 0x9f))
  || ((a =? 0xe3) && (b =? 0x80) && (c =? 0x80)).

Inductive space : bytes -> Prop :=
  | space_one a : one a = true -> space [a]
  | space_two a b : one a = false -> two a b = true -> space [a; b]
  | space_three a b c : one a = false -> two a b = false -> three a b c = true -> space [a; b; c].

Definition no_space (bs : bytes) : Prop :=
  match bs with
  | [] => False
  | a :: t0 =>
      one a = false /\
      match t0 with
      | [] => True
      | b :: t1 => two a b = false /\ match t1 with [] => True | c :: _ => three a b c = false end
      end
  end.

Inductive begins : bytes -> Prop :=
  | begins_nil : begins []
  | begins_space w rest : space w -> begins (w ++ rest)
  | begins_other bs : no_space bs -> begins bs.

Lemma begins_view bs : begins bs.
Proof.
  destruct bs as [|a t0]; [constructor|].
  destruct (one a) eqn:H1; [by apply (begins_space [a]); constructor|].
  destruct t0 as [|b t1]; [by apply begins_other|].
  destruct (two a b) eqn:H2; [by apply (begins_space [a; b]); constructor|].
  destruct t1 as [|c t2]; [by apply begins_other|].
  destruct (three a b c) eqn:H3; [by apply (begins_space [a; b; c]); constructor|by apply begins_other].
Qed.

Lemma blank_unfold bs : blank bs =
  match bs with
  | [] => true
  | a :: t0 =>
      if one a then blank t0
      else match t0 with
           | [] => false
           | b :: t1 => if two a b then blank t1
                        else match t1 with [] => false | c :: t2 => if three a b c then blank t2 else false end
           end
  end.
Proof. by destruct bs as [|a [|b [|c t]]]. Qed.

Lemma blank_three a b c : one a = false -> two a b = false -> blank [a; b; c] = three a b c.
Proof. intros H1 H2. rewrite blank_unfold, H1, H2. by destruct (three a b c). Qed.

Lemma trim_start_unfold bs : trim_start bs =
  match bs with
  | [] => []
  | a :: t0 =>
      if one a then trim_start t0
      else match t0 with
           | [] => bs
           | b :: t1 => if two a b then trim_start t1
                        else match t1 with [] => bs | c :: t2 => if three a b c then trim_start t2 else bs end
           end
  end.
Proof.
  destruct bs as [|a [|b [|c t]]]; try done. cbn [trim_start]. fold (one a). fold (two a b).
  destruct (one a) eqn:H1; [done|]. destruct (two a b) eqn:H2; [done|]. by rewrite blank_three.
Qed.

Lemma words_unfold part bs : words part bs =
  match bs with
  | [] => emit part []
  | a :: t0 =>
      if one a then emit part (words [] t0)
      else match t0 with
           | [] => words (part ++ [a]) t0
           | b :: t1 => if two a b then emit part (words [] t1)
                        else match t1 with
                             | [] => words (part ++ [a]) t0
                             | c :: t2 => if three a b c then emit part (words [] t2) else words (part ++ [a]) t0
                             end
           end
  end.
Proof.
  destruct bs as [|a t0]; [done|]. cbn [words].
  assert (blank [a] = one a) as -> by (rewrite blank_unfold; by destruct (one a)).
  destruct (one a) eqn:H1; [done|]. destruct t0 as [|b t1]; [done|].
  assert (blank [a; b] = two a b) as -> by (rewrite blank_unfold, H1; by destruct (two a b)).
  destruct (two a b) eqn:H2; [done|]. destruct t1 as [|c t2]; [done|]. by rewrite blank_three.
Qed.

(** A step over a white space character, and none over another one. *)
Lemma blank_space w rest : space w -> blank (w ++ rest) = blank rest.
Proof. intros [a H1|a b H1 H2|a b c H1 H2 H3]; cbn [app]; rewrite blank_unfold; by rewrite H1, ?H2, ?H3. Qed.
Lemma trim_start_space w rest : space w -> trim_start (w ++ rest) = trim_start rest.
Proof. intros [a H1|a b H1 H2|a b c H1 H2 H3]; cbn [app]; rewrite trim_start_unfold; by rewrite H1, ?H2, ?H3. Qed.
Lemma words_space part w rest : space w -> words part (w ++ rest) = emit part (words [] rest).
Proof. intros [a H1|a b H1 H2|a b c H1 H2 H3]; cbn [app]; rewrite words_unfold; by rewrite H1, ?H2, ?H3. Qed.

Lemma blank_other bs : no_space bs -> blank bs = false.
Proof. rewrite blank_unfold. destruct bs as [|a [|b [|c t]]]; simpl; [done|..]; intros; destruct_and?; by repeat case_match. Qed.
Lemma trim_start_other bs : no_space bs -> trim_start bs = bs.
Proof. rewrite trim_start_unfold. destruct bs as [|a [|b [|c t]]]; simpl; [done|..]; intros; destruct_and?; by repeat case_match. Qed.
Lemma words_other part a rest : no_space (a :: rest) -> words part (a :: rest) = words (part ++ [a]) rest.
Proof. rewrite words_unfold. destruct rest as [|b [|c t]]; simpl; intros; destruct_and?; by repeat case_match. Qed.

Lemma space_nonempty w rest : space w -> (length rest < length (w ++ rest))%nat.
Proof. rewrite length_app. intros []; simpl; lia. Qed.

(** Induction over a text by its white space. *)
Lemma space_split (P : bytes -> Prop) :
  P [] -> (forall w rest, space w -> P rest -> P (w ++ rest)) -> (forall bs, no_space bs -> P bs) -> forall bs, P bs.
Proof.
  intros Hn Hs Ho bs. remember (length bs) as n eqn:Hl. revert bs Hl. induction (lt_wf n) as [n _ IH]. intros bs ->.
  destruct (begins_view bs) as [|w rest Hw|bs Hb]; [done| |by apply Ho].
  apply Hs; [done|]. eapply IH; [|done]. by apply space_nonempty.
Qed.

(** *** Trimming. *)

Lemma blank_trim_start bs : blank bs = true -> trim_start bs = [].
Proof.
  induction bs as [|w rest Hw IH|bs Hb] using space_split; [done| |].
  - rewrite blank_space, trim_start_space by done. done.
  - intros Hx. by rewrite blank_other in Hx.
Qed.

Lemma trim_end_step a bs : blank (a :: bs) = false -> trim_end (a :: bs) = a :: trim_end bs.
Proof. intros H. cbn [trim_end]. by rewrite H. Qed.

Lemma blank_trim_end bs : blank bs = true -> trim_end bs = [].
Proof. destruct bs as [|a bs]; [done|]. intros H. cbn [trim_end]. by rewrite H. Qed.

(** The second and third byte of a white space character begin none. *)
Lemma middle_two a b rest : two a b = true -> no_space (b :: rest).
Proof.
  unfold two. intros H. assert (b = 0x85 \/ b = 0xa0) as [->| ->] by lia;
    destruct rest as [|x [|y t]]; by repeat split.
Qed.
Lemma middle_three a b c rest : three a b c = true -> no_space (b :: c :: rest) /\ no_space (c :: rest).
Proof.
  unfold three. intros H.
  assert ((b = 0x9a \/ b = 0x80 \/ b = 0x81) /\ 0x80 <= c <= 0xaf) as [Hb Hc] by lia. split.
  - destruct Hb as [->|[->| ->]]; destruct rest as [|x t]; by repeat split.
  - assert (forall x, two c x = false) as H2 by (intros; unfold two; lia).
    assert (forall x y, three c x y = false) as H3 by (intros; unfold three; lia).
    destruct rest as [|x [|y t]]; repeat split; try (unfold one; lia); by rewrite ?H2, ?H3.
Qed.

Lemma trim_end_space w rest : space w -> blank rest = false -> trim_end (w ++ rest) = w ++ trim_end rest.
Proof.
  intros Hw Hr. pose proof (blank_space w rest Hw) as Hb. rewrite Hr in Hb.
  destruct Hw as [a H1|a b H1 H2|a b c H1 H2 H3]; cbn [app] in *; rewrite trim_end_step by done; [done|..].
  - rewrite trim_end_step; [done|]. apply blank_other. by apply (middle_two a).
  - destruct (middle_three a b c rest H3) as [Hm1 Hm2].
    rewrite trim_end_step by (by apply blank_other). rewrite trim_end_step; [done|]. by apply blank_other.
Qed.

Lemma trim_end_other bs : no_space bs -> no_space (trim_end bs).
Proof.
  intros Hb. destruct bs as [|a bs]; [done|]. rewrite trim_end_step by (by apply blank_other).
  destruct bs as [|b bs]; [done|]. destruct Hb as [H1 [H2 H3]]. cbn [trim_end].
  destruct (blank (b :: bs)); [done|]. split; [done|]. split; [done|].
  destruct bs as [|c bs]; [done|]. cbn [trim_end]. by destruct (blank (c :: bs)).
Qed.

Lemma trim_start_end bs : trim_start (trim_end bs) = trim_end (trim_start bs).
Proof.
  induction bs as [|w rest Hw IH|bs Hb] using space_split; [done| |].
  - rewrite trim_start_space by done. destruct (blank rest) eqn:Hr.
    + rewrite (blank_trim_end (w ++ rest)), (blank_trim_start rest); [done|done|by rewrite blank_space].
    + by rewrite trim_end_space, trim_start_space.
  - rewrite (trim_start_other bs) by done. by apply trim_start_other, trim_end_other.
Qed.

Lemma blank_trim_end_same bs : blank (trim_end bs) = blank bs.
Proof.
  induction bs as [|w rest Hw IH|bs Hb] using space_split; [done| |].
  - rewrite (blank_space w rest) by done. destruct (blank rest) eqn:Hr.
    + rewrite (blank_trim_end (w ++ rest)); [done|by rewrite blank_space].
    + by rewrite trim_end_space, blank_space.
  - rewrite (blank_other bs) by done. by apply blank_other, trim_end_other.
Qed.

Lemma trim_end_twice bs : trim_end (trim_end bs) = trim_end bs.
Proof.
  induction bs as [|a bs IH]; [done|]. destruct (blank (a :: bs)) eqn:Hb; [by rewrite (blank_trim_end (a :: bs))|].
  rewrite trim_end_step by done. rewrite trim_end_step; [by rewrite IH|].
  rewrite <- (trim_end_step a bs) by done. by rewrite blank_trim_end_same.
Qed.

Lemma trim_start_twice bs : trim_start (trim_start bs) = trim_start bs.
Proof.
  induction bs as [|w rest Hw IH|bs Hb] using space_split; [done| |].
  - by rewrite (trim_start_space w rest).
  - by rewrite !(trim_start_other bs).
Qed.

Lemma trim_trim_end bs : trim (trim_end bs) = trim bs.
Proof. unfold trim. by rewrite trim_start_end, trim_end_twice. Qed.
Lemma trim_trim_start bs : trim (trim_start bs) = trim bs.
Proof. unfold trim. by rewrite trim_start_twice. Qed.
Lemma trim_twice bs : trim (trim bs) = trim bs.
Proof. unfold trim at 2. by rewrite trim_trim_end, trim_trim_start. Qed.

(** *** Visible characters. *)

Lemma visible_no_space c rest : visible c -> no_space (c :: rest).
Proof.
  unfold visible. intros Hc. split; [unfold one; lia|].
  destruct rest as [|x [|y t]]; repeat split; unfold two, three; lia.
Qed.

Lemma blank_all bs : blank bs = true -> Forall (fun c => ~ visible c) bs.
Proof.
  induction bs as [|w rest Hw IH|bs Hb] using space_split; [by constructor| |].
  - rewrite blank_space by done. intros Hr%IH. apply Forall_app. split; [|done].
    destruct Hw as [a H1|a b _ H2|a b c _ _ H3]; unfold one, two, three, visible in *; repeat constructor; lia.
  - by rewrite blank_other.
Qed.

Lemma blank_around l c rest : visible c -> blank (l ++ c :: rest) = false.
Proof.
  intros Hc. apply not_true_iff_false. intros Hb%blank_all. rewrite Forall_app, Forall_cons in Hb.
  by destruct Hb as [_ [? _]].
Qed.

Lemma trim_end_after l c rest : visible c -> trim_end (l ++ c :: rest) = l ++ c :: trim_end rest.
Proof.
  intros Hc. induction l as [|b l IH]; cbn [app].
  - apply trim_end_step. by apply (blank_around []).
  - rewrite trim_end_step by (by apply (blank_around (b :: l))). by rewrite IH.
Qed.

Lemma trim_start_before c rest : visible c -> trim_start (c :: rest) = c :: rest.
Proof. intros Hc. by apply trim_start_other, visible_no_space. Qed.

(** A carriage return at the end is trimmed. *)
Lemma blank_cr bs : blank (bs ++ [13]) = blank bs.
Proof.
  induction bs as [|w rest Hw IH|bs Hb] using space_split; [done| |].
  - by rewrite <- (assoc_L (++)), (blank_space w (rest ++ [13])), (blank_space w rest).
  - rewrite !blank_other; [done|done|].
    destruct bs as [|a [|b [|c t]]]; simpl in *; unfold one, two, three in *; destruct_and?; repeat split; lia.
Qed.

Lemma trim_end_cr bs : trim_end (bs ++ [13]) = trim_end bs.
Proof.
  induction bs as [|a bs IH]; [done|]. cbn [app trim_end]. rewrite app_comm_cons, blank_cr, IH. by destruct bs.
Qed.

Lemma trim_cr bs : trim (bs ++ [13]) = trim bs.
Proof. unfold trim. by rewrite <- trim_start_end, trim_end_cr, trim_start_end. Qed.

Lemma trim_strip_cr l : trim (strip_cr l) = trim l.
Proof.
  unfold strip_cr, ends_cr. case_bool_decide as Hl; [|done]. apply last_Some in Hl as [k ->].
  replace (length (k ++ [13%Z]) - 1)%nat with (length k) by (rewrite length_app; simpl; lia).
  by rewrite take_app_length, trim_cr.
Qed.

(** *** Words. *)

Lemma words_visible part w rest : Forall visible w -> words part (w ++ rest) = words (part ++ w) rest.
Proof.
  revert part. induction w as [|c w IH]; intros part Hw; [by rewrite app_nil_r|].
  apply Forall_cons in Hw as [Hc Hw]. cbn [app]. rewrite words_other by (by apply visible_no_space).
  rewrite IH by done. by rewrite <- (assoc_L (++)).
Qed.

Lemma words_two v w : Forall visible v -> Forall visible w -> v <> [] -> w <> [] ->
  split_whitespace (v ++ [32] ++ w) = [v; w].
Proof.
  intros Hv Hw Hnv Hnw. unfold split_whitespace. rewrite words_visible, words_space by (done || by constructor).
  rewrite <- (app_nil_r w) at 1. rewrite words_visible by done. destruct v, w; done.
Qed.

Lemma split_once_none c w : Forall (fun b => b <> c) w -> split_once c w = None.
Proof. induction 1 as [|b w Hb _ IH]; [done|]. simpl. by rewrite (proj2 (Z.eqb_neq b c)), IH. Qed.
Lemma split_once_at c w rest : Forall (fun b => b <> c) w -> split_once c (w ++ c :: rest) = Some (w, rest).
Proof.
  induction 1 as [|b w Hb _ IH]; simpl; [by rewrite Z.eqb_refl|]. by rewrite (proj2 (Z.eqb_neq b c)), IH.
Qed.

(** *** Bytes of a string. *)

Lemma of_as_bytes s : of_bytes (as_bytes s) = s.
Proof.
  induction s as [|c s IH]; [done|].
  change (of_bytes (as_bytes (String c s))) with (String (ascii_of_N (Z.to_N (byte_of_ascii c))) (of_bytes (as_bytes s))).
  unfold byte_of_ascii. by rewrite IH, N2Z.id, ascii_N_embedding.
Qed.

Lemma as_of_bytes bs : bytes_ok bs -> as_bytes (of_bytes bs) = bs.
Proof.
  induction 1 as [|b bs Hb _ IH]; [done|].
  change (as_bytes (of_bytes (b :: bs))) with (byte_of_ascii (ascii_of_N (Z.to_N b)) :: as_bytes (of_bytes bs)).
  unfold byte_of_ascii, is_byte in *. by rewrite IH, N_ascii_embedding, Z2N.id by lia.
Qed.
