(* ===== verification/ManagedHosts.v ===== *)
(** * Managed hosts entries, read back

    Model of [parse_managed_hosts] of [apps/agent/src/action_hosts.rs]: the agent reads
    the entries of a profile from the text of the hosts file, edits the list, and sends
    the helper the whole list. What the helper writes ([Hosts]) is what the agent reads,
    and the entries of other profiles stay what they were. *)

From stdpp Require Import base list sets strings.
From Stdlib Require Import ZArith Lia.
From S2P Require Import Prelude ErrorModel Text Whitespace.
From S2P Require Import Hosts HelperProtocol.
Open Scope Z_scope.

Definition DISABLED : bytes := as_bytes "# NETTOOL DISABLED ".

Section Parse.
Context (parse_ip : string -> option IpAddr).

(** The body of the loop; an empty line has no entry. *)
Definition parse_entry (line : bytes) : res (option ManagedHostsEntry) :=
  let line := trim line in
  if bool_decide (line = []) then Ok None
  else
    let '(line, enabled) :=
      match strip_prefix DISABLED line with
      | None => (line, true)
      | Some value => (trim_start value, false)
      end in
    let '(fields, comment) :=
      match split_once 35 line with
      | None => (line, None)
      | Some (value, note) => (trim_end value, Some (of_bytes (trim note)))
      end in
    match split_whitespace fields with
    | [address; hostname] =>
        match parse_ip (of_bytes address) with
        | None => hosts_error "managed hosts address is invalid"
        | Some _ => Ok (Some {| entry_address := of_bytes address; hostname := of_bytes hostname;
                                comment := comment; enabled := enabled |})
        end
    | _ => hosts_error "managed hosts entry is invalid"
    end.

Fixpoint parse_entries (ls : list bytes) : res (list ManagedHostsEntry) :=
  match ls with
  | [] => Ok []
  | l :: ls =>
      let? e := parse_entry l in
      let? es := parse_entries ls in
      Ok (match e with Some e => e :: es | None => es end)
  end.

Definition parse_lines (ls : list bytes) (profile_id : string) : res (list ManagedHostsEntry) :=
  let starts := positions (begin_marker profile_id) 0 ls in
  let ends := positions (end_marker profile_id) 0 ls in
  if (len starts =? 0) && (len ends =? 0) then Ok []
  else
    match starts, ends with
    | [start], [finish] =>
        if finish <=? start then hosts_error "managed hosts markers are out of order"
        else let? inside := slice ls (start + 1) finish in parse_entries inside
    | _, _ => hosts_error "managed hosts markers are missing or duplicated"
    end.

Definition parse_managed_hosts (content : bytes) (profile_id : string) : res (list ManagedHostsEntry) :=
  parse_lines (lines content) profile_id.

(** ** The line of an entry. *)

(** An entry as the hosts file keeps it. *)
Definition stored (e : Hosts.ManagedHostsEntry) : ManagedHostsEntry :=
  {| entry_address := ip_to_string (Hosts.address e); hostname := Hosts.hostname e;
     comment := (fun c => of_bytes (trim (as_bytes c))) <$> Hosts.comment e; enabled := Hosts.enabled e |}.

(** [IpAddr]'s [FromStr] reads what its [Display] writes. *)
Definition reads_back (a : IpAddr) : Prop := parse_ip (ip_to_string a) = Some a.

Lemma hostname_visible e : Hosts.validate_entry e = Ok tt ->
  Forall (fun b => visible b /\ b <> 35) (as_bytes (Hosts.hostname e)) /\ as_bytes (Hosts.hostname e) <> [].
Proof.
  unfold Hosts.validate_entry. destruct (_ || _) eqn:Hh; [done|]. intros _.
  apply orb_false_iff in Hh as [[Hne _]%orb_false_iff Hh%negb_false_iff].
  split; [|by apply bool_decide_eq_false in Hne]. apply Forall_forall. intros b Hb.
  rewrite forallb_forall in Hh. specialize (Hh b ltac:(by apply list_elem_of_In)).
  unfold visible, is_alphanumeric in *. lia.
Qed.

Lemma address_visible a : Forall (fun b => visible b /\ b <> 35) (as_bytes (ip_to_string a)).
Proof. eapply Forall_impl; [apply ip_chars|]. unfold ip_char, visible. lia. Qed.

(** A list that ends with a visible character. *)
Lemma trim_end_word w rest : Forall visible w -> w <> [] -> trim_end (w ++ rest) = w ++ trim_end rest.
Proof.
  intros Hw Hne. destruct w as [|c w _] using rev_ind; [done|].
  apply Forall_app in Hw as [_ [Hc _]%Forall_cons]. rewrite <- !(assoc_L (++)). by apply trim_end_after.
Qed.

Lemma Forall_visible (P : Z -> Prop) w : Forall (fun b => visible b /\ P b) w -> Forall visible w.
Proof. intros H. eapply Forall_impl; [exact H|]. by intros b []. Qed.

Lemma trim_blank_first x : trim (32 :: x) = trim x.
Proof. unfold trim. f_equal. Qed.

Definition note (c : option string) : bytes := match c with None => [] | Some c => as_bytes " # " ++ as_bytes c end.

(** What a line says from its address on. *)
Definition fields_of (line : bytes) : bytes * option string :=
  match split_once 35 line with
  | None => (line, None)
  | Some (value, note) => (trim_end value, Some (of_bytes (trim note)))
  end.

Lemma fields_line w c : Forall (fun b => b <> 35) w -> trim_end (w ++ [32]) = w ->
  fields_of (w ++ trim_end (note c)) = (w, (fun c => of_bytes (trim (as_bytes c))) <$> c).
Proof.
  intros Hw Hend. unfold fields_of. destruct c as [c|]; cbn [note].
  - change (as_bytes " # ") with [32; 35; 32]. cbn [app].
    assert (trim_end (32 :: 35 :: 32 :: as_bytes c) = 32 :: 35 :: trim_end (32 :: as_bytes c)) as ->
      by (apply (trim_end_after [32] 35); unfold visible; lia).
    replace (w ++ 32 :: 35 :: trim_end (32 :: as_bytes c)) with ((w ++ [32]) ++ 35 :: trim_end (32 :: as_bytes c))
      by (by rewrite <- (assoc_L (++))).
    rewrite split_once_at by (apply Forall_app; split; [done|by repeat constructor]).
    by rewrite Hend, trim_trim_end, trim_blank_first.
  - by rewrite app_nil_r, split_once_none.
Qed.

(** The fields of an entry, which its line has before the comment. *)
Definition core (e : Hosts.ManagedHostsEntry) : bytes :=
  as_bytes (ip_to_string (Hosts.address e)) ++ [32] ++ as_bytes (Hosts.hostname e).

Lemma core_facts e : Hosts.validate_entry e = Ok tt ->
  Forall (fun b => b <> 35) (core e) /\ split_whitespace (core e) =
    [as_bytes (ip_to_string (Hosts.address e)); as_bytes (Hosts.hostname e)] /\
  (exists c rest, core e = c :: rest /\ visible c /\ c <> 35) /\ exists rest c, core e = rest ++ [c] /\ visible c.
Proof.
  intros Hv. destruct (hostname_visible e Hv) as [Hh Hhne].
  pose proof (address_visible (Hosts.address e)) as Ha. pose proof (ip_nonempty (Hosts.address e)) as Hane.
  unfold core. set (A := as_bytes (ip_to_string (Hosts.address e))) in *. set (H := as_bytes (Hosts.hostname e)) in *.
  split_and!.
  - rewrite !Forall_app. split_and!; [by eapply Forall_impl; [exact Ha|intros b []]|by repeat constructor|].
    by eapply Forall_impl; [exact Hh|intros b []].
  - apply words_two; [by apply (Forall_visible (fun b => b <> 35))..|done|done].
  - destruct A as [|a A]; [done|]. apply Forall_cons in Ha as [[] _]. by exists a, (A ++ [32] ++ H).
  - destruct H as [|h H _] using rev_ind; [done|]. apply Forall_app in Hh as [_ [[] _]%Forall_cons].
    exists (A ++ [32] ++ H), h. by rewrite <- !(assoc_L (++)).
Qed.

Lemma trim_core p e c rest l : Hosts.validate_entry e = Ok tt -> p ++ core e = c :: rest -> visible c ->
  trim (p ++ core e ++ l) = p ++ core e ++ trim_end l.
Proof.
  intros Hv Hp Hc. destruct (core_facts e Hv) as (_&_&_&q&d&Hq&Hd). unfold trim.
  rewrite (assoc_L (++)), Hp. cbn [app]. rewrite trim_start_before by done.
  rewrite app_comm_cons, <- Hp, Hq, <- !(assoc_L (++)), (assoc_L (++) p). cbn [app].
  by rewrite trim_end_after, <- (assoc_L (++)).
Qed.

Lemma parse_entry_line e : Hosts.validate_entry e = Ok tt -> reads_back (Hosts.address e) ->
  parse_entry (entry_line e) = Ok (Some (stored e)).
Proof.
  intros Hv Hip. destruct (core_facts e Hv) as (Hno&Hwords&(c&rest&Hc&Hvc&Hc35)&q&d&Hq&Hd).
  assert (entry_line e = (if Hosts.enabled e then [] else DISABLED) ++ core e ++ note (Hosts.comment e)) as ->.
  { unfold entry_line, core, note, DISABLED. rewrite <- !(assoc_L (++)). by destruct (Hosts.enabled e). }
  assert (trim_end (core e ++ [32]) = core e) as Hend by (rewrite Hq, <- (assoc_L (++)); cbn [app]; by rewrite trim_end_after).
  pose proof (fields_line (core e) (Hosts.comment e) Hno Hend) as Hf.
  unfold parse_entry. set (line := core e ++ trim_end (note (Hosts.comment e))) in *.
  assert (exists l, line = c :: l) as [l Hl] by (unfold line; rewrite Hc; by eexists).
  assert (trim ((if Hosts.enabled e then [] else DISABLED) ++ core e ++ note (Hosts.comment e)) =
    (if Hosts.enabled e then [] else DISABLED) ++ line) as ->.
  { unfold line. destruct (Hosts.enabled e).
    - apply (trim_core [] e c rest); done.
    - eapply (trim_core DISABLED e 35); [done|reflexivity|unfold visible; lia]. }
  rewrite bool_decide_false by (rewrite Hl; by destruct (Hosts.enabled e)).
  assert ((match strip_prefix DISABLED ((if Hosts.enabled e then [] else DISABLED) ++ line) with
           | None => ((if Hosts.enabled e then [] else DISABLED) ++ line, true)
           | Some value => (trim_start value, false)
           end) = (line, Hosts.enabled e)) as ->.
  { destruct (Hosts.enabled e).
    - cbn [app]. destruct (strip_prefix DISABLED line) as [t|] eqn:Hs; [|done].
      apply strip_prefix_some in Hs. rewrite Hl in Hs. by injection Hs as -> _.
    - by rewrite strip_prefix_app, Hl, trim_start_before. }
  fold (fields_of line). rewrite Hf, Hwords, !of_as_bytes, Hip. done.
Qed.

(** ** The entries that some lines hold for a profile. *)

Inductive managed (id : string) (ls : list bytes) : list ManagedHostsEntry -> Prop :=
  | managed_none : Forall (free id) ls -> managed id ls []
  | managed_some before first inside last after es :
      ls = before ++ first :: inside ++ last :: after ->
      trim first = begin_marker id -> trim last = end_marker id ->
      Forall (free id) before -> Forall (free id) inside -> Forall (free id) after ->
      parse_entries inside = Ok es -> managed id ls es.

Lemma managed_parsed id ls es : managed id ls es -> parse_lines ls id = Ok es.
Proof.
  unfold parse_lines. intros [[Hb He]%free_both|before first inside last after es' -> Hf Hl Hb Hi Ha Hes].
  - by rewrite (proj2 (positions_none _ 0 ls) Hb), (proj2 (positions_none _ 0 ls) He).
  - destruct (positions_placed id before first inside last after Hf Hl Hb Hi Ha) as [-> ->]. cbn [len length].
    pose proof (len_nonneg inside).
    replace (len before + 1 + len inside <=? len before) with false by lia.
    change (len [len before] =? 0) with false. cbv iota. cbn [andb].
    assert (slice (E := NetToolError) (before ++ first :: inside ++ last :: after) (len before + 1) (len before + 1 + len inside)
      = Ok inside) as -> by apply inside_slice. done.
Qed.

Lemma parsed_managed id ls es : parse_lines ls id = Ok es -> managed id ls es.
Proof.
  unfold parse_lines. destruct (positions (begin_marker id) 0 ls) as [|i [|j l]] eqn:Hb;
    destruct (positions (end_marker id) 0 ls) as [|k [|k' l']] eqn:He; try done.
  - intros [= <-]. apply managed_none, free_both. split; by apply (positions_none _ 0).
  - change (len [i] =? 0) with false. cbn [andb]. destruct (Z.leb_spec k i) as [Hki|Hik]; [done|].
    destruct (markers_between id ls i k Hb He ltac:(lia)) as (pre&l1&mid&l2&post&->&H1&H2&->&->&Hpre&Hmid&Hpost).
    assert (slice (E := NetToolError) (pre ++ l1 :: mid ++ l2 :: post) (len pre + 1) (len pre + 1 + len mid)
      = Ok mid) as -> by apply inside_slice.
    cbn [obind]. intros Hes. by eapply managed_some.
Qed.

(** Only the trimmed lines matter, and empty lines at the end do not. *)
Definition same_line (l l' : bytes) : Prop := trim l = trim l'.

Lemma free_same id ls ls' : Forall2 same_line ls ls' -> Forall (free id) ls -> Forall (free id) ls'.
Proof.
  induction 1 as [|l l' ls ls' Hl _ IH]; [done|]. intros [Hf Hr]%Forall_cons. constructor; [|by apply IH].
  unfold free in *. by rewrite <- Hl.
Qed.

Lemma parse_entries_same ls ls' : Forall2 same_line ls ls' -> parse_entries ls' = parse_entries ls.
Proof.
  induction 1 as [|l l' ls ls' Hl _ IH]; [done|]. simpl. rewrite IH. unfold parse_entry. by rewrite Hl.
Qed.

Lemma managed_same id ls ls' es : Forall2 same_line ls ls' -> managed id ls es -> managed id ls' es.
Proof.
  intros Hs [Hf|before first inside last after es' -> Hf Hl Hb Hi Ha Hes]; [by apply managed_none, (free_same id ls)|].
  apply Forall2_app_inv_l in Hs as (b'&r'&Hb'&Hr'&->). apply Forall2_cons_inv_l in Hr' as (f'&r1&Hf'&Hr'&->).
  apply Forall2_app_inv_l in Hr' as (i'&r2&Hi'&Hr'&->). apply Forall2_cons_inv_l in Hr' as (l'&a'&Hl'&Ha'&->).
  eapply managed_some; [done|by rewrite <- Hf'|by rewrite <- Hl'|by eapply free_same..|].
  by rewrite (parse_entries_same inside i').
Qed.

Lemma blank_free id k : Forall (free id) (replicate k []).
Proof. apply Forall_replicate. by split. Qed.

Lemma managed_appended id ls x es : Forall (free id) x -> managed id ls es -> managed id (ls ++ x) es.
Proof.
  intros Hx [Hf|before first inside last after es' -> Hf Hl Hb Hi Ha Hes].
  - apply managed_none, Forall_app. by split.
  - eapply (managed_some _ _ before first inside last (after ++ x)); try done.
    + rewrite <- (assoc_L (++)). cbn [app]. by rewrite <- (assoc_L (++)).
    + apply Forall_app. by split.
Qed.

(** *** An appended newline. *)

Lemma lines_newline x crlf : exists ls k, Forall2 same_line (lines x) ls /\
  lines (x ++ newline_of crlf) = ls ++ replicate k [].
Proof.
  destruct (cut_spec x) as (Hx&Hls&Hr). destruct (cut x) as [ls r] eqn:Hcut. simpl in *.
  set (cr := if crlf then [13] else []).
  assert (cut (x ++ newline_of crlf) = (ls ++ [r ++ cr], [])) as Hc.
  { rewrite Hx. replace (terminated ls r ++ newline_of crlf) with (terminated (ls ++ [r ++ cr]) []).
    - apply cut_terminated; [|by apply not_elem_of_nil]. apply Forall_app. split; [done|]. apply Forall_singleton.
      unfold one_line in *. rewrite elem_of_app. subst cr. intros [?|Hin]; [done|]. destruct crlf; [|by apply elem_of_nil in Hin].
      by apply list_elem_of_singleton in Hin.
    - unfold terminated, newline_of. fold cr. rewrite map_app, join_app. simpl. by rewrite !app_nil_r, <- !(assoc_L (++)). }
  unfold lines. rewrite Hcut, Hc. rewrite app_nil_r, map_app. cbn [map].
  assert (Forall2 same_line (map strip_cr ls) (map strip_cr ls)) as Hrefl by (by apply Forall_Forall2_diag, Forall_true).
  destruct r as [|c r].
  - exists (map strip_cr ls), 1%nat. rewrite app_nil_r. split; [done|]. f_equal. subst cr. by destruct crlf.
  - exists (map strip_cr ls ++ [strip_cr ((c :: r) ++ cr)]), 0%nat. split; [|by rewrite app_nil_r].
    apply Forall2_app; [done|]. constructor; [|constructor]. unfold same_line. rewrite trim_strip_cr. subst cr.
    destruct crlf; [by rewrite trim_cr|by rewrite app_nil_r].
Qed.

(** What holds of lines up to trimming and empty lines at the end holds after a gap. *)
Lemma lines_gap (P : list bytes -> Prop) x crlf gap :
  gap ∈ [[]; newline_of crlf; newline_of crlf ++ newline_of crlf] ->
  (forall ls ls', Forall2 same_line ls ls' -> P ls -> P ls') -> (forall ls k, P ls -> P (ls ++ replicate k [])) ->
  P (lines x) -> P (lines (x ++ gap)).
Proof.
  intros Hgap Hsame Hblank Hx.
  assert (forall y, P (lines y) -> P (lines (y ++ newline_of crlf))) as Hone.
  { intros y Hy. destruct (lines_newline y crlf) as (ls&k&Hs&->). by eapply Hblank, Hsame. }
  rewrite !elem_of_cons, elem_of_nil in Hgap. destruct Hgap as [->|[->|[->|[]]]].
  - by rewrite app_nil_r.
  - by apply Hone.
  - rewrite (assoc_L (++)). by apply Hone, Hone.
Qed.

(** *** The section of another profile. *)

Lemma split_cons {A} (x u v y : list A) f : x ++ f :: y = u ++ v ->
  (exists t, u = x ++ f :: t /\ y = t ++ v) \/ (exists t, x = u ++ t /\ v = t ++ f :: y).
Proof.
  intros [[t [-> ->]]|[t [-> Ht]]]%app_eq_inv; [right; by exists t|].
  destruct t as [|g t]; simpl in Ht; [right; exists []; by rewrite !app_nil_r|].
  injection Ht as <- ->. left. by exists t.
Qed.

Lemma parse_entries_bad x m y es : (forall e, parse_entry m <> Ok e) -> parse_entries (x ++ m :: y) <> Ok es.
Proof.
  intros Hm. revert es. induction x as [|l x IH]; intros es; simpl.
  - specialize (Hm) as Hm'. destruct (parse_entry m) as [e| |]; [by destruct (Hm' e)|done..].
  - destruct (parse_entry l) as [e| |]; simpl; [|done..].
    destruct (parse_entries (x ++ m :: y)) as [es'| |] eqn:Hes; simpl; [by destruct (IH es')|done..].
Qed.

Lemma marker_no_entry id l e : trim l = begin_marker id -> parse_entry l <> Ok e.
Proof.
  intros Hl. unfold parse_entry. rewrite Hl.
  change (begin_marker id) with (35 :: 32 :: 66 :: (as_bytes "EGIN NETTOOL PROFILE " ++ as_bytes id)).
  rewrite bool_decide_false by done.
  change (strip_prefix DISABLED (35 :: 32 :: 66 :: (as_bytes "EGIN NETTOOL PROFILE " ++ as_bytes id))) with (@None bytes).
  cbv iota. cbn [split_once]. by rewrite Z.eqb_refl.
Qed.

(** Lines that begin with the marker of a section and hold no begin marker of the profile
    [id] may be exchanged for lines that are free of it. *)
Lemma managed_exchange id before m mid mid' after es :
  (forall e, parse_entry m <> Ok e) -> trim m <> end_marker id ->
  Forall (fun l => trim l <> begin_marker id) (m :: mid) -> Forall (free id) mid' ->
  managed id (before ++ (m :: mid) ++ after) es -> managed id (before ++ mid' ++ after) es.
Proof.
  intros Hm Hend Hno Hfree [Hf|b f i l a es' Heq Hf Hl Hb Hi Ha Hes].
  - rewrite !Forall_app in Hf. apply managed_none. rewrite !Forall_app. tauto.
  - symmetry in Heq. apply split_cons in Heq as [(t&->&Heq)|(t&->&Heq)].
    + apply split_cons in Heq as [(t2&->&->)|(t2&->&Heq)].
      * rewrite !Forall_app in Ha. eapply (managed_some _ _ b f i l (t2 ++ mid' ++ after)); try done.
        { by rewrite <- !(assoc_L (++)); cbn [app]; rewrite <- !(assoc_L (++)). }
        rewrite !Forall_app. tauto.
      * destruct t2 as [|x t2]; cbn [app] in Heq; injection Heq as Hx _; subst; [by destruct Hend|].
        by destruct (parse_entries_bad t x t2 es' Hm).
    + symmetry in Heq. apply split_cons in Heq as [(t2&Heq&_)|(t2&->&->)].
      * assert (f ∈ m :: mid) as Hin by (rewrite Heq; apply elem_of_app; right; by left).
        rewrite Forall_forall in Hno. by destruct (Hno f Hin).
      * rewrite !Forall_app in Hb. eapply (managed_some _ _ (before ++ mid' ++ t2) f i l a); try done.
        { by rewrite <- !(assoc_L (++)). }
        rewrite !Forall_app. tauto.
Qed.

(** ** What is written is read back. *)

Lemma entries_free id es : Forall (free id) (map entry_line es).
Proof.
  apply Forall_fmap, Forall_true. intros e. split; intros Ht.
  - by apply (entry_no_marker e 66 (as_bytes "EGIN NETTOOL PROFILE " ++ as_bytes id)).
  - by apply (entry_no_marker e 69 (as_bytes "ND NETTOOL PROFILE " ++ as_bytes id)).
Qed.

Lemma begin_marker_inj id id' : begin_marker id = begin_marker id' -> id = id'.
Proof. intros H%app_inv_head. by apply as_bytes_inj. Qed.
Lemma end_marker_inj id id' : end_marker id = end_marker id' -> id = id'.
Proof. intros H%app_inv_head. by apply as_bytes_inj. Qed.

Lemma section_free id id' es : id' <> id -> valid_section id es -> Forall (free id') (section_of id es).
Proof.
  intros Hne [Hid _]. destruct (begin_facts id Hid) as [_ Hb]. destruct (end_facts id Hid) as (_&He&_).
  unfold section_of, section. rewrite Forall_cons, Forall_app, Forall_singleton. split_and!; [|apply entries_free|].
  - split; rewrite Hb; [|apply markers_differ]. intros H%begin_marker_inj. by destruct Hne.
  - split; rewrite He; [intros H; by destruct (markers_differ id' id)|]. intros H%end_marker_inj. by destruct Hne.
Qed.

Lemma parse_entry_lines es : Forall (fun e => Hosts.validate_entry e = Ok tt) es ->
  Forall (fun e => reads_back (Hosts.address e)) es -> parse_entries (map entry_line es) = Ok (map stored es).
Proof.
  induction 1 as [|e es He _ IH]; [done|]. intros [Hip Hips]%Forall_cons. simpl. by rewrite parse_entry_line, IH.
Qed.

Lemma section_managed id es before after : valid_section id es -> Forall (fun e => reads_back (Hosts.address e)) es ->
  Forall (free id) before -> Forall (free id) after ->
  managed id (before ++ section_of id es ++ after) (map stored es).
Proof.
  intros [Hid Hes] Hip Hb Ha. destruct (begin_facts id Hid) as [_ Hbt]. destruct (end_facts id Hid) as (_&Het&_).
  eapply (managed_some _ _ before (begin_marker id) (map entry_line es) (end_marker id) after);
    try done; [|apply entries_free|by apply parse_entry_lines].
  unfold section_of, section. cbn [app]. by rewrite <- (assoc_L (++)).
Qed.

Lemma written_read existing id es r (Hr : replace_managed_section existing id es = Ok r)
    (Hip : Forall (fun e => reads_back (Hosts.address e)) es) :
  parse_managed_hosts r id = Ok (map stored es) /\
  forall id' l, id' <> id -> parse_managed_hosts existing id' = Ok l -> parse_managed_hosts r id' = Ok l.
Proof.
  destruct (hosts_replaced existing id es) as (_&Hok&Hall). destruct (Hok r Hr) as [Hv [p Hp]].
  destruct (Hall p Hv Hp) as (r'&Hr'&Hlines). rewrite Hr in Hr'. injection Hr' as <-.
  unfold parse_managed_hosts. inversion Hp as [Hf|before first inside last after Hls H1 H2 Hb Hi Ha Hn]; subst p.
  - destruct Hlines as (gap&tail&_&Hgap&->).
    assert (forall id' ls ls', Forall2 same_line ls ls' -> Forall (free id') ls -> Forall (free id') ls') as Hsame
      by (intros; by eapply free_same).
    split.
    + apply managed_parsed. rewrite <- (app_nil_r (section_of id es)). apply section_managed; [done|done| |done].
      apply (lines_gap (Forall (free id)) existing _ gap Hgap); [apply Hsame| |done].
      intros ls k Hk. apply Forall_app. split; [done|apply blank_free].
    + intros id' l Hne Hl%parsed_managed. apply managed_parsed, managed_appended; [by apply section_free|].
      apply (lines_gap (fun ls => managed id' ls l) existing _ gap Hgap); [|  |done].
      * intros ls ls'. apply managed_same.
      * intros ls k. apply managed_appended, blank_free.
  - destruct Hlines as (->&_&_). split; [by apply managed_parsed, section_managed|].
    intros id' l Hne Hl%parsed_managed. apply managed_parsed.
    apply (managed_exchange id' before first (inside ++ [last])).
    + intros e. by apply (marker_no_entry id).
    + rewrite H1. apply markers_differ.
    + rewrite Forall_cons, Forall_app, Forall_singleton. split_and!.
      * rewrite H1. intros H%begin_marker_inj. by destruct Hne.
      * eapply Forall_impl; [exact Hn|]. intros l' Hl' Ht. unfold nested in Hl'. rewrite Ht in Hl'.
        rewrite (proj2 (starts_with_spec BEGIN_MARKER (begin_marker id'))) in Hl'; [done|by eexists].
      * rewrite H2. intros H. by destruct (markers_differ id' id).
    + by apply section_free.
    + rewrite Hls in Hl. cbn [app]. rewrite <- (assoc_L (++)). done.
Qed.

(** C26: After a replacement, the agent reads from the hosts file exactly the entries that
    were written for the profile, in their order, with their comments trimmed; and what it
    read for any other profile before, it reads again. *)
Theorem hosts_managed_exact existing id es r (Hr : replace_managed_section existing id es = Ok r)
    (Hip : Forall (fun e => reads_back (Hosts.address e)) es) :
  parse_managed_hosts r id = Ok (map stored es) /\
  forall id' l, id' <> id -> parse_managed_hosts existing id' = Ok l -> parse_managed_hosts r id' = Ok l.
Proof. by apply written_read. Qed.
End Parse.

Definition two_profiles : bytes :=
  lf_lines ["127.0.0.1 localhost"; "# BEGIN NETTOOL PROFILE lab"; "192.0.2.9 old.lab # gone"; "# END NETTOOL PROFILE lab";
            "  # BEGIN NETTOOL PROFILE home "; "# NETTOOL DISABLED 192.0.2.1 nas # x#y "; ""; "# END NETTOOL PROFILE home"].
Definition nas : HelperProtocol.ManagedHostsEntry :=
  {| entry_address := "192.0.2.1"; hostname := "nas"; comment := Some "x#y"%string; enabled := false |}.
Definition one_ip (_ : string) : option IpAddr := Some (V4 3221225985).
Definition new_lab : Hosts.ManagedHostsEntry :=
  {| Hosts.address := V4 3221225985; Hosts.hostname := "new.lab"; Hosts.comment := Some "  new "%string; Hosts.enabled := true |}.

Lemma hosts_managed_exact_witness : exists r,
  replace_managed_section two_profiles "lab" [new_lab] = Ok r /\
  parse_managed_hosts one_ip r "lab" = Ok [stored new_lab] /\ parse_managed_hosts one_ip r "home" = Ok [nas].
Proof.
  eexists. split; [vm_compute; reflexivity|].
  destruct (hosts_managed_exact one_ip two_profiles "lab" [new_lab] _ ltac:(vm_compute; reflexivity)
    ltac:(repeat constructor)) as [H1 H2].
  split; [exact H1|]. apply H2; [discriminate|vm_compute; reflexivity].
Defined.

(** A remark of a user inside the section cannot be read. *)
Example remark_in_section :
  parse_managed_hosts one_ip (lf_lines ["# BEGIN NETTOOL PROFILE lab"; "# mine"; "# END NETTOOL PROFILE lab"]) "lab" =
  err InvalidArgument "managed hosts entry is invalid".
Proof. by vm_compute. Qed.
