(* ===== verification/AgentHelper.v ===== *)
(** * The agent's requests to the privileged helper

    Model of [apps/agent/src/action_helper.rs]: one call of the helper over a fresh
    connection, and the requests that configure an address, DHCP or name servers. The
    connection, [serde_json] and the random generator are interfaces. *)

From stdpp Require Import base list strings gmap.
From Stdlib Require Import ZArith Lia.
From S2P Require Import Prelude ErrorModel HelperProtocol HelperServer.
Open Scope Z_scope.

(** An operation with a time limit either fails or runs out of time. *)
Inductive CallFault := TimedOut | Failed (detail : string).

(** The agent's side: [NETTOOL_HELPER_SOCKET], the connection to that socket, and
    [random_session_id]. A read of [n] bytes gives [n] bytes or fails. *)
Class HelperConnection (S : Type) := {
  helper_socket : S -> option string;
  connect_helper : string -> S -> S * (CallFault + unit);
  new_session_id : S -> S * res bytes;
  call_write : bytes -> S -> S * (string + unit);
  call_flush : S -> S * (string + unit);
  call_read_timed : Z -> S -> S * (CallFault + bytes);
  call_read : Z -> S -> S * (string + bytes);
}.

Class AgentJson (Value : Type) := {
  request_to_vec : PrivilegedWireRequest -> string + bytes;
  response_from_slice : bytes -> string + PrivilegedResponse Value;
}.

Definition transport {A} (m : string) : res A := Err (new_error HelperTransportFailed m true).

Section Call.
Context {S Value : Type} `{HelperConnection S} `{AgentJson Value}.
Context (parse_ip : string -> option IpAddr).

Definition configured_helper_socket_from (path : option string) : res string :=
  match path with
  | Some p => if bool_decide (p = ""%string) then err HelperNotConfigured "privileged helper socket is not configured" else Ok p
  | None => err HelperNotConfigured "privileged helper socket is not configured"
  end.

Definition configured_helper_socket : method S string := fun s => (s, configured_helper_socket_from (helper_socket s)).

Definition called {A} (what : string) (f : S -> S * (string + A)) : method S A := fun s =>
  let '(s, o) := f s in
  (s, match o with inr a => Ok a | inl m => transport (what +:+ " failed: " +:+ m) end).

(** The connection, with its two messages. *)
Definition connected : string -> method S unit := fun path s =>
  let '(s, o) := connect_helper path s in
  (s, match o with
      | inr _ => Ok tt
      | inl TimedOut => transport "helper connect timed out"
      | inl (Failed m) => transport ("helper connect failed: " +:+ m)
      end).
Definition response_length : method S bytes := fun s =>
  let '(s, o) := call_read_timed 4 s in
  (s, match o with
      | inr b => Ok b
      | inl TimedOut => transport "helper response timed out"
      | inl (Failed m) => transport ("helper response length failed: " +:+ m)
      end).

(** What a response says to the request of this ID. *)
Definition response_value (id : string) (r : PrivilegedResponse Value) : res Value :=
  if negb (bool_decide (response_id r = id)) then err ProtocolInvalid "helper response request ID mismatch"
  else
    match response_error r with
    | Some e => Err (new_error HelperExecutionFailed (error_message e) (error_retryable e))
    | None =>
        match result r with
        | Some v => Ok v
        | None => err HelperExecutionFailed "helper response has no result"
        end
    end.

Definition helper_call (operation_id : string) (operation : PrivilegedOperation) (dry_run : bool) : method S Value :=
  if trimmed_empty operation_id then m_ret (err InvalidArgument "helper operation ID must not be empty")
  else
    let! _ := m_ret (match validate_operation parse_ip operation with
                     | Ok _ => Ok tt
                     | Err m => err InvalidArgument m
                     | Panic => Panic
                     end) in
    let! path := configured_helper_socket in
    let! _ := connected path in
    let! session := new_session_id in
    let request_id := ("agent-" +:+ hex session)%string in
    let request := {| wire_request_id := request_id; wire_operation_id := operation_id;
                      wire_operation := operation; wire_dry_run := dry_run |} in
    let! bs := m_ret (match request_to_vec request with
                      | inr bs => Ok bs
                      | inl m => err ProtocolInvalid ("helper request cannot be encoded: " +:+ m)
                      end) in
    if 1048576 <? len bs then m_ret (err ControlFrameTooLarge "helper request exceeds frame limit")
    else
      let! _ := called "helper request length" (call_write (to_be_bytes 4 (if len bs <=? umax 32 then len bs else umax 32))) in
      let! _ := called "helper request" (call_write bs) in
      let! _ := called "helper request flush" call_flush in
      let! field := response_length in
      let length := from_be_bytes field in
      if (length =? 0) || (1048576 <? length) then m_ret (err ControlFrameTooLarge "helper response length is invalid")
      else
        let! response_bytes := called "helper response" (call_read length) in
        let! response := m_ret (match response_from_slice response_bytes with
                                | inr r => Ok r
                                | inl m => err ProtocolInvalid ("helper response is invalid: " +:+ m)
                                end) in
        m_ret (response_value request_id response).
End Call.

(** ** Requests on the network. *)

Record IpSetPayload := {
  set_interface_id : string; set_address : string; set_prefix_length : Z;
  set_gateway : option string; set_confirm_timeout_seconds : option Z;
}.
Record IpDhcpPayload := { dhcp_interface_id : string; dhcp_confirm_timeout_seconds : option Z }.
Record DnsSetPayload := {
  dns_interface_id : string; dns_servers : list string; dns_confirm_timeout_seconds : option Z;
}.

Class NetworkPayloads := {
  ip_set_from_slice : bytes -> string + IpSetPayload;
  ip_dhcp_from_slice : bytes -> string + IpDhcpPayload;
  dns_set_from_slice : bytes -> string + DnsSetPayload;
}.

Definition automatic_dns : DnsConfiguration := {| dns_automatic := true; servers := []; search_domains := [] |}.
Definition or_sixty (t : option Z) : Z := match t with Some t => t | None => 60 end.
Definition payload_of {A} (what : string) (o : string + A) : res A :=
  match o with inr a => Ok a | inl m => err InvalidArgument ("invalid " +:+ what +:+ " payload: " +:+ m) end.

Section Network.
Context (parse_ip : string -> option IpAddr).

Definition ip_set_operation (q : IpSetPayload) : res PrivilegedOperation :=
  match parse_ip (set_address q) with
  | None => err InvalidArgument "IP address is invalid"
  | Some address =>
      let? gateway :=
        match set_gateway q with
        | None => Ok None
        | Some g => match parse_ip g with
                    | Some a => Ok (Some a)
                    | None => err InvalidArgument "gateway address is invalid"
                    end
        end in
      if match gateway with Some g => negb (Bool.eqb (is_ipv4 g) (is_ipv4 address)) | None => false end
      then err InvalidArgument "gateway address family does not match IP address"
      else
        let prefix := {| prefix_address := address; prefix_length := set_prefix_length q |} in
        let '(v4, v6, destination) :=
          if is_ipv4 address
          then (StaticV4 [prefix], Automatic, {| prefix_address := V4 0; prefix_length := 0 |})
          else (Dhcp, StaticV6 [prefix], {| prefix_address := V6 0; prefix_length := 0 |}) in
        Ok (NetworkApply (set_interface_id q)
              {| ipv4 := v4; ipv6 := v6; dns := automatic_dns;
                 routes := match set_gateway q with
                           | Some _ => [{| route_destination := destination; gateway := gateway; metric := None |}]
                           | None => []
                           end;
                 mtu := None |} (or_sixty (set_confirm_timeout_seconds q)))
  end.

Definition ip_dhcp_operation (q : IpDhcpPayload) : PrivilegedOperation :=
  NetworkApply (dhcp_interface_id q)
    {| ipv4 := Dhcp; ipv6 := Automatic; dns := automatic_dns; routes := []; mtu := None |}
    (or_sixty (dhcp_confirm_timeout_seconds q)).

Fixpoint parse_servers (l : list string) : res (list IpAddr) :=
  match l with
  | [] => Ok []
  | s :: l =>
      match parse_ip s with
      | None => err InvalidArgument "DNS server address is invalid"
      | Some a => let? l := parse_servers l in Ok (a :: l)
      end
  end.

Definition dns_set_operation (q : DnsSetPayload) : res PrivilegedOperation :=
  let? servers := parse_servers (dns_servers q) in
  Ok (NetworkApply (dns_interface_id q)
        {| ipv4 := Dhcp; ipv6 := Automatic;
           dns := {| dns_automatic := false; servers := servers; search_domains := [] |}; routes := []; mtu := None |}
        (or_sixty (dns_confirm_timeout_seconds q))).

Context {S Value : Type} `{HelperConnection S} `{AgentJson Value} `{NetworkPayloads}.

Definition execute_network (action : string) (payload : bytes) (operation_id : string) (dry_run : bool) : method S Value :=
  let! operation := m_ret (
    if bool_decide (action = "ip.set"%string) then
      let? q := payload_of "ip set" (ip_set_from_slice payload) in ip_set_operation q
    else if bool_decide (action = "ip.dhcp"%string) then
      let? q := payload_of "ip dhcp" (ip_dhcp_from_slice payload) in Ok (ip_dhcp_operation q)
    else if bool_decide (action = "dns.set"%string) then
      let? q := payload_of "dns set" (dns_set_from_slice payload) in dns_set_operation q
    else err ActionUnsupported "network helper action is not attached") in
  helper_call parse_ip operation_id operation dry_run.
End Network.

(** ** What [ip.set] can configure. *)

Section Accepted.
Context (parse_ip : string -> option IpAddr).

Lemma default_route_refused d g m rs : is_unspecified (prefix_address d) = true ->
  routes_loop [] ({| route_destination := d; gateway := g; metric := m |} :: rs) <> Ok tt.
Proof. intros Hd. simpl. unfold validate_prefix. by rewrite Hd, orb_true_r. Qed.

(** With a gateway the request has a default route, which no validation admits. *)
Lemma gateway_refused q g o : set_gateway q = Some g -> ip_set_operation parse_ip q = Ok o ->
  validate_operation parse_ip o <> Ok tt.
Proof.
  intros Hg. unfold ip_set_operation. rewrite Hg.
  destruct (parse_ip (set_address q)) as [a|]; [|done]. destruct (parse_ip g) as [ga|]; [|done]. cbn [obind].
  destruct (negb _); [done|].
  assert (forall d v4 v6, is_unspecified (prefix_address d) = true ->
    validate_operation parse_ip (NetworkApply (set_interface_id q)
      {| ipv4 := v4; ipv6 := v6; dns := automatic_dns;
         routes := [{| route_destination := d; gateway := Some ga; metric := None |}]; mtu := None |}
      (or_sixty (set_confirm_timeout_seconds q))) <> Ok tt) as Hno.
  { intros d v4 v6 Hd. cbn [validate_operation]. destruct (non_empty _); cbn [obind]; [|done..]. destruct (negb _); [done|].
    unfold validate_desired. cbn [ipv4 ipv6 dns routes mtu].
    destruct (match v4 with StaticV4 a0 => _ | _ => _ end) as [[]| |]; cbn [obind]; [|done..].
    destruct (match v6 with StaticV6 a0 => _ | _ => _ end) as [[]| |]; cbn [obind]; [|done..].
    change (256 <? len _) with false. cbv iota.
    pose proof (default_route_refused d (Some ga) None [] Hd) as Hr. destruct (routes_loop _ _) as [[]| |]; done. }
  by destruct (is_ipv4 a); intros [= <-]; apply Hno.
Qed.

Lemma single_prefix p v4 : validate_prefixes [p] v4 = Ok tt <-> prefix_ok v4 p.
Proof.
  unfold validate_prefixes. change ((len [p] =? 0) || (16 <? len [p])) with false. cbn [prefixes_loop].
  rewrite <- validate_prefix_spec. by destruct (validate_prefix p v4) as [[]| |].
Qed.

(** C28: A request to set an address leads to an operation that passes validation exactly
    when it names an interface, its address is specified and its prefix fits the family,
    its confirmation time is in range, and it has no gateway: a gateway becomes a default
    route, whose unspecified destination the validation of the agent itself refuses. *)
Theorem ip_set_exact q a (Ha : parse_ip (set_address q) = Some a) :
  (exists o, ip_set_operation parse_ip q = Ok o /\ validate_operation parse_ip o = Ok tt) <->
  set_gateway q = None /\ is_unspecified a = false /\
  set_prefix_length q <= (if is_ipv4 a then 32 else 128) /\ non_empty (set_interface_id q) = Ok tt /\
  10 <= or_sixty (set_confirm_timeout_seconds q) <= 600.
Proof.
  destruct (set_gateway q) as [g|] eqn:Hg.
  { split; [|by intros []]. intros (o&Ho&Hv). by destruct (gateway_refused q g o Hg Ho). }
  set (p := {| prefix_address := a; prefix_length := set_prefix_length q |}).
  set (st := {| ipv4 := if is_ipv4 a then StaticV4 [p] else Dhcp; ipv6 := if is_ipv4 a then Automatic else StaticV6 [p];
                dns := automatic_dns; routes := []; mtu := None |}).
  assert (ip_set_operation parse_ip q = Ok (NetworkApply (set_interface_id q) st (or_sixty (set_confirm_timeout_seconds q)))) as ->.
  { unfold ip_set_operation, st. rewrite Ha, Hg. cbn [obind]. by destruct (is_ipv4 a). }
  assert (validate_desired st = Ok tt <-> prefix_ok (is_ipv4 a) p) as Hst.
  { rewrite <- single_prefix. unfold validate_desired, st. cbn [ipv4 ipv6 dns routes mtu].
    destruct (is_ipv4 a); destruct (validate_prefixes [p] _) as [[]| |]; done. }
  assert (prefix_ok (is_ipv4 a) p <-> set_prefix_length q <= (if is_ipv4 a then 32 else 128) /\ is_unspecified a = false) as Hp.
  { unfold prefix_ok, p. simpl. naive_solver. }
  split.
  - intros (o&[= <-]&Hv). cbn [validate_operation] in Hv.
    destruct (non_empty (set_interface_id q)) as [[]| |]; [|done..]. cbn [obind] in Hv.
    destruct (negb _) eqn:Ht; [done|]. apply Hst, Hp in Hv as [? ?]. split_and!; try done; lia.
  - intros (_&Hu&Hlen&Hi&Ht). eexists. split; [done|]. cbn [validate_operation]. rewrite Hi. cbn [obind].
    destruct (negb _) eqn:Hn; [lia|]. apply Hst, Hp. by split.
Qed.

Context {S Value : Type} `{HelperConnection S} `{AgentJson Value} `{NetworkPayloads}.

(** Such a request fails before the helper is called. *)
Lemma ip_set_gateway_refused payload q g operation_id dry s :
  ip_set_from_slice payload = inr q -> set_gateway q = Some g ->
  exists e, execute_network (S := S) (Value := Value) parse_ip "ip.set" payload operation_id dry s = (s, Err e) /\
    code e = InvalidArgument.
Proof.
  intros Hq Hg. unfold execute_network, m_bind, m_ret. rewrite bool_decide_true by done.
  unfold payload_of. rewrite Hq. cbn [obind].
  destruct (ip_set_operation parse_ip q) as [o|e|] eqn:Ho.
  - pose proof (gateway_refused q g o Hg Ho) as Hv. unfold helper_call.
    destruct (trimmed_empty operation_id); [by eexists|]. unfold m_bind, m_ret.
    pose proof (validate_operation_total parse_ip o) as Hp.
    destruct (validate_operation parse_ip o) as [[]|m|]; [done|by eexists|done].
  - exists e. split; [done|]. unfold ip_set_operation in Ho. rewrite Hg in Ho.
    destruct (parse_ip (set_address q)) as [a|]; [|by injection Ho as <-].
    destruct (parse_ip g) as [ga|]; [|by injection Ho as <-]. cbn [obind] in Ho.
    destruct (negb _); [by injection Ho as <-|by destruct (is_ipv4 a)].
  - unfold ip_set_operation in Ho. rewrite Hg in Ho. destruct (parse_ip (set_address q)) as [a|]; [|done].
    destruct (parse_ip g); [|done]. cbn [obind] in Ho. destruct (negb _); [done|by destruct (is_ipv4 a)].
Qed.
End Accepted.

Definition sample_ip (s : string) : option IpAddr :=
  if bool_decide (s = "192.0.2.10"%string) then Some (V4 0xC000020A)
  else if bool_decide (s = "192.0.2.1"%string) then Some (V4 0xC0000201) else None.
Definition sample_set (g : option string) : IpSetPayload :=
  {| set_interface_id := "eth0"; set_address := "192.0.2.10"; set_prefix_length := 24; set_gateway := g;
     set_confirm_timeout_seconds := None |}.

Lemma ip_set_exact_witness :
  (exists o, ip_set_operation sample_ip (sample_set None) = Ok o /\ validate_operation sample_ip o = Ok tt) /\
  ~ (exists o, ip_set_operation sample_ip (sample_set (Some "192.0.2.1"%string)) = Ok o /\
       validate_operation sample_ip o = Ok tt).
Proof.
  assert (forall g, sample_ip (set_address (sample_set g)) = Some (V4 0xC000020A)) as Ha by reflexivity. split.
  - apply (ip_set_exact sample_ip (sample_set None) (V4 0xC000020A) (Ha None)).
    split; [reflexivity|]. split; [reflexivity|]. split; [vm_compute; discriminate|]. split; [reflexivity|].
    split; vm_compute; discriminate.
  - intros H%(ip_set_exact sample_ip (sample_set (Some "192.0.2.1"%string)) (V4 0xC000020A) (Ha _)).
    destruct H as [H _]. discriminate H.
Defined.
