(* ===== verification/AgentHosts.v ===== *)
(** * The hosts file, edited by the agent

    Model of [apps/agent/src/action_hosts.rs]: the actions on the hosts file, which are
    requests to the privileged helper. An edit of one entry reads the file, changes the
    list of the profile and replaces its whole section. *)

From stdpp Require Import base list strings gmap.
From Stdlib Require Import ZArith Lia.
From S2P Require Import Prelude ErrorModel HelperProtocol HelperServer ManagedHosts AgentHelper.
Open Scope Z_scope.

Record HostsReplacePayload := { replace_profile_id : string; replace_entries : list ManagedHostsEntry }.
Record HostsAddPayload := {
  add_profile_id : string; add_address : string; add_hostname : string; add_comment : option string;
}.
Record HostsRemovePayload := { remove_profile_id : string; remove_hostname : string }.

Class HostsPayloads := {
  hosts_replace_from_slice : bytes -> string + HostsReplacePayload;
  hosts_add_from_slice : bytes -> string + HostsAddPayload;
  hosts_remove_from_slice : bytes -> string + HostsRemovePayload;
  entries_to_vec : list ManagedHostsEntry -> string + bytes;
}.

(** The JSON values: whether one is a string, and the answer of a removal that found nothing. *)
Class HostsValue (Value : Type) := {
  value_as_str : Value -> option bytes;
  not_updated : Z -> string -> Value;
}.

(** An edit of the entries of a profile. *)
Inductive HostsEdit :=
  | AddHost (q : HostsAddPayload)
  | RemoveHost (q : HostsRemovePayload)
  | ToggleHost (enabled : bool) (q : HostsRemovePayload).

Definition edit_profile (e : HostsEdit) : string :=
  match e with AddHost q => add_profile_id q | RemoveHost q | ToggleHost _ q => remove_profile_id q end.
Definition edit_hostname (e : HostsEdit) : string :=
  match e with AddHost q => add_hostname q | RemoveHost q | ToggleHost _ q => remove_hostname q end.

Definition named (h : string) (e : ManagedHostsEntry) : bool := bool_decide (hostname e = h).

(** The new list; [None] when a removal finds nothing. *)
Definition apply_edit (e : HostsEdit) (current : list ManagedHostsEntry) : res (option (list ManagedHostsEntry)) :=
  match e with
  | AddHost q =>
      if existsb (named (add_hostname q)) current
      then err InvalidArgument "hosts hostname already exists in profile"
      else Ok (Some (current ++ [{| entry_address := add_address q; hostname := add_hostname q;
                                    comment := add_comment q; enabled := true |}]))
  | RemoveHost q =>
      let entries := filter (fun x => negb (named (remove_hostname q) x)) current in
      if len entries =? len current then Ok None else Ok (Some entries)
  | ToggleHost on q =>
      let entries := map (fun x => if named (remove_hostname q) x
                                   then {| entry_address := entry_address x; hostname := hostname x;
                                           comment := comment x; enabled := on |}
                                   else x) current in
      if existsb (named (remove_hostname q)) current then Ok (Some entries)
      else err InvalidArgument "hosts hostname does not exist in profile"
  end.

Section Actions.
Context {S Value : Type} `{HelperConnection S} `{AgentJson Value} `{HostsPayloads} `{HostsValue Value}.
Context (parse_ip : string -> option IpAddr) (sha256 : bytes -> bytes).

Definition operation_id_or_default (operation_id default : string) : string :=
  if trimmed_empty operation_id then default else operation_id.

Definition read_managed_hosts (profile_id operation_id : string) : method S (list ManagedHostsEntry) :=
  let read_operation_id :=
    (if trimmed_empty operation_id then "hosts-read-" +:+ profile_id else operation_id +:+ "-read")%string in
  let! value := helper_call parse_ip read_operation_id HostsRead false in
  m_ret (match value_as_str value with
         | None => err ProtocolInvalid "helper hosts response is not text"
         | Some content => parse_managed_hosts parse_ip content profile_id
         end).

Definition decode_edit (action : string) (payload : bytes) : res HostsEdit :=
  if bool_decide (action = "hosts.add"%string) then
    let? q := payload_of "hosts add" (hosts_add_from_slice payload) in Ok (AddHost q)
  else if bool_decide (action = "hosts.remove"%string) then
    let? q := payload_of "hosts remove" (hosts_remove_from_slice payload) in Ok (RemoveHost q)
  else if bool_decide (action = "hosts.enable"%string) || bool_decide (action = "hosts.disable"%string) then
    let? q := payload_of "hosts toggle" (hosts_remove_from_slice payload) in
    Ok (ToggleHost (bool_decide (action = "hosts.enable"%string)) q)
  else Panic.

Definition run_edit (e : HostsEdit) (operation_id : string) (dry_run : bool) : method S Value :=
  let! current := read_managed_hosts (edit_profile e) operation_id in
  let! replacement := m_ret (apply_edit e current) in
  match replacement with
  | None => m_ret (Ok (not_updated (len current) (edit_hostname e)))
  | Some entries =>
      helper_call parse_ip
        (if trimmed_empty operation_id
         then ("hosts-mutation-" +:+ edit_profile e +:+ "-" +:+ edit_hostname e)%string else operation_id)
        (HostsAtomicReplace (edit_profile e) entries) dry_run
  end.

Definition execute_mutation (action : string) (payload : bytes) (operation_id : string) (dry_run : bool) : method S Value :=
  let! e := m_ret (decode_edit action payload) in run_edit e operation_id dry_run.

(** The operation ID of a replacement without one: the digest of its entries. *)
Definition replace_operation (payload : bytes) (operation_id : string) : res (PrivilegedOperation * string) :=
  let? q := payload_of "hosts replace" (hosts_replace_from_slice payload) in
  let? id :=
    if trimmed_empty operation_id then
      match entries_to_vec (replace_entries q) with
      | inl m => err ProtocolInvalid ("hosts entries cannot be fingerprinted: " +:+ m)
      | inr json => Ok ("hosts-replace-" +:+ replace_profile_id q +:+ "-" +:+ hex (sha256 json))%string
      end
    else Ok operation_id in
  Ok (HostsAtomicReplace (replace_profile_id q) (replace_entries q), id).

Definition execute_hosts (action : string) (payload : bytes) (operation_id : string) (dry_run : bool) : method S Value :=
  if bool_decide (action ∈ ["hosts.add"; "hosts.remove"; "hosts.enable"; "hosts.disable"]%string)
  then execute_mutation action payload operation_id dry_run
  else
    let! request := m_ret (
      if bool_decide (action = "hosts.replace"%string) then replace_operation payload operation_id
      else if bool_decide (action = "hosts.read"%string)
      then Ok (HostsRead, operation_id_or_default operation_id "hosts-read")
      else if bool_decide (action = "hosts.backup"%string)
      then Ok (HostsBackup, operation_id_or_default operation_id "hosts-backup")
      else if bool_decide (action = "hosts.restore"%string)
      then Ok (HostsRestore, operation_id_or_default operation_id "hosts-restore")
      else err ActionUnsupported "hosts action is not attached") in
    helper_call parse_ip request.2 request.1 dry_run.
End Actions.
