(* ===== verification/AgentLink.v ===== *)
(** * The agent and the helper, connected

    The helper at the other end of the agent's connections: each call of the agent is one
    exchange of the helper's loop ([HelperService]), and between two calls others may use
    the helper or the machine. The main result is what an edit of the hosts file does. *)

From stdpp Require Import base list strings gmap sets.
From Stdlib Require Import ZArith Lia.
From S2P Require Import Prelude ErrorModel Text FileIo Paths HelperProtocol Hosts SafeApply LinuxResources HelperServer HelperService.
From S2P Require Import ManagedHosts AgentHelper AgentHosts HelperProtocol.
Open Scope Z_scope.

(** The helper's end of a connection. *)
Record Exchange := { arrived : bytes; answered : bytes }.

#[export] Instance exchange_stream : HelperStream Exchange := {|
  stream_read n x :=
    if len (arrived x) <? n then (x, inl {| io_kind := UnexpectedEof; io_message := "early eof" |})
    else ({| arrived := drop (Z.to_nat n) (arrived x); answered := answered x |}, inr (take (Z.to_nat n) (arrived x)));
  stream_write bs x := ({| arrived := arrived x; answered := answered x ++ bs |}, inr tt);
  stream_flush x := (x, inr tt);
|}.

(** The JSON that the agent sees: an answer of the helper, or its own. *)
Inductive AgentValue (V : Type) := FromHelper (v : HelperResult V) | NotUpdated (entry_count : Z) (hostname : string).
Arguments FromHelper {V}.
Arguments NotUpdated {V}.

#[export] Instance agent_hosts_value {V} : HostsValue (AgentValue V) := {|
  value_as_str v := match v with FromHelper (HostsText t) => Some t | _ => None end;
  not_updated := NotUpdated;
|}.

Definition seen {V} (r : PrivilegedResponse (HelperResult V)) : PrivilegedResponse (AgentValue V) :=
  {| response_id := response_id r; result := FromHelper <$> result r; response_error := response_error r |}.

Section Link.
Context {P V K : Type} `{NetworkExecutor P V} `{!SafeApply.Codec V} `{KernelAccess K} `{SnapshotCodec}.
Context `{HelperJson (HelperResult V)} `{AgentJson (AgentValue V)} `{HostsPayloads}.
Context (parse_ip : string -> option IpAddr) (c : HelperConfiguration) (policy : AuthorizationPolicy).
Context (agent : PeerCredentials).
Abbreviation System := (HelperService P K).

(** What others do before each call, whether it connects, and whether its answer is lost;
    the socket and the random generator of the agent. *)
Context (others : nat -> System -> System) (refused lost : nat -> option CallFault).
Context (socket : option string) (session : nat -> res bytes).

Record Link := { system : System; calls : nat; outbox : bytes; inbox : bytes }.

#[local] Instance the_handler : PrivilegedRequestHandler System (HelperResult V) := helper_handler parse_ip c.

Definition exchange (l : Link) : Link :=
  let '((x, s), _) := serve_one parse_ip agent policy
                        ({| arrived := outbox l; answered := [] |}, system l) in
  {| system := s; calls := calls l; outbox := []; inbox := answered x |}.

Definition with_inbox (b : bytes) (l : Link) : Link :=
  {| system := system l; calls := calls l; outbox := outbox l; inbox := b |}.

#[local] Instance helper_link : HelperConnection Link := {|
  helper_socket _ := socket;
  connect_helper _ l :=
    match refused (calls l) with
    | Some f => ({| system := system l; calls := S (calls l); outbox := []; inbox := [] |}, inl f)
    | None => ({| system := others (calls l) (system l); calls := S (calls l); outbox := []; inbox := [] |}, inr tt)
    end;
  new_session_id l := (l, session (calls l));
  call_write bs l := ({| system := system l; calls := calls l; outbox := outbox l ++ bs; inbox := inbox l |}, inr tt);
  call_flush l := (l, inr tt);
  call_read_timed n l :=
    let l := exchange l in
    match lost (calls l) with
    | Some f => (l, inl f)
    | None => if len (inbox l) <? n then (l, inl (Failed "early eof"))
              else (with_inbox (drop (Z.to_nat n) (inbox l)) l, inr (take (Z.to_nat n) (inbox l)))
    end;
  call_read n l :=
    if len (inbox l) <? n then (l, inl "early eof"%string)
    else (with_inbox (drop (Z.to_nat n) (inbox l)) l, inr (take (Z.to_nat n) (inbox l)));
|}.

(** The agent and the helper agree on the encoding. *)
Context (request_codec : forall w b, request_to_vec w = inr b -> request_from_slice b = inr w).
Context (response_codec : forall r b, response_to_vec r = inr b -> response_from_slice b = inr (seen r)).

(** ** One exchange. *)

Lemma read_framed (b rest : bytes) n : len b = n ->
  (len (b ++ rest) <? n) = false /\ drop (Z.to_nat n) (b ++ rest) = rest /\ take (Z.to_nat n) (b ++ rest) = b.
Proof.
  intros <-. unfold len. rewrite Nat2Z.id. split_and!; [|apply drop_app_length|apply (take_app_length b rest)].
  apply Z.ltb_ge. rewrite length_app. lia.
Qed.

Definition frame (b : bytes) : bytes := to_be_bytes 4 (if len b <=? umax 32 then len b else umax 32) ++ b.

Lemma frame_parts b : len b <= 1048576 -> exists field, frame b = field ++ b /\ len field = 4 /\ from_be_bytes field = len b.
Proof.
  intros Hb. unfold frame. pose proof (len_nonneg b).
  assert (len b <=? umax 32 = true) as -> by (apply Z.leb_le; unfold umax; lia).
  eexists. split; [done|]. split; [apply len_to_be_bytes|]. apply from_to_be_bytes. simpl. lia.
Qed.

(** What the helper has written, for a request that its handler answers with [r]. *)
Definition written (r : PrivilegedResponse (HelperResult V)) (b : bytes) : Prop :=
  b = [] \/ exists payload, response_to_vec r = inr payload /\ len payload <= 1048576 /\ b = frame payload.

(** An exchange is nothing, or the request executed. *)
Definition executed (r : PrivilegedRequest) (s : System) (s' : System) (b : bytes) : Prop :=
  b = [] /\ s' = s \/
  exists response, handle_request parse_ip c r s = (s', Some response) /\ written response b.


Lemma step_ok {S A B} (m : method S A) (k : A -> method S B) s s1 a : m s = (s1, Ok a) -> m_bind m k s = k a s1.
Proof. intros E. unfold m_bind. by rewrite E. Qed.
Lemma step_err {S A B} (m : method S A) (k : A -> method S B) s s1 e : m s = (s1, Err e) -> m_bind m k s = (s1, Err e).
Proof. intros E. unfold m_bind. by rewrite E. Qed.

Definition exchange_state : Type := Exchange * System.

Lemma write_response_written (r : PrivilegedResponse (HelperResult V)) rest s :
  let '((x, s'), _) := write_response (S := Exchange) (H := System) r ({| arrived := rest; answered := [] |}, s) in
  s' = s /\ written r (answered x).
Proof.
  unfold write_response. destruct (response_to_vec r) as [m|payload] eqn:Hr; [by split; [|left]|].
  unfold MAX_HELPER_FRAME_LENGTH. destruct (Z.ltb_spec (1024 * 1024) (len payload)); [by split; [|left]|].
  simpl. split; [done|]. right. exists payload. split_and!; [done|lia|]. done.
Qed.

(** What arrived is one frame of the agent. *)
Lemma exchange_frame w b s : request_to_vec w = inr b -> len b <= 1048576 ->
  trimmed_empty (wire_request_id w) = false -> trimmed_empty (wire_operation_id w) = false ->
  validate_operation parse_ip (wire_operation w) = Ok tt ->
  let '((x, s'), _) := serve_one (S := Exchange) parse_ip agent policy ({| arrived := frame b; answered := [] |}, s) in
  executed (authenticate w {| principal := peer_principal agent; process_id := peer_process_id agent |}) s s' (answered x)
  \/ (handle_request parse_ip c (authenticate w {| principal := peer_principal agent; process_id := peer_process_id agent |}) s).2 = None.
Proof.
  intros Hb Hlen Hid Hop Hv. pose proof (request_codec w b Hb) as Hw.
  destruct (frame_parts b Hlen) as (field&Hf&Hfield&Hfrom). rewrite Hf.
  unfold serve_one, authorize. destruct (negb (bool_decide _)) eqn:Hallowed; [by left; left|].
  erewrite step_ok by reflexivity.
  destruct (read_framed field b 4 Hfield) as (Hlt&Hdrop&Htake).
  assert (read_request (S := Exchange) (H := System) ({| arrived := field ++ b; answered := [] |}, s) =
    if len b =? 0 then (({| arrived := b; answered := [] |}, s), err ControlFrameTooLarge "helper frame length is invalid")
    else (({| arrived := []; answered := [] |}, s), Ok w)) as Hread.
  { unfold read_request. erewrite step_ok.
    2: { unfold stream. simpl stream_read. cbn [arrived answered]. rewrite Hlt, Hdrop, Htake. reflexivity. }
    rewrite Hfrom. unfold MAX_HELPER_FRAME_LENGTH.
    rewrite (proj2 (Z.ltb_ge (1024 * 1024) (len b))), orb_false_r by lia. destruct (len b =? 0); [done|].
    erewrite step_ok; [by rewrite Hw|]. unfold stream. simpl stream_read. cbn [arrived answered].
    destruct (read_framed b [] (len b) eq_refl) as (Hl&Hd&Ht). rewrite app_nil_r in *. by rewrite Hl, Hd, Ht. }
  destruct (len b =? 0).
  { erewrite step_err by exact Hread. left. by left. }
  erewrite step_ok by exact Hread. rewrite Hid, Hop. cbn [orb]. rewrite Hv. erewrite step_ok by reflexivity.
  change (handle (H := System) (Value := HelperResult V)) with (handle_request (P := P) (K := K) parse_ip c).
  set (r := authenticate w _).
  destruct (handle_request parse_ip c r s) as [s' [response|]] eqn:Hh.
  - erewrite step_ok by (unfold on_handler; rewrite Hh; reflexivity).
    pose proof (write_response_written response [] s') as Hwr.
    destruct (write_response _ _) as [[x s2] o]. destruct Hwr as [-> ?]. left. right. by exists response.
  - destruct (m_bind _ _ _) as [[x s2] o]. by right.
Qed.

(** ** One call of the agent. *)

Definition wire (n : nat) (operation_id : string) (operation : PrivilegedOperation) (dry : bool) : PrivilegedRequest :=
  authenticate {| wire_request_id := "agent-" +:+ match session n with Ok id => hex id | _ => "" end;
                  wire_operation_id := operation_id; wire_operation := operation; wire_dry_run := dry |}
    {| principal := peer_principal agent; process_id := peer_process_id agent |}.

(** A call changes nothing, not even by connecting; or others had their turn, and then it
    changed nothing or the helper executed its request. What it returns is what the helper
    answered, or a failure. *)
Inductive call_result (r : PrivilegedRequest) (l l' : Link) (o : res (AgentValue V)) : Prop :=
  | call_unconnected : system l' = system l -> (forall v, o <> Ok v) -> call_result r l l' o
  | call_refused : system l' = others (calls l) (system l) -> calls l' = S (calls l) ->
      (forall v, o <> Ok v) -> call_result r l l' o
  | call_executed a : execute parse_ip c r (others (calls l) (system l)) = (system l', a) -> calls l' = S (calls l) ->
      (forall v, o = Ok v -> exists a', a = Ok a' /\ v = FromHelper a') -> call_result r l l' o.

Lemma agent_id_visible x : trimmed_empty ("agent-" +:+ x)%string = false.
Proof. by unfold trimmed_empty; rewrite as_bytes_app. Qed.

Lemma response_seen id r (v : AgentValue V) : response_value id (seen r) = Ok v ->
  exists a, result r = Some a /\ v = FromHelper a.
Proof.
  unfold response_value, seen. simpl. destruct (negb _); [done|]. destruct (response_error r); [done|].
  destruct (result r) as [a|]; [|done]. intros [= <-]. by exists a.
Qed.

Lemma helper_call_result operation_id operation dry l
    (Hsession : forall n, session n <> Panic)
    (Htotal : forall s, (execute parse_ip c (wire (S (calls l)) operation_id operation dry) s).2 <> Panic) :
  let '(l', o) := helper_call parse_ip operation_id operation dry l in
  o <> Panic /\ call_result (wire (S (calls l)) operation_id operation dry) l l' o.
Proof.
  unfold helper_call. destruct (trimmed_empty operation_id) eqn:Hop; [by split; [|apply call_unconnected]|].
  pose proof (validate_operation_total parse_ip operation) as Hvt.
  destruct (validate_operation parse_ip operation) as [[]|m|] eqn:Hv; [|by split; [|apply call_unconnected]|done].
  erewrite step_ok by reflexivity. unfold configured_helper_socket at 1. unfold m_bind at 1. simpl helper_socket.
  destruct (configured_helper_socket_from socket) as [path|e|] eqn:Hpath; [|by split; [|apply call_unconnected]|].
  2: { unfold configured_helper_socket_from in Hpath. by destruct socket; simpl in Hpath; [case_bool_decide|]. }
  unfold connected at 1. unfold m_bind at 1. simpl connect_helper.
  destruct (refused (calls l)) as [[|m]|]; [by split; [|apply call_unconnected]..|].
  set (n := S (calls l)) in *. set (s1 := others (calls l) (system l)).
  destruct (session n) as [id|e|] eqn:Hid; [| |by destruct (Hsession n)].
  2: { erewrite step_err by (simpl; rewrite Hid; reflexivity). by split; [|apply call_refused]. }
  erewrite step_ok by (simpl; rewrite Hid; reflexivity).
  set (w := {| wire_request_id := _; wire_operation_id := _; wire_operation := _; wire_dry_run := _ |}).
  assert (wire n operation_id operation dry = authenticate w {| principal := peer_principal agent; process_id := peer_process_id agent |}) as Hw
    by (unfold wire; by rewrite Hid).
  destruct (request_to_vec w) as [m|b] eqn:Hb; [by split; [|apply call_refused]|]. erewrite step_ok by reflexivity.
  destruct (Z.ltb_spec 1048576 (len b)) as [|Hlen]; [by split; [|apply call_refused]|].
  erewrite step_ok by reflexivity. erewrite step_ok by reflexivity. erewrite step_ok by reflexivity.
  cbn [outbox app system calls inbox]. fold (frame b).
  set (l1 := {| system := s1; calls := n; outbox := _; inbox := [] |}).
  pose proof (exchange_frame w b s1 Hb Hlen (agent_id_visible _) Hop Hv) as Hx.
  assert (exists x s', exchange l1 = {| system := s'; calls := n; outbox := []; inbox := answered x |} /\
    executed (wire n operation_id operation dry) s1 s' (answered x)) as (x&s'&Hex&Hx').
  { unfold exchange, l1. cbn [outbox system calls]. fold (frame b).
    destruct (serve_one _ _ _ _) as [[x s'] o0]. exists x, s'. split; [done|]. rewrite Hw.
    destruct Hx as [Hx|Hnone]; [done|]. specialize (Htotal s1). rewrite Hw in Htotal. fold n in Htotal.
    unfold handle_request in Hnone. destruct (execute parse_ip c _ s1) as [s2 [a|e|]]; done. }
  clear Hx. unfold response_length at 1, m_bind at 1. simpl call_read_timed. rewrite Hex. cbn [calls inbox].
  assert (forall l' o, system l' = s' -> calls l' = n -> (forall v, o <> Ok v) ->
    call_result (wire n operation_id operation dry) l l' o) as Hfailed.
  { intros l' o Hsys Hcalls Ho. destruct Hx' as [[_ ->]|(response&Hh&_)]; [by apply call_refused|].
    unfold handle_request in Hh. destruct (execute parse_ip c _ s1) as [s2 a] eqn:He.
    eapply (call_executed _ _ _ _ a); [|done|by intros v ->; destruct (Ho v)].
    fold s1. rewrite He, Hsys. by destruct a; simplify_eq. }
  destruct (lost n) as [[|m]|]; [by split; [|apply Hfailed]..|].
  destruct Hx' as [[Hx' _]|(response&Hh&[Hx'|(payload&Hpay&Hmax&Hx')])]; rewrite Hx'; [by split; [|apply Hfailed]..|].
  destruct (frame_parts payload Hmax) as (field&Hf&Hfield&Hfrom). rewrite Hf.
  destruct (read_framed field payload 4 Hfield) as (->&Hdrop&Htake). rewrite Hdrop, Htake, Hfrom.
  rewrite (proj2 (Z.ltb_ge 1048576 (len payload))), orb_false_r by done.
  destruct (len payload =? 0); [by split; [|apply Hfailed]|].
  unfold called at 1, m_bind at 1. simpl call_read. cbn [inbox with_inbox].
  destruct (read_framed payload [] (len payload) eq_refl) as (Hl&_&Ht). rewrite app_nil_r in Hl, Ht. rewrite Hl, Ht.
  rewrite (response_codec response payload Hpay). erewrite step_ok by reflexivity. unfold m_ret.
  split; [unfold response_value; by repeat case_match|].
  destruct (response_value _ _) as [v|e|] eqn:Hv'; [|by apply Hfailed..].
  apply response_seen in Hv' as (a&Ha&->). unfold handle_request in Hh.
  destruct (execute parse_ip c (wire n operation_id operation dry) s1) as [s2 a'] eqn:He.
  eapply (call_executed _ _ _ _ a'); [|done|].
  - fold s1. rewrite He. by destruct a'; simplify_eq.
  - intros v [= <-]. exists a. split; [|done]. by destruct a'; simplify_eq/=.
Qed.

(** ** An edit of the hosts file. *)

(** [IpAddr]'s [FromStr] reads what its [Display] writes. *)
Context (parse_display : forall s a, parse_ip s = Some a -> reads_back parse_ip a).

Definition hosts_file (s : System) : option bytes := content (hosts_path c) s.
Definition read_entries (text : bytes) (profile : string) : res (list ManagedHostsEntry) :=
  parse_managed_hosts parse_ip text profile.

Lemma parse_entries_total ls : parse_entries parse_ip ls <> Panic.
Proof.
  induction ls as [|l ls IH]; [done|]. simpl. assert (parse_entry parse_ip l <> Panic) as Hl.
  { unfold parse_entry. by repeat case_match. }
  destruct (parse_entry parse_ip l); simpl; [|done..]. by destruct (parse_entries parse_ip ls).
Qed.

Lemma read_entries_total text profile : read_entries text profile <> Panic.
Proof.
  unfold read_entries, parse_managed_hosts, parse_lines.
  destruct (positions (begin_marker profile) 0 _) as [|i [|j b]] eqn:Hb;
    destruct (positions (end_marker profile) 0 _) as [|k [|k' e]] eqn:He; try (by case_match).
  destruct (_ && _); [done|]. destruct (Z.leb_spec k i); [done|].
  destruct (markers_between profile _ i k Hb He ltac:(lia)) as (pre&l1&mid&l2&post&->&_&_&->&->&_).
  assert (slice (E := NetToolError) (pre ++ l1 :: mid ++ l2 :: post) (len pre + 1) (len pre + 1 + len mid)
    = Ok mid) as -> by apply inside_slice. apply parse_entries_total.
Qed.

Lemma apply_edit_total e current : apply_edit e current <> Panic.
Proof. destruct e; simpl; by case_match. Qed.

Lemma entries_read_back es entries : hosts_entries parse_ip es = Ok entries ->
  Forall (fun e => reads_back parse_ip (Hosts.address e)) entries.
Proof.
  revert entries. induction es as [|e es IH]; intros entries; simpl; [by intros [= <-]|].
  unfold hosts_entry. destruct (parse_ip (entry_address e)) as [a|] eqn:Ha; [|done]. simpl.
  destruct (hosts_entries parse_ip es) as [l| |] eqn:Hl; [|done..]. simpl. intros [= <-].
  constructor; [by eapply parse_display|by apply IH].
Qed.

(** What an edit may leave, [s1] being the system when it reads and [s2] when it writes:
    nothing of it happened; or the section of the profile is the edited one, the agent
    reads that back, and what it reads for other profiles is as it was. *)
Inductive edited (e : HostsEdit) (dry : bool) (l l' : Link) (o : res (AgentValue V)) : Prop :=
  | edited_nothing :
      hosts_file (system l') = hosts_file (system l) \/
        hosts_file (system l') = hosts_file (others (calls l) (system l)) ->
      (forall v, o = Ok v -> exists text current,
        hosts_file (others (calls l) (system l)) = Some text /\ read_entries text (edit_profile e) = Ok current /\
        apply_edit e current = Ok None /\ v = NotUpdated (len current) (edit_hostname e)) ->
      edited e dry l l' o
  | edited_kept s1 : same_files (others (calls l) (system l)) s1 ->
      hosts_file (system l') = hosts_file (others (S (calls l)) s1) -> (forall v, o = Ok v -> dry = true) ->
      edited e dry l l' o
  | edited_replaced s1 text current new old entries r : dry = false ->
      same_files (others (calls l) (system l)) s1 ->
      hosts_file (others (calls l) (system l)) = Some text -> read_entries text (edit_profile e) = Ok current ->
      apply_edit e current = Ok (Some new) ->
      hosts_file (others (S (calls l)) s1) = Some old -> hosts_entries parse_ip new = Ok entries ->
      hosts_file (system l') = Some r -> read_entries r (edit_profile e) = Ok (map stored entries) ->
      (forall id k, id <> edit_profile e -> read_entries old id = Ok k -> read_entries r id = Ok k) ->
      edited e dry l l' o.

Lemma read_executed n operation_id s :
  m_holds (execute parse_ip c (wire n operation_id HostsRead false)) s (fun s' o =>
    same_files s s' /\ forall v, o = Ok v -> exists text, v = HostsText text /\ hosts_file s = Some text).
Proof.
  unfold execute, wire. simpl dry_run. simpl operation. cbv iota.
  eapply m_holds_bind; [apply on_hosts_read; by right| |].
  - intros s' e [Hs _]. by split.
  - intros s' text [Hs Ht]. apply m_holds_ret; [done|]. split; [done|]. intros v [= <-]. exists text. by split; [|apply Ht].
Qed.

Lemma replace_executed n operation_id profile es dry s
    (Hh : with_extension "nettool.tmp" (hosts_path c) <> hosts_path c) :
  m_holds (execute parse_ip c (wire n operation_id (HostsAtomicReplace profile es) dry)) s (fun s' o =>
    hosts_file s' = hosts_file s /\ (forall v, o = Ok v -> dry = true) \/
    exists old entries r, dry = false /\ hosts_file s = Some old /\ hosts_entries parse_ip es = Ok entries /\
      replace_managed_section old profile entries = Ok r /\ hosts_file s' = Some r).
Proof.
  destruct dry; [by apply m_holds_ret; [|left]|].
  eapply m_holds_weaken; [by apply (replace_outcome parse_ip c _ s profile es)|].
  intros s' o (_&_&[[Hk Ho]|(r&(old&entries&Hold&Hes&Hr)&Hc)]).
  - left. split; [done|]. intros v ->. by destruct (Ho v).
  - right. by exists old, entries, r.
Qed.

(** The first half: what the agent reads. *)
Lemma read_result profile operation_id l (Hsession : forall n, session n <> Panic) :
  let '(l', o) := read_managed_hosts parse_ip profile operation_id l in
  o <> Panic /\
  (hosts_file (system l') = hosts_file (system l) \/
    same_files (others (calls l) (system l)) (system l') /\ calls l' = S (calls l)) /\
  forall current, o = Ok current -> same_files (others (calls l) (system l)) (system l') /\ calls l' = S (calls l) /\
    exists text, hosts_file (others (calls l) (system l)) = Some text /\ read_entries text profile = Ok current.
Proof.
  unfold read_managed_hosts. set (id := if trimmed_empty operation_id then _ else _).
  pose proof (helper_call_result id HostsRead false l Hsession (fun s => proj1 (read_executed _ id s))) as Hc.
  destruct (helper_call parse_ip id HostsRead false l) as [l1 o] eqn:Hcall. destruct Hc as [Hp Hc].
  assert (hosts_file (system l1) = hosts_file (system l) \/
    same_files (others (calls l) (system l)) (system l1) /\ calls l1 = S (calls l)) as Hfile.
  { destruct Hc as [Hs _|Hs Hn _|a He Hn _]; [left; by rewrite Hs|right; by rewrite Hs|right].
    pose proof (read_executed (S (calls l)) id (others (calls l) (system l))) as Hx. unfold m_holds in Hx.
    rewrite He in Hx. by destruct Hx as (_&?&_). }
  destruct o as [v|e|]; [|by rewrite (step_err _ _ _ _ _ Hcall)|done]. rewrite (step_ok _ _ _ _ _ Hcall). unfold m_ret.
  destruct Hc as [_ Ho|_ _ Ho|a He Hn Ho]; [by destruct (Ho v)..|].
  destruct (Ho v eq_refl) as (a'&->&->).
  pose proof (read_executed (S (calls l)) id (others (calls l) (system l))) as Hx. unfold m_holds in Hx.
  rewrite He in Hx. destruct Hx as (_&Hs&Hx). destruct (Hx a' eq_refl) as (text&->&Htext). simpl.
  split; [apply read_entries_total|]. split; [done|]. intros current Hcur. split_and!; [done..|]. by exists text.
Qed.

(** C27: An edit of the hosts file through the agent and the helper, whatever fails on the
    way, and whatever others do to the system before each of the two calls: nothing of it
    happens; or the file that the helper finds when it writes is replaced by one from
    which the agent reads exactly the edited list for the profile, and for every other
    profile what it read before. Success means the latter, that a dry run kept the file,
    or that there was nothing to remove. The agent never panics. *)
Theorem hosts_edit_applied action payload e operation_id dry l
    (Hd : decode_edit action payload = Ok e) (Hsession : forall n, session n <> Panic)
    (Hh : with_extension "nettool.tmp" (hosts_path c) <> hosts_path c) :
  let '(l', o) := execute_mutation (S := Link) parse_ip action payload operation_id dry l in
  o <> Panic /\ edited e dry l l' o.
Proof.
  unfold execute_mutation. erewrite step_ok by (unfold m_ret; rewrite Hd; reflexivity). unfold run_edit.
  pose proof (read_result (edit_profile e) operation_id l Hsession) as Hread.
  destruct (read_managed_hosts _ _ _ _) as [l1 o1] eqn:Hr1. destruct Hread as (Hp1&Hfile&Hread).
  destruct o1 as [current|err1|]; [|rewrite (step_err _ _ _ _ _ Hr1)|done].
  2: { split; [done|]. apply edited_nothing; [|done]. destruct Hfile as [?|[[_ Hf] _]]; [by left|right; apply Hf]. }
  rewrite (step_ok _ _ _ _ _ Hr1). destruct (Hread current eq_refl) as (Hs1&Hn&text&Htext&Hcur). clear Hread Hfile.
  destruct (apply_edit e current) as [[new|]|err2|] eqn:He; [| | |by destruct (apply_edit_total e current)].
  - erewrite step_ok by reflexivity. cbv iota beta. set (id := if trimmed_empty operation_id then _ else _).
    pose proof (helper_call_result id (HostsAtomicReplace (edit_profile e) new) dry l1 Hsession
      (fun s => proj1 (replace_executed _ id (edit_profile e) new dry s Hh))) as Hc.
    destruct (helper_call _ _ _ _ _) as [l2 o2]. destruct Hc as [Hp2 Hc]. split; [done|].
    destruct Hc as [Hs2 Ho|Hs2 _ Ho|a He2 _ Ho].
    + apply edited_nothing; [right; rewrite Hs2; apply Hs1|]. intros v ->. by destruct (Ho v).
    + apply (edited_kept _ _ _ _ _ (system l1)); [done|by rewrite Hs2, Hn|]. intros v ->. by destruct (Ho v).
    + pose proof (replace_executed (S (calls l1)) id (edit_profile e) new dry (others (calls l1) (system l1)) Hh) as Hx.
      unfold m_holds in Hx. rewrite He2 in Hx. cbn [fst snd] in Hx.
      destruct Hx as [_ [[Hk Hok]|(old&entries&r&Hdry&Hold&Hes&Hr&Hnew)]].
      * apply (edited_kept _ _ _ _ _ (system l1)); [done|by rewrite Hk, Hn|].
        intros v ->. destruct (Ho v eq_refl) as (a'&->&_). by apply (Hok a').
      * destruct (written_read parse_ip old (edit_profile e) entries r Hr (entries_read_back new entries Hes)) as [Hback Hother].
        by apply (edited_replaced _ _ _ _ _ (system l1) text current new old entries r); rewrite <- ?Hn.
  - erewrite step_ok by reflexivity. split; [done|]. apply edited_nothing; [right; apply Hs1|].
    intros v [= <-]. by exists text, current.
  - split; [done|]. apply edited_nothing; [right; apply Hs1|done].
Qed.
End Link.

(** ** Two agents on a fake system. *)

Module LinkSample.
#[local] Existing Instance SafeApply.Sample.codec.
#[local] Existing Instance SafeApply.Sample.codec_laws.
#[local] Existing Instance SafeApply.Sample.executor.
Import FakeKernel.
Import ServiceSample.

#[local] Instance entry_eq : EqDecision HelperProtocol.ManagedHostsEntry.
Proof. solve_decision. Defined.
#[local] Instance operation_eq : EqDecision PrivilegedOperation.
Proof. solve_decision. Defined.
#[local] Instance request_eq : EqDecision PrivilegedWireRequest.
Proof. solve_decision. Defined.

Definition host (h : string) (on : bool) : HelperProtocol.ManagedHostsEntry :=
  {| entry_address := "192.0.2.1"; HelperProtocol.hostname := h; HelperProtocol.comment := None; HelperProtocol.enabled := on |}.

Definition wire_request (operation_id : string) (o : PrivilegedOperation) : PrivilegedWireRequest :=
  {| wire_request_id := "agent-07"; wire_operation_id := operation_id; wire_operation := o; wire_dry_run := false |}.

(** The requests that the sample encodes, by their index. *)
Definition requests : list PrivilegedWireRequest :=
  [wire_request "a-read" HostsRead; wire_request "b-read" HostsRead;
   wire_request "a" (HostsAtomicReplace "lab" [host "a.lab" true]);
   wire_request "b" (HostsAtomicReplace "lab" [host "b.lab" true]);
   wire_request "b" (HostsAtomicReplace "lab" [host "a.lab" true; host "b.lab" true])].

#[local] Instance agent_json : AgentJson (AgentValue SafeApply.Sample.conf) := {|
  request_to_vec w := match list_find (eq w) requests with
                      | Some (i, _) => inr [Z.of_nat i; 0]
                      | None => inl "not in the sample"%string
                      end;
  response_from_slice b :=
    match b with
    | 0 :: n :: rest => inr {| response_id := of_bytes (take (Z.to_nat n) rest);
                               result := Some (FromHelper (HostsText (drop (Z.to_nat n) rest))); response_error := None |}
    | 1 :: n :: rest => inr {| response_id := of_bytes rest; result := Some (FromHelper (Updated n)); response_error := None |}
    | _ => inl "expected value"%string
    end;
|}.

#[local] Instance helper_json : HelperJson Answer := {|
  request_from_slice b := match b with
                          | [i; 0] => match requests !! Z.to_nat i with Some w => inr w | None => inl "expected value"%string end
                          | _ => inl "expected value"%string
                          end;
  response_to_vec r :=
    match result r, response_error r with
    | Some (HostsText t), None => inr (0 :: len (as_bytes (response_id r)) :: as_bytes (response_id r) ++ t)
    | Some (Updated n), None => inr (1 :: n :: as_bytes (response_id r))
    | _, _ => inl "not in the sample"%string
    end;
|}.

Lemma requests_coded w b : request_to_vec w = inr b -> request_from_slice b = inr w.
Proof.
  unfold request_to_vec, agent_json, request_from_slice, helper_json.
  destruct (list_find (eq w) requests) as [[i w']|] eqn:Hf; [|done]. intros [= <-].
  apply list_find_Some in Hf as (Hi&<-&_). by rewrite Nat2Z.id, Hi.
Qed.

Lemma responses_coded (r : PrivilegedResponse Answer) b : response_to_vec r = inr b -> response_from_slice b = inr (seen r).
Proof.
  destruct r as [id [[]|] [e|]]; simpl; try done; intros [= <-]; unfold seen; simpl.
  - unfold len. rewrite Nat2Z.id, take_app_length, drop_app_length. by rewrite Whitespace.of_as_bytes.
  - by rewrite Whitespace.of_as_bytes.
Qed.

#[local] Instance payloads : HostsPayloads := {|
  hosts_replace_from_slice _ := inl "not used"%string;
  hosts_add_from_slice b :=
    inr {| add_profile_id := "lab"; add_address := "192.0.2.1"; add_hostname := of_bytes b; add_comment := None |};
  hosts_remove_from_slice b := inr {| remove_profile_id := "lab"; remove_hostname := of_bytes b |};
  entries_to_vec _ := inl "not used"%string;
|}.

Definition alone (_ : nat) (s : System) : System := s.
Definition connection (others : nat -> System -> System) : HelperConnection Link :=
  helper_link parse_ip configuration policy (peer "1000") others (fun _ => None) (fun _ => None)
    (Some "/run/helper.sock"%string) (fun _ => Ok [7]).
Definition link (s : System) : Link := {| system := s; calls := 0; outbox := []; inbox := [] |}.
Definition add_host (others : nat -> System -> System) (id : string) (h : string) (s : System) :
    System * res (AgentValue SafeApply.Sample.conf) :=
  let '(l, o) := execute_mutation (H := connection others) parse_ip "hosts.add" (as_bytes h) id false (link s) in
  (system l, o).
Definition names (s : System) : option (list string) :=
  match hosts_now s with
  | Some b => match parse_managed_hosts parse_ip b "lab" with Ok es => Some (map HelperProtocol.hostname es) | _ => None end
  | None => None
  end.

Lemma hosts_edit_applied_witness :
  let '(l, o) := execute_mutation (H := connection alone) parse_ip "hosts.add" (as_bytes "a.lab") "a" false
                   (link (service disk0 [])) in
  o = Ok (FromHelper (Updated 1)) /\ exists r, hosts_now (system l) = Some r /\
    parse_managed_hosts parse_ip r "lab" = Ok [host "a.lab" true].
Proof.
  destruct (execute_mutation (H := connection alone) parse_ip "hosts.add" (as_bytes "a.lab") "a" false
    (link (service disk0 []))) as [l o] eqn:E.
  assert (decode_edit "hosts.add" (as_bytes "a.lab") = Ok (AddHost {| add_profile_id := "lab"; add_address := "192.0.2.1";
    add_hostname := "a.lab"; add_comment := None |})) as Hd by (vm_compute; reflexivity).
  pose proof (hosts_edit_applied parse_ip configuration policy (peer "1000") alone (fun _ => None) (fun _ => None)
    (Some "/run/helper.sock"%string) (fun _ => Ok [7]) requests_coded responses_coded
    ltac:(intros s a H; exact H) "hosts.add" (as_bytes "a.lab") _ "a" false
    (link (service disk0 [])) Hd ltac:(intros n; discriminate) ltac:(vm_compute; discriminate)) as H.
  unfold connection in E. rewrite E in H.
  assert (o = Ok (FromHelper (Updated 1))) as Ho by (apply (f_equal snd) in E; vm_compute in E; by rewrite <- E).
  split; [exact Ho|].
  destruct H as [_ [_ Hn|s1 _ _ Hk|s1 text current new old entries r _ _ Ht Hc He Ho2 Hes Hr Hback _]].
  - destruct (Hn _ Ho) as (text&current&_&_&_&[=]).
  - discriminate (Hk _ Ho).
  - exists r. split; [exact Hr|]. vm_compute in Ht. injection Ht as <-. vm_compute in Hc. injection Hc as <-.
    vm_compute in He. injection He as <-. vm_compute in Hes. injection Hes as <-. exact Hback.
Defined.

(** Two agents each add a host. One reads before the other writes: both are told that the
    list of the profile was updated, and the host of the other is lost. *)
Example update_lost :
  let other (n : nat) (s : System) := match n with 1%nat => (add_host alone "a" "a.lab" s).1 | _ => s end in
  let '(s, o) := add_host other "b" "b.lab" (service disk0 []) in
  o = Ok (FromHelper (Updated 1)) /\ names s = Some ["b.lab"%string] /\
  names (add_host alone "a" "a.lab" (service disk0 [])).1 = Some ["a.lab"%string].
Proof. by vm_compute. Qed.
(** One after the other, both are kept. *)
Example updates_kept :
  names (add_host alone "b" "b.lab" (add_host alone "a" "a.lab" (service disk0 [])).1).1 = Some ["a.lab"; "b.lab"]%string.
Proof. by vm_compute. Qed.
End LinkSample.
