(* ===== verification/Clock.v ===== *)
(** * Timestamps

    Model of [utc_timestamp] of [apps/agent/src/action_speed.rs]: the date of a number of
    seconds since 1970 in the text that the database stores. The dates are those of the
    Gregorian calendar, and the order of the texts, by which the history of sessions is
    sorted, is the order of time. *)

From stdpp Require Import base list strings pretty.
From Stdlib Require Import ZArith Lia Ascii.
From S2P Require Import Prelude Text.
Open Scope Z_scope.

(** ** The code. *)

(** Year, month and day of the days since 1970-01-01. *)
Definition civil (days : Z) : Z * Z * Z :=
  let z := days + 719468 in
  let era := (if 0 <=? z then z else z - 146096) / 146097 in
  let doe := z - era * 146097 in
  let yoe := (doe - Z.quot doe 1460 + Z.quot doe 36524 - Z.quot doe 146096) / 365 in
  let year := yoe + era * 400 in
  let doy := doe - (365 * yoe + Z.quot yoe 4 - Z.quot yoe 100) in
  let month_part := (5 * doy + 2) / 153 in
  let day := doy - (153 * month_part + 2) / 5 + 1 in
  let month := month_part + (if month_part <? 10 then 3 else -9) in
  let year := if month <=? 2 then year + 1 else year in
  let month := if month <? 1 then 1 else month in
  (year, month, day).

(** [{x:0w}] of a number that is not negative. *)
Fixpoint zeros (n : nat) : string := match n with O => "" | S n => String "0"%char (zeros n) end.
Definition padded (w : nat) (x : Z) : string := zeros (w - String.length (dec x)) +:+ dec x.

Definition format_date (d : Z * Z * Z) : string :=
  let '(year, month, day) := d in padded 4 year +:+ "-" +:+ padded 2 month +:+ "-" +:+ padded 2 day.
Definition format_time (s : Z) : string :=
  padded 2 (Z.quot s 3600) +:+ ":" +:+ padded 2 (Z.quot (Z.rem s 3600) 60) +:+ ":" +:+ padded 2 (Z.rem s 60).

(** [seconds] is the clock, or zero before 1970. *)
Definition utc_timestamp (clock : Z) : string :=
  let seconds := if clock <=? umax 63 then clock else umax 63 in
  format_date (civil (seconds / 86400)) +:+ "T" +:+ format_time (seconds mod 86400) +:+ "Z".

(** ** The calendar. *)

Definition leap (y : Z) : bool := (y mod 4 =? 0) && (negb (y mod 100 =? 0) || (y mod 400 =? 0)).
Definition days_in_month (y m : Z) : Z :=
  if m =? 2 then if leap y then 29 else 28
  else if (m =? 4) || (m =? 6) || (m =? 9) || (m =? 11) then 30 else 31.
Definition next_day (d : Z * Z * Z) : Z * Z * Z :=
  let '(y, m, d) := d in
  if d <? days_in_month y m then (y, m, d + 1) else if m <? 12 then (y, m + 1, 1) else (y + 1, 1, 1).

(** *** Years of an era of 400 years, which begin in March. *)

Definition year_of_era (doe : Z) : Z := (doe - doe / 1460 + doe / 36524 - doe / 146096) / 365.
Definition year_start (y : Z) : Z := if y =? 400 then 146097 else 365 * y + y / 4 - y / 100.

Lemma year_of_era_mono a b : 0 <= a <= b -> b < 146097 -> year_of_era a <= year_of_era b.
Proof.
  intros. unfold year_of_era. apply Z.div_le_mono; [lia|].
  enough (forall k : nat, a + Z.of_nat k < 146097 ->
    a - a / 1460 + a / 36524 - a / 146096 <=
    (a + Z.of_nat k) - (a + Z.of_nat k) / 1460 + (a + Z.of_nat k) / 36524 - (a + Z.of_nat k) / 146096) as Hk.
  { specialize (Hk (Z.to_nat (b - a))). replace (a + Z.of_nat (Z.to_nat (b - a))) with b in Hk by lia. auto with lia. }
  induction k as [|k IH]; intros Hk; [rewrite Z.add_0_r; lia|]. etransitivity; [apply IH; lia|].
  replace (a + Z.of_nat (S k)) with (a + Z.of_nat k + 1) by lia.
  set (x := a + Z.of_nat k). assert (0 <= x) by lia. assert (x + 1 < 146097) by (subst x; lia). clearbody x.
  clear -H1 H2. Z.to_euclidean_division_equations. lia.
Qed.

Definition year_checked (y : Z) : bool :=
  (year_of_era (year_start y) =? y) && (year_of_era (year_start (y + 1) - 1) =? y) &&
  (year_start (y + 1) - year_start y =? if leap (y + 1) then 366 else 365).
Lemma years_checked : forallb (fun n => year_checked (Z.of_nat n)) (seq 0 400) = true.
Proof. by vm_compute. Qed.
Lemma year_checked_at y : 0 <= y < 400 -> year_checked y = true.
Proof.
  intros Hy. pose proof years_checked as H. rewrite forallb_forall in H.
  specialize (H (Z.to_nat y)). rewrite Z2Nat.id in H by lia. apply H, in_seq. lia.
Qed.

(** The year of a day, and the day in it. *)
Lemma year_bounds doe : 0 <= doe < 146097 ->
  0 <= year_of_era doe < 400 /\ year_start (year_of_era doe) <= doe < year_start (year_of_era doe + 1).
Proof.
  intros Hd.
  assert (0 <= year_of_era doe < 400) as Hy.
  { pose proof (year_of_era_mono 0 doe ltac:(lia) ltac:(lia)) as H1.
    pose proof (year_of_era_mono doe 146096 ltac:(lia) ltac:(lia)) as H2.
    change (year_of_era 0) with 0 in H1. change (year_of_era 146096) with 399 in H2. lia. }
  split; [done|]. set (y := year_of_era doe) in *.
  pose proof (year_checked_at y Hy) as Hc. unfold year_checked in Hc. rewrite !andb_true_iff, !Z.eqb_eq in Hc.
  assert (forall x, 0 <= x < 400 -> 0 <= year_start x < year_start (x + 1) /\ year_start (x + 1) <= 146097) as Hs.
  { intros x Hx. unfold year_start. rewrite (proj2 (Z.eqb_neq x 400)) by lia.
    destruct (Z.eqb_spec (x + 1) 400); Z.to_euclidean_division_equations; lia. }
  split.
  - destruct (Z.le_gt_cases (year_start y) doe); [done|].
    destruct (Z.eq_dec y 0) as [H0|]; [rewrite H0 in *; change (year_start 0) with 0 in *; lia|].
    pose proof (year_checked_at (y - 1) ltac:(lia)) as Hp. unfold year_checked in Hp.
    rewrite !andb_true_iff, !Z.eqb_eq in Hp. replace (y - 1 + 1) with y in Hp by lia.
    pose proof (Hs y Hy). pose proof (year_of_era_mono doe (year_start y - 1) ltac:(lia) ltac:(lia)). lia.
  - destruct (Z.lt_ge_cases doe (year_start (y + 1))); [done|].
    destruct (Z.eq_dec y 399) as [H0|]; [rewrite H0 in *; change (year_start (399 + 1)) with 146097 in *; lia|].
    pose proof (year_checked_at (y + 1) ltac:(lia)) as Hp. unfold year_checked in Hp.
    rewrite !andb_true_iff, !Z.eqb_eq in Hp.
    pose proof (Hs y Hy). pose proof (year_of_era_mono (year_start (y + 1)) doe ltac:(lia) ltac:(lia)). lia.
Qed.

(** *** Months of a year that begins in March; [l] tells whether its February is long. *)

Definition month_of (doy : Z) : Z := let p := (5 * doy + 2) / 153 in p + (if p <? 10 then 3 else -9).
Definition day_of (doy : Z) : Z := doy - (153 * ((5 * doy + 2) / 153) + 2) / 5 + 1.
Definition length_of (l : bool) : Z := if l then 366 else 365.
Definition month_length (l : bool) (m : Z) : Z :=
  if m =? 2 then if l then 29 else 28 else if (m =? 4) || (m =? 6) || (m =? 9) || (m =? 11) then 30 else 31.
Definition carry (m : Z) : Z := if m <=? 2 then 1 else 0.

Definition day_checked (l : bool) (doy : Z) : bool :=
  let m := month_of doy in
  let m' := month_of (doy + 1) in
  (1 <=? m) && (m <=? 12) && (1 <=? day_of doy) && (day_of doy <=? 31) &&
  if doy + 1 <? length_of l then
    if day_of doy <? month_length l m then (m' =? m) && (day_of (doy + 1) =? day_of doy + 1)
    else (day_of (doy + 1) =? 1) && if m <? 12 then (m' =? m + 1) && (carry m' =? carry m) else (m' =? 1) && (carry m =? 0)
  else (m =? 2) && (day_of doy =? month_length l 2).
Lemma days_checked :
  forallb (fun l => forallb (fun n => day_checked l (Z.of_nat n)) (seq 0 (Z.to_nat (length_of l)))) [true; false] = true.
Proof. by vm_compute. Qed.
Lemma day_checked_at l doy : 0 <= doy < length_of l -> day_checked l doy = true.
Proof.
  intros Hd. pose proof days_checked as H. rewrite forallb_forall in H.
  assert (In l [true; false]) as Hl by (destruct l; simpl; auto). specialize (H l Hl). rewrite forallb_forall in H.
  specialize (H (Z.to_nat doy)). rewrite Z2Nat.id in H by lia. apply H, in_seq. lia.
Qed.

(** The date of a day of the year [y], and its shift by eras. *)
Definition date_in_year (y doy : Z) : Z * Z * Z := (y + carry (month_of doy), month_of doy, day_of doy).
Definition shift (k : Z) (d : Z * Z * Z) : Z * Z * Z := let '(y, m, d) := d in (y + 400 * k, m, d).

Lemma leap_shift y k : leap (y + 400 * k) = leap y.
Proof.
  unfold leap. replace (y + 400 * k) with (y + (100 * k) * 4) at 1 by lia. rewrite Z.mod_add by lia.
  replace (y + 400 * k) with (y + (4 * k) * 100) at 1 by lia. rewrite Z.mod_add by lia.
  replace (y + 400 * k) with (y + k * 400) by lia. by rewrite Z.mod_add.
Qed.

Lemma next_shift k d : next_day (shift k d) = shift k (next_day d).
Proof.
  destruct d as [[y m] d]. simpl. unfold days_in_month. rewrite leap_shift. repeat case_match; simpl; f_equal; f_equal; lia.
Qed.

Lemma days_in_month_carry y m l : (leap (y + 1) = l) -> days_in_month (y + carry m) m = month_length l m.
Proof.
  intros <-. unfold days_in_month, month_length, carry. destruct (Z.eqb_spec m 2) as [->|]; [done|done].
Qed.

(** The next day in the year, and the first of the next one. *)
Lemma next_in_year y doy : 0 <= doy -> doy + 1 < length_of (leap (y + 1)) ->
  date_in_year y (doy + 1) = next_day (date_in_year y doy).
Proof.
  intros H0 Hd. assert (day_checked (leap (y + 1)) doy = true) as Hc by (apply day_checked_at; lia). unfold day_checked in Hc.
  unfold date_in_year, next_day. rewrite (days_in_month_carry _ _ (leap (y + 1))) by done.
  rewrite (proj2 (Z.ltb_lt _ _)) in Hc by lia.
  destruct (day_of doy <? month_length _ _).
  - rewrite !andb_true_iff, !Z.eqb_eq in Hc. destruct Hc as [_ [-> ->]]. done.
  - destruct (month_of doy <? 12); rewrite !andb_true_iff, !Z.eqb_eq in Hc.
    + destruct Hc as (_&->&Hm&->). by rewrite Hm.
    + destruct Hc as (_&->&Hm&Hcarry). rewrite Hm, Hcarry. change (carry 1) with 1. f_equal. f_equal. lia.
Qed.

Lemma last_in_year y doy : 0 <= doy -> doy + 1 = length_of (leap (y + 1)) ->
  next_day (date_in_year y doy) = (y + 1, 3, 1).
Proof.
  intros H0 Hd. assert (day_checked (leap (y + 1)) doy = true) as Hc by (apply day_checked_at; lia). unfold day_checked in Hc.
  unfold date_in_year, next_day. rewrite (days_in_month_carry _ _ (leap (y + 1))) by done.
  rewrite (proj2 (Z.ltb_ge _ _)) in Hc by lia. rewrite !andb_true_iff, !Z.eqb_eq in Hc. destruct Hc as [_ [-> ->]].
  by rewrite Z.ltb_irrefl.
Qed.

(** *** Days. *)

Definition era_date (doe : Z) : Z * Z * Z := date_in_year (year_of_era doe) (doe - year_start (year_of_era doe)).

Lemma civil_era n : 0 <= n -> civil n = shift ((n + 719468) / 146097) (era_date ((n + 719468) mod 146097)).
Proof.
  intros Hn. unfold civil. rewrite (proj2 (Z.leb_le 0 _)) by lia. set (z := n + 719468). assert (0 <= z) by lia. clearbody z.
  pose proof (Z.mod_pos_bound z 146097 ltac:(lia)) as Hb.
  replace (z - z / 146097 * 146097) with (z mod 146097) by (rewrite Z.mod_eq by lia; lia).
  destruct (year_bounds _ Hb) as [Hy Hs]. set (doe := z mod 146097) in *.
  rewrite (Z.quot_div_nonneg doe 1460), (Z.quot_div_nonneg doe 36524), (Z.quot_div_nonneg doe 146096) by lia.
  change ((doe - doe / 1460 + doe / 36524 - doe / 146096) / 365) with (year_of_era doe).
  rewrite !(Z.quot_div_nonneg (year_of_era doe)) by lia.
  assert (doe - (365 * year_of_era doe + year_of_era doe / 4 - year_of_era doe / 100) = doe - year_start (year_of_era doe)) as ->.
  { unfold year_start. rewrite (proj2 (Z.eqb_neq _ _)) by lia. lia. }
  unfold era_date, date_in_year, shift. set (doy := doe - year_start (year_of_era doe)) in *.
  assert (0 <= doy < length_of (leap (year_of_era doe + 1))) as Hd.
  { pose proof (year_checked_at _ Hy) as Hc. unfold year_checked in Hc. rewrite !andb_true_iff, !Z.eqb_eq in Hc.
    destruct Hc as [_ Hc]. fold (length_of (leap (year_of_era doe + 1))) in Hc. subst doy. lia. }
  pose proof (day_checked_at _ _ Hd) as Hc. unfold day_checked in Hc. rewrite !andb_true_iff, !Z.leb_le in Hc.
  fold (month_of doy). fold (day_of doy). rewrite (proj2 (Z.ltb_ge (month_of doy) 1)) by lia.
  unfold carry. f_equal. f_equal. destruct (month_of doy <=? 2); lia.
Qed.

Lemma civil_next n : 0 <= n -> civil (n + 1) = next_day (civil n).
Proof.
  intros Hn. rewrite !civil_era by lia. replace (n + 1 + 719468) with (n + 719468 + 1) by lia.
  set (z := n + 719468). pose proof (Z.mod_pos_bound z 146097 ltac:(lia)) as Hb.
  rewrite next_shift.
  destruct (year_bounds _ Hb) as [Hy Hs].
  pose proof (year_checked_at _ Hy) as Hc. unfold year_checked in Hc. rewrite !andb_true_iff, !Z.eqb_eq in Hc.
  destruct Hc as [[Hfirst _] Hlen]. fold (length_of (leap (year_of_era (z mod 146097) + 1))) in Hlen.
  destruct (Z.eq_dec (z mod 146097) 146096) as [He|He].
  - assert ((z + 1) / 146097 = z / 146097 + 1 /\ (z + 1) mod 146097 = 0) as [-> ->]
      by (Z.to_euclidean_division_equations; lia). rewrite He.
    change (era_date 0) with (0, 3, 1). change (next_day (era_date 146096)) with (400, 3, 1). unfold shift. f_equal. f_equal. lia.
  - assert ((z + 1) / 146097 = z / 146097 /\ (z + 1) mod 146097 = z mod 146097 + 1) as [-> ->]
      by (Z.to_euclidean_division_equations; lia). f_equal.
    set (doe := z mod 146097) in *. unfold era_date at 2. set (y := year_of_era doe) in *.
    destruct (Z.eq_dec (doe + 1) (year_start (y + 1))) as [Hlast|Hin].
    + rewrite last_in_year by lia. unfold era_date. rewrite Hlast.
      assert (y < 399) by (destruct (Z.eq_dec y 399) as [H0|]; [rewrite H0 in Hlast; change (year_start (399 + 1)) with 146097 in Hlast; lia|lia]).
      pose proof (year_checked_at (y + 1) ltac:(lia)) as Hc. unfold year_checked in Hc. rewrite !andb_true_iff, !Z.eqb_eq in Hc.
      destruct Hc as [[-> _] _]. rewrite Z.sub_diag. unfold date_in_year. change (month_of 0) with 3.
      change (day_of 0) with 1. change (carry 3) with 0. f_equal. f_equal. lia.
    + destruct (year_bounds (doe + 1) ltac:(lia)) as [Hy' Hs'].
      assert (year_of_era (doe + 1) = y) as Heq.
      { pose proof (year_of_era_mono doe (doe + 1) ltac:(lia) ltac:(lia)).
        pose proof (year_of_era_mono (doe + 1) (year_start (y + 1) - 1) ltac:(lia) ltac:(unfold year_start; destruct (Z.eqb_spec (y + 1) 400); Z.to_euclidean_division_equations; lia)).
        pose proof (year_checked_at y Hy) as Hc. unfold year_checked in Hc. rewrite !andb_true_iff, !Z.eqb_eq in Hc. lia. }
      unfold era_date. rewrite Heq. replace (doe + 1 - year_start y) with (doe - year_start y + 1) by lia.
      apply next_in_year; lia.
Qed.

(** *** The order of texts. *)

Definition before (s t : string) : Prop := String.compare s t = Lt.

Lemma ascii_compare_spec a b : Ascii.compare a b = N.compare (N_of_ascii a) (N_of_ascii b).
Proof. done. Qed.

Lemma before_trans s t u : before s t -> before t u -> before s u.
Proof.
  unfold before. revert t u. induction s as [|a s IH]; intros [|b t] [|c u]; try done. simpl.
  rewrite !ascii_compare_spec.
  destruct (N.compare_spec (N_of_ascii a) (N_of_ascii b)) as [Hab|Hab|], (N.compare_spec (N_of_ascii b) (N_of_ascii c)) as [Hbc|Hbc|];
    try done; intros Hs Ht; destruct (N.compare_spec (N_of_ascii a) (N_of_ascii c)); try lia; try done. eauto.
Qed.

Lemma compare_same s : String.compare s s = Eq.
Proof. induction s as [|a s IH]; [done|]. simpl. by rewrite ascii_compare_spec, N.compare_refl. Qed.

Lemma before_same s t u : before t u -> before (s +:+ t) (s +:+ u).
Proof. unfold before. intros Ht. induction s as [|a s IH]; [done|]. simpl. by rewrite ascii_compare_spec, N.compare_refl. Qed.

Lemma before_app s t u v : String.length s = String.length t -> before s t -> before (s +:+ u) (t +:+ v).
Proof.
  unfold before. revert t. induction s as [|a s IH]; intros [|b t]; try done. simpl. intros [= Hl].
  rewrite ascii_compare_spec. destruct (N.compare _ _); [by apply IH|done|done].
Qed.

(** Padded numbers of a width have one length, and are ordered as numbers. *)
Definition ordered_width (w : nat) : Prop := forall x y, 0 <= x < y -> y < 10 ^ Z.of_nat w ->
  String.length (padded w x) = String.length (padded w y) /\ before (padded w x) (padded w y).

Definition width_checked (w : nat) (n : nat) : bool :=
  (String.length (padded w (Z.of_nat n)) =? String.length (padded w (Z.of_nat n + 1)))%nat &&
  match String.compare (padded w (Z.of_nat n)) (padded w (Z.of_nat n + 1)) with Lt => true | _ => false end.

Lemma width_ordered w : forallb (width_checked w) (seq 0 (Nat.pred (Nat.pow 10 w))) = true -> ordered_width w.
Proof.
  rewrite forallb_forall. intros Hc x y Hx Hy.
  assert (forall k : nat, (Z.to_nat x + k < Nat.pow 10 w)%nat -> (0 < k)%nat ->
    String.length (padded w x) = String.length (padded w (x + Z.of_nat k)) /\ before (padded w x) (padded w (x + Z.of_nat k))) as Hk.
  { induction k as [|k IH]; [lia|]. intros Hb _.
    specialize (Hc (Z.to_nat x + k)%nat ltac:(apply in_seq; lia)). unfold width_checked in Hc.
    rewrite andb_true_iff, Nat.eqb_eq in Hc. destruct Hc as [Hl Hc].
    replace (Z.of_nat (Z.to_nat x + k)) with (x + Z.of_nat k) in * by lia.
    replace (x + Z.of_nat (S k)) with (x + Z.of_nat k + 1) by lia.
    assert (before (padded w (x + Z.of_nat k)) (padded w (x + Z.of_nat k + 1))) as Hs
      by (unfold before; by destruct (String.compare _ _)).
    destruct k as [|k]; [rewrite Z.add_0_r in *; auto|]. destruct IH as [Hl' Hs']; [lia..|].
    split; [congruence|by eapply before_trans]. }
  specialize (Hk (Z.to_nat (y - x))). replace (x + Z.of_nat (Z.to_nat (y - x))) with y in Hk by lia. apply Hk; [|lia].
  apply Nat2Z.inj_lt. rewrite Nat2Z.inj_pow. lia.
Qed.

Lemma two_digits : ordered_width 2.
Proof. apply width_ordered. by vm_compute. Qed.
Lemma four_digits : ordered_width 4.
Proof. apply width_ordered. by vm_compute. Qed.

(** Three numbers with separators, in the order of their digits. *)
Definition date_lt (a b : Z * Z * Z) : Prop :=
  let '(y, m, d) := a in let '(y', m', d') := b in y < y' \/ (y = y' /\ (m < m' \/ (m = m' /\ d < d'))).
Definition triple (w : nat) (sep : string) (a : Z * Z * Z) : string :=
  let '(y, m, d) := a in padded w y +:+ sep +:+ padded 2 m +:+ sep +:+ padded 2 d.
Definition in_width (w : nat) (a : Z * Z * Z) : Prop :=
  let '(y, m, d) := a in 0 <= y < 10 ^ Z.of_nat w /\ 0 <= m < 100 /\ 0 <= d < 100.

Lemma triple_before w sep a b u v : ordered_width w -> in_width w a -> in_width w b -> date_lt a b ->
  before (triple w sep a +:+ u) (triple w sep b +:+ v).
Proof.
  intros Hw. destruct a as [[y m] d], b as [[y' m'] d']. intros (Hy&Hm&Hd) (Hy'&Hm'&Hd') Hlt.
  unfold triple. rewrite !append_assoc.
  destruct Hlt as [Hlt|[-> [Hlt|[-> Hlt]]]].
  - destruct (Hw y y') as [Hl Hb]; [lia..|]. by apply before_app.
  - apply before_same, before_same. destruct (two_digits m m') as [Hl Hb]; [lia|simpl; lia|]. by apply before_app.
  - do 4 apply before_same. destruct (two_digits d d') as [Hl Hb]; [lia|simpl; lia|]. by apply before_app.
Qed.

(** ** Dates and times are ordered. *)

Lemma date_lt_trans a b c : date_lt a b -> date_lt b c -> date_lt a c.
Proof. destruct a as [[? ?] ?], b as [[? ?] ?], c as [[? ?] ?]. simpl. lia. Qed.

Lemma next_later d : date_lt d (next_day d).
Proof. destruct d as [[y m] d]. unfold next_day. repeat case_match; simpl; lia. Qed.

Lemma civil_later a b : 0 <= a < b -> date_lt (civil a) (civil b).
Proof.
  intros Hab. assert (forall k : nat, date_lt (civil a) (civil (a + 1 + Z.of_nat k))) as Hk.
  { induction k as [|k IH]; [rewrite Z.add_0_r, civil_next by lia; apply next_later|].
    eapply date_lt_trans; [exact IH|]. replace (a + 1 + Z.of_nat (S k)) with (a + 1 + Z.of_nat k + 1) by lia.
    rewrite civil_next by lia. apply next_later. }
  specialize (Hk (Z.to_nat (b - a - 1))). by replace (a + 1 + Z.of_nat (Z.to_nat (b - a - 1))) with b in Hk by lia.
Qed.

(** Days before the year 10000. *)
Lemma civil_width n : 0 <= n < 2932897 -> in_width 4 (civil n).
Proof.
  intros Hn. assert (1 <= (civil n).1.2 <= 12 /\ 1 <= (civil n).2 <= 31) as [Hm Hd].
  { rewrite civil_era by lia. pose proof (Z.mod_pos_bound (n + 719468) 146097 ltac:(lia)) as Hb.
    destruct (year_bounds _ Hb) as [Hy Hs]. set (doe := (n + 719468) mod 146097) in *.
    pose proof (year_checked_at _ Hy) as Hc. unfold year_checked in Hc. rewrite !andb_true_iff, !Z.eqb_eq in Hc.
    destruct Hc as [_ Hc]. fold (length_of (leap (year_of_era doe + 1))) in Hc.
    assert (day_checked (leap (year_of_era doe + 1)) (doe - year_start (year_of_era doe)) = true) as Hday
      by (apply day_checked_at; lia).
    unfold day_checked in Hday. rewrite !andb_true_iff, !Z.leb_le in Hday. simpl. lia. }
  assert (1970 <= (civil n).1.1 <= 9999) as Hy.
  { split.
    - destruct (Z.eq_dec n 0) as [->|]; [by vm_compute|]. pose proof (civil_later 0 n ltac:(lia)) as Hl.
      change (civil 0) with (1970, 1, 1) in Hl. destruct (civil n) as [[y m] d]. simpl in *. lia.
    - pose proof (civil_later n 2932897 ltac:(lia)) as Hl. change (civil 2932897) with (10000, 1, 1) in Hl.
      destruct (civil n) as [[y m] d]. simpl in *. lia. }
  destruct (civil n) as [[y m] d]. simpl in *. lia.
Qed.

Definition clock_time (s : Z) : Z * Z * Z := (s / 3600, s mod 3600 / 60, s mod 60).

Lemma format_time_triple s : 0 <= s < 86400 -> format_time s = triple 2 ":" (clock_time s).
Proof.
  intros. unfold format_time, triple, clock_time. rewrite Z.quot_div_nonneg, !Z.rem_mod_nonneg by lia.
  rewrite Z.quot_div_nonneg by (Z.to_euclidean_division_equations; lia). done.
Qed.

Lemma clock_time_later a b : 0 <= a < b -> b < 86400 -> date_lt (clock_time a) (clock_time b).
Proof. intros. unfold clock_time, date_lt. Z.to_euclidean_division_equations. lia. Qed.

Lemma clock_time_width s : 0 <= s < 86400 -> in_width 2 (clock_time s).
Proof. intros. unfold clock_time, in_width. simpl. Z.to_euclidean_division_equations. lia. Qed.

(** The dates are those of the Gregorian calendar: day zero is 1970-01-01, and each
    later day is the next one of the calendar. *)
Theorem civil_calendar (n : Z) (Hn : 0 <= n) : civil 0 = (1970, 1, 1) /\ civil (n + 1) = next_day (civil n).
Proof. split; [done|by apply civil_next]. Qed.

Lemma civil_calendar_witness : civil (19782 + 1) = (2024, 3, 1).
Proof. assert (0 <= 19782) as H by lia. destruct (civil_calendar 19782 H) as [_ ->]. reflexivity. Defined.

(** C10: The order of the timestamps as texts, by which SQLite sorts the history, is the
    order of time, up to the end of the year 9999. *)
Theorem timestamps_ordered (a b : Z) (Hab : 0 <= a < b) (Hb : b < 253402300800) :
  before (utc_timestamp a) (utc_timestamp b).
Proof.
  unfold utc_timestamp. change (umax 63) with 9223372036854775807. rewrite !(proj2 (Z.leb_le _ _)) by lia.
  assert (forall s, 0 <= s < 253402300800 -> 0 <= s / 86400 < 2932897) as Hday
    by (intros; Z.to_euclidean_division_equations; lia).
  assert (forall n, format_date (civil n) = triple 4 "-" (civil n)) as Hf by (intros; by destruct (civil n) as [[? ?] ?]).
  rewrite !Hf. pose proof (Z.mod_pos_bound a 86400 ltac:(lia)). pose proof (Z.mod_pos_bound b 86400 ltac:(lia)).
  destruct (Z.lt_total (a / 86400) (b / 86400)) as [Hlt|[Heq|Hgt]].
  - apply triple_before; [apply four_digits|apply civil_width, Hday; lia..|]. apply civil_later. pose proof (Hday a). lia.
  - rewrite Heq. apply before_same, before_same. rewrite !format_time_triple by lia.
    apply triple_before; [apply two_digits|by apply clock_time_width..|].
    apply clock_time_later; [|lia]. pose proof (Z.div_mod a 86400). pose proof (Z.div_mod b 86400). lia.
  - exfalso. pose proof (Z.div_le_mono a b 86400). lia.
Qed.

Lemma timestamps_ordered_witness : before (utc_timestamp 951782399) (utc_timestamp 951782400).
Proof. apply timestamps_ordered; lia. Defined.

Example leap_day : utc_timestamp 951782400 = "2000-02-29T00:00:00Z"%string.
Proof. by vm_compute. Qed.
