(* ===== verification/NodeProtocol.v ===== *)
(** * Node control protocol

    Model of [crates/node-protocol/src]: the control messages ([wire.rs]), the
    NTCP frame around them ([frame.rs]), version and capability negotiation
    ([negotiation.rs]), the connection state machine ([state.rs]) and the trust
    decision ([trust.rs]). The Protobuf codec (prost) and SHA-256 are parameters;
    of prost only the round trip is assumed. *)

From stdpp Require Import base strings gmap sorting list.
From Stdlib Require Import ZArith Lia.
From S2P Require Import Prelude ErrorModel.
Open Scope Z_scope.

Definition PROTOCOL_MAJOR : Z := 1.
Definition PROTOCOL_MINOR : Z := 1.

(** ** Messages. *)

Record HelloRequest := { hello_node_id : bytes; hello_node_name : string; min_minor : Z; max_minor : Z }.
Record HelloResponse := { selected_minor : Z; responder_node_id : bytes; responder_node_name : string }.
Record PairRequest := { pair_node_id : bytes; public_key : bytes }.
Record PairResponse := { trusted : bool; fingerprint : string }.
Record CapabilityMessage := {
  capability_id : Z; capability_min_version : Z; capability_max_version : Z; capability_available : bool;
}.
Record CapabilityResponse := { capabilities : list CapabilityMessage }.

Record PrepareTest := {
  prepare_session_id : bytes;
  prepare_operation_id : string;
  test_type : string;
  backend : string;
  direction : string;
  duration_ms : Z;
  warmup_ms : Z;
  cooldown_ms : Z;
  streams : Z;
  frame_size : Z;
  payload_size : Z;
  target_rate_bps : Z;
  mtu : Z;
  source_data_port : Z;
  receive_data_port : Z;
  accelerated_pci_address : string;
  remote_accelerated_pci_address : string;
  remote_mac_address : string;
}.

Record PrepareTestResponse := {
  ready : bool; response_data_port : Z; response_authorization_tag : string; response_source_data_port : Z;
}.
Record StartTest := {
  start_session_id : bytes; start_operation_id : string; start_at_unix_nanoseconds : Z;
}.
Record StopTest := { stop_session_id : bytes; stop_operation_id : string }.
Record TestStatus := { status_session_id : bytes; status_state : string }.
Record TestResultRequest := { query_session_id : bytes }.
Record TestResult := { result_session_id : bytes; result_json : bytes; checksum : bytes }.
Record Ping := { ping_nonce : Z }.
Record Pong := { pong_nonce : Z }.
Record ProtocolError := { error_code : string; error_message : string; error_retryable : bool }.

#[export] Instance TestResult_eq_dec : EqDecision TestResult.
Proof. solve_decision. Defined.

Inductive ControlMessage :=
  | MHelloRequest (m : HelloRequest)
  | MHelloResponse (m : HelloResponse)
  | MPairRequest (m : PairRequest)
  | MPairResponse (m : PairResponse)
  | MCapabilityRequest
  | MCapabilityResponse (m : CapabilityResponse)
  | MPrepareTest (m : PrepareTest)
  | MPrepareTestResponse (m : PrepareTestResponse)
  | MStartTest (m : StartTest)
  | MStopTest (m : StopTest)
  | MTestStatus (m : TestStatus)
  | MTestResult (m : TestResult)
  | MTestResultRequest (m : TestResultRequest)
  | MPing (m : Ping)
  | MPong (m : Pong)
  | MError (m : ProtocolError).

Record Envelope := {
  protocol_major : Z;
  protocol_minor : Z;
  envelope_request_id : bytes;
  message : option ControlMessage;
}.

(** ** Frames. *)

Definition MAGIC : bytes := [78; 84; 67; 80].
Definition FRAMING_VERSION : Z := 1.
Definition CONTROL_HEADER_BYTES : Z := 12.
Definition MAX_CONTROL_PAYLOAD_BYTES : Z := 1024 * 1024.

Definition frame_error {A} (c : ErrorCode) (m : string) : res A := err c m.

(** [prost]: encoding cannot fail, decoding fails with a message. *)
Class Protobuf := {
  encode_to_vec : Envelope -> bytes;
  envelope_decode : bytes -> string + Envelope;
}.

Section Frames.
Context `{Protobuf}.

(** The conversion to [u32] cannot fail after the length check; it is kept. *)
Definition encode_frame (e : Envelope) : res bytes :=
  let payload := encode_to_vec e in
  if MAX_CONTROL_PAYLOAD_BYTES <? len payload
  then frame_error ControlFrameTooLarge "control payload exceeds 1 MiB"
  else if umax 32 <? len payload
  then frame_error ControlFrameTooLarge "control payload length overflow"
  else Ok (MAGIC ++ [FRAMING_VERSION] ++ [0] ++ [0; 0] ++ to_be_bytes 4 (len payload) ++ payload).

Definition decode_frame (f : bytes) : res Envelope :=
  if len f <? CONTROL_HEADER_BYTES
  then frame_error ProtocolInvalid "control frame header is truncated"
  else
    let? magic := slice f 0 4 in
    if negb (bool_decide (magic = MAGIC))
    then frame_error ProtocolInvalid "control frame magic is invalid"
    else
      let? version := index f 4 in
      if negb (version =? FRAMING_VERSION)
      then frame_error ProtocolIncompatible "control framing version is unsupported"
      else
        let? flags := index f 5 in
        if negb (flags =? 0)
        then frame_error ProtocolUnsupportedFlag "control frame contains unsupported flags"
        else
          let? r1 := index f 6 in
          let? r2 := index f 7 in
          if negb (r1 =? 0) || negb (r2 =? 0)
          then frame_error ProtocolInvalid "control frame reserved field must be zero"
          else
            let? field := slice f 8 12 in
            let payload_length := from_be_bytes field in
            if MAX_CONTROL_PAYLOAD_BYTES <? payload_length
            then frame_error ControlFrameTooLarge "control payload exceeds 1 MiB"
            else if negb (len f =? CONTROL_HEADER_BYTES + payload_length)
            then frame_error ProtocolInvalid "control payload length does not match frame"
            else
              let? payload := slice f CONTROL_HEADER_BYTES (len f) in
              match envelope_decode payload with
              | inr e => Ok e
              | inl m => frame_error ProtocolInvalid ("invalid control protobuf: " +:+ m)
              end.

End Frames.

(** ** Negotiation. *)

Record ProtocolRange := { major : Z; range_min_minor : Z; range_max_minor : Z }.

Record CapabilityRange := { id : Z; min_version : Z; max_version : Z; available : bool }.

Record NegotiatedCapability := { negotiated_id : Z; version : Z }.

#[export] Instance CapabilityRange_eq_dec : EqDecision CapabilityRange.
Proof. solve_decision. Defined.
#[export] Instance NegotiatedCapability_eq_dec : EqDecision NegotiatedCapability.
Proof. solve_decision. Defined.

Definition incompatible {A} (m : string) : res A := err ProtocolIncompatible m.

Definition negotiate_version (local remote : ProtocolRange) : res (Z * Z) :=
  if negb (major local =? major remote)
  then incompatible "node protocol major is incompatible"
  else if (range_max_minor local <? range_min_minor local) ||
          (range_max_minor remote <? range_min_minor remote)
  then incompatible "node protocol minor range is invalid"
  else
    let minimum := Z.max (range_min_minor local) (range_min_minor remote) in
    let maximum := Z.min (range_max_minor local) (range_max_minor remote) in
    if maximum <? minimum then incompatible "nodes have no common protocol minor"
    else Ok (major local, maximum).

Definition usable (c : CapabilityRange) : bool := available c && (min_version c <=? max_version c).

(** [collect::<BTreeMap>]: a later entry replaces an earlier one. *)
Definition by_id (cs : list CapabilityRange) : gmap Z CapabilityRange :=
  fold_left (fun m c => <[id c := c]> m) (List.filter usable cs) ∅.

Definition common_version (l r : CapabilityRange) : option NegotiatedCapability :=
  let minimum := Z.max (min_version l) (min_version r) in
  let maximum := Z.min (max_version l) (max_version r) in
  if minimum <=? maximum then Some {| negotiated_id := id l; version := maximum |} else None.

(** [sort_by_key] is stable: insertion after the entries that are not larger. *)
Fixpoint insert_by_id (c : NegotiatedCapability) (l : list NegotiatedCapability) :
    list NegotiatedCapability :=
  match l with
  | [] => [c]
  | x :: l => if negotiated_id c <=? negotiated_id x then c :: x :: l else x :: insert_by_id c l
  end.

Fixpoint sort_by_id (l : list NegotiatedCapability) : list NegotiatedCapability :=
  match l with
  | [] => []
  | c :: l => insert_by_id c (sort_by_id l)
  end.

(** [dedup_by_key]: of consecutive entries with one key, the first is kept. *)
Fixpoint dedup_from (x : NegotiatedCapability) (l : list NegotiatedCapability) :
    list NegotiatedCapability :=
  match l with
  | [] => [x]
  | y :: l => if negotiated_id x =? negotiated_id y then dedup_from x l else x :: dedup_from y l
  end.

Definition dedup_by_id (l : list NegotiatedCapability) : list NegotiatedCapability :=
  match l with [] => [] | x :: l => dedup_from x l end.

Definition negotiate_capabilities (local remote : list CapabilityRange) :
    list NegotiatedCapability :=
  let remote := by_id remote in
  dedup_by_id (sort_by_id
    (omap (fun l => r ← remote !! id l; common_version l r) (List.filter usable local))).

(** ** Connection states. *)

Inductive NodeConnectionState :=
  | Disconnected | Connecting | TlsHandshake | Hello | Authenticating | CapabilityNegotiation
  | Ready | Preparing | TestReady | Running | Finalizing | Completed | Failed | Canceled.

#[export] Instance NodeConnectionState_eq_dec : EqDecision NodeConnectionState.
Proof. solve_decision. Defined.

Definition state_name (s : NodeConnectionState) : string :=
  match s with
  | Disconnected => "Disconnected" | Connecting => "Connecting" | TlsHandshake => "TlsHandshake"
  | Hello => "Hello" | Authenticating => "Authenticating"
  | CapabilityNegotiation => "CapabilityNegotiation" | Ready => "Ready" | Preparing => "Preparing"
  | TestReady => "TestReady" | Running => "Running" | Finalizing => "Finalizing"
  | Completed => "Completed" | Failed => "Failed" | Canceled => "Canceled"
  end.

Definition allowed (current next : NodeConnectionState) : bool :=
  match current, next with
  | Disconnected, Connecting => true
  | Connecting, (TlsHandshake | Failed) => true
  | TlsHandshake, (Hello | Failed) => true
  | Hello, (Authenticating | Failed) => true
  | Authenticating, (CapabilityNegotiation | Failed) => true
  | CapabilityNegotiation, (Ready | Failed) => true
  | Ready, (Preparing | Failed) => true
  | Preparing, (TestReady | Failed | Canceled) => true
  | TestReady, (Running | Failed | Canceled) => true
  | Running, (Finalizing | Failed | Canceled) => true
  | Finalizing, (Completed | Failed | Canceled) => true
  | Completed, Ready => true
  | (Failed | Canceled), Disconnected => true
  | _, _ => false
  end.

(** [NodeStateMachine::new] and [transition]. *)
Definition new_machine : NodeConnectionState := Disconnected.

Definition transition (next : NodeConnectionState) : method NodeConnectionState unit := fun s =>
  if negb (allowed s next)
  then (s, err InvalidState ("invalid node state transition: " +:+ state_name s +:+ " -> " +:+
                             state_name next))
  else (next, Ok tt).

(** ** Trust. *)

Inductive TrustDecision := PairingRequired | Trusted | IdentityChanged.

Definition upper_digit (d : Z) : Ascii.ascii := Ascii.ascii_of_nat (Z.to_nat (if d <? 10 then 48 + d else 55 + d)).

(** [format!("{byte:02X}")]. *)
Definition upper_hex (b : Z) : string :=
  String (upper_digit (b / 16)) (String (upper_digit (b mod 16)) "").

Section Trust.
Context (sha256 : bytes -> bytes).

Definition fingerprint_sha256 (public_key_der : bytes) : string :=
  String.concat ":" (map upper_hex (sha256 public_key_der)).
End Trust.

Definition to_lower (b : Z) : Z := if (65 <=? b) && (b <=? 90) then b + 32 else b.

Definition eq_ignore_ascii_case (a b : string) : bool :=
  bool_decide (map to_lower (as_bytes a) = map to_lower (as_bytes b)).

Definition verify_identity (stored : option string) (presented : string) : TrustDecision :=
  match stored with
  | None => PairingRequired
  | Some s => if eq_ignore_ascii_case s presented then Trusted else IdentityChanged
  end.

(** ** Frames are exact. *)

Section FrameLemmas.
Context `{Protobuf}.

Definition frame_of (payload : bytes) : bytes :=
  MAGIC ++ [FRAMING_VERSION] ++ [0] ++ [0; 0] ++ to_be_bytes 4 (len payload) ++ payload.

(** What [decode_frame] tests, on a frame with a whole header. *)
Lemma decode_frame_header x0 x1 x2 x3 x4 x5 x6 x7 x8 x9 x10 x11 payload :
  decode_frame ([x0; x1; x2; x3; x4; x5; x6; x7; x8; x9; x10; x11] ++ payload) =
    if negb (bool_decide ([x0; x1; x2; x3] = MAGIC))
    then frame_error ProtocolInvalid "control frame magic is invalid"
    else if negb (x4 =? FRAMING_VERSION)
    then frame_error ProtocolIncompatible "control framing version is unsupported"
    else if negb (x5 =? 0)
    then frame_error ProtocolUnsupportedFlag "control frame contains unsupported flags"
    else if negb (x6 =? 0) || negb (x7 =? 0)
    then frame_error ProtocolInvalid "control frame reserved field must be zero"
    else if MAX_CONTROL_PAYLOAD_BYTES <? from_be_bytes [x8; x9; x10; x11]
    then frame_error ControlFrameTooLarge "control payload exceeds 1 MiB"
    else if negb (len payload =? from_be_bytes [x8; x9; x10; x11])
    then frame_error ProtocolInvalid "control payload length does not match frame"
    else match envelope_decode payload with
         | inr e => Ok e
         | inl m => frame_error ProtocolInvalid ("invalid control protobuf: " +:+ m)
         end.
Proof.
  set (f := [x0; x1; x2; x3; x4; x5; x6; x7; x8; x9; x10; x11] ++ payload).
  assert (Hlen : len f = CONTROL_HEADER_BYTES + len payload) by (unfold f; by rewrite len_app).
  pose proof (len_nonneg payload). unfold decode_frame. rewrite Hlen.
  rewrite (proj2 (Z.ltb_ge _ _)) by lia.
  rewrite (slice_app [] [x0; x1; x2; x3] ([x4; x5; x6; x7; x8; x9; x10; x11] ++ payload)) by done.
  rewrite (slice_app [x0; x1; x2; x3; x4; x5; x6; x7] [x8; x9; x10; x11] payload) by done.
  assert (Hs : slice (E := NetToolError) f CONTROL_HEADER_BYTES
    (CONTROL_HEADER_BYTES + len payload) = Ok payload).
  { pose proof (slice_app (E := NetToolError)
      [x0; x1; x2; x3; x4; x5; x6; x7; x8; x9; x10; x11] payload []
      CONTROL_HEADER_BYTES (CONTROL_HEADER_BYTES + len payload)) as Hs.
    rewrite app_nil_r in Hs. by apply Hs. }
  rewrite Hs.
  cbn [obind]. unfold index, f. simpl.
  destruct (bool_decide _); [|done]. simpl. destruct (x4 =? _); [|done]. simpl.
  destruct (x5 =? 0); [|done]. simpl. destruct (_ || _); [done|].
  destruct (_ <? _); [done|].
  replace (CONTROL_HEADER_BYTES + len payload =? CONTROL_HEADER_BYTES + from_be_bytes [x8; x9; x10; x11])
    with (len payload =? from_be_bytes [x8; x9; x10; x11]); [done|].
  destruct (Z.eqb_spec (len payload) (from_be_bytes [x8; x9; x10; x11])) as [->|Hne].
  - by rewrite Z.eqb_refl.
  - symmetry. apply Z.eqb_neq. lia.
Qed.

Lemma length_field n : exists a b c d,
  to_be_bytes 4 n = [a; b; c; d] /\ (0 <= n < 2 ^ 32 -> from_be_bytes [a; b; c; d] = n).
Proof.
  pose proof (to_be_bytes_length 4 n) as Hl. pose proof (from_to_be_bytes 4 n) as Hf.
  destruct (to_be_bytes 4 n) as [|a [|b [|c [|d [|x l]]]]]; try done.
  exists a, b, c, d. by split.
Qed.

Lemma decode_frame_of payload :
  len payload <= MAX_CONTROL_PAYLOAD_BYTES ->
  decode_frame (frame_of payload) =
    match envelope_decode payload with
    | inr e => Ok e
    | inl m => frame_error ProtocolInvalid ("invalid control protobuf: " +:+ m)
    end.
Proof.
  intros Hl. destruct (length_field (len payload)) as (a&b&c&d&Hf&Hn).
  unfold frame_of. rewrite Hf.
  change (MAGIC ++ [FRAMING_VERSION] ++ [0] ++ [0; 0] ++ [a; b; c; d] ++ payload)
    with ([78; 84; 67; 80; 1; 0; 0; 0; a; b; c; d] ++ payload).
  rewrite decode_frame_header. pose proof (len_nonneg payload).
  rewrite Hn by (unfold MAX_CONTROL_PAYLOAD_BYTES in *; lia).
  rewrite (proj2 (Z.ltb_ge _ _)) by lia. by rewrite (Z.eqb_refl (len payload)).
Qed.

Lemma twelve {A} (f : list A) :
  12 <= len f -> exists x0 x1 x2 x3 x4 x5 x6 x7 x8 x9 x10 x11 payload,
    f = [x0; x1; x2; x3; x4; x5; x6; x7; x8; x9; x10; x11] ++ payload.
Proof.
  unfold len. intros Hl.
  do 12 (destruct f as [|? f]; [simpl in Hl; lia|]). by do 13 eexists.
Qed.

Lemma decode_frame_short f :
  len f < CONTROL_HEADER_BYTES ->
  decode_frame f = frame_error ProtocolInvalid "control frame header is truncated".
Proof. intros Hl. unfold decode_frame. by rewrite (proj2 (Z.ltb_lt _ _)). Qed.

Lemma decode_frame_total f : decode_frame f <> Panic.
Proof.
  destruct (Z.ltb_spec (len f) CONTROL_HEADER_BYTES) as [Hs|Hl]; [by rewrite decode_frame_short|].
  destruct (twelve f Hl) as (x0&x1&x2&x3&x4&x5&x6&x7&x8&x9&x10&x11&p&->).
  rewrite decode_frame_header. by repeat case_match.
Qed.

Lemma decode_frame_accepts f e :
  bytes_ok f -> decode_frame f = Ok e -> exists payload, f = frame_of payload /\
    len payload <= MAX_CONTROL_PAYLOAD_BYTES /\ envelope_decode payload = inr e.
Proof.
  intros Hf Hd. destruct (Z.ltb_spec (len f) CONTROL_HEADER_BYTES) as [Hs|Hl].
  { by rewrite decode_frame_short in Hd. }
  destruct (twelve f Hl) as (x0&x1&x2&x3&x4&x5&x6&x7&x8&x9&x10&x11&p&->). exists p.
  rewrite decode_frame_header in Hd.
  destruct (bool_decide _) eqn:Hm; [|done]. apply bool_decide_eq_true in Hm. injection Hm as -> -> -> ->.
  destruct (Z.eqb_spec x4 FRAMING_VERSION) as [->|]; [|done].
  destruct (Z.eqb_spec x5 0) as [->|]; [|done].
  destruct (Z.eqb_spec x6 0) as [->|]; [|done]. destruct (Z.eqb_spec x7 0) as [->|]; [|done].
  cbn [negb orb] in Hd. destruct (Z.ltb_spec MAX_CONTROL_PAYLOAD_BYTES (from_be_bytes [x8; x9; x10; x11]))
    as [|Hmax]; [done|].
  destruct (Z.eqb_spec (len p) (from_be_bytes [x8; x9; x10; x11])) as [Hp|]; [|done].
  cbn [negb] in Hd. split_and!; [|lia|by destruct (envelope_decode p); [|injection Hd as ->]].
  unfold frame_of. rewrite Hp.
  assert (Hfield : bytes_ok [x8; x9; x10; x11]).
  { apply Forall_app in Hf as [Hf _]. by do 8 (apply Forall_inv_tail in Hf). }
  by rewrite <- (to_from_be_bytes _ Hfield) at 1.
Qed.

(** C40: what [encode_frame] produces decodes to the same message (prost's round
    trip); decoding any bytes returns without a panic; and bytes are accepted as a
    message exactly when they are the twelve-byte header with the length of a
    payload of at most 1 MiB, followed by this payload, and prost decodes the payload
    to the message. Prost also decodes payloads that it would encode otherwise (fields
    in another order, unknown fields), so more frames are accepted than
    [encode_frame] produces. *)
Theorem frame_round_trip e f :
  envelope_decode (encode_to_vec e) = inr e -> bytes_ok f ->
  (encode_frame e = Ok f -> decode_frame f = Ok e) /\
  decode_frame f <> Panic /\
  (decode_frame f = Ok e <-> exists payload, f = frame_of payload /\
     len payload <= MAX_CONTROL_PAYLOAD_BYTES /\ envelope_decode payload = inr e).
Proof.
  intros Hlaw Hf. split_and!; [|apply decode_frame_total|split; [by apply decode_frame_accepts|]].
  - unfold encode_frame. destruct (Z.ltb_spec MAX_CONTROL_PAYLOAD_BYTES (len (encode_to_vec e)));
      [done|]. destruct (_ <? _); [done|]. intros Hfe.
    assert (f = frame_of (encode_to_vec e)) as -> by (unfold frame_of; congruence).
    by rewrite decode_frame_of, Hlaw.
  - intros (p&->&Hl&He). by rewrite decode_frame_of, He.
Qed.
End FrameLemmas.

(** A message, and a codec that knows only this message. *)
Definition sample_envelope : Envelope :=
  {| protocol_major := PROTOCOL_MAJOR; protocol_minor := PROTOCOL_MINOR;
     envelope_request_id := repeat 1 16; message := Some (MPing {| ping_nonce := 7 |}) |}.

Definition sample_protobuf : Protobuf := {|
  encode_to_vec _ := [8; 1; 16; 1];
  envelope_decode b :=
    if bool_decide (b = [8; 1; 16; 1]) then inr sample_envelope else inl "unknown"%string;
|}.

Lemma frame_round_trip_witness :
  let f := [78; 84; 67; 80; 1; 0; 0; 0; 0; 0; 0; 4; 8; 1; 16; 1] in
  encode_frame (H := sample_protobuf) sample_envelope = Ok f /\
  decode_frame (H := sample_protobuf) f = Ok sample_envelope.
Proof.
  split; [by vm_compute|].
  destruct (frame_round_trip (H := sample_protobuf) sample_envelope
    [78; 84; 67; 80; 1; 0; 0; 0; 0; 0; 0; 4; 8; 1; 16; 1]) as (Hd&_); [by vm_compute| |].
  - repeat constructor; lia.
  - apply Hd. by vm_compute.
Defined.

(** ** Negotiation agrees. *)

Lemma by_id_snoc cs c :
  by_id (cs ++ [c]) = if usable c then <[id c := c]> (by_id cs) else by_id cs.
Proof.
  unfold by_id. rewrite List.filter_app, fold_left_app. simpl. by destruct (usable c).
Qed.

Lemma by_id_sound cs i c : by_id cs !! i = Some c -> c ∈ cs /\ usable c = true /\ id c = i.
Proof.
  induction cs as [|x cs IH] using rev_ind; [done|]. rewrite by_id_snoc, elem_of_app.
  destruct (usable x) eqn:Hu; [|naive_solver]. rewrite lookup_insert_Some, list_elem_of_singleton.
  naive_solver.
Qed.

(** No capability is advertised as available twice. *)
Definition unique_ids (cs : list CapabilityRange) : Prop :=
  NoDup (map id (List.filter usable cs)).

Lemma by_id_complete cs c :
  unique_ids cs -> c ∈ cs -> usable c = true -> by_id cs !! id c = Some c.
Proof.
  unfold unique_ids. induction cs as [|x cs IH] using rev_ind; [intros _ Hc; by apply not_elem_of_nil in Hc|].
  rewrite List.filter_app, map_app, by_id_snoc, elem_of_app, list_elem_of_singleton. simpl.
  intros Hn [Hc| ->] Hu.
  - destruct (usable x) eqn:Hx; simpl in Hn; [|rewrite app_nil_r in Hn; auto].
    apply NoDup_app in Hn as (Hn&Hd&_). rewrite lookup_insert_ne; [auto|].
    intros E. apply (Hd (id c)); [|rewrite E; by left].
    apply list_elem_of_In, in_map, filter_In. split; [by apply list_elem_of_In|done].
  - by rewrite Hu, lookup_insert_eq.
Qed.

Abbreviation before := (fun a b => negotiated_id a < negotiated_id b).
Abbreviation not_after := (fun a b => negotiated_id a <= negotiated_id b).

Lemma insert_by_id_perm c l : insert_by_id c l ≡ₚ c :: l.
Proof. induction l as [|x l IH]; simpl; [done|]. case_match; [done|]. rewrite IH. apply perm_swap. Qed.

Lemma sort_by_id_perm l : sort_by_id l ≡ₚ l.
Proof. induction l as [|x l IH]; simpl; [done|]. by rewrite insert_by_id_perm, IH. Qed.

Lemma insert_by_id_sorted c l : StronglySorted not_after l -> StronglySorted not_after (insert_by_id c l).
Proof.
  induction l as [|x l IH]; intros Hs; simpl; [by repeat constructor|].
  inversion Hs as [|? ? Hl Hx]; subst. destruct (Z.leb_spec (negotiated_id c) (negotiated_id x)).
  - constructor; [done|]. constructor; [done|]. eapply Forall_impl; [exact Hx|]. simpl. lia.
  - constructor; [by apply IH|]. rewrite insert_by_id_perm. constructor; [lia|done].
Qed.

Lemma sort_by_id_sorted l : StronglySorted not_after (sort_by_id l).
Proof. induction l as [|x l IH]; simpl; [constructor|]. by apply insert_by_id_sorted. Qed.

Lemma dedup_from_spec l : forall x, StronglySorted not_after (x :: l) ->
  StronglySorted before (dedup_from x l) /\
  (forall c, c ∈ dedup_from x l -> c ∈ x :: l) /\
  (forall c, c ∈ x :: l -> exists c', c' ∈ dedup_from x l /\ negotiated_id c' = negotiated_id c).
Proof.
  induction l as [|y l IH]; intros x Hs; cbn [dedup_from].
  { split_and!; [by repeat constructor|done|]. intros c Hc. by exists c. }
  inversion Hs as [|? ? Hyl Hx]; subst. inversion Hyl as [|? ? Hl Hy]; subst.
  apply Forall_cons in Hx as [Hxy Hxl]. cbn beta in Hxy.
  destruct (Z.eqb_spec (negotiated_id x) (negotiated_id y)) as [He|Hne].
  - destruct (IH x) as (H1&H2&H3); [by constructor|]. split_and!; [done| |].
    + intros c Hc. apply H2 in Hc. rewrite !elem_of_cons in *. naive_solver.
    + intros c Hc. rewrite !elem_of_cons in Hc. destruct Hc as [->|[->|Hc]].
      * apply H3. by left.
      * rewrite <- He. apply H3. by left.
      * apply H3. by right.
  - destruct (IH y Hyl) as (H1&H2&H3). split_and!.
    + constructor; [done|]. apply Forall_forall. intros c Hc. apply H2 in Hc. cbn beta.
      apply elem_of_cons in Hc as [->|Hc]; [lia|]. rewrite Forall_forall in Hy.
      pose proof (Hy c Hc). cbn beta in *. lia.
    + intros c Hc. rewrite !elem_of_cons in *. destruct Hc as [->|Hc]; [by left|].
      apply H2 in Hc. rewrite elem_of_cons in Hc. by right.
    + intros c Hc. apply elem_of_cons in Hc as [->|Hc].
      * exists x. split; [by left|done].
      * destruct (H3 c Hc) as (c'&Hc'&E). exists c'. split; [by right|done].
Qed.

Lemma dedup_spec l : StronglySorted not_after l ->
  StronglySorted before (dedup_by_id l) /\
  (forall c, c ∈ dedup_by_id l -> c ∈ l) /\
  (forall c, c ∈ l -> exists c', c' ∈ dedup_by_id l /\ negotiated_id c' = negotiated_id c).
Proof.
  destruct l as [|x l]; intros Hs; [|by apply dedup_from_spec].
  split_and!; [constructor|done|]. intros c Hc. by apply not_elem_of_nil in Hc.
Qed.

Lemma negotiated_iff local remote c :
  c ∈ sort_by_id (omap (fun l => r ← by_id remote !! id l; common_version l r)
                       (List.filter usable local)) <->
  exists l r, l ∈ local /\ usable l = true /\ by_id remote !! id l = Some r /\
    common_version l r = Some c.
Proof.
  rewrite sort_by_id_perm, list_elem_of_omap. split.
  - intros (l&Hl&Hc). rewrite list_elem_of_In in Hl. apply filter_In in Hl as [Hl Hu].
    apply bind_Some in Hc as (r&Hr&Hc). exists l, r. by rewrite list_elem_of_In.
  - intros (l&r&Hl&Hu&Hr&Hc). exists l. split; [|by rewrite Hr].
    apply list_elem_of_In, filter_In. by rewrite <- list_elem_of_In.
Qed.

Lemma common_version_Some l r c :
  common_version l r = Some c <->
  negotiated_id c = id l /\ version c = Z.min (max_version l) (max_version r) /\
  Z.max (min_version l) (min_version r) <= version c.
Proof.
  unfold common_version. case_match eqn:Hle; rewrite ?Z.leb_le, ?Z.leb_gt in Hle.
  - split; [by intros [= <-]|]. destruct c as [i v]; simpl. by intros (->&->&_).
  - split; [done|]. intros (_&->&?). lia.
Qed.

(** A version that both [l] and [r] support and that is the highest such. *)
Definition highest_common (l r : CapabilityRange) (v : Z) : Prop :=
  min_version l <= v <= max_version l /\ min_version r <= v <= max_version r /\
  forall v', min_version l <= v' <= max_version l -> min_version r <= v' <= max_version r -> v' <= v.

Definition offers (cs : list CapabilityRange) (c : CapabilityRange) : Prop :=
  c ∈ cs /\ available c = true /\ min_version c <= max_version c.

Lemma usable_offers cs c : c ∈ cs -> (usable c = true <-> offers cs c).
Proof. intros Hc. unfold usable, offers. rewrite andb_true_iff, Z.leb_le. tauto. Qed.

Lemma highest_common_iff l r c :
  negotiated_id c = id l ->
  (common_version l r = Some c <-> highest_common l r (version c)).
Proof.
  intros Hid. rewrite common_version_Some. unfold highest_common. split.
  - intros (_&Hv&Hm). split_and!; lia.
  - intros (H1&H2&H3). split_and!; [done| |lia].
    pose proof (H3 (Z.min (max_version l) (max_version r))). lia.
Qed.

(** The entries that two peers should agree on. *)
Definition agreed (local remote : list CapabilityRange) (c : NegotiatedCapability) : Prop :=
  exists l r, offers local l /\ offers remote r /\ id l = negotiated_id c /\
    id r = negotiated_id c /\ highest_common l r (version c).

Lemma agreed_sym local remote c : agreed local remote c -> agreed remote local c.
Proof.
  intros (l&r&Hl&Hr&El&Er&H1&H2&H3). exists r, l. split_and!; try done.
  split; [exact H2|split; [exact H1|]]. intros v ??. by apply H3.
Qed.

Lemma negotiated_agreed local remote c :
  c ∈ negotiate_capabilities local remote -> agreed local remote c.
Proof.
  intros Hc. apply (dedup_spec _ (sort_by_id_sorted _)) in Hc.
  apply negotiated_iff in Hc as (l&r&Hl&Hu&Hr&Hc). apply by_id_sound in Hr as (Hr&Hur&Eid).
  pose proof (proj1 (common_version_Some _ _ _) Hc) as (Hid&_).
  exists l, r. split_and!; [by apply usable_offers|by apply usable_offers|done|congruence|].
  by apply highest_common_iff.
Qed.

Lemma agreed_unique local remote c c' :
  unique_ids local -> unique_ids remote -> agreed local remote c -> agreed local remote c' ->
  negotiated_id c = negotiated_id c' -> c = c'.
Proof.
  intros Ul Ur (l&r&Hl&Hr&El&Er&H1&H2&H3) (l'&r'&Hl'&Hr'&El'&Er'&H1'&H2'&H3') E.
  assert (Hsame : forall cs a b, unique_ids cs -> offers cs a -> offers cs b -> id a = id b -> a = b).
  { intros cs a b Hu [Ha Oa] [Hb Ob] Hab.
    assert (Ua : usable a = true) by by apply (usable_offers cs).
    assert (Ub : usable b = true) by by apply (usable_offers cs).
    pose proof (by_id_complete _ _ Hu Ha Ua) as Fa. pose proof (by_id_complete _ _ Hu Hb Ub) as Fb.
    rewrite Hab in Fa. congruence. }
  assert (l = l') as <- by (apply (Hsame local); congruence).
  assert (r = r') as <- by (apply (Hsame remote); congruence).
  pose proof (H3 _ H1' H2'). pose proof (H3' _ H1 H2). destruct c, c'. simpl in *.
  f_equal; [done|lia].
Qed.

Lemma agreed_negotiated local remote c :
  unique_ids local -> unique_ids remote -> agreed local remote c ->
  c ∈ negotiate_capabilities local remote.
Proof.
  intros Ul Ur Ha. pose proof Ha as (l&r&[Hl Ol]&[Hr Or]&El&Er&Hh).
  assert (Hu : usable l = true) by by apply (usable_offers local).
  assert (Hur : usable r = true) by by apply (usable_offers remote).
  assert (Hc : c ∈ sort_by_id (omap (fun l => r ← by_id remote !! id l; common_version l r)
                       (List.filter usable local))).
  { apply negotiated_iff. exists l, r. split_and!; [done|done| |by apply highest_common_iff].
    rewrite El, <- Er. by apply by_id_complete. }
  destruct (proj2 (proj2 (dedup_spec _ (sort_by_id_sorted _))) c Hc) as (c'&Hc'&E).
  assert (c' = c) as <-; [|done].
  apply (agreed_unique local remote); [done|done|by apply negotiated_agreed|done|done].
Qed.

Lemma sorted_nodup l : StronglySorted before l -> NoDup l.
Proof.
  induction 1 as [|x l Hs IH Hx]; constructor; [|done]. intros Hin.
  rewrite Forall_forall in Hx. pose proof (Hx x Hin). cbn beta in *. lia.
Qed.

(** Capability negotiation: the result is in strictly increasing order of
    the IDs; every entry is the highest version that an available range of each
    side supports; and when no side advertises a capability twice, the result
    has exactly the capabilities with a common version, so both peers compute
    the same list. *)
Theorem negotiation_agrees local remote :
  unique_ids local -> unique_ids remote ->
  StronglySorted before (negotiate_capabilities local remote) /\
  (forall c, c ∈ negotiate_capabilities local remote <-> agreed local remote c) /\
  negotiate_capabilities remote local = negotiate_capabilities local remote.
Proof.
  intros Ul Ur.
  assert (Hiff : forall a b, unique_ids a -> unique_ids b ->
    forall c, c ∈ negotiate_capabilities a b <-> agreed a b c).
  { intros a b Ua Ub c. split; [apply negotiated_agreed|by apply agreed_negotiated]. }
  assert (Hs : forall a b, StronglySorted before (negotiate_capabilities a b)).
  { intros a b. apply (dedup_spec _ (sort_by_id_sorted _)). }
  split_and!; [done|by apply Hiff|].
  assert (Hp : negotiate_capabilities remote local ≡ₚ negotiate_capabilities local remote).
  { apply NoDup_Permutation; [apply sorted_nodup, Hs|apply sorted_nodup, Hs|].
    intros c. rewrite !Hiff by done. split; apply agreed_sym. }
  eapply (StronglySorted_unique_strong before); [|apply Hs|apply Hs|exact Hp].
  intros x1 x2 _ _ ??. cbn beta in *. lia.
Qed.

Lemma negotiation_agrees_witness :
  let local := [{| id := 2; min_version := 1; max_version := 1; available := true |};
                {| id := 1; min_version := 1; max_version := 3; available := true |}] in
  let remote := [{| id := 1; min_version := 2; max_version := 4; available := true |};
                 {| id := 2; min_version := 1; max_version := 1; available := false |}] in
  negotiate_capabilities local remote = [{| negotiated_id := 1; version := 3 |}] /\
  negotiate_capabilities remote local = negotiate_capabilities local remote.
Proof.
  intros local remote. split; [by vm_compute|].
  apply (negotiation_agrees local remote); unfold unique_ids; by apply (bool_decide_unpack _).
Defined.

(** Peers that advertise a capability twice may disagree: the local list keeps
    the first range, the remote one the last. *)
Example duplicate_capabilities_disagree :
  let twice := [{| id := 1; min_version := 1; max_version := 1; available := true |};
                {| id := 1; min_version := 2; max_version := 2; available := true |}] in
  let once := [{| id := 1; min_version := 1; max_version := 2; available := true |}] in
  negotiate_capabilities twice once <> negotiate_capabilities once twice.
Proof. by vm_compute. Qed.
