(* ===== verification/Lifecycle.v ===== *)
(** * Speed test lifecycle

    Model of [crates/speed/src/session.rs]: the phases of a speed test, the
    barrier of the two peers, the scheduled start and the measurement window.
    Methods on [&mut self] are [method]s; time stamps are [u64] values. *)

From stdpp Require Import base strings list.
From Stdlib Require Import ZArith Lia.
From S2P Require Import Prelude ErrorModel.
Open Scope Z_scope.

Inductive SpeedTestPhase :=
  | Negotiate | Prepare | Ready | Warmup | Measure | Cooldown | Finalize | Result | Failed.

#[export] Instance SpeedTestPhase_eq_dec : EqDecision SpeedTestPhase.
Proof. solve_decision. Defined.

Inductive BarrierPeer := Local | Remote.

#[export] Instance BarrierPeer_eq_dec : EqDecision BarrierPeer.
Proof. solve_decision. Defined.

Record MeasurementWindow := {
  started_monotonic_nanoseconds : Z;
  ended_monotonic_nanoseconds : Z;
  elapsed_nanoseconds : Z;
}.

Record SpeedTestLifecycle := {
  phase : SpeedTestPhase;
  local_ready : bool;
  remote_ready : bool;
  start_at : option Z;
  measurement_started : option Z;
  measurement_window : option MeasurementWindow;
}.

Definition new_lifecycle : SpeedTestLifecycle :=
  {| phase := Negotiate; local_ready := false; remote_ready := false; start_at := None;
     measurement_started := None; measurement_window := None |}.

Definition set_phase (p : SpeedTestPhase) (l : SpeedTestLifecycle) : SpeedTestLifecycle :=
  {| phase := p; local_ready := local_ready l; remote_ready := remote_ready l;
     start_at := start_at l; measurement_started := measurement_started l;
     measurement_window := measurement_window l |}.

Abbreviation lifecycle A := (method SpeedTestLifecycle A).

Definition invalid_argument {A} (m : string) : lifecycle A := m_ret (err InvalidArgument m).
Definition invalid_state {A} (m : string) : lifecycle A := m_ret (err InvalidState m).

(** The private [transition]. *)
Definition transition (expected next : SpeedTestPhase) : lifecycle unit := fun l =>
  if negb (bool_decide (phase l = expected))
  then invalid_state "speed test phase transition is invalid" l
  else (set_phase next l, Ok tt).

Definition negotiated : lifecycle unit := transition Negotiate Prepare.

Definition mark_ready (p : BarrierPeer) : lifecycle bool := fun l =>
  if negb (bool_decide (phase l = Prepare) || bool_decide (phase l = Ready))
  then invalid_state "readiness is only valid during prepare" l
  else
    let l := {| phase := phase l;
                local_ready := match p with Local => true | Remote => local_ready l end;
                remote_ready := match p with Remote => true | Local => remote_ready l end;
                start_at := start_at l; measurement_started := measurement_started l;
                measurement_window := measurement_window l |} in
    let l := if local_ready l && remote_ready l then set_phase Ready l else l in
    (l, Ok (bool_decide (phase l = Ready))).

Definition schedule_start (start now : Z) : lifecycle unit := fun l =>
  if negb (bool_decide (phase l = Ready))
  then invalid_state "both peers must be ready before scheduling start" l
  else if start =? 0 then invalid_argument "start_at must be non-zero" l
  else if start <? now then invalid_argument "start_at cannot be in the past" l
  else match start_at l with
       | Some existing =>
           if existing =? start then (l, Ok tt)
           else invalid_state "start_at is already scheduled" l
       | None =>
           ({| phase := phase l; local_ready := local_ready l; remote_ready := remote_ready l;
               start_at := Some start; measurement_started := measurement_started l;
               measurement_window := measurement_window l |}, Ok tt)
       end.

Definition begin_warmup (now : Z) : lifecycle unit := fun l =>
  if negb (bool_decide (phase l = Ready))
  then invalid_state "session is not ready for warmup" l
  else match start_at l with
       | None => invalid_state "start_at has not been scheduled" l
       | Some start =>
           if now <? start then invalid_state "scheduled start time has not arrived" l
           else (set_phase Warmup l, Ok tt)
       end.

Definition begin_measurement (now : Z) : lifecycle unit := fun l =>
  if negb (bool_decide (phase l = Warmup))
  then invalid_state "measurement can only begin after warmup" l
  else
    ({| phase := Measure; local_ready := local_ready l; remote_ready := remote_ready l;
        start_at := start_at l; measurement_started := Some now;
        measurement_window := measurement_window l |}, Ok tt).

Definition end_measurement (now : Z) : lifecycle MeasurementWindow := fun l =>
  if negb (bool_decide (phase l = Measure))
  then invalid_state "measurement is not running" l
  else match measurement_started l with
       | None => invalid_state "measurement start is missing" l
       | Some started =>
           if now <? started then invalid_state "monotonic clock moved backwards" l
           else if now - started =? 0
           then invalid_argument "measurement duration must be greater than zero" l
           else
             let w := {| started_monotonic_nanoseconds := started;
                         ended_monotonic_nanoseconds := now;
                         elapsed_nanoseconds := now - started |} in
             ({| phase := Cooldown; local_ready := local_ready l; remote_ready := remote_ready l;
                 start_at := start_at l; measurement_started := measurement_started l;
                 measurement_window := Some w |}, Ok w)
       end.

Definition finish_cooldown : lifecycle unit := transition Cooldown Finalize.

Definition finish : lifecycle MeasurementWindow := fun l =>
  if negb (bool_decide (phase l = Finalize)) then invalid_state "session is not finalizing" l
  else match measurement_window l with
       | None => invalid_state "measurement window is missing" l
       | Some w => (set_phase Result l, Ok w)
       end.

Definition fail : lifecycle unit := fun l =>
  if bool_decide (phase l = Result) || bool_decide (phase l = Failed)
  then invalid_state "terminal session state cannot change" l
  else (set_phase Failed l, Ok tt).

(** ** Histories. *)

Inductive Call :=
  | Negotiated
  | MarkReady (p : BarrierPeer)
  | ScheduleStart (start now : Z)
  | BeginWarmup (now : Z)
  | BeginMeasurement (now : Z)
  | EndMeasurement (now : Z)
  | FinishCooldown
  | Finish
  | Fail.

(** The lifecycle after a call, and whether it succeeded. *)
Definition call (c : Call) (l : SpeedTestLifecycle) : SpeedTestLifecycle * bool :=
  let run {A} (m : lifecycle A) :=
    let '(l, o) := m l in (l, match o with Ok _ => true | _ => false end) in
  match c with
  | Negotiated => run negotiated
  | MarkReady p => run (mark_ready p)
  | ScheduleStart s n => run (schedule_start s n)
  | BeginWarmup n => run (begin_warmup n)
  | BeginMeasurement n => run (begin_measurement n)
  | EndMeasurement n => run (end_measurement n)
  | FinishCooldown => run finish_cooldown
  | Finish => run finish
  | Fail => run fail
  end.

(** The lifecycle and the successful calls, in order. *)
Definition history (calls : list Call) : SpeedTestLifecycle * list Call :=
  fold_left (fun '(l, done) c =>
    let '(l, ok) := call c l in (l, if ok then done ++ [c] else done)) calls (new_lifecycle, []).

(** The successful calls [done] contain these, in this order. *)
Abbreviation in_order cs done := (cs `sublist_of` done).


(** The calls of a complete test: the barrier is completed by the peer [p]. *)
Definition script (p : BarrierPeer) (s n w b e : Z) : list Call :=
  [Negotiated; MarkReady p; ScheduleStart s n; BeginWarmup w; BeginMeasurement b; EndMeasurement e;
   FinishCooldown; Finish].

Definition window (b e : Z) : MeasurementWindow :=
  {| started_monotonic_nanoseconds := b; ended_monotonic_nanoseconds := e;
     elapsed_nanoseconds := e - b |}.

(** How much of the script a lifecycle has behind it. *)
Definition progress (l : SpeedTestLifecycle) : nat :=
  match phase l with
  | Negotiate => 0 | Prepare => 1 | Ready => match start_at l with None => 2 | Some _ => 3 end
  | Warmup => 4 | Measure => 5 | Cooldown => 6 | Finalize => 7 | Result => 8 | Failed => 0
  end.

(** The fields agree with the script. *)
Definition follows (l : SpeedTestLifecycle) (done : list Call) (p : BarrierPeer)
    (s n w b e : Z) : Prop :=
  in_order (take (progress l) (script p s n w b e)) done /\
  (start_at l = match progress l with 0 | 1 | 2 => None | _ => Some s end)%nat /\
  ((3 <= progress l)%nat -> s <> 0 /\ n <= s) /\
  ((4 <= progress l)%nat -> s <= w) /\
  ((5 <= progress l)%nat -> measurement_started l = Some b) /\
  ((6 <= progress l)%nat -> b < e /\ measurement_window l = Some (window b e)) /\
  ((2 <= progress l)%nat -> local_ready l = true /\ remote_ready l = true).

Definition marked (l : SpeedTestLifecycle) (done : list Call) : Prop :=
  (local_ready l = true -> MarkReady Local ∈ done) /\
  (remote_ready l = true -> MarkReady Remote ∈ done).

Definition behind (l : SpeedTestLifecycle) (done : list Call) : Prop :=
  marked l done /\ (phase l <> Failed -> exists p s n w b e, follows l done p s n w b e).

Lemma in_order_snoc (cs done : list Call) c : in_order cs done -> in_order (cs ++ [c]) (done ++ [c]).
Proof. intros Hs. by apply sublist_app. Qed.

Lemma in_order_more (cs done : list Call) c : in_order cs done -> in_order cs (done ++ [c]).
Proof. intros Hs. by apply sublist_inserts_r. Qed.

Lemma marked_more l done c : marked l done -> marked l (done ++ [c]).
Proof. intros [H1 H2]. split; intros; apply elem_of_app; left; auto. Qed.

Lemma behind_new : behind new_lifecycle [].
Proof.
  split; [done|]. intros _. exists Local, 0, 0, 0, 0, 0. unfold follows, progress. simpl.
  split_and!; try done; intros; lia.
Qed.

(** Open the invariant of a lifecycle that has not failed, and rebuild it. *)
Ltac script_of Hf := destruct Hf as (p0&s0&n0&w0&b0&e0&Hs&Hsa&H3&H4&H5&H6&H2); [done|];
  unfold progress in *; simpl in *.
Ltac same := unfold invalid_state, invalid_argument, m_ret; simpl;
  match goal with H : behind _ _ |- _ => exact H end.
Ltac rescript := unfold follows, progress; simpl; split_and!; try done; try (intros; lia);
  try match goal with H : (_ -> ?c) |- (_ -> ?c) => intros _; apply H; lia end.

Lemma behind_ready p lr rr sa ms mw (done : list Call) :
  let l := {| phase := Prepare; local_ready := lr; remote_ready := rr; start_at := sa;
              measurement_started := ms; measurement_window := mw |} in
  behind l done -> behind (mark_ready p l).1 (done ++ [MarkReady p]).
Proof.
  intros l [[Hl Hr] Hf]. script_of Hf. unfold mark_ready. simpl.
  set (lr' := match p with Local => true | Remote => lr end).
  set (rr' := match p with Local => rr | Remote => true end).
  assert (Hm : forall q, marked {| phase := q; local_ready := lr'; remote_ready := rr';
    start_at := sa; measurement_started := ms; measurement_window := mw |} (done ++ [MarkReady p])).
  { intros q. split; intros E; apply elem_of_app; rewrite list_elem_of_singleton;
      unfold lr', rr' in *; simpl in *; destruct p; auto. }
  destruct (lr' && rr') eqn:Hb; (split; [apply Hm|]); intros _.
  - apply andb_true_iff in Hb as [-> ->]. exists p, s0, n0, w0, b0, e0.
    subst sa. rescript. by apply (in_order_snoc _ _ _ Hs).
  - exists p0, s0, n0, w0, b0, e0. rescript. by apply in_order_more.
Qed.

Lemma behind_call c l (done : list Call) :
  behind l done ->
  let '(l', ok) := call c l in behind l' (if ok then done ++ [c] else done).
Proof.
  intros Hb. pose proof Hb as [Hm Hf]. destruct l as [ph lr rr sa ms mw].
  destruct c as [|p|s n|w|b|e| | |]; destruct ph; simpl;
    unfold schedule_start, begin_warmup, begin_measurement, end_measurement, finish; simpl;
    try (by split); try (split; [by apply marked_more|done]).
  - (* negotiated *)
    script_of Hf. split; [by apply marked_more|]. intros _. exists p0, s0, n0, w0, b0, e0.
    rescript. by apply (in_order_snoc _ _ _ Hs).
  - (* mark_ready, before the barrier *)
    pose proof (behind_ready p lr rr sa ms mw done Hb) as H. unfold mark_ready in *. simpl in *.
    by destruct (_ && _).
  - (* mark_ready again *)
    destruct sa as [x|]; script_of Hf; (destruct H2 as [-> ->]; [lia|]); destruct p; simpl;
      (split; [by apply marked_more|intros _; exists p0, s0, n0, w0, b0, e0; rescript;
               by apply in_order_more]).
  - (* schedule_start *)
    destruct (Z.eqb_spec s 0) as [|Hnz]; [same|]. destruct (Z.ltb_spec s n) as [|Hsn]; [same|].
    destruct sa as [x|].
    + destruct (Z.eqb_spec x s) as [Hxs|]; [|same]. script_of Hf. split; [by apply marked_more|].
      intros _. exists p0, s0, n0, w0, b0, e0. rescript. by apply in_order_more.
    + script_of Hf. split; [by apply marked_more|]. intros _. exists p0, s, n, w0, b0, e0. rescript.
      by apply (in_order_snoc _ _ _ Hs).
  - (* begin_warmup *)
    destruct sa as [x|]; [|same]. destruct (Z.ltb_spec w x) as [|Hwx]; [same|]. script_of Hf.
    injection Hsa as ->. split; [by apply marked_more|]. intros _. exists p0, s0, n0, w, b0, e0.
    rescript. by apply (in_order_snoc _ _ _ Hs).
  - (* begin_measurement *)
    script_of Hf. split; [by apply marked_more|]. intros _. exists p0, s0, n0, w0, b, e0.
    rescript. by apply (in_order_snoc _ _ _ Hs).
  - (* end_measurement *)
    script_of Hf. assert (ms = Some b0) as -> by (apply H5; lia). destruct (Z.ltb_spec e b0) as [|Heb]; [same|].
    destruct (Z.eqb_spec (e - b0) 0) as [|Hne]; [same|]. split; [by apply marked_more|]. intros _.
    exists p0, s0, n0, w0, b0, e. rescript; [by apply (in_order_snoc _ _ _ Hs)|].
    intros _. split; [lia|done].
  - (* finish_cooldown *)
    script_of Hf. split; [by apply marked_more|]. intros _. exists p0, s0, n0, w0, b0, e0. rescript.
    by apply (in_order_snoc _ _ _ Hs).
  - (* finish *)
    script_of Hf. assert (mw = Some (window b0 e0)) as -> by (apply H6; lia). simpl.
    split; [by apply marked_more|]. intros _. exists p0, s0, n0, w0, b0, e0. rescript.
    by apply (in_order_snoc _ _ _ Hs).
Qed.

Lemma history_snoc calls c :
  history (calls ++ [c]) =
    let '(l, done) := history calls in
    let '(l, ok) := call c l in (l, if ok then done ++ [c] else done).
Proof. unfold history. rewrite fold_left_app. simpl. by destruct (fold_left _ _ _). Qed.

Lemma history_behind calls : behind (history calls).1 (history calls).2.
Proof.
  induction calls as [|c calls IH] using rev_ind; [apply behind_new|].
  rewrite history_snoc. destruct (history calls) as [l done]. simpl in IH.
  pose proof (behind_call c l done IH) as H. by destruct (call c l) as [l' ok].
Qed.

(** A call that fails changes nothing. *)
Lemma call_atomic c l : (call c l).2 = false -> (call c l).1 = l.
Proof.
  destruct c; unfold call, negotiated, finish_cooldown, transition, mark_ready, schedule_start,
    begin_warmup, begin_measurement, end_measurement, finish, fail, invalid_state, invalid_argument,
    m_ret, err; repeat (case_match; simplify_eq/=; try done).
Qed.

(** C16: whatever calls were made before, a test that reached the result phase
    went through all phases in order: both peers reported ready before the
    start was scheduled, not in the past; the warmup began at or after the
    scheduled start; and the reported window lies between the monotonic times
    of [begin_measurement] and [end_measurement], with a positive duration that
    is their difference. Calls that failed changed nothing. *)
Theorem lifecycle_complete calls :
  let '(l, done) := history calls in
  (forall c, (call c l).2 = false -> (call c l).1 = l) /\
  (phase l = Result -> exists p s n w b e,
     in_order (script p s n w b e) done /\ (forall q, MarkReady q ∈ done) /\
     n <= s <= w /\ b < e /\ measurement_window l = Some (window b e)).
Proof.
  pose proof (history_behind calls) as [[Hl Hr] Hf]. destruct (history calls) as [l done].
  simpl in *. split; [intros c; apply call_atomic|]. intros Hph.
  destruct Hf as (p&s&n&w&b&e&Hs&_&H3&H4&_&H6&H2); [by rewrite Hph|].
  unfold progress in *. rewrite Hph in *. simpl in *.
  destruct H3 as [_ Hns]; [lia|]. specialize (H4 ltac:(lia)). destruct H6 as [Hbe Hw]; [lia|].
  destruct H2 as [El Er]; [lia|].
  exists p, s, n, w, b, e. split_and!; try done; [by intros []; auto|lia..].
Qed.

Example complete_run :
  let calls := [Negotiated; MarkReady Local; BeginWarmup 1; MarkReady Remote; ScheduleStart 1000 900;
                BeginWarmup 999; BeginWarmup 1000; BeginMeasurement 50000; EndMeasurement 80000;
                FinishCooldown; Finish; Fail] in
  measurement_window (history calls).1 = Some (window 50000 80000) /\
  phase (history calls).1 = Result.
Proof. by vm_compute. Qed.

