(* ===== verification/TcpEngine.v ===== *)
(** * The TCP speed engine

    Model of [crates/speed/src/tcp.rs]: the multi-stream sender and receiver and
    the authorization handshake that precedes the payload of each stream. The
    clock and the outcome of connecting and writing are parameters; the receiver
    runs on the list of what [accept] returns, each connection with the bytes
    its peer sends before closing. [tokio]'s worker set joins in any order. *)

From stdpp Require Import base list strings gmap.
From Stdlib Require Import ZArith Lia.
From S2P Require Import Prelude ErrorModel UdpProtocol.
Open Scope Z_scope.

Definition TCP_AUTH_MAGIC : bytes := [78; 84; 65; 49].
Definition TCP_AUTH_HEADER_BYTES : Z := 26.

Record TcpRunConfig := {
  streams : Z;
  payload_bytes : Z;
  warmup_milliseconds : Z;
  measurement_milliseconds : Z;
}.

#[export] Instance TcpRunConfig_eq_dec : EqDecision TcpRunConfig.
Proof. solve_decision. Defined.

Definition invalid {A} (m : string) : res A := err InvalidArgument m.
Definition authorization_error {A} (m : string) : res A := err DataPlaneUnauthorized m.
Definition io_error (m : string) : NetToolError :=
  new_error SpeedFailed ("TCP speed I/O failed: " +:+ m) true.

Definition validate (c : TcpRunConfig) : res unit :=
  if negb ((1 <=? streams c) && (streams c <=? 128))
  then invalid "TCP streams must be between 1 and 128"
  else if negb ((1024 <=? payload_bytes c) && (payload_bytes c <=? 16 * 1024 * 1024))
  then invalid "TCP payload must be between 1 KiB and 16 MiB"
  else if negb ((100 <=? measurement_milliseconds c) && (measurement_milliseconds c <=? 86400000))
  then invalid "TCP measurement must be between 100 ms and 24 hours"
  else Ok tt.

Record TcpRunResult := {
  result_streams : Z;
  transferred_bytes : Z;
  elapsed_nanoseconds : Z;
  average_bits_per_second : Z;
}.

Record AuthorizedTcpSenderConfig := {
  run : TcpRunConfig;
  sender_session_id : bytes;
  sender_authorization_tag : string;
}.

Record AuthorizedTcpReceiverConfig := {
  expected_streams : Z;
  receiver_session_id : bytes;
  receiver_authorization_tag : string;
}.

Record TcpAuthorization := { auth_session_id : bytes; tag : string }.

(** [result]; [elapsed] is the duration in nanoseconds. *)
Definition result (n transferred elapsed : Z) : TcpRunResult :=
  let nanos := Z.max (clamp 64 elapsed) 1 in
  {| result_streams := n; transferred_bytes := transferred; elapsed_nanoseconds := nanos;
     average_bits_per_second := sat_mul 64 (sat_mul 64 transferred 8) 1000000000 / nanos |}.

(** ** The handshake. *)

(** The bytes that [write_tcp_authorization] writes. *)
Definition tcp_authorization (a : TcpAuthorization) (stream_id : Z) : res bytes :=
  let tag_bytes := as_bytes (tag a) in
  if umax 16 <? len tag_bytes then authorization_error "TCP authorization tag is too long"
  else
    let header := repeat 0 26 in
    let? header := copy_at header 0 TCP_AUTH_MAGIC in
    let? header := copy_at header 4 (auth_session_id a) in
    let? header := copy_at header 20 (to_be_bytes 4 stream_id) in
    let? header := copy_at header 24 (to_be_bytes 2 (len tag_bytes)) in
    Ok (header ++ tag_bytes).

(** A connection as the receiver finds it: the bytes that arrive, the error
    after them ([None]: the peer closes), whether the handshake is complete in
    five seconds, and how many bytes each read returns at most. *)
Record Connection := {
  incoming : bytes;
  failure : option string;
  in_time : bool;
  grain : nat -> Z;
}.

(** [read_exact]. *)
Definition read_exact (c : Connection) (bs : bytes) (n : Z) : res (bytes * bytes) :=
  if n <=? len bs then Ok (take (Z.to_nat n) bs, drop (Z.to_nat n) bs)
  else Err (io_error (default "early eof"%string (failure c))).

(** [read_tcp_authorization]: the stream ID, and the bytes left. *)
Definition read_tcp_authorization (c : Connection) (expected : TcpAuthorization) :
    res (Z * bytes) :=
  let? '(header, rest) := read_exact c (incoming c) TCP_AUTH_HEADER_BYTES in
  let? magic := slice header 0 4 in
  let? session := slice header 4 20 in
  if negb (bool_decide (magic = TCP_AUTH_MAGIC)) ||
     negb (bool_decide (session = auth_session_id expected))
  then authorization_error "TCP authorization session or protocol header mismatch"
  else
    let? id_field := slice header 20 24 in
    let stream_id := from_be_bytes id_field in
    let? length_field := slice header 24 26 in
    let tag_length := from_be_bytes length_field in
    if negb (tag_length =? len (as_bytes (tag expected)))
    then authorization_error "TCP authorization tag length mismatch"
    else
      let? '(presented, rest) := read_exact c rest tag_length in
      if negb (authorization_tag_matches (tag expected) presented)
      then authorization_error "TCP authorization tag mismatch"
      else Ok (stream_id, rest).

(** ** The receiver. *)

Inductive AcceptEvent := Accepted (c : Connection) | AcceptFailed (m : string).

(** The read loop of a worker: [left] bytes are still to come; each read
    returns at least one and at most 64 KiB of them. *)
Fixpoint drain (fuel : nat) (c : Connection) (i : nat) (left count : Z) : res Z :=
  match fuel with
  | O => Panic
  | S fuel =>
      if left =? 0 then
        match failure c with Some m => Err (io_error m) | None => Ok count end
      else
        let k := Z.max 1 (Z.min (Z.min 65536 (grain c i)) left) in
        let? count := ok_or (checked_add 64 count k)
                            (new_error InvalidArgument "TCP byte counter overflow" false) in
        drain fuel c (S i) (left - k) count
  end.

(** A worker's result; every read makes progress, so the bytes bound the reads. *)
Definition worker (c : Connection) (data : bytes) : res Z :=
  drain (S (length data)) c 0 (len data) 0.

(** The accept loop; [ids] is the [HashSet]. [None]: it still waits for a
    connection. *)
Fixpoint accept_loop (n : nat) (expected : Z) (authorization : option TcpAuthorization)
    (ids : list Z) (es : list AcceptEvent) (workers : list (res Z)) :
    res (option (list (res Z))) :=
  match n with
  | O => Ok (Some workers)
  | S n =>
      match es with
      | [] => Ok None
      | AcceptFailed m :: _ => Err (io_error m)
      | Accepted c :: es =>
          match authorization with
          | None =>
              accept_loop n expected authorization ids es (workers ++ [worker c (incoming c)])
          | Some a =>
              if negb (in_time c)
              then authorization_error "TCP authorization handshake timed out"
              else
                let? '(stream_id, rest) := read_tcp_authorization c a in
                if (expected <=? stream_id) || bool_decide (stream_id ∈ ids)
                then authorization_error
                       "TCP authorization stream ID is out of range or duplicated"
                else accept_loop n expected authorization (stream_id :: ids) es
                       (workers ++ [worker c rest])
          end
      end
  end.

(** The join loop: the first error ends it. *)
Fixpoint join_all (ws : list (res Z)) (total : Z) : res Z :=
  match ws with
  | [] => Ok total
  | w :: ws =>
      let? bytes := w in
      let? total := ok_or (checked_add 64 total bytes)
                          (new_error InvalidArgument "TCP byte counter overflow" false) in
      join_all ws total
  end.

(** The order in which the workers are joined, and the duration of the run. *)
Class Joining := {
  join_order : list (res Z) -> list (res Z);
  join_perm l : join_order l ≡ₚ l;
}.

Section Receiver.
Context `{Joining} (elapsed : Z).

Definition run_tcp_receiver_internal (es : list AcceptEvent) (expected : Z)
    (authorization : option TcpAuthorization) : res (option TcpRunResult) :=
  if negb ((1 <=? expected) && (expected <=? 128))
  then invalid "expected TCP streams must be between 1 and 128"
  else
    let? out := accept_loop (Z.to_nat expected) expected authorization [] es [] in
    match out with
    | None => Ok None
    | Some workers =>
        let? total := join_all (join_order workers) 0 in
        Ok (Some (result expected total elapsed))
    end.

Definition run_tcp_receiver (es : list AcceptEvent) (expected : Z) : res (option TcpRunResult) :=
  run_tcp_receiver_internal es expected None.

Definition run_authorized_tcp_receiver (es : list AcceptEvent) (c : AuthorizedTcpReceiverConfig) :
    res (option TcpRunResult) :=
  let? _ := validate_authorization_tag (receiver_authorization_tag c) in
  run_tcp_receiver_internal es (expected_streams c)
    (Some {| auth_session_id := receiver_session_id c; tag := receiver_authorization_tag c |}).
End Receiver.

(** ** The sender. *)

(** The readings of the clock made, the calls that could fail, and the bytes
    written to each stream. *)
Record Net := { reads : nat; calls : nat; written : list bytes }.

(** What a call on a socket does: nothing limits the time of a [connect], a
    [write_all], a [flush] or a [shutdown], so one of them may wait for ever, as
    a [write_all] does whose peer stopped reading. *)
Inductive CallOutcome := Returns | Fails (m : string) | Waits.

(** A computation of the sender: [None] when a call of it waits for ever. *)
Definition net (A : Type) : Type := Net -> Net * option (res A).
Definition n_ret {A} (o : res A) : net A := fun s => (s, Some o).
Definition n_bind {A B} (m : net A) (k : A -> net B) : net B := fun s =>
  match m s with
  | (s, Some (Ok a)) => k a s
  | (s, Some (Err e)) => (s, Some (Err e))
  | (s, Some Panic) => (s, Some Panic)
  | (s, None) => (s, None)
  end.

#[local] Notation "'let*' x := m 'in' k" := (n_bind m (fun x => k))
  (at level 10, x name, m at level 100, k at level 200,
   format "'[v' 'let*'  x  :=  m  'in' '/' k ']'").

Section Sender.
Context (clock : nat -> Z) (outcome_of : nat -> CallOutcome).

Definition now : net Z := fun s =>
  ({| reads := S (reads s); calls := calls s; written := written s |}, Some (Ok (clock (reads s)))).

(** A call on a socket; [effect] is what it does when it returns. What a call
    that fails or waits has already sent is not recorded. *)
Definition attempt (effect : list bytes -> list bytes) : net unit := fun s =>
  let ended ws := {| reads := reads s; calls := S (calls s); written := ws |} in
  match outcome_of (calls s) with
  | Returns => (ended (effect (written s)), Some (Ok tt))
  | Fails m => (ended (written s), Some (Err (io_error m)))
  | Waits => (ended (written s), None)
  end.

Definition connect : net unit := attempt (fun ws => ws ++ [[]]).
Definition write_stream (i : nat) (bs : bytes) : net unit :=
  attempt (alter (fun w => w ++ bs) i).
Definition flush : net unit := attempt id.
Definition shutdown : net unit := attempt id.

(** [write_tcp_authorization]: the header, the tag, a flush. *)
Definition write_tcp_authorization (i : nat) (a : TcpAuthorization) : net unit :=
  let* bs := n_ret (tcp_authorization a (Z.of_nat i)) in
  let* _ := write_stream i (take 26 bs) in
  let* _ := write_stream i (drop 26 bs) in
  flush.

(** The connect loop: [n] streams from [i]. *)
Fixpoint connect_all (n i : nat) (a : option TcpAuthorization) : net unit :=
  match n with
  | O => n_ret (Ok tt)
  | S n =>
      let* _ := connect in
      let* _ := match a with
                | Some a => write_tcp_authorization i a
                | None => n_ret (Ok tt)
                end in
      connect_all n (S i) a
  end.

(** The byte counter, which the warmup does not have ([None]). *)
Definition add_sent (count : option Z) (k : Z) : res (option Z) :=
  match count with
  | None => Ok None
  | Some c =>
      let? c := ok_or (checked_add 64 c k)
                      (new_error InvalidArgument "TCP byte counter overflow" false) in
      Ok (Some c)
  end.

(** [for stream in &mut streams { write_all }] with the byte counter. *)
Fixpoint write_round (n i : nat) (payload : bytes) (count : option Z) : net (option Z) :=
  match n with
  | O => n_ret (Ok count)
  | S n =>
      let* _ := write_stream i payload in
      let* count := n_ret (add_sent count (len payload)) in
      write_round n (S i) payload count
  end.

(** [while Instant::now() < deadline]; [None] when the fuel runs out, the loop
    being still at work. *)
Fixpoint rounds (fuel n : nat) (payload : bytes) (deadline : Z) (count : option Z) :
    net (option (option Z)) :=
  match fuel with
  | O => n_ret (Ok None)
  | S fuel =>
      let* t := now in
      if deadline <=? t then n_ret (Ok (Some count))
      else
        let* count := write_round n 0 payload count in
        rounds fuel n payload deadline count
  end.

Fixpoint shutdown_all (n : nat) : net unit :=
  match n with
  | O => n_ret (Ok tt)
  | S n => let* _ := shutdown in shutdown_all n
  end.

Definition run_tcp_sender_internal (fuel : nat) (c : TcpRunConfig) (a : option TcpAuthorization) :
    net (option TcpRunResult) :=
  let* _ := n_ret (validate c) in
  let n := Z.to_nat (streams c) in
  let* _ := connect_all n 0 a in
  let payload := repeat 0xA5 (Z.to_nat (payload_bytes c)) in
  let* t := now in
  let* warm := (if 0 <? warmup_milliseconds c
                then rounds fuel n payload (t + warmup_milliseconds c * 1000000) None
                else n_ret (Ok (Some None))) in
  match warm with
  | None => n_ret (Ok None)
  | Some _ =>
      let* started := now in
      let* out := rounds fuel n payload (started + measurement_milliseconds c * 1000000) (Some 0) in
      match out with
      | Some (Some transferred) =>
          let* _ := shutdown_all n in
          let* t := now in
          n_ret (Ok (Some (result (streams c) transferred (sat_sub t started))))
      | _ => n_ret (Ok None)
      end
  end.

Definition run_tcp_sender (fuel : nat) (c : TcpRunConfig) : net (option TcpRunResult) :=
  run_tcp_sender_internal fuel c None.

Definition run_authorized_tcp_sender (fuel : nat) (c : AuthorizedTcpSenderConfig) :
    net (option TcpRunResult) :=
  let* _ := n_ret (validate_authorization_tag (sender_authorization_tag c)) in
  run_tcp_sender_internal fuel (run c)
    (Some {| auth_session_id := sender_session_id c; tag := sender_authorization_tag c |}).
End Sender.

(** ** The handshake identifies the stream. *)

(** What precedes the payload of the stream [i]. *)
Definition preamble (a : TcpAuthorization) (i : Z) : bytes :=
  TCP_AUTH_MAGIC ++ auth_session_id a ++ to_be_bytes 4 i ++
  to_be_bytes 2 (len (as_bytes (tag a))) ++ as_bytes (tag a).

(** Sixteen-byte session IDs, and tags of the validated length. *)
Definition usable (a : TcpAuthorization) : Prop :=
  len (auth_session_id a) = 16 /\ len (as_bytes (tag a)) <= 256.

Lemma tcp_authorization_ok a i : usable a -> tcp_authorization a i = Ok (preamble a i).
Proof.
  intros [Hs Ht]. unfold tcp_authorization. rewrite (proj2 (Z.ltb_ge _ _)) by (unfold umax; lia).
  unfold len in Hs. destruct (auth_session_id a) as [|b0 [|b1 [|b2 [|b3 [|b4 [|b5 [|b6 [|b7 [|b8 [|b9
    [|b10 [|b11 [|b12 [|b13 [|b14 [|b15 [|b16 l]]]]]]]]]]]]]]]]] eqn:E; try (simpl in Hs; lia).
  unfold preamble. rewrite E.
  pose proof (to_be_bytes_length 4 i) as Hi. pose proof (to_be_bytes_length 2 (len (as_bytes (tag a)))) as Hl.
  destruct (to_be_bytes 4 i) as [|i0 [|i1 [|i2 [|i3 [|x y]]]]]; try done.
Qed.

Lemma preamble_len a i : usable a -> len (preamble a i) = 26 + len (as_bytes (tag a)).
Proof.
  intros [Hs _]. unfold preamble. rewrite !len_app, !len_to_be_bytes, Hs. unfold TCP_AUTH_MAGIC.
  change (len [78; 84; 65; 49]) with 4. lia.
Qed.

Lemma split_header (bs : bytes) :
  26 <= len bs -> exists m s f t r, bs = (m ++ s ++ f ++ t) ++ r /\
    length m = 4%nat /\ length s = 16%nat /\ length f = 4%nat /\ length t = 2%nat.
Proof.
  unfold len. intros Hl.
  exists (take 4 bs), (take 16 (drop 4 bs)), (take 4 (drop 20 bs)), (take 2 (drop 24 bs)), (drop 26 bs).
  rewrite !length_take, !length_drop. split_and!; try lia.
  replace (drop 26 bs) with (drop 2 (drop 24 bs)) by by rewrite drop_drop.
  rewrite <- !(assoc_L (++)), take_drop.
  replace (drop 24 bs) with (drop 4 (drop 20 bs)) by by rewrite drop_drop.
  rewrite take_drop. replace (drop 20 bs) with (drop 16 (drop 4 bs)) by by rewrite drop_drop.
  by rewrite !take_drop.
Qed.

(** [read_tcp_authorization] on a connection that sends a whole header. *)
Lemma read_header c a (m s f t r : bytes) :
  incoming c = (m ++ s ++ f ++ t) ++ r ->
  length m = 4%nat -> length s = 16%nat -> length f = 4%nat -> length t = 2%nat ->
  read_tcp_authorization c a =
    if negb (bool_decide (m = TCP_AUTH_MAGIC)) || negb (bool_decide (s = auth_session_id a))
    then authorization_error "TCP authorization session or protocol header mismatch"
    else if negb (from_be_bytes t =? len (as_bytes (tag a)))
    then authorization_error "TCP authorization tag length mismatch"
    else
      let? '(presented, rest) := read_exact c r (from_be_bytes t) in
      if negb (authorization_tag_matches (tag a) presented)
      then authorization_error "TCP authorization tag mismatch"
      else Ok (from_be_bytes f, rest).
Proof.
  intros Hi Hm Hs Hf Ht. unfold read_tcp_authorization, read_exact at 1. rewrite Hi.
  assert (Hh : length (m ++ s ++ f ++ t) = 26%nat) by (rewrite !length_app; lia).
  rewrite (proj2 (Z.leb_le _ _)) by (unfold len; rewrite length_app, Hh; unfold TCP_AUTH_HEADER_BYTES; lia).
  change (Z.to_nat TCP_AUTH_HEADER_BYTES) with 26%nat. rewrite <- Hh, take_app_length, drop_app_length.
  cbn [obind].
  rewrite (slice_app [] m (s ++ f ++ t)) by (unfold len; simpl; lia).
  rewrite (slice_app m s (f ++ t)) by (unfold len; lia).
  rewrite (assoc_L (++) m s (f ++ t)), (slice_app (m ++ s) f t)
    by (unfold len; rewrite ?length_app; lia).
  cbn [obind]. destruct (_ || _); [done|].
  rewrite (assoc_L (++) (m ++ s) f t), <- (app_nil_r t) at 1.
  by rewrite (slice_app ((m ++ s) ++ f) t []) by (unfold len; rewrite ?length_app; lia).
Qed.

Lemma read_tcp_authorization_iff c a i rest :
  usable a -> bytes_ok (incoming c) ->
  read_tcp_authorization c a = Ok (i, rest) <->
  incoming c = preamble a i ++ rest /\ uint 32 i.
Proof.
  intros [Hsid Htag] Hb. split.
  - intros Hread. destruct (Z.ltb_spec (len (incoming c)) 26) as [Hshort|Hlong].
    { unfold read_tcp_authorization, read_exact at 1 in Hread.
      by rewrite (proj2 (Z.leb_gt _ _)) in Hread by (unfold TCP_AUTH_HEADER_BYTES; lia). }
    destruct (split_header _ Hlong) as (m&s&f&t&r&Hi&Hm&Hs&Hf&Ht).
    rewrite (read_header c a m s f t r) in Hread by done.
    destruct (bool_decide (m = _)) eqn:Em; [|done]. destruct (bool_decide (s = _)) eqn:Es; [|done].
    apply bool_decide_eq_true in Em as ->. apply bool_decide_eq_true in Es as ->.
    cbn [negb orb] in Hread. destruct (Z.eqb_spec (from_be_bytes t) (len (as_bytes (tag a)))) as [El|];
      [|done]. cbn [negb] in Hread. unfold read_exact in Hread.
    destruct (Z.leb_spec (from_be_bytes t) (len r)) as [Hr|]; [|done]. cbn [obind] in Hread.
    destruct (authorization_tag_matches _ _) eqn:Hmatch; [|done]. apply tag_matches_iff in Hmatch.
    injection Hread as <- <-. rewrite Hi in Hb.
    apply Forall_app in Hb as [Hb _]. apply Forall_app in Hb as [_ Hb].
    apply Forall_app in Hb as [_ Hb]. apply Forall_app in Hb as [Hbf Hbt].
    split; [|apply (from_be_bytes_width 32 f Hbf); unfold len; lia].
    unfold preamble. rewrite Hi, <- El.
    pose proof (to_from_be_bytes f Hbf) as E4. rewrite Hf in E4.
    pose proof (to_from_be_bytes t Hbt) as E2. rewrite Ht in E2. rewrite E4, E2, Hmatch.
    rewrite <- !(assoc_L (++)). by rewrite take_drop.
  - intros [Hi Hu].
    assert (Hi' : incoming c = (TCP_AUTH_MAGIC ++ auth_session_id a ++ to_be_bytes 4 i ++
      to_be_bytes 2 (len (as_bytes (tag a)))) ++ as_bytes (tag a) ++ rest).
    { rewrite Hi. unfold preamble. by rewrite <- !(assoc_L (++)). }
    rewrite (read_header _ _ _ _ _ _ _ Hi') by (rewrite ?to_be_bytes_length; unfold len in Hsid; lia || done).
    rewrite !bool_decide_eq_true_2 by done. cbn [negb orb].
    pose proof (len_nonneg (as_bytes (tag a))).
    rewrite !from_to_be_bytes by (unfold uint, umax in Hu; simpl; lia).
    rewrite Z.eqb_refl. cbn [negb]. unfold read_exact. rewrite len_app. pose proof (len_nonneg rest).
    rewrite (proj2 (Z.leb_le _ _)) by lia. cbn [obind]. unfold len. rewrite Nat2Z.id, take_app_length,
      drop_app_length. by rewrite (proj2 (tag_matches_iff _ _) eq_refl).
Qed.

(** ** The receiver counts what each stream carries. *)

Definition total (l : list Z) : Z := foldr Z.add 0 l.

Lemma drain_ok c k fuel : forall i left count,
  0 <= left < Z.of_nat fuel -> uint 64 count ->
  (drain fuel c i left count = Ok k <->
   failure c = None /\ k = count + left /\ count + left <= umax 64).
Proof.
  induction fuel as [|fuel IH]; intros i left count Hl Hc; [lia|]. cbn [drain]. unfold uint in Hc.
  destruct (Z.eqb_spec left 0) as [->|Hne].
  - rewrite Z.add_0_r. destruct (failure c); [by split; [|intros (?&_)]|].
    split; [intros [= ->]; by split_and!; try lia|by intros (_&->&_)].
  - set (n := Z.max 1 (Z.min (Z.min 65536 (grain c i)) left)).
    assert (Hn : 1 <= n <= left) by lia. unfold checked_add.
    destruct (Z.leb_spec (count + n) (umax 64)) as [Hle|Hgt]; cbn [ok_or obind].
    + rewrite IH by (unfold uint; lia). replace (count + n + (left - n)) with (count + left) by lia. done.
    + split; [done|]. intros (_&_&?). lia.
Qed.

Lemma worker_ok c data k :
  worker c data = Ok k <-> failure c = None /\ k = len data /\ len data <= umax 64.
Proof.
  unfold worker. rewrite drain_ok; [done|unfold len; lia|unfold uint, umax; lia].
Qed.

Lemma total_nonneg l : Forall (fun x => 0 <= x) l -> 0 <= total l.
Proof. induction 1; simpl; lia. Qed.

Lemma total_perm l l' : l ≡ₚ l' -> total l = total l'.
Proof. induction 1; simpl; lia. Qed.

(** Join the workers of these amounts. *)
Lemma join_all_ok ws t : forall acc, acc <= umax 64 ->
  Forall (fun w => forall k, w = Ok k -> 0 <= k) ws ->
  (join_all ws acc = Ok t <->
   exists ns, ws = map Ok ns /\ t = acc + total ns /\ t <= umax 64).
Proof.
  induction ws as [|w ws IH]; intros acc Hacc Hpos; simpl.
  { split.
    - intros [= <-]. exists []. simpl. split_and!; [done|lia|done].
    - intros (ns&Hns&->&_). destruct ns; [simpl; f_equal; lia|done]. }
  apply Forall_cons in Hpos as [Hw Hpos]. destruct w as [k|x|]; simpl.
  2, 3: by split; [|intros ([|]&?&_)].
  specialize (Hw k eq_refl). unfold checked_add.
  destruct (Z.leb_spec (acc + k) (umax 64)) as [Hle|Hgt]; cbn [ok_or obind].
  - rewrite IH by done. split.
    + intros (ns&->&->&Ht). exists (k :: ns). simpl. split_and!; [done|lia|lia].
    + intros ([|k' ns]&Hns&Ht&Hmax); [done|]. injection Hns as <- ->. exists ns. simpl in *.
      split_and!; [done|lia|done].
  - split; [done|]. intros ([|k' ns]&Hns&Ht&Hmax); [done|]. injection Hns as <- ->. exfalso.
    apply Forall_map in Hpos. assert (0 <= total ns).
    { apply total_nonneg. eapply Forall_impl; [exact Hpos|]. intros x Hx. by apply Hx. }
    simpl in Ht. lia.
Qed.

(** ** Admission. *)

(** A stream that the receiver admitted: its connection, its ID, its payload. *)
Record Stream := { conn : Connection; stream : Z; payload : bytes }.

Definition admitted (a : TcpAuthorization) (expected : Z) (x : Stream) : Prop :=
  in_time (conn x) = true /\ incoming (conn x) = preamble a (stream x) ++ payload x /\
  0 <= stream x < expected.

Definition arrivals_ok (es : list AcceptEvent) : Prop :=
  Forall (fun e => match e with Accepted c => bytes_ok (incoming c) | AcceptFailed _ => True end) es.

Lemma accept_loop_ok n expected a : usable a -> expected <= 128 -> forall es ids ws ws',
  arrivals_ok es ->
  accept_loop n expected (Some a) ids es ws = Ok (Some ws') <->
  exists xs es', es = map (fun x => Accepted (conn x)) xs ++ es' /\ length xs = n /\
    Forall (admitted a expected) xs /\ NoDup (map stream xs) /\
    Forall (fun x => stream x ∉ ids) xs /\
    ws' = ws ++ map (fun x => worker (conn x) (payload x)) xs.
Proof.
  intros Ha Hexp. induction n as [|n IH]; intros es ids ws ws' Hes; cbn [accept_loop].
  { split.
    - intros [= <-]. exists [], es. rewrite app_nil_r. split_and!; try done; constructor.
    - intros (xs&es'&_&Hl&_&_&_&->). destruct xs; [by rewrite app_nil_r|done]. }
  destruct es as [|[c|m] es].
  { split; [done|]. intros (xs&es'&He&Hl&_). by destruct xs. }
  2: { split; [done|]. intros (xs&es'&He&Hl&_). by destruct xs. }
  apply Forall_cons in Hes as [Hc Hes].
  destruct (in_time c) eqn:Ht; cbn [negb].
  2: { split; [done|]. intros ([|x xs]&es'&He&Hl&Hadm&_); [done|]. injection He as -> _.
       apply Forall_cons in Hadm as [(Hit&_) _]. congruence. }
  pose proof (read_tcp_authorization_iff c a) as Hread.
  destruct (read_tcp_authorization c a) as [[i rest]|x|] eqn:Er; cbn [obind].
  2, 3: split; [done|]; intros ([|x0 xs]&es'&He&Hl&Hadm&_); [done|]; injection He as -> _;
    apply Forall_cons in Hadm as [(_&Hin&Hu) _];
    destruct (Hread (stream x0) (payload x0) Ha Hc) as [_ Hr]; discriminate Hr;
    split; [done|unfold uint, umax; lia].
  destruct (proj1 (Hread i rest Ha Hc) eq_refl) as [Hin Hu].
  assert (Huniq : forall x, in_time (conn x) = true -> c = conn x -> admitted a expected x ->
    stream x = i /\ payload x = rest).
  { intros x _ -> (_&Hi&Hr). destruct (Hread (stream x) (payload x) Ha Hc) as [_ Hr'].
    assert (Ok (i, rest) = Ok (E := NetToolError) (stream x, payload x)) as [= -> ->]; [|done].
    apply Hr'. split; [done|unfold uint, umax; lia]. }
  destruct ((expected <=? i) || bool_decide (i ∈ ids)) eqn:Hbad.
  - split; [done|]. intros ([|x xs]&es'&He&Hl&Hadm&_&Hids&_); [done|]. injection He as Hcx _.
    apply Forall_cons in Hadm as [Hx _]. apply Forall_cons in Hids as [Hix _].
    destruct (Huniq x) as [Hs _]; [by destruct Hx|done|done|]. destruct Hx as (_&_&Hr).
    apply orb_true_iff in Hbad as [Hle%Z.leb_le|Hb%bool_decide_eq_true]; [lia|congruence].
  - apply orb_false_iff in Hbad as [Hlt%Z.leb_gt Hni%bool_decide_eq_false].
    rewrite IH by done. split.
    + intros (xs&es'&->&Hl&Hadm&Hn&Hids&->).
      exists ({| conn := c; stream := i; payload := rest |} :: xs), es'. simpl.
      split_and!; [done|congruence| | | |by rewrite <- app_assoc].
      * constructor; [|done]. split_and!; [done|done|apply Hu|done].
      * constructor; [|done]. intros Hi. apply list_elem_of_In, in_map_iff in Hi as (x&E&Hx).
        rewrite Forall_forall in Hids. apply (Hids x); [by apply list_elem_of_In|]. rewrite E. by left.
      * constructor; [done|]. eapply Forall_impl; [exact Hids|]. intros x Hx. by apply not_elem_of_cons in Hx as [_ ?].
    + intros ([|x xs]&es'&He&Hl&Hadm&Hn&Hids&->); [done|]. injection He as Hcx ->.
      apply Forall_cons in Hadm as [Hx Hadm]. apply Forall_cons in Hids as [Hix Hids].
      destruct (Huniq x) as [Hs Hp]; [by destruct Hx|done|done|].
      simpl in Hn. apply NoDup_cons in Hn as [Hnx Hn].
      exists xs, es'. split_and!; [done|by injection Hl|done|done| |].
      * apply Forall_forall. intros y Hy. apply not_elem_of_cons. rewrite Forall_forall in Hids.
        split; [|by apply Hids]. intros E. apply Hnx. rewrite Hs, <- E.
        by apply list_elem_of_In, in_map, list_elem_of_In.
      * rewrite <- app_assoc. simpl. by rewrite Hp, Hcx.
Qed.

Lemma ids_cover n (l : list Z) :
  0 <= n -> (length l = Z.to_nat n /\ NoDup l /\ Forall (fun i => 0 <= i < n) l) <-> l ≡ₚ seqZ 0 n.
Proof.
  intros Hn. split.
  - intros (Hl&Hd&Hr). apply submseteq_length_Permutation.
    + apply NoDup_submseteq; [done|]. intros i Hi. rewrite Forall_forall in Hr. specialize (Hr i Hi).
      apply elem_of_seqZ. lia.
    + rewrite length_seqZ. lia.
  - intros Hp. split_and!.
    + by rewrite Hp, length_seqZ.
    + rewrite Hp. apply NoDup_seqZ.
    + apply Forall_forall. intros i Hi. rewrite Hp in Hi. apply elem_of_seqZ in Hi. lia.
Qed.

Lemma validated_tag t : validate_authorization_tag t = Ok tt -> len (as_bytes t) <= 256.
Proof.
  unfold validate_authorization_tag. destruct (negb _) eqn:Hn; [done|]. intros _.
  apply negb_false_iff, andb_true_iff in Hn as [_ Hn%Z.leb_le]. exact Hn.
Qed.

Definition sizes (xs : list Stream) : list Z := map (fun x => len (payload x)) xs.

Lemma sizes_nonneg xs : Forall (fun k => 0 <= k) (sizes xs).
Proof. apply Forall_map, Forall_true. intros x. apply len_nonneg. Qed.

Lemma total_elem l k : Forall (fun x => 0 <= x) l -> k ∈ l -> k <= total l.
Proof.
  induction l as [|x l IH]; intros Hl Hk; [by apply not_elem_of_nil in Hk|].
  apply Forall_cons in Hl as [Hx Hl]. simpl. apply elem_of_cons in Hk as [->|Hk].
  - pose proof (total_nonneg l Hl). lia.
  - specialize (IH Hl Hk). lia.
Qed.

(** Workers that all succeeded carry the sizes of their payloads. *)
Lemma workers_ok xs :
  Forall (fun x => failure (conn x) = None) xs -> Forall (fun k => k <= umax 64) (sizes xs) ->
  map (fun x => worker (conn x) (payload x)) xs = map Ok (sizes xs).
Proof.
  induction xs as [|x xs IH]; intros Hf Hs; [done|].
  apply Forall_cons in Hf as [Hx Hf]. apply Forall_cons in Hs as [Hk Hs]. simpl.
  rewrite IH by done. f_equal. by apply worker_ok.
Qed.

Lemma joined_ok {J : Joining} xs t :
  join_all (join_order (map (fun x => worker (conn x) (payload x)) xs)) 0 = Ok t <->
  Forall (fun x => failure (conn x) = None) xs /\ total (sizes xs) <= umax 64 /\ t = total (sizes xs).
Proof.
  set (ws := map (fun x => worker (conn x) (payload x)) xs).
  assert (Hw : forall w k, w ∈ ws -> w = Ok k -> exists x, x ∈ xs /\
    failure (conn x) = None /\ k = len (payload x) /\ len (payload x) <= umax 64).
  { intros w k Hin ->. apply list_elem_of_In, in_map_iff in Hin as (x&Hk&Hx).
    apply worker_ok in Hk. exists x. by rewrite list_elem_of_In. }
  rewrite join_all_ok; [|by unfold umax; lia|].
  2: { apply Forall_forall. intros w Hin k ->. rewrite join_perm in Hin.
       destruct (Hw _ k Hin eq_refl) as (x&_&_&->&_). apply len_nonneg. }
  split.
  - intros (ns&Hns&->&Ht). pose proof (join_perm ws) as Hp. rewrite Hns in Hp.
    assert (Hall : Forall (fun x => failure (conn x) = None /\ len (payload x) <= umax 64) xs).
    { apply Forall_forall. intros x Hx.
      assert (Hin : worker (conn x) (payload x) ∈ map Ok ns).
      { rewrite Hp. by apply list_elem_of_In, (in_map (fun x => worker (conn x) (payload x))),
          list_elem_of_In. }
      apply list_elem_of_In, in_map_iff in Hin as (k&Hk&_). symmetry in Hk.
      by apply worker_ok in Hk as (?&_&?). }
    apply Forall_and in Hall as [Hf Hs].
    assert (Ews : ws = map Ok (sizes xs)) by (by apply workers_ok, Forall_map).
    rewrite Ews in Hp. destruct (Permutation_map_inv _ _ Hp) as (l&Hl&Hpl).
    assert (ns = l) as ->.
    { clear -Hl. revert l Hl. induction ns as [|n ns IH]; intros [|m l] Hl; try done.
      injection Hl as -> Hl. f_equal. by apply IH. }
    rewrite (total_perm _ _ Hpl). split_and!; [done|lia|lia].
  - intros (Hf&Ht&->).
    assert (Hs : Forall (fun k => k <= umax 64) (sizes xs)).
    { apply Forall_forall. intros k Hk. pose proof (total_elem _ _ (sizes_nonneg xs) Hk). lia. }
    pose proof (join_perm ws) as Hp. unfold ws in Hp. rewrite (workers_ok xs Hf Hs) in Hp.
    destruct (Permutation_map_inv _ _ Hp) as (ns&Hns&Hpn).
    exists ns. unfold ws. rewrite (workers_ok xs Hf Hs), Hns.
    rewrite <- (total_perm _ _ Hpn). split_and!; [done|lia|done].
Qed.

(** A complete stream of the session: its handshake came in time, and the
    payload after it until the peer closed. *)
Definition complete (a : TcpAuthorization) (x : Stream) : Prop :=
  in_time (conn x) = true /\ failure (conn x) = None /\
  incoming (conn x) = preamble a (stream x) ++ payload x.

Section Receiving.
Context {J : Joining} (elapsed : Z) (c : AuthorizedTcpReceiverConfig).
Context (session_16 : len (receiver_session_id c) = 16).
Let a := {| auth_session_id := receiver_session_id c; tag := receiver_authorization_tag c |}.

(** The streams of a whole session. *)
Definition whole (xs : list Stream) : Prop :=
  map stream xs ≡ₚ seqZ 0 (expected_streams c) /\ Forall (complete a) xs /\
  total (sizes xs) <= umax 64.

Lemma whole_ids xs : 1 <= expected_streams c ->
  length xs = Z.to_nat (expected_streams c) /\ NoDup (map stream xs) /\
    Forall (fun i => 0 <= i < expected_streams c) (map stream xs) <->
  map stream xs ≡ₚ seqZ 0 (expected_streams c).
Proof. intros H1. rewrite <- ids_cover by lia. by rewrite length_map. Qed.

(** The checks before the first [accept]. *)
Lemma receiver_starts es :
  validate_authorization_tag (receiver_authorization_tag c) = Ok tt ->
  1 <= expected_streams c <= 128 ->
  run_authorized_tcp_receiver elapsed es c =
    let? out := accept_loop (Z.to_nat (expected_streams c)) (expected_streams c) (Some a) [] es [] in
    match out with
    | None => Ok None
    | Some workers =>
        let? total := join_all (join_order workers) 0 in
        Ok (Some (result (expected_streams c) total elapsed))
    end.
Proof.
  intros Hv Hr. unfold run_authorized_tcp_receiver, run_tcp_receiver_internal. rewrite Hv. cbn [obind].
  by rewrite !(proj2 (Z.leb_le _ _)) by lia.
Qed.

Lemma receiver_counts xs es :
  validate_authorization_tag (receiver_authorization_tag c) = Ok tt ->
  1 <= expected_streams c <= 128 ->
  arrivals_ok (map (fun x => Accepted (conn x)) xs ++ es) -> whole xs ->
  run_authorized_tcp_receiver elapsed (map (fun x => Accepted (conn x)) xs ++ es) c =
    Ok (Some (result (expected_streams c) (total (sizes xs)) elapsed)).
Proof.
  intros Hv Hn Hes (Hp&Hall&Hmax). apply whole_ids in Hp as (Hl&Hnd&Hrange); [|lia].
  assert (Ha : usable a) by (split; [done|by apply validated_tag]).
  rewrite receiver_starts by done.
  rewrite (proj2 (accept_loop_ok (Z.to_nat (expected_streams c)) (expected_streams c) a Ha
    (proj2 Hn) _ [] [] (map (fun x => worker (conn x) (payload x)) xs) Hes)).
  - cbn [obind]. rewrite (proj2 (joined_ok xs (total (sizes xs)))); [done|]. split_and!; [|done|done].
    eapply Forall_impl; [exact Hall|]. by intros x (_&?&_).
  - exists xs, es. split_and!; [done|done| |done|apply Forall_true; intros x; apply not_elem_of_nil|done].
    apply Forall_map in Hrange. apply Forall_forall. intros x Hx. rewrite Forall_forall in Hall, Hrange.
    destruct (Hall x Hx) as (Ht&_&Hi). by split_and!; [| |apply (Hrange x Hx)..].
Qed.
End Receiving.

(** The authorized receiver returns a result exactly when the first [n]
    connections are the [n] streams of its session: each presented in time the
    session ID, the tag and a stream ID, the IDs are [0..n] in some order, and
    each peer sent its payload and closed. The result is then the sum of the
    payloads, whatever the sizes of the reads and the order of the workers; a
    peer without the tag is never counted. *)
Theorem tcp_receiver_exact {J : Joining} (elapsed : Z) (es : list AcceptEvent)
    (c : AuthorizedTcpReceiverConfig) (r : TcpRunResult) :
  len (receiver_session_id c) = 16 -> arrivals_ok es ->
  run_authorized_tcp_receiver elapsed es c = Ok (Some r) <->
  validate_authorization_tag (receiver_authorization_tag c) = Ok tt /\
  1 <= expected_streams c <= 128 /\
  exists xs es', es = map (fun x => Accepted (conn x)) xs ++ es' /\ whole c xs /\
    r = result (expected_streams c) (total (sizes xs)) elapsed.
Proof.
  intros Hsid Hes. split; [|by intros (Hv&Hn&xs&es'&->&Hw&->); apply receiver_counts].
  intros Hr. assert (Hv : validate_authorization_tag (receiver_authorization_tag c) = Ok tt).
  { unfold run_authorized_tcp_receiver in Hr. by destruct (validate_authorization_tag _) as [[]|x|]. }
  assert (Hn : 1 <= expected_streams c <= 128).
  { unfold run_authorized_tcp_receiver, run_tcp_receiver_internal in Hr. rewrite Hv in Hr.
    cbn [obind] in Hr. destruct (negb _) eqn:Hn; [done|].
    apply negb_false_iff, andb_true_iff in Hn as [?%Z.leb_le ?%Z.leb_le]. done. }
  split; [done|]. split; [done|]. rewrite (receiver_starts elapsed c es Hv Hn) in Hr.
  destruct (accept_loop _ _ _ _ _ _) as [[ws|]|x|] eqn:Hacc; cbn [obind] in Hr; try done.
  apply accept_loop_ok in Hacc as (xs&es'&->&Hl&Hadm&Hnd&_&->);
    [|by split; [|apply validated_tag]|lia|done].
  destruct (join_all _ 0) as [t|x|] eqn:Hj; cbn [obind] in Hr; [|done..].
  apply joined_ok in Hj as (Hfail&Hmax&->). injection Hr as <-.
  exists xs, es'. split; [done|]. split; [|done]. split_and!; [|apply Forall_forall|done].
  - apply whole_ids; [lia|]. split_and!; [done|done|]. apply Forall_map.
    eapply Forall_impl; [exact Hadm|]. by intros x (_&_&Hx).
  - intros x Hx. rewrite Forall_forall in Hadm, Hfail. destruct (Hadm x Hx) as (Ht&Hi&_).
    by split_and!; [|apply Hfail|].
Qed.

(** ** The sender. *)

(** What a computation of the sender comes to, if it comes to anything: never a
    panic, and a value satisfies [Q] in the final state. *)
Definition yields {A} (m : net A) (s : Net) (Q : Net -> A -> Prop) : Prop :=
  match m s with
  | (s', Some (Ok v)) => Q s' v
  | (_, Some Panic) => False
  | _ => True
  end.

(** It does come to something. *)
Definition returns {A} (m : net A) (s : Net) : Prop := exists s' o, m s = (s', Some o).

(** With enough fuel it comes to the same end. *)
Definition settles {A} (m : nat -> net A) (s : Net) (Q : Net -> A -> Prop) : Prop :=
  exists fuel0 s' o, o <> Panic /\ (forall v, o = Ok v -> Q s' v) /\
    forall fuel, (fuel0 <= fuel)%nat -> m fuel s = (s', Some o).

Lemma yields_bind {A B} (m : net A) (k : A -> net B) s P Q :
  yields m s P -> (forall s' v, P s' v -> yields (k v) s' Q) -> yields (n_bind m k) s Q.
Proof. unfold yields, n_bind. intros Hm Hk. destruct (m s) as [s' [[v|e|]|]]; [by apply Hk|done..]. Qed.

Lemma yields_weaken {A} (m : net A) s (P Q : Net -> A -> Prop) :
  yields m s P -> (forall s' v, P s' v -> Q s' v) -> yields m s Q.
Proof. unfold yields. intros Hm HQ. destruct (m s) as [s' [[v|e|]|]]; [by apply HQ|done..]. Qed.

Lemma yields_ret {A} (o : res A) s (Q : Net -> A -> Prop) :
  o <> Panic -> (forall v, o = Ok v -> Q s v) -> yields (n_ret o) s Q.
Proof. intros Hp HQ. unfold yields, n_ret. destruct o; auto. Qed.

Lemma returns_bind {A B} (m : net A) (k : A -> net B) s :
  returns m s -> (forall s' v, returns (k v) s') -> returns (n_bind m k) s.
Proof.
  unfold returns, n_bind. intros (s'&o&Hm) Hk. rewrite Hm. destruct o; eauto.
Qed.

Lemma returns_ret {A} (o : res A) s : returns (n_ret o) s.
Proof. by exists s, o. Qed.

Lemma settles_bind {A B} (m : nat -> net A) (k : nat -> A -> net B) s P Q :
  settles m s P -> (forall s' v, P s' v -> settles (fun f => k f v) s' Q) ->
  settles (fun f => n_bind (m f) (k f)) s Q.
Proof.
  intros (f1&s1&o&Hp&HP&Hm) Hk. destruct o as [v|e|]; [|clear Hk|done].
  - destruct (Hk s1 v (HP v eq_refl)) as (f2&s2&o2&Hp2&HQ&Hk2). exists (max f1 f2), s2, o2.
    split_and!; [done|done|]. intros f Hf. unfold n_bind. rewrite Hm by lia. apply Hk2. lia.
  - exists f1, s1, (Err e). split_and!; [done|done|]. intros f Hf. unfold n_bind. by rewrite Hm.
Qed.

(** A computation without fuel. *)
Lemma settles_once {A} (m : net A) s Q : returns m s -> yields m s Q -> settles (fun _ => m) s Q.
Proof.
  unfold yields. intros (s'&o&Hm). rewrite Hm. intros HQ. exists 0%nat, s', o.
  destruct o as [v|e|]; [|by split_and!|done]. split_and!; [done| |done]. by intros ? [= <-].
Qed.

Lemma settles_ret {A} (o : res A) s (Q : Net -> A -> Prop) :
  o <> Panic -> (forall v, o = Ok v -> Q s v) -> settles (fun _ => n_ret o) s Q.
Proof. intros Hp HQ. apply settles_once; [apply returns_ret|by apply yields_ret]. Qed.

(** One more unit of fuel is spent on the first step. *)
Lemma settles_step {A} (m : nat -> net A) s Q : settles (fun f => m (S f)) s Q -> settles m s Q.
Proof.
  intros (f0&s'&o&Hp&HQ&Hm). exists (S f0), s', o. split_and!; [done|done|].
  intros [|f] Hf; [lia|]. apply Hm. lia.
Qed.

Lemma settles_weaken {A} (m : nat -> net A) s (P Q : Net -> A -> Prop) :
  settles m s P -> (forall s' v, P s' v -> Q s' v) -> settles m s Q.
Proof. intros (f0&s'&o&Hp&HP&Hm) HQ. exists f0, s', o. eauto. Qed.

Section SenderLemmas.
Context (clock : nat -> Z) (outcome_of : nat -> CallOutcome).

Lemma yields_now s : yields (now clock) s (fun s' t =>
  t = clock (reads s) /\ reads s' = S (reads s) /\ written s' = written s).
Proof. by split. Qed.

Lemma yields_attempt effect s : yields (attempt outcome_of effect) s (fun s' _ =>
  reads s' = reads s /\ written s' = effect (written s)).
Proof. unfold attempt, yields. by destruct (outcome_of (calls s)). Qed.

(** Appending to the stream [i]. *)
Lemma alter_middle (l : list bytes) w k (f : bytes -> bytes) :
  alter f (length l) (l ++ w :: k) = l ++ f w :: k.
Proof. induction l as [|x l IH]; simpl; [done|]. f_equal. exact IH. Qed.

Lemma yields_authorization a i s ws :
  usable a -> written s = ws ++ [[]] -> length ws = i ->
  yields (write_tcp_authorization outcome_of i a) s (fun s' _ =>
    reads s' = reads s /\ written s' = ws ++ [preamble a (Z.of_nat i)]).
Proof.
  intros Ha Hw <-. unfold write_tcp_authorization. rewrite (tcp_authorization_ok _ _ Ha).
  eapply yields_bind; [apply (yields_ret (Ok _) s (fun s' v => s' = s /\ v = preamble a (Z.of_nat (length ws))))|].
  { done. } { by intros v [= <-]. }
  intros s1 v [-> ->]. eapply yields_bind; [apply yields_attempt|]. intros s2 [] [Hr2 Hw2].
  eapply yields_bind; [apply yields_attempt|]. intros s3 [] [Hr3 Hw3].
  eapply yields_weaken; [apply yields_attempt|]. intros s4 [] [Hr4 Hw4].
  split; [congruence|]. rewrite Hw4. unfold id. rewrite Hw3, Hw2, Hw, !alter_middle.
  by rewrite app_nil_l, take_drop.
Qed.

(** What precedes the payload on the stream [i]. *)
Definition opening (a : option TcpAuthorization) (i : nat) : bytes :=
  match a with Some a => preamble a (Z.of_nat i) | None => [] end.

Lemma yields_connect_all a n : match a with Some a => usable a | None => True end ->
  forall i s, length (written s) = i ->
  yields (connect_all outcome_of n i a) s (fun s' _ =>
    reads s' = reads s /\ written s' = written s ++ map (opening a) (seq i n)).
Proof.
  intros Ha. induction n as [|n IH]; intros i s Hi; cbn [connect_all seq map].
  { apply yields_ret; [done|]. intros _ _. by rewrite app_nil_r. }
  eapply yields_bind; [apply yields_attempt|]. intros s1 [] [Hr1 Hw1].
  eapply (yields_bind _ _ _ (fun s' _ => reads s' = reads s /\ written s' = written s ++ [opening a i])).
  { destruct a as [a|].
    - eapply yields_weaken; [by apply (yields_authorization a i s1 (written s))|].
      intros s2 [] [Hr2 Hw2]. split; [congruence|done].
    - by apply yields_ret. }
  intros s2 [] [Hr2 Hw2]. eapply yields_weaken; [apply (IH (S i))|].
  { rewrite Hw2, length_app. simpl. lia. }
  intros s3 [] [Hr3 Hw3]. split; [congruence|].
  rewrite Hw3, Hw2, <- (assoc_L (++)). done.
Qed.

Definition count_more (count : option Z) (k : Z) : option Z := (fun c => c + k) <$> count.

Lemma add_sent_ok count k v : add_sent count k = Ok v -> v = count_more count k.
Proof.
  destruct count as [c|]; [|by intros [= <-]]. simpl. destruct (checked_add 64 c k) as [c'|] eqn:Hc; [|done].
  apply checked_add_Some in Hc as [-> _]. by intros [= <-].
Qed.

Lemma add_sent_no_panic count k : add_sent count k <> Panic.
Proof. destruct count as [c|]; [|done]. simpl. by destruct (checked_add 64 c k). Qed.

Lemma yields_write_round payload n : forall i s count l1 l2,
  written s = l1 ++ l2 -> length l1 = i -> length l2 = n ->
  yields (write_round outcome_of n i payload count) s (fun s' count' =>
    reads s' = reads s /\ written s' = l1 ++ map (fun w => w ++ payload) l2 /\
    count' = count_more count (Z.of_nat n * len payload)).
Proof.
  induction n as [|n IH]; intros i s count l1 l2 Hw H1 H2; cbn [write_round].
  { destruct l2; [|done]. apply yields_ret; [done|]. intros v [= <-].
    split_and!; [done|done|]. destruct count; simpl; [f_equal; lia|done]. }
  destruct l2 as [|w l2]; [done|]. injection H2 as H2.
  eapply yields_bind; [apply yields_attempt|]. intros s1 [] [Hr1 Hw1].
  eapply (yields_bind _ _ _ (fun s' v => s' = s1 /\ v = count_more count (len payload))).
  { apply yields_ret; [apply add_sent_no_panic|]. intros v Hv%add_sent_ok. done. }
  intros s2 v [-> ->]. subst i. rewrite Hw, alter_middle in Hw1.
  eapply yields_weaken; [apply (IH (S (length l1)) s1 _ (l1 ++ [w ++ payload]) l2)|].
  { by rewrite Hw1, <- (assoc_L (++)). } { rewrite length_app. simpl. lia. } { done. }
  intros s3 v (Hr3&Hw3&->). split_and!; [congruence| |].
  - rewrite Hw3, <- (assoc_L (++)). done.
  - destruct count; simpl; [f_equal; lia|done].
Qed.

Definition copies (k : nat) (payload : bytes) : bytes := concat (repeat payload k).

Lemma copies_none (l : list bytes) p : map (fun w => w ++ copies 0 p) l = l.
Proof. rewrite <- (map_id l) at 2. apply map_ext. intros w. apply app_nil_r. Qed.

(** Whatever the clock and the calls do, a phase writes whole rounds. *)
Lemma yields_rounds payload deadline n fuel : forall s count,
  length (written s) = n ->
  yields (rounds clock outcome_of fuel n payload deadline count) s (fun s' out =>
    out = None \/ exists k : nat,
    written s' = map (fun w => w ++ copies k payload) (written s) /\
    out = Some (count_more count (Z.of_nat k * (Z.of_nat n * len payload)))).
Proof.
  induction fuel as [|fuel IH]; intros s count Hn; cbn [rounds].
  { apply yields_ret; [done|]. intros v [= <-]. by left. }
  eapply yields_bind; [apply yields_now|]. intros s1 t (->&Hr1&Hw1).
  destruct (Z.leb_spec deadline (clock (reads s))) as [Hd|Hd].
  - apply yields_ret; [done|]. intros v [= <-]. right. exists 0%nat. split.
    + by rewrite Hw1, copies_none.
    + destruct count; simpl; [do 2 f_equal; lia|done].
  - eapply yields_bind; [apply (yields_write_round payload n 0 s1 count [] (written s)); [done|done|done]|].
    intros s2 count2 (Hr2&Hw2&->). eapply yields_weaken; [apply (IH s2)|].
    + rewrite Hw2. simpl. by rewrite length_map.
    + intros s3 out [->|(k&Hw3&->)]; [by left|]. right. exists (S k). split.
      * rewrite Hw3, Hw2. simpl. rewrite map_map. apply map_ext. intros w. unfold copies. simpl.
        by rewrite <- (assoc_L (++)).
      * destruct count; simpl; [do 2 f_equal; lia|done].
Qed.

Lemma yields_shutdown_all n : forall s,
  yields (shutdown_all outcome_of n) s (fun s' _ => reads s' = reads s /\ written s' = written s).
Proof.
  induction n as [|n IH]; intros s; cbn [shutdown_all]; [by apply yields_ret|].
  eapply yields_bind; [apply yields_attempt|]. intros s1 [] [Hr1 Hw1].
  eapply yields_weaken; [apply IH|]. intros s2 [] [Hr2 Hw2].
  split; [congruence|]. by rewrite Hw2, Hw1.
Qed.

(** What a complete run has written: on each stream its opening and [k] copies
    of the payload, the last [m] of which were counted. *)
Definition sent_streams (c : TcpRunConfig) (a : option TcpAuthorization) (k : nat) : list bytes :=
  map (fun i => opening a i ++ copies k (repeat 0xA5 (Z.to_nat (payload_bytes c))))
      (seq 0 (Z.to_nat (streams c))).

Lemma validate_range c : validate c = Ok tt ->
  1 <= streams c <= 128 /\ 1024 <= payload_bytes c /\ 100 <= measurement_milliseconds c.
Proof.
  unfold validate. destruct (negb (_ && (streams c <=? 128))) eqn:H1; [done|].
  destruct (negb (_ && (payload_bytes c <=? _))) eqn:H2; [done|].
  destruct (negb (_ && (measurement_milliseconds c <=? _))) eqn:H3; [done|]. intros _.
  rewrite negb_false_iff, andb_true_iff, !Z.leb_le in H1, H2, H3. lia.
Qed.

Lemma validate_no_panic c : validate c <> Panic.
Proof. unfold validate. by repeat case_match. Qed.

Lemma yields_sender fuel c a s :
  match a with Some a => usable a | None => True end -> written s = [] ->
  yields (run_tcp_sender_internal clock outcome_of fuel c a) s (fun s' out =>
    forall r, out = Some r -> exists k m, (m <= k)%nat /\ written s' = sent_streams c a k /\
      validate c = Ok tt /\ result_streams r = streams c /\
      transferred_bytes r = Z.of_nat m * (streams c * payload_bytes c)).
Proof.
  intros Ha Hw. unfold run_tcp_sender_internal.
  eapply yields_bind; [apply (yields_ret _ s (fun s' _ => s' = s /\ validate c = Ok tt));
    [apply validate_no_panic|by intros []]|].
  intros s0 [] [-> Hv]. destruct (validate_range c Hv) as (Hn&Hpb&Hms).
  set (n := Z.to_nat (streams c)). set (p := repeat 0xA5 (Z.to_nat (payload_bytes c))).
  assert (Hp : len p = payload_bytes c) by (unfold p, len; rewrite repeat_length; lia).
  eapply yields_bind; [by apply yields_connect_all; [|rewrite Hw]|]. intros s1 [] [Hr1 Hw1].
  rewrite Hw in Hw1. simpl in Hw1.
  assert (Hl1 : length (written s1) = n) by by rewrite Hw1, length_map, length_seq.
  eapply yields_bind; [apply yields_now|]. intros s2 t (->&Hr2&Hw2).
  eapply (yields_bind _ _ _ (fun s' out => out = None \/ exists k, out = Some None /\
    written s' = map (fun w => w ++ copies k p) (written s1))).
  { destruct (0 <? warmup_milliseconds c).
    - eapply yields_weaken; [apply (yields_rounds p _ n fuel s2 None); by rewrite Hw2|].
      intros s3 out [->|(k&Hw3&->)]; [by left|]. right. exists k. by rewrite Hw3, Hw2.
    - apply yields_ret; [done|]. intros v [= <-]. right. exists 0%nat.
      by rewrite Hw2, copies_none. }
  intros s3 warm [->|(k&->&Hw3)]; [by apply yields_ret; [|intros ? [= <-]]|].
  eapply yields_bind; [apply yields_now|]. intros s4 started (->&Hr4&Hw4). eapply yields_bind.
  { apply (yields_rounds p _ n fuel s4 (Some 0)). by rewrite Hw4, Hw3, length_map. }
  intros s5 out [->|(m&Hw5&->)]; [by apply yields_ret; [|intros ? [= <-]]|].
  cbn [count_more fmap option_fmap option_map].
  eapply yields_bind; [apply yields_shutdown_all|]. intros s6 [] [Hr6 Hw6].
  eapply yields_bind; [apply yields_now|]. intros s7 t (->&Hr7&Hw7).
  apply yields_ret; [done|]. intros v [= <-] r [= <-]. exists (k + m)%nat, m.
  split_and!; [lia| |done|done|].
  - rewrite Hw7, Hw6, Hw5, Hw4, Hw3, Hw1. unfold sent_streams. fold n p. rewrite !map_map.
    apply map_ext. intros i. unfold copies. rewrite <- !(assoc_L (++)). f_equal.
    by rewrite <- concat_app, <- repeat_app.
  - cbn [result transferred_bytes]. rewrite Hp. unfold n. rewrite Z2Nat.id by lia. lia.
Qed.

(** *** Calls that return and a clock that moves on. *)

Hypothesis answered : forall k, outcome_of k <> Waits.
Hypothesis nondecreasing : forall j k, (j <= k)%nat -> clock j <= clock k.
Hypothesis passes : forall t, exists k, t <= clock k.

Lemma returns_attempt effect s : returns (attempt outcome_of effect) s.
Proof.
  unfold returns, attempt. pose proof (answered (calls s)). destruct (outcome_of (calls s)); eauto.
  done.
Qed.

Lemma returns_authorization i a s : returns (write_tcp_authorization outcome_of i a) s.
Proof.
  unfold write_tcp_authorization. repeat (apply returns_bind; [apply returns_ret || apply returns_attempt|intros ? ?]).
  apply returns_attempt.
Qed.

Lemma returns_connect_all n a : forall i s, returns (connect_all outcome_of n i a) s.
Proof.
  induction n as [|n IH]; intros i s; cbn [connect_all]; [apply returns_ret|].
  apply returns_bind; [apply returns_attempt|]. intros ? _. apply returns_bind; [|intros ? _; apply IH].
  destruct a; [apply returns_authorization|apply returns_ret].
Qed.

Lemma returns_write_round payload n : forall i s count, returns (write_round outcome_of n i payload count) s.
Proof.
  induction n as [|n IH]; intros i s count; cbn [write_round]; [apply returns_ret|].
  apply returns_bind; [apply returns_attempt|]. intros ? _. by apply returns_bind; [apply returns_ret|].
Qed.

Lemma returns_shutdown_all n : forall s, returns (shutdown_all outcome_of n) s.
Proof.
  induction n as [|n IH]; intros s; cbn [shutdown_all]; [apply returns_ret|].
  by apply returns_bind; [apply returns_attempt|].
Qed.

(** A phase ends at the reading at which its deadline has passed, if not before. *)
Lemma settles_rounds payload deadline n : forall s count,
  length (written s) = n ->
  settles (fun fuel => rounds clock outcome_of fuel n payload deadline count) s (fun s' out =>
    length (written s') = n /\ exists d, out = Some (count_more count d)).
Proof.
  destruct (passes deadline) as [last Hlast]. intros s. remember (last - reads s)%nat as left eqn:Hleft.
  revert s Hleft. induction left as [left IH] using lt_wf_ind. intros s -> count Hn.
  apply settles_step. cbn [rounds].
  eapply settles_bind; [apply settles_once; [by eexists _, _|apply yields_now]|].
  intros s1 t (->&Hr1&Hw1). destruct (Z.leb_spec deadline (clock (reads s))) as [Hd|Hd].
  - apply settles_ret; [done|]. intros v [= <-]. split; [by rewrite Hw1|].
    exists 0. destruct count; simpl; [do 2 f_equal; lia|done].
  - assert ((reads s < last)%nat).
    { apply Nat.nle_gt. intros Hl. specialize (nondecreasing _ _ Hl). lia. }
    eapply settles_bind; [apply settles_once; [apply returns_write_round|]|].
    { by apply (yields_write_round payload n 0 s1 count [] (written s)). }
    intros s2 count2 (Hr2&Hw2&->).
    eapply settles_weaken; [apply (IH (last - reads s2)%nat); [lia|done|]|].
    + rewrite Hw2. simpl. by rewrite length_map.
    + intros s3 out [Hl3 [d ->]]. split; [done|]. eexists. destruct count; simpl; [|done].
      by rewrite <- Z.add_assoc.
Qed.

Lemma settles_sender c a s :
  match a with Some a => usable a | None => True end -> written s = [] ->
  settles (fun fuel => run_tcp_sender_internal clock outcome_of fuel c a) s (fun _ out => out <> None).
Proof.
  intros Ha Hw. unfold run_tcp_sender_internal.
  eapply settles_bind; [apply (settles_ret _ s (fun s' _ => s' = s));
    [apply validate_no_panic|done]|].
  intros s0 [] ->. set (n := Z.to_nat (streams c)).
  eapply settles_bind; [apply settles_once; [apply returns_connect_all|by apply yields_connect_all; [|rewrite Hw]]|].
  intros s1 [] [_ Hw1]. assert (Hl1 : length (written s1) = n).
  { by rewrite Hw1, Hw, length_app, length_map, length_seq. }
  eapply settles_bind; [apply settles_once; [by eexists _, _|apply yields_now]|].
  intros s2 t (->&_&Hw2).
  eapply (settles_bind _ _ _ (fun s' out => length (written s') = n /\ exists d, out = Some d)).
  { destruct (0 <? warmup_milliseconds c).
    - eapply settles_weaken; [apply settles_rounds; by rewrite Hw2|]. intros s3 out [Hl [d ->]]. eauto.
    - apply settles_ret; [done|]. intros v [= <-]. rewrite Hw2. eauto. }
  intros s3 warm [Hl3 [d ->]].
  eapply settles_bind; [apply settles_once; [by eexists _, _|apply yields_now]|].
  intros s4 started (->&_&Hw4).
  eapply settles_bind; [apply (settles_rounds _ _ n s4 (Some 0)); by rewrite Hw4|].
  intros s5 out [_ [m ->]]. cbn [count_more fmap option_fmap option_map].
  eapply settles_bind; [apply settles_once; [apply returns_shutdown_all|apply yields_shutdown_all]|].
  intros s6 [] _. eapply settles_bind; [apply settles_once; [by eexists _, _|apply yields_now]|].
  intros s7 t _. apply settles_ret; [done|]. by intros v [= <-].
Qed.

End SenderLemmas.

(** ** The engine end to end. *)

(** The connections through which the receiver reads what was written: each
    stream complete, in any order. *)
Definition delivered (conns : list Connection) (ws : list bytes) : Prop :=
  map incoming conns ≡ₚ ws /\ Forall (fun x => in_time x = true /\ failure x = None) conns.

Lemma delivered_streams a n p conns :
  delivered conns (map (fun i => preamble a (Z.of_nat i) ++ p) (seq 0 n)) ->
  exists xs, conns = map conn xs /\ map stream xs ≡ₚ map Z.of_nat (seq 0 n) /\
    Forall (complete a) xs /\ Forall (fun x => payload x = p) xs /\ sizes xs = repeat (len p) n.
Proof.
  intros [Hp Hc]. destruct (Permutation_map_inv _ _ Hp) as (ids&Hm&Hs).
  assert (Hl : length ids = n) by by rewrite <- Hs, length_seq.
  exists (zip_with (fun c i => {| conn := c; stream := Z.of_nat i; payload := p |}) conns ids).
  rewrite (Permutation_map Z.of_nat Hs). clear Hp Hs. subst n.
  revert ids Hm. induction Hc as [|c conns [Ht Hf] _ IH]; intros [|i ids] Hm; try done.
  injection Hm as Hi Hm. destruct (IH ids Hm) as (Hconns&Hstream&Hall&Hpay&Hsizes). simpl.
  split_and!; [by f_equal|by rewrite Hstream|by constructor|by constructor|by rewrite <- Hsizes].
Qed.

Lemma total_repeat k n : total (repeat k n) = Z.of_nat n * k.
Proof. induction n as [|n IH]; [done|]. change (total (repeat k (S n))) with (k + total (repeat k n)). lia. Qed.

Lemma seq_seqZ n : 0 <= n -> map Z.of_nat (seq 0 (Z.to_nat n)) = seqZ 0 n.
Proof. intros Hn. unfold seqZ. apply map_ext. intros i. lia. Qed.

Lemma len_copies k (p : bytes) : len (copies k p) = Z.of_nat k * len p.
Proof.
  induction k as [|k IH]; [done|]. change (copies (S k) p) with (p ++ copies k p).
  rewrite len_app, IH. lia.
Qed.

Lemma copies_ok k p : bytes_ok p -> bytes_ok (copies k p).
Proof. intros Hp. induction k as [|k IH]; [by constructor|]. by apply Forall_app. Qed.

Lemma pattern_ok n : bytes_ok (repeat 0xA5 n).
Proof. induction n; constructor; [unfold is_byte; lia|done]. Qed.

Lemma preamble_bytes a i : bytes_ok (auth_session_id a) -> bytes_ok (preamble a i).
Proof.
  intros Hs. unfold preamble, bytes_ok in *. rewrite !Forall_app. split_and!; [|done|..].
  - by repeat constructor; unfold is_byte; lia.
  - apply to_be_bytes_ok.
  - apply to_be_bytes_ok.
  - apply as_bytes_ok.
Qed.

(** The payload bytes of streams that open with a handshake. *)
Definition carried (t : string) (ws : list bytes) : Z :=
  total (map (fun w => len w - (26 + len (as_bytes t))) ws).

Lemma carried_streams a n p : usable a ->
  carried (tag a) (map (fun i => preamble a (Z.of_nat i) ++ p) (seq 0 n)) = Z.of_nat n * len p.
Proof.
  intros Ha. unfold carried. rewrite map_map. generalize 0%nat.
  induction n as [|n IH]; intros i; [done|]. cbn [seq map total foldr]. fold (total).
  rewrite IH, len_app, preamble_len by done. lia.
Qed.

Definition unconnected : Net := {| reads := 0; calls := 0; written := [] |}.

Lemma tag_no_panic t : validate_authorization_tag t <> Panic.
Proof. unfold validate_authorization_tag. by repeat case_match. Qed.

Lemma sender_sends clock outcome_of fuel (c : AuthorizedTcpSenderConfig) :
  len (sender_session_id c) = 16 ->
  let a := {| auth_session_id := sender_session_id c; tag := sender_authorization_tag c |} in
  yields (run_authorized_tcp_sender clock outcome_of fuel c) unconnected (fun s' out =>
    forall r, out = Some r -> exists k m, (m <= k)%nat /\
      written s' = sent_streams (run c) (Some a) k /\
      validate_authorization_tag (sender_authorization_tag c) = Ok tt /\ validate (run c) = Ok tt /\
      transferred_bytes r = Z.of_nat m * (streams (run c) * payload_bytes (run c))).
Proof.
  intros Hsid a. unfold run_authorized_tcp_sender.
  eapply (yields_bind _ _ _ (fun s' _ => s' = unconnected /\
    validate_authorization_tag (sender_authorization_tag c) = Ok tt)).
  { apply yields_ret; [apply tag_no_panic|by intros []]. }
  intros s1 [] [-> Hv]. eapply yields_weaken.
  { apply (yields_sender clock outcome_of fuel (run c) (Some a)); [|done].
    by split; [|apply validated_tag]. }
  intros s2 out Hout r Hr. destruct (Hout r Hr) as (k&m&Hm&Hw&Hval&_&Ht). by exists k, m.
Qed.

Lemma sender_ends clock outcome_of (c : AuthorizedTcpSenderConfig) :
  (forall k, outcome_of k <> Waits) -> (forall j k, (j <= k)%nat -> clock j <= clock k) ->
  (forall t, exists k, t <= clock k) -> len (sender_session_id c) = 16 ->
  settles (fun fuel => run_authorized_tcp_sender clock outcome_of fuel c) unconnected
    (fun _ out => out <> None).
Proof.
  intros Hwait Hmono Hpass Hsid. unfold run_authorized_tcp_sender.
  eapply (settles_bind _ _ _ (fun s' _ => s' = unconnected /\
    validate_authorization_tag (sender_authorization_tag c) = Ok tt)).
  { apply settles_ret; [apply tag_no_panic|by intros []]. }
  intros s1 [] [-> Hv]. apply settles_sender; try done. by split; [|apply validated_tag].
Qed.

(** What a result of the sender says of the streams of its session. *)
Lemma sender_received {J : Joining} (elapsed : Z) (c : AuthorizedTcpSenderConfig) k conns :
  len (sender_session_id c) = 16 -> bytes_ok (sender_session_id c) ->
  validate_authorization_tag (sender_authorization_tag c) = Ok tt -> validate (run c) = Ok tt ->
  let a := {| auth_session_id := sender_session_id c; tag := sender_authorization_tag c |} in
  let sent := streams (run c) * (Z.of_nat k * payload_bytes (run c)) in
  delivered conns (sent_streams (run c) (Some a) k) -> sent <= umax 64 ->
  run_authorized_tcp_receiver elapsed (map Accepted conns)
    {| expected_streams := streams (run c); receiver_session_id := sender_session_id c;
       receiver_authorization_tag := sender_authorization_tag c |} =
  Ok (Some (result (streams (run c)) sent elapsed)).
Proof.
  intros Hsid Hbytes Hv Hval a sent Hd Hmax.
  destruct (validate_range _ Hval) as (Hn&Hpb&_). set (n := streams (run c)) in *.
  set (p := repeat 0xA5 (Z.to_nat (payload_bytes (run c)))).
  assert (Hp : len p = payload_bytes (run c)) by (unfold p, len; rewrite repeat_length; lia).
  unfold sent_streams in Hd. cbn [opening] in Hd.
  pose proof Hd as [Hperm _]. apply delivered_streams in Hd as (xs&->&Hs&Hall&Hpay&Hsizes).
  fold n in Hs, Hsizes. rewrite seq_seqZ in Hs by lia. fold p in Hsizes.
  assert (Ht' : total (sizes xs) = sent).
  { rewrite Hsizes, total_repeat, len_copies, Hp. unfold sent. lia. }
  rewrite <- Ht', map_map, <- (app_nil_r (map _ xs)).
  apply (receiver_counts elapsed {| expected_streams := n; receiver_session_id := sender_session_id c;
    receiver_authorization_tag := sender_authorization_tag c |} Hsid xs []); [done|cbn; lia| |].
  - rewrite app_nil_r. apply Forall_map, Forall_forall. intros x Hx. rewrite Forall_forall in Hall, Hpay.
    destruct (Hall x Hx) as (_&_&->). apply Forall_app. split; [by apply preamble_bytes|].
    rewrite (Hpay x Hx). apply copies_ok, pattern_ok.
  - split_and!; [done|done|rewrite Ht'; done].
Qed.

Lemma sent_carried (c : AuthorizedTcpSenderConfig) k :
  len (sender_session_id c) = 16 -> validate_authorization_tag (sender_authorization_tag c) = Ok tt ->
  validate (run c) = Ok tt ->
  carried (sender_authorization_tag c) (sent_streams (run c)
    (Some {| auth_session_id := sender_session_id c; tag := sender_authorization_tag c |}) k) =
  streams (run c) * (Z.of_nat k * payload_bytes (run c)).
Proof.
  intros Hsid Hv Hval. destruct (validate_range _ Hval) as (Hn&Hpb&_).
  assert (Ha : usable {| auth_session_id := sender_session_id c; tag := sender_authorization_tag c |})
    by (split; [done|by apply validated_tag]).
  unfold sent_streams. cbn [opening]. rewrite (carried_streams _ _ _ Ha), len_copies.
  unfold len at 1. rewrite repeat_length. lia.
Qed.

(** C15: whatever the clock reads and whichever calls fail or never return, a
    sender never panics, and when it returns a result and its streams reach a
    receiver of the same session, tag and stream count, in any order and with
    any read sizes, the receiver accepts every stream and counts exactly the
    payload bytes written after the handshakes: at least those of the
    measurement window that the sender reports. The sender has no timeout of its
    own: it comes to an end, a result or an error, when every call on its
    sockets returns, its clock never goes back and time passes. *)
Theorem tcp_end_to_end {J : Joining} (clock : nat -> Z) (outcome_of : nat -> CallOutcome)
    (elapsed : Z) (c : AuthorizedTcpSenderConfig) :
  len (sender_session_id c) = 16 -> bytes_ok (sender_session_id c) ->
  let sender fuel := run_authorized_tcp_sender clock outcome_of fuel c unconnected in
  (forall fuel, (sender fuel).2 <> Some Panic /\
    forall r, (sender fuel).2 = Some (Ok (Some r)) ->
      let sent := carried (sender_authorization_tag c) (written (sender fuel).1) in
      transferred_bytes r <= sent /\
      forall conns, delivered conns (written (sender fuel).1) -> sent <= umax 64 ->
        run_authorized_tcp_receiver elapsed (map Accepted conns)
          {| expected_streams := streams (run c); receiver_session_id := sender_session_id c;
             receiver_authorization_tag := sender_authorization_tag c |} =
        Ok (Some (result (streams (run c)) sent elapsed))) /\
  ((forall k, outcome_of k <> Waits) -> (forall j k, (j <= k)%nat -> clock j <= clock k) ->
   (forall t, exists k, t <= clock k) ->
   exists fuel0 final out, out <> Panic /\ out <> Ok None /\
     forall fuel, (fuel0 <= fuel)%nat -> sender fuel = (final, Some out)).
Proof.
  intros Hsid Hbytes sender. split.
  - intros fuel. pose proof (sender_sends clock outcome_of fuel c Hsid) as Hsends.
    unfold yields in Hsends. fold (sender fuel) in Hsends.
    destruct (sender fuel) as [final [[out|x|]|]]; cbn [fst snd]; [|done..].
    split; [done|]. intros r [= ->]. destruct (Hsends r eq_refl) as (k&m&Hm&Hw&Hv&Hval&Ht).
    rewrite Hw, sent_carried by done. destruct (validate_range _ Hval) as (Hn&Hpb&_). split.
    { rewrite Ht, (Z.mul_shuffle3 (streams _)). apply Z.mul_le_mono_nonneg_r; [nia|lia]. }
    intros conns. by apply sender_received.
  - intros Hwait Hmono Hpass.
    destruct (sender_ends clock outcome_of c Hwait Hmono Hpass Hsid) as (f0&final&out&Hp&Hout&Hrun).
    exists f0, final, out. split_and!; [done| |done]. intros ->. by apply (Hout None).
Qed.

Module Sample.
#[local] Instance in_spawn_order : Joining := { join_order := id; join_perm := fun l => reflexivity l }.

(** A reading of the clock takes 60 ms; every call returns. *)
Definition clock (k : nat) : Z := Z.of_nat k * 60000000.
Definition no_failure (k : nat) : CallOutcome := Returns.
Definition session : bytes := map Z.of_nat (seq 1 16).
Definition secret : string := "0123456789abcdef0123456789abcdef".
Definition config : AuthorizedTcpSenderConfig := {|
  run := {| streams := 2; payload_bytes := 1024; warmup_milliseconds := 0;
            measurement_milliseconds := 100 |};
  sender_session_id := session; sender_authorization_tag := secret |}.
Definition sends (i : Z) : bytes :=
  preamble {| auth_session_id := session; tag := secret |} i ++ repeat 0xA5 1024.
Definition receives (i : Z) : Connection :=
  {| incoming := sends i; failure := None; in_time := true; grain := fun _ => 100 |}.

Lemma sample_sent f :
  run_authorized_tcp_sender clock no_failure (S (S f)) config unconnected =
  ({| reads := 5; calls := 12; written := [sends 0; sends 1] |},
   Some (Ok (Some (result 2 2048 180000000)))).
Proof. vm_compute. reflexivity. Qed.

(** The first peer stops reading after its handshake: the sender waits, and no
    error is ever reported. *)
Definition stalled (k : nat) : CallOutcome := if Nat.eqb k 8 then Waits else Returns.

Example stalled_sender f :
  run_authorized_tcp_sender clock stalled (S (S f)) config unconnected =
  ({| reads := 3; calls := 9;
      written := map (fun i => preamble {| auth_session_id := session; tag := secret |} i) [0; 1] |},
   None).
Proof. vm_compute. reflexivity. Qed.

(** The second stream is accepted first; the sender ends with a result. *)
Lemma tcp_end_to_end_witness :
  run_authorized_tcp_receiver 7 (map Accepted [receives 1; receives 0])
    {| expected_streams := 2; receiver_session_id := session;
       receiver_authorization_tag := secret |} = Ok (Some (result 2 2048 7)) /\
  exists fuel0 final out, out <> Panic /\ out <> Ok None /\
    forall fuel, (fuel0 <= fuel)%nat ->
      run_authorized_tcp_sender clock no_failure fuel config unconnected = (final, Some out).
Proof.
  pose proof (tcp_end_to_end clock no_failure 7 config eq_refl ltac:(by repeat constructor)) as [H Hend].
  split.
  - specialize (H 2%nat). cbv zeta in H. rewrite sample_sent in H. destruct H as [_ H].
    destruct (H _ eq_refl) as [_ Hr]. apply (Hr [receives 1; receives 0]).
    + split; [apply perm_swap|by repeat constructor].
    + by vm_compute.
  - apply Hend; [done|unfold clock; lia|]. intros t. exists (Z.to_nat t). unfold clock. lia.
Defined.

Lemma sample_received :
  run_authorized_tcp_receiver 7 (map Accepted [receives 1; receives 0])
    {| expected_streams := 2; receiver_session_id := session;
       receiver_authorization_tag := secret |} = Ok (Some (result 2 2048 7)).
Proof. vm_compute. reflexivity. Qed.

Lemma sample_arrivals : arrivals_ok (map Accepted [receives 1; receives 0]).
Proof. by repeat constructor. Qed.

Lemma tcp_receiver_exact_witness : exists xs,
  map (fun x => Accepted (conn x)) xs ++ [] = map Accepted [receives 1; receives 0] /\
  whole {| expected_streams := 2; receiver_session_id := session;
           receiver_authorization_tag := secret |} xs /\ total (sizes xs) = 2048.
Proof.
  destruct (proj1 (tcp_receiver_exact 7 (map Accepted [receives 1; receives 0])
    {| expected_streams := 2; receiver_session_id := session; receiver_authorization_tag := secret |}
    (result 2 2048 7) eq_refl sample_arrivals) sample_received)
    as (_&_&xs&es&Hes&Hw&Hr).
  exists xs. split; [|split; [done|by injection Hr]].
  destruct Hw as (Hp%Permutation_length&_). rewrite length_map in Hp.
  apply (f_equal length) in Hes as Hl. rewrite length_app, !length_map, Hp in Hl.
  by destruct es; [|simpl in Hl; lia].
Defined.
End Sample.
