(* ===== verification/Session.v ===== *)
(** * Node sessions: data, requests and authorization

    Model of [crates/node/src/session.rs]: the requests and the state of the
    session coordinator, the validation of requests, the authorization of data
    plane connections. [SessionOps] models the operations. *)

From stdpp Require Import base list strings gmap.
From Stdlib Require Import ZArith Lia.
From S2P Require Import Prelude ErrorModel Text Resource Lifecycle UdpProtocol UdpSocket TcpEngine NodeProtocol Generator.
Open Scope Z_scope.

(** [Display] of a socket address. *)
Definition socket_to_string (a : SocketAddr) : string :=
  match a with
  | SocketV4 ip port => ipv4_to_string ip +:+ ":" +:+ dec port
  | SocketV6 ip port _ scope =>
      "[" +:+ ipv6_to_string ip +:+ (if scope =? 0 then "" else "%" +:+ dec scope) +:+ "]:" +:+ dec port
  end.

(** [SocketAddr::ip], [SocketAddr::port] and [SocketAddr::new]. *)
Definition ip (a : SocketAddr) : IpAddr :=
  match a with SocketV4 x _ => V4 x | SocketV6 x _ _ _ => V6 x end.
Definition port (a : SocketAddr) : Z :=
  match a with SocketV4 _ p => p | SocketV6 _ p _ _ => p end.
Definition socket_addr (a : IpAddr) (p : Z) : SocketAddr :=
  match a with V4 x => SocketV4 x p | V6 x => SocketV6 x p 0 0 end.

Definition hex_session_id (id : bytes) : string := hex id.

(** ** Sockets and the host. *)

(** A bound socket: its handle and what [local_addr] returns. *)
Record Socket := { handle : Z; local_addr : string + SocketAddr }.
#[export] Instance Socket_eq_dec : EqDecision Socket.
Proof. solve_decision. Defined.

(** What the operating system answers during one call. *)
Record Host := {
  bind : SocketAddr -> string + Socket;
  random_fill : string + bytes;
}.

(** ** Requests and responses. *)

Record PrepareDpdkReceiverRequest := {
  pd_session_id : bytes; pd_operation_id : string; pd_source_node_id : bytes;
  pd_pci_address : string; pd_duration_milliseconds : Z; pd_remote_mac_address : string;
  pd_authorization_ttl_seconds : Z;
}.
Record PreparedDpdkReceiver := {
  pci_address : string; duration_milliseconds : Z; remote_mac_address : string;
}.
Record PrepareTcpRequest := {
  pt_session_id : bytes; pt_operation_id : string; pt_source_node_id : bytes;
  pt_source_address : IpAddr; pt_bind_address : SocketAddr; pt_config : TcpRunConfig;
  pt_authorization_ttl_seconds : Z;
}.
Record PrepareTcpSenderRequest := {
  pts_session_id : bytes; pts_operation_id : string; pts_source_node_id : bytes;
  pts_source_address : IpAddr; pts_destination : SocketAddr; pts_config : TcpRunConfig;
  pts_authorization_ttl_seconds : Z;
}.
Record PrepareUdpSenderRequest := {
  pus_session_id : bytes; pus_operation_id : string; pus_source_node_id : bytes;
  pus_source_address : IpAddr; pus_destination : SocketAddr; pus_stream_id : Z;
  pus_datagram_bytes : Z; pus_measurement_milliseconds : Z;
  pus_target_bits_per_second : option Z; pus_authorization_ttl_seconds : Z;
}.
Record PrepareTcpBidirectionalRequest := {
  ptb_session_id : bytes; ptb_operation_id : string; ptb_source_node_id : bytes;
  ptb_source_address : IpAddr; ptb_bind_address : SocketAddr; ptb_destination : SocketAddr;
  ptb_config : TcpRunConfig; ptb_authorization_ttl_seconds : Z;
}.
Record PrepareUdpBidirectionalRequest := {
  pub_session_id : bytes; pub_operation_id : string; pub_source_node_id : bytes;
  pub_source_address : SocketAddr; pub_bind_address : IpAddr; pub_destination : SocketAddr;
  pub_stream_id : Z; pub_datagram_bytes : Z; pub_measurement_milliseconds : Z;
  pub_target_bits_per_second : option Z; pub_authorization_ttl_seconds : Z;
}.
Record PrepareUdpRequest := {
  pu_session_id : bytes; pu_operation_id : string; pu_source_node_id : bytes;
  pu_source_address : SocketAddr; pu_bind_address : SocketAddr; pu_stream_id : Z;
  pu_maximum_datagram_bytes : Z; pu_idle_timeout_milliseconds : Z;
  pu_authorization_ttl_seconds : Z;
}.
Record PrepareTcpResponse := {
  tcp_session_id : bytes; tcp_data_port : Z; tcp_authorization_tag : string;
  tcp_expires_at : Z; tcp_response_state : NodeConnectionState;
}.
Record PrepareUdpResponse := {
  udp_session_id : bytes; udp_data_port : Z; udp_authorization_tag : string;
  udp_expires_at : Z; udp_response_state : NodeConnectionState;
}.

#[export] Instance UdpSenderConfig_eq_dec : EqDecision UdpSenderConfig.
Proof. solve_decision. Defined.
#[export] Instance PrepareDpdkReceiverRequest_eq_dec : EqDecision PrepareDpdkReceiverRequest.
Proof. solve_decision. Defined.
#[export] Instance PrepareTcpRequest_eq_dec : EqDecision PrepareTcpRequest.
Proof. solve_decision. Defined.
#[export] Instance PrepareTcpSenderRequest_eq_dec : EqDecision PrepareTcpSenderRequest.
Proof. solve_decision. Defined.
#[export] Instance PrepareUdpSenderRequest_eq_dec : EqDecision PrepareUdpSenderRequest.
Proof. solve_decision. Defined.
#[export] Instance PrepareTcpBidirectionalRequest_eq_dec : EqDecision PrepareTcpBidirectionalRequest.
Proof. solve_decision. Defined.
#[export] Instance PrepareUdpBidirectionalRequest_eq_dec : EqDecision PrepareUdpBidirectionalRequest.
Proof. solve_decision. Defined.
#[export] Instance PrepareUdpRequest_eq_dec : EqDecision PrepareUdpRequest.
Proof. solve_decision. Defined.

Record DataPlaneAuthorization := {
  auth_session : bytes;
  source_node_id : bytes;
  source_address : IpAddr;
  source_port : option Z;
  destination_address : IpAddr;
  protocol : string;
  destination_port : Z;
  authorization_tag : string;
  expires_at_unix_seconds : Z;
}.

Record DataPlaneAttempt := {
  attempt_session : bytes;
  attempt_node : bytes;
  attempt_source : SocketAddr;
  attempt_destination : SocketAddr;
  attempt_protocol : string;
  attempt_tag : string;
  now_unix_seconds : Z;
}.

(** ** Workers. *)

Inductive PreparedSocketReceiver :=
  | TcpReceiver (listener : Socket) (c : AuthorizedTcpReceiverConfig)
  | UdpReceiver (socket : Socket) (c : UdpReceiverConfig).
Inductive PreparedSocketSender :=
  | TcpSender (c : AuthorizedTcpSenderConfig) (destination : SocketAddr)
  | UdpSender (socket : Socket) (c : UdpSenderConfig) (destination : SocketAddr).
Inductive PreparedSocketBidirectional :=
  | TcpBoth (listener : Socket) (r : AuthorizedTcpReceiverConfig) (s : AuthorizedTcpSenderConfig)
      (destination : SocketAddr)
  | UdpBoth (socket : Socket) (r : UdpReceiverConfig) (s : UdpSenderConfig)
      (destination : SocketAddr).

(** ** Sessions. *)

Record TcpSession := {
  t_response : PrepareTcpResponse;
  t_authorization : DataPlaneAuthorization;
  t_config : TcpRunConfig;
  t_listener : option Socket;
  t_state : NodeConnectionState;
  t_reservation_id : string;
  t_lifecycle : SpeedTestLifecycle;
  t_sender_destination : option SocketAddr;
  t_sender_config : option TcpRunConfig;
}.

Record UdpSession := {
  u_response : PrepareUdpResponse;
  u_authorization : DataPlaneAuthorization;
  u_socket : option Socket;
  u_stream_id : Z;
  u_maximum_datagram_bytes : Z;
  u_idle_timeout_milliseconds : Z;
  u_state : NodeConnectionState;
  u_reservation_id : string;
  u_lifecycle : SpeedTestLifecycle;
  u_sender_destination : option SocketAddr;
  u_sender_config : option UdpSenderConfig;
}.

Record DpdkSession := {
  d_authorization : DataPlaneAuthorization;
  d_state : NodeConnectionState;
  d_reservation_id : string;
  d_lifecycle : SpeedTestLifecycle;
  d_plan : option PreparedDpdkReceiver;
}.

Inductive SessionMut := Tcp (s : TcpSession) | Udp (s : UdpSession) | Dpdk (s : DpdkSession).

Inductive OperationRecord :=
  | PrepareTcp (request : PrepareTcpRequest) (response : PrepareTcpResponse)
  | PrepareTcpSender (request : PrepareTcpSenderRequest) (response : PrepareTcpResponse)
  | PrepareTcpBidirectional (request : PrepareTcpBidirectionalRequest) (response : PrepareTcpResponse)
  | PrepareUdpSender (request : PrepareUdpSenderRequest) (response : PrepareUdpResponse)
  | PrepareUdpBidirectional (request : PrepareUdpBidirectionalRequest) (response : PrepareUdpResponse)
  | PrepareUdp (request : PrepareUdpRequest) (response : PrepareUdpResponse)
  | PrepareDpdkReceiver (request : PrepareDpdkReceiverRequest) (plan : PreparedDpdkReceiver)
  | Start (session : bytes) (start_at_unix_nanoseconds : Z) (state : NodeConnectionState)
  | Stop (session : bytes) (state : NodeConnectionState).

Record SessionCoordinator := {
  tcp_sessions : gmap bytes TcpSession;
  udp_sessions : gmap bytes UdpSession;
  dpdk_sessions : gmap bytes DpdkSession;
  operations : gmap string OperationRecord;
  results : gmap bytes TestResult;
  pending_results : gmap bytes TestResult;
  resources : ResourceManager;
}.

Definition new_coordinator : SessionCoordinator :=
  {| tcp_sessions := ∅; udp_sessions := ∅; dpdk_sessions := ∅; operations := ∅; results := ∅;
     pending_results := ∅; resources := new_manager |}.

(** ** Updates of a session. *)

Definition set_t (st : NodeConnectionState) (l : SpeedTestLifecycle) (listener : option Socket)
    (destination : option SocketAddr) (config : option TcpRunConfig) (s : TcpSession) : TcpSession :=
  {| t_response := t_response s; t_authorization := t_authorization s; t_config := t_config s;
     t_listener := listener; t_state := st; t_reservation_id := t_reservation_id s;
     t_lifecycle := l; t_sender_destination := destination; t_sender_config := config |}.

Definition set_u (st : NodeConnectionState) (l : SpeedTestLifecycle) (socket : option Socket)
    (destination : option SocketAddr) (config : option UdpSenderConfig) (s : UdpSession) : UdpSession :=
  {| u_response := u_response s; u_authorization := u_authorization s; u_socket := socket;
     u_stream_id := u_stream_id s; u_maximum_datagram_bytes := u_maximum_datagram_bytes s;
     u_idle_timeout_milliseconds := u_idle_timeout_milliseconds s; u_state := st;
     u_reservation_id := u_reservation_id s; u_lifecycle := l; u_sender_destination := destination;
     u_sender_config := config |}.

Definition set_d (st : NodeConnectionState) (l : SpeedTestLifecycle)
    (plan : option PreparedDpdkReceiver) (s : DpdkSession) : DpdkSession :=
  {| d_authorization := d_authorization s; d_state := st; d_reservation_id := d_reservation_id s;
     d_lifecycle := l; d_plan := plan |}.

(** [impl SessionMut]. *)
Definition authorization (s : SessionMut) : DataPlaneAuthorization :=
  match s with
  | Tcp s => t_authorization s
  | Udp s => u_authorization s
  | Dpdk s => d_authorization s
  end.

Definition state (s : SessionMut) : NodeConnectionState :=
  match s with Tcp s => t_state s | Udp s => u_state s | Dpdk s => d_state s end.

Definition lifecycle (s : SessionMut) : SpeedTestLifecycle :=
  match s with Tcp s => t_lifecycle s | Udp s => u_lifecycle s | Dpdk s => d_lifecycle s end.

Definition reservation_id (s : SessionMut) : string :=
  match s with
  | Tcp s => t_reservation_id s
  | Udp s => u_reservation_id s
  | Dpdk s => d_reservation_id s
  end.

Definition set_state (st : NodeConnectionState) (s : SessionMut) : SessionMut :=
  match s with
  | Tcp s => Tcp (set_t st (t_lifecycle s) (t_listener s) (t_sender_destination s) (t_sender_config s) s)
  | Udp s => Udp (set_u st (u_lifecycle s) (u_socket s) (u_sender_destination s) (u_sender_config s) s)
  | Dpdk s => Dpdk (set_d st (d_lifecycle s) (d_plan s) s)
  end.

Definition set_lifecycle (l : SpeedTestLifecycle) (s : SessionMut) : SessionMut :=
  match s with
  | Tcp s => Tcp (set_t (t_state s) l (t_listener s) (t_sender_destination s) (t_sender_config s) s)
  | Udp s => Udp (set_u (u_state s) l (u_socket s) (u_sender_destination s) (u_sender_config s) s)
  | Dpdk s => Dpdk (set_d (d_state s) l (d_plan s) s)
  end.

(** The configuration of a sender stays in the session. *)
Definition close_endpoint (s : SessionMut) : SessionMut :=
  match s with
  | Tcp s => Tcp (set_t (t_state s) (t_lifecycle s) None (t_sender_destination s) (t_sender_config s) s)
  | Udp s => Udp (set_u (u_state s) (u_lifecycle s) None (u_sender_destination s) (u_sender_config s) s)
  | Dpdk s => Dpdk (set_d (d_state s) (d_lifecycle s) None s)
  end.

(** ** Errors. *)

Definition invalid {A} (m : string) : res A := err InvalidArgument m.
Definition invalid_state {A} (m : string) : res A := err InvalidState m.
Definition operation_conflict : NetToolError :=
  new_error OperationConflict "operation ID was already used by a different request" false.
Definition session_missing : NetToolError :=
  new_error InvalidArgument "session does not exist" false.
Definition io_error (m : string) : NetToolError :=
  new_error SpeedFailed ("dynamic data port allocation failed: " +:+ m) true.

(** ** Authorization of data plane connections. *)

Definition constant_time_eq (expected candidate : bytes) : bool :=
  if negb (len expected =? len candidate) then false
  else
    fold_left (fun difference lr => Z.lor difference (Z.lxor lr.1 lr.2)) (zip expected candidate) 0
    =? 0.

Definition authorize_data_plane (context : DataPlaneAuthorization) (attempt : DataPlaneAttempt) : bool :=
  bool_decide (auth_session context = attempt_session attempt)
  && bool_decide (source_node_id context = attempt_node attempt)
  && bool_decide (source_address context = ip (attempt_source attempt))
  && match source_port context with None => true | Some p => p =? port (attempt_source attempt) end
  && bool_decide (destination_address context = ip (attempt_destination attempt))
  && (destination_port context =? port (attempt_destination attempt))
  && bool_decide (protocol context = attempt_protocol attempt)
  && constant_time_eq (as_bytes (authorization_tag context)) (as_bytes (attempt_tag attempt))
  && (now_unix_seconds attempt <=? expires_at_unix_seconds context).

(** ** Validation of requests. *)

Definition valid_ttl (ttl : Z) : bool := (10 <=? ttl) && (ttl <=? 3600).

Definition validate_prepare (q : PrepareTcpRequest) : res unit :=
  if trimmed_empty (pt_operation_id q) then invalid "operation ID is required"
  else if negb (port (pt_bind_address q) =? 0)
  then invalid "data-plane bind port must be zero for dynamic allocation"
  else if negb (valid_ttl (pt_authorization_ttl_seconds q))
  then invalid "authorization TTL must be between 10 seconds and one hour"
  else TcpEngine.validate (pt_config q).

Definition validate_tcp_sender_prepare (q : PrepareTcpSenderRequest) : res unit :=
  if trimmed_empty (pts_operation_id q) then invalid "operation ID is required"
  else if port (pts_destination q) =? 0
  then invalid "TCP sender destination port must be non-zero"
  else if negb (valid_ttl (pts_authorization_ttl_seconds q))
  then invalid "authorization TTL must be between 10 seconds and one hour"
  else TcpEngine.validate (pts_config q).

Definition validate_tcp_bidirectional_prepare (q : PrepareTcpBidirectionalRequest) : res unit :=
  if trimmed_empty (ptb_operation_id q) then invalid "operation ID is required"
  else if negb (port (ptb_bind_address q) =? 0) || (port (ptb_destination q) =? 0)
  then invalid "TCP bidirectional endpoints are invalid"
  else if negb (valid_ttl (ptb_authorization_ttl_seconds q))
  then invalid "authorization TTL must be between 10 seconds and one hour"
  else TcpEngine.validate (ptb_config q).

Definition prepare_validation_tag : string := "prepare-validation".

Definition validate_udp_prepare (q : PrepareUdpRequest) : res unit :=
  if trimmed_empty (pu_operation_id q) then invalid "operation ID is required"
  else if negb (port (pu_bind_address q) =? 0)
  then invalid "data-plane bind port must be zero for dynamic allocation"
  else if port (pu_source_address q) =? 0
  then invalid "UDP source port must be allocated before prepare"
  else if negb (valid_ttl (pu_authorization_ttl_seconds q))
  then invalid "authorization TTL must be between 10 seconds and one hour"
  else validate_receiver {|
    r_session_id := pu_session_id q; r_stream_id := pu_stream_id q;
    expected_source := pu_source_address q;
    maximum_datagram_bytes := pu_maximum_datagram_bytes q;
    idle_timeout_milliseconds := pu_idle_timeout_milliseconds q;
    r_authorization_tag := prepare_validation_tag |}.

(** The sender configuration of both UDP sender requests. *)
Definition sender_config (session : bytes) (stream datagram milliseconds : Z) (target : option Z)
    (tag : string) : UdpSenderConfig :=
  {| s_session_id := session; s_stream_id := stream; datagram_bytes := datagram;
     UdpSocket.measurement_milliseconds := milliseconds; s_target_bits_per_second := target;
     s_maximum_packets_per_burst := 32; s_authorization_tag := tag |}.

Definition validate_udp_sender_prepare (q : PrepareUdpSenderRequest) : res unit :=
  if trimmed_empty (pus_operation_id q) then invalid "operation ID is required"
  else if port (pus_destination q) =? 0
  then invalid "UDP sender destination port must be non-zero"
  else if negb (valid_ttl (pus_authorization_ttl_seconds q))
  then invalid "authorization TTL must be between 10 seconds and one hour"
  else validate_sender (sender_config (pus_session_id q) (pus_stream_id q) (pus_datagram_bytes q)
         (pus_measurement_milliseconds q) (pus_target_bits_per_second q) prepare_validation_tag).

Definition validate_udp_bidirectional_prepare (q : PrepareUdpBidirectionalRequest) : res unit :=
  if trimmed_empty (pub_operation_id q) then invalid "operation ID is required"
  else if (port (pub_source_address q) =? 0) || (port (pub_destination q) =? 0)
  then invalid "UDP bidirectional endpoints are invalid"
  else if negb (valid_ttl (pub_authorization_ttl_seconds q))
  then invalid "authorization TTL must be between 10 seconds and one hour"
  else validate_sender (sender_config (pub_session_id q) (pub_stream_id q) (pub_datagram_bytes q)
         (pub_measurement_milliseconds q) (pub_target_bits_per_second q) prepare_validation_tag).

Definition valid_dpdk_bdf (value : string) : bool :=
  let bs := as_bytes value in
  (len bs =? 12)
  && bool_decide (bs !! 4%nat = Some 58) && bool_decide (bs !! 7%nat = Some 58)
  && bool_decide (bs !! 10%nat = Some 46)
  && forallb (fun ib => existsb (Nat.eqb ib.1) [4; 7; 10]%nat || is_hex ib.2) (imap pair bs).

Definition valid_dpdk_mac (value : string) : bool :=
  match split_colon [] (as_bytes value) with
  | (first :: _) as parts =>
      (len parts =? 6) && forallb (fun part => (len part =? 2) && forallb is_hex part) parts
      && match parse_hex 0 first with
         | Some first => negb (first =? 0) && (Z.land first 1 =? 0)
         | None => false
         end
  | [] => false
  end.

(** ** Results. *)

(** [serde_json] and SHA-256: whether bytes are JSON, the string that a
    top-level object has under [schema_version], and the digest. *)
Class ResultJson := {
  schema_version : bytes -> string + option string;
  sha256 : bytes -> bytes;
}.

Definition validate_result_json `{ResultJson} (json : bytes) : res unit :=
  match json with
  | [] => invalid "test result JSON is empty or exceeds 1 MiB"
  | _ =>
      if MAX_CONTROL_PAYLOAD_BYTES <? len json
      then invalid "test result JSON is empty or exceeds 1 MiB"
      else
        match schema_version json with
        | inl m => err ProtocolInvalid ("test result JSON is invalid: " +:+ m)
        | inr None | inr (Some EmptyString) =>
            invalid "test result JSON must contain a non-empty schema_version"
        | inr (Some _) => Ok tt
        end
  end.

Definition random_tag (h : Host) : res string :=
  match random_fill h with
  | inl m => Err (new_error RandomFailed ("secure random generation failed: " +:+ m) true)
  | inr bs => Ok (hex bs)
  end.

Definition matching_start (r : OperationRecord) (session : bytes) (start_at : Z) :
    res NodeConnectionState :=
  match r with
  | Start stored stored_start st =>
      if bool_decide (stored = session) && (stored_start =? start_at) then Ok st
      else Err operation_conflict
  | _ => Err operation_conflict
  end.

Definition matching_stop (r : OperationRecord) (session : bytes) : res NodeConnectionState :=
  match r with
  | Stop stored st => if bool_decide (stored = session) then Ok st else Err operation_conflict
  | _ => Err operation_conflict
  end.

(** ** The authorization check is exact. *)

Lemma lor_fold_zero (l : list (Z * Z)) acc : 0 <= acc ->
  Forall (fun lr => 0 <= lr.1 /\ 0 <= lr.2) l ->
  fold_left (fun d lr => Z.lor d (Z.lxor lr.1 lr.2)) l acc = 0 <->
  acc = 0 /\ Forall (fun lr => lr.1 = lr.2) l.
Proof.
  revert acc. induction l as [|[a b] l IH]; intros acc Hacc Hl; simpl.
  { split; [|by intros [? _]]. intros ->. by split; [|constructor]. }
  apply Forall_cons in Hl as [[Ha Hb] Hl]. simpl in *.
  assert (0 <= Z.lxor a b) by (by apply Z.lxor_nonneg).
  rewrite IH, Forall_cons, Z.lor_eq_0_iff, Z.lxor_eq_0_iff; [simpl; tauto| |done].
  by apply Z.lor_nonneg.
Qed.

Lemma constant_time_eq_spec a b : bytes_ok a -> bytes_ok b -> constant_time_eq a b = true <-> a = b.
Proof.
  intros Ha Hb. unfold constant_time_eq. destruct (Z.eqb_spec (len a) (len b)) as [Hl|Hl]; simpl;
    [|split; [done|by intros ->]].
  apply Nat2Z.inj in Hl. rewrite Z.eqb_eq, lor_fold_zero; [|lia|].
  - split; [intros [_ H]|intros ->; split; [done|]].
    + revert b Hb Hl H. induction Ha as [|x a Hx Ha IH]; intros [|y b] Hb Hl H; try done.
      apply Forall_cons in H as [Hxy H]. apply Forall_cons in Hb as [_ Hb]. simpl in Hxy. subst y.
      f_equal. apply IH; [done|by injection Hl|done].
    + clear. induction b; simpl; by constructor.
  - revert b Hb Hl. induction Ha as [|x a Hx Ha IH]; intros [|y b] Hb Hl; try (by constructor).
    apply Forall_cons in Hb as [Hy Hb]. unfold is_byte in Hx, Hy. constructor; [simpl; lia|].
    apply IH; [done|by injection Hl].
Qed.

Lemma authorize_iff (context : DataPlaneAuthorization) (attempt : DataPlaneAttempt) :
  authorize_data_plane context attempt = true <->
  attempt_session attempt = auth_session context /\
  attempt_node attempt = source_node_id context /\
  ip (attempt_source attempt) = source_address context /\
  (forall p, source_port context = Some p -> port (attempt_source attempt) = p) /\
  ip (attempt_destination attempt) = destination_address context /\
  port (attempt_destination attempt) = destination_port context /\
  attempt_protocol attempt = protocol context /\
  attempt_tag attempt = authorization_tag context /\
  now_unix_seconds attempt <= expires_at_unix_seconds context.
Proof.
  unfold authorize_data_plane.
  rewrite !andb_true_iff, !bool_decide_eq_true, Z.eqb_eq, Z.leb_le,
    constant_time_eq_spec by apply as_bytes_ok.
  assert (forall o q, (match o with None => true | Some p => p =? q end) = true <->
    forall p, o = Some p -> q = p) as ->.
  { intros [p|] q; [rewrite Z.eqb_eq|]; naive_solver. }
  assert (as_bytes (authorization_tag context) = as_bytes (attempt_tag attempt) <->
    attempt_tag attempt = authorization_tag context) as ->
    by (split; [by intros ?%as_bytes_inj|by intros ->]).
  intuition congruence.
Qed.

(** C14: a connection is authorized exactly when it presents the session, node and
    tag of the authorization, comes from its source, at its source port when one is
    fixed, goes to its destination with its protocol, and is not late: the
    comparison in constant time is the equality of the tags. *)
Theorem data_plane_authorization (context : DataPlaneAuthorization) (attempt : DataPlaneAttempt) :
  authorize_data_plane context attempt = true <->
  attempt_session attempt = auth_session context /\
  attempt_node attempt = source_node_id context /\
  ip (attempt_source attempt) = source_address context /\
  (forall p, source_port context = Some p -> port (attempt_source attempt) = p) /\
  ip (attempt_destination attempt) = destination_address context /\
  port (attempt_destination attempt) = destination_port context /\
  attempt_protocol attempt = protocol context /\
  attempt_tag attempt = authorization_tag context /\
  now_unix_seconds attempt <= expires_at_unix_seconds context.
Proof. apply authorize_iff. Qed.
