(* ===== verification/SessionOps.v ===== *)
(** * Node sessions: the operations of the coordinator

    Model of [SessionCoordinator] in [crates/node/src/session.rs] and
    [crates/node/src/session_prepare_*.rs]. Each method returns the coordinator
    also when it fails. What the operating system answers to [bind] and to the
    random generator is an argument of the call ([Host]). *)

From stdpp Require Import base list strings gmap.
From Stdlib Require Import ZArith Lia.
From S2P Require Import Prelude ErrorModel Text Resource Lifecycle UdpProtocol UdpSocket TcpEngine NodeProtocol Session.
Open Scope Z_scope.

Abbreviation op A := (method SessionCoordinator A).

Definition set_tcp (m : gmap bytes TcpSession) (c : SessionCoordinator) : SessionCoordinator :=
  {| tcp_sessions := m; udp_sessions := udp_sessions c; dpdk_sessions := dpdk_sessions c;
     operations := operations c; results := results c; pending_results := pending_results c;
     resources := resources c |}.
Definition set_udp (m : gmap bytes UdpSession) (c : SessionCoordinator) : SessionCoordinator :=
  {| tcp_sessions := tcp_sessions c; udp_sessions := m; dpdk_sessions := dpdk_sessions c;
     operations := operations c; results := results c; pending_results := pending_results c;
     resources := resources c |}.
Definition set_dpdk (m : gmap bytes DpdkSession) (c : SessionCoordinator) : SessionCoordinator :=
  {| tcp_sessions := tcp_sessions c; udp_sessions := udp_sessions c; dpdk_sessions := m;
     operations := operations c; results := results c; pending_results := pending_results c;
     resources := resources c |}.
Definition set_operations (m : gmap string OperationRecord) (c : SessionCoordinator) :
    SessionCoordinator :=
  {| tcp_sessions := tcp_sessions c; udp_sessions := udp_sessions c; dpdk_sessions := dpdk_sessions c;
     operations := m; results := results c; pending_results := pending_results c;
     resources := resources c |}.
Definition set_results (m p : gmap bytes TestResult) (c : SessionCoordinator) : SessionCoordinator :=
  {| tcp_sessions := tcp_sessions c; udp_sessions := udp_sessions c; dpdk_sessions := dpdk_sessions c;
     operations := operations c; results := m; pending_results := p; resources := resources c |}.
Definition set_resources (m : ResourceManager) (c : SessionCoordinator) : SessionCoordinator :=
  {| tcp_sessions := tcp_sessions c; udp_sessions := udp_sessions c; dpdk_sessions := dpdk_sessions c;
     operations := operations c; results := results c; pending_results := pending_results c;
     resources := m |}.

Definition gets {A} (f : SessionCoordinator -> A) : op A := fun c => (c, Ok (f c)).
Definition modify (f : SessionCoordinator -> SessionCoordinator) : op unit := fun c => (f c, Ok tt).

(** ** Sessions. *)

Definition session_exists (c : SessionCoordinator) (id : bytes) : bool :=
  bool_decide (is_Some (tcp_sessions c !! id)) || bool_decide (is_Some (udp_sessions c !! id)) ||
  bool_decide (is_Some (dpdk_sessions c !! id)).

(** [session_mut], and the session written back. *)
Definition session_mut (c : SessionCoordinator) (id : bytes) : option SessionMut :=
  match tcp_sessions c !! id with
  | Some s => Some (Tcp s)
  | None =>
      match udp_sessions c !! id with
      | Some s => Some (Udp s)
      | None => Dpdk <$> dpdk_sessions c !! id
      end
  end.

Definition session_state (c : SessionCoordinator) (id : bytes) : option NodeConnectionState :=
  match t_state <$> tcp_sessions c !! id with
  | Some s => Some s
  | None =>
      match u_state <$> udp_sessions c !! id with
      | Some s => Some s
      | None => d_state <$> dpdk_sessions c !! id
      end
  end.

Definition put_session (id : bytes) (s : SessionMut) (c : SessionCoordinator) : SessionCoordinator :=
  match s with
  | Tcp s => set_tcp (<[id := s]> (tcp_sessions c)) c
  | Udp s => set_udp (<[id := s]> (udp_sessions c)) c
  | Dpdk s => set_dpdk (<[id := s]> (dpdk_sessions c)) c
  end.

Definition session (id : bytes) : op SessionMut := fun c =>
  (c, ok_or (session_mut c id) session_missing).

(** Assignments through [session_mut]. *)
Definition update_session (id : bytes) (f : SessionMut -> SessionMut) : op unit :=
  let! s := session id in modify (put_session id (f s)).

Definition on_lifecycle {A} (id : bytes) (f : method SpeedTestLifecycle A) : op A :=
  let! s := session id in
  let '(l, o) := f (lifecycle s) in
  let! _ := modify (put_session id (set_lifecycle l s)) in
  m_ret o.

Definition record (operation : string) (r : OperationRecord) : op unit :=
  modify (fun c => set_operations (<[operation := r]> (operations c)) c).

(** A call on the resource manager, whose reservation is dropped. *)
Definition on_resources (f : ResourceManager -> res (ResourceManager * Reservation)) : op unit :=
  fun c => match f (resources c) with
           | Ok (m, _) => (set_resources m c, Ok tt)
           | Err e => (c, Err e)
           | Panic => (c, Panic)
           end.

Section Operations.
Context {HO : HashOrder string Reservation} {RJ : ResultJson}.

(** ** Preparing sessions: the steps that the methods share. *)

Definition fresh_session (id : bytes) : op unit := fun c =>
  if session_exists c id then (c, err ResourceConflict "session ID already exists") else (c, Ok tt).

Definition expiration (now ttl : Z) : res Z :=
  ok_or (checked_add 64 now ttl)
        (new_error InvalidArgument "authorization expiration overflow" false).

(** [bind] and [local_addr]. *)
Definition bind_endpoint (h : Host) (a : SocketAddr) : res (Socket * SocketAddr) :=
  match bind h a with
  | inl m => Err (io_error m)
  | inr s => match local_addr s with inl m => Err (io_error m) | inr a => Ok (s, a) end
  end.

Definition claim (k : ResourceKey) (m : ResourceMode) : ResourceClaim :=
  {| resource := k; claim_mode := m; units := 1 |}.

Definition port_key (proto : string) (a : SocketAddr) : ResourceKey :=
  DataPort proto (ip_to_string (ip a)) (port a).

(** [reserve] and [activate] of a reservation with one claim. *)
Definition reserve_active (rid : string) (id : bytes) (k : ResourceClaim) : op unit :=
  let! _ := on_resources (fun m => reserve m {|
              Resource.reservation_id := rid; Resource.session_id := hex_session_id id;
              claims := [k] |}) in
  on_resources (fun m => activate m rid).

(** [SpeedTestLifecycle::new], [negotiated] and [mark_ready(Local)]. *)
Definition ready_lifecycle : res SpeedTestLifecycle :=
  match (let! _ := negotiated in mark_ready Local) new_lifecycle with
  | (l, Ok _) => Ok l
  | (_, Err e) => Err e
  | (_, Panic) => Panic
  end.

(** ** [session_prepare_tcp.rs]. *)

Definition prepare_tcp (h : Host) (q : PrepareTcpRequest) (now : Z) : op PrepareTcpResponse :=
  let! known := gets (fun c => operations c !! pt_operation_id q) in
  match known with
  | Some (PrepareTcp stored response) =>
      m_ret (if bool_decide (stored = q) then Ok response else Err operation_conflict)
  | Some _ => m_ret (Err operation_conflict)
  | None =>
      let! _ := m_ret (validate_prepare q) in
      let! _ := fresh_session (pt_session_id q) in
      let! expires_at := m_ret (expiration now (pt_authorization_ttl_seconds q)) in
      let! '(listener, local_address) := m_ret (bind_endpoint h (pt_bind_address q)) in
      let! tag := m_ret (random_tag h) in
      let rid := ("data-port-" +:+ hex_session_id (pt_session_id q))%string in
      let! _ := reserve_active rid (pt_session_id q) (claim (port_key "tcp" local_address) Exclusive) in
      let response := {|
        tcp_session_id := pt_session_id q; tcp_data_port := port local_address;
        tcp_authorization_tag := tag; tcp_expires_at := expires_at;
        tcp_response_state := TestReady |} in
      let authorization := {|
        auth_session := pt_session_id q; source_node_id := pt_source_node_id q;
        source_address := pt_source_address q; source_port := None;
        destination_address := ip local_address; protocol := "tcp";
        destination_port := port local_address; authorization_tag := tag;
        expires_at_unix_seconds := expires_at |} in
      let! lifecycle := m_ret ready_lifecycle in
      let! _ := modify (put_session (pt_session_id q) (Tcp {|
        t_response := response; t_authorization := authorization; t_config := pt_config q;
        t_listener := Some listener; t_state := TestReady; t_reservation_id := rid;
        t_lifecycle := lifecycle; t_sender_destination := None; t_sender_config := None |})) in
      let! _ := record (pt_operation_id q) (PrepareTcp q response) in
      m_ret (Ok response)
  end.

Definition prepare_tcp_sender (h : Host) (q : PrepareTcpSenderRequest) (now : Z) :
    op PrepareTcpResponse :=
  let! known := gets (fun c => operations c !! pts_operation_id q) in
  match known with
  | Some (PrepareTcpSender stored response) =>
      m_ret (if bool_decide (stored = q) then Ok response else Err operation_conflict)
  | Some _ => m_ret (Err operation_conflict)
  | None =>
      let! _ := m_ret (validate_tcp_sender_prepare q) in
      let! _ := fresh_session (pts_session_id q) in
      let! expires_at := m_ret (expiration now (pts_authorization_ttl_seconds q)) in
      let! tag := m_ret (random_tag h) in
      let rid := ("tcp-sender-" +:+ hex_session_id (pts_session_id q))%string in
      let! _ := reserve_active rid (pts_session_id q)
                  (claim (ManagementInterface ("tcp-sender:" +:+ socket_to_string (pts_destination q)))
                         Shared) in
      let response := {|
        tcp_session_id := pts_session_id q; tcp_data_port := 0; tcp_authorization_tag := tag;
        tcp_expires_at := expires_at; tcp_response_state := TestReady |} in
      let authorization := {|
        auth_session := pts_session_id q; source_node_id := pts_source_node_id q;
        source_address := pts_source_address q; source_port := None;
        destination_address := ip (pts_destination q); protocol := "tcp";
        destination_port := port (pts_destination q); authorization_tag := tag;
        expires_at_unix_seconds := expires_at |} in
      let! lifecycle := m_ret ready_lifecycle in
      let! _ := modify (put_session (pts_session_id q) (Tcp {|
        t_response := response; t_authorization := authorization; t_config := pts_config q;
        t_listener := None; t_state := TestReady; t_reservation_id := rid;
        t_lifecycle := lifecycle; t_sender_destination := Some (pts_destination q);
        t_sender_config := None |})) in
      let! _ := record (pts_operation_id q) (PrepareTcpSender q response) in
      m_ret (Ok response)
  end.

(** ** [session_prepare_tcp_bidirectional.rs]. *)

Definition prepare_tcp_bidirectional (h : Host) (q : PrepareTcpBidirectionalRequest) (now : Z) :
    op PrepareTcpResponse :=
  let! known := gets (fun c => operations c !! ptb_operation_id q) in
  match known with
  | Some (PrepareTcpBidirectional stored response) =>
      m_ret (if bool_decide (stored = q) then Ok response else Err operation_conflict)
  | Some _ => m_ret (Err operation_conflict)
  | None =>
      let! _ := m_ret (validate_tcp_bidirectional_prepare q) in
      let! _ := fresh_session (ptb_session_id q) in
      let! expires_at := m_ret (expiration now (ptb_authorization_ttl_seconds q)) in
      let! '(listener, local_address) := m_ret (bind_endpoint h (ptb_bind_address q)) in
      let! tag := m_ret (random_tag h) in
      let rid := ("tcp-bidirectional-" +:+ hex_session_id (ptb_session_id q))%string in
      let! _ := reserve_active rid (ptb_session_id q) (claim (port_key "tcp" local_address) Exclusive) in
      let response := {|
        tcp_session_id := ptb_session_id q; tcp_data_port := port local_address;
        tcp_authorization_tag := tag; tcp_expires_at := expires_at;
        tcp_response_state := TestReady |} in
      let authorization := {|
        auth_session := ptb_session_id q; source_node_id := ptb_source_node_id q;
        source_address := ptb_source_address q; source_port := None;
        destination_address := ip local_address; protocol := "tcp";
        destination_port := port local_address; authorization_tag := tag;
        expires_at_unix_seconds := expires_at |} in
      let! lifecycle := m_ret ready_lifecycle in
      let! _ := modify (put_session (ptb_session_id q) (Tcp {|
        t_response := response; t_authorization := authorization; t_config := ptb_config q;
        t_listener := Some listener; t_state := TestReady; t_reservation_id := rid;
        t_lifecycle := lifecycle; t_sender_destination := Some (ptb_destination q);
        t_sender_config := Some (ptb_config q) |})) in
      let! _ := record (ptb_operation_id q) (PrepareTcpBidirectional q response) in
      m_ret (Ok response)
  end.

(** ** [session_prepare_udp.rs]. *)

Definition prepare_udp (h : Host) (q : PrepareUdpRequest) (now : Z) : op PrepareUdpResponse :=
  let! known := gets (fun c => operations c !! pu_operation_id q) in
  match known with
  | Some (PrepareUdp stored response) =>
      m_ret (if bool_decide (stored = q) then Ok response else Err operation_conflict)
  | Some _ => m_ret (Err operation_conflict)
  | None =>
      let! _ := m_ret (validate_udp_prepare q) in
      let! _ := fresh_session (pu_session_id q) in
      let! expires_at := m_ret (expiration now (pu_authorization_ttl_seconds q)) in
      let! '(socket, local_address) := m_ret (bind_endpoint h (pu_bind_address q)) in
      let! tag := m_ret (random_tag h) in
      let rid := ("data-port-" +:+ hex_session_id (pu_session_id q))%string in
      let! _ := reserve_active rid (pu_session_id q) (claim (port_key "udp" local_address) Exclusive) in
      let response := {|
        udp_session_id := pu_session_id q; udp_data_port := port local_address;
        udp_authorization_tag := tag; udp_expires_at := expires_at;
        udp_response_state := TestReady |} in
      let authorization := {|
        auth_session := pu_session_id q; source_node_id := pu_source_node_id q;
        source_address := ip (pu_source_address q); source_port := Some (port (pu_source_address q));
        destination_address := ip local_address; protocol := "udp";
        destination_port := port local_address; authorization_tag := tag;
        expires_at_unix_seconds := expires_at |} in
      let! lifecycle := m_ret ready_lifecycle in
      let! _ := modify (put_session (pu_session_id q) (Udp {|
        u_response := response; u_authorization := authorization; u_socket := Some socket;
        u_stream_id := pu_stream_id q; u_maximum_datagram_bytes := pu_maximum_datagram_bytes q;
        u_idle_timeout_milliseconds := pu_idle_timeout_milliseconds q; u_state := TestReady;
        u_reservation_id := rid; u_lifecycle := lifecycle; u_sender_destination := None;
        u_sender_config := None |})) in
      let! _ := record (pu_operation_id q) (PrepareUdp q response) in
      m_ret (Ok response)
  end.

Definition prepare_udp_sender (h : Host) (q : PrepareUdpSenderRequest) (now : Z) :
    op PrepareUdpResponse :=
  let! known := gets (fun c => operations c !! pus_operation_id q) in
  match known with
  | Some (PrepareUdpSender stored response) =>
      m_ret (if bool_decide (stored = q) then Ok response else Err operation_conflict)
  | Some _ => m_ret (Err operation_conflict)
  | None =>
      let! _ := m_ret (validate_udp_sender_prepare q) in
      let! _ := fresh_session (pus_session_id q) in
      let! expires_at := m_ret (expiration now (pus_authorization_ttl_seconds q)) in
      let! '(socket, local_address) :=
        m_ret (bind_endpoint h (socket_addr (pus_source_address q) 0)) in
      let! tag := m_ret (random_tag h) in
      let rid := ("udp-sender-" +:+ hex_session_id (pus_session_id q))%string in
      let! _ := reserve_active rid (pus_session_id q) (claim (port_key "udp" local_address) Exclusive) in
      let response := {|
        udp_session_id := pus_session_id q; udp_data_port := 0; udp_authorization_tag := tag;
        udp_expires_at := expires_at; udp_response_state := TestReady |} in
      let authorization := {|
        auth_session := pus_session_id q; source_node_id := pus_source_node_id q;
        source_address := ip local_address; source_port := Some (port local_address);
        destination_address := ip (pus_destination q); protocol := "udp";
        destination_port := port (pus_destination q); authorization_tag := tag;
        expires_at_unix_seconds := expires_at |} in
      let config := sender_config (pus_session_id q) (pus_stream_id q) (pus_datagram_bytes q)
                      (pus_measurement_milliseconds q) (pus_target_bits_per_second q) tag in
      let! lifecycle := m_ret ready_lifecycle in
      let! _ := modify (put_session (pus_session_id q) (Udp {|
        u_response := response; u_authorization := authorization; u_socket := Some socket;
        u_stream_id := pus_stream_id q; u_maximum_datagram_bytes := pus_datagram_bytes q;
        u_idle_timeout_milliseconds := 2000; u_state := TestReady; u_reservation_id := rid;
        u_lifecycle := lifecycle; u_sender_destination := Some (pus_destination q);
        u_sender_config := Some config |})) in
      let! _ := record (pus_operation_id q) (PrepareUdpSender q response) in
      m_ret (Ok response)
  end.

(** ** [session_prepare_udp_bidirectional.rs]. *)

Definition prepare_udp_bidirectional (h : Host) (q : PrepareUdpBidirectionalRequest) (now : Z) :
    op PrepareUdpResponse :=
  let! known := gets (fun c => operations c !! pub_operation_id q) in
  match known with
  | Some (PrepareUdpBidirectional stored response) =>
      m_ret (if bool_decide (stored = q) then Ok response else Err operation_conflict)
  | Some _ => m_ret (Err operation_conflict)
  | None =>
      let! _ := m_ret (validate_udp_bidirectional_prepare q) in
      let! _ := fresh_session (pub_session_id q) in
      let! expires_at := m_ret (expiration now (pub_authorization_ttl_seconds q)) in
      let! '(socket, local_address) :=
        m_ret (bind_endpoint h (socket_addr (pub_bind_address q) 0)) in
      let! tag := m_ret (random_tag h) in
      let rid := ("udp-bidirectional-" +:+ hex_session_id (pub_session_id q))%string in
      let! _ := reserve_active rid (pub_session_id q) (claim (port_key "udp" local_address) Exclusive) in
      let response := {|
        udp_session_id := pub_session_id q; udp_data_port := port local_address;
        udp_authorization_tag := tag; udp_expires_at := expires_at;
        udp_response_state := TestReady |} in
      let authorization := {|
        auth_session := pub_session_id q; source_node_id := pub_source_node_id q;
        source_address := ip (pub_source_address q);
        source_port := Some (port (pub_source_address q));
        destination_address := ip local_address; protocol := "udp";
        destination_port := port local_address; authorization_tag := tag;
        expires_at_unix_seconds := expires_at |} in
      let config := sender_config (pub_session_id q) (pub_stream_id q) (pub_datagram_bytes q)
                      (pub_measurement_milliseconds q) (pub_target_bits_per_second q) tag in
      let! lifecycle := m_ret ready_lifecycle in
      let! _ := modify (put_session (pub_session_id q) (Udp {|
        u_response := response; u_authorization := authorization; u_socket := Some socket;
        u_stream_id := pub_stream_id q; u_maximum_datagram_bytes := pub_datagram_bytes q;
        u_idle_timeout_milliseconds := 2000; u_state := TestReady; u_reservation_id := rid;
        u_lifecycle := lifecycle; u_sender_destination := Some (pub_destination q);
        u_sender_config := Some config |})) in
      let! _ := record (pub_operation_id q) (PrepareUdpBidirectional q response) in
      m_ret (Ok response)
  end.

(** ** [session_prepare_dpdk.rs]: the tag is drawn after the reservation. *)

Definition prepare_dpdk_receiver (h : Host) (q : PrepareDpdkReceiverRequest) (now : Z) :
    op PreparedDpdkReceiver :=
  let! known := gets (fun c => operations c !! pd_operation_id q) in
  match known with
  | Some (PrepareDpdkReceiver stored plan) =>
      m_ret (if bool_decide (stored = q) then Ok plan else Err operation_conflict)
  | Some _ => m_ret (Err operation_conflict)
  | None =>
      if negb (valid_dpdk_bdf (pd_pci_address q))
      then m_ret (Session.invalid "DPDK receiver requires a valid PCI BDF")
      else if (pd_duration_milliseconds q =? 0) || (86400000 <? pd_duration_milliseconds q)
      then m_ret (Session.invalid "DPDK receiver duration is outside the valid range")
      else if negb (valid_dpdk_mac (pd_remote_mac_address q))
      then m_ret (Session.invalid "DPDK receiver requires a valid remote unicast MAC")
      else
        let! _ := fresh_session (pd_session_id q) in
        let! expires_at := m_ret (expiration now (pd_authorization_ttl_seconds q)) in
        let rid := ("dpdk-rx-" +:+ hex_session_id (pd_session_id q))%string in
        let! _ := reserve_active rid (pd_session_id q)
                    (claim (ManagementInterface ("pci:" +:+ pd_pci_address q)) Exclusive) in
        let! tag := m_ret (random_tag h) in
        let authorization := {|
          auth_session := pd_session_id q; source_node_id := pd_source_node_id q;
          source_address := V4 0; source_port := None; destination_address := V4 0;
          protocol := "dpdk-raw"; destination_port := 0; authorization_tag := tag;
          expires_at_unix_seconds := expires_at |} in
        let! lifecycle := m_ret ready_lifecycle in
        let plan := {| pci_address := pd_pci_address q;
                       duration_milliseconds := pd_duration_milliseconds q;
                       remote_mac_address := pd_remote_mac_address q |} in
        let! _ := modify (put_session (pd_session_id q) (Dpdk {|
          d_authorization := authorization; d_state := TestReady; d_reservation_id := rid;
          d_lifecycle := lifecycle; d_plan := Some plan |})) in
        let! _ := record (pd_operation_id q) (PrepareDpdkReceiver q plan) in
        m_ret (Ok plan)
  end.

(** ** Starting. *)

Definition expired {A} (m : string) : op A := m_ret (err AuthorizationExpired m).

Definition start (id : bytes) (operation : string) (start_at now : Z) : op NodeConnectionState :=
  let! known := gets (fun c => operations c !! operation) in
  match known with
  | Some r => m_ret (matching_start r id start_at)
  | None =>
      let! s := session id in
      let expires_at := expires_at_unix_seconds (authorization s) in
      if expires_at <? now / 1000000000 then expired "data-plane authorization expired"
      else if negb (bool_decide (state s = TestReady))
      then m_ret (Session.invalid_state "session is not ready")
      else if expires_at <? start_at / 1000000000
      then expired "scheduled start exceeds data-plane authorization lifetime"
      else
        let! _ := on_lifecycle id (mark_ready Remote) in
        let! _ := on_lifecycle id (schedule_start start_at now) in
        let! s := session id in
        let! _ := record operation (Start id start_at (state s)) in
        m_ret (Ok (state s))
  end.

Definition begin_scheduled (id : bytes) (now : Z) : op NodeConnectionState :=
  let! s := session id in
  if negb (bool_decide (state s = TestReady))
  then m_ret (Session.invalid_state "session is not waiting for scheduled start")
  else if expires_at_unix_seconds (authorization s) <? now / 1000000000
  then expired "data-plane authorization expired before scheduled start"
  else
    let! _ := on_lifecycle id (begin_warmup now) in
    let! _ := update_session id (set_state Running) in
    let! s := session id in
    m_ret (Ok (state s)).

(** ** Handing endpoints to workers. *)

Definition tcp_session (id : bytes) : op TcpSession := fun c =>
  (c, ok_or (tcp_sessions c !! id) session_missing).
Definition udp_session (id : bytes) : op UdpSession := fun c =>
  (c, ok_or (udp_sessions c !! id) session_missing).

(** [Option::take] on a field of a session, with the error for [None]. *)
Definition taken {A} (o : option A) (m : string) (id : bytes) (rest : SessionMut) : op A :=
  match o with
  | Some a => let! _ := modify (put_session id rest) in m_ret (Ok a)
  | None => m_ret (Session.invalid_state m)
  end.

Definition take_t_listener (id : bytes) (s : TcpSession) : op Socket :=
  taken (t_listener s) "session listener was already consumed" id
    (Tcp (set_t (t_state s) (t_lifecycle s) None (t_sender_destination s) (t_sender_config s) s)).
Definition take_t_destination (id : bytes) (m : string) (s : TcpSession) : op SocketAddr :=
  taken (t_sender_destination s) m id
    (Tcp (set_t (t_state s) (t_lifecycle s) (t_listener s) None (t_sender_config s) s)).
Definition take_t_config (id : bytes) (s : TcpSession) : op TcpRunConfig :=
  taken (t_sender_config s) "session sender configuration is missing" id
    (Tcp (set_t (t_state s) (t_lifecycle s) (t_listener s) (t_sender_destination s) None s)).
Definition take_u_socket (id : bytes) (m : string) (s : UdpSession) : op Socket :=
  taken (u_socket s) m id
    (Udp (set_u (u_state s) (u_lifecycle s) None (u_sender_destination s) (u_sender_config s) s)).
Definition take_u_destination (id : bytes) (m : string) (s : UdpSession) : op SocketAddr :=
  taken (u_sender_destination s) m id
    (Udp (set_u (u_state s) (u_lifecycle s) (u_socket s) None (u_sender_config s) s)).
Definition take_u_config (id : bytes) (s : UdpSession) : op UdpSenderConfig :=
  taken (u_sender_config s) "session sender configuration is missing" id
    (Udp (set_u (u_state s) (u_lifecycle s) (u_socket s) (u_sender_destination s) None s)).

Definition tcp_receiver_config (id : bytes) (s : TcpSession) : AuthorizedTcpReceiverConfig :=
  {| expected_streams := TcpEngine.streams (t_config s); receiver_session_id := id;
     receiver_authorization_tag := authorization_tag (t_authorization s) |}.
Definition tcp_sender_config (id : bytes) (c : TcpRunConfig) (s : TcpSession) :
    AuthorizedTcpSenderConfig :=
  {| run := c; sender_session_id := id;
     sender_authorization_tag := authorization_tag (t_authorization s) |}.
Definition udp_receiver_config (id : bytes) (source_port : Z) (s : UdpSession) : UdpReceiverConfig :=
  {| r_session_id := id; r_stream_id := u_stream_id s;
     expected_source := socket_addr (source_address (u_authorization s)) source_port;
     maximum_datagram_bytes := u_maximum_datagram_bytes s;
     idle_timeout_milliseconds := u_idle_timeout_milliseconds s;
     r_authorization_tag := authorization_tag (u_authorization s) |}.

Definition running (st : NodeConnectionState) : op unit :=
  if negb (bool_decide (st = Running)) then m_ret (Session.invalid_state "session is not running")
  else m_ret (Ok tt).

Definition take_tcp_listener (id : bytes) : op (Socket * AuthorizedTcpReceiverConfig) :=
  let! s := tcp_session id in
  if bool_decide (is_Some (t_sender_destination s))
  then m_ret (Session.invalid_state "session is a TCP sender")
  else
    let! _ := running (t_state s) in
    let! listener := take_t_listener id s in
    m_ret (Ok (listener, tcp_receiver_config id s)).

Definition take_tcp_sender (id : bytes) : op PreparedSocketSender :=
  let! s := tcp_session id in
  let! _ := running (t_state s) in
  if bool_decide (is_Some (t_sender_config s))
  then m_ret (Session.invalid_state "session is bidirectional")
  else
    let! destination := take_t_destination id "session is not a TCP sender" s in
    m_ret (Ok (TcpSender (tcp_sender_config id (t_config s) s) destination)).

Definition take_tcp_bidirectional (id : bytes) : op PreparedSocketBidirectional :=
  let! s := tcp_session id in
  let! _ := running (t_state s) in
  let! listener := take_t_listener id s in
  let! s := tcp_session id in
  let! destination := take_t_destination id "session is not bidirectional" s in
  let! s := tcp_session id in
  let! run := take_t_config id s in
  m_ret (Ok (TcpBoth listener (tcp_receiver_config id s) (tcp_sender_config id run s) destination)).

Definition take_udp_socket (id : bytes) : op (Socket * UdpReceiverConfig) :=
  let! s := udp_session id in
  if bool_decide (is_Some (u_sender_destination s))
  then m_ret (Session.invalid_state "session is a UDP sender")
  else
    let! _ := running (u_state s) in
    let! socket := take_u_socket id "session UDP socket was already consumed" s in
    match source_port (u_authorization s) with
    | None => m_ret (Session.invalid_state "UDP authorization is missing its source port")
    | Some p => m_ret (Ok (socket, udp_receiver_config id p s))
    end.

Definition take_udp_sender (id : bytes) : op PreparedSocketSender :=
  let! s := udp_session id in
  let! _ := running (u_state s) in
  if negb (bool_decide (is_Some (u_sender_config s)))
  then m_ret (Session.invalid_state "session is not a UDP sender")
  else
    let! destination := take_u_destination id "session is not a UDP sender" s in
    let! s := udp_session id in
    let! socket := take_u_socket id "session sender socket was already consumed" s in
    let! s := udp_session id in
    let! config := take_u_config id s in
    m_ret (Ok (UdpSender socket config destination)).

Definition take_udp_bidirectional (id : bytes) : op PreparedSocketBidirectional :=
  let! s := udp_session id in
  let! _ := running (u_state s) in
  let! socket := take_u_socket id "session UDP socket was already consumed" s in
  match source_port (u_authorization s) with
  | None => m_ret (Session.invalid_state "UDP authorization is missing its source port")
  | Some p =>
      let receiver := udp_receiver_config id p s in
      let! s := udp_session id in
      let! destination := take_u_destination id "session is not bidirectional" s in
      let! s := udp_session id in
      let! sender := take_u_config id s in
      m_ret (Ok (UdpBoth socket receiver sender destination))
  end.

Definition has_destination (c : SessionCoordinator) (id : bytes) : bool * bool :=
  (match tcp_sessions c !! id with
   | Some s => bool_decide (is_Some (t_sender_destination s)) | None => false end,
   match udp_sessions c !! id with
   | Some s => bool_decide (is_Some (u_sender_destination s)) | None => false end).

Definition begin_and_take_receiver (id : bytes) (now : Z) : op PreparedSocketReceiver :=
  let! '(tcp, udp) := gets (fun c => has_destination c id) in
  if tcp || udp then m_ret (Session.invalid_state "session is a TCP sender")
  else
    let! _ := begin_scheduled id now in
    let! tcp := gets (fun c => bool_decide (is_Some (tcp_sessions c !! id))) in
    if tcp : bool then
      let! '(listener, config) := take_tcp_listener id in
      m_ret (Ok (TcpReceiver listener config))
    else
      let! '(socket, config) := take_udp_socket id in
      m_ret (Ok (UdpReceiver socket config)).

Definition begin_and_take_sender (id : bytes) (now : Z) : op PreparedSocketSender :=
  let! '(tcp, udp) := gets (fun c => has_destination c id) in
  if negb tcp && negb udp then m_ret (Session.invalid_state "session is not a socket sender")
  else
    let! _ := begin_scheduled id now in
    if tcp : bool then take_tcp_sender id else take_udp_sender id.

Definition begin_and_take_bidirectional (id : bytes) (now : Z) : op PreparedSocketBidirectional :=
  let! '(tcp, udp) := gets (fun c =>
    (match tcp_sessions c !! id with
     | Some s => bool_decide (is_Some (t_sender_destination s)) &&
                 bool_decide (is_Some (t_sender_config s))
     | None => false end,
     match udp_sessions c !! id with
     | Some s => bool_decide (is_Some (u_sender_destination s)) &&
                 bool_decide (is_Some (u_sender_config s))
     | None => false end)) in
  if negb tcp && negb udp then m_ret (Session.invalid_state "session is not bidirectional")
  else
    let! _ := begin_scheduled id now in
    if tcp : bool then take_tcp_bidirectional id else take_udp_bidirectional id.

Definition begin_and_take_dpdk_receiver (id : bytes) (now : Z) : op PreparedDpdkReceiver :=
  let! known := gets (fun c => bool_decide (is_Some (dpdk_sessions c !! id))) in
  if negb known then m_ret (Session.invalid_state "session is not a DPDK receiver")
  else
    let! _ := begin_scheduled id now in
    let! found := gets (fun c => dpdk_sessions c !! id) in
    match found with
    | None => m_ret (Session.invalid_state "session is not a DPDK receiver")
    | Some s => taken (d_plan s) "DPDK receiver worker was already taken" id
                  (Dpdk (set_d (d_state s) (d_lifecycle s) None s))
    end.

(** ** Ending. *)

Definition release (rid : string) : op unit :=
  let! _ := on_resources (fun m => begin_release m rid) in
  on_resources (fun m => finish_release m rid).

Definition stop (id : bytes) (operation : string) : op NodeConnectionState :=
  let! known := gets (fun c => operations c !! operation) in
  match known with
  | Some r => m_ret (matching_stop r id)
  | None =>
      let! current := gets (fun c => session_state c id) in
      if bool_decide (current = Some Canceled) then
        let! _ := record operation (Stop id Canceled) in
        m_ret (Ok Canceled)
      else
        let! s := session id in
        if negb (bool_decide (state s = TestReady) || bool_decide (state s = Running) ||
                 bool_decide (state s = Finalizing))
        then m_ret (Session.invalid_state "session cannot be canceled from current state")
        else
          let rid := reservation_id s in
          let! _ := update_session id (set_state Canceled) in
          let! _ := update_session id close_endpoint in
          let! _ := release rid in
          let! _ := record operation (Stop id Canceled) in
          m_ret (Ok Canceled)
  end.

(** The second half of [complete] and of [fail], from the pending results on. *)
Definition conclude (id : bytes) (r : TestResult) (rid : string) (final : NodeConnectionState) :
    op TestResult :=
  let! pending := gets (fun c => pending_results c !! id) in
  let! _ := match pending with
            | Some p => m_ret (if bool_decide (p = r) then Ok tt else Err operation_conflict)
            | None => modify (fun c => set_results (results c) (<[id := r]> (pending_results c)) c)
            end in
  let! _ := release rid in
  let! _ := update_session id close_endpoint in
  let! _ := update_session id (set_state final) in
  let! _ := modify (fun c => set_results (<[id := r]> (results c)) (delete id (pending_results c)) c) in
  m_ret (Ok r).

Definition result_of (id json : bytes) : TestResult :=
  {| result_session_id := id; result_json := json; checksum := sha256 json |}.

(** The answer when the session has a result already. *)
Definition matching_result (existing : TestResult) (json : bytes) : res TestResult :=
  if bool_decide (result_json existing = json) then Ok existing else Err operation_conflict.

Definition complete (id json : bytes) : op TestResult :=
  let! _ := m_ret (validate_result_json json) in
  let! known := gets (fun c => results c !! id) in
  match known with
  | Some existing => m_ret (matching_result existing json)
  | None =>
      let! s := session id in
      if negb (bool_decide (state s = Running) || bool_decide (state s = Finalizing))
      then m_ret (Session.invalid_state "only a running session can complete")
      else
        let! _ := (if bool_decide (state s = Running)
                   then update_session id (set_state Finalizing) else m_ret (Ok tt)) in
        conclude id (result_of id json) (reservation_id s) Completed
  end.

Definition fail (id json : bytes) : op TestResult :=
  let! _ := m_ret (validate_result_json json) in
  let! known := gets (fun c => results c !! id) in
  match known with
  | Some existing => m_ret (matching_result existing json)
  | None =>
      let! s := session id in
      if negb (bool_decide (state s = TestReady) || bool_decide (state s = Running) ||
               bool_decide (state s = Finalizing))
      then m_ret (Session.invalid_state "session cannot transition to failed")
      else
        let! _ := update_session id (set_state Finalizing) in
        conclude id (result_of id json) (reservation_id s) Failed
  end.

(** ** Queries. *)

Definition test_result (c : SessionCoordinator) (id : bytes) : res TestResult :=
  match results c !! id with
  | Some r => Ok r
  | None =>
      if session_exists c id
      then Err (new_error InvalidState "test result is not ready" true)
      else Err session_missing
  end.

(** [authorization]: it does not look into the DPDK sessions. *)
Definition session_authorization (c : SessionCoordinator) (id : bytes) :
    option DataPlaneAuthorization :=
  match t_authorization <$> tcp_sessions c !! id with
  | Some a => Some a
  | None => u_authorization <$> udp_sessions c !! id
  end.

Definition prepared_response (c : SessionCoordinator) (id : bytes) : option PrepareTcpResponse :=
  t_response <$> tcp_sessions c !! id.
Definition prepared_udp_response (c : SessionCoordinator) (id : bytes) : option PrepareUdpResponse :=
  u_response <$> udp_sessions c !! id.
End Operations.
