(* ===== verification/SessionRuns.v ===== *)
(** * Node sessions: calls and their effects

    The public calls on [SessionCoordinator], histories of calls, and one lemma,
    [exec_effect], that says what any call does to the coordinator: nothing, a new
    session, a schedule, a start, a hand-off to a worker, or an end. The properties
    of histories ([SessionProps]) follow from it. *)

From stdpp Require Import base list strings gmap.
From Stdlib Require Import ZArith Lia.
From S2P Require Import Prelude ErrorModel Resource Lifecycle UdpProtocol UdpSocket TcpEngine NodeProtocol Session SessionOps.
Open Scope Z_scope.

Inductive Call :=
  | CPrepareTcp (h : Host) (q : PrepareTcpRequest) (now : Z)
  | CPrepareTcpSender (h : Host) (q : PrepareTcpSenderRequest) (now : Z)
  | CPrepareTcpBidirectional (h : Host) (q : PrepareTcpBidirectionalRequest) (now : Z)
  | CPrepareUdp (h : Host) (q : PrepareUdpRequest) (now : Z)
  | CPrepareUdpSender (h : Host) (q : PrepareUdpSenderRequest) (now : Z)
  | CPrepareUdpBidirectional (h : Host) (q : PrepareUdpBidirectionalRequest) (now : Z)
  | CPrepareDpdk (h : Host) (q : PrepareDpdkReceiverRequest) (now : Z)
  | CStart (id : bytes) (operation : string) (start_at now : Z)
  | CBegin (id : bytes) (now : Z)
  | CBeginReceiver (id : bytes) (now : Z)
  | CBeginSender (id : bytes) (now : Z)
  | CBeginBidirectional (id : bytes) (now : Z)
  | CBeginDpdk (id : bytes) (now : Z)
  | CTakeTcpListener (id : bytes)
  | CTakeTcpSender (id : bytes)
  | CTakeTcpBidirectional (id : bytes)
  | CTakeUdpSocket (id : bytes)
  | CTakeUdpSender (id : bytes)
  | CTakeUdpBidirectional (id : bytes)
  | CStop (id : bytes) (operation : string)
  | CComplete (id json : bytes)
  | CFail (id json : bytes).

Inductive Response :=
  | AckTcp (r : PrepareTcpResponse)
  | AckUdp (r : PrepareUdpResponse)
  | AckPlan (p : PreparedDpdkReceiver)
  | AckState (s : NodeConnectionState)
  | AckReceiver (w : PreparedSocketReceiver)
  | AckSender (w : PreparedSocketSender)
  | AckBoth (w : PreparedSocketBidirectional)
  | AckDpdk (w : PreparedDpdkReceiver)
  | AckResult (r : TestResult).

Definition m_map {S A B} (f : A -> B) (m : method S A) : method S B :=
  let! a := m in m_ret (Ok (f a)).

(** The log of a history of calls on a new coordinator. *)
Abbreviation Log := (list (Call * res Response)).

Section Runs.
Context {HO : HashOrder string Reservation} {RJ : ResultJson}.

Definition exec (k : Call) : op Response :=
  match k with
  | CPrepareTcp h q now => m_map AckTcp (prepare_tcp h q now)
  | CPrepareTcpSender h q now => m_map AckTcp (prepare_tcp_sender h q now)
  | CPrepareTcpBidirectional h q now => m_map AckTcp (prepare_tcp_bidirectional h q now)
  | CPrepareUdp h q now => m_map AckUdp (prepare_udp h q now)
  | CPrepareUdpSender h q now => m_map AckUdp (prepare_udp_sender h q now)
  | CPrepareUdpBidirectional h q now => m_map AckUdp (prepare_udp_bidirectional h q now)
  | CPrepareDpdk h q now => m_map AckPlan (prepare_dpdk_receiver h q now)
  | CStart id operation start_at now => m_map AckState (start id operation start_at now)
  | CBegin id now => m_map AckState (begin_scheduled id now)
  | CBeginReceiver id now => m_map AckReceiver (begin_and_take_receiver id now)
  | CBeginSender id now => m_map AckSender (begin_and_take_sender id now)
  | CBeginBidirectional id now => m_map AckBoth (begin_and_take_bidirectional id now)
  | CBeginDpdk id now => m_map AckDpdk (begin_and_take_dpdk_receiver id now)
  | CTakeTcpListener id => m_map (fun w => AckReceiver (TcpReceiver w.1 w.2)) (take_tcp_listener id)
  | CTakeTcpSender id => m_map AckSender (take_tcp_sender id)
  | CTakeTcpBidirectional id => m_map AckBoth (take_tcp_bidirectional id)
  | CTakeUdpSocket id => m_map (fun w => AckReceiver (UdpReceiver w.1 w.2)) (take_udp_socket id)
  | CTakeUdpSender id => m_map AckSender (take_udp_sender id)
  | CTakeUdpBidirectional id => m_map AckBoth (take_udp_bidirectional id)
  | CStop id operation => m_map AckState (stop id operation)
  | CComplete id json => m_map AckResult (complete id json)
  | CFail id json => m_map AckResult (fail id json)
  end.

Definition step (cl : SessionCoordinator * Log) (k : Call) : SessionCoordinator * Log :=
  let '(c, o) := exec k cl.1 in (c, cl.2 ++ [(k, o)]).

Definition history (calls : list Call) : SessionCoordinator * Log :=
  fold_left step calls (new_coordinator, []).

Lemma calls_snoc calls k :
  history (calls ++ [k]) =
    ((exec k (history calls).1).1, (history calls).2 ++ [(k, (exec k (history calls).1).2)]).
Proof.
  unfold history. rewrite fold_left_app. cbn [fold_left]. unfold step at 1. by destruct (exec k _).
Qed.
End Runs.

(** ** Lookups. *)

Definition disjoint (c : SessionCoordinator) : Prop := forall id,
  (is_Some (tcp_sessions c !! id) -> udp_sessions c !! id = None /\ dpdk_sessions c !! id = None) /\
  (is_Some (udp_sessions c !! id) -> dpdk_sessions c !! id = None).

Lemma session_exists_iff c id : session_exists c id = true <-> is_Some (session_mut c id).
Proof.
  unfold session_exists, session_mut.
  destruct (tcp_sessions c !! id), (udp_sessions c !! id), (dpdk_sessions c !! id); simpl;
    split; intros H; try done; try (by eexists); by destruct H.
Qed.

Lemma session_exists_false c id : session_exists c id = false <-> session_mut c id = None.
Proof.
  by rewrite <- not_true_iff_false, session_exists_iff, <- eq_None_not_Some.
Qed.

Lemma session_state_mut c id : session_state c id = state <$> session_mut c id.
Proof.
  unfold session_state, session_mut.
  by destruct (tcp_sessions c !! id), (udp_sessions c !! id), (dpdk_sessions c !! id).
Qed.

(** The kind of a session, which tells its table. *)
Definition same_kind (s s' : SessionMut) : Prop :=
  match s, s' with Tcp _, Tcp _ | Udp _, Udp _ | Dpdk _, Dpdk _ => True | _, _ => False end.

(** Writing a session back, or into a free place. *)
Definition placeable (c : SessionCoordinator) (id : bytes) (s : SessionMut) : Prop :=
  match session_mut c id with Some s0 => same_kind s0 s | None => True end.

Lemma session_put c id s j : placeable c id s ->
  session_mut (put_session id s c) j = if decide (j = id) then Some s else session_mut c j.
Proof.
  unfold placeable, session_mut, put_session. intros H.
  destruct (decide (j = id)) as [->|Hne].
  - destruct (tcp_sessions c !! id) as [t|] eqn:Ht; [by destruct s; simpl; rewrite ?lookup_insert_eq|].
    destruct (udp_sessions c !! id) as [u|] eqn:Hu;
      [by destruct s; simpl; rewrite ?Ht, ?lookup_insert_eq|].
    destruct s; simpl; rewrite ?Ht, ?Hu, ?lookup_insert_eq; done.
  - destruct s; simpl; by rewrite lookup_insert_ne by done.
Qed.

Lemma disjoint_put c id s : placeable c id s -> disjoint c -> disjoint (put_session id s c).
Proof.
  unfold placeable, session_mut, put_session. intros H Hd j. specialize (Hd j) as [H1 H2].
  destruct (decide (j = id)) as [->|Hne].
  - destruct (tcp_sessions c !! id) as [t|] eqn:Ht; [|destruct (udp_sessions c !! id) as [u|] eqn:Hu;
      [|destruct (dpdk_sessions c !! id) as [d|] eqn:Hp]];
      destruct s; simpl in *; try done; rewrite ?lookup_insert_eq, ?Ht, ?Hu, ?Hp; naive_solver.
  - destruct s; simpl; rewrite lookup_insert_ne by done; naive_solver.
Qed.

Lemma session_table c id s : disjoint c -> session_mut c id = Some s ->
  tcp_sessions c !! id = (match s with Tcp t => Some t | _ => None end) /\
  udp_sessions c !! id = (match s with Udp u => Some u | _ => None end) /\
  dpdk_sessions c !! id = (match s with Dpdk d => Some d | _ => None end).
Proof.
  intros Hd. destruct (Hd id) as [H1 H2]. unfold session_mut.
  destruct (tcp_sessions c !! id) as [t|]; [intros [= <-]; naive_solver|].
  destruct (udp_sessions c !! id) as [u|]; [intros [= <-]; naive_solver|].
  destruct (dpdk_sessions c !! id) as [d|]; [intros [= <-]; done|done].
Qed.

Lemma udp_table c id u : disjoint c -> udp_sessions c !! id = Some u -> session_mut c id = Some (Udp u).
Proof.
  intros Hd Hu. destruct (Hd id) as [H1 _]. unfold session_mut.
  destruct (tcp_sessions c !! id) as [t|]; [|by rewrite Hu].
  destruct H1 as [H1 _]; [by eexists|]. by rewrite H1 in Hu.
Qed.

Lemma dpdk_table c id d : disjoint c -> dpdk_sessions c !! id = Some d -> session_mut c id = Some (Dpdk d).
Proof.
  intros Hd Hu. destruct (Hd id) as [H1 H2]. unfold session_mut.
  destruct (tcp_sessions c !! id) as [t|]; [destruct H1 as [_ H1]; [by eexists|]; by rewrite H1 in Hu|].
  destruct (udp_sessions c !! id) as [u|]; [by rewrite H2 in Hu by by eexists|]. by rewrite Hu.
Qed.

Lemma session_none c id : session_mut c id = None ->
  tcp_sessions c !! id = None /\ udp_sessions c !! id = None /\ dpdk_sessions c !! id = None.
Proof.
  unfold session_mut. by destruct (tcp_sessions c !! id), (udp_sessions c !! id), (dpdk_sessions c !! id).
Qed.

(** Writing back twice, and writing back what is there. *)
Lemma put_put c id s s' : same_kind s s' ->
  put_session id s' (put_session id s c) = put_session id s' c.
Proof.
  destruct s, s'; try done; intros _; unfold put_session, set_tcp, set_udp, set_dpdk; simpl;
    by rewrite insert_insert_eq.
Qed.

Lemma put_same c id s : session_mut c id = Some s -> put_session id s c = c.
Proof.
  unfold session_mut, put_session. destruct c as [tcp udp dpdk ops rs ps m]. simpl.
  destruct (tcp !! id) as [t|] eqn:Ht; [intros [= <-]|destruct (udp !! id) as [u|] eqn:Hu;
    [intros [= <-]|destruct (dpdk !! id) as [d|] eqn:Hd; [intros [= <-]|done]]];
    unfold set_tcp, set_udp, set_dpdk; simpl; by rewrite insert_id.
Qed.

Lemma placeable_kind c id s s' : session_mut c id = Some s -> same_kind s s' -> placeable c id s'.
Proof. unfold placeable. by intros ->. Qed.

Lemma set_lifecycle_same s : set_lifecycle (lifecycle s) s = s.
Proof. by destruct s as [[]|[]|[]]. Qed.

Lemma kind_lifecycle s l : same_kind s (set_lifecycle l s).
Proof. by destruct s. Qed.
Lemma kind_state s st : same_kind s (set_state st s).
Proof. by destruct s. Qed.
Lemma kind_close s : same_kind s (close_endpoint s).
Proof. by destruct s. Qed.
Lemma kind_trans s1 s2 s3 : same_kind s1 s2 -> same_kind s2 s3 -> same_kind s1 s3.
Proof. by destruct s1, s2, s3. Qed.

Lemma set_operations_same c : set_operations (operations c) c = c.
Proof. by destruct c. Qed.

Lemma operations_put c id s : operations (put_session id s c) = operations c.
Proof. by destruct s. Qed.

Lemma on_lifecycle_eq {A} id (f : method SpeedTestLifecycle A) c s :
  session_mut c id = Some s ->
  on_lifecycle id f c =
    (put_session id (set_lifecycle (f (lifecycle s)).1 s) c, (f (lifecycle s)).2).
Proof.
  intros Hs. unfold on_lifecycle, session, m_bind. rewrite Hs. cbn [ok_or].
  by destruct (f (lifecycle s)).
Qed.

(** ** Reserving and releasing. *)

Definition wanted (rid : string) (id : bytes) (k : ResourceClaim) : ReservationRequest :=
  {| Resource.reservation_id := rid; Resource.session_id := hex_session_id id; claims := [k] |}.

Section Reservations.
Context {HO : HashOrder string Reservation}.

(** [m'] is [m] with the reservation [q] in the state [st]. *)
Record now_in (q : ReservationRequest) (st : ReservationState) (m m' : ResourceManager) : Prop := {
  ni_ops : exists ops, m' = fold_left manager_step ops m /\
    Forall (fun o => o = OpReserve q \/ exists id, o = OpActivate id \/ o = OpBeginRelease id \/
      o = OpFinishRelease id) ops;
  ni_this : exists r, reservations m' !! Resource.reservation_id q = Some r /\
    request r = q /\ Resource.state r = st;
  ni_other : forall j, j <> Resource.reservation_id q -> reservations m' !! j = reservations m !! j;
}.

Lemma validate_request_total q : validate_request q <> Panic.
Proof.
  unfold validate_request. destruct (_ || _); [done|]. destruct (claims q) as [|k ks]; [done|].
  generalize (k :: ks). intros l. generalize (@nil ResourceClaim). clear.
  induction l as [|k l IH]; intros earlier; simpl; [done|]. repeat (case_match; try done).
Qed.

Lemma check_claims_total m ks : check_claims m ks <> Panic.
Proof.
  induction ks as [|k ks IH]; simpl; [done|]. pose proof (check_claim_total m k).
  by destruct (check_claim m k).
Qed.

Lemma set_resources_id c : set_resources (resources c) c = c.
Proof. by destruct c. Qed.

Lemma reserve_active_spec rid id k c c' o :
  reserve_active rid id k c = (c', o) ->
  (o = Ok tt /\ exists m, c' = set_resources m c /\
     now_in (wanted rid id k) Active (resources c) m) \/
  (exists e, o = Err e /\ c' = c).
Proof.
  unfold reserve_active, on_resources, m_bind. fold (wanted rid id k). set (q := wanted rid id k).
  set (m := resources c). unfold reserve. change (Resource.reservation_id q) with rid.
  destruct (reservations m !! rid) as [r|] eqn:Hr.
  - case_bool_decide as Hq; [|intros [= <- <-]; eauto]. cbn [resources set_resources].
    unfold activate. rewrite Hr. cbn [ok_or obind].
    destruct (Resource.state r) eqn:Hs; intros [= <- <-];
      try (right; unfold m; rewrite set_resources_id; eauto; fail); left;
      (split; [done|]); eexists; (split; [done|]).
    + split.
      * exists [OpActivate rid]. split; [|by constructor; eauto]. simpl. unfold activate. by rewrite Hr; simpl; rewrite Hs.
      * exists (with_state r Active). simpl. by rewrite lookup_insert_eq.
      * intros j Hj. simpl. by rewrite lookup_insert_ne.
    + split.
      * exists []. by split; [|constructor].
      * by exists r.
      * done.
  - destruct (validate_request q) as [[]|e|] eqn:Hv; cbn [obind];
      [|intros [= <- <-]; eauto|by apply validate_request_total in Hv].
    destruct (check_claims m (claims q)) as [[]|e|] eqn:Hc; cbn [obind];
      [|intros [= <- <-]; eauto|by apply check_claims_total in Hc].
    cbn [resources set_resources]. unfold activate. cbn [reservations put].
    change (Resource.reservation_id q) with rid. rewrite lookup_insert_eq. cbn [ok_or obind Resource.state].
    intros [= <- <-]. left. split; [done|]. eexists. split; [done|]. split.
    + exists [OpReserve q; OpActivate rid]. split; [|by repeat constructor; eauto]. simpl.
      unfold reserve. change (Resource.reservation_id q) with rid. rewrite Hr, Hv. cbn [obind].
      rewrite Hc. cbn [obind]. unfold activate. simpl. by rewrite lookup_insert_eq.
    + eexists. simpl. by rewrite lookup_insert_eq.
    + intros j Hj. simpl. by rewrite !lookup_insert_ne.
Qed.

Lemma release_spec rid c r : reservations (resources c) !! rid = Some r ->
  Resource.reservation_id (request r) = rid -> Resource.state r = Active ->
  exists m, release rid c = (set_resources m c, Ok tt) /\
    now_in (request r) Released (resources c) m.
Proof.
  intros Hr Hid Hs. unfold release, on_resources, m_bind, begin_release, finish_release.
  rewrite Hr. cbn [ok_or obind]. rewrite Hs. cbn [resources set_resources reservations put].
  rewrite lookup_insert_eq. cbn [ok_or obind Resource.state with_state].
  eexists. split; [done|]. rewrite <- Hid in *. split.
  - exists [OpBeginRelease (Resource.reservation_id (request r));
            OpFinishRelease (Resource.reservation_id (request r))].
    split; [|by repeat constructor; eauto 6]. simpl. unfold begin_release. rewrite Hr. simpl. rewrite Hs.
    unfold finish_release. simpl. by rewrite lookup_insert_eq.
  - eexists. simpl. by rewrite lookup_insert_eq.
  - intros j Hj. simpl. by rewrite !lookup_insert_ne.
Qed.

Lemma now_in_inv limit q st m m' :
  now_in q st m m' -> Forall (fun k => 0 <= units k) (claims q) ->
  manager_inv limit m -> manager_inv limit m'.
Proof.
  intros [(ops&->&Hops) _ _] Hq Hm. apply manager_run_inv; [done|].
  eapply Forall_impl; [exact Hops|]. intros o [->|(id&[->|[->| ->]])]; done.
Qed.
End Reservations.
