(* ===== verification/SessionTotal.v ===== *)
(** * Node sessions: calls return

    No call on the coordinator panics, whatever its arguments, its state and the
    answers of the operating system. *)

From stdpp Require Import base list strings gmap.
From Stdlib Require Import ZArith Lia.
From S2P Require Import Prelude ErrorModel Resource Lifecycle UdpProtocol UdpSocket TcpEngine NodeProtocol Session SessionOps SessionRuns.
Open Scope Z_scope.

Definition total {S A} (m : method S A) : Prop := forall s, (m s).2 <> Panic.

Lemma total_ret {S A} (o : res A) : o <> Panic -> total (S := S) (m_ret o).
Proof. by intros H s. Qed.
Lemma total_bind {S A B} (m : method S A) (n : A -> method S B) :
  total m -> (forall a, total (n a)) -> total (m_bind m n).
Proof.
  intros Hm Hn s. unfold m_bind. specialize (Hm s). destruct (m s) as [s' [a|e|]]; try done. apply Hn.
Qed.
Lemma total_gets {A} (f : SessionCoordinator -> A) : total (gets f).
Proof. done. Qed.
Lemma total_modify f : total (modify f).
Proof. done. Qed.
Lemma ok_or_total {A} (o : option A) (e : NetToolError) : ok_or o e <> Panic.
Proof. by destruct o. Qed.
Lemma total_session id : total (session id).
Proof. intros c. apply ok_or_total. Qed.
Lemma total_tcp id : total (tcp_session id).
Proof. intros c. apply ok_or_total. Qed.
Lemma total_udp id : total (udp_session id).
Proof. intros c. apply ok_or_total. Qed.
Lemma total_fresh id : total (fresh_session id).
Proof. intros c. unfold fresh_session. by destruct (session_exists c id). Qed.

Create HintDb total.
#[export] Hint Resolve total_bind total_gets total_modify total_session total_tcp total_udp total_fresh
  ok_or_total : total.

(** An outcome that is computed by cases. *)
Ltac by_cases := unfold err; repeat (case_match; try done); done.

(** Walk along a method. *)
Ltac returning :=
  repeat first
    [ progress (intros; cbv beta)
    | solve [auto with total]
    | apply total_bind
    | apply total_ret
    | solve [by_cases]
    | progress case_match ].

Lemma validate_total c : TcpEngine.validate c <> Panic.
Proof. unfold TcpEngine.validate, TcpEngine.invalid. by_cases. Qed.
Lemma validate_tag_total t : validate_authorization_tag t <> Panic.
Proof. unfold validate_authorization_tag. by_cases. Qed.
Lemma validate_receiver_total c : validate_receiver c <> Panic.
Proof. unfold validate_receiver. repeat (case_match; [done|]). apply validate_tag_total. Qed.
Lemma validate_sender_total c : validate_sender c <> Panic.
Proof. unfold validate_sender. repeat (case_match; [done|]). apply validate_tag_total. Qed.
#[export] Hint Resolve validate_total validate_receiver_total validate_sender_total : total.

Section Total.
Context {HO : HashOrder string Reservation} {RJ : ResultJson}.

Lemma reserve_active_total rid id k : total (reserve_active rid id k).
Proof.
  intros c. destruct (reserve_active rid id k c) as [c' o] eqn:He.
  by destruct (reserve_active_spec rid id k c c' o He) as [[-> _]|(e&->&_)].
Qed.
Lemma ready_total : ready_lifecycle <> Panic.
Proof. done. Qed.
Lemma release_total rid : total (release rid).
Proof.
  unfold release. apply total_bind; [|intros _]; intros c; unfold on_resources, begin_release, finish_release;
    destruct (reservations _ !! _) as [r|]; simpl; by_cases.
Qed.
Lemma on_lifecycle_total {A} id (f : method SpeedTestLifecycle A) : total f -> total (on_lifecycle id f).
Proof.
  intros Hf. unfold on_lifecycle. apply total_bind; [returning|]. intros s. specialize (Hf (lifecycle s)).
  destruct (f (lifecycle s)) as [l o]. by returning.
Qed.
Lemma update_total id f : total (update_session id f).
Proof. unfold update_session. returning. Qed.
Lemma record_total operation r : total (record operation r).
Proof. unfold record. returning. Qed.
Lemma endpoint_total h a : bind_endpoint h a <> Panic.
Proof. unfold bind_endpoint. by_cases. Qed.
Lemma tag_total h : random_tag h <> Panic.
Proof. unfold random_tag. by_cases. Qed.
Lemma expiration_total now ttl : expiration now ttl <> Panic.
Proof. apply ok_or_total. Qed.
Lemma result_json_total json : validate_result_json json <> Panic.
Proof. unfold validate_result_json, invalid. by_cases. Qed.
Lemma lifecycle_methods a now :
  total (mark_ready Remote) /\ total (schedule_start a now) /\ total (begin_warmup now).
Proof.
  split_and!; intros l; unfold mark_ready, schedule_start, begin_warmup, Lifecycle.invalid_state,
    Lifecycle.invalid_argument, transition; by_cases.
Qed.
End Total.
#[export] Hint Resolve reserve_active_total ready_total release_total on_lifecycle_total update_total
  record_total endpoint_total tag_total expiration_total result_json_total : total.

Section Exec.
Context {HO : HashOrder string Reservation} {RJ : ResultJson}.

Lemma validate_prepare_total q : validate_prepare q <> Panic.
Proof. unfold validate_prepare. repeat (case_match; [done|]). auto with total. Qed.
Lemma validate_sender_prepare_total q : validate_tcp_sender_prepare q <> Panic.
Proof. unfold validate_tcp_sender_prepare. repeat (case_match; [done|]). auto with total. Qed.
Lemma validate_both_prepare_total q : validate_tcp_bidirectional_prepare q <> Panic.
Proof. unfold validate_tcp_bidirectional_prepare. repeat (case_match; [done|]). auto with total. Qed.
Lemma validate_udp_prepare_total q : validate_udp_prepare q <> Panic.
Proof. unfold validate_udp_prepare. repeat (case_match; [done|]). auto with total. Qed.
Lemma validate_udp_sender_total q : validate_udp_sender_prepare q <> Panic.
Proof. unfold validate_udp_sender_prepare. repeat (case_match; [done|]). auto with total. Qed.
Lemma validate_udp_both_total q : validate_udp_bidirectional_prepare q <> Panic.
Proof. unfold validate_udp_bidirectional_prepare. repeat (case_match; [done|]). auto with total. Qed.
Hint Resolve validate_prepare_total validate_sender_prepare_total validate_both_prepare_total
  validate_udp_prepare_total validate_udp_sender_total validate_udp_both_total : total.

Lemma running_total st : total (running st).
Proof. unfold running. returning. Qed.
Lemma taken_total {A} (o : option A) m id s : total (taken o m id s).
Proof. unfold taken. returning. Qed.
Lemma begin_total id now : total (begin_scheduled id now).
Proof.
  unfold begin_scheduled, expired. destruct (lifecycle_methods 0 now) as (_&_&H). returning.
Qed.
Hint Resolve running_total taken_total begin_total : total.

Lemma start_total id operation a now : total (start id operation a now).
Proof.
  unfold start, expired. destruct (lifecycle_methods a now) as (H1&H2&_). returning.
  unfold matching_start. by_cases.
Qed.
Lemma stop_total id operation : total (stop id operation).
Proof. unfold stop. returning. unfold matching_stop. by_cases. Qed.

Lemma exec_total k : total (exec k).
Proof.
  destruct k; simpl; unfold m_map; apply total_bind;
    try apply start_total; try apply stop_total; try (intros; returning; fail);
  unfold prepare_tcp, prepare_tcp_sender, prepare_tcp_bidirectional, prepare_udp, prepare_udp_sender,
    prepare_udp_bidirectional, prepare_dpdk_receiver, begin_and_take_receiver, begin_and_take_sender,
    begin_and_take_bidirectional, begin_and_take_dpdk_receiver, take_tcp_listener, take_tcp_sender,
    take_tcp_bidirectional, take_udp_socket, take_udp_sender, take_udp_bidirectional, complete, fail,
    conclude, take_t_listener, take_t_destination, take_t_config, take_u_socket, take_u_destination,
    take_u_config, matching_result; returning.
Qed.
End Exec.
