(* ===== verification/SessionInv.v ===== *)
(** * Node sessions: the invariant, and what each call does

    [coordinator_inv] relates the sessions, their reservations, lifecycles and
    results. [exec_effect] describes every call on a coordinator that satisfies it. *)

From stdpp Require Import base list strings gmap.
From Stdlib Require Import ZArith Lia.
From S2P Require Import Prelude ErrorModel Text Resource Lifecycle UdpProtocol UdpSocket TcpEngine NodeProtocol Session SessionOps SessionRuns.
Open Scope Z_scope.

(** ** Sessions. *)

(** [[u8; 16]]. *)
Definition id_ok (id : bytes) : Prop := bytes_ok id /\ length id = 16%nat.

Definition live (st : NodeConnectionState) : Prop := st = TestReady \/ st = Running.
Definition ended (st : NodeConnectionState) : Prop := st = Completed \/ st = Failed \/ st = Canceled.

Definition prefixes : list string :=
  ["data-port-"; "tcp-sender-"; "udp-sender-"; "tcp-bidirectional-"; "udp-bidirectional-"; "dpdk-rx-"]%string.

(** The session with nothing left to hand to a worker. *)
Definition emptied (s : SessionMut) : SessionMut :=
  match s with
  | Tcp t => Tcp (set_t (t_state t) (t_lifecycle t) None None None t)
  | Udp u => Udp (set_u (u_state u) (u_lifecycle u) None None None u)
  | Dpdk d => Dpdk (set_d (d_state d) (d_lifecycle d) None d)
  end.

Definition spent (s : SessionMut) : Prop := s = emptied s.

(** What a live session may hold: the endpoint of a receiver, of a sender, of
    both, or nothing any more. *)
Definition shape_ok (s : SessionMut) : Prop :=
  match s with
  | Tcp t =>
      match t_listener t, t_sender_destination t, t_sender_config t with
      | Some _, None, None | None, Some _, None | Some _, Some _, Some _ | None, None, None => True
      | _, _, _ => False
      end
  | Udp u =>
      is_Some (source_port (u_authorization u)) /\
      match u_socket u, u_sender_destination u, u_sender_config u with
      | Some _, None, None | Some _, Some _, Some _ | None, None, None => True
      | _, _, _ => False
      end
  | Dpdk _ => True
  end.

Definition lifecycle_ok (s : SessionMut) : Prop :=
  (state s = TestReady -> phase (lifecycle s) = Prepare \/ phase (lifecycle s) = Lifecycle.Ready) /\
  (state s = Running -> phase (lifecycle s) = Warmup).

(** The configurations that workers get are valid and carry the session's tag. *)
Definition config_ok (id : bytes) (s : SessionMut) : Prop :=
  match s with
  | Tcp t =>
      validate_authorization_tag (authorization_tag (t_authorization t)) = Ok tt /\
      TcpEngine.validate (t_config t) = Ok tt /\
      forall c, t_sender_config t = Some c -> c = t_config t
  | Udp u =>
      (forall p, validate_receiver (udp_receiver_config id p u) = Ok tt) /\
      forall c, u_sender_config u = Some c -> validate_sender c = Ok tt /\ s_session_id c = id /\
        s_authorization_tag c = authorization_tag (u_authorization u)
  | Dpdk _ => True
  end.

(** The endpoint that [prepare] told the peer to send to. *)
Definition announced (s : SessionMut) : option ResourceKey :=
  let key proto a :=
    Some (DataPort proto (ip_to_string (destination_address a)) (destination_port a)) in
  match s with
  | Tcp t => if tcp_data_port (t_response t) =? 0 then None else key "tcp"%string (t_authorization t)
  | Udp u => if udp_data_port (u_response u) =? 0 then None else key "udp"%string (u_authorization u)
  | Dpdk _ => None
  end.

Definition announces (s : SessionMut) (k : ResourceClaim) : Prop :=
  units k = 1 /\ forall key, announced s = Some key -> k = claim key Exclusive.

(** The reservation that backs a session. *)
Definition backed (m : ResourceManager) (id : bytes) (s : SessionMut) : Prop :=
  exists r k, reservations m !! reservation_id s = Some r /\
    request r = wanted (reservation_id s) id k /\ announces s k /\
    (live (state s) -> Resource.state r = Active) /\ (ended (state s) -> Resource.state r = Released).

Record session_ok (id : bytes) (s : SessionMut) : Prop := {
  so_auth : auth_session (authorization s) = id;
  so_state : live (state s) \/ ended (state s);
  so_rid : exists p, p ∈ prefixes /\ reservation_id s = (p +:+ hex_session_id id)%string;
  so_shape : live (state s) -> shape_ok s;
  so_lifecycle : lifecycle_ok s;
  so_config : config_ok id s;
  so_id : id_ok id;
}.

(** A session that [prepare] just created. *)
Record created (id : bytes) (s : SessionMut) : Prop := {
  cr_ok : session_ok id s;
  cr_state : state s = TestReady;
  cr_start : start_at (lifecycle s) = None;
  cr_full : ~ spent s;
}.

Section Results.
Context {RJ : ResultJson}.

Definition result_ok (id : bytes) (r : TestResult) : Prop :=
  result_session_id r = id /\ checksum r = sha256 (result_json r) /\
  validate_result_json (result_json r) = Ok tt.

(** A reservation that no session owns: of a DPDK receiver whose preparation
    failed after it was made. *)
Definition orphan (c : SessionCoordinator) (rid : string) : Prop :=
  (exists id, rid = ("dpdk-rx-" +:+ hex_session_id id)%string /\ id_ok id) /\
  forall id s, session_mut c id = Some s -> reservation_id s <> rid.

Record coordinator_inv (c : SessionCoordinator) : Prop := {
  ci_disjoint : disjoint c;
  ci_sessions : forall id s, session_mut c id = Some s -> session_ok id s;
  ci_backed : forall id s, session_mut c id = Some s -> backed (resources c) id s;
  ci_pending : pending_results c = ∅;
  ci_results : forall id, match results c !! id with
    | Some r => result_ok id r /\ exists s, session_mut c id = Some s /\
                  (state s = Completed \/ state s = Failed)
    | None => forall s, session_mut c id = Some s -> state s <> Completed /\ state s <> Failed
    end;
  ci_owned : forall rid r, reservations (resources c) !! rid = Some r ->
    (exists id s, session_mut c id = Some s /\ reservation_id s = rid) \/ orphan c rid;
  ci_resources : forall limit, manager_inv limit (resources c);
}.

Lemma new_coordinator_inv : coordinator_inv new_coordinator.
Proof.
  split; try done.
  - intros id. cbn [results new_coordinator]. by rewrite lookup_empty.
  - intros limit. apply new_manager_inv.
Qed.
End Results.

(** ** Calls. *)

(** Session IDs are 16 bytes, the random generator fills 32 bytes. *)
Definition host_ok (h : Host) : Prop := forall bs, random_fill h = inr bs -> len bs = 32 /\ bytes_ok bs.

Definition call_session (k : Call) : bytes :=
  match k with
  | CPrepareTcp _ q _ => pt_session_id q
  | CPrepareTcpSender _ q _ => pts_session_id q
  | CPrepareTcpBidirectional _ q _ => ptb_session_id q
  | CPrepareUdp _ q _ => pu_session_id q
  | CPrepareUdpSender _ q _ => pus_session_id q
  | CPrepareUdpBidirectional _ q _ => pub_session_id q
  | CPrepareDpdk _ q _ => pd_session_id q
  | CStart id _ _ _ | CBegin id _ | CBeginReceiver id _ | CBeginSender id _
  | CBeginBidirectional id _ | CBeginDpdk id _ | CTakeTcpListener id | CTakeTcpSender id
  | CTakeTcpBidirectional id | CTakeUdpSocket id | CTakeUdpSender id | CTakeUdpBidirectional id
  | CStop id _ | CComplete id _ | CFail id _ => id
  end.

Definition call_host (k : Call) : option Host :=
  match k with
  | CPrepareTcp h _ _ | CPrepareTcpSender h _ _ | CPrepareTcpBidirectional h _ _
  | CPrepareUdp h _ _ | CPrepareUdpSender h _ _ | CPrepareUdpBidirectional h _ _
  | CPrepareDpdk h _ _ => Some h
  | _ => None
  end.

Definition call_ok (k : Call) : Prop :=
  id_ok (call_session k) /\ forall h, call_host k = Some h -> host_ok h.

(** The calls that start a session, with the time. *)
Definition begins (k : Call) : option (bytes * Z) :=
  match k with
  | CBegin id now | CBeginReceiver id now | CBeginSender id now | CBeginBidirectional id now
  | CBeginDpdk id now => Some (id, now)
  | _ => None
  end.

(** The session whose worker a response hands out. *)
Definition worker_for (k : Call) (o : res Response) : option bytes :=
  match o with
  | Ok (AckReceiver _ | AckSender _ | AckBoth _ | AckDpdk _) => Some (call_session k)
  | _ => None
  end.

(** The worker of the session [s]. *)
Definition worker_of (id : bytes) (s : SessionMut) (w : Response) : Prop :=
  match w with
  | AckReceiver (TcpReceiver l c) => exists t, s = Tcp t /\ t_listener t = Some l /\
      c = tcp_receiver_config id t
  | AckReceiver (UdpReceiver k c) => exists u p, s = Udp u /\ u_socket u = Some k /\
      source_port (u_authorization u) = Some p /\ c = udp_receiver_config id p u
  | AckSender (TcpSender c d) => exists t, s = Tcp t /\ t_sender_destination t = Some d /\
      c = tcp_sender_config id (t_config t) t
  | AckSender (UdpSender k c d) => exists u, s = Udp u /\ u_socket u = Some k /\
      u_sender_config u = Some c /\ u_sender_destination u = Some d
  | AckBoth (TcpBoth l r x d) => exists t run, s = Tcp t /\ t_listener t = Some l /\
      t_sender_config t = Some run /\ t_sender_destination t = Some d /\
      r = tcp_receiver_config id t /\ x = tcp_sender_config id run t
  | AckBoth (UdpBoth k r x d) => exists u p, s = Udp u /\ u_socket u = Some k /\
      source_port (u_authorization u) = Some p /\ r = udp_receiver_config id p u /\
      u_sender_config u = Some x /\ u_sender_destination u = Some d
  | AckDpdk p => exists d, s = Dpdk d /\ d_plan d = Some p
  | _ => False
  end.

(** What a call may take from a running session. *)
Definition handed (id : bytes) (k : Call) (o : res Response) (s s' : SessionMut) : Prop :=
  match worker_for k o with
  | Some j => j = id /\ ~ spent s /\ s' = emptied s /\ exists w, o = Ok w /\ worker_of id s w
  | None => s' = s \/ s' = emptied s
  end.

(** The session once its scheduled start has come. *)
Definition begun (s : SessionMut) : SessionMut :=
  set_state Running (set_lifecycle (set_phase Warmup (lifecycle s)) s).

(** ** New sessions. *)

Lemma hex_digit_plain d : 0 <= d < 16 -> 32 <= byte_of_ascii (hex_digit d) < 127.
Proof.
  intros Hd. unfold byte_of_ascii, hex_digit.
  destruct (Z.ltb_spec d 10); rewrite Ascii.N_ascii_embedding by lia; lia.
Qed.

Lemma as_bytes_hex bs : bytes_ok bs ->
  len (as_bytes (hex bs)) = 2 * len bs /\ has_control (as_bytes (hex bs)) = false.
Proof.
  induction 1 as [|b bs Hb _ [IHl IHc]]; [done|]. unfold is_byte in Hb.
  pose proof (hex_digit_plain (b / 16 mod 16)) as H1. pose proof (hex_digit_plain (b mod 16)) as H2.
  pose proof (Z.mod_pos_bound (b / 16) 16). pose proof (Z.mod_pos_bound b 16).
  change (as_bytes (hex (b :: bs))) with
    (byte_of_ascii (hex_digit (b / 16 mod 16)) :: byte_of_ascii (hex_digit (b mod 16)) ::
     as_bytes (hex bs)).
  rewrite !len_cons, IHl. split; [lia|]. cbn [has_control]. rewrite IHc.
  rewrite !(proj2 (Z.ltb_ge _ _)), !(proj2 (Z.eqb_neq _ _)) by lia.
  destruct (as_bytes (hex bs)); simpl; by rewrite ?andb_false_r.
Qed.

Lemma random_tag_valid h t : host_ok h -> random_tag h = Ok t -> validate_authorization_tag t = Ok tt.
Proof.
  unfold random_tag. destruct (random_fill h) as [m|bs] eqn:Hr; [done|]. intros Hh [= <-].
  destruct (Hh bs Hr) as [Hl Hb]. destruct (as_bytes_hex bs Hb) as [He Hc].
  unfold validate_authorization_tag. by rewrite He, Hl, Hc.
Qed.

Lemma retag_sender id n d ms target t0 t : validate_sender (sender_config id n d ms target t0) = Ok tt ->
  validate_authorization_tag t = Ok tt -> validate_sender (sender_config id n d ms target t) = Ok tt.
Proof.
  unfold validate_sender, sender_config. cbn. intros Hv Ht.
  repeat (case_match; [done|]). exact Ht.
Qed.

(** A receiver with the buffer of a valid sender and two seconds of patience. *)
Lemma sender_receives id n d ms target t0 c :
  validate_sender (sender_config id n d ms target t0) = Ok tt ->
  maximum_datagram_bytes c = d -> idle_timeout_milliseconds c = 2000 ->
  validate_authorization_tag (r_authorization_tag c) = Ok tt -> validate_receiver c = Ok tt.
Proof.
  unfold validate_sender, validate_receiver, sender_config. cbn. intros Hv -> -> Ht.
  destruct (negb _); [done|]. exact Ht.
Qed.

Lemma retag_receiver c c' : validate_receiver c = Ok tt ->
  maximum_datagram_bytes c' = maximum_datagram_bytes c ->
  idle_timeout_milliseconds c' = idle_timeout_milliseconds c ->
  validate_authorization_tag (r_authorization_tag c') = Ok tt -> validate_receiver c' = Ok tt.
Proof.
  unfold validate_receiver. intros Hv -> ->. repeat (case_match; [done|]). done.
Qed.

(** The lifecycle of a prepared session. *)
Definition prepared : SpeedTestLifecycle :=
  {| phase := Prepare; local_ready := true; remote_ready := false; start_at := None;
     measurement_started := None; measurement_window := None |}.

Lemma ready_lifecycle_ok : ready_lifecycle = Ok prepared.
Proof. reflexivity. Qed.

(** The fields that make a TCP session, a UDP session. *)
Lemma created_tcp id t (prefix : string) :
  id_ok id -> auth_session (t_authorization t) = id -> prefix ∈ prefixes ->
  t_reservation_id t = (prefix +:+ hex_session_id id)%string ->
  t_state t = TestReady -> t_lifecycle t = prepared -> shape_ok (Tcp t) ->
  is_Some (t_listener t) \/ is_Some (t_sender_destination t) ->
  validate_authorization_tag (authorization_tag (t_authorization t)) = Ok tt ->
  TcpEngine.validate (t_config t) = Ok tt -> (forall c, t_sender_config t = Some c -> c = t_config t) ->
  created id (Tcp t).
Proof.
  intros Hid Ha Hp Hrid Hst Hl Hsh Hfull Ht Hc Hs. split; [|done|by simpl; rewrite Hl|].
  - split; simpl; try done; [by left; left|eauto|]. unfold lifecycle_ok. simpl. rewrite Hl, Hst. by split; [left|].
  - intros [= Hspent]. rewrite Hspent in Hfull. by destruct Hfull as [[? ?]|[? ?]].
Qed.

Lemma created_udp id u (prefix : string) :
  id_ok id -> auth_session (u_authorization u) = id -> prefix ∈ prefixes ->
  u_reservation_id u = (prefix +:+ hex_session_id id)%string ->
  u_state u = TestReady -> u_lifecycle u = prepared -> shape_ok (Udp u) -> is_Some (u_socket u) ->
  config_ok id (Udp u) ->
  created id (Udp u).
Proof.
  intros Hid Ha Hp Hrid Hst Hl Hsh Hfull Hc. split; [|done|by simpl; rewrite Hl|].
  - split; try done; [by left; left|simpl; eauto|]. unfold lifecycle_ok. simpl. rewrite Hl, Hst. by split; [left|].
  - intros [= Hspent]. rewrite Hspent in Hfull. by destruct Hfull as [? ?].
Qed.
