(* ===== verification/SessionSample.v ===== *)
(** * Node sessions: a concrete history

    A node that prepares a TCP receiver and a UDP receiver, starts and completes
    the first and repeats a request. The witnesses of the session theorems run it. *)

From stdpp Require Import base list strings gmap.
From Stdlib Require Import ZArith Lia.
From S2P Require Import Prelude ErrorModel Resource Lifecycle UdpProtocol UdpSocket TcpEngine NodeProtocol Session SessionOps SessionRuns SessionInv.
Open Scope Z_scope.

(** Reservations in any order; a JSON document is its schema version. *)
#[export] Instance sample_order : HashOrder string Reservation := list_order string Reservation.
#[export] Instance sample_json : ResultJson :=
  {| schema_version := fun bs => inr (Some (hex bs)); sha256 := fun bs => take 32 (bs ++ replicate 32 0) |}.

Definition local (p : Z) : SocketAddr := SocketV4 2130706433 p.

(** The operating system binds to the port [p]. *)
Definition sample_host (p : Z) : Host :=
  {| bind := fun _ => inr {| handle := p; local_addr := inr (local p) |};
     random_fill := inr (map Z.of_nat (seq 0 32)) |}.

Definition tcp_id : bytes := replicate 16 1.
Definition udp_id : bytes := replicate 16 2.

Definition tcp_request : PrepareTcpRequest :=
  {| pt_session_id := tcp_id; pt_operation_id := "prepare-tcp"; pt_source_node_id := replicate 16 9;
     pt_source_address := V4 2130706433; pt_bind_address := local 0;
     pt_config := {| TcpEngine.streams := 2; TcpEngine.payload_bytes := 4096; TcpEngine.warmup_milliseconds := 0;
                     TcpEngine.measurement_milliseconds := 1000 |};
     pt_authorization_ttl_seconds := 60 |}.
Definition udp_request : PrepareUdpRequest :=
  {| pu_session_id := udp_id; pu_operation_id := "prepare-udp"; pu_source_node_id := replicate 16 9;
     pu_source_address := local 5000; pu_bind_address := local 0; pu_stream_id := 7;
     pu_maximum_datagram_bytes := 1400; pu_idle_timeout_milliseconds := 1000;
     pu_authorization_ttl_seconds := 60 |}.

(** One second after the preparation at time 100. *)
Definition start_time : Z := 101000000000.

Definition prepare_both : list Call :=
  [CPrepareTcp (sample_host 40001) tcp_request 100; CPrepareUdp (sample_host 40002) udp_request 100].
Definition sample_calls : list Call :=
  prepare_both ++
  [CStart tcp_id "start-tcp" start_time 100000000000;
   CBeginReceiver tcp_id (start_time + 5);
   CTakeTcpListener tcp_id;
   CComplete tcp_id [123; 125]].

Lemma sample_id n : 0 <= n < 256 -> id_ok (replicate 16 n).
Proof. intros Hn. split; [|apply length_replicate]. apply Forall_replicate. exact Hn. Qed.

Lemma sample_host_ok p : host_ok (sample_host p).
Proof.
  intros bs [= <-]. split; [done|]. apply (bool_decide_unpack _). vm_compute. done.
Qed.

Lemma sample_calls_ok : Forall call_ok sample_calls.
Proof.
  unfold sample_calls, prepare_both. simpl.
  repeat (apply Forall_cons; split; [split; [apply sample_id; lia|
    intros h [= <-]; apply sample_host_ok]|]). apply Forall_nil. done.
Qed.
