(* ===== verification/SessionCases.v ===== *)
(** * Node sessions: behaviours at the edges

    Evaluations of the model on the histories in which the coordinator does
    something that its callers may not expect. *)

From stdpp Require Import base list strings gmap.
From Stdlib Require Import ZArith Lia.
From S2P Require Import Prelude ErrorModel Resource Lifecycle UdpProtocol UdpSocket TcpEngine NodeProtocol Session SessionOps SessionRuns SessionInv SessionSample.
Open Scope Z_scope.

Definition dpdk_request (id : bytes) (operation : string) : PrepareDpdkReceiverRequest :=
  {| pd_session_id := id; pd_operation_id := operation; pd_source_node_id := replicate 16 9;
     pd_pci_address := "0000:03:00.0"; pd_duration_milliseconds := 1000;
     pd_remote_mac_address := "02:00:00:00:00:01"; pd_authorization_ttl_seconds := 60 |}.

Definition no_random : Host := {| bind := fun _ => inl "no socket"; random_fill := inl "no entropy" |}.

Definition udp_sender_request (size : Z) : PrepareUdpSenderRequest :=
  {| pus_session_id := udp_id; pus_operation_id := "prepare-sender"; pus_source_node_id := replicate 16 9;
     pus_source_address := V4 2130706433; pus_destination := local 6000; pus_stream_id := 7;
     pus_datagram_bytes := size; pus_measurement_milliseconds := 1000;
     pus_target_bits_per_second := None; pus_authorization_ttl_seconds := 60 |}.

Definition outcome (o : res Response) : option ErrorCode :=
  match o with Err e => Some (code e) | _ => None end.

Definition outcomes (calls : list Call) : list (option ErrorCode) :=
  map (fun e => outcome e.2) (history calls).2.

(** The reservation of a DPDK receiver is made before its tag is drawn: when the
    random generator fails, no session exists and nobody else gets the device. *)
Example dpdk_failure_holds_device :
  let calls := [CPrepareDpdk no_random (dpdk_request tcp_id "first") 100;
                CPrepareDpdk (sample_host 1) (dpdk_request udp_id "second") 100] in
  outcomes calls = [Some RandomFailed; Some ResourceConflict] /\
  session_exists (history calls).1 tcp_id = false.
Proof. vm_compute. done. Qed.

(** [begin_and_take_receiver] starts a DPDK session and then finds no socket: the
    session runs, and its plan cannot be taken any more. *)
Example receiver_begin_strands_dpdk :
  let calls := [CPrepareDpdk (sample_host 1) (dpdk_request tcp_id "first") 100;
                CStart tcp_id "start" start_time 100000000000;
                CBeginReceiver tcp_id start_time; CBeginDpdk tcp_id start_time] in
  outcomes calls = [None; None; Some InvalidArgument; Some InvalidState] /\
  session_state (history calls).1 tcp_id = Some Running.
Proof. vm_compute. done. Qed.

(** A plain UDP sender is accepted as a worker of both directions. *)
Example sender_taken_as_bidirectional :
  let calls := [CPrepareUdpSender (sample_host 40003) (udp_sender_request 1400) 100;
                CStart udp_id "start" start_time 100000000000;
                CBeginBidirectional udp_id start_time] in
  outcomes calls = [None; None; None] /\
  session_state (history calls).1 udp_id = Some Running.
Proof. vm_compute. done. Qed.

(** A start that is refused for its time leaves the session marked remotely ready. *)
Example refused_start_marks_ready :
  let c := (history (prepare_both ++ [CStart tcp_id "late" 1 100000000000])).1 in
  remote_ready <$> (lifecycle <$> session_mut c tcp_id) = Some true /\
  operations c !! "late"%string = None.
Proof. vm_compute. done. Qed.
