(* ===== verification/SessionRetry.v ===== *)
(** * Node sessions: repeated operations

    Mutating requests carry an operation ID, so that a client may repeat one whose
    answer it lost. This file shows what a repetition gets, in every history. *)

From stdpp Require Import base list strings gmap.
From Stdlib Require Import ZArith Lia.
From S2P Require Import Prelude ErrorModel Resource Lifecycle UdpProtocol UdpSocket TcpEngine NodeProtocol Session SessionOps SessionRuns SessionInv SessionSample.
Open Scope Z_scope.

Definition call_operation (k : Call) : option string :=
  match k with
  | CPrepareTcp _ q _ => Some (pt_operation_id q)
  | CPrepareTcpSender _ q _ => Some (pts_operation_id q)
  | CPrepareTcpBidirectional _ q _ => Some (ptb_operation_id q)
  | CPrepareUdp _ q _ => Some (pu_operation_id q)
  | CPrepareUdpSender _ q _ => Some (pus_operation_id q)
  | CPrepareUdpBidirectional _ q _ => Some (pub_operation_id q)
  | CPrepareDpdk _ q _ => Some (pd_operation_id q)
  | CStart _ operation _ _ | CStop _ operation => Some operation
  | _ => None
  end.

(** The same request, perhaps at another time and with another host. *)
Definition same_request (k k' : Call) : bool :=
  match k, k' with
  | CPrepareTcp _ q _, CPrepareTcp _ q' _ => bool_decide (q = q')
  | CPrepareTcpSender _ q _, CPrepareTcpSender _ q' _ => bool_decide (q = q')
  | CPrepareTcpBidirectional _ q _, CPrepareTcpBidirectional _ q' _ => bool_decide (q = q')
  | CPrepareUdp _ q _, CPrepareUdp _ q' _ => bool_decide (q = q')
  | CPrepareUdpSender _ q _, CPrepareUdpSender _ q' _ => bool_decide (q = q')
  | CPrepareUdpBidirectional _ q _, CPrepareUdpBidirectional _ q' _ => bool_decide (q = q')
  | CPrepareDpdk _ q _, CPrepareDpdk _ q' _ => bool_decide (q = q')
  | CStart id _ a _, CStart id' _ a' _ => bool_decide (id = id') && (a =? a')
  | CStop id _, CStop id' _ => bool_decide (id = id')
  | _, _ => false
  end.

(** What an answered request leaves in [operations]. *)
Definition record_of (k : Call) (r : Response) : option OperationRecord :=
  match k, r with
  | CPrepareTcp _ q _, AckTcp r => Some (PrepareTcp q r)
  | CPrepareTcpSender _ q _, AckTcp r => Some (PrepareTcpSender q r)
  | CPrepareTcpBidirectional _ q _, AckTcp r => Some (PrepareTcpBidirectional q r)
  | CPrepareUdp _ q _, AckUdp r => Some (PrepareUdp q r)
  | CPrepareUdpSender _ q _, AckUdp r => Some (PrepareUdpSender q r)
  | CPrepareUdpBidirectional _ q _, AckUdp r => Some (PrepareUdpBidirectional q r)
  | CPrepareDpdk _ q _, AckPlan p => Some (PrepareDpdkReceiver q p)
  | CStart id _ a _, AckState st => Some (Start id a st)
  | CStop id _, AckState st => Some (Stop id st)
  | _, _ => None
  end.

(** ** Methods that leave [operations] alone, and methods that end with a record. *)

Section Recording.
Context {HO : HashOrder string Reservation} {RJ : ResultJson}.

Definition quiet {A} (m : op A) : Prop := forall c, operations (m c).1 = operations c.

Definition logs {A} (operation : string) (R : A -> OperationRecord -> Prop) (m : op A) : Prop :=
  forall c, match m c with
            | (c', Ok a) => exists r, R a r /\ operations c' = <[operation := r]> (operations c)
            | (c', _) => operations c' = operations c
            end.

Lemma quiet_ret {A} (o : res A) : quiet (m_ret o).
Proof. done. Qed.
Lemma quiet_gets {A} (f : SessionCoordinator -> A) : quiet (gets f).
Proof. done. Qed.
Lemma quiet_expired {A} m : quiet (expired (A := A) m).
Proof. done. Qed.
Lemma quiet_put id s : quiet (modify (put_session id s)).
Proof. intros c. apply operations_put. Qed.
Lemma quiet_session id : quiet (session id).
Proof. done. Qed.
Lemma quiet_fresh id : quiet (fresh_session id).
Proof. intros c. unfold fresh_session. by destruct (session_exists c id). Qed.
Lemma quiet_resources f : quiet (on_resources f).
Proof. intros c. unfold on_resources. by destruct (f (resources c)) as [[m r]|e|]. Qed.
Lemma quiet_results (f g : SessionCoordinator -> gmap bytes TestResult) :
  quiet (modify (fun c => set_results (f c) (g c) c)).
Proof. done. Qed.

Lemma quiet_bind {A B} (m : op A) (n : A -> op B) :
  quiet m -> (forall a, quiet (n a)) -> quiet (m_bind m n).
Proof.
  intros Hm Hn c. unfold m_bind. specialize (Hm c). destruct (m c) as [c1 [a|e|]]; try done.
  simpl in Hm. rewrite <- Hm. apply Hn.
Qed.

Lemma logs_bind {A B} operation R (m : op A) (n : A -> op B) :
  quiet m -> (forall a, logs operation R (n a)) -> logs operation R (m_bind m n).
Proof.
  intros Hm Hn c. unfold m_bind. specialize (Hm c). destruct (m c) as [c1 [a|e|]]; try done.
  simpl in Hm. specialize (Hn a c1). by rewrite Hm in Hn.
Qed.

Lemma logs_record {A} operation (R : A -> OperationRecord -> Prop) a r :
  R a r -> logs operation R (let! _ := record operation r in m_ret (Ok a)).
Proof. intros HR c. unfold record, modify, m_bind, m_ret. by exists r. Qed.

Lemma logs_err {A} operation (R : A -> OperationRecord -> Prop) e : logs operation R (m_ret (Err e)).
Proof. done. Qed.
End Recording.

Create HintDb session.
#[export] Hint Resolve quiet_ret quiet_expired quiet_gets quiet_put quiet_session quiet_fresh quiet_resources
  quiet_results quiet_bind logs_record logs_err : session.

(** Walk along a method, down to its record. *)
Ltac quietly :=
  repeat first
    [ progress (intros; cbv beta)
    | solve [auto with session]
    | apply quiet_bind
    | progress case_match ].
Ltac logging :=
  repeat first
    [ progress (intros; cbv beta)
    | solve [apply logs_err]
    | solve [apply logs_record; reflexivity]
    | apply logs_bind; [solve [quietly]|]
    | progress case_match ].

Section Retry.
Context {HO : HashOrder string Reservation} {RJ : ResultJson}.

Lemma quiet_reserve rid id k : quiet (reserve_active rid id k).
Proof. unfold reserve_active. quietly. Qed.
Lemma quiet_update id f : quiet (update_session id f).
Proof. unfold update_session. quietly. Qed.
Lemma quiet_on_lifecycle {A} id (f : method SpeedTestLifecycle A) : quiet (on_lifecycle id f).
Proof. unfold on_lifecycle. apply quiet_bind; [quietly|]. intros s. destruct (f (lifecycle s)). quietly. Qed.
Lemma quiet_release rid : quiet (release rid).
Proof. unfold release. quietly. Qed.
End Retry.
#[export] Hint Resolve quiet_reserve quiet_update quiet_on_lifecycle quiet_release : session.

Section Idempotence.
Context {HO : HashOrder string Reservation} {RJ : ResultJson}.

Lemma quiet_begin id now : quiet (begin_scheduled id now).
Proof. unfold begin_scheduled. quietly. Qed.
Lemma quiet_taken {A} (o : option A) m id s : quiet (taken o m id s).
Proof. unfold taken. quietly. Qed.
Lemma quiet_running st : quiet (running st).
Proof. unfold running. quietly. Qed.
Lemma quiet_tcp id : quiet (tcp_session id).
Proof. done. Qed.
Lemma quiet_udp id : quiet (udp_session id).
Proof. done. Qed.
Hint Resolve quiet_begin quiet_taken quiet_running quiet_tcp quiet_udp : session.
Hint Unfold take_t_listener take_t_destination take_t_config take_u_socket take_u_destination
  take_u_config m_map : session.

(** Calls without an operation ID. *)
Lemma exec_quiet k : call_operation k = None -> quiet (exec k).
Proof.
  destruct k; try done; intros _; simpl; unfold m_map, begin_and_take_receiver, begin_and_take_sender,
    begin_and_take_bidirectional, begin_and_take_dpdk_receiver, take_tcp_listener, take_tcp_sender,
    take_tcp_bidirectional, take_udp_socket, take_udp_sender, take_udp_bidirectional, complete, fail,
    conclude, take_t_listener, take_t_destination, take_t_config, take_u_socket, take_u_destination,
    take_u_config; quietly.
Qed.

(** ** Calls with an operation ID: new, and known. *)

Lemma retry_new {A} k (f : A -> Response) operation (n : option OperationRecord -> op A) c :
  operations c !! operation = None -> logs operation (fun a r => record_of k (f a) = Some r) (n None) ->
  match m_map f (m_bind (gets (fun c => operations c !! operation)) n) c with
  | (c', Ok a) => exists r, record_of k a = Some r /\ operations c' = <[operation := r]> (operations c)
  | (c', _) => operations c' = operations c
  end.
Proof.
  intros Hn Hl. unfold m_map, m_bind, gets, m_ret. rewrite Hn. specialize (Hl c).
  by destruct (n None c) as [c' [a|e|]].
Qed.

Lemma exec_new k operation c : call_operation k = Some operation -> operations c !! operation = None ->
  match exec k c with
  | (c', Ok a) => exists r, record_of k a = Some r /\ operations c' = <[operation := r]> (operations c)
  | (c', _) => operations c' = operations c
  end.
Proof.
  intros Hk Hn. destruct k; try discriminate Hk; injection Hk as <-; apply retry_new; try done;
    unfold expired; logging.
Qed.

Lemma exec_known k k0 r0 operation c rec :
  call_operation k = Some operation -> operations c !! operation = Some rec ->
  record_of k0 r0 = Some rec ->
  exec k c = (c, if same_request k0 k then Ok r0 else Err operation_conflict).
Proof.
  intros Hk Hn Hr.
  assert (exists o, exec k c = (c, o) /\ o = if same_request k0 k then Ok r0 else Err operation_conflict)
    as (o&Ho&->); [|done].
  destruct k0, r0; try discriminate Hr; injection Hr as <-;
    (destruct k; try discriminate Hk; injection Hk as <-; simpl;
     unfold m_map, m_bind, prepare_tcp, prepare_tcp_sender, prepare_tcp_bidirectional, prepare_udp,
       prepare_udp_sender, prepare_udp_bidirectional, prepare_dpdk_receiver, start, stop, m_bind, gets, m_ret;
     rewrite Hn; simpl; repeat (case_match; simplify_eq/=); by eexists).
Qed.

Lemma record_made rec : exists k r, record_of k r = Some rec.
Proof.
  pose (h := {| bind := fun _ => inl ""; random_fill := inl "" |}).
  destruct rec as [q r|q r|q r|q r|q r|q r|q r|id a st|id st].
  - by exists (CPrepareTcp h q 0), (AckTcp r).
  - by exists (CPrepareTcpSender h q 0), (AckTcp r).
  - by exists (CPrepareTcpBidirectional h q 0), (AckTcp r).
  - by exists (CPrepareUdpSender h q 0), (AckUdp r).
  - by exists (CPrepareUdpBidirectional h q 0), (AckUdp r).
  - by exists (CPrepareUdp h q 0), (AckUdp r).
  - by exists (CPrepareDpdk h q 0), (AckPlan r).
  - by exists (CStart id "" a 0), (AckState st).
  - by exists (CStop id ""), (AckState st).
Qed.

Lemma same_request_record k k' r : same_request k k' = true -> is_Some (record_of k r) ->
  record_of k' r = record_of k r.
Proof.
  destruct k, k', r; simpl; intros H [rec Hr]; try discriminate;
    rewrite ?andb_true_iff, ?bool_decide_eq_true, ?Z.eqb_eq in H; by destruct_and?; subst.
Qed.

(** ** Histories. *)

Definition recorded (c : SessionCoordinator) (l : Log) : Prop := forall k r operation,
  (k, Ok r) ∈ l -> call_operation k = Some operation ->
  exists rec, record_of k r = Some rec /\ operations c !! operation = Some rec.

Lemma exec_recorded k c l : recorded c l -> recorded (exec k c).1 (l ++ [(k, (exec k c).2)]).
Proof.
  intros Hl k0 r0 operation Hin Hk0. apply elem_of_app in Hin as [Hin|Hin%list_elem_of_singleton].
  - destruct (Hl k0 r0 operation Hin Hk0) as (rec&Hr&Hop). exists rec. split; [done|].
    destruct (call_operation k) as [operation'|] eqn:Hk; [|by rewrite (exec_quiet k Hk)].
    destruct (operations c !! operation') as [rec'|] eqn:Hop'.
    + destruct (record_made rec') as (k1&r1&H1). by rewrite (exec_known k k1 r1 operation' c rec').
    + pose proof (exec_new k operation' c Hk Hop') as Hnew. destruct (exec k c) as [c' [a|e|]]; simpl;
        [|by rewrite Hnew..]. destruct Hnew as (r&_&->). rewrite lookup_insert_ne; [done|congruence].
  - injection Hin as -> Hr0. destruct (operations c !! operation) as [rec|] eqn:Hop.
    + destruct (record_made rec) as (k1&r1&H1). rewrite (exec_known k k1 r1 operation c rec) in * by done.
      simpl in *. destruct (same_request k1 k) eqn:Hs; [|done]. injection Hr0 as ->.
      exists rec. split; [|done]. rewrite (same_request_record k1 k); [done|done|by rewrite H1].
    + pose proof (exec_new k operation c Hk0 Hop) as Hnew. destruct (exec k c) as [c' o]. simpl in *. subst o.
      destruct Hnew as (r&Hr&->). exists r. by rewrite lookup_insert_eq.
Qed.

Lemma history_recorded calls : recorded (history calls).1 (history calls).2.
Proof.
  induction calls as [|k calls IH] using rev_ind; [by intros k r operation ?%elem_of_nil|].
  rewrite calls_snoc. by apply exec_recorded.
Qed.
End Idempotence.

(** C5: in every history, with any answers of the operating system, a request whose
    operation ID was answered with success before gets the stored answer when it is the same
    request, even at another time, from another host or after the session moved
    on or ended, and [OperationConflict] when it is another one; in both cases the
    coordinator does not change. *)
Theorem operations_idempotent {HO : HashOrder string Reservation} {RJ : ResultJson} (calls : list Call)
    (k k' : Call) (r : Response) (operation : string) :
  (k, Ok r) ∈ (history calls).2 ->
  call_operation k = Some operation -> call_operation k' = Some operation ->
  exec k' (history calls).1 =
    ((history calls).1, if same_request k k' then Ok r else Err operation_conflict).
Proof.
  intros Hin Hk Hk'. destruct (history_recorded calls k r operation Hin Hk) as (rec&Hr&Hop).
  by apply (exec_known k' k r operation _ rec).
Qed.

(** The TCP preparation and the start, repeated after the session completed. *)
Lemma operations_idempotent_witness :
  let done := (history sample_calls).1 in
  session_state done tcp_id = Some Completed /\
  exec (CPrepareTcp (sample_host 50000) tcp_request 500) done = (done, Ok (AckTcp {|
    tcp_session_id := tcp_id; tcp_data_port := 40001;
    tcp_authorization_tag := hex (map Z.of_nat (seq 0 32)); tcp_expires_at := 160;
    tcp_response_state := TestReady |})) /\
  exec (CStart tcp_id "start-tcp" 7 8) done = (done, Err operation_conflict).
Proof.
  cbv zeta. split; [vm_compute; reflexivity|]. split.
  - eapply (operations_idempotent sample_calls (CPrepareTcp (sample_host 40001) tcp_request 100)
      (CPrepareTcp (sample_host 50000) tcp_request 500)); [|reflexivity..].
    apply list_elem_of_In. vm_compute. by left.
  - eapply (operations_idempotent sample_calls (CStart tcp_id "start-tcp" start_time 100000000000)
      (CStart tcp_id "start-tcp" 7 8) (AckState TestReady)); [|reflexivity..].
    apply list_elem_of_In. vm_compute. by do 2 right; left.
Defined.
