(* ===== verification/SessionEffects.v ===== *)
(** * Node sessions: the effect of a call

    [effect] lists what a call may do to a coordinator, [exec_effect] shows that
    every call on a coordinator with the invariant does one of these things. *)

From stdpp Require Import base list strings gmap.
From Stdlib Require Import ZArith Lia.
From S2P Require Import Prelude ErrorModel Resource Lifecycle UdpProtocol UdpSocket TcpEngine NodeProtocol Session SessionOps SessionRuns SessionInv.
Open Scope Z_scope.

Section Effects.
Context {HO : HashOrder string Reservation} {RJ : ResultJson}.

Inductive effect (c : SessionCoordinator) (k : Call) (o : res Response) : SessionCoordinator -> Prop :=
  | eff_none ops :
      worker_for k o = None -> effect c k o (set_operations ops c)
  | eff_new id s kc m ops :
      session_mut c id = None -> created id s -> announces s kc ->
      now_in (wanted (reservation_id s) id kc) Active (resources c) m -> worker_for k o = None ->
      effect c k o (set_operations ops (put_session id s (set_resources m c)))
  | eff_orphan id kc m :
      session_mut c id = None -> id_ok id -> units kc = 1 ->
      now_in (wanted ("dpdk-rx-" +:+ hex_session_id id) id kc) Active (resources c) m ->
      worker_for k o = None -> effect c k o (set_resources m c)
  | eff_schedule id operation start_at now s l ops :
      k = CStart id operation start_at now -> session_mut c id = Some s -> state s = TestReady ->
      phase l = Prepare \/ phase l = Lifecycle.Ready ->
      Lifecycle.start_at l = Lifecycle.start_at (lifecycle s) \/
        o = Ok (AckState TestReady) /\ Lifecycle.start_at l = Some start_at ->
      worker_for k o = None ->
      effect c k o (set_operations ops (put_session id (set_lifecycle l s) c))
  | eff_begin id now start s s' :
      begins k = Some (id, now) -> session_mut c id = Some s -> state s = TestReady ->
      start_at (lifecycle s) = Some start -> start <= now ->
      now / 1000000000 <= expires_at_unix_seconds (authorization s) ->
      handed id k o (begun s) s' -> effect c k o (put_session id s' c)
  | eff_take id s s' :
      call_session k = id -> session_mut c id = Some s -> state s = Running ->
      handed id k o s s' -> effect c k o (put_session id s' c)
  | eff_end id s st r m rs ops :
      session_mut c id = Some s -> live (state s) -> ended st -> (st = Completed -> state s = Running) ->
      reservations (resources c) !! reservation_id s = Some r ->
      now_in (request r) Released (resources c) m -> worker_for k o = None ->
      (st = Canceled /\ rs = results c) \/
        (st <> Canceled /\ exists t, o = Ok (AckResult t) /\ result_ok id t /\ rs = <[id := t]> (results c)) ->
      effect c k o (set_operations ops (set_results rs ∅
        (put_session id (set_state st (close_endpoint s)) (set_resources m c)))).

(** A call that leaves the coordinator as it is. *)
Lemma eff_same c k o : worker_for k o = None -> effect c k o c.
Proof.
  intros H. replace c with (set_operations (operations c) c) at 2 by by destruct c.
  by apply eff_none.
Qed.

(** Expand the steps of a method that do not touch the resource manager. *)
Ltac expand H :=
  unfold m_map, gets, record, modify, fresh_session, m_bind, m_ret in H;
  rewrite ?ready_lifecycle_ok in H.

(** The failures of a preparation leave the coordinator unchanged. *)
Ltac unchanged := simplify_eq/=; by apply eff_same.

(** The session that a goal inserts is new. *)
Ltac new_tcp He Hm :=
  match goal with
  | |- effect ?c _ _ (set_operations _ (set_tcp (<[?id := ?t]> _) (set_resources ?m _))) =>
      refine (eff_new c _ _ id (Tcp t) _ m _ He _ _ Hm _); [| |done]
  end.
Ltac new_udp He Hm :=
  match goal with
  | |- effect ?c _ _ (set_operations _ (set_udp (<[?id := ?t]> _) (set_resources ?m _))) =>
      refine (eff_new c _ _ id (Udp t) _ m _ He _ _ Hm _); [| |done]
  end.

(** The endpoint that was bound and announced. *)
Lemma announces_tcp t a :
  destination_address (t_authorization t) = ip a -> destination_port (t_authorization t) = port a ->
  announces (Tcp t) (claim (port_key "tcp" a) Exclusive).
Proof.
  intros Ha Hp. split; [done|]. intros key. unfold announced. rewrite Ha, Hp.
  by case_match; intros [= <-].
Qed.

Lemma announces_udp u a :
  destination_address (u_authorization u) = ip a -> destination_port (u_authorization u) = port a ->
  announces (Udp u) (claim (port_key "udp" a) Exclusive).
Proof.
  intros Ha Hp. split; [done|]. intros key. unfold announced. rewrite Ha, Hp.
  by case_match; intros [= <-].
Qed.

(** The checks of a request end with those of its configuration. *)
Ltac validated Hv := repeat (case_match; [done|]); exact Hv.

(** Every preparation up to the reservation [Hm]; what remains is its success. *)
Ltac preparing H Hh v :=
  destruct (operations _ !! _) as [[]|]; try unchanged; [case_bool_decide; unchanged|];
  destruct v as [[]|?|] eqn:Hv; try unchanged;
  destruct (session_exists _ _) eqn:He; [unchanged|]; apply session_exists_false in He;
  destruct (expiration _ _) as [x|?|]; try unchanged;
  lazymatch type of H with
  | context [bind_endpoint _ _] => destruct (bind_endpoint _ _) as [[sk a]|?|]; try unchanged
  | _ => idtac
  end;
  destruct (random_tag _) as [t|?|] eqn:Ht; try unchanged;
  apply random_tag_valid in Ht; [|by apply Hh];
  destruct (reserve_active _ _ _ _) as [c1 o1] eqn:Hr;
  apply reserve_active_spec in Hr as [(->&m&->&Hm)|(?&->&->)]; [|unchanged];
  injection H as <- <-.

Lemma prepare_tcp_effect h q now c c' o :
  call_ok (CPrepareTcp h q now) -> exec (CPrepareTcp h q now) c = (c', o) ->
  effect c (CPrepareTcp h q now) o c'.
Proof.
  intros [Hid Hh] H. cbn [exec] in H. unfold prepare_tcp in H. expand H. preparing H Hh (validate_prepare q).
  new_tcp He Hm; [|by apply announces_tcp].
  eapply (created_tcp _ _ "data-port-"); try done; [set_solver|eauto|].
  revert Hv. unfold validate_prepare. intros Hv. validated Hv.
Qed.

Lemma prepare_tcp_sender_effect h q now c c' o :
  call_ok (CPrepareTcpSender h q now) -> exec (CPrepareTcpSender h q now) c = (c', o) ->
  effect c (CPrepareTcpSender h q now) o c'.
Proof.
  intros [Hid Hh] H. cbn [exec] in H. unfold prepare_tcp_sender in H. expand H. preparing H Hh (validate_tcp_sender_prepare q).
  new_tcp He Hm; [|done].
  eapply (created_tcp _ _ "tcp-sender-"); try done; [set_solver|eauto|].
  revert Hv. unfold validate_tcp_sender_prepare. intros Hv. validated Hv.
Qed.

Lemma prepare_tcp_bidirectional_effect h q now c c' o :
  call_ok (CPrepareTcpBidirectional h q now) -> exec (CPrepareTcpBidirectional h q now) c = (c', o) ->
  effect c (CPrepareTcpBidirectional h q now) o c'.
Proof.
  intros [Hid Hh] H. cbn [exec] in H. unfold prepare_tcp_bidirectional in H. expand H. preparing H Hh (validate_tcp_bidirectional_prepare q).
  new_tcp He Hm; [|by apply announces_tcp].
  eapply (created_tcp _ _ "tcp-bidirectional-"); try done; [set_solver|eauto| |by intros ? [= <-]].
  revert Hv. unfold validate_tcp_bidirectional_prepare. intros Hv. validated Hv.
Qed.

Lemma prepare_udp_effect h q now c c' o :
  call_ok (CPrepareUdp h q now) -> exec (CPrepareUdp h q now) c = (c', o) ->
  effect c (CPrepareUdp h q now) o c'.
Proof.
  intros [Hid Hh] H. cbn [exec] in H. unfold prepare_udp in H. expand H. preparing H Hh (validate_udp_prepare q).
  new_udp He Hm; [|by apply announces_udp].
  eapply (created_udp _ _ "data-port-"); try done; [set_solver|].
  split; [|done]. intros p. revert Hv. unfold validate_udp_prepare. intros Hv.
  repeat (case_match; [done|]). by eapply retag_receiver.
Qed.

Lemma prepare_udp_sender_effect h q now c c' o :
  call_ok (CPrepareUdpSender h q now) -> exec (CPrepareUdpSender h q now) c = (c', o) ->
  effect c (CPrepareUdpSender h q now) o c'.
Proof.
  intros [Hid Hh] H. cbn [exec] in H. unfold prepare_udp_sender in H. expand H. preparing H Hh (validate_udp_sender_prepare q).
  new_udp He Hm; [|done].
  eapply (created_udp _ _ "udp-sender-"); try done; [set_solver|].
  revert Hv. unfold validate_udp_sender_prepare. intros Hv. repeat (case_match; [done|]).
  split; [intros p; by eapply sender_receives|]. intros ? [= <-]. by split; [eapply retag_sender|].
Qed.

Lemma prepare_udp_bidirectional_effect h q now c c' o :
  call_ok (CPrepareUdpBidirectional h q now) -> exec (CPrepareUdpBidirectional h q now) c = (c', o) ->
  effect c (CPrepareUdpBidirectional h q now) o c'.
Proof.
  intros [Hid Hh] H. cbn [exec] in H. unfold prepare_udp_bidirectional in H. expand H. preparing H Hh (validate_udp_bidirectional_prepare q).
  new_udp He Hm; [|by apply announces_udp].
  eapply (created_udp _ _ "udp-bidirectional-"); try done; [set_solver|].
  revert Hv. unfold validate_udp_bidirectional_prepare. intros Hv. repeat (case_match; [done|]).
  split; [intros p; by eapply sender_receives|]. intros ? [= <-]. by split; [eapply retag_sender|].
Qed.

Lemma created_dpdk id a rid p :
  id_ok id -> auth_session a = id -> rid = ("dpdk-rx-" +:+ hex_session_id id)%string ->
  created id (Dpdk {| d_authorization := a; d_state := TestReady; d_reservation_id := rid;
                      d_lifecycle := prepared; d_plan := Some p |}).
Proof.
  intros Hid Ha Hr. split; try done. split; try done; [by left; left| |by split; [left|]].
  exists "dpdk-rx-"%string. split; [set_solver|done].
Qed.

Lemma prepare_dpdk_effect h q now c c' o :
  call_ok (CPrepareDpdk h q now) -> exec (CPrepareDpdk h q now) c = (c', o) ->
  effect c (CPrepareDpdk h q now) o c'.
Proof.
  intros [Hid Hh] H. cbn [exec] in H. unfold prepare_dpdk_receiver in H. expand H.
  destruct (operations c !! _) as [[]|]; try unchanged; [case_bool_decide; unchanged|].
  destruct (negb (valid_dpdk_bdf _)); [unchanged|]. destruct (_ || _); [unchanged|].
  destruct (negb (valid_dpdk_mac _)); [unchanged|].
  destruct (session_exists _ _) eqn:He; [unchanged|]. apply session_exists_false in He.
  destruct (expiration _ _) as [x|?|]; try unchanged.
  destruct (reserve_active _ _ _ _) as [c1 o1] eqn:Hr.
  apply reserve_active_spec in Hr as [(->&m&->&Hm)|(?&->&->)]; [|unchanged].
  destruct (random_tag h) as [t|e|] eqn:Ht; injection H as <- <-.
  - match goal with
    | |- effect _ _ _ (set_operations _ (set_dpdk (<[_ := ?d]> _) _)) =>
        refine (eff_new c _ _ _ (Dpdk d) _ m _ He _ _ Hm _); [|done..]
    end.
    by apply created_dpdk.
  - by refine (eff_orphan c _ _ _ _ m He Hid _ Hm _).
  - by refine (eff_orphan c _ _ _ _ m He Hid _ Hm _).
Qed.

(** ** Starting. *)

Lemma mark_ready_cases l : match mark_ready Remote l with
  | (l', Ok _) => Lifecycle.start_at l' = Lifecycle.start_at l /\
                  (phase l' = Prepare \/ phase l' = Lifecycle.Ready)
  | (l', Err _) => l' = l
  | (_, Panic) => False
  end.
Proof.
  unfold mark_ready. destruct (negb _) eqn:Hp; [done|].
  apply negb_false_iff, orb_true_iff in Hp. rewrite !bool_decide_eq_true in Hp. simpl.
  by destruct (local_ready l); simpl; auto.
Qed.

Lemma schedule_start_cases a now l : match schedule_start a now l with
  | (l', Ok _) => Lifecycle.start_at l' = Some a /\ phase l' = phase l
  | (l', Err _) => l' = l
  | (_, Panic) => False
  end.
Proof.
  unfold schedule_start. destruct (negb _); [done|]. destruct (a =? 0); [done|].
  destruct (a <? now); [done|]. destruct (Lifecycle.start_at l) as [x|] eqn:Hx; [|done].
  destruct (Z.eqb_spec x a) as [->|]; [|done]. done.
Qed.

Lemma begin_warmup_cases now l : match begin_warmup now l with
  | (l', Ok _) => l' = set_phase Warmup l /\ exists x, Lifecycle.start_at l = Some x /\ x <= now
  | (l', Err _) => l' = l
  | (_, Panic) => False
  end.
Proof.
  unfold begin_warmup. destruct (negb _); [done|].
  destruct (Lifecycle.start_at l) as [x|] eqn:Hx; [|done].
  destruct (Z.ltb_spec now x); [done|]. eauto.
Qed.

Lemma start_effect id operation a now c c' o :
  exec (CStart id operation a now) c = (c', o) -> effect c (CStart id operation a now) o c'.
Proof.
  intros H. cbn [exec] in H. unfold start, session, expired in H. expand H.
  destruct (operations c !! operation) as [r|].
  { destruct (matching_start r id a); unchanged. }
  destruct (session_mut c id) as [s|] eqn:Hs; cbn [ok_or] in H; [|unchanged].
  destruct (_ <? _); [unchanged|]. destruct (bool_decide (state s = TestReady)) eqn:Hst; [|unchanged].
  apply bool_decide_eq_true in Hst. cbn [negb] in H. destruct (_ <? _); [unchanged|].
  rewrite (on_lifecycle_eq _ _ _ _ Hs) in H. pose proof (mark_ready_cases (lifecycle s)) as Hm.
  destruct (mark_ready Remote (lifecycle s)) as [l1 [b|e|]]; cbn [fst snd] in H; [|subst l1|done].
  2: { rewrite set_lifecycle_same, put_same in H by done. unchanged. }
  destruct Hm as [Ha Hp].
  assert (Hs1 : session_mut (put_session id (set_lifecycle l1 s) c) id = Some (set_lifecycle l1 s)).
  { rewrite session_put by (eapply placeable_kind, kind_lifecycle; exact Hs). by rewrite decide_True. }
  rewrite (on_lifecycle_eq _ _ _ _ Hs1), put_put in H by by destruct s.
  assert (Hl1 : lifecycle (set_lifecycle l1 s) = l1) by by destruct s. rewrite Hl1 in H.
  assert (Hll : forall l2, set_lifecycle l2 (set_lifecycle l1 s) = set_lifecycle l2 s) by by destruct s.
  rewrite Hll in H. pose proof (schedule_start_cases a now l1) as Hc.
  destruct (schedule_start a now l1) as [l2 [[]|e|]]; cbn [fst snd] in H; [|subst l2|done].
  - rewrite session_put, decide_True in H by
      (done || by eapply placeable_kind, kind_lifecycle; exact Hs).
    cbn [ok_or] in H. assert (Hst' : state (set_lifecycle l2 s) = TestReady) by (by destruct s).
    rewrite Hst' in H. injection H as <- <-. destruct Hc as [Hc1 Hc2].
    eapply eff_schedule; [done|done|done|by rewrite Hc2|by right|done].
  - injection H as <- <-. rewrite <- (set_operations_same (put_session id _ c)).
    by eapply eff_schedule; [done|done|done|done|left|].
Qed.

Lemma begin_spec id now c c' o : begin_scheduled id now c = (c', o) ->
  (c' = c /\ exists e, o = Err e) \/
  (o = Ok Running /\ exists s a, session_mut c id = Some s /\ state s = TestReady /\
     start_at (lifecycle s) = Some a /\ a <= now /\
     now / 1000000000 <= expires_at_unix_seconds (authorization s) /\
     c' = put_session id (begun s) c).
Proof.
  unfold begin_scheduled. intros H. unfold session at 1, expired in H. expand H.
  destruct (session_mut c id) as [s|] eqn:Hs; cbn [ok_or] in H; [|injection H as <- <-; eauto].
  destruct (bool_decide (state s = TestReady)) eqn:Hst; [|injection H as <- <-; eauto].
  apply bool_decide_eq_true in Hst. cbn [negb] in H.
  destruct (Z.ltb_spec (expires_at_unix_seconds (authorization s)) (now / 1000000000)) as [Hx|Hx];
    [injection H as <- <-; eauto|].
  rewrite (on_lifecycle_eq _ _ _ _ Hs) in H. pose proof (begin_warmup_cases now (lifecycle s)) as Hw.
  destruct (begin_warmup now (lifecycle s)) as [l [[]|e|]]; cbn [fst snd] in H; [|subst l|done].
  2: { rewrite set_lifecycle_same, put_same in H by done. injection H as <- <-. eauto. }
  destruct Hw as [-> (a&Ha&Hle)]. unfold update_session, session in H. expand H.
  assert (Hp : forall s', same_kind s s' -> session_mut (put_session id s' c) id = Some s').
  { intros s' Hk. rewrite session_put by (by eapply placeable_kind). by rewrite decide_True. }
  rewrite Hp in H by apply kind_lifecycle. cbn [ok_or] in H.
  rewrite put_put, Hp in H by by destruct s. cbn [ok_or] in H. injection H as <- <-. right.
  split; [by destruct s|]. exists s, a. by split_and!.
Qed.

(** ** Handing out workers. *)

(** The result [o] of taking from [s], which becomes [s']. *)
Definition gave {A} (f : A -> Response) (id : bytes) (s s' : SessionMut) (o : res A) : Prop :=
  match o with
  | Ok w => ~ spent s /\ s' = emptied s /\ worker_of id s (f w)
  | Err _ => s' = s \/ s' = emptied s
  | Panic => False
  end.

Definition take_spec {A} (f : A -> Response) (id : bytes) (m : op A) : Prop := forall c c' o,
  disjoint c -> (forall s, session_mut c id = Some s -> state s = Running -> shape_ok s) ->
  m c = (c', o) ->
  (c' = c /\ exists e, o = Err e) \/
  exists s s', session_mut c id = Some s /\ state s = Running /\ c' = put_session id s' c /\
    gave f id s s' o.

(** A running TCP session with its shape, or nothing happens. *)
Ltac tcp_fields H Hshape id t :=
  unfold tcp_session, running, take_t_listener, take_t_destination, take_t_config, taken in H; expand H;
  match type of H with context [tcp_sessions ?c !! id] =>
    destruct (tcp_sessions c !! id) as [t|] eqn:Ht; cbn [ok_or] in H;
      [|left; injection H as <- <-; by eauto];
    assert (Hs : session_mut c id = Some (Tcp t)) by (by unfold session_mut; rewrite Ht);
    specialize (Hshape _ Hs)
  end;
  destruct t as [resp au cf L st rid lc D C]; cbn in H, Hshape.

Ltac put_fields H :=
  unfold put_session, set_tcp, set_udp in H; cbn in H;
  rewrite ?lookup_insert_eq in H; cbn in H; rewrite ?insert_insert_eq in H.

(** The state of the session decides whether anything happens. *)
Ltac is_running H st :=
  destruct (bool_decide (st = Running)) eqn:Hrun; cbn in H;
  [apply bool_decide_eq_true in Hrun as ->|left; injection H as <- <-; by eauto].

Ltac refused H := left; injection H as <- <-; by eauto.

(** What is left in the session is its empty form. *)
Ltac emptied_by H Hs :=
  put_fields H; injection H as <- <-; right;
  match type of Hs with _ = Some ?s => exists s, (emptied s) end; split; [exact Hs|]; split; [done|]; split; [reflexivity|];
  simpl; first [by right | split; [by intros [=]|split; [done|by eauto 12]]].

Lemma take_tcp_listener_spec id :
  take_spec (fun w => AckReceiver (TcpReceiver w.1 w.2)) id (take_tcp_listener id).
Proof.
  intros c c' o Hd Hshape H. unfold take_tcp_listener in H. tcp_fields H Hshape id t.
  destruct D as [d|]; cbn in H; [refused H|]. is_running H st. specialize (Hshape eq_refl).
  destruct L as [l|]; cbn in H; [|refused H]. destruct C; [done|]. emptied_by H Hs.
Qed.

Lemma take_tcp_sender_spec id : take_spec AckSender id (take_tcp_sender id).
Proof.
  intros c c' o Hd Hshape H. unfold take_tcp_sender in H. tcp_fields H Hshape id t.
  is_running H st. specialize (Hshape eq_refl).
  destruct C as [x|]; cbn in H; [refused H|]. destruct D as [d|]; cbn in H; [|refused H].
  destruct L; [done|]. emptied_by H Hs.
Qed.

Lemma take_tcp_bidirectional_spec id : take_spec AckBoth id (take_tcp_bidirectional id).
Proof.
  intros c c' o Hd Hshape H. unfold take_tcp_bidirectional in H. tcp_fields H Hshape id t.
  is_running H st. specialize (Hshape eq_refl).
  destruct L as [l|]; cbn in H; [|refused H]. put_fields H.
  destruct D as [d|]; cbn in H; [|by destruct C; [done|]; emptied_by H Hs].
  destruct C as [x|]; [|done]. put_fields H. emptied_by H Hs.
Qed.

(** A running UDP session with its shape, or nothing happens. *)
Ltac udp_fields H Hd Hshape id u :=
  unfold udp_session, running, take_u_socket, take_u_destination, take_u_config, taken in H; expand H;
  match type of H with context [udp_sessions ?c !! id] =>
    destruct (udp_sessions c !! id) as [u|] eqn:Hu; cbn [ok_or] in H;
      [|left; injection H as <- <-; by eauto];
    assert (Hs : session_mut c id = Some (Udp u)) by (by apply udp_table);
    specialize (Hshape _ Hs)
  end;
  destruct u as [resp au K sid mb it st rid lc D C]; cbn in H, Hshape.

Lemma take_udp_socket_spec id :
  take_spec (fun w => AckReceiver (UdpReceiver w.1 w.2)) id (take_udp_socket id).
Proof.
  intros c c' o Hd Hshape H. unfold take_udp_socket in H. udp_fields H Hd Hshape id u.
  destruct D as [d|]; cbn in H; [refused H|]. is_running H st.
  destruct (Hshape eq_refl) as [[p Hp] Hsh].
  destruct K as [k|]; cbn in H; [|refused H]. destruct C; [done|]. rewrite Hp in H. emptied_by H Hs.
Qed.

Lemma take_udp_sender_spec id : take_spec AckSender id (take_udp_sender id).
Proof.
  intros c c' o Hd Hshape H. unfold take_udp_sender in H. udp_fields H Hd Hshape id u.
  is_running H st. destruct (Hshape eq_refl) as [[p Hp] Hsh].
  destruct C as [x|]; cbn in H; [|refused H]. destruct D as [d|]; [|by destruct K].
  destruct K as [k|]; [|done].
  cbn in H. put_fields H. put_fields H. emptied_by H Hs.
Qed.

Lemma take_udp_bidirectional_spec id : take_spec AckBoth id (take_udp_bidirectional id).
Proof.
  intros c c' o Hd Hshape H. unfold take_udp_bidirectional in H. udp_fields H Hd Hshape id u.
  is_running H st. destruct (Hshape eq_refl) as [[p Hp] Hsh].
  destruct K as [k|]; cbn in H; [|refused H]. rewrite Hp in H. put_fields H.
  destruct D as [d|]; cbn in H; [|by destruct C; [done|]; emptied_by H Hs].
  destruct C as [x|]; [|done]. put_fields H. emptied_by H Hs.
Qed.

(** The end of [begin_and_take_dpdk_receiver]. *)
Definition take_dpdk (id : bytes) : op PreparedDpdkReceiver :=
  let! found := gets (fun c => dpdk_sessions c !! id) in
  match found with
  | None => m_ret (Session.invalid_state "session is not a DPDK receiver")
  | Some s => taken (d_plan s) "DPDK receiver worker was already taken" id
                (Dpdk (set_d (d_state s) (d_lifecycle s) None s))
  end.

Lemma take_dpdk_spec id c c' o s :
  session_mut c id = Some s -> disjoint c -> state s = Running -> take_dpdk id c = (c', o) ->
  (c' = c /\ exists e, o = Err e) \/ exists s', c' = put_session id s' c /\ gave AckDpdk id s s' o.
Proof.
  intros Hs Hd Hst H. unfold take_dpdk, taken in H. expand H.
  destruct (dpdk_sessions c !! id) as [d|] eqn:Ht; [|refused H].
  rewrite (dpdk_table _ _ _ Hd Ht) in Hs. injection Hs as <-.
  destruct d as [au st rid lc P]. cbn in H. destruct P as [p|]; [|refused H].
  injection H as <- <-. right.
  exists (emptied (Dpdk {| d_authorization := au; d_state := st; d_reservation_id := rid;
                           d_lifecycle := lc; d_plan := Some p |})). split; [reflexivity|]. simpl.
  split; [by intros [=]|]. by eauto.
Qed.

(** [m_map] on a result. *)
Definition res_map {A} (f : A -> Response) (o : res A) : res Response :=
  match o with Ok a => Ok (f a) | Err e => Err e | Panic => Panic end.

Lemma m_map_inv {A} (f : A -> Response) (m : op A) c c' o :
  m_map f m c = (c', o) -> exists o1, m c = (c', o1) /\ o = res_map f o1.
Proof.
  unfold m_map, m_bind, m_ret. destruct (m c) as [c1 [a|e|]]; intros [= <- <-]; eexists; by split.
Qed.

Definition hands_out {A} (f : A -> Response) : Prop :=
  forall k w, worker_for k (Ok (f w)) = Some (call_session k).

Lemma gave_handed {A} (f : A -> Response) k id s s' o :
  hands_out f -> call_session k = id -> gave f id s s' o -> handed id k (res_map f o) s s'.
Proof.
  intros Hf Hk. unfold gave, handed. destruct o as [w|e|]; cbn [res_map]; [|done|done].
  rewrite (Hf k w), Hk. intros (?&?&?). by split_and!; eauto.
Qed.

Lemma gave_some {A} (f : A -> Response) k id s o : hands_out f -> call_session k = id ->
  (exists e, o = Err e) -> handed id k (res_map f o) s s.
Proof. intros Hf Hk [e ->]. by left. Qed.

Lemma shapes c : coordinator_inv c ->
  forall id s, session_mut c id = Some s -> state s = Running -> shape_ok s.
Proof. intros Hc id s Hs Hst. apply (so_shape _ _ (ci_sessions c Hc id s Hs)). by right. Qed.

Lemma take_effect {A} (f : A -> Response) id (m : op A) k c c' o :
  take_spec f id m -> hands_out f -> call_session k = id -> coordinator_inv c ->
  m_map f m c = (c', o) -> effect c k o c'.
Proof.
  intros Hm Hf Hk Hc H. apply m_map_inv in H as (o1&H&->).
  destruct (Hm _ _ _ (ci_disjoint c Hc) (shapes c Hc id) H) as [[-> [e ->]]|(s&s'&Hs&Hst&->&Hg)];
    [by apply eff_same|].
  by eapply eff_take; [|done|done|eapply gave_handed].
Qed.

(** A session in the table of the coordinator. *)
Lemma session_put_here c id s s' : session_mut c id = Some s -> same_kind s s' ->
  session_mut (put_session id s' c) id = Some s'.
Proof. intros Hs Hk. rewrite session_put by (by eapply placeable_kind). by rewrite decide_True. Qed.

Lemma begun_kind s : same_kind s (begun s).
Proof. by destruct s. Qed.

Lemma begun_shape s : shape_ok s -> shape_ok (begun s).
Proof. by destruct s. Qed.

Lemma gets_bind {A B} (f : B -> Response) (g : SessionCoordinator -> A) (n : A -> op B) c :
  m_map f (m_bind (gets g) n) c = m_map f (n (g c)) c.
Proof. reflexivity. Qed.

(** Begin, then take with [m]. *)
Lemma begin_take_effect {A} (f : A -> Response) id now (m : op A) k c c' o :
  begins k = Some (id, now) -> call_session k = id -> hands_out f -> coordinator_inv c ->
  (forall s c1 c2 o2, session_mut c1 id = Some s -> disjoint c1 -> state s = Running -> shape_ok s ->
     m c1 = (c2, o2) -> (c2 = c1 /\ exists e, o2 = Err e) \/
       exists s', c2 = put_session id s' c1 /\ gave f id s s' o2) ->
  m_map f (let! _ := begin_scheduled id now in m) c = (c', o) -> effect c k o c'.
Proof.
  intros Hb Hk Hf Hc Hm H. apply m_map_inv in H as (o2&H&->). unfold m_bind in H.
  destruct (begin_scheduled id now c) as [c1 o1] eqn:H1.
  apply begin_spec in H1 as [[-> [e ->]]|(->&s&a&Hs&Hst&Ha&Hle&Hx&->)];
    [injection H as <- <-; by apply eff_same|].
  destruct (ci_sessions c Hc id s Hs) as [_ _ _ Hshape _ _ _].
  apply (Hm (begun s)) in H as [[-> [e ->]]|(s'&->&Hg)].
  - eapply eff_begin; try done. by left.
  - rewrite put_put.
    + eapply eff_begin; try done. by eapply gave_handed.
    + destruct o2; simpl in Hg; [destruct Hg as (_&->&_)|destruct Hg as [->| ->]|done]; by destruct s.
  - by eapply session_put_here, begun_kind.
  - apply disjoint_put; [by eapply placeable_kind, begun_kind|by apply Hc].
  - by destruct s.
  - apply begun_shape, Hshape. by left.
Qed.

(** A [take_spec] at a session that is known. *)
Lemma take_known {A} (f : A -> Response) id (m : op A) s c1 c2 o2 :
  take_spec f id m -> session_mut c1 id = Some s -> disjoint c1 -> shape_ok s -> m c1 = (c2, o2) ->
  (c2 = c1 /\ exists e, o2 = Err e) \/ exists s', c2 = put_session id s' c1 /\ gave f id s s' o2.
Proof.
  intros Hm Hs Hd Hsh H. edestruct Hm as [?|(s0&s'&Hs0&_&->&Hg)]; [exact Hd| |exact H|by left|].
  - intros s0 Hs0 _. by simplify_eq.
  - right. simplify_eq. by exists s'.
Qed.

Lemma begin_sender_effect id now c c' o : coordinator_inv c ->
  exec (CBeginSender id now) c = (c', o) -> effect c (CBeginSender id now) o c'.
Proof.
  intros Hc H. cbn [exec] in H. unfold begin_and_take_sender in H. rewrite gets_bind in H.
  destruct (has_destination c id) as [tcp udp]. destruct (negb tcp && negb udp); [expand H; unchanged|].
  eapply (begin_take_effect AckSender); [done|done|done|done| |exact H].
  intros s c1 c2 o2 Hs Hd _ Hsh Hm.
  destruct tcp; (eapply take_known; [|done..|exact Hm]); [apply take_tcp_sender_spec|
    apply take_udp_sender_spec].
Qed.

Lemma begin_bidirectional_effect id now c c' o : coordinator_inv c ->
  exec (CBeginBidirectional id now) c = (c', o) -> effect c (CBeginBidirectional id now) o c'.
Proof.
  intros Hc H. cbn [exec] in H. unfold begin_and_take_bidirectional in H. rewrite gets_bind in H.
  match type of H with context [if negb ?tcp && negb ?udp then _ else _] =>
    generalize dependent tcp; generalize dependent udp end.
  intros udp tcp H. destruct (negb tcp && negb udp); [expand H; unchanged|].
  eapply (begin_take_effect AckBoth); [done|done|done|done| |exact H].
  intros s c1 c2 o2 Hs Hd _ Hsh Hm.
  destruct tcp; (eapply take_known; [|done..|exact Hm]); [apply take_tcp_bidirectional_spec|
    apply take_udp_bidirectional_spec].
Qed.

Lemma begin_dpdk_effect id now c c' o : coordinator_inv c ->
  exec (CBeginDpdk id now) c = (c', o) -> effect c (CBeginDpdk id now) o c'.
Proof.
  intros Hc H. cbn [exec] in H. unfold begin_and_take_dpdk_receiver in H. rewrite gets_bind in H.
  destruct (negb _); [expand H; unchanged|].
  eapply (begin_take_effect AckDpdk _ _ (take_dpdk id)); [done|done|done|done| |exact H].
  intros s c1 c2 o2 Hs Hd Hst Hsh Hm. by eapply take_dpdk_spec.
Qed.

Lemma begin_receiver_effect id now c c' o : coordinator_inv c ->
  exec (CBeginReceiver id now) c = (c', o) -> effect c (CBeginReceiver id now) o c'.
Proof.
  intros Hc H. cbn [exec] in H. unfold begin_and_take_receiver in H. rewrite gets_bind in H.
  destruct (has_destination c id) as [tcp udp]. destruct (tcp || udp); [expand H; unchanged|].
  eapply (begin_take_effect AckReceiver); [done|done|done|done| |exact H].
  intros s c1 c2 o2 Hs Hd _ Hsh Hm. unfold gets, m_bind, m_ret in Hm.
  destruct (bool_decide _).
  - destruct (take_tcp_listener id c1) as [c3 o3] eqn:H3.
    destruct (take_known _ _ _ _ _ _ _ (take_tcp_listener_spec id) Hs Hd Hsh H3)
      as [[-> [e ->]]|(s'&->&Hg)]; [injection Hm as <- <-; eauto|].
    destruct o3 as [[l x]|e|]; injection Hm as <- <-; eauto.
  - destruct (take_udp_socket id c1) as [c3 o3] eqn:H3.
    destruct (take_known _ _ _ _ _ _ _ (take_udp_socket_spec id) Hs Hd Hsh H3)
      as [[-> [e ->]]|(s'&->&Hg)]; [injection Hm as <- <-; eauto|].
    destruct o3 as [[l x]|e|]; injection Hm as <- <-; eauto.
Qed.

Lemma begin_effect id now c c' o : coordinator_inv c ->
  exec (CBegin id now) c = (c', o) -> effect c (CBegin id now) o c'.
Proof.
  intros Hc H. cbn [exec] in H. apply m_map_inv in H as (o1&H&->).
  apply begin_spec in H as [[-> [e ->]]|(->&s&a&Hs&Hst&Ha&Hle&Hx&->)]; [by apply eff_same|].
  eapply eff_begin; try done. by left.
Qed.

(** ** Ending. *)

Lemma update_session_eq id f c s : session_mut c id = Some s ->
  update_session id f c = (put_session id (f s) c, Ok tt).
Proof. intros Hs. unfold update_session, session, m_bind, modify. by rewrite Hs. Qed.

(** The reservation of a session. *)
Lemma backing c id s : coordinator_inv c -> session_mut c id = Some s -> live (state s) ->
  exists r, reservations (resources c) !! reservation_id s = Some r /\
    Resource.reservation_id (request r) = reservation_id s /\ Resource.state r = Active.
Proof.
  intros Hc Hs Hl. destruct (ci_backed c Hc id s Hs) as (r&k&Hr&Hq&_&Ha&_).
  exists r. split_and!; [done|by rewrite Hq|by apply Ha].
Qed.

(** Releasing the reservation of [c] in a coordinator [c1] with the same resources. *)
Lemma released c c1 rid r : resources c1 = resources c ->
  reservations (resources c) !! rid = Some r -> Resource.reservation_id (request r) = rid ->
  Resource.state r = Active -> exists m, now_in (request r) Released (resources c) m /\
    release rid c1 = (set_resources m c1, Ok tt).
Proof.
  intros Hres Hr Hid Ha. rewrite <- Hres in *.
  destruct (release_spec _ _ _ Hr Hid Ha) as (m&Hm&Hin). by exists m.
Qed.

Lemma stop_effect id operation c c' o : coordinator_inv c ->
  exec (CStop id operation) c = (c', o) -> effect c (CStop id operation) o c'.
Proof.
  intros Hc H. cbn [exec] in H. unfold stop, session in H. expand H.
  destruct (operations c !! operation) as [r|]; [destruct (matching_stop r id); unchanged|].
  rewrite session_state_mut in H. destruct (session_mut c id) as [s|] eqn:Hs; cbn [ok_or fmap option_fmap option_map] in H;
    [|rewrite bool_decide_eq_false_2 in H by done; rewrite Hs in H; unchanged]. destruct (so_state _ _ (ci_sessions c Hc id s Hs)) as [Hl|He].
  2: { case_bool_decide as Hn; [injection H as <- <-; by apply eff_none|].
       rewrite Hs in H; cbn [ok_or] in H.
       by destruct He as [He|[He|He]]; rewrite He in H, Hn; cbn in H; [unchanged|unchanged|]. }
  rewrite bool_decide_eq_false_2 in H by (destruct Hl as [-> | ->]; done).
  rewrite Hs in H. cbn [ok_or] in H. replace (negb _) with false in H by (destruct Hl as [-> | ->]; done).
  rewrite (update_session_eq _ _ _ _ Hs), (update_session_eq _ _ _ (set_state Canceled s)) in H
    by by eapply session_put_here, kind_state.
  rewrite put_put in H by (by destruct s).
  destruct (backing c id s Hc Hs Hl) as (r&Hr&Hid&Ha).
  destruct (released c (put_session id (close_endpoint (set_state Canceled s)) c) _ r
    ltac:(by destruct s) Hr Hid Ha) as (m&Hm&Hrel). rewrite Hrel in H. injection H as <- <-.
  replace (set_operations _ _) with (set_operations (<[operation:=Stop id Canceled]> (operations c))
    (set_results (results c) ∅ (put_session id (set_state Canceled (close_endpoint s)) (set_resources m c)))).
  - eapply eff_end; [exact Hs|done|by right; right|done|exact Hr|exact Hm|done|by left].
  - pose proof (ci_pending c Hc) as Hp. destruct c; simpl in *. subst.
    destruct s; reflexivity.
Qed.

Lemma conclude_eq id t st c s x r : coordinator_inv c -> session_mut c id = Some s -> live (state s) ->
  reservations (resources c) !! reservation_id s = Some r ->
  Resource.reservation_id (request r) = reservation_id s -> Resource.state r = Active ->
  exists m, now_in (request r) Released (resources c) m /\
    conclude id t (reservation_id s) st (put_session id (set_state x s) c) =
      (set_results (<[id := t]> (results c)) ∅
         (put_session id (set_state st (close_endpoint s)) (set_resources m c)), Ok t).
Proof.
  intros Hc Hs Hl Hr Hid Ha. pose proof (ci_pending c Hc) as Hp.
  set (c0 := put_session id (set_state x s) c). set (c1 := set_results (results c0) (<[id := t]> ∅) c0).
  destruct (released c c1 _ r ltac:(by destruct s) Hr Hid Ha) as (m&Hm&Hrel). exists m. split; [done|].
  assert (Hs1 : session_mut (set_resources m c1) id = Some (set_state x s)).
  { change (session_mut c0 id = Some (set_state x s)). by eapply session_put_here, kind_state. }
  unfold conclude, gets, modify, m_bind, m_ret.
  assert (Hp0 : pending_results c0 = ∅) by by destruct s. rewrite Hp0, lookup_empty, Hp0. fold c1. rewrite Hrel, (update_session_eq _ _ _ _ Hs1).
  rewrite (update_session_eq _ _ _ (close_endpoint (set_state x s))) by
    (eapply session_put_here; [exact Hs1|apply kind_close]).
  rewrite put_put by (by destruct s). f_equal. unfold c1, c0. clear -Hp. destruct c; simpl in *. subst.
  destruct s; unfold put_session, set_tcp, set_udp, set_dpdk; simpl; unfold set_results; simpl;
    by rewrite insert_insert_eq, delete_insert_eq, delete_empty.
Qed.

Lemma result_of_ok id json : validate_result_json json = Ok tt -> result_ok id (result_of id json).
Proof. intros Hv. by repeat split. Qed.

Lemma complete_effect id json c c' o : coordinator_inv c ->
  exec (CComplete id json) c = (c', o) -> effect c (CComplete id json) o c'.
Proof.
  intros Hc H. cbn [exec] in H. unfold complete, session in H. expand H.
  destruct (validate_result_json json) as [[]|e|] eqn:Hv; try unchanged.
  destruct (results c !! id) as [t|]; [destruct (matching_result t json); unchanged|].
  destruct (session_mut c id) as [s|] eqn:Hs; cbn [ok_or] in H; [|unchanged].
  destruct (so_state _ _ (ci_sessions c Hc id s Hs)) as [[Hst|Hst]|He].
  - rewrite Hst in H. cbn in H. unchanged.
  - assert (Hl : live (state s)) by by right.
    rewrite Hst in H. cbn [bool_decide orb negb] in H.
    change (bool_decide (Running = Running)) with true in H. cbn [orb negb] in H.
    rewrite (update_session_eq _ _ _ _ Hs) in H.
    destruct (backing c id s Hc Hs Hl) as (r&Hr&Hid&Ha).
    destruct (conclude_eq id (result_of id json) Completed c s Finalizing r Hc Hs Hl Hr Hid Ha) as (m&Hm&He).
    rewrite He in H. injection H as <- <-. rewrite <- (set_operations_same (set_results _ _ _)).
    eapply eff_end; [exact Hs|done|by left|done|exact Hr|exact Hm|done|right].
    split; [done|]. eexists. split_and!; [done|by apply result_of_ok|done].
  - destruct He as [He|[He|He]]; rewrite He in H; cbn in H; unchanged.
Qed.

Lemma fail_effect id json c c' o : coordinator_inv c ->
  exec (CFail id json) c = (c', o) -> effect c (CFail id json) o c'.
Proof.
  intros Hc H. cbn [exec] in H. unfold fail, session in H. expand H.
  destruct (validate_result_json json) as [[]|e|] eqn:Hv; try unchanged.
  destruct (results c !! id) as [t|]; [destruct (matching_result t json); unchanged|].
  destruct (session_mut c id) as [s|] eqn:Hs; cbn [ok_or] in H; [|unchanged].
  destruct (so_state _ _ (ci_sessions c Hc id s Hs)) as [Hl|He].
  - replace (negb _) with false in H by (destruct Hl as [-> | ->]; done).
    rewrite (update_session_eq _ _ _ _ Hs) in H.
    destruct (backing c id s Hc Hs Hl) as (r&Hr&Hid&Ha).
    destruct (conclude_eq id (result_of id json) Failed c s Finalizing r Hc Hs Hl Hr Hid Ha) as (m&Hm&He).
    rewrite He in H. injection H as <- <-. rewrite <- (set_operations_same (set_results _ _ _)).
    eapply eff_end; [exact Hs|done|by right; left|done|exact Hr|exact Hm|done|right].
    split; [done|]. eexists. split_and!; [done|by apply result_of_ok|done].
  - destruct He as [He|[He|He]]; rewrite He in H; cbn in H; unchanged.
Qed.

(** Every call has one of the effects. *)
Theorem exec_effect k c c' o :
  coordinator_inv c -> call_ok k -> exec k c = (c', o) -> effect c k o c'.
Proof.
  intros Hc Hk H. destruct k.
  - by apply prepare_tcp_effect.
  - by apply prepare_tcp_sender_effect.
  - by apply prepare_tcp_bidirectional_effect.
  - by apply prepare_udp_effect.
  - by apply prepare_udp_sender_effect.
  - by apply prepare_udp_bidirectional_effect.
  - by apply prepare_dpdk_effect.
  - by apply start_effect.
  - by apply begin_effect.
  - by apply begin_receiver_effect.
  - by apply begin_sender_effect.
  - by apply begin_bidirectional_effect.
  - by apply begin_dpdk_effect.
  - by eapply take_effect; [apply take_tcp_listener_spec|..].
  - by eapply take_effect; [apply take_tcp_sender_spec|..].
  - by eapply take_effect; [apply take_tcp_bidirectional_spec|..].
  - by eapply take_effect; [apply take_udp_socket_spec|..].
  - by eapply take_effect; [apply take_udp_sender_spec|..].
  - by eapply take_effect; [apply take_udp_bidirectional_spec|..].
  - by apply stop_effect.
  - by apply complete_effect.
  - by apply fail_effect.
Qed.
End Effects.
