(* ===== verification/SessionProps.v ===== *)
(** * Node sessions: what holds in every history

    The invariant is kept by every effect, hence in every history of calls. The
    properties of the coordinator follow: sessions and reservations agree, announced
    endpoints are exclusive, workers start once and on time with valid
    configurations, and repeated operations answer alike. *)

From stdpp Require Import base list strings gmap.
From Stdlib Require Import ZArith Lia.
From S2P Require Import Prelude ErrorModel Resource Lifecycle UdpProtocol UdpSocket TcpEngine NodeProtocol Session SessionOps SessionRuns SessionInv SessionSample SessionEffects.
Open Scope Z_scope.

(** ** Reservation IDs. *)

Lemma string_app_length (s t : string) : String.length (s +:+ t) = (String.length s + String.length t)%nat.
Proof.
  induction s as [|a s IH]; [done|]. change (String a s +:+ t)%string with (String a (s +:+ t)).
  simpl. by rewrite IH.
Qed.

Lemma hex_length bs : String.length (hex bs) = (2 * length bs)%nat.
Proof. induction bs as [|b bs IH]; [done|]. simpl in *. lia. Qed.

(** Strings with one suffix length share their suffixes. *)
Lemma app_suffix (p q s t : string) : String.length s = String.length t ->
  (p +:+ s)%string = (q +:+ t)%string -> s = t.
Proof.
  intros Hl. revert q. induction p as [|a p IH]; intros [|b q] H; simpl in *; try done.
  - change (s = String b (q +:+ t)) in H. rewrite H in Hl. simpl in Hl.
    rewrite string_app_length in Hl. lia.
  - change (String a (p +:+ s) = t) in H. rewrite <- H in Hl. simpl in Hl.
    rewrite string_app_length in Hl. lia.
  - change (String a (p +:+ s) = String b (q +:+ t)) in H. injection H as _ H. by apply (IH q).
Qed.

Lemma rid_inj (p q : string) id j : id_ok id -> id_ok j ->
  (p +:+ hex_session_id id)%string = (q +:+ hex_session_id j)%string -> id = j.
Proof.
  intros [Hi Hil] [Hj Hjl] H. apply app_suffix in H; [by apply hex_inj|].
  unfold hex_session_id. by rewrite !hex_length, Hil, Hjl.
Qed.

Lemma session_rid_inj id j s t : session_ok id s -> session_ok j t ->
  reservation_id s = reservation_id t -> id = j.
Proof.
  intros Hs Ht H. destruct (so_rid _ _ Hs) as (p&_&Hp), (so_rid _ _ Ht) as (q&_&Hq).
  rewrite Hp, Hq in H. eapply rid_inj; [by apply (so_id _ _ Hs)|by apply (so_id _ _ Ht)|exact H].
Qed.

(** ** The invariant is kept. *)

Section Preservation.
Context {HO : HashOrder string Reservation} {RJ : ResultJson}.

Lemma session_mut_eq c c' id : tcp_sessions c' = tcp_sessions c -> udp_sessions c' = udp_sessions c ->
  dpdk_sessions c' = dpdk_sessions c -> session_mut c' id = session_mut c id.
Proof. unfold session_mut. by intros -> -> ->. Qed.

Lemma inv_operations c ops : coordinator_inv c -> coordinator_inv (set_operations ops c).
Proof. intros [H1 H2 H3 H4 H5 H6 H7]. by split. Qed.

(** Reservations other than the session's are not its business. *)
Lemma backed_other m m' id s : backed m id s ->
  reservations m' !! reservation_id s = reservations m !! reservation_id s -> backed m' id s.
Proof. intros (r&k&Hr&H) He. exists r, k. by rewrite He. Qed.

(** A session takes the place of another of its kind. *)
Lemma inv_put c id s s' : coordinator_inv c -> session_mut c id = Some s -> same_kind s s' ->
  session_ok id s' -> reservation_id s' = reservation_id s -> announced s' = announced s ->
  live (state s) -> live (state s') -> coordinator_inv (put_session id s' c).
Proof.
  intros [H1 H2 H3 H4 H5 H6 H7] Hs Hk Hok Hrid Han Hl Hl'.
  assert (Hm : forall j, session_mut (put_session id s' c) j =
    if decide (j = id) then Some s' else session_mut c j).
  { intros j. apply session_put. by eapply placeable_kind. }
  assert (Hres : resources (put_session id s' c) = resources c) by by destruct s'.
  assert (Hresults : results (put_session id s' c) = results c) by by destruct s'.
  split.
  - apply disjoint_put; [by eapply placeable_kind|done].
  - intros j t. rewrite Hm. case_decide as Hj; [intros [= <-]; by subst j|apply H2].
  - intros j t. rewrite Hm, Hres. case_decide as Hj; [intros [= <-]; subst j|apply H3].
    destruct (H3 id s Hs) as (r&k&Hr&Hq&[Hu Ha]&Hx&_). exists r, k. rewrite Hrid.
    split_and!; [done|done|split; [done|by rewrite Han]|by intros _; apply Hx|].
    intros He. by destruct Hl' as [E|E]; rewrite E in He; destruct He as [?|[?|?]].
  - by destruct s'.
  - intros j. rewrite Hresults. specialize (H5 j). destruct (results c !! j) as [t|].
    + destruct H5 as [Ht (t0&Ht0&He)]. split; [done|]. rewrite Hm. case_decide as Hj; [|by exists t0].
      subst j. rewrite Hs in Ht0. injection Ht0 as <-. by destruct Hl as [E|E]; rewrite E in He; destruct He.
    + intros t. rewrite Hm. case_decide as Hj; [intros [= <-]|apply H5].
      by destruct Hl' as [E|E]; rewrite E.
  - intros rid r. rewrite Hres. intros Hr. destruct (H6 rid r Hr) as [(j&t&Ht&Hrt)|[Ho Hn]].
    + left. destruct (decide (j = id)) as [->|Hj].
      * exists id, s'. rewrite Hm, decide_True by done. split; [done|]. rewrite Hrid. congruence.
      * exists j, t. by rewrite Hm, decide_False.
    + right. split; [done|]. intros j t. rewrite Hm. case_decide; [intros [= <-]|apply Hn].
      rewrite Hrid. by eapply Hn.
  - by rewrite Hres.
Qed.

Lemma placeable_none c id s : session_mut c id = None -> placeable c id s.
Proof. unfold placeable. by intros ->. Qed.

Lemma inv_new c id s kc m :
  coordinator_inv c -> session_mut c id = None -> created id s -> announces s kc ->
  now_in (wanted (reservation_id s) id kc) Active (resources c) m ->
  coordinator_inv (put_session id s (set_resources m c)).
Proof.
  intros [H1 H2 H3 H4 H5 H6 H7] Hn [Hok Hst _ _] Han Hm.
  pose proof Hm as [_ (r&Hr&Hq&Hra) Hother]. simpl in Hr, Hother.
  set (c1 := set_resources m c) in *.
  assert (Hp : placeable c1 id s) by by apply placeable_none.
  assert (Hmut : forall j, session_mut (put_session id s c1) j =
    if decide (j = id) then Some s else session_mut c j).
  { intros j. by rewrite session_put. }
  assert (Hres : resources (put_session id s c1) = m) by by destruct s.
  assert (Hresults : results (put_session id s c1) = results c) by by destruct s.
  assert (Hne : forall j t, session_mut c j = Some t -> reservation_id t <> reservation_id s).
  { intros j t Ht He. assert (j = id) as -> by (by eapply session_rid_inj; eauto). congruence. }
  split.
  - by apply disjoint_put.
  - intros j t. rewrite Hmut. case_decide as Hj; [intros [= <-]; by subst j|apply H2].
  - intros j t. rewrite Hmut, Hres. case_decide as Hj.
    + intros [= <-]. subst j. exists r, kc. rewrite Hst. split_and!; try done. by intros [?|[?|?]].
    + intros Ht. eapply backed_other; [by apply H3|]. apply Hother. by eapply Hne.
  - by destruct s.
  - intros j. rewrite Hresults. specialize (H5 j). destruct (results c !! j) as [t|].
    + destruct H5 as [Ht (t0&Ht0&He)]. split; [done|]. exists t0. rewrite Hmut, decide_False; [done|].
      intros ->. congruence.
    + intros t. rewrite Hmut. case_decide; [intros [= <-]; by rewrite Hst|apply H5].
  - intros rid r0. rewrite Hres. intros Hr0. destruct (decide (rid = reservation_id s)) as [->|Hne'].
    { left. exists id, s. by rewrite Hmut, decide_True. }
    rewrite Hother in Hr0 by done. destruct (H6 rid r0 Hr0) as [(j&t&Ht&Hrt)|[Ho Hnone]].
    + left. exists j, t. rewrite Hmut, decide_False; [done|]. intros ->. congruence.
    + right. split; [done|]. intros j t. rewrite Hmut.
      case_decide; [intros [= <-]; congruence|apply Hnone].
  - intros limit. rewrite Hres. eapply now_in_inv; [exact Hm| |apply H7].
    constructor; [|done]. destruct Han as [-> _]. lia.
Qed.

Lemma inv_orphan c id kc m :
  coordinator_inv c -> session_mut c id = None -> id_ok id -> units kc = 1 ->
  now_in (wanted ("dpdk-rx-" +:+ hex_session_id id) id kc) Active (resources c) m ->
  coordinator_inv (set_resources m c).
Proof.
  intros [H1 H2 H3 H4 H5 H6 H7] Hn Hid Hu Hm. pose proof Hm as [_ (r&Hr&Hq&Hra) Hother].
  simpl in Hr, Hother.
  assert (Hne : forall j t, session_mut c j = Some t ->
    reservation_id t <> ("dpdk-rx-" +:+ hex_session_id id)%string).
  { intros j t Ht He. destruct (H2 j t Ht) as [_ _ (p&_&Hp) _ _ _ Hj]. rewrite He in Hp.
    apply rid_inj in Hp as ->; [congruence|done..]. }
  split; try done.
  - intros j t Ht. eapply backed_other; [by apply H3|]. apply Hother. by eapply Hne.
  - intros rid r0 Hr0. simpl in Hr0.
    destruct (decide (rid = ("dpdk-rx-" +:+ hex_session_id id)%string)) as [->|Hne'].
    { right. split; [eauto|]. intros j t Ht. by eapply Hne. }
    rewrite Hother in Hr0 by done. destruct (H6 rid r0 Hr0) as [?|?]; [by left|by right].
  - intros limit. eapply now_in_inv; [exact Hm| |apply H7]. constructor; [|done]. lia.
Qed.

Lemma inv_end c id s st r m rs :
  coordinator_inv c -> session_mut c id = Some s -> live (state s) -> ended st ->
  reservations (resources c) !! reservation_id s = Some r ->
  now_in (request r) Released (resources c) m ->
  (st = Canceled /\ rs = results c) \/
    (st <> Canceled /\ exists t, result_ok id t /\ rs = <[id := t]> (results c)) ->
  coordinator_inv (set_results rs ∅ (put_session id (set_state st (close_endpoint s)) (set_resources m c))).
Proof.
  intros [H1 H2 H3 H4 H5 H6 H7] Hs Hl He Hr Hm Hrs.
  destruct (H3 id s Hs) as (r0&k&Hr0&Hq&[Hu Han]&_). rewrite Hr in Hr0. injection Hr0 as <-.
  pose proof Hm as [_ (r'&Hr'&Hq'&Hra) Hother]. rewrite Hq in Hr', Hother. simpl in Hr', Hother.
  set (s' := set_state st (close_endpoint s)). set (c1 := set_resources m c) in *.
  assert (Hk : same_kind s s') by by destruct s.
  assert (Hp : placeable c1 id s') by (by eapply (placeable_kind c1 id s)).
  assert (Hst' : state s' = st) by by destruct s.
  assert (Hrid' : reservation_id s' = reservation_id s) by by destruct s.
  set (c2 := set_results rs ∅ (put_session id s' c1)).
  assert (Hmut : forall j, session_mut c2 j = if decide (j = id) then Some s' else session_mut c j).
  { intros j. change (session_mut c2 j) with (session_mut (put_session id s' c1) j). by rewrite session_put. }
  assert (Hres : resources c2 = m) by by destruct s.
  split.
  - by apply (disjoint_put c1 id s').
  - intros j t. rewrite Hmut. case_decide as Hj; [intros [= <-]; subst j|apply H2].
    destruct (H2 id s Hs) as [Ha _ Hr1 _ _ Hc Hi]. split.
    + by destruct s.
    + right. by rewrite Hst'.
    + by rewrite Hrid'.
    + rewrite Hst'. intros [E|E]; rewrite E in He; by destruct He as [?|[?|?]].
    + unfold lifecycle_ok. rewrite Hst'. split; intros E; rewrite E in He; by destruct He as [?|[?|?]].
    + by destruct s.
    + done.
  - intros j t. rewrite Hmut, Hres. case_decide as Hj.
    + intros [= <-]. subst j. exists r', k. rewrite Hrid', Hst'. split_and!; [done|congruence| | |done].
      * split; [done|]. intros key. replace (announced s') with (announced s) by by destruct s. apply Han.
      * intros [E|E]; rewrite E in He; by destruct He as [?|[?|?]].
    + intros Ht. eapply backed_other; [by apply H3|]. apply Hother. intros Hsame. apply Hj.
      by eapply session_rid_inj; eauto.
  - done.
  - intros j. change (results c2) with rs.
    assert (Hown : forall t, session_mut c2 id = Some t -> t = s').
    { intros t. rewrite Hmut, decide_True by done. by intros [= <-]. }
    destruct Hrs as [[-> ->]|(Hnc&t&Ht&->)].
    + specialize (H5 j). destruct (results c !! j) as [t|].
      * destruct H5 as [Ht (t0&Ht0&He0)]. split; [done|]. rewrite Hmut. case_decide; [|by eauto].
        subst j. rewrite Hs in Ht0. injection Ht0 as <-. by destruct Hl as [E|E]; rewrite E in He0; destruct He0.
      * intros t. rewrite Hmut. case_decide; [intros [= <-]; by rewrite Hst'|apply H5].
    + destruct (decide (j = id)) as [->|Hj].
      * rewrite lookup_insert_eq. split; [done|]. exists s'. rewrite Hmut, decide_True by done.
        split; [done|]. rewrite Hst'. destruct He as [?|[?|?]]; [by left|by right|done].
      * rewrite lookup_insert_ne by done. specialize (H5 j). rewrite Hmut, decide_False by done. exact H5.
  - intros rid r0. rewrite Hres. intros Hr0. destruct (decide (rid = reservation_id s)) as [->|Hne'].
    { left. exists id, s'. by rewrite Hmut, decide_True. }
    rewrite Hother in Hr0 by done. destruct (H6 rid r0 Hr0) as [(j&t&Ht&Hrt)|[Ho Hnone]].
    + left. exists j, t. rewrite Hmut, decide_False; [done|]. intros ->. congruence.
    + right. split; [done|]. intros j t. rewrite Hmut.
      case_decide; [intros [= <-]; rewrite Hrid'; congruence|apply Hnone].
  - intros limit. rewrite Hres. eapply now_in_inv; [exact Hm| |apply H7].
    rewrite Hq. constructor; [lia|done].
Qed.

(** ** Sessions stay well-formed. *)

Lemma emptied_ok id s : session_ok id s -> session_ok id (emptied s).
Proof.
  intros [H1 H2 H3 H4 H5 H6 H7]. split; try (by destruct s).
  - intros Hl. destruct s as [t|u|d]; simpl; try done. split; [|done].
    destruct (H4 Hl) as [H _]. exact H.
  - destruct s as [t|u|d]; simpl in *; [by destruct H6 as (?&?&_)| |done]. split; [apply H6|done].
Qed.

Lemma begun_ok id s : session_ok id s -> state s = TestReady -> session_ok id (begun s).
Proof.
  intros [H1 H2 H3 H4 H5 H6 H7] Hst. split; try (by destruct s).
  - left. right. by destruct s.
  - intros _. apply begun_shape, H4. by left.
Qed.

Lemma scheduled_ok id s l : session_ok id s -> state s = TestReady ->
  phase l = Prepare \/ phase l = Lifecycle.Ready -> session_ok id (set_lifecycle l s).
Proof.
  intros [H1 H2 H3 H4 H5 H6 H7] Hst Hl. split; try (by destruct s).
  split; intros E; [by destruct s|]. exfalso. destruct s; simpl in *; congruence.
Qed.

(** What a hand-off keeps. *)
Lemma handed_cases id k o s s' : handed id k o s s' -> s' = s \/ s' = emptied s.
Proof. unfold handed. destruct (worker_for k o); [|done]. intros (_&_&->&_). by right. Qed.

Lemma handed_ok id k o s s' : handed id k o s s' -> session_ok id s ->
  session_ok id s' /\ same_kind s s' /\ reservation_id s' = reservation_id s /\
  announced s' = announced s /\ state s' = state s.
Proof.
  intros Hh Hs. destruct (handed_cases _ _ _ _ _ Hh) as [->| ->].
  - split_and!; try done. by destruct s.
  - split; [by apply emptied_ok|]. by destruct s.
Qed.

Lemma effect_inv c k o c' : coordinator_inv c -> effect c k o c' -> coordinator_inv c'.
Proof.
  intros Hc [ops Hw|id s kc m ops Hn Hcr Han Hm Hw|id kc m Hn Hid Hu Hm Hw|
    id operation a now s l ops -> Hs Hst Hp Ha Hw|id now a s s' Hb Hs Hst Ha Hle Hx Hh|
    id s s' Hk Hs Hst Hh|id s st r m rs ops Hs Hl He Hcr Hr Hm Hw Hrs].
  - by apply inv_operations.
  - by eapply inv_operations, inv_new.
  - by eapply inv_orphan.
  - pose proof (ci_sessions c Hc id s Hs) as Hok.
    eapply inv_operations, inv_put; [done|exact Hs|apply kind_lifecycle|by apply scheduled_ok|
      by destruct s|by destruct s|by left|left; by destruct s].
  - pose proof (ci_sessions c Hc id s Hs) as Hok.
    destruct (handed_ok _ _ _ _ _ Hh (begun_ok id s Hok Hst)) as (Hok'&Hk&Hrid&Han&Hst').
    eapply inv_put; [done|exact Hs| |done|by rewrite Hrid; destruct s|by rewrite Han; destruct s|by left|].
    + eapply kind_trans; [apply begun_kind|exact Hk].
    + right. rewrite Hst'. by destruct s.
  - pose proof (ci_sessions c Hc id s Hs) as Hok.
    destruct (handed_ok _ _ _ _ _ Hh Hok) as (Hok'&Hk'&Hrid&Han&Hst').
    eapply inv_put; [done|exact Hs|done|done|done|done|by right|by right; rewrite Hst'].
  - apply inv_operations. eapply inv_end; try done. destruct Hrs as [?|(?&t&_&?&?)]; [by left|].
    right. split; [done|]. by exists t.
Qed.

Lemma exec_inv k c : coordinator_inv c -> call_ok k -> coordinator_inv (exec k c).1.
Proof.
  intros Hc Hk. destruct (exec k c) as [c' o] eqn:He. eapply effect_inv; [exact Hc|].
  by apply exec_effect.
Qed.

Lemma history_inv calls : Forall call_ok calls -> coordinator_inv (history calls).1.
Proof.
  induction calls as [|k calls IH] using rev_ind; intros Hok; [apply new_coordinator_inv|].
  apply Forall_app in Hok as [Hok Hk]. rewrite calls_snoc. cbn [fst].
  apply exec_inv; [by apply IH|by inversion Hk].
Qed.
End Preservation.

(** ** Sessions, reservations and results agree. *)

(** C3: in every history of calls, with any answers of the operating system, each
    session has the reservation made for it: active as long as the session can
    run, released once it ended; exactly the completed and the failed sessions
    have a result, with its checksum; no result is left pending, so [complete] and
    [fail] never stop half-way; and every resource still held belongs to a live
    session, or to a DPDK preparation that failed after its reservation. *)
Theorem sessions_consistent {HO : HashOrder string Reservation} {RJ : ResultJson} (calls : list Call) :
  Forall call_ok calls ->
  let c := (history calls).1 in
  pending_results c = ∅ /\
  (forall id s, session_mut c id = Some s ->
     auth_session (authorization s) = id /\ lifecycle_ok s /\
     exists r, reservations (resources c) !! reservation_id s = Some r /\
       (live (state s) /\ Resource.state r = Active /\ results c !! id = None \/
        state s = Canceled /\ Resource.state r = Released /\ results c !! id = None \/
        (state s = Completed \/ state s = Failed) /\ Resource.state r = Released /\
          exists t, results c !! id = Some t /\ result_ok id t)) /\
  (forall rid r, reservations (resources c) !! rid = Some r ->
     holds_resources (Resource.state r) = true ->
     (exists id s, session_mut c id = Some s /\ live (state s) /\ reservation_id s = rid) \/ orphan c rid).
Proof.
  intros Hok. pose proof (history_inv calls Hok) as [H1 H2 H3 H4 H5 H6 H7]. split; [done|]. split.
  - intros id s Hs. destruct (H2 id s Hs) as [Ha Hst _ _ Hl _ _]. split; [done|]. split; [done|].
    destruct (H3 id s Hs) as (r&k&Hr&_&_&Hact&Hrel). exists r. split; [done|].
    specialize (H5 id). destruct (results (history calls).1 !! id) as [t|].
    + destruct H5 as [Ht (s0&Hs0&He)]. rewrite Hs in Hs0. injection Hs0 as <-. right. right.
      split; [done|]. split; [apply Hrel; destruct He; [by left|by right; left]|by eauto].
    + destruct (H5 s Hs) as [Hc Hf]. destruct Hst as [Hst|Hst]; [by left; auto|right; left].
      destruct Hst as [?|[?|Hst]]; [done|done|]. split; [done|]. split; [apply Hrel; by right; right|done].
  - intros rid r Hr Hh. destruct (H6 rid r Hr) as [(id&s&Hs&Hrid)|?]; [left|by right].
    exists id, s. split; [done|]. split; [|done]. destruct (so_state _ _ (H2 id s Hs)) as [|He]; [done|].
    exfalso. destruct (H3 id s Hs) as (r0&k&Hr0&_&_&_&Hrel). rewrite Hrid, Hr in Hr0.
    injection Hr0 as <-. by rewrite (Hrel He) in Hh.
Qed.

(** ** Announced endpoints are exclusive. *)

Lemma live_holding m rid r q : reservations m !! rid = Some r -> Resource.state r = Active ->
  request r = q -> forall k, k ∈ claims q -> (Resource.session_id q, k) ∈ holdings m.
Proof.
  intros Hr Ha <- k Hk. unfold holdings. apply list_elem_of_In, in_concat.
  exists (live_claims r). split.
  - apply in_map_iff. exists (rid, r). split; [done|]. by apply list_elem_of_In, elem_of_map_to_list.
  - unfold live_claims. rewrite Ha. simpl. apply in_map_iff. exists k. split; [done|].
    by apply list_elem_of_In.
Qed.

(** C6: two live sessions never announce the same endpoint: the protocol, address
    and port that [prepare] returned to a peer belong to one session until it ends. *)
Theorem announced_exclusive {HO : HashOrder string Reservation} {RJ : ResultJson} (calls : list Call)
    (id j : bytes) (s t : SessionMut) (key : ResourceKey) :
  Forall call_ok calls ->
  session_mut (history calls).1 id = Some s -> session_mut (history calls).1 j = Some t ->
  live (state s) -> live (state t) -> announced s = Some key -> announced t = Some key -> id = j.
Proof.
  intros Hok Hs Ht Hls Hlt Has Hat. pose proof (history_inv calls Hok) as [_ H2 H3 _ _ _ H7].
  destruct (H3 id s Hs) as (r&k&Hr&Hq&[_ Hk]&Ha&_). destruct (H3 j t Ht) as (r'&k'&Hr'&Hq'&[_ Hk']&Ha'&_).
  rewrite (Hk _ Has) in Hq. rewrite (Hk' _ Hat) in Hq'.
  destruct (H7 (fun _ => 0)) as [[_ Hc] _ _]. destruct (Hc key) as (Hone&_&_).
  assert (forall id r s, reservations (resources (history calls).1) !! reservation_id s = Some r ->
    request r = wanted (reservation_id s) id (claim key Exclusive) -> Resource.state r = Active ->
    (hex_session_id id, claim key Exclusive) ∈ claims_on key (holdings (resources (history calls).1)))
    as Hin.
  { intros id0 r0 s0 Hr0 Hq0 Ha0. apply elem_of_claims_on. split; [|done].
    change (hex_session_id id0) with (Resource.session_id (wanted (reservation_id s0) id0 (claim key Exclusive))).
    eapply live_holding; [exact Hr0|done|done|]. by left. }
  pose proof (Hin id r s Hr Hq (Ha Hls)) as Hi. pose proof (Hin j r' t Hr' Hq' (Ha' Hlt)) as Hj.
  rewrite (Hone _ Hi eq_refl) in Hj. apply list_elem_of_singleton in Hj. injection Hj as Hj.
  symmetry. apply hex_inj; [by apply (H2 j t Ht)|by apply (H2 id s Hs)|done].
Qed.

(** ** Sessions follow the protocol's state machine. *)

(** One step of [NodeStateMachine], or two through [Finalizing]. *)
Definition moves (x y : NodeConnectionState) : Prop :=
  x = y \/ allowed x y = true \/ (allowed x Finalizing = true /\ allowed Finalizing y = true).

Section Progress.
Context {HO : HashOrder string Reservation} {RJ : ResultJson}.

Record advanced (s s' : SessionMut) : Prop := {
  ad_moves : moves (state s) (state s');
  ad_authorization : authorization s' = authorization s;
  ad_reservation : reservation_id s' = reservation_id s;
  ad_announced : announced s' = announced s;
  ad_ended : ended (state s) -> s' = s;
}.

Lemma advanced_refl s : advanced s s.
Proof. by split; [left|..]. Qed.

Lemma live_not_ended st : live st -> ~ ended st.
Proof. by intros [-> | ->] [?|[?|?]]. Qed.

Lemma effect_sessions c k o c' : effect c k o c' -> coordinator_inv c -> forall id,
  match session_mut c id with
  | Some s => exists s', session_mut c' id = Some s' /\ advanced s s'
  | None => forall s', session_mut c' id = Some s' -> created id s'
  end.
Proof.
  assert (Hput : forall c0 c1 id s s', session_mut c0 id = Some s -> same_kind s s' -> advanced s s' ->
    (forall j, session_mut c1 j = session_mut (put_session id s' c0) j) -> forall j,
    match session_mut c0 j with
    | Some s => exists s', session_mut c1 j = Some s' /\ advanced s s'
    | None => forall s', session_mut c1 j = Some s' -> created j s'
    end).
  { intros c0 c1 id s s' Hs Hk Had Heq j. rewrite !Heq, session_put by (by eapply placeable_kind).
    destruct (decide (j = id)) as [->|Hj]; [rewrite Hs; by exists s'|].
    destruct (session_mut c0 j) as [t|] eqn:Ht; [|done]. exists t. split; [done|apply advanced_refl]. }
  intros [ops Hw|id s kc m ops Hn Hcr Han Hm Hw|id kc m Hn Hid Hu Hm Hw|
    id operation a now s l ops -> Hs Hst Hp Ha Hw|id now a s s' Hb Hs Hst Ha Hle Hx Hh|
    id s s' Hk Hs Hst Hh|id s st r m rs ops Hs Hl He Hcr Hr Hm Hw Hrs] Hc; intros j.
  - change (session_mut (set_operations ops c) j) with (session_mut c j).
    destruct (session_mut c j) as [t|]; [|done]. exists t. split; [done|apply advanced_refl].
  - change (session_mut (set_operations ops (put_session id s (set_resources m c))) j)
      with (session_mut (put_session id s (set_resources m c)) j).
    rewrite session_put by by apply placeable_none. change (session_mut (set_resources m c) j) with (session_mut c j).
    destruct (decide (j = id)) as [->|Hj].
    + rewrite Hn. by intros s' [= <-].
    + destruct (session_mut c j) as [t|]; [|done]. exists t. split; [done|apply advanced_refl].
  - change (session_mut (set_resources m c) j) with (session_mut c j).
    destruct (session_mut c j) as [t|]; [|done]. exists t. split; [done|apply advanced_refl].
  - eapply (Hput c _ id s); [exact Hs|apply kind_lifecycle| |done]. split; try by destruct s.
    left. by destruct s. rewrite Hst. by intros [?|[?|?]].
  - destruct (handed_ok _ _ _ _ _ Hh (begun_ok id s (ci_sessions c Hc id s Hs) Hst)) as (_&Hk&Hrid&Han&Hst').
    eapply (Hput c _ id s); [exact Hs|eapply kind_trans; [apply begun_kind|exact Hk]| |done]. split.
    + right. left. rewrite Hst', Hst. by destruct s.
    + destruct (handed_cases _ _ _ _ _ Hh) as [->| ->]; by destruct s.
    + rewrite Hrid. by destruct s.
    + rewrite Han. by destruct s.
    + rewrite Hst. by intros [?|[?|?]].
  - destruct (handed_ok _ _ _ _ _ Hh (ci_sessions c Hc id s Hs)) as (_&Hk'&Hrid&Han&Hst').
    eapply (Hput c _ id s); [exact Hs|done| |done]. split; [by left|..]; try done.
    + destruct (handed_cases _ _ _ _ _ Hh) as [->| ->]; by destruct s.
    + rewrite Hst. by intros [?|[?|?]].
  - eapply (Hput c _ id s (set_state st (close_endpoint s))); [exact Hs|by destruct s| |].
    + split; try by destruct s.
      * replace (state (set_state st (close_endpoint s))) with st by by destruct s.
        right. destruct He as [->|[->| ->]].
        -- right. by rewrite Hcr.
        -- left. by destruct Hl as [-> | ->].
        -- left. by destruct Hl as [-> | ->].
      * intros Hend. by destruct (live_not_ended _ Hl).
    + intros i. destruct s; reflexivity.
Qed.
End Progress.

(** C13: a session never disappears and never changes its authorization; each call
    moves its state along the protocol's state machine ([NodeStateMachine]), at most
    through [Finalizing], and a session that ended never changes again. A new
    session is ready, with nothing handed out. *)
Theorem session_progress {HO : HashOrder string Reservation} {RJ : ResultJson} (calls : list Call)
    (k : Call) (id : bytes) :
  Forall call_ok (calls ++ [k]) ->
  let c := (history calls).1 in
  let c' := (history (calls ++ [k])).1 in
  match session_mut c id with
  | Some s => exists s', session_mut c' id = Some s' /\ advanced s s'
  | None => forall s', session_mut c' id = Some s' -> created id s'
  end.
Proof.
  intros Hok. apply Forall_app in Hok as [Hok Hk]. apply Forall_cons in Hk as [Hk _]. cbv zeta.
  rewrite calls_snoc. cbn [fst]. pose proof (history_inv calls Hok) as Hc.
  destruct (exec k (history calls).1) as [c' o] eqn:He. cbn [fst].
  eapply effect_sessions; [exact (exec_effect _ _ _ _ Hc Hk He)|done].
Qed.

(** ** Workers start once, on time, with valid configurations. *)

(** The configurations in a response that hands out a worker of the session. *)
Definition worker_valid (id : bytes) (w : Response) : Prop :=
  let receiver (c : AuthorizedTcpReceiverConfig) := receiver_session_id c = id /\
    validate_authorization_tag (receiver_authorization_tag c) = Ok tt /\ 1 <= expected_streams c <= 128 in
  let sender (c : AuthorizedTcpSenderConfig) := sender_session_id c = id /\
    validate_authorization_tag (sender_authorization_tag c) = Ok tt /\ TcpEngine.validate (run c) = Ok tt in
  match w with
  | AckReceiver (TcpReceiver _ c) => receiver c
  | AckReceiver (UdpReceiver _ c) => r_session_id c = id /\ validate_receiver c = Ok tt
  | AckSender (TcpSender c _) => sender c
  | AckSender (UdpSender _ c _) => s_session_id c = id /\ validate_sender c = Ok tt
  | AckBoth (TcpBoth _ r s _) =>
      receiver r /\ sender s /\ receiver_authorization_tag r = sender_authorization_tag s
  | AckBoth (UdpBoth _ r s _) => r_session_id r = id /\ validate_receiver r = Ok tt /\
      s_session_id s = id /\ validate_sender s = Ok tt /\ r_authorization_tag r = s_authorization_tag s
  | AckDpdk _ => True
  | _ => False
  end.

Lemma worker_of_valid id s w : session_ok id s -> worker_of id s w -> worker_valid id w.
Proof.
  intros Hs. pose proof (so_config _ _ Hs) as Hc. destruct w as [| | | |[l c|k c]|[c d|k c d]|[l r x d|k r x d]|p|];
    simpl; try done.
  - intros (t&->&_&->). destruct Hc as (Ht&Hv&_). apply validate_range in Hv as [Hn _].
    split; [done|]. by split.
  - intros (u&p&->&_&_&->). split; [done|apply Hc].
  - intros (t&->&_&->). by destruct Hc as (Ht&Hv&_).
  - intros (u&->&_&Hx&_). by destruct (proj2 Hc c Hx) as (?&?&_).
  - intros (t&run&->&_&Hx&_&->&->). destruct Hc as (Ht&Hv&Hr). rewrite (Hr _ Hx).
    pose proof (validate_range _ Hv) as [[H1 H2] _]. by repeat split.
  - intros (u&p&->&_&_&->&Hx&_). destruct Hc as (Hr&Hsx). destruct (Hsx _ Hx) as (?&?&?). by split_and!.
Qed.

(** The entries of a log that handed out a worker of the session [id]. *)
Definition handoffs (id : bytes) (l : Log) : Log :=
  filter (fun e => worker_for e.1 e.2 = Some id) l.

(** Some [start] of the session [id] at the time [a] succeeded. *)
Definition scheduled (id : bytes) (a : Z) (l : Log) : Prop :=
  exists operation now, (CStart id operation a now, Ok (AckState TestReady)) ∈ l.

(** A call began the session [id] at the time [a] or later. *)
Definition began (id : bytes) (a : Z) (l : Log) : Prop :=
  exists k o now, (k, o) ∈ l /\ begins k = Some (id, now) /\ a <= now.

Record started (id : bytes) (s : SessionMut) (l : Log) : Prop := {
  st_handoffs : handoffs id l = [] \/ (length (handoffs id l) = 1%nat /\ spent s);
  st_scheduled : forall a, start_at (lifecycle s) = Some a -> scheduled id a l;
  st_running : handoffs id l <> [] \/ state s = Running ->
    exists a, start_at (lifecycle s) = Some a /\ began id a l;
  st_waiting : state s = TestReady -> handoffs id l = [];
}.

Lemma scheduled_app id a l l' : scheduled id a l -> scheduled id a (l ++ l').
Proof. intros (op&now&H). exists op, now. set_solver. Qed.

Lemma began_app id a l l' : began id a l -> began id a (l ++ l').
Proof. intros (k&o&now&H&?). exists k, o, now. set_solver. Qed.

Lemma handoffs_snoc id l k o : handoffs id (l ++ [(k, o)]) =
  handoffs id l ++ (if decide (worker_for k o = Some id) then [(k, o)] else []).
Proof.
  unfold handoffs. by rewrite filter_app.
Qed.

(** Nothing was handed out of this session by this call. *)
Lemma started_more id s s' l k o : started id s l -> worker_for k o <> Some id ->
  (state s' = Running -> state s = Running) -> (state s' = TestReady -> state s = TestReady) ->
  Lifecycle.start_at (lifecycle s') = Lifecycle.start_at (lifecycle s) ->
  (spent s -> spent s') -> started id s' (l ++ [(k, o)]).
Proof.
  intros [H1 H2 H3 H4] Hw Hr Ht Ha Hsp.
  assert (Hh : handoffs id (l ++ [(k, o)]) = handoffs id l).
  { rewrite handoffs_snoc, decide_False by done. by rewrite app_nil_r. }
  split; rewrite ?Hh, ?Ha.
  - destruct H1 as [?|[? ?]]; auto.
  - intros a Hs. by apply scheduled_app, H2.
  - intros Hn. destruct H3 as (a&?&?); [destruct Hn; auto|]. exists a. split; [done|by apply began_app].
  - auto.
Qed.

Lemma spent_emptied s : spent (emptied s).
Proof. by destruct s. Qed.

Lemma spent_closed st s : spent s -> spent (set_state st (close_endpoint s)).
Proof.
  unfold spent. destruct s as [[]|[]|[]]; simpl; unfold set_t, set_u, set_d; simpl.
  - by intros [= -> -> ->].
  - by intros [= -> -> ->].
  - done.
Qed.

(** A session from which the call may have taken its worker. *)
Lemma started_handed id s s' l k o :
  started id s l -> handed id k o s s' -> state s = Running -> call_session k = id ->
  started id s' (l ++ [(k, o)]).
Proof.
  intros Hst Hh Hr Hk. pose proof Hh as Hh'. unfold handed in Hh'.
  destruct (worker_for k o) as [j|] eqn:Hw.
  - destruct Hh' as (->&Hns&->&_). destruct Hst as [[H1|[_ H1]] H2 H3 H4]; [|done].
    assert (Hl : Lifecycle.start_at (lifecycle (emptied s)) = Lifecycle.start_at (lifecycle s)) by by destruct s.
    assert (Hs : state (emptied s) = state s) by by destruct s.
    split; rewrite ?Hl, ?Hs.
    + right. split; [|apply spent_emptied]. by rewrite handoffs_snoc, H1, decide_True.
    + intros a Ha. by apply scheduled_app, H2.
    + intros _. destruct H3 as (a&?&?); [by right|]. exists a. split; [done|by apply began_app].
    + congruence.
  - eapply started_more; [exact Hst|congruence|..].
    + destruct Hh' as [->| ->]; by destruct s.
    + destruct Hh' as [->| ->]; by destruct s.
    + destruct Hh' as [->| ->]; by destruct s.
    + destruct Hh' as [->| ->]; [done|]. intros _. apply spent_emptied.
Qed.

Section Starting.
Context {HO : HashOrder string Reservation} {RJ : ResultJson}.

(** What the log tells about every session. *)
Definition logged (c : SessionCoordinator) (l : Log) : Prop := forall id,
  match session_mut c id with Some s => started id s l | None => handoffs id l = [] end.

(** A call that only concerns the session [id], and hands out nothing. *)
Lemma logged_other c c' id l k o : logged c l ->
  (forall j, j <> id -> session_mut c' j = session_mut c j) -> worker_for k o = None \/ worker_for k o = Some id ->
  match session_mut c' id with
  | Some s => started id s (l ++ [(k, o)])
  | None => handoffs id (l ++ [(k, o)]) = []
  end -> logged c' (l ++ [(k, o)]).
Proof.
  intros Hl Heq Hw Hid j. destruct (decide (j = id)) as [->|Hj]; [done|]. rewrite Heq by done.
  specialize (Hl j). assert (Hwj : worker_for k o <> Some j) by (destruct Hw; congruence).
  destruct (session_mut c j) as [s|].
  - by eapply started_more.
  - rewrite handoffs_snoc, decide_False by done. by rewrite app_nil_r.
Qed.

Lemma session_put_other c id s j : j <> id -> session_mut (put_session id s c) j = session_mut c j.
Proof.
  intros Hj. unfold session_mut, put_session. destruct s; simpl; by rewrite lookup_insert_ne.
Qed.

Lemma effect_logged c k o c' l : effect c k o c' -> coordinator_inv c -> logged c l ->
  logged c' (l ++ [(k, o)]).
Proof.
  intros [ops Hw|id s kc m ops Hn Hcr Han Hm Hw|id kc m Hn Hid Hu Hm Hw|
    id operation a now s l' ops -> Hs Hst Hp Ha Hw|id now a s s' Hb Hs Hst Ha Hle Hx Hh|
    id s s' Hk Hs Hst Hh|id s st r m rs ops Hs Hl0 He Hcr Hr Hm Hw Hrs] Hc Hl.
  - apply (logged_other c _ [] l k o); [done|done|by left|]. specialize (Hl []).
    change (session_mut (set_operations ops c) []) with (session_mut c []).
    destruct (session_mut c []) as [s|]; [by eapply started_more; rewrite ?Hw|].
    rewrite handoffs_snoc, decide_False by (by rewrite Hw). by rewrite app_nil_r.
  - apply (logged_other c _ id l k o); [done| |by left|].
    { intros j Hj. exact (session_put_other (set_resources m c) id s j Hj). }
    change (session_mut (set_operations ops (put_session id s (set_resources m c))) id)
      with (session_mut (put_session id s (set_resources m c)) id).
    rewrite session_put, decide_True by (done || by apply placeable_none).
    specialize (Hl id). rewrite Hn in Hl. destruct Hcr as [_ Hst Hsa _].
    assert (Hh : handoffs id (l ++ [(k, o)]) = []).
    { by rewrite handoffs_snoc, Hl, decide_False by (by rewrite Hw). }
    split; [by left|by rewrite Hsa| |done]. rewrite Hh, Hst. by intros [?|?].
  - apply (logged_other c _ [] l k o); [done|done|by left|]. specialize (Hl []).
    change (session_mut (set_resources m c) []) with (session_mut c []).
    destruct (session_mut c []) as [s|]; [by eapply started_more; rewrite ?Hw|].
    rewrite handoffs_snoc, decide_False by (by rewrite Hw). by rewrite app_nil_r.
  - apply (logged_other c _ id l _ o); [done| |by left|].
    { intros j Hj. exact (session_put_other c id _ j Hj). }
    change (session_mut (set_operations ops (put_session id (set_lifecycle l' s) c)) id)
      with (session_mut (put_session id (set_lifecycle l' s) c) id).
    rewrite (session_put_here c id s) by (done || apply kind_lifecycle).
    specialize (Hl id). rewrite Hs in Hl. destruct Hl as [H1 H2 H3 H4].
    assert (Hh : handoffs id (l ++ [(CStart id operation a now, o)]) = []).
    { by rewrite handoffs_snoc, H4, decide_False by (by rewrite ?Hw). }
    assert (Hl' : lifecycle (set_lifecycle l' s) = l') by by destruct s.
    assert (Hs' : state (set_lifecycle l' s) = TestReady) by (by destruct s).
    split; rewrite ?Hl', ?Hs', ?Hh; [by left| |by intros [?|?]|done].
    intros a' Ha'. destruct Ha as [Ha|[-> Ha]].
    + apply scheduled_app, H2. congruence.
    + assert (a' = a) as -> by congruence. exists operation, now. set_solver.
  - assert (Hck : call_session k = id) by (by destruct k; simplify_eq/=).
    apply (logged_other c _ id l k o); [done| | |].
    { intros j Hj. exact (session_put_other c id _ j Hj). }
    { unfold handed in Hh. destruct (worker_for k o); [|by left]. destruct Hh as (->&_). by right. }
    assert (Hks : same_kind s s').
    { destruct (handed_cases _ _ _ _ _ Hh) as [->| ->]; by destruct s. }
    rewrite (session_put_here c id s) by done. specialize (Hl id). rewrite Hs in Hl.
    destruct Hl as [H1 H2 H3 H4].
    assert (Hlb : Lifecycle.start_at (lifecycle (begun s)) = Some a) by (by destruct s).
    assert (Hls : Lifecycle.start_at (lifecycle s') = Some a /\ state s' = Running).
    { destruct (handed_cases _ _ _ _ _ Hh) as [->| ->]; (split; [rewrite <- Hlb|]; by destruct s). }
    destruct Hls as [Hls Hsr]. split; rewrite ?Hls, ?Hsr.
    + rewrite handoffs_snoc, H4 by done. unfold handed in Hh.
      destruct (worker_for k o) as [j|]; [destruct Hh as (->&_&->&_)|]; [right|by left].
      rewrite decide_True by done. split; [done|apply spent_emptied].
    + intros a' [= <-]. by apply scheduled_app, H2.
    + intros _. exists a. split; [done|]. exists k, o, now. set_solver.
    + done.
  - apply (logged_other c _ id l k o); [done| | |].
    { intros j Hj. exact (session_put_other c id _ j Hj). }
    { unfold handed in Hh. destruct (worker_for k o); [|by left]. destruct Hh as (->&_). by right. }
    assert (Hks : same_kind s s').
    { destruct (handed_cases _ _ _ _ _ Hh) as [->| ->]; by destruct s. }
    rewrite (session_put_here c id s) by done. specialize (Hl id). rewrite Hs in Hl.
    by eapply started_handed.
  - set (s' := set_state st (close_endpoint s)).
    assert (Hm' : forall j, session_mut (set_operations ops (set_results rs ∅
      (put_session id s' (set_resources m c)))) j = session_mut (put_session id s' c) j)
      by by destruct s.
    apply (logged_other c _ id l k o); [done| |by left|].
    { intros j Hj. rewrite Hm'. by apply session_put_other. }
    rewrite Hm', (session_put_here c id s) by (done || by destruct s).
    specialize (Hl id). rewrite Hs in Hl.
    assert (Hst' : state s' = st) by by destruct s.
    eapply started_more; [exact Hl|by rewrite Hw|..].
    + rewrite Hst'. intros ->. by destruct He as [?|[?|?]].
    + rewrite Hst'. intros ->. by destruct He as [?|[?|?]].
    + by destruct s.
    + by apply spent_closed.
Qed.

Lemma effect_worker c k o c' l id : effect c k o c' -> coordinator_inv c -> logged c l ->
  worker_for k o = Some id -> exists a w, o = Ok w /\ worker_valid id w /\ scheduled id a l /\
    began id a (l ++ [(k, o)]).
Proof.
  intros [ops Hw|i s kc m ops Hn Hcr Han Hm Hw|i kc m Hn Hid Hu Hm Hw|
    i operation a now s l' ops -> Hs Hst Hp Ha Hw|i now a s s' Hb Hs Hst Ha Hle Hx Hh|
    i s s' Hk Hs Hst Hh|i s st r m rs ops Hs Hl0 He Hcr Hr Hm Hw Hrs] Hc Hl Hwk; try congruence.
  - unfold handed in Hh. rewrite Hwk in Hh. destruct Hh as (->&_&_&w&->&Hof). exists a, w.
    specialize (Hl i). rewrite Hs in Hl. split; [done|]. split; [|split].
    + eapply worker_of_valid, Hof. apply begun_ok; [by apply Hc|done].
    + by apply Hl.
    + exists k, (Ok w), now. set_solver.
  - unfold handed in Hh. rewrite Hwk in Hh. destruct Hh as (->&_&_&w&->&Hof).
    specialize (Hl i). rewrite Hs in Hl. destruct (st_running _ _ _ Hl) as (a&Ha&Hb); [by right|].
    exists a, w. split; [done|]. split; [|split].
    + eapply worker_of_valid, Hof. by apply Hc.
    + by apply Hl.
    + by apply began_app.
Qed.

Lemma history_logged calls : Forall call_ok calls -> logged (history calls).1 (history calls).2.
Proof.
  induction calls as [|k calls IH] using rev_ind; intros Hok.
  { intros id. assert (session_mut (history []).1 id = None) as ->; [|done].
    unfold session_mut. simpl. by rewrite !lookup_empty. }
  apply Forall_app in Hok as [Hok Hk]. apply Forall_cons in Hk as [Hk _]. rewrite calls_snoc.
  destruct (exec k (history calls).1) as [c' o] eqn:He. cbn [fst snd].
  pose proof (history_inv calls Hok) as Hc.
  eapply effect_logged; [exact (exec_effect _ _ _ _ Hc Hk He)|done|by apply IH].
Qed.
End Starting.

(** C4: a session hands its worker out at most once, however often and in
    whatever order the scheduler asks; only after [start] scheduled it and a call
    began it at the scheduled time or later; and the configuration handed out
    passes the validation of its engine, names the session and, for a worker of
    both directions, has one tag for both. *)
Theorem workers_start_once {HO : HashOrder string Reservation} {RJ : ResultJson} (calls : list Call)
    (id : bytes) :
  Forall call_ok calls ->
  (length (handoffs id (history calls).2) <= 1)%nat /\
  forall before k o after, (history calls).2 = before ++ (k, o) :: after -> worker_for k o = Some id ->
    exists a w, o = Ok w /\ worker_valid id w /\ scheduled id a before /\
      began id a (before ++ [(k, o)]).
Proof.
  intros Hok. split.
  { pose proof (history_logged calls Hok id) as Hl.
    destruct (session_mut (history calls).1 id) as [s|]; [|rewrite Hl; simpl; lia].
    destruct (st_handoffs _ _ _ Hl) as [->|[-> _]]; simpl; lia. }
  induction calls as [|k0 calls IH] using rev_ind; intros l1 k o l2 Hlog Hw; [by destruct l1|].
  apply Forall_app in Hok as [Hok Hk]. apply Forall_cons in Hk as [Hk _].
  rewrite calls_snoc in Hlog. cbn [snd] in Hlog. pose proof (history_inv calls Hok) as Hc.
  destruct (exec k0 (history calls).1) as [c' o0] eqn:He. cbn [snd] in Hlog.
  destruct l2 as [|x l2 _] using rev_ind.
  - apply app_inj_tail in Hlog as [<- [= -> ->]].
    eapply effect_worker; [exact (exec_effect _ _ _ _ Hc Hk He)|done|by apply history_logged|done].
  - rewrite app_comm_cons, app_assoc in Hlog. apply app_inj_tail in Hlog as [Hlog _]. by eapply IH.
Qed.

(** ** The theorems on a concrete history. *)

Lemma sessions_consistent_witness :
  let c := (history sample_calls).1 in
  session_state c tcp_id = Some Completed /\ session_state c udp_id = Some TestReady /\
  pending_results c = ∅ /\
  exists r t, reservations (resources c) !! ("data-port-" +:+ hex_session_id tcp_id)%string = Some r /\
    Resource.state r = Released /\ results c !! tcp_id = Some t /\ result_ok tcp_id t.
Proof.
  cbv zeta. split; [vm_compute; reflexivity|]. split; [vm_compute; reflexivity|].
  destruct (sessions_consistent sample_calls sample_calls_ok) as (Hp&Hs&_). split; [exact Hp|].
  destruct (session_mut (history sample_calls).1 tcp_id) as [s|] eqn:He; [|vm_compute in He; discriminate].
  destruct (Hs tcp_id s He) as (_&_&r&Hr&H).
  assert (state s = Completed /\ reservation_id s = ("data-port-" +:+ hex_session_id tcp_id)%string)
    as [Hst Hrid] by (vm_compute in He; injection He as <-; by split).
  rewrite Hst in H. rewrite Hrid in Hr.
  destruct H as [[[?|?] _]|[[? _]|(_&Hr'&t&Ht&Hok)]]; [discriminate..|].
  exists r, t. exact (conj Hr (conj Hr' (conj Ht Hok))).
Defined.

(** A third session on the port of the UDP session does not come to life. *)
Lemma announced_exclusive_witness :
  let c := (history prepare_both).1 in
  match session_mut c tcp_id, session_mut c udp_id with
  | Some s, Some t =>
      live (state s) /\ live (state t) /\
      announced t = Some (DataPort "udp" "127.0.0.1" 40002) /\
      (forall j u, session_mut c j = Some u -> live (state u) -> announced u = announced t -> udp_id = j)
  | _, _ => False
  end.
Proof.
  cbv zeta.
  destruct (session_mut (history prepare_both).1 tcp_id) as [s|] eqn:Hs; [|vm_compute in Hs; discriminate].
  destruct (session_mut (history prepare_both).1 udp_id) as [t|] eqn:Ht; [|vm_compute in Ht; discriminate].
  assert (live (state s)) as Hls by (vm_compute in Hs; injection Hs as <-; by left).
  assert (live (state t)) as Hlt by (vm_compute in Ht; injection Ht as <-; by left).
  assert (announced t = Some (DataPort "udp" "127.0.0.1" 40002)) as Ha
    by (vm_compute in Ht; injection Ht as <-; reflexivity).
  split; [exact Hls|]. split; [exact Hlt|]. split; [exact Ha|]. intros j u Hu Hlu Hau. rewrite Ha in Hau.
  refine (announced_exclusive prepare_both udp_id j t u _ _ Ht Hu Hlt Hlu Ha Hau).
  exact (proj1 (proj1 (Forall_app _ prepare_both _) sample_calls_ok)).
Defined.

Lemma session_progress_witness :
  let c := (history sample_calls).1 in
  let c' := (history (sample_calls ++ [CStop udp_id "stop-udp"])).1 in
  session_state c udp_id = Some TestReady /\ session_state c' udp_id = Some Canceled /\
  session_mut c' tcp_id = session_mut c tcp_id.
Proof.
  cbv zeta. split; [vm_compute; reflexivity|]. split; [vm_compute; reflexivity|].
  assert (Forall call_ok (sample_calls ++ [CStop udp_id "stop-udp"])) as Hok.
  { apply Forall_app. split; [exact sample_calls_ok|]. apply Forall_singleton. split; [apply sample_id; lia|done]. }
  pose proof (session_progress sample_calls (CStop udp_id "stop-udp") tcp_id Hok) as H. cbv zeta in H.
  destruct (session_mut (history sample_calls).1 tcp_id) as [s|] eqn:Hs; [|vm_compute in Hs; discriminate].
  destruct H as (s'&Hs'&Had). rewrite Hs'. apply f_equal, (ad_ended _ _ Had).
  assert (state s = Completed) as -> by (vm_compute in Hs; by injection Hs as <-). by left.
Defined.

Lemma workers_start_once_witness :
  let l := (history sample_calls).2 in
  (length (handoffs tcp_id l) = 1)%nat /\
  exists w, (CBeginReceiver tcp_id (start_time + 5), Ok w) ∈ l /\ worker_valid tcp_id w.
Proof.
  cbv zeta. split; [vm_compute; reflexivity|].
  destruct (workers_start_once sample_calls tcp_id sample_calls_ok) as [_ H].
  remember (history sample_calls).2 as l eqn:Hl. vm_compute in Hl.
  edestruct (H (take 3 l) (CBeginReceiver tcp_id (start_time + 5))) as (a&w&Ho&Hw&_);
    [subst l; reflexivity|reflexivity|].
  exists w. split; [|exact Hw]. rewrite <- Ho. subst l. apply list_elem_of_In. simpl. by do 3 right; left.
Defined.
