(* ===== verification/SpeedRun.v ===== *)
(** * Speed run requests

    Model of [crates/speed/src/config.rs], the request of a speed test and its
    validation, and of [crates/speed/src/accelerated.rs], the contract of the
    hardware executors. *)

From stdpp Require Import base list strings sorting gmap.
From Stdlib Require Import ZArith Lia.
From S2P Require Import Prelude ErrorModel UdpProtocol Generator.
Open Scope Z_scope.

(** [domain::SpeedProtocol], [domain::Direction]. *)
Inductive SpeedProtocol := TcpSpeed | UdpSpeed | RawSpeed.
Inductive Direction := Upload | Download | Bidirectional.

#[export] Instance SpeedProtocol_eq_dec : EqDecision SpeedProtocol.
Proof. solve_decision. Defined.
#[export] Instance Direction_eq_dec : EqDecision Direction.
Proof. solve_decision. Defined.

Record SpeedRunRequest := {
  run_node : string;
  run_protocol : SpeedProtocol;
  run_backend : string;
  run_direction : Direction;
  run_duration_ms : Z;
  run_warmup_ms : Z;
  run_cooldown_ms : Z;
  run_streams : option Z;
  run_frame_size : option Z;
  run_target_rate_bps : option Z;
  auto_tune : bool;
  latency_under_load : bool;
  cpus : option (list Z);
  numa_node : option Z;
  run_accelerated_pci_address : option string;
  run_accelerated_interface_name : option string;
  run_remote_accelerated_pci_address : option string;
  run_remote_mac_address : option string;
}.

Definition invalid {A} (m : string) : res A := err InvalidArgument m.

Definition valid_pci_bdf (value : string) : bool :=
  let bs := as_bytes value in
  (len bs =? 12)
  && bool_decide (bs !! 4%nat = Some 58) && bool_decide (bs !! 7%nat = Some 58)
  && bool_decide (bs !! 10%nat = Some 46)
  && forallb (fun ib => existsb (Nat.eqb ib.1) [4; 7; 10]%nat || is_hex ib.2) (imap pair bs).

Definition valid_unicast_mac (value : string) : bool :=
  match split_colon [] (as_bytes value) with
  | (first :: _) as parts =>
      (len parts =? 6) && forallb (fun part => (len part =? 2) && forallb is_hex part) parts
      && match parse_hex 0 first with
         | Some first => negb (first =? 0) && (Z.land first 1 =? 0)
         | None => false
         end
  | [] => false
  end.

(** [Vec::dedup]. *)
Fixpoint dedup (l : list Z) : list Z :=
  match l with
  | x :: ((y :: _) as rest) => if x =? y then dedup rest else x :: dedup rest
  | _ => l
  end.

Definition one_of (s : string) (l : list string) : bool := bool_decide (s ∈ l).

(** [Option::is_some], and [Option::is_some_and]. *)
Definition given {A} (o : option A) : bool := match o with Some _ => true | None => false end.
Definition is_some_and {A} (o : option A) (p : A -> bool) : bool :=
  match o with Some a => p a | None => false end.

Definition check_cpus (r : SpeedRunRequest) : res unit :=
  match cpus r with
  | None => Ok tt
  | Some l =>
      if len l =? 0 then invalid "CPU affinity list must not be empty"
      else if negb (len (dedup (merge_sort Z.le l)) =? len l)
      then invalid "CPU affinity list contains duplicates"
      else if negb (one_of (run_backend r) ["dpdk"; "af_xdp"])
      then invalid "CPU affinity requires an accelerated backend"
      else Ok tt
  end.

Definition check_selectors (r : SpeedRunRequest) : res unit :=
  let dpdk := bool_decide (run_backend r = "dpdk"%string) in
  if one_of (run_backend r) ["dpdk"; "af_xdp"; "rio"] then
    if Bool.eqb (given (run_accelerated_pci_address r)) (given (run_accelerated_interface_name r))
    then invalid "accelerated backend requires exactly one PCI BDF or interface name"
    else if is_some_and (run_accelerated_pci_address r) (fun pci => negb (valid_pci_bdf pci))
    then invalid "accelerated PCI BDF is invalid"
    else if is_some_and (run_accelerated_interface_name r) (fun name =>
              bool_decide (name = ""%string) || (256 <? len (as_bytes name)) || has_control (as_bytes name))
    then invalid "accelerated interface name is invalid"
    else if dpdk && negb (is_some_and (run_remote_accelerated_pci_address r) valid_pci_bdf)
    then invalid "DPDK backend requires a valid remote PCI BDF"
    else if dpdk && bool_decide (run_protocol r = RawSpeed) &&
            negb (is_some_and (run_remote_mac_address r) valid_unicast_mac)
    then invalid "DPDK raw Ethernet requires a valid remote unicast MAC"
    else if negb dpdk && given (run_remote_accelerated_pci_address r)
    then invalid "only the DPDK backend accepts a remote PCI BDF"
    else Ok tt
  else if given (run_accelerated_pci_address r) || given (run_accelerated_interface_name r)
          || given (run_remote_accelerated_pci_address r) || given (run_remote_mac_address r)
  then invalid "socket and native backends do not accept accelerated NIC selectors"
  else Ok tt.

Definition check_protocol (r : SpeedRunRequest) : res unit :=
  match run_protocol r with
  | TcpSpeed =>
      if given (run_frame_size r) || given (run_target_rate_bps r)
      then invalid "TCP does not accept raw frame size or target rate" else Ok tt
  | UdpSpeed =>
      if given (run_frame_size r) || bool_decide (run_target_rate_bps r = Some 0)
      then invalid "UDP requires a valid rate and does not accept frame size" else Ok tt
  | RawSpeed =>
      if negb (bool_decide (run_backend r = "dpdk"%string))
      then invalid "raw Ethernet currently requires the DPDK backend"
      else if negb (is_some_and (run_frame_size r) (fun size => 64 <=? size))
              || bool_decide (run_target_rate_bps r = Some 0)
      then invalid "raw Ethernet requires frame size >= 64 and a valid rate"
      else if is_some_and (run_streams r) (fun n => negb (n =? 1))
      then invalid "raw Ethernet uses queue/flow sharding, not TCP streams"
      else Ok tt
  end.

(** [SpeedRunRequest::validate]. *)
Definition validate_run (r : SpeedRunRequest) : res unit :=
  if trimmed_empty (run_node r) then invalid "speed run requires a remote node"
  else if negb (one_of (run_backend r) ["socket"; "native"; "dpdk"; "af_xdp"; "rio"])
  then invalid "speed backend is not registered"
  else if run_duration_ms r =? 0 then invalid "measurement duration must be non-zero"
  else if bool_decide (run_streams r = Some 0) then invalid "stream count must be non-zero"
  else
    let? _ := check_cpus r in
    if given (numa_node r) && one_of (run_backend r) ["socket"; "native"]
    then invalid "NUMA selection requires an accelerated backend"
    else
      let? _ := check_selectors r in
      check_protocol r.

(** ** [accelerated.rs]. *)

Inductive AcceleratedBackend := BackendDpdk | BackendAfXdp | BackendRio.
#[export] Instance AcceleratedBackend_eq_dec : EqDecision AcceleratedBackend.
Proof. solve_decision. Defined.

Definition from_id (value : string) : option AcceleratedBackend :=
  if bool_decide (value = "dpdk"%string) then Some BackendDpdk
  else if bool_decide (value = "af_xdp"%string) then Some BackendAfXdp
  else if bool_decide (value = "rio"%string) then Some BackendRio
  else None.

Record AcceleratedExecutionRequest := {
  exec_backend : AcceleratedBackend; speed : SpeedRunRequest; exec_session_id : bytes;
}.
Record AcceleratedExecutionResult := {
  exec_result_session_id : bytes; exec_elapsed_nanoseconds : Z;
  transmitted_packets : Z; received_packets : Z;
}.

Definition zero_id : bytes := replicate 16 0.

Definition new_execution_request (r : SpeedRunRequest) (session_id : bytes) :
    res AcceleratedExecutionRequest :=
  let? b := ok_or (from_id (run_backend r))
              (new_error InvalidArgument
                 "accelerated executor requires a DPDK, AF_XDP, or RIO backend" false) in
  if bool_decide (session_id = zero_id)
  then invalid "accelerated executor requires a non-zero session ID"
  else Ok {| exec_backend := b; speed := r; exec_session_id := session_id |}.

(** [trait AcceleratedSpeedExecutor]: an executor keeps its state [S] to itself. *)
Class AcceleratedSpeedExecutor (S : Type) := {
  executor_backend : S -> AcceleratedBackend;
  execute : AcceleratedExecutionRequest -> method S AcceleratedExecutionResult;
}.

Definition execute_with {S} `{AcceleratedSpeedExecutor S} (q : AcceleratedExecutionRequest) :
    method S AcceleratedExecutionResult := fun s =>
  if negb (bool_decide (executor_backend s = exec_backend q))
  then (s, err ActionUnsupported "accelerated executor does not match the requested backend")
  else
    (let! r := execute q in
     if negb (bool_decide (exec_result_session_id r = exec_session_id q)) ||
        (exec_elapsed_nanoseconds r =? 0)
     then m_ret (err SpeedFailed "accelerated executor returned an invalid measurement result")
     else m_ret (Ok r)) s.

(** ** Validation is exact. *)

Lemma dedup_length l : (length (dedup l) <= length l)%nat.
Proof.
  induction l as [|x l IH]; [done|]. cbn [dedup]. destruct l as [|y l]; [done|].
  case_match; cbn [length] in *; lia.
Qed.

Lemma dedup_nodup l : Sorted Z.le l -> length (dedup l) = length l <-> NoDup l.
Proof.
  induction l as [|x l IH]; intros Hs; [by split; [constructor|]|].
  apply Sorted_inv in Hs as [Hs Hhd]. destruct l as [|y l]; [by split; [intros _; apply NoDup_singleton|]|].
  rewrite NoDup_cons, <- (IH Hs).
  change (dedup (x :: y :: l)) with (if x =? y then dedup (y :: l) else x :: dedup (y :: l)).
  apply Sorted_StronglySorted in Hs; [|intros ? ? ?; lia].
  apply StronglySorted_inv in Hs as [_ Hy]. apply HdRel_inv in Hhd.
  destruct (Z.eqb_spec x y) as [<-|Hne].
  - pose proof (dedup_length (x :: l)). cbn [length] in *. split; [unfold len; lia|]. intros [Hx _]. set_solver.
  - cbn [length]. split; [|intros [_ H]; by rewrite <- H].
    intros [= H]. split; [|done]. intros [->|Hin]%elem_of_cons; [done|].
    rewrite Forall_forall in Hy. specialize (Hy x Hin). lia.
Qed.

Lemma cpus_distinct l : len (dedup (merge_sort Z.le l)) = len l <-> NoDup l.
Proof.
  pose proof (merge_sort_Permutation Z.le l) as Hp. pose proof (Permutation_length Hp) as Hl.
  assert (NoDup (merge_sort Z.le l) <-> NoDup l) as <- by by rewrite Hp.
  rewrite <- (dedup_nodup (merge_sort Z.le l)); [unfold len; lia|].
  apply Sorted_merge_sort. intros x y. lia.
Qed.
