(* ===== verification/Planner.v ===== *)
(** * Planning a speed session

    Model of [crates/node/src/planner.rs]: from a speed run request, the ports
    bound for it and the capabilities of the remote node to the prepare message.
    A [BTreeSet<u32>] is the list of its elements in order. *)

From stdpp Require Import base list strings gmap sorting.
From Stdlib Require Import ZArith Lia Sorting.Sorted.
From S2P Require Import Prelude ErrorModel NodeProtocol SpeedRun.
Open Scope Z_scope.

Definition CAPABILITY_TCP_SPEED : Z := 1.
Definition CAPABILITY_UDP_SPEED : Z := 2.
Definition CAPABILITY_BIDIRECTIONAL : Z := 3.
Definition CAPABILITY_LATENCY : Z := 4.
Definition CAPABILITY_DPDK : Z := 5.
Definition CAPABILITY_AF_XDP : Z := 6.
Definition CAPABILITY_RIO : Z := 7.
Definition CAPABILITY_JUMBO_FRAME : Z := 0xB.
Definition CAPABILITY_RAW_PACKET_GENERATOR : Z := 0xC.
Definition CAPABILITY_LATENCY_UNDER_LOAD : Z := 0xD.
Definition REQUIRED_CAPABILITY_VERSION : Z := 1.

Record SpeedSessionPlan := { required : list Z; plan_prepare : PrepareTest }.
Record LocalDataPlanePorts := { send_port : Z; receive_port : Z }.

Definition default_ports : LocalDataPlanePorts := {| send_port := 0; receive_port := 0 |}.

(** [BTreeSet::insert]. *)
Fixpoint insert_id (x : Z) (l : list Z) : list Z :=
  match l with
  | [] => [x]
  | y :: rest => if x <? y then x :: l else if x =? y then l else y :: insert_id x rest
  end.

Definition when (b : bool) (x : Z) (l : list Z) : list Z := if b then insert_id x l else l.

Definition required_capabilities (r : SpeedRunRequest) : list Z :=
  let uses b := bool_decide (run_backend r = b) in
  let l := insert_id (match run_protocol r with
                      | TcpSpeed => CAPABILITY_TCP_SPEED
                      | UdpSpeed => CAPABILITY_UDP_SPEED
                      | RawSpeed => CAPABILITY_RAW_PACKET_GENERATOR
                      end) [] in
  let l := when (bool_decide (run_direction r = Bidirectional)) CAPABILITY_BIDIRECTIONAL l in
  let l := if uses "dpdk"%string then insert_id CAPABILITY_DPDK l
           else if uses "af_xdp"%string then insert_id CAPABILITY_AF_XDP l
           else if uses "rio"%string then insert_id CAPABILITY_RIO l
           else l in
  let l := when (is_some_and (run_frame_size r) (fun size => 1518 <? size)) CAPABILITY_JUMBO_FRAME l in
  if latency_under_load r
  then insert_id CAPABILITY_LATENCY_UNDER_LOAD (insert_id CAPABILITY_LATENCY l)
  else l.

Definition protocol {A} (m : string) : res A := err ProtocolInvalid m.

(** The first loop: unique IDs and usable version ranges. *)
Fixpoint check_remote (seen : list Z) (remote : list CapabilityMessage) : res unit :=
  match remote with
  | [] => Ok tt
  | c :: remote =>
      if bool_decide (capability_id c ∈ seen)
      then protocol "remote capability response contains duplicate IDs"
      else if (capability_min_version c =? 0)
              || (capability_max_version c <? capability_min_version c)
              || (capability_max_version c =? 0)
      then protocol "remote capability response contains an invalid version range"
      else check_remote (capability_id c :: seen) remote
  end.

Definition provides (id : Z) (c : CapabilityMessage) : bool :=
  (capability_id c =? id) && capability_available c
  && (capability_min_version c <=? REQUIRED_CAPABILITY_VERSION)
  && (REQUIRED_CAPABILITY_VERSION <=? capability_max_version c).

(** [format!("0x{:04X}")] of a [u32]. *)
Definition capability_name (id : Z) : string :=
  let digit i := String (upper_digit ((id / 16 ^ i) mod 16)) "" in
  let low := digit 3 +:+ digit 2 +:+ digit 1 +:+ digit 0 in
  "0x" +:+ (if id <? 16 ^ 4 then low
            else if id <? 16 ^ 5 then digit 4 +:+ low
            else if id <? 16 ^ 6 then digit 5 +:+ digit 4 +:+ low
            else if id <? 16 ^ 7 then digit 6 +:+ digit 5 +:+ digit 4 +:+ low
            else digit 7 +:+ digit 6 +:+ digit 5 +:+ digit 4 +:+ low).

Definition missing_capability (id : Z) : NetToolError :=
  {| code := ProtocolIncompatible;
     ErrorModel.message := "remote Node does not provide a required speed capability";
     retryable := false;
     details := {["capability_id" := capability_name id]} |}.

Fixpoint check_required (ids : list Z) (remote : list CapabilityMessage) : res unit :=
  match ids with
  | [] => Ok tt
  | id :: ids =>
      if existsb (provides id) remote then check_required ids remote else Err (missing_capability id)
  end.

Definition validate_capabilities (ids : list Z) (remote : list CapabilityMessage) : res unit :=
  let? _ := check_remote [] remote in check_required ids remote.

Definition protocol_name (p : SpeedProtocol) : string :=
  match p with TcpSpeed => "tcp" | UdpSpeed => "udp" | RawSpeed => "raw" end.
Definition direction_name (d : Direction) : string :=
  match d with Upload => "upload" | Download => "download" | Bidirectional => "bidirectional" end.

(** [matches!(direction, Upload | Bidirectional)], [Download | Bidirectional]. *)
Definition sends (d : Direction) : bool := negb (bool_decide (d = Download)).
Definition receives (d : Direction) : bool := negb (bool_decide (d = Upload)).

Definition prepare_message (r : SpeedRunRequest) (operation : string) (session_id : bytes)
    (ports : LocalDataPlanePorts) : PrepareTest := {|
  prepare_session_id := session_id;
  prepare_operation_id := operation;
  test_type := protocol_name (run_protocol r);
  backend := run_backend r;
  direction := direction_name (run_direction r);
  duration_ms := run_duration_ms r;
  warmup_ms := run_warmup_ms r;
  cooldown_ms := run_cooldown_ms r;
  streams := default 0 (run_streams r);
  frame_size := default 0 (run_frame_size r);
  payload_size := 0;
  target_rate_bps := default 0 (run_target_rate_bps r);
  mtu := 0;
  source_data_port := send_port ports;
  receive_data_port := receive_port ports;
  accelerated_pci_address := default ""%string (run_accelerated_pci_address r);
  remote_accelerated_pci_address := default ""%string (run_remote_accelerated_pci_address r);
  remote_mac_address := default ""%string (run_remote_mac_address r);
|}.

Definition plan_speed_session (r : SpeedRunRequest) (operation : string) (session_id : bytes)
    (ports : LocalDataPlanePorts) (remote : list CapabilityMessage) : res SpeedSessionPlan :=
  let? _ := validate_run r in
  let p := run_protocol r in
  if trimmed_empty operation || bool_decide (session_id = zero_id)
  then invalid "speed operation and session IDs must be non-empty"
  else if bool_decide (p = UdpSpeed) && sends (run_direction r) && (send_port ports =? 0)
  then invalid "UDP source data port must be dynamically allocated before prepare"
  else if negb (bool_decide (p = RawSpeed)) && receives (run_direction r) && (receive_port ports =? 0)
  then invalid "local receive data port must be dynamically allocated before prepare"
  else if bool_decide (p = RawSpeed) &&
          negb ((send_port ports =? 0) && (receive_port ports =? 0))
  then invalid "raw Ethernet does not use socket data ports"
  else
    let ids := required_capabilities r in
    let? _ := validate_capabilities ids remote in
    Ok {| required := ids; plan_prepare := prepare_message r operation session_id ports |}.

(** ** Required capabilities. *)

(** What a request needs, capability by capability. *)
Definition needs (r : SpeedRunRequest) (id : Z) : Prop :=
  id = CAPABILITY_TCP_SPEED /\ run_protocol r = TcpSpeed \/
  id = CAPABILITY_UDP_SPEED /\ run_protocol r = UdpSpeed \/
  id = CAPABILITY_RAW_PACKET_GENERATOR /\ run_protocol r = RawSpeed \/
  id = CAPABILITY_BIDIRECTIONAL /\ run_direction r = Bidirectional \/
  id = CAPABILITY_DPDK /\ run_backend r = "dpdk"%string \/
  id = CAPABILITY_AF_XDP /\ run_backend r = "af_xdp"%string \/
  id = CAPABILITY_RIO /\ run_backend r = "rio"%string \/
  id = CAPABILITY_JUMBO_FRAME /\ (exists size, run_frame_size r = Some size /\ 1518 < size) \/
  (id = CAPABILITY_LATENCY \/ id = CAPABILITY_LATENCY_UNDER_LOAD) /\ latency_under_load r = true.

Lemma insert_id_elem x l y : y ∈ insert_id x l <-> y = x \/ y ∈ l.
Proof.
  induction l as [|z l IH]; simpl; [set_solver|].
  repeat case_match; set_solver by lia.
Qed.

Lemma insert_id_sorted x l : StronglySorted Z.lt l -> StronglySorted Z.lt (insert_id x l).
Proof.
  induction 1 as [|y l Hs IH Hy]; simpl; [by repeat constructor|].
  destruct (Z.ltb_spec x y); [|destruct (Z.eqb_spec x y)].
  - constructor; [by constructor|]. constructor; [done|]. eapply Forall_impl; [exact Hy|]. simpl. lia.
  - by constructor.
  - constructor; [done|]. rewrite Forall_forall in *. intros z [->|Hz]%insert_id_elem; [lia|by apply Hy].
Qed.

Lemma when_elem b x l y : y ∈ when b x l <-> (b = true /\ y = x) \/ y ∈ l.
Proof. destruct b; simpl; [rewrite insert_id_elem|]; naive_solver. Qed.

Lemma when_sorted b x l : StronglySorted Z.lt l -> StronglySorted Z.lt (when b x l).
Proof. destruct b; [apply insert_id_sorted|done]. Qed.

Lemma required_sorted r : StronglySorted Z.lt (required_capabilities r).
Proof.
  unfold required_capabilities. cbv zeta.
  repeat first [apply insert_id_sorted | apply when_sorted | progress case_match | constructor].
Qed.

Lemma required_needs r id : id ∈ required_capabilities r <-> needs r id.
Proof.
  unfold required_capabilities, needs. cbv zeta.
  set (size := is_some_and _ _). set (first := insert_id _ []).
  assert (Hsize : size = true <-> exists s, run_frame_size r = Some s /\ 1518 < s).
  { subst size. destruct (run_frame_size r) as [s|]; simpl; [rewrite Z.ltb_lt|]; naive_solver. }
  assert (Hfirst : id ∈ first <-> id = CAPABILITY_TCP_SPEED /\ run_protocol r = TcpSpeed \/
    id = CAPABILITY_UDP_SPEED /\ run_protocol r = UdpSpeed \/
    id = CAPABILITY_RAW_PACKET_GENERATOR /\ run_protocol r = RawSpeed).
  { subst first. rewrite insert_id_elem, elem_of_nil. destruct (run_protocol r); intuition discriminate. }
  assert (Hbackend : forall l, id ∈ (if bool_decide (run_backend r = "dpdk"%string)
      then insert_id CAPABILITY_DPDK l
      else if bool_decide (run_backend r = "af_xdp"%string) then insert_id CAPABILITY_AF_XDP l
      else if bool_decide (run_backend r = "rio"%string) then insert_id CAPABILITY_RIO l else l) <->
    id = CAPABILITY_DPDK /\ run_backend r = "dpdk"%string \/
    id = CAPABILITY_AF_XDP /\ run_backend r = "af_xdp"%string \/
    id = CAPABILITY_RIO /\ run_backend r = "rio"%string \/ id ∈ l).
  { intros l. repeat case_bool_decide; rewrite ?insert_id_elem; intuition congruence. }
  assert (Hload : forall l, id ∈ (if latency_under_load r
      then insert_id CAPABILITY_LATENCY_UNDER_LOAD (insert_id CAPABILITY_LATENCY l) else l) <->
    (id = CAPABILITY_LATENCY \/ id = CAPABILITY_LATENCY_UNDER_LOAD) /\ latency_under_load r = true \/ id ∈ l).
  { intros l. destruct (latency_under_load r); rewrite ?insert_id_elem; intuition discriminate. }
  rewrite Hload, when_elem, Hbackend, when_elem, bool_decide_eq_true, Hsize, Hfirst. tauto.
Qed.

(** ** Plans are exact. *)

(** Unique IDs, and ranges that start at 1 or higher. *)
Definition well_formed (remote : list CapabilityMessage) : Prop :=
  NoDup (map capability_id remote) /\
  Forall (fun c => capability_min_version c <> 0 /\
    capability_min_version c <= capability_max_version c /\ capability_max_version c <> 0) remote.

Definition offered (id : Z) (remote : list CapabilityMessage) : Prop :=
  exists c, c ∈ remote /\ capability_id c = id /\ capability_available c = true /\
    capability_min_version c <= 1 <= capability_max_version c.

Lemma provides_iff id c : provides id c = true <-> capability_id c = id /\ capability_available c = true /\
  capability_min_version c <= 1 <= capability_max_version c.
Proof.
  unfold provides, REQUIRED_CAPABILITY_VERSION. rewrite !andb_true_iff, Z.eqb_eq, !Z.leb_le. tauto.
Qed.

Lemma check_remote_spec seen remote : check_remote seen remote = Ok tt <->
  well_formed remote /\ forall c, c ∈ remote -> capability_id c ∉ seen.
Proof.
  unfold well_formed. revert seen. induction remote as [|c remote IH]; intros seen; simpl.
  { split; [|done]. intros _. split_and!; [constructor|constructor|set_solver]. }
  rewrite NoDup_cons, Forall_cons. case_bool_decide as Hc.
  { split; [done|]. intros [_ H]. destruct (H c); [set_solver|done]. }
  destruct (Z.eqb_spec (capability_min_version c) 0); [by split; [|intros [[_ [[? _] _]] _]]|].
  destruct (Z.ltb_spec (capability_max_version c) (capability_min_version c));
    [split; [done|intros [[_ [[? [? _]] _]] _]; lia]|].
  destruct (Z.eqb_spec (capability_max_version c) 0); [by split; [|intros [[_ [[? [? ?]] _]] _]]|].
  simpl. rewrite IH. rewrite (list_elem_of_In (map capability_id remote)), in_map_iff.
  split.
  - intros [[Hnd Hf] Hs]. split_and!; try done.
    + intros (c'&He&Hin%list_elem_of_In). apply (Hs c' Hin). rewrite He. set_solver.
    + intros c' [->|Hin]%elem_of_cons; [done|]. specialize (Hs c' Hin). set_solver.
  - intros [[[Hn Hnd] [_ Hf]] Hs]. split; [done|]. intros c' Hin [He|Hs']%elem_of_cons.
    + apply Hn. exists c'. split; [done|]. by apply list_elem_of_In.
    + apply (Hs c'); [set_solver|done].
Qed.

Lemma check_required_spec ids remote : check_required ids remote = Ok tt <->
  forall id, id ∈ ids -> offered id remote.
Proof.
  induction ids as [|id ids IH]; simpl; [by split; [intros _ id Hid%elem_of_nil|]|].
  destruct (existsb (provides id) remote) eqn:He.
  - apply existsb_exists in He as (c&Hc%list_elem_of_In&Hp%provides_iff). rewrite IH.
    split; [intros H i [->|Hi]%elem_of_cons; [by exists c|by apply H]|].
    intros H i Hi. apply H. set_solver.
  - split; [done|]. intros H. destruct (H id) as (c&Hc&Hp); [set_solver|].
    enough (existsb (provides id) remote = true) by congruence.
    apply existsb_exists. exists c. by split; [apply list_elem_of_In|apply provides_iff].
Qed.

Lemma validate_capabilities_spec ids remote : validate_capabilities ids remote = Ok tt <->
  well_formed remote /\ forall id, id ∈ ids -> offered id remote.
Proof.
  unfold validate_capabilities. destruct (check_remote [] remote) as [[]|e|] eqn:H; simpl.
  - apply check_remote_spec in H as [H _]. rewrite check_required_spec. tauto.
  - split; [done|]. intros [Hw _].
    enough (check_remote [] remote = Ok tt) by congruence. apply check_remote_spec. set_solver.
  - split; [done|]. intros [Hw _].
    enough (check_remote [] remote = Ok tt) by congruence. apply check_remote_spec. set_solver.
Qed.

Lemma lt_nodup l : StronglySorted Z.lt l -> NoDup l.
Proof.
  induction 1 as [|x l _ IH Hx]; constructor; [|done].
  intros Hin. rewrite Forall_forall in Hx. specialize (Hx x Hin). lia.
Qed.

(** The data-plane ports that a protocol and a direction need. *)
Definition ports_bound (r : SpeedRunRequest) (ports : LocalDataPlanePorts) : Prop :=
  match run_protocol r with
  | TcpSpeed => run_direction r <> Upload -> receive_port ports <> 0
  | UdpSpeed => (run_direction r <> Upload -> receive_port ports <> 0) /\
      (run_direction r <> Download -> send_port ports <> 0)
  | RawSpeed => send_port ports = 0 /\ receive_port ports = 0
  end.

Lemma plan_spec r operation session_id ports remote plan :
  plan_speed_session r operation session_id ports remote = Ok plan <->
  validate_run r = Ok tt /\ trimmed_empty operation = false /\ session_id <> zero_id /\
  ports_bound r ports /\ well_formed remote /\ (forall id, needs r id -> offered id remote) /\
  StronglySorted Z.lt (required plan) /\ (forall id, id ∈ required plan <-> needs r id) /\
  plan_prepare plan = prepare_message r operation session_id ports.
Proof.
  unfold plan_speed_session, ports_bound, sends, receives. set (ids := required_capabilities r).
  assert (Hplan : forall p, validate_capabilities ids remote = Ok tt ->
    (Ok {| required := ids; plan_prepare := p |} = Ok plan :> res _ <->
     well_formed remote /\ (forall id, needs r id -> offered id remote) /\
     StronglySorted Z.lt (required plan) /\ (forall id, id ∈ required plan <-> needs r id) /\
     plan_prepare plan = p)).
  { intros p [Hw Ho]%validate_capabilities_spec. split.
    - intros [= <-]. simpl. split_and!; try done; [|apply required_sorted|apply required_needs].
      intros id Hid. by apply Ho, required_needs.
    - intros (_&_&Hs&Hn&<-). destruct plan as [l p]. simpl in *. f_equal. f_equal.
      eapply (StronglySorted_unique_strong Z.lt); [intros; lia|apply required_sorted|done|].
      apply NoDup_Permutation; [apply lt_nodup, required_sorted|by apply lt_nodup|].
      intros id. rewrite Hn. apply required_needs. }
  destruct (validate_run r) as [[]|e|]; simpl; [|by split; [|intros [? _]]..].
  destruct (trimmed_empty operation); simpl; [by split; [|intros (_&?&_)]|].
  case_bool_decide as Hid; [by split; [|intros (_&_&?&_)]|].
  destruct (Z.eqb_spec (send_port ports) 0) as [Hs|Hs], (Z.eqb_spec (receive_port ports) 0) as [Hr|Hr];
    destruct (run_protocol r), (run_direction r); simpl;
    try (split; [done|]; intros (_&_&_&Hb&_); naive_solver);
    (destruct (validate_capabilities ids remote) as [[]|e|] eqn:Hv; simpl;
     [rewrite Hplan by done; naive_solver| |];
     (split; [done|]; intros (_&_&_&_&Hw&Ho&_);
      enough (validate_capabilities ids remote = Ok tt) by congruence;
      apply validate_capabilities_spec; split; [done|];
      intros id Hin; by apply Ho, required_needs)).
Qed.

(** A plan is made exactly for a valid request with usable IDs and the ports
    that its protocol and direction need, when the remote node announces
    consistent capabilities and offers at version 1 everything that the request
    needs; it then requires exactly that, in order and once, and the message is the
    request's. *)
Theorem plan_exact r operation session_id ports remote plan :
  plan_speed_session r operation session_id ports remote = Ok plan <->
  validate_run r = Ok tt /\ trimmed_empty operation = false /\ session_id <> zero_id /\
  ports_bound r ports /\ well_formed remote /\ (forall id, needs r id -> offered id remote) /\
  StronglySorted Z.lt (required plan) /\ (forall id, id ∈ required plan <-> needs r id) /\
  plan_prepare plan = prepare_message r operation session_id ports.
Proof. apply plan_spec. Qed.
