(* ===== verification/NodeServer.v ===== *)
(** * The control service of a node

    Model of [crates/node/src/server.rs]: the dispatcher of one authenticated
    control connection on the shared session coordinator. The code takes the
    coordinator's lock once per call; [Host] is what the operating system
    answers while one request is handled. *)

From stdpp Require Import base list strings gmap.
From Stdlib Require Import ZArith Lia.
From S2P Require Import Prelude ErrorModel Resource UdpProtocol TcpEngine NodeProtocol Session SessionOps SessionRuns SpeedRun Planner.
Open Scope Z_scope.

Definition DEFAULT_TCP_PAYLOAD_BYTES : Z := 64 * 1024.
Definition DEFAULT_UDP_DATAGRAM_BYTES : Z := 1200.
Definition DEFAULT_UDP_IDLE_TIMEOUT_MILLISECONDS : Z := 2000.

(** [client.rs]: the identity of the local node. *)
Record LocalNodeIdentity := { local_node_id : bytes; local_name : string }.

Record NodeControlService := {
  local_identity : LocalNodeIdentity;
  expected_peer_node_id : bytes;
  peer_address : IpAddr;
  service_bind_address : IpAddr;
  service_minor : option Z;
  dpdk_available : bool;
}.

Definition with_coordinator_and_dpdk (local : LocalNodeIdentity) (peer : bytes)
    (address bind : IpAddr) (dpdk : bool) : NodeControlService :=
  {| local_identity := local; expected_peer_node_id := peer; peer_address := address;
     service_bind_address := bind; service_minor := None; dpdk_available := dpdk |}.

(** The service and the coordinator behind its [Arc<Mutex<_>>]. *)
Abbreviation server A := (method (NodeControlService * SessionCoordinator) A).

Definition service : server NodeControlService := fun s => (s, Ok s.1).
Definition set_minor (n : Z) : server unit := fun s =>
  (({| local_identity := local_identity s.1; expected_peer_node_id := expected_peer_node_id s.1;
       peer_address := peer_address s.1; service_bind_address := service_bind_address s.1;
       service_minor := Some n; dpdk_available := dpdk_available s.1 |}, s.2), Ok tt).

Definition with_coordinator {A} (m : op A) : server A := fun s =>
  let '(c, o) := m s.2 in ((s.1, c), o).

(** The authorization of a session, as a query. *)
Definition query_authorization (id : bytes) : server (option DataPlaneAuthorization) :=
  with_coordinator (gets (fun c => session_authorization c id)).

(** ** Requests. *)

Definition validate_envelope (e : Envelope) : res unit :=
  if negb (protocol_major e =? PROTOCOL_MAJOR) || (PROTOCOL_MINOR <? protocol_minor e)
  then err ProtocolIncompatible "control request protocol version is incompatible"
  else if negb (len (envelope_request_id e) =? 16) || forallb (Z.eqb 0) (envelope_request_id e)
  then protocol "control request ID must be non-zero 128-bit bytes"
  else Ok tt.

Definition parse_session_id (value : bytes) : res bytes :=
  if negb (len value =? 16) then protocol "session ID must be 128-bit bytes"
  else if bool_decide (value = zero_id) then protocol "session ID must not be zero"
  else Ok value.

Definition authorization_ttl (q : PrepareTest) : res Z :=
  let overflow := new_error InvalidArgument "test duration overflow" false in
  let? total := ok_or (checked_add 64 (warmup_ms q) (duration_ms q)) overflow in
  let? total := ok_or (checked_add 64 total (cooldown_ms q)) overflow in
  let? total := ok_or (checked_add 64 total 999) overflow in
  Ok (Z.max 10 (Z.min 3600 (sat_add 64 (total / 1000) 10))).

Definition runtime_capabilities (dpdk : bool) : list CapabilityMessage :=
  map (fun c => {| capability_id := c.1; capability_min_version := 1; capability_max_version := 1;
                   capability_available := c.2 |})
    [(CAPABILITY_TCP_SPEED, true); (CAPABILITY_UDP_SPEED, true); (CAPABILITY_DPDK, dpdk);
     (CAPABILITY_RAW_PACKET_GENERATOR, dpdk)].

Definition state_name (s : NodeConnectionState) : string :=
  match s with
  | TestReady => "TEST_READY"
  | Running => "RUNNING"
  | Finalizing => "FINALIZING"
  | Completed => "COMPLETED"
  | Canceled => "CANCELED"
  | _ => "FAILED"
  end.

Definition protocol_error (e : NetToolError) : ProtocolError :=
  {| error_code := as_str (code e); error_message := ErrorModel.message e; error_retryable := retryable e |}.

(** [u16::try_from]. *)
Definition to_u16 (x : Z) (m : string) : res Z :=
  if x <=? umax 16 then Ok x else SpeedRun.invalid m.

Definition response (data_port : Z) (tag : string) (source_port : Z) : PrepareTestResponse :=
  {| ready := true; response_data_port := data_port; response_authorization_tag := tag;
     response_source_data_port := source_port |}.

(** [(rate != 0).then_some(rate)]. *)
Definition target_rate (q : PrepareTest) : option Z :=
  if target_rate_bps q =? 0 then None else Some (target_rate_bps q).

Definition handle_hello (hello : HelloRequest) : server ControlMessage :=
  let! s := service in
  if SpeedRun.given (service_minor s)
  then m_ret (protocol "Hello cannot be repeated on an active connection")
  else if negb (bool_decide (hello_node_id hello = expected_peer_node_id s))
  then m_ret (err NodeTlsFailed "Hello Node ID does not match the authenticated peer")
  else if trimmed_empty (hello_node_name hello) || (max_minor hello <? min_minor hello)
          || (PROTOCOL_MINOR <? min_minor hello)
  then m_ret (err ProtocolIncompatible "Hello version range or Node name is invalid")
  else
    let selected := Z.min (max_minor hello) PROTOCOL_MINOR in
    let! _ := set_minor selected in
    m_ret (Ok (MHelloResponse {|
      selected_minor := selected; responder_node_id := local_node_id (local_identity s);
      responder_node_name := local_name (local_identity s) |})).

Section Prepare.
Context {HO : HashOrder string Reservation}.

Definition handle_tcp_prepare (h : Host) (q : PrepareTest) (id : bytes) (now ttl : Z) :
    server PrepareTcpResponse :=
  let! s := service in
  let! streams := m_ret (to_u16 (Z.max (streams q) 1) "TCP stream count is too large") in
  let config := {|
    TcpEngine.streams := streams;
    TcpEngine.payload_bytes := Z.max (payload_size q) DEFAULT_TCP_PAYLOAD_BYTES;
    TcpEngine.warmup_milliseconds := warmup_ms q;
    TcpEngine.measurement_milliseconds := duration_ms q |} in
  if bool_decide (direction q = "upload"%string) then
    with_coordinator (prepare_tcp h {|
      pt_session_id := id; pt_operation_id := prepare_operation_id q;
      pt_source_node_id := expected_peer_node_id s; pt_source_address := peer_address s;
      pt_bind_address := socket_addr (service_bind_address s) 0; pt_config := config;
      pt_authorization_ttl_seconds := ttl |} now)
  else
    let! port := m_ret (to_u16 (receive_data_port q) "TCP receiver port is outside the valid range") in
    if port =? 0 then m_ret (SpeedRun.invalid "TCP download requires a pre-bound receiver port")
    else if bool_decide (direction q = "bidirectional"%string) then
      with_coordinator (prepare_tcp_bidirectional h {|
        ptb_session_id := id; ptb_operation_id := prepare_operation_id q;
        ptb_source_node_id := expected_peer_node_id s; ptb_source_address := peer_address s;
        ptb_bind_address := socket_addr (service_bind_address s) 0;
        ptb_destination := socket_addr (peer_address s) port; ptb_config := config;
        ptb_authorization_ttl_seconds := ttl |} now)
    else
      with_coordinator (prepare_tcp_sender h {|
        pts_session_id := id; pts_operation_id := prepare_operation_id q;
        pts_source_node_id := local_node_id (local_identity s);
        pts_source_address := service_bind_address s;
        pts_destination := socket_addr (peer_address s) port; pts_config := config;
        pts_authorization_ttl_seconds := ttl |} now).

(** The three UDP branches of [handle_prepare]. *)
Definition handle_udp_bidirectional (h : Host) (q : PrepareTest) (id : bytes) (now ttl : Z) :
    server PrepareTestResponse :=
  let! s := service in
  let! source_port := m_ret (to_u16 (source_data_port q) "UDP source port is outside the valid range") in
  let! receive_port := m_ret (to_u16 (receive_data_port q) "UDP receiver port is outside the valid range") in
  if (source_port =? 0) || (receive_port =? 0)
  then m_ret (SpeedRun.invalid "UDP bidirectional requires pre-bound source and receiver ports")
  else
    let! r := with_coordinator (prepare_udp_bidirectional h {|
      pub_session_id := id; pub_operation_id := prepare_operation_id q;
      pub_source_node_id := expected_peer_node_id s;
      pub_source_address := socket_addr (peer_address s) source_port;
      pub_bind_address := service_bind_address s;
      pub_destination := socket_addr (peer_address s) receive_port; pub_stream_id := 0;
      pub_datagram_bytes := Z.max (payload_size q) DEFAULT_UDP_DATAGRAM_BYTES;
      pub_measurement_milliseconds := duration_ms q; pub_target_bits_per_second := target_rate q;
      pub_authorization_ttl_seconds := ttl |} now) in
    let! a := query_authorization id in
    m_ret (Ok (response (udp_data_port r) (udp_authorization_tag r)
                 (match a with Some a => destination_port a | None => 0 end))).

Definition handle_udp_download (h : Host) (q : PrepareTest) (id : bytes) (now ttl : Z) :
    server PrepareTestResponse :=
  let! s := service in
  let! receive_port := m_ret (to_u16 (receive_data_port q) "UDP receiver port is outside the valid range") in
  if receive_port =? 0
  then m_ret (SpeedRun.invalid "UDP download requires a pre-bound receiver port")
  else
    let! r := with_coordinator (prepare_udp_sender h {|
      pus_session_id := id; pus_operation_id := prepare_operation_id q;
      pus_source_node_id := local_node_id (local_identity s);
      pus_source_address := service_bind_address s;
      pus_destination := socket_addr (peer_address s) receive_port; pus_stream_id := 0;
      pus_datagram_bytes := Z.max (payload_size q) DEFAULT_UDP_DATAGRAM_BYTES;
      pus_measurement_milliseconds := duration_ms q; pus_target_bits_per_second := target_rate q;
      pus_authorization_ttl_seconds := ttl |} now) in
    let! a := query_authorization id in
    m_ret (Ok (response 0 (udp_authorization_tag r)
                 (default 0 (a ≫= source_port)))).

Definition handle_udp_upload (h : Host) (q : PrepareTest) (id : bytes) (now ttl : Z) :
    server PrepareTestResponse :=
  let! s := service in
  let! port := m_ret (to_u16 (source_data_port q) "UDP source port is outside the valid range") in
  let! r := with_coordinator (prepare_udp h {|
    pu_session_id := id; pu_operation_id := prepare_operation_id q;
    pu_source_node_id := expected_peer_node_id s;
    pu_source_address := socket_addr (peer_address s) port;
    pu_bind_address := socket_addr (service_bind_address s) 0; pu_stream_id := 0;
    pu_maximum_datagram_bytes := Z.max (payload_size q) DEFAULT_UDP_DATAGRAM_BYTES;
    pu_idle_timeout_milliseconds := DEFAULT_UDP_IDLE_TIMEOUT_MILLISECONDS;
    pu_authorization_ttl_seconds := ttl |} now) in
  m_ret (Ok (response (udp_data_port r) (udp_authorization_tag r) 0)).

(** The DPDK branch: [authorization] does not find the session it just made. *)
Definition handle_dpdk_prepare (h : Host) (q : PrepareTest) (id : bytes) (now ttl : Z) :
    server PrepareTestResponse :=
  let! s := service in
  if negb (bool_decide (direction q = "upload"%string))
  then m_ret (err Unsupported "DPDK raw receiver is currently supported for upload only")
  else
    let! _ := with_coordinator (prepare_dpdk_receiver h {|
      pd_session_id := id; pd_operation_id := prepare_operation_id q;
      pd_source_node_id := expected_peer_node_id s;
      pd_pci_address := remote_accelerated_pci_address q;
      pd_duration_milliseconds := duration_ms q; pd_remote_mac_address := NodeProtocol.remote_mac_address q;
      pd_authorization_ttl_seconds := ttl |} now) in
    let! a := query_authorization id in
    m_ret (Ok (response 0 (match a with Some a => authorization_tag a | None => "" end) 0)).

Definition handle_prepare (h : Host) (q : PrepareTest) (now_nanoseconds : Z) : server ControlMessage :=
  let! id := m_ret (parse_session_id (prepare_session_id q)) in
  let! s := service in
  let dpdk := bool_decide (backend q = "dpdk"%string) in
  let raw := bool_decide (test_type q = "raw"%string) in
  if negb (one_of (direction q) ["upload"; "download"; "bidirectional"])
  then m_ret (err Unsupported "unsupported speed direction")
  else if dpdk && negb (dpdk_available s)
  then m_ret (err BackendNotBuilt "Node DPDK runtime is not built")
  else if one_of (backend q) ["dpdk"; "af_xdp"; "rio"] && negb (valid_pci_bdf (accelerated_pci_address q))
  then m_ret (SpeedRun.invalid "accelerated prepare requires a valid PCI BDF")
  else if dpdk && negb (valid_pci_bdf (remote_accelerated_pci_address q))
  then m_ret (SpeedRun.invalid "DPDK prepare requires a valid remote PCI BDF")
  else if dpdk && raw && negb (valid_unicast_mac (NodeProtocol.remote_mac_address q))
  then m_ret (SpeedRun.invalid "DPDK raw prepare requires a valid remote unicast MAC")
  else
    let now := now_nanoseconds / 1000000000 in
    let! ttl := m_ret (authorization_ttl q) in
    let socket := one_of (backend q) ["socket"; "native"] in
    let! r :=
      (if dpdk && raw then handle_dpdk_prepare h q id now ttl
       else if bool_decide (test_type q = "tcp"%string) && socket then
         let! r := handle_tcp_prepare h q id now ttl in
         m_ret (Ok (response (tcp_data_port r) (tcp_authorization_tag r) 0))
       else if bool_decide (test_type q = "udp"%string) && socket then
         if bool_decide (direction q = "bidirectional"%string) then handle_udp_bidirectional h q id now ttl
         else if negb (bool_decide (direction q = "upload"%string)) then handle_udp_download h q id now ttl
         else handle_udp_upload h q id now ttl
       else m_ret (err Unsupported "test type/backend is not available in the socket Node runtime")) in
    m_ret (Ok (MPrepareTestResponse r)).

(** ** The dispatcher. *)

Definition status (id : bytes) (s : NodeConnectionState) : ControlMessage :=
  MTestStatus {| status_session_id := id; status_state := state_name s |}.

Definition dispatch_message (h : Host) (e : Envelope) (now : Z) : server ControlMessage :=
  let! _ := m_ret (validate_envelope e) in
  match message e with
  | None => m_ret (protocol "control request has no message")
  | Some (MHelloRequest hello) => handle_hello hello
  | Some m =>
      let! s := service in
      match service_minor s with
      | None => m_ret (protocol "Hello must complete before control commands")
      | Some minor =>
          if minor <? protocol_minor e
          then m_ret (err ProtocolIncompatible "control request exceeds the negotiated protocol minor")
          else
            match m with
            | MCapabilityRequest =>
                m_ret (Ok (MCapabilityResponse {| capabilities := runtime_capabilities (dpdk_available s) |}))
            | MPrepareTest q => handle_prepare h q now
            | MStartTest q =>
                let! id := m_ret (parse_session_id (start_session_id q)) in
                let! st := with_coordinator
                             (start id (start_operation_id q) (start_at_unix_nanoseconds q) now) in
                m_ret (Ok (status id st))
            | MStopTest q =>
                let! id := m_ret (parse_session_id (stop_session_id q)) in
                let! st := with_coordinator (stop id (stop_operation_id q)) in
                m_ret (Ok (status id st))
            | MTestResultRequest q =>
                let! id := m_ret (parse_session_id (query_session_id q)) in
                let! r := with_coordinator (fun c => (c, test_result c id)) in
                m_ret (Ok (MTestResult r))
            | MPing p => m_ret (Ok (MPong {| pong_nonce := ping_nonce p |}))
            | _ => m_ret (protocol "message type is not valid as a server request")
            end
      end
  end.

Definition dispatch (h : Host) (e : Envelope) (now : Z) : server Envelope := fun s =>
  let '(s, o) := dispatch_message h e now s in
  let reply m := {|
    protocol_major := PROTOCOL_MAJOR;
    protocol_minor := default PROTOCOL_MINOR (service_minor s.1);
    envelope_request_id := envelope_request_id e;
    message := Some m |} in
  match o with
  | Ok m => (s, Ok (reply m))
  | Err er => (s, Ok (reply (MError (protocol_error er))))
  | Panic => (s, Panic)
  end.
End Prepare.
