(* ===== verification/NodeService.v ===== *)
(** * The control service: what a connection can do

    Every request acts on the coordinator through at most one of its calls, so
    what [SessionProps] and [SessionRetry] prove of histories of calls holds for a
    node that serves any number of connections; and a connection does nothing
    before its peer introduced itself. *)

From stdpp Require Import base list strings gmap.
From Stdlib Require Import ZArith Lia.
From S2P Require Import Prelude ErrorModel Resource UdpProtocol TcpEngine NodeProtocol Session SessionOps SessionRuns SessionTotal SessionInv SessionSample SpeedRun Planner NodeServer.
Open Scope Z_scope.

Section Calls.
Context {HO : HashOrder string Reservation} {RJ : ResultJson}.

(** Session IDs on the wire: sixteen bytes, not all zero. *)
Definition wire_id (id : bytes) : Prop := len id = 16 /\ id <> zero_id.

(** A method of the service acts through at most one call on the coordinator,
    with the answers of [h], for the session [id] of the request; it keeps the
    service. *)
Definition acts {A} (h : Host) (id : bytes) (m : server A) : Prop := forall s c,
  let '((s', c'), o) := m (s, c) in
  s' = s /\ (c' = c \/
    exists k, c' = (exec k c).1 /\ call_session k = id /\ wire_id id /\
      forall h', call_host k = Some h' -> h' = h).

Definition reads {A} (m : server A) : Prop := forall s c,
  let '((s', c'), o) := m (s, c) in s' = s /\ c' = c.

Lemma reads_ret {A} (o : res A) : reads (m_ret o).
Proof. done. Qed.
Lemma reads_service : reads service.
Proof. done. Qed.
Lemma reads_query id : reads (query_authorization id).
Proof. done. Qed.
Lemma reads_acts {A} h id (m : server A) : reads m -> acts h id m.
Proof. intros Hm s c. specialize (Hm s c). destruct (m (s, c)) as [[s' c'] o]. naive_solver. Qed.

Lemma acts_then_reads {A B} h id (m : server A) (n : A -> server B) :
  acts h id m -> (forall a, reads (n a)) -> acts h id (m_bind m n).
Proof.
  intros Hm Hn s c. unfold m_bind. specialize (Hm s c). destruct (m (s, c)) as [[s' c'] [a|e|]]; try done.
  specialize (Hn a s' c'). destruct (n a (s', c')) as [[s'' c''] o]. naive_solver.
Qed.

Lemma reads_then_acts {A B} h id (m : server A) (n : A -> server B) :
  reads m -> (forall a, acts h id (n a)) -> acts h id (m_bind m n).
Proof.
  intros Hm Hn s c. unfold m_bind. specialize (Hm s c). destruct (m (s, c)) as [[s' c'] [a|e|]];
    [|naive_solver..].
  destruct Hm as [-> ->]. apply Hn.
Qed.

Lemma reads_bind {A B} (m : server A) (n : A -> server B) :
  reads m -> (forall a, reads (n a)) -> reads (m_bind m n).
Proof.
  intros Hm Hn s c. unfold m_bind. specialize (Hm s c). destruct (m (s, c)) as [[s' c'] [a|e|]]; try done.
  destruct Hm as [-> ->]. apply Hn.
Qed.

Lemma acts_call {A} h (f : A -> Response) k (m : op A) :
  exec k = m_map f m -> wire_id (call_session k) -> (forall h', call_host k = Some h' -> h' = h) ->
  acts h (call_session k) (with_coordinator m).
Proof.
  intros Hk Hid Hh s c. unfold with_coordinator. simpl. destruct (m c) as [c' o] eqn:Hm.
  split; [done|]. right. exists k. split; [|done]. rewrite Hk. unfold m_map, m_bind, m_ret. rewrite Hm.
  by destruct o.
Qed.

Lemma parse_session_id_wire v id : parse_session_id v = Ok id -> id = v /\ wire_id v.
Proof.
  unfold parse_session_id. destruct (Z.eqb_spec (len v) 16); simpl; [|done].
  case_bool_decide; [done|]. by intros [= <-].
Qed.

(** Continue after a parsed session ID. *)
Lemma acts_parse {B} h v (n : bytes -> server B) :
  (wire_id v -> acts h v (n v)) -> acts h v (m_bind (m_ret (parse_session_id v)) n).
Proof.
  intros Hn s c. unfold m_bind, m_ret. destruct (parse_session_id v) as [id|e|] eqn:Hp; [|naive_solver..].
  apply parse_session_id_wire in Hp as [-> Hw]. by apply Hn.
Qed.
End Calls.

#[export] Hint Resolve reads_ret reads_service reads_query : session.

(** Walk along a method of the service to its call. *)
Ltac acting :=
  repeat first
    [ progress (intros; cbv beta)
    | solve [apply reads_acts; auto with session]
    | solve [auto with session]
    | match goal with
      | |- acts ?h _ (with_coordinator (prepare_tcp _ ?q ?n)) => apply (acts_call h AckTcp (CPrepareTcp h q n))
      | |- acts ?h _ (with_coordinator (prepare_tcp_sender _ ?q ?n)) =>
          apply (acts_call h AckTcp (CPrepareTcpSender h q n))
      | |- acts ?h _ (with_coordinator (prepare_tcp_bidirectional _ ?q ?n)) =>
          apply (acts_call h AckTcp (CPrepareTcpBidirectional h q n))
      | |- acts ?h _ (with_coordinator (prepare_udp _ ?q ?n)) => apply (acts_call h AckUdp (CPrepareUdp h q n))
      | |- acts ?h _ (with_coordinator (prepare_udp_sender _ ?q ?n)) =>
          apply (acts_call h AckUdp (CPrepareUdpSender h q n))
      | |- acts ?h _ (with_coordinator (prepare_udp_bidirectional _ ?q ?n)) =>
          apply (acts_call h AckUdp (CPrepareUdpBidirectional h q n))
      | |- acts ?h _ (with_coordinator (prepare_dpdk_receiver _ ?q ?n)) =>
          apply (acts_call h AckPlan (CPrepareDpdk h q n))
      | |- acts ?h _ (with_coordinator (start ?id ?o ?a ?n)) => apply (acts_call h AckState (CStart id o a n))
      | |- acts ?h _ (with_coordinator (stop ?id ?o)) => apply (acts_call h AckState (CStop id o))
      end; [done|assumption|simpl; congruence]
    | apply reads_then_acts; [solve [auto with session]|]
    | apply acts_then_reads; [|solve [repeat first [progress intros; cbv beta | solve [auto with session]
        | apply reads_bind | progress case_match]]]
    | progress case_match ].

Section Service.
Context {HO : HashOrder string Reservation} {RJ : ResultJson}.

Lemma handle_prepare_acts h q now : acts h (prepare_session_id q) (handle_prepare h q now).
Proof.
  unfold handle_prepare. apply acts_parse. intros Hid.
  unfold handle_dpdk_prepare, handle_tcp_prepare, handle_udp_bidirectional, handle_udp_download,
    handle_udp_upload. acting.
Qed.

(** The session that a request is about. *)
Definition message_session (e : Envelope) : bytes :=
  match message e with
  | Some (MPrepareTest q) => prepare_session_id q
  | Some (MStartTest q) => start_session_id q
  | Some (MStopTest q) => stop_session_id q
  | Some (MTestResultRequest q) => query_session_id q
  | _ => []
  end.

Lemma dispatch_message_acts h e now :
  (forall hello, message e <> Some (MHelloRequest hello)) ->
  acts h (message_session e) (dispatch_message h e now).
Proof.
  intros Hh. unfold dispatch_message, message_session.
  apply reads_then_acts; [auto with session|]. intros _.
  destruct (message e) as [[]|]; try (by destruct (Hh m)); try (by apply reads_acts);
    (apply reads_then_acts; [auto with session|]); intros s; destruct (service_minor s) as [n|];
    try (by apply reads_acts); (case_match; [by apply reads_acts|]); try (by apply reads_acts).
  - apply handle_prepare_acts.
  - apply acts_parse. acting.
  - apply acts_parse. acting.
  - apply acts_parse. intros _. apply reads_acts. apply reads_bind; [done|]. auto with session.
Qed.

(** ** Totality. *)

Lemma with_total {A} (m : op A) : total m -> total (with_coordinator m).
Proof. intros Hm [s c]. unfold with_coordinator. specialize (Hm c). simpl. by destruct (m c). Qed.

Lemma unmap_total {A} (f : A -> Response) (m : op A) : total (m_map f m) -> total m.
Proof.
  intros H c Hp. apply (H c). unfold m_map, m_bind. destruct (m c) as [c' o]. simpl in Hp. by subst o.
Qed.

Lemma service_total : total service.
Proof. done. Qed.
Lemma query_total id : total (query_authorization id).
Proof. by intros [s c]. Qed.
Lemma parse_session_id_total v : parse_session_id v <> Panic.
Proof. unfold parse_session_id, protocol. by_cases. Qed.
Lemma to_u16_total x m : to_u16 x m <> Panic.
Proof. unfold to_u16, SpeedRun.invalid. by_cases. Qed.
Lemma authorization_ttl_total q : authorization_ttl q <> Panic.
Proof. unfold authorization_ttl. by repeat (destruct (checked_add _ _ _); simpl; [|done]). Qed.
Lemma prepare_calls_total h now :
  (forall q, total (prepare_tcp h q now)) /\ (forall q, total (prepare_tcp_sender h q now)) /\
  (forall q, total (prepare_tcp_bidirectional h q now)) /\ (forall q, total (prepare_udp h q now)) /\
  (forall q, total (prepare_udp_sender h q now)) /\ (forall q, total (prepare_udp_bidirectional h q now)) /\
  (forall q, total (prepare_dpdk_receiver h q now)).
Proof.
  split_and!; intros q; eapply unmap_total.
  - exact (exec_total (CPrepareTcp h q now)).
  - exact (exec_total (CPrepareTcpSender h q now)).
  - exact (exec_total (CPrepareTcpBidirectional h q now)).
  - exact (exec_total (CPrepareUdp h q now)).
  - exact (exec_total (CPrepareUdpSender h q now)).
  - exact (exec_total (CPrepareUdpBidirectional h q now)).
  - exact (exec_total (CPrepareDpdk h q now)).
Qed.
Hint Resolve with_total service_total query_total parse_session_id_total to_u16_total
  authorization_ttl_total : total.

Lemma handle_prepare_total h q now : total (handle_prepare h q now).
Proof.
  destruct (prepare_calls_total h (now / 1000000000)) as (?&?&?&?&?&?&?).
  unfold handle_prepare, handle_dpdk_prepare, handle_tcp_prepare, handle_udp_bidirectional,
    handle_udp_download, handle_udp_upload. returning.
Qed.

Lemma handle_hello_total hello : total (handle_hello hello).
Proof. unfold handle_hello, protocol, set_minor. by intros [s c]; unfold m_bind, service, m_ret, err; simpl; by_cases. Qed.

Lemma dispatch_message_total h e now : total (dispatch_message h e now).
Proof.
  unfold dispatch_message, protocol. apply total_bind; [apply total_ret; unfold validate_envelope, protocol; by_cases|].
  intros _. destruct (message e) as [[]|]; try apply handle_hello_total; try (by returning);
    apply total_bind; auto with total; intros s; (destruct (service_minor s); [|by returning]);
    (case_match; [by returning|]); try (by returning); try apply handle_prepare_total; returning.
  - apply with_total, start_total.
  - apply with_total, stop_total.
  - apply with_total. intros c. unfold test_result. simpl. by_cases.
Qed.
End Service.

(** ** A connection is guarded by its introduction. *)

(** The service after an accepted [Hello]. *)
Definition introduced (n : Z) (s : NodeControlService) : NodeControlService :=
  {| local_identity := local_identity s; expected_peer_node_id := expected_peer_node_id s;
     peer_address := peer_address s; service_bind_address := service_bind_address s;
     service_minor := Some n; dpdk_available := dpdk_available s |}.

(** A [Hello] of the authenticated peer, and the version that it selects. *)
Definition introduces (s : NodeControlService) (e : Envelope) (n : Z) : Prop :=
  exists hello, message e = Some (MHelloRequest hello) /\ service_minor s = None /\
    hello_node_id hello = expected_peer_node_id s /\ min_minor hello <= n /\
    n = Z.min (max_minor hello) PROTOCOL_MINOR.

Lemma hello_or_not e : (exists hello, message e = Some (MHelloRequest hello)) \/
  (forall hello, message e <> Some (MHelloRequest hello)).
Proof. destruct (message e) as [[]|]; try (by right); by left; eexists. Qed.

Section Guard.
Context {HO : HashOrder string Reservation} {RJ : ResultJson}.

Lemma validate_envelope_inv e : validate_envelope e = Ok tt ->
  protocol_minor e <= PROTOCOL_MINOR /\ len (envelope_request_id e) = 16.
Proof.
  unfold validate_envelope, protocol. destruct (Z.ltb_spec PROTOCOL_MINOR (protocol_minor e));
    rewrite ?orb_true_r, ?orb_false_r; [done|]. case_match; [done|].
  destruct (Z.eqb_spec (len (envelope_request_id e)) 16); simpl; [|done]. by case_match.
Qed.

Lemma handle_hello_cases hello s c :
  (exists er, handle_hello hello (s, c) = ((s, c), Err er)) \/
  service_minor s = None /\ hello_node_id hello = expected_peer_node_id s /\
    let n := Z.min (max_minor hello) PROTOCOL_MINOR in
    min_minor hello <= n /\
    handle_hello hello (s, c) = ((introduced n s, c), Ok (MHelloResponse {|
      selected_minor := n; responder_node_id := local_node_id (local_identity s);
      responder_node_name := local_name (local_identity s) |})).
Proof.
  unfold handle_hello, m_bind, service, m_ret, protocol, err. simpl.
  destruct (service_minor s) as [n|]; simpl; [by left; eexists|].
  case_bool_decide as Hid; simpl; [|by left; eexists].
  destruct (trimmed_empty (hello_node_name hello)); simpl; [by left; eexists|].
  destruct (Z.ltb_spec (max_minor hello) (min_minor hello)); simpl; [by left; eexists|].
  destruct (Z.ltb_spec PROTOCOL_MINOR (min_minor hello)); simpl; [by left; eexists|].
  right. split_and!; [done|done|lia|done].
Qed.

(** A message of a request that is not a [Hello], by the state of the connection. *)
Lemma dispatch_message_closed h e now s c :
  (forall hello, message e <> Some (MHelloRequest hello)) ->
  service_minor s = None \/ (exists n, service_minor s = Some n /\ n < protocol_minor e) ->
  exists er, dispatch_message h e now (s, c) = ((s, c), Err er).
Proof.
  intros Hh Hs. unfold dispatch_message, m_bind, m_ret, service, protocol, err.
  destruct (validate_envelope e) as [[]|er|] eqn:Hv; [|by eexists|].
  2: { unfold validate_envelope, protocol, err in Hv. by repeat case_match. }
  assert (forall n, service_minor s = Some n -> (n <? protocol_minor e) = true) as Hlt.
  { intros n Hn. destruct Hs as [Hs|(n'&Hs&Hlt)]; simplify_eq. by apply Z.ltb_lt. }
  destruct (message e) as [[]|]; try (by destruct (Hh m)); try (by eexists); simpl;
    (destruct (service_minor s) as [n|]; [rewrite (Hlt n eq_refl)|]; by eexists).
Qed.

(** An introduction does not reach the coordinator. *)
Lemma dispatch_hello_keeps h e now s c hello : message e = Some (MHelloRequest hello) ->
  (dispatch h e now (s, c)).1.2 = c.
Proof.
  intros He. unfold dispatch, dispatch_message. rewrite He. unfold m_bind, m_ret.
  destruct (validate_envelope e) as [[]|er|]; [|done..].
  by destruct (handle_hello_cases hello s c) as [(er&->)|(_&_&_&->)].
Qed.
End Guard.

(** C32: the dispatcher answers every request, with the ID of the request and the
    negotiated version; as long as the peer has not introduced itself with the
    node ID of its certificate it reaches nothing: every other request is answered
    with an error and changes neither the connection nor the coordinator; and a
    request above the negotiated version, or a second introduction, is refused. *)
Theorem dispatch_guarded {HO : HashOrder string Reservation} {RJ : ResultJson} (h : Host)
    (e : Envelope) (now : Z) (s : NodeControlService) (c : SessionCoordinator) :
  let '((s', c'), o) := dispatch h e now (s, c) in
  exists reply m, o = Ok reply /\ message reply = Some m /\
    envelope_request_id reply = envelope_request_id e /\ protocol_major reply = PROTOCOL_MAJOR /\
    protocol_minor reply = default PROTOCOL_MINOR (service_minor s') /\
    match service_minor s with
    | None =>
        c' = c /\ (s' = s /\ (exists er, m = MError er) \/
          exists n, introduces s e n /\ s' = introduced n s /\
            exists r, m = MHelloResponse r /\ selected_minor r = n)
    | Some n =>
        s' = s /\ ((n < protocol_minor e \/ exists hello, message e = Some (MHelloRequest hello)) ->
          c' = c /\ exists er, m = MError er)
    end.
Proof.
  pose proof (dispatch_message_total h e now (s, c)) as Ht. unfold dispatch.
  destruct (hello_or_not e) as [[hello He]|Hh].
  - unfold dispatch_message in *. rewrite He in *. unfold m_bind, m_ret in *.
    destruct (validate_envelope e) as [[]|er|]; [| |done].
    2: { eexists _, _. split_and!; try done. simpl. destruct (service_minor s); [|split; [done|]; left; eauto].
         split; [done|]. eauto. }
    destruct (handle_hello_cases hello s c) as [(er&->)|(Hn&Hid&Hmin&->)].
    + eexists _, _. split_and!; try done. simpl. destruct (service_minor s); [|split; [done|]; left; eauto].
      split; [done|]. eauto.
    + eexists _, _. split_and!; try done. simpl. rewrite Hn. split; [done|]. right.
      eexists. split; [exists hello; by split_and!|]. split; [done|]. by eexists.
  - pose proof (dispatch_message_acts h e now Hh s c) as Ha.
    pose proof (dispatch_message_closed h e now s c Hh) as Hc.
    destruct (dispatch_message h e now (s, c)) as [[s' c'] o] eqn:Hd. destruct Ha as [-> Ha].
    destruct (service_minor s) as [n|] eqn:Hn.
    + destruct o as [m|er|]; [| |done]; eexists _, _; (split_and!; try done); simpl.
      * intros [Hlt|(hello&He)]; [|by destruct (Hh hello)].
        destruct Hc as [er Her]; [right; by exists n|]. done.
      * intros [Hlt|(hello&He)]; [|by destruct (Hh hello)].
        destruct Hc as [er' Her]; [right; by exists n|]. injection Her as -> ->. eauto.
    + destruct Hc as [er Her]; [by left|]. injection Her as -> ->.
      eexists _, _. split_and!; try done. simpl. left. eauto.
Qed.

(** ** A node with many connections runs a history. *)

(** What happens to a node: a connection is accepted, a connection delivers a
    request, or a local task (the scheduler, a worker that ended) calls the coordinator. *)
Inductive NodeEvent :=
  | Accept (s : NodeControlService)
  | Deliver (i : nat) (h : Host) (e : Envelope) (now : Z)
  | Task (k : Call).

Record Serving := { connections : list NodeControlService; shared : SessionCoordinator }.

Section Node.
Context {HO : HashOrder string Reservation} {RJ : ResultJson}.

Definition serve (n : Serving) (ev : NodeEvent) : Serving :=
  match ev with
  | Accept s => {| connections := connections n ++ [s]; shared := shared n |}
  | Deliver i h e now =>
      match connections n !! i with
      | None => n
      | Some s =>
          let '((s', c'), _) := dispatch h e now (s, shared n) in
          {| connections := <[i := s']> (connections n); shared := c' |}
      end
  | Task k => {| connections := connections n; shared := (exec k (shared n)).1 |}
  end.

Definition serving (events : list NodeEvent) : Serving :=
  fold_left serve events {| connections := []; shared := new_coordinator |}.

Definition event_ok (ev : NodeEvent) : Prop :=
  match ev with
  | Accept _ => True
  | Deliver _ h e _ => host_ok h /\ bytes_ok (message_session e)
  | Task k => call_ok k
  end.

(** The calls of one event. *)
Lemma serve_calls n ev : event_ok ev -> exists calls, Forall call_ok calls /\
  shared (serve n ev) = fold_left (fun c k => (exec k c).1) calls (shared n).
Proof.
  destruct ev as [s|i h e now|k]; simpl; intros Hok.
  - by exists [].
  - destruct Hok as [Hh Hb]. destruct (connections n !! i) as [s|]; [|by exists []].
    destruct (hello_or_not e) as [[hello He]|He].
    + pose proof (dispatch_hello_keeps h e now s (shared n) hello He) as Hc.
      destruct (dispatch h e now (s, shared n)) as [[s' c'] o]. simpl in Hc. subst. by exists [].
    + pose proof (dispatch_message_acts h e now He s (shared n)) as Ha. unfold dispatch.
      destruct (dispatch_message h e now (s, shared n)) as [[s' c'] o]. simpl in Ha.
      destruct Ha as [-> [->|(k&->&Hk&[Hl Hz]&Hc)]]; [exists []; by destruct o|].
      exists [k]. split; [|by destruct o]. apply Forall_singleton. split.
      * rewrite Hk. split; [done|]. unfold len in Hl. lia.
      * intros h' Hh'. by rewrite (Hc h' Hh').
  - exists [k]. by split; [apply Forall_singleton|].
Qed.

Lemma history_fold calls : (history calls).1 = fold_left (fun c k => (exec k c).1) calls new_coordinator.
Proof.
  induction calls as [|k calls IH] using rev_ind; [done|]. by rewrite calls_snoc, fold_left_app, IH.
Qed.
End Node.

(** C33: whatever connections, requests, answers of the operating system and local
    tasks meet at a node, in whatever order, its coordinator is in the state of a
    history of calls with 16-byte session IDs: the consistency of sessions, the single
    worker, the exclusive endpoints and the stored answers hold across connections. *)
Theorem node_runs_history {HO : HashOrder string Reservation} {RJ : ResultJson} (events : list NodeEvent) :
  Forall event_ok events ->
  exists calls, Forall call_ok calls /\ shared (serving events) = (history calls).1.
Proof.
  induction events as [|ev events IH] using rev_ind; intros Hok; [by exists []|].
  apply Forall_app in Hok as [Hok Hev]. apply Forall_cons in Hev as [Hev _].
  destruct (IH Hok) as (calls&Hc&Hs). unfold serving. rewrite fold_left_app. simpl. fold (serving events).
  destruct (serve_calls (serving events) ev Hev) as (more&Hm&->).
  exists (calls ++ more). split; [by apply Forall_app|]. by rewrite history_fold, fold_left_app, <- history_fold, <- Hs.
Qed.

(** ** A concrete node. *)

Definition node_service : NodeControlService :=
  with_coordinator_and_dpdk {| local_node_id := replicate 16 1; local_name := "node" |}
    (replicate 16 9) (V4 2130706433) (V4 2130706433) false.
Definition request (n : Z) (m : ControlMessage) : Envelope :=
  {| protocol_major := PROTOCOL_MAJOR; protocol_minor := n; envelope_request_id := replicate 16 5;
     message := Some m |}.
Definition tcp_prepare : PrepareTest :=
  {| prepare_session_id := tcp_id; prepare_operation_id := "prepare"; test_type := "tcp"; backend := "socket";
     direction := "upload"; duration_ms := 1000; warmup_ms := 0; cooldown_ms := 0; streams := 1;
     frame_size := 0; payload_size := 0; target_rate_bps := 0; mtu := 0; source_data_port := 0;
     receive_data_port := 0; accelerated_pci_address := ""; remote_accelerated_pci_address := "";
     NodeProtocol.remote_mac_address := "" |}.

(** Two connections; the second prepares, and the scheduler looks for the session. *)
Definition node_events : list NodeEvent :=
  [Accept node_service; Accept node_service;
   Deliver 1 (sample_host 40001) (request 0 (MHelloRequest {| hello_node_id := replicate 16 9;
     hello_node_name := "client"; min_minor := 0; max_minor := 1 |})) 100000000000;
   Deliver 1 (sample_host 40001) (request 1 (MPrepareTest tcp_prepare)) 100000000000;
   Deliver 0 (sample_host 40002) (request 1 (MPrepareTest tcp_prepare)) 100000000000;
   Task (CBeginReceiver tcp_id 100000000000)].

Lemma node_events_ok : Forall event_ok node_events.
Proof.
  assert (bytes_ok tcp_id) as Hid by (apply sample_id; lia).
  repeat (apply Forall_cons; split); [exact I|exact I|..|by apply Forall_nil].
  1-3: split; [apply sample_host_ok|first [exact Hid|apply Forall_nil; exact I]].
  split; [apply sample_id; lia|done].
Qed.

Lemma node_runs_history_witness : exists calls, Forall call_ok calls /\
  shared (serving node_events) = (history calls).1 /\
  is_Some (tcp_sessions (shared (serving node_events)) !! tcp_id).
Proof.
  destruct (node_runs_history node_events node_events_ok) as (calls&Hc&Hs).
  exists calls. split; [done|]. split; [done|]. vm_compute. by eexists.
Defined.
