(* ===== verification/NodeClient.v ===== *)
(** * The control client of a node, and remote speed sessions

    Model of the frame I/O of [crates/node/src/lib.rs], of the client of
    [crates/node/src/client.rs] and of [crates/node/src/orchestrator.rs]. The
    secure stream below the client and the random generator are an interface
    ([ControlStream]); the TLS connection that yields the stream is not modelled. *)

From stdpp Require Import base list strings gmap.
From Stdlib Require Import ZArith Lia.
From S2P Require Import Prelude ErrorModel NodeProtocol Session SpeedRun Planner NodeServer.
Open Scope Z_scope.

(** A byte stream ([AsyncRead + AsyncWrite]) with the system's random generator:
    each operation may fail with the message of the error. *)
Class ControlStream (S : Type) := {
  write_all : bytes -> S -> S * (string + unit);
  flush : S -> S * (string + unit);
  read_exact : Z -> S -> S * (string + bytes);
  fill_random : Z -> S -> S * (string + bytes);
}.

Section Frames.
Context {S : Type} `{ControlStream S} `{Protobuf}.

Definition transport_failure (m : string) : NetToolError :=
  new_error NodeTransportFailed ("node control I/O failed: " +:+ m) true.

Definition io {A} (f : S -> S * (string + A)) : method S A := fun s =>
  let '(s, o) := f s in
  (s, match o with inl m => Err (transport_failure m) | inr a => Ok a end).

Definition write_control_frame (e : Envelope) : method S unit :=
  let! frame := m_ret (encode_frame e) in
  let! _ := io (write_all frame) in
  io flush.

Definition read_control_frame : method S Envelope :=
  let! header := io (read_exact CONTROL_HEADER_BYTES) in
  let! field := m_ret (slice header 8 12) in
  let payload_length := from_be_bytes field in
  if MAX_CONTROL_PAYLOAD_BYTES <? payload_length
  then m_ret (err ControlFrameTooLarge "control payload exceeds 1 MiB")
  else
    let! payload := io (read_exact payload_length) in
    m_ret (decode_frame (header ++ payload)).
End Frames.

(** ** [client.rs]. *)

Definition RESULT_QUERY_MINIMUM_MINOR : Z := 1.

Record NodeControlClient (S : Type) := {
  stream : S; remote_node_id : bytes; negotiated_minor : Z;
}.
Arguments stream {_}. Arguments remote_node_id {_}. Arguments negotiated_minor {_}.

Definition remote_error (e : ProtocolError) : NetToolError :=
  {| code := NodeTransportFailed;
     ErrorModel.message := "remote Node rejected request: " +:+ error_message e;
     retryable := error_retryable e;
     details := {["remote_code" := error_code e]} |}.

Section Client.
Context {S : Type} `{ControlStream S} `{Protobuf} `{ResultJson}.

Abbreviation client A := (method (NodeControlClient S) A).

(** A method of the stream, on the client's stream. *)
Definition on_stream {A} (m : method S A) : client A := fun c =>
  let '(s, o) := m (stream c) in
  ({| stream := s; remote_node_id := remote_node_id c; negotiated_minor := negotiated_minor c |}, o).

Definition minor : client Z := fun c => (c, Ok (negotiated_minor c)).
Definition set_negotiated (n : Z) : client unit := fun c =>
  ({| stream := stream c; remote_node_id := remote_node_id c; negotiated_minor := n |}, Ok tt).

Definition random_request_id : client bytes := on_stream (fun s =>
  let '(s, o) := fill_random 16 s in
  (s, match o with
      | inl m => Err (new_error RandomFailed ("cannot generate Node request ID: " +:+ m) false)
      | inr bs => Ok bs
      end)).

Definition exchange (m : ControlMessage) : client ControlMessage :=
  let! request_id := random_request_id in
  let! n := minor in
  let! _ := on_stream (write_control_frame {|
    protocol_major := PROTOCOL_MAJOR; protocol_minor := n; envelope_request_id := request_id;
    message := Some m |}) in
  let! r := on_stream read_control_frame in
  if negb (protocol_major r =? PROTOCOL_MAJOR) || (n <? protocol_minor r)
  then m_ret (err ProtocolIncompatible "peer response protocol version is incompatible")
  else if negb (bool_decide (envelope_request_id r = request_id))
  then m_ret (protocol "peer response request ID mismatch")
  else
    match message r with
    | Some (MError e) => m_ret (Err (remote_error e))
    | Some m => m_ret (Ok m)
    | None => m_ret (protocol "peer response does not contain a control message")
    end.

Definition negotiate (local : LocalNodeIdentity) (expected : bytes) (s : S) :
    NodeControlClient S * res unit :=
  let c := {| stream := s; remote_node_id := expected; negotiated_minor := PROTOCOL_MINOR |} in
  if trimmed_empty (local_name local)
  then (c, SpeedRun.invalid "local Node name must not be empty")
  else
    (let! r := exchange (MHelloRequest {|
       hello_node_id := local_node_id local; hello_node_name := local_name local;
       min_minor := 0; max_minor := PROTOCOL_MINOR |}) in
     match r with
     | MHelloResponse r =>
         if negb (bool_decide (responder_node_id r = expected))
         then m_ret (err NodeTlsFailed "Hello Node ID does not match the paired identity")
         else if PROTOCOL_MINOR <? selected_minor r
         then m_ret (err ProtocolIncompatible "peer selected an unsupported protocol minor")
         else set_negotiated (selected_minor r)
     | _ => m_ret (protocol "Hello request received an unexpected response type")
     end) c.

Definition client_capabilities : client CapabilityResponse :=
  let! r := exchange MCapabilityRequest in
  match r with
  | MCapabilityResponse r => m_ret (Ok r)
  | _ => m_ret (protocol "capability request received an unexpected response type")
  end.

Definition prepare_test (q : PrepareTest) : client PrepareTestResponse :=
  let! r := exchange (MPrepareTest q) in
  match r with
  | MPrepareTestResponse r => m_ret (Ok r)
  | _ => m_ret (protocol "prepare test received an unexpected response type")
  end.

Definition start_test (q : StartTest) : client TestStatus :=
  let! r := exchange (MStartTest q) in
  match r with
  | MTestStatus r => m_ret (Ok r)
  | _ => m_ret (protocol "start test received an unexpected response type")
  end.

Definition stop_test (q : StopTest) : client TestStatus :=
  let! r := exchange (MStopTest q) in
  match r with
  | MTestStatus r => m_ret (Ok r)
  | _ => m_ret (protocol "stop test received an unexpected response type")
  end.

Definition validate_test_result (r : TestResult) (expected : bytes) : res unit :=
  if negb (bool_decide (result_session_id r = expected))
  then protocol "test result session ID mismatch"
  else if negb (bool_decide (checksum r = sha256 (result_json r)))
  then protocol "test result checksum mismatch"
  else Ok tt.

Definition client_result (id : bytes) : client TestResult :=
  if bool_decide (id = zero_id) then m_ret (SpeedRun.invalid "result session ID must not be zero")
  else
    let! n := minor in
    if n <? RESULT_QUERY_MINIMUM_MINOR
    then m_ret (err ProtocolIncompatible "peer does not support retryable test result queries")
    else
      let! r := exchange (MTestResultRequest {| query_session_id := id |}) in
      match r with
      | MTestResult r =>
          let! _ := m_ret (validate_test_result r id) in
          m_ret (Ok r)
      | _ => m_ret (protocol "result request received an unexpected response type")
      end.

Definition ping (nonce : Z) : client unit :=
  let! r := exchange (MPing {| ping_nonce := nonce |}) in
  match r with
  | MPong p => m_ret (if pong_nonce p =? nonce then Ok tt else protocol "heartbeat nonce mismatch")
  | _ => m_ret (protocol "heartbeat received an unexpected response type")
  end.

(** ** [orchestrator.rs]. *)

Definition STATUS_RUNNING : string := "RUNNING".
Definition STATUS_TEST_READY : string := "TEST_READY".
Definition STATUS_CANCELED : string := "CANCELED".

Record PreparedRemoteSpeedSession := {
  prepared_session_id : bytes;
  prepared_plan : SpeedSessionPlan;
  remote_data_port : Z;
  remote_source_data_port : Z;
  prepared_authorization_tag : string;
}.

Definition validate_status (st : TestStatus) (id : bytes) (expected : string) : res unit :=
  if negb (bool_decide (status_session_id st = id)) then protocol "test status session ID mismatch"
  else if negb (bool_decide (status_state st = expected))
  then err InvalidState ("remote Node returned state " +:+ status_state st +:+ " instead of " +:+ expected)
  else Ok tt.

Definition validate_status_any (st : TestStatus) (id : bytes) (expected : list string) : res unit :=
  if negb (bool_decide (status_session_id st = id)) then protocol "test status session ID mismatch"
  else if negb (one_of (status_state st) expected)
  then err InvalidState ("remote Node returned unexpected state " +:+ status_state st)
  else Ok tt.

Definition validate_operation_id (operation : string) : res unit :=
  if trimmed_empty operation then SpeedRun.invalid "Node operation ID must not be empty" else Ok tt.

Definition prepared_start (p : PreparedRemoteSpeedSession) (operation : string) (start_at : Z) :
    client unit :=
  let! _ := m_ret (validate_operation_id operation) in
  if start_at =? 0 then m_ret (SpeedRun.invalid "scheduled start timestamp must be non-zero")
  else
    let! st := start_test {| start_session_id := prepared_session_id p;
                             start_operation_id := operation;
                             start_at_unix_nanoseconds := start_at |} in
    m_ret (validate_status_any st (prepared_session_id p) [STATUS_TEST_READY; STATUS_RUNNING]).

Definition prepared_stop (p : PreparedRemoteSpeedSession) (operation : string) : client unit :=
  let! _ := m_ret (validate_operation_id operation) in
  let! st := stop_test {| stop_session_id := prepared_session_id p; stop_operation_id := operation |} in
  m_ret (validate_status st (prepared_session_id p) STATUS_CANCELED).

Definition prepared_result (p : PreparedRemoteSpeedSession) : client TestResult :=
  client_result (prepared_session_id p).

Definition port_of (x : Z) (m : string) : res Z := if x <=? umax 16 then Ok x else protocol m.

(** The checks on the prepare response. *)
Definition accept_response (r : SpeedRunRequest) (id : bytes) (plan : SpeedSessionPlan)
    (a : PrepareTestResponse) : res PreparedRemoteSpeedSession :=
  if negb (ready a)
  then Err (new_error InvalidState "remote Node did not enter TEST_READY after prepare" true)
  else if trimmed_empty (response_authorization_tag a)
  then protocol "prepare response does not contain an authorization tag"
  else
    let? data_port := port_of (response_data_port a)
                        "prepare response data port is outside the valid range" in
    let? source_port := port_of (response_source_data_port a)
                          "prepare response source port is outside the valid range" in
    if negb (bool_decide (run_protocol r = RawSpeed)) && sends (run_direction r) && (data_port =? 0)
    then protocol "socket prepare response does not contain a dynamic data port"
    else if bool_decide (run_protocol r = UdpSpeed) && receives (run_direction r) && (source_port =? 0)
    then protocol "UDP prepare response does not contain the remote sender source port"
    else Ok {| prepared_session_id := id; prepared_plan := plan; remote_data_port := data_port;
               remote_source_data_port := source_port;
               prepared_authorization_tag := response_authorization_tag a |}.

Definition prepare_remote_speed_session (r : SpeedRunRequest) (operation : string) (id : bytes)
    (ports : LocalDataPlanePorts) : client PreparedRemoteSpeedSession :=
  let! caps := client_capabilities in
  let! plan := m_ret (plan_speed_session r operation id ports (capabilities caps)) in
  let! a := prepare_test (plan_prepare plan) in
  m_ret (accept_response r id plan a).

(** The loop draws until an ID is not zero; [None] when it needs more draws. *)
Fixpoint random_session_id (draws : list (string + bytes)) : option (res bytes) :=
  match draws with
  | [] => None
  | inl m :: _ => Some (Err (new_error RandomFailed ("cannot generate Node session ID: " +:+ m) false))
  | inr id :: draws => if bool_decide (id = zero_id) then random_session_id draws else Some (Ok id)
  end.
End Client.
Arguments NodeControlClient : clear implicits.
