(* ===== verification/NodeLink.v ===== *)
(** * A client and a node, connected

    The request loop of a node's connection and the scheduler of its workers
    ([apps/agent/src/main.rs]), and the client's stream when such a loop is at the
    other end: what the client writes, the loop reads. *)

From stdpp Require Import base list strings gmap.
From Stdlib Require Import ZArith Lia.
From S2P Require Import Prelude ErrorModel Resource Lifecycle UdpProtocol UdpSocket TcpEngine NodeProtocol Session SessionOps SessionRuns SpeedRun Planner NodeServer NodeClient.
Open Scope Z_scope.

(** ** The request loop. *)

(** The server's end of a connection: bytes that arrived, bytes that were sent. *)
Record Pipe := { from_client : bytes; to_client : bytes }.

#[export] Instance pipe_stream : ControlStream Pipe := {
  write_all bs p := ({| from_client := from_client p; to_client := to_client p ++ bs |}, inr tt);
  flush p := (p, inr tt);
  read_exact n p :=
    if n <=? len (from_client p)
    then ({| from_client := drop (Z.to_nat n) (from_client p); to_client := to_client p |},
          inr (take (Z.to_nat n) (from_client p)))
    else (p, inl "early eof"%string);
  fill_random _ p := (p, inl "not used"%string);
}.

Definition parse_wire_session_id (value : bytes) : res bytes :=
  if negb (len value =? 16) then protocol "scheduled session ID is invalid"
  else if bool_decide (value = zero_id) then protocol "scheduled session ID must not be zero"
  else Ok value.

Definition node_state : Type := NodeControlService * SessionCoordinator.

Section Loop.
Context {HO : HashOrder string Reservation} `{Protobuf}.

Definition on_pipe {A} (m : method Pipe A) : method (Pipe * node_state) A := fun s =>
  let '(p, o) := m s.1 in ((p, s.2), o).
Definition on_node {A} (m : method node_state A) : method (Pipe * node_state) A := fun s =>
  let '(n, o) := m s.2 in ((s.1, n), o).

(** The session and the time that a start message schedules. *)
Definition scheduled_by (e : Envelope) : option (bytes * Z) :=
  match message e with
  | Some (MStartTest q) =>
      match parse_wire_session_id (start_session_id q) with
      | Ok id => Some (id, start_at_unix_nanoseconds q)
      | _ => None
      end
  | _ => None
  end.

Definition start_accepted (e : Envelope) : bool :=
  match message e with
  | Some (MTestStatus st) => one_of (status_state st) ["TEST_READY"; "RUNNING"]
  | _ => false
  end.

(** One turn of the loop of [handle_node_connection]; the worker it schedules. *)
Definition handle_request (h : Host) (now : Z) : method (Pipe * node_state) (option (bytes * Z)) :=
  let! request := on_pipe read_control_frame in
  let! reply := on_node (dispatch h request now) in
  let! _ := on_pipe (write_control_frame reply) in
  m_ret (Ok (if start_accepted reply then scheduled_by request else None)).
End Loop.

(** ** The scheduler. *)

Section Scheduler.
Context {HO : HashOrder string Reservation} {RJ : ResultJson}.

Definition or_else {A} (m n : op A) : op A := fun c =>
  match m c with
  | (c, Err _) => n c
  | r => r
  end.

(** The worker of a session whose time has come, with the four readings of the clock. *)
Definition take_worker (id : bytes) (n1 n2 n3 n4 : Z) : op Response :=
  or_else (exec (CBeginDpdk id n1))
    (or_else (exec (CBeginBidirectional id n2))
       (or_else (exec (CBeginReceiver id n3)) (exec (CBeginSender id n4)))).
End Scheduler.

(** ** The client's stream to such a node. *)

Record Link := {
  pipe : Pipe;
  peer : node_state;
  alive : bool;          (** The loop at the other end has not failed. *)
  served : nat;          (** Requests that the loop has taken. *)
  drawn : nat;           (** Random values that the client has drawn. *)
  workers : list (bytes * Z);
}.

Section Stream.
Context {HO : HashOrder string Reservation} `{Protobuf}.
(** What the node's system answers during each request, its clock, and the client's
    random generator. *)
Context (turn : nat -> Host * Z) (draw : nat -> string + bytes).

(** The loop at the other end takes a turn when the client waits for more than
    has arrived. *)
Definition pump (n : Z) (l : Link) : Link :=
  if (n <=? len (to_client (pipe l))) || negb (alive l) then l
  else
    let '(h, now) := turn (served l) in
    let '((p, s), o) := handle_request h now (pipe l, peer l) in
    {| pipe := p; peer := s; alive := match o with Ok _ => true | _ => false end;
       served := S (served l); drawn := drawn l;
       workers := workers l ++ match o with Ok (Some w) => [w] | _ => [] end |}.

Definition with_pipe (p : Pipe) (l : Link) : Link :=
  {| pipe := p; peer := peer l; alive := alive l; served := served l; drawn := drawn l;
     workers := workers l |}.

Definition link_stream : ControlStream Link := {|
  write_all bs l :=
    if alive l
    then (with_pipe {| from_client := from_client (pipe l) ++ bs; to_client := to_client (pipe l) |} l,
          inr tt)
    else (l, inl "broken pipe"%string);
  flush l := (l, inr tt);
  read_exact n l :=
    let l := pump n l in
    if n <=? len (to_client (pipe l))
    then (with_pipe {| from_client := from_client (pipe l);
                       to_client := drop (Z.to_nat n) (to_client (pipe l)) |} l,
          inr (take (Z.to_nat n) (to_client (pipe l))))
    else (l, inl "early eof"%string);
  fill_random _ l :=
    ({| pipe := pipe l; peer := peer l; alive := alive l; served := served l; drawn := S (drawn l);
        workers := workers l |}, draw (drawn l));
|}.

(** Between two requests. *)
Definition idle (l : Link) : Prop :=
  alive l = true /\ from_client (pipe l) = [] /\ to_client (pipe l) = [].
End Stream.

(** ** Frames cross the connection. *)

Section Transport.
Context {HO : HashOrder string Reservation} `{Protobuf}.

Lemma encode_frame_inv e f : encode_frame e = Ok f ->
  f = frame_of (encode_to_vec e) /\ len (encode_to_vec e) <= MAX_CONTROL_PAYLOAD_BYTES.
Proof.
  unfold encode_frame, frame_error, err.
  destruct (Z.ltb_spec MAX_CONTROL_PAYLOAD_BYTES (len (encode_to_vec e))); [done|].
  case_match; [done|]. intros [= <-]. by split.
Qed.

Lemma frame_header payload : len payload <= MAX_CONTROL_PAYLOAD_BYTES -> exists header,
  frame_of payload = header ++ payload /\ length header = 12%nat /\
  exists field, slice (E := NetToolError) header 8 12 = Ok field /\ from_be_bytes field = len payload.
Proof.
  intros Hl. destruct (length_field (len payload)) as (a&b&c&d&Hf&Hn). pose proof (len_nonneg payload).
  exists [78; 84; 67; 80; 1; 0; 0; 0; a; b; c; d]. split_and!.
  - unfold frame_of. by rewrite Hf.
  - done.
  - exists [a; b; c; d]. split; [done|]. apply Hn. unfold MAX_CONTROL_PAYLOAD_BYTES in Hl. lia.
Qed.

(** Reading back a frame that is the whole of what arrived. *)
Lemma pipe_reads e f out : envelope_decode (encode_to_vec e) = inr e -> encode_frame e = Ok f ->
  read_control_frame {| from_client := f; to_client := out |} =
    ({| from_client := []; to_client := out |}, Ok e).
Proof.
  intros Hc Hf. pose proof (encode_frame_inv e f Hf) as [-> Hl].
  destruct (frame_header _ Hl) as (hd&Heq&H12&field&Hs&Hn).
  pose proof (decode_frame_of _ Hl) as Hd. rewrite Hc, Heq in Hd. rewrite Heq.
  pose proof (len_nonneg (encode_to_vec e)).
  unfold read_control_frame, io, m_bind, m_ret, read_exact, pipe_stream. cbn [from_client to_client].
  assert (Hfits : (CONTROL_HEADER_BYTES <=? len (hd ++ encode_to_vec e)) = true).
  { apply Z.leb_le. rewrite len_app. unfold CONTROL_HEADER_BYTES, len in *. rewrite H12. lia. }
  rewrite Hfits. clear Hfits.
  change (Z.to_nat CONTROL_HEADER_BYTES) with 12%nat. rewrite <- H12, take_app_length, drop_app_length.
  rewrite Hs. cbn [from_client to_client]. rewrite Hn.
  rewrite (proj2 (Z.ltb_ge _ _)) by lia. cbn [from_client to_client]. rewrite Z.leb_refl.
  unfold len. by rewrite Nat2Z.id, drop_all, firstn_all, Hd.
Qed.
End Transport.

Section Exchange.
Context {HO : HashOrder string Reservation} `{Protobuf}.
Context (turn : nat -> Host * Z) (draw : nat -> string + bytes).
Context (codec : forall e, envelope_decode (encode_to_vec e) = inr e).
#[local] Instance the_stream : ControlStream Link := link_stream turn draw.

(** A pipe whose whole content is one frame. *)
Lemma link_reads l e f :
  to_client (pipe (pump turn CONTROL_HEADER_BYTES l)) = f -> encode_frame e = Ok f ->
  read_control_frame l =
    (with_pipe {| from_client := from_client (pipe (pump turn CONTROL_HEADER_BYTES l)); to_client := [] |}
       (pump turn CONTROL_HEADER_BYTES l), Ok e).
Proof.
  intros Hl Hf. set (l' := pump turn CONTROL_HEADER_BYTES l) in *.
  pose proof (encode_frame_inv e f Hf) as [-> Hmax].
  destruct (frame_header _ Hmax) as (hd&Heq&H12&field&Hs&Hn).
  pose proof (decode_frame_of _ Hmax) as Hd. rewrite codec, Heq in Hd. rewrite Heq in Hl.
  pose proof (len_nonneg (encode_to_vec e)).
  unfold read_control_frame, io, m_bind, m_ret, read_exact, the_stream, link_stream. fold l'. rewrite Hl.
  assert (Hfits : (CONTROL_HEADER_BYTES <=? len (hd ++ encode_to_vec e)) = true).
  { apply Z.leb_le. rewrite len_app. unfold CONTROL_HEADER_BYTES, len in *. rewrite H12. lia. }
  rewrite Hfits. change (Z.to_nat CONTROL_HEADER_BYTES) with 12%nat.
  rewrite <- H12, take_app_length, drop_app_length, Hs, Hn.
  rewrite (proj2 (Z.ltb_ge _ _)) by lia.
  assert (Hpump : forall l, to_client (pipe l) = encode_to_vec e ->
    pump turn (len (encode_to_vec e)) l = l).
  { intros l0 Hl0. unfold pump. by rewrite Hl0, Z.leb_refl. }
  rewrite Hpump by done. cbn [pipe with_pipe from_client to_client]. rewrite Z.leb_refl.
  unfold len. by rewrite Nat2Z.id, drop_all, firstn_all, Hd.
Qed.

(** A stream that the loop has left with too little fails the read. *)
Lemma link_starves l : len (to_client (pipe (pump turn CONTROL_HEADER_BYTES l))) < CONTROL_HEADER_BYTES ->
  exists e, (read_control_frame l).2 = Err e.
Proof.
  intros Hl. unfold read_control_frame, io, m_bind, m_ret, read_exact, the_stream, link_stream.
  rewrite (proj2 (Z.leb_gt _ _)) by done. by eexists.
Qed.

(** The turn of the loop for a request that has arrived whole. *)
Lemma handle_request_eq h now e f s out : encode_frame e = Ok f ->
  handle_request h now ({| from_client := f; to_client := out |}, s) =
    let '(s', o) := dispatch h e now s in
    match o with
    | Ok reply =>
        match encode_frame reply with
        | Ok f' => (({| from_client := []; to_client := out ++ f' |}, s'),
                    Ok (if start_accepted reply then scheduled_by e else None))
        | Err er => (({| from_client := []; to_client := out |}, s'), Err er)
        | Panic => (({| from_client := []; to_client := out |}, s'), Panic)
        end
    | Err er => (({| from_client := []; to_client := out |}, s'), Err er)
    | Panic => (({| from_client := []; to_client := out |}, s'), Panic)
    end.
Proof.
  intros Hf. unfold handle_request, on_pipe, on_node, m_bind. cbn [fst snd].
  rewrite (pipe_reads e f out (codec e) Hf). cbn [fst snd].
  destruct (dispatch h e now s) as [s' [reply|er|]]; cbn [fst snd]; try done.
  unfold write_control_frame, io, m_bind, m_ret. by destruct (encode_frame reply).
Qed.

Lemma link_writes e l : alive l = true ->
  write_control_frame e l =
    match encode_frame e with
    | Ok f => (with_pipe {| from_client := from_client (pipe l) ++ f; to_client := to_client (pipe l) |} l,
               Ok tt)
    | Err er => (l, Err er)
    | Panic => (l, Panic)
    end.
Proof.
  intros Hal. unfold write_control_frame, io, m_bind, m_ret. destruct (encode_frame e) as [f|er|]; [|done..].
  unfold write_all, flush, the_stream, link_stream. by rewrite Hal.
Qed.

(** The link after the loop's turn. *)
Definition after_turn (p : Pipe) (s : node_state) (ok : bool) (w : list (bytes * Z)) (l : Link) : Link :=
  {| pipe := p; peer := s; alive := ok; served := S (served l); drawn := drawn l;
     workers := workers l ++ w |}.

Lemma pump_request e f l : alive l = true -> from_client (pipe l) = f -> to_client (pipe l) = [] ->
  encode_frame e = Ok f ->
  pump turn CONTROL_HEADER_BYTES l =
    let '(h, now) := turn (served l) in
    let '(s', o) := dispatch h e now (peer l) in
    let lost := after_turn {| from_client := []; to_client := [] |} s' false [] l in
    match o with
    | Ok reply =>
        match encode_frame reply with
        | Ok f' => after_turn {| from_client := []; to_client := f' |} s' true
                     (if start_accepted reply then option_list (scheduled_by e) else []) l
        | _ => lost
        end
    | _ => lost
    end.
Proof.
  intros Hal Hfc Htc Hf. unfold pump. rewrite Htc, Hal. cbn [negb orb].
  change (CONTROL_HEADER_BYTES <=? len []) with false. cbn [orb].
  destruct (turn (served l)) as [h now].
  replace (pipe l) with {| from_client := f; to_client := [] |}
    by (destruct (pipe l); simpl in *; by subst).
  rewrite (handle_request_eq h now e f (peer l) [] Hf).
  destruct (dispatch h e now (peer l)) as [s' [reply|er|]]; try done.
  destruct (encode_frame reply); try done. unfold after_turn. simpl.
  destruct (start_accepted reply); [|done]. by destruct (scheduled_by e).
Qed.

(** An exchange that succeeds is one dispatch at the node. *)
Lemma exchange_ok m l id n c' r : idle l ->
  exchange m {| stream := l; remote_node_id := id; negotiated_minor := n |} = (c', Ok r) ->
  exists rid h now s' reply w,
    draw (drawn l) = inr rid /\ turn (served l) = (h, now) /\
    dispatch h {| protocol_major := PROTOCOL_MAJOR; protocol_minor := n; envelope_request_id := rid;
                  message := Some m |} now (peer l) = (s', Ok reply) /\
    message reply = Some r /\ (forall er, r <> MError er) /\
    c' = {| stream := {| pipe := {| from_client := []; to_client := [] |}; peer := s'; alive := true;
                         served := S (served l); drawn := S (drawn l); workers := workers l ++ w |};
            remote_node_id := id; negotiated_minor := n |}.
Proof.
  intros (Hal&Hfc&Htc). unfold exchange, random_request_id, minor, on_stream, m_bind, m_ret.
  cbn [stream fill_random the_stream link_stream].
  destruct (draw (drawn l)) as [|rid]; [done|]. cbn [stream remote_node_id negotiated_minor].
  set (l1 := {| pipe := pipe l; peer := peer l; alive := alive l; served := served l;
                drawn := S (drawn l); workers := workers l |}).
  set (e := {| protocol_major := PROTOCOL_MAJOR; protocol_minor := n; envelope_request_id := rid;
               message := Some m |}).
  rewrite link_writes by done. destruct (encode_frame e) as [f|er|] eqn:Hf; [|done..].
  cbn [stream remote_node_id negotiated_minor pipe l1]. rewrite Hfc, Htc. cbn [app].
  set (l2 := with_pipe _ l1).
  pose proof (pump_request e f l2 Hal eq_refl eq_refl Hf) as Hp.
  destruct (turn (served l2)) as [h now] eqn:Ht. destruct (dispatch h e now (peer l2)) as [s' o] eqn:Hd.
  cbv zeta in Hp.
  assert (Hlost : forall l3, pump turn CONTROL_HEADER_BYTES l2 = l3 -> to_client (pipe l3) = [] ->
    exists er, (read_control_frame l2).2 = Err er).
  { intros l3 <- H3. apply link_starves. by rewrite H3. }
  destruct o as [reply|er|].
  2-3: destruct (Hlost _ Hp eq_refl) as [er' He]; destruct (read_control_frame l2); simpl in He; by subst.
  destruct (encode_frame reply) as [f'|er|] eqn:Hf'.
  2-3: destruct (Hlost _ Hp eq_refl) as [er' He]; destruct (read_control_frame l2); simpl in He; by subst.
  rewrite (link_reads l2 reply f') by (by rewrite ?Hp). rewrite Hp.
  cbn [stream remote_node_id negotiated_minor pipe after_turn from_client].
  unfold err, protocol. destruct (negb _ || _); [by intros [=]|]. destruct (negb (bool_decide _)); [by intros [=]|].
  destruct (message reply) as [r'|] eqn:Hm; [|done]. intros Heq.
  assert (r' = r /\ forall er, r <> MError er) as [-> Hne] by (destruct r'; by simplify_eq).
  exists rid, h, now, s', reply, (if start_accepted reply then option_list (scheduled_by e) else []).
  split_and!; try done. by destruct r; simplify_eq.
Qed.
End Exchange.
