(* ===== verification/NodeScheduler.v ===== *)
(** * The scheduler of a node finds the worker

    [spawn_scheduled_worker] of [apps/agent/src/main.rs] ([NodeLink.take_worker])
    tries the four kinds of worker in turn. Whatever happened at the coordinator
    before, a session that is due gets a worker, and once. *)

From stdpp Require Import base list strings gmap.
From Stdlib Require Import ZArith Lia.
From S2P Require Import Prelude ErrorModel Resource Lifecycle UdpProtocol UdpSocket TcpEngine NodeProtocol Session SessionOps SessionRuns SessionTotal SessionInv SessionSample SessionEffects SessionProps NodeLink.
Open Scope Z_scope.

(** The start of the session has come at all the times [ns], and its authorization
    has not expired. *)
Definition due (s : SessionMut) (ns : list Z) : Prop :=
  state s = TestReady /\ phase (lifecycle s) = Lifecycle.Ready /\
  exists start, start_at (lifecycle s) = Some start /\
    Forall (fun n => start <= n /\ n / 1000000000 <= expires_at_unix_seconds (authorization s)) ns.

(** The kind of worker for what a session holds. *)
Definition worker_kind (s : SessionMut) (w : Response) : Prop :=
  match s, w with
  | Tcp t, AckReceiver (TcpReceiver _ _) => t_sender_destination t = None
  | Tcp t, AckSender (TcpSender _ _) => t_listener t = None
  | Tcp t, AckBoth (TcpBoth _ _ _ _) => is_Some (t_listener t) /\ is_Some (t_sender_destination t)
  | Udp u, AckReceiver (UdpReceiver _ _) => u_sender_destination u = None
  | Udp u, AckBoth (UdpBoth _ _ _ _) => is_Some (u_sender_destination u)
  | Dpdk _, AckDpdk _ => True
  | _, _ => False
  end.

Section Scheduling.
Context {HO : HashOrder string Reservation} {RJ : ResultJson}.

Lemma due_now s ns n : due s ns -> n ∈ ns ->
  exists start, state s = TestReady /\ phase (lifecycle s) = Lifecycle.Ready /\
    start_at (lifecycle s) = Some start /\ start <= n /\
    n / 1000000000 <= expires_at_unix_seconds (authorization s).
Proof.
  intros (Hs&Hp&start&Ha&Hf) Hn. rewrite Forall_forall in Hf. exists start. by split_and!; try apply Hf.
Qed.

(** Beginning a session that is due. *)
Lemma begin_due id n ns c s : session_mut c id = Some s -> due s ns -> n ∈ ns ->
  begin_scheduled id n c = (put_session id (begun s) c, Ok Running).
Proof.
  intros Hs Hdue Hn. destruct (due_now s ns n Hdue Hn) as (start&Hst&Hph&Ha&Hle&Hx).
  unfold begin_scheduled, session, on_lifecycle, update_session, m_bind, m_ret. rewrite Hs. simpl.
  rewrite Hst. simpl. rewrite (proj2 (Z.ltb_ge _ _)) by lia. rewrite Hs. simpl.
  unfold begin_warmup. rewrite Hph, Ha. simpl. rewrite (proj2 (Z.ltb_ge _ _)) by lia.
  rewrite (session_put_here c id s _ Hs) by (by destruct s). simpl. unfold modify.
  rewrite put_put by (by destruct s). fold (begun s).
  rewrite (session_put_here c id s _ Hs) by apply begun_kind. simpl. by destruct s.
Qed.

(** Attempts that a session refuses leave everything as it is. *)
Lemma not_dpdk id n c s : disjoint c -> session_mut c id = Some s ->
  (forall d, s <> Dpdk d) -> exists e, exec (CBeginDpdk id n) c = (c, Err e).
Proof.
  intros Hd Hs Hk. destruct (session_table c id s Hd Hs) as (_&_&Ht).
  cbn [exec]. unfold begin_and_take_dpdk_receiver, m_map, gets, m_bind, m_ret. rewrite Ht.
  destruct s as [t|u|d]; [by eexists..|by destruct (Hk d)].
Qed.

Lemma not_both id n c s : disjoint c -> session_mut c id = Some s ->
  match s with
  | Tcp t => t_sender_destination t = None \/ t_sender_config t = None
  | Udp u => u_sender_destination u = None \/ u_sender_config u = None
  | Dpdk _ => True
  end -> exists e, exec (CBeginBidirectional id n) c = (c, Err e).
Proof.
  intros Hd Hs Hk. destruct (session_table c id s Hd Hs) as (Ht&Hu&_).
  cbn [exec]. unfold begin_and_take_bidirectional, m_map, gets, m_bind, m_ret. rewrite Ht, Hu.
  destruct s as [[] | [] | d]; simpl in *; [destruct Hk as [-> | ->]..|by eexists];
    rewrite ?andb_false_r; by eexists.
Qed.

Lemma not_receiver id n c t : disjoint c -> session_mut c id = Some (Tcp t) ->
  is_Some (t_sender_destination t) -> exists e, exec (CBeginReceiver id n) c = (c, Err e).
Proof.
  intros Hd Hs [a Ha]. destruct (session_table c id _ Hd Hs) as (Ht&Hu&_).
  cbn [exec]. unfold begin_and_take_receiver, has_destination, m_map, gets, m_bind, m_ret.
  rewrite Ht, Hu, Ha. by eexists.
Qed.

(** The tables after [begin_scheduled]. *)
Lemma begun_table c id s : disjoint c -> session_mut c id = Some s ->
  tcp_sessions (put_session id (begun s) c) !! id = (match begun s with Tcp t => Some t | _ => None end) /\
  udp_sessions (put_session id (begun s) c) !! id = (match begun s with Udp u => Some u | _ => None end) /\
  dpdk_sessions (put_session id (begun s) c) !! id = (match begun s with Dpdk d => Some d | _ => None end).
Proof.
  intros Hd Hs. apply session_table.
  - apply disjoint_put; [|done]. by eapply placeable_kind, begun_kind.
  - by eapply session_put_here, begun_kind.
Qed.

(** ** What each way of taking hands out. *)

(** Follow the takes of a session with known fields. *)
Ltac taking Ht :=
  unfold running, take_t_listener, take_t_destination, take_t_config, take_u_socket, take_u_destination,
    take_u_config, taken, tcp_session, udp_session, modify, m_bind, m_ret;
  repeat (rewrite ?Ht, ?lookup_insert_eq; simpl);
  unfold set_tcp, set_udp; simpl; rewrite ?insert_insert_eq; reflexivity.

Lemma tcp_listener_taken id c t l : tcp_sessions c !! id = Some t -> t_state t = Running ->
  t_listener t = Some l -> t_sender_destination t = None -> t_sender_config t = None ->
  take_tcp_listener id c = (put_session id (emptied (Tcp t)) c, Ok (l, tcp_receiver_config id t)).
Proof.
  intros Ht. destruct t. simpl. intros -> -> -> ->. unfold take_tcp_listener. taking Ht.
Qed.

Lemma tcp_sender_taken id c t d : tcp_sessions c !! id = Some t -> t_state t = Running ->
  t_listener t = None -> t_sender_destination t = Some d -> t_sender_config t = None ->
  take_tcp_sender id c =
    (put_session id (emptied (Tcp t)) c, Ok (TcpSender (tcp_sender_config id (t_config t) t) d)).
Proof.
  intros Ht. destruct t. simpl. intros -> -> -> ->. unfold take_tcp_sender. taking Ht.
Qed.

Lemma tcp_both_taken id c t l d x : tcp_sessions c !! id = Some t -> t_state t = Running ->
  t_listener t = Some l -> t_sender_destination t = Some d -> t_sender_config t = Some x ->
  take_tcp_bidirectional id c = (put_session id (emptied (Tcp t)) c,
    Ok (TcpBoth l (tcp_receiver_config id t) (tcp_sender_config id x t) d)).
Proof.
  intros Ht. destruct t. simpl. intros -> -> -> ->. unfold take_tcp_bidirectional. taking Ht.
Qed.

Lemma udp_socket_taken id c u k p : udp_sessions c !! id = Some u -> u_state u = Running ->
  u_socket u = Some k -> u_sender_destination u = None -> u_sender_config u = None ->
  source_port (u_authorization u) = Some p ->
  take_udp_socket id c = (put_session id (emptied (Udp u)) c, Ok (k, udp_receiver_config id p u)).
Proof.
  intros Hu. destruct u as [? au]. simpl. intros -> -> -> -> Hp. unfold take_udp_socket.
  unfold running, take_u_socket, taken, udp_session, modify, m_bind, m_ret. rewrite Hu. simpl. by rewrite Hp.
Qed.

Lemma udp_both_taken id c u k d x p : udp_sessions c !! id = Some u -> u_state u = Running ->
  u_socket u = Some k -> u_sender_destination u = Some d -> u_sender_config u = Some x ->
  source_port (u_authorization u) = Some p ->
  take_udp_bidirectional id c =
    (put_session id (emptied (Udp u)) c, Ok (UdpBoth k (udp_receiver_config id p u) x d)).
Proof.
  intros Hu. destruct u as [? au]. simpl. intros -> -> -> -> Hp. unfold take_udp_bidirectional.
  unfold running at 1, take_u_socket, taken, udp_session at 1, modify, m_bind, m_ret. rewrite Hu. simpl. rewrite Hp.
  taking Hu.
Qed.

(** ** The attempt that fits. *)

(** The worker that the call [k] hands out for the session [s]. *)
Definition hands (id : bytes) (s : SessionMut) (k : Call) (c : SessionCoordinator) : Prop :=
  exists w, exec k c = (put_session id (emptied (begun s)) c, Ok w) /\
    worker_of id (begun s) w /\ worker_kind s w.

Context (id : bytes) (ns : list Z) (n : Z) (Hn : n ∈ ns).

(** Begin the session, then take what it holds. *)
Ltac beginning c s Hd Hs Hdue :=
  destruct (session_table c id s Hd Hs) as (?Ht&?Hu&?Hp);
  destruct (begun_table c id s Hd Hs) as (?Ht'&?Hu'&?Hp');
  unfold hands; cbn [exec];
  unfold begin_and_take_dpdk_receiver, begin_and_take_bidirectional, begin_and_take_receiver,
    begin_and_take_sender, has_destination, m_map, gets;
  unfold m_bind, m_ret;
  repeat match goal with H : _ !! id = _ |- _ => rewrite H end; simpl.
Ltac goes_on c s Hs Hdue :=
  simpl; rewrite (begin_due id n ns c s Hs Hdue Hn);
  set (c1 := put_session id (begun s) c) in *;
  repeat match goal with H : _ c1 !! id = _ |- _ => rewrite H end; simpl.

Lemma tcp_receiver_attempt c t l : disjoint c -> session_mut c id = Some (Tcp t) -> due (Tcp t) ns ->
  t_listener t = Some l -> t_sender_destination t = None -> t_sender_config t = None ->
  hands id (Tcp t) (CBeginReceiver id n) c.
Proof.
  intros Hd Hs Hdue Hl Hdst Hcf. beginning c (Tcp t) Hd Hs Hdue. rewrite Hdst. goes_on c (Tcp t) Hs Hdue.
  rewrite (tcp_listener_taken id c1 _ l Ht' eq_refl Hl Hdst Hcf).
  eexists. split_and!; [unfold c1; by rewrite put_put by done|by eexists|done].
Qed.

Lemma tcp_sender_attempt c t d : disjoint c -> session_mut c id = Some (Tcp t) -> due (Tcp t) ns ->
  t_listener t = None -> t_sender_destination t = Some d -> t_sender_config t = None ->
  hands id (Tcp t) (CBeginSender id n) c.
Proof.
  intros Hd Hs Hdue Hl Hdst Hcf. beginning c (Tcp t) Hd Hs Hdue. rewrite Hdst. goes_on c (Tcp t) Hs Hdue.
  rewrite (tcp_sender_taken id c1 _ d Ht' eq_refl Hl Hdst Hcf).
  eexists. split_and!; [unfold c1; by rewrite put_put by done|by eexists|done].
Qed.

Lemma tcp_both_attempt c t l d x : disjoint c -> session_mut c id = Some (Tcp t) -> due (Tcp t) ns ->
  t_listener t = Some l -> t_sender_destination t = Some d -> t_sender_config t = Some x ->
  hands id (Tcp t) (CBeginBidirectional id n) c.
Proof.
  intros Hd Hs Hdue Hl Hdst Hcf. beginning c (Tcp t) Hd Hs Hdue. rewrite Hdst, Hcf. goes_on c (Tcp t) Hs Hdue.
  rewrite (tcp_both_taken id c1 _ l d x Ht' eq_refl Hl Hdst Hcf).
  eexists. split_and!; [unfold c1; by rewrite put_put by done|by do 2 eexists|simpl; eauto].
Qed.

Lemma udp_receiver_attempt c u k p : disjoint c -> session_mut c id = Some (Udp u) -> due (Udp u) ns ->
  u_socket u = Some k -> u_sender_destination u = None -> u_sender_config u = None ->
  source_port (u_authorization u) = Some p ->
  hands id (Udp u) (CBeginReceiver id n) c.
Proof.
  intros Hd Hs Hdue Hl Hdst Hcf Hp. beginning c (Udp u) Hd Hs Hdue. rewrite Hdst. goes_on c (Udp u) Hs Hdue.
  rewrite (udp_socket_taken id c1 _ k p Hu' eq_refl Hl Hdst Hcf Hp).
  eexists. split_and!; [unfold c1; by rewrite put_put by done|by do 2 eexists|done].
Qed.

Lemma udp_both_attempt c u k d x p : disjoint c -> session_mut c id = Some (Udp u) -> due (Udp u) ns ->
  u_socket u = Some k -> u_sender_destination u = Some d -> u_sender_config u = Some x ->
  source_port (u_authorization u) = Some p ->
  hands id (Udp u) (CBeginBidirectional id n) c.
Proof.
  intros Hd Hs Hdue Hl Hdst Hcf Hp. beginning c (Udp u) Hd Hs Hdue. rewrite Hdst, Hcf. goes_on c (Udp u) Hs Hdue.
  rewrite (udp_both_taken id c1 _ k d x p Hu' eq_refl Hl Hdst Hcf Hp).
  eexists. split_and!; [unfold c1; by rewrite put_put by done|by do 2 eexists|simpl; eauto].
Qed.

Lemma dpdk_attempt c d p : disjoint c -> session_mut c id = Some (Dpdk d) -> due (Dpdk d) ns ->
  d_plan d = Some p -> hands id (Dpdk d) (CBeginDpdk id n) c.
Proof.
  intros Hd Hs Hdue Hpl. beginning c (Dpdk d) Hd Hs Hdue. goes_on c (Dpdk d) Hs Hdue.
  unfold taken, modify, m_bind, m_ret. rewrite Hpl. simpl.
  eexists. split_and!; [by unfold set_dpdk; simpl; rewrite insert_insert_eq|by eexists|done].
Qed.
End Scheduling.

Section Scheduler.
Context {HO : HashOrder string Reservation} {RJ : ResultJson}.

Lemma or_else_err {A} (m k : op A) c e : m c = (c, Err e) -> or_else m k c = k c.
Proof. unfold or_else. by intros ->. Qed.
Lemma or_else_ok {A} (m k : op A) c c' a : m c = (c', Ok a) -> or_else m k c = (c', Ok a).
Proof. unfold or_else. by intros ->. Qed.

(** What the session of a live coordinator holds when it is not spent. *)
Lemma due_live s ns : due s ns -> live (state s).
Proof. intros [Hs _]. by left. Qed.

Lemma take_worker_due c id s n1 n2 n3 n4 : coordinator_inv c -> session_mut c id = Some s ->
  due s [n1; n2; n3; n4] -> ~ spent s ->
  exists w, take_worker id n1 n2 n3 n4 c = (put_session id (emptied (begun s)) c, Ok w) /\
    worker_of id (begun s) w /\ worker_kind s w.
Proof.
  intros Hc Hs Hdue Hspent. pose proof (ci_disjoint c Hc) as Hd.
  pose proof (so_shape _ _ (ci_sessions c Hc id s Hs) (due_live s _ Hdue)) as Hshape.
  set (ns := [n1; n2; n3; n4]) in *.
  assert (n1 ∈ ns /\ n2 ∈ ns /\ n3 ∈ ns /\ n4 ∈ ns) as (H1&H2&H3&H4) by (subst ns; set_solver).
  unfold take_worker, spent in *. destruct s as [t|u|d].
  - destruct (not_dpdk id n1 c (Tcp t) Hd Hs) as [e1 He1]; [done|]. rewrite (or_else_err _ _ _ _ He1).
    simpl in Hshape. destruct (t_listener t) as [l|] eqn:Hl, (t_sender_destination t) as [a|] eqn:Ha,
      (t_sender_config t) as [x|] eqn:Hx; try done.
    + destruct (tcp_both_attempt id ns n2 H2 c t l a x Hd Hs Hdue Hl Ha Hx) as (w&Hw&Hr).
      rewrite (or_else_ok _ _ _ _ _ Hw). by exists w.
    + destruct (not_both id n2 c (Tcp t) Hd Hs) as [e2 He2]; [by left|]. rewrite (or_else_err _ _ _ _ He2).
      destruct (tcp_receiver_attempt id ns n3 H3 c t l Hd Hs Hdue Hl Ha Hx) as (w&Hw&Hr).
      rewrite (or_else_ok _ _ _ _ _ Hw). by exists w.
    + destruct (not_both id n2 c (Tcp t) Hd Hs) as [e2 He2]; [by right|]. rewrite (or_else_err _ _ _ _ He2).
      destruct (not_receiver id n3 c t Hd Hs) as [e3 He3]; [by eexists|]. rewrite (or_else_err _ _ _ _ He3).
      by apply (tcp_sender_attempt id ns n4 H4 c t a).
    + destruct Hspent. destruct t. simpl in *. by subst.
  - destruct (not_dpdk id n1 c (Udp u) Hd Hs) as [e1 He1]; [done|]. rewrite (or_else_err _ _ _ _ He1).
    destruct Hshape as [[p Hp] Hshape]. destruct (u_socket u) as [k|] eqn:Hl, (u_sender_destination u) as [a|] eqn:Ha,
      (u_sender_config u) as [x|] eqn:Hx; try done.
    + destruct (udp_both_attempt id ns n2 H2 c u k a x p Hd Hs Hdue Hl Ha Hx Hp) as (w&Hw&Hr).
      rewrite (or_else_ok _ _ _ _ _ Hw). by exists w.
    + destruct (not_both id n2 c (Udp u) Hd Hs) as [e2 He2]; [by left|]. rewrite (or_else_err _ _ _ _ He2).
      destruct (udp_receiver_attempt id ns n3 H3 c u k p Hd Hs Hdue Hl Ha Hx Hp) as (w&Hw&Hr).
      rewrite (or_else_ok _ _ _ _ _ Hw). by exists w.
    + destruct Hspent. destruct u. simpl in *. by subst.
  - destruct (d_plan d) as [p|] eqn:Hp; [|destruct Hspent; destruct d; simpl in *; by subst].
    destruct (dpdk_attempt id ns n1 H1 c d p Hd Hs Hdue Hp) as (w&Hw&Hr).
    rewrite (or_else_ok _ _ _ _ _ Hw). by exists w.
Qed.

(** A session that does not wait for its start is refused by every attempt. *)
Lemma begin_refused id n c : session_state c id <> Some TestReady ->
  exists e, begin_scheduled id n c = (c, Err e).
Proof.
  intros Hs. rewrite session_state_mut in Hs. unfold begin_scheduled, session, m_bind, m_ret.
  destruct (session_mut c id) as [s|]; simpl; [|by eexists].
  rewrite bool_decide_eq_false_2 by (intros He; apply Hs; simpl; by rewrite He). by eexists.
Qed.

Lemma take_worker_refused id n1 n2 n3 n4 c : session_state c id <> Some TestReady ->
  exists e, take_worker id n1 n2 n3 n4 c = (c, Err e).
Proof.
  intros Hs. unfold take_worker.
  assert (forall k, begins k <> None -> call_session k = id -> (forall n, k <> CBegin id n) ->
    exists e, exec k c = (c, Err e)) as Hk.
  { intros k Hb Hid Hn. destruct k; try done; simpl in Hid; subst id0; cbn [exec];
      unfold begin_and_take_dpdk_receiver, begin_and_take_bidirectional, begin_and_take_receiver,
        begin_and_take_sender, m_map, gets, m_bind, m_ret;
      destruct (begin_refused id now c Hs) as [e He]; [by destruct (Hn now)|..];
      rewrite ?He; unfold Session.invalid_state, err;
      repeat (case_match; simplify_eq/=); rewrite ?He in *; simplify_eq/=; by eexists. }
  destruct (Hk (CBeginDpdk id n1)) as [e1 H1]; try done. rewrite (or_else_err _ _ _ _ H1).
  destruct (Hk (CBeginBidirectional id n2)) as [e2 H2]; try done. rewrite (or_else_err _ _ _ _ H2).
  destruct (Hk (CBeginReceiver id n3)) as [e3 H3]; try done. rewrite (or_else_err _ _ _ _ H3).
  by apply Hk.
Qed.
End Scheduler.

(** Whatever calls a coordinator has served, the scheduler of a session that is
    due hands out its worker: the one of its kind, with its endpoint and its
    configuration, and the session is running and has nothing left; and a second
    scheduler, which a repeated start makes, gets nothing and changes nothing. A UDP
    session with a destination is always handed out as a worker of both directions,
    also when it was prepared as a plain sender. *)
Theorem scheduler_hands_worker {HO : HashOrder string Reservation} {RJ : ResultJson} (calls : list Call)
    id s n1 n2 n3 n4 :
  Forall call_ok calls -> session_mut (history calls).1 id = Some s ->
  due s [n1; n2; n3; n4] -> ~ spent s ->
  let c := put_session id (emptied (begun s)) (history calls).1 in
  (exists w, take_worker id n1 n2 n3 n4 (history calls).1 = (c, Ok w) /\
     worker_of id (begun s) w /\ worker_kind s w) /\
  session_state c id = Some Running /\
  forall m1 m2 m3 m4, exists e, take_worker id m1 m2 m3 m4 c = (c, Err e).
Proof.
  intros Hok Hs Hdue Hsp c. split; [apply take_worker_due; [by apply history_inv|done..]|].
  assert (session_state c id = Some Running) as Hrun.
  { rewrite session_state_mut. unfold c. rewrite (session_put_here _ id s) by (done || by destruct s). by destruct s. }
  split; [done|]. intros. apply take_worker_refused. by rewrite Hrun.
Qed.

(** ** A plain UDP sender, scheduled. *)

Definition download_request : PrepareUdpSenderRequest :=
  {| pus_session_id := udp_id; pus_operation_id := "prepare-sender"; pus_source_node_id := replicate 16 9;
     pus_source_address := V4 2130706433; pus_destination := local 6000; pus_stream_id := 7;
     pus_datagram_bytes := 1400; pus_measurement_milliseconds := 1000;
     pus_target_bits_per_second := None; pus_authorization_ttl_seconds := 60 |}.
Definition download_calls : list Call :=
  [CPrepareUdpSender (sample_host 40003) download_request 100;
   CStart udp_id "start" start_time 100000000000].

Lemma download_calls_ok : Forall call_ok download_calls.
Proof.
  unfold download_calls.
  repeat (apply Forall_cons; split; [split; [apply sample_id; lia|
    intros h [= <-]; apply sample_host_ok]|]). apply Forall_nil. done.
Qed.

Lemma scheduler_hands_worker_witness : exists c w,
  take_worker udp_id start_time start_time start_time start_time (history download_calls).1 = (c, Ok w) /\
  session_state c udp_id = Some Running /\ exists k r x d, w = AckBoth (UdpBoth k r x d).
Proof.
  assert (exists u, session_mut (history download_calls).1 udp_id = Some (Udp u) /\
    due (Udp u) [start_time; start_time; start_time; start_time] /\ is_Some (u_socket u) /\ is_Some (u_sender_destination u)) as (u&Hu&Hdue&Hk&Hd).
  { eexists. split; [vm_compute; reflexivity|]. split; [|by split; eexists]. split; [done|]. split; [done|].
    eexists. split; [reflexivity|]. repeat constructor; done. }
  destruct (scheduler_hands_worker download_calls udp_id (Udp u) start_time start_time start_time start_time)
    as [(w&Hw&Hof&Hkind) [Hrun _]].
  - apply download_calls_ok.
  - exact Hu.
  - exact Hdue.
  - unfold spent. intros He. injection He as He. rewrite He in Hk. by destruct Hk.
  - eexists _, w. split; [exact Hw|]. split; [exact Hrun|].
    clear -Hkind Hd. destruct Hd as [a Hd].
    destruct w as [| | | |[]|[]|[]| |]; simpl in Hkind; try contradiction;
      [rewrite Hkind in Hd; discriminate Hd|do 4 eexists; reflexivity].
Defined.
