(* ===== verification/NodeSample.v ===== *)
(** * A concrete codec and a concrete connection

    A codec that satisfies the round-trip law of [prost], as a concrete instance of
    [Protobuf] for the witnesses of theorems about nodes: an envelope is a list of
    tokens, a list of tokens is a number, and a number is written bit by bit. *)

From stdpp Require Import base list strings countable.
From Stdlib Require Import ZArith Lia.
From S2P Require Import Prelude ErrorModel NodeProtocol.
Open Scope Z_scope.

Abbreviation token := (Z + (bytes + string))%type.
Abbreviation num z := (inl z).
Abbreviation raw b := (inr (inl b)).
Abbreviation text s := (inr (inr s)).

Definition flag (b : bool) : Z := if b then 1 else 0.
Definition unflag (z : Z) : bool := z =? 1.
Lemma unflag_flag b : unflag (flag b) = b.
Proof. by destruct b. Qed.

Definition capability_tokens (c : CapabilityMessage) : list token :=
  [num (capability_id c); num (capability_min_version c); num (capability_max_version c);
   num (flag (capability_available c))].

Fixpoint parse_capabilities (l : list token) : option (list CapabilityMessage) :=
  match l with
  | [] => Some []
  | num a :: num b :: num c :: num d :: l =>
      cs ← parse_capabilities l;
      Some ({| capability_id := a; capability_min_version := b; capability_max_version := c;
               capability_available := unflag d |} :: cs)
  | _ => None
  end.

Lemma parse_capabilities_tokens cs : parse_capabilities (mjoin (map capability_tokens cs)) = Some cs.
Proof.
  induction cs as [|[a b c d] cs IH]; [done|].
  change (mjoin (map capability_tokens ({| capability_id := a; capability_min_version := b;
    capability_max_version := c; capability_available := d |} :: cs)))
    with ([num a; num b; num c; num (flag d)] ++ mjoin (map capability_tokens cs)).
  simpl app. cbn [parse_capabilities]. by rewrite IH, unflag_flag.
Qed.

Definition message_tokens (m : ControlMessage) : Z * list token :=
  match m with
  | MHelloRequest m => (1, [raw (hello_node_id m); text (hello_node_name m); num (min_minor m); num (max_minor m)])
  | MHelloResponse m => (2, [num (selected_minor m); raw (responder_node_id m); text (responder_node_name m)])
  | MPairRequest m => (3, [raw (pair_node_id m); raw (public_key m)])
  | MPairResponse m => (4, [num (flag (trusted m)); text (fingerprint m)])
  | MCapabilityRequest => (5, [])
  | MCapabilityResponse m => (6, mjoin (map capability_tokens (capabilities m)))
  | MPrepareTest m => (7, [raw (prepare_session_id m); text (prepare_operation_id m); text (test_type m);
      text (backend m); text (direction m); num (duration_ms m); num (warmup_ms m); num (cooldown_ms m);
      num (streams m); num (frame_size m); num (payload_size m); num (target_rate_bps m); num (mtu m);
      num (source_data_port m); num (receive_data_port m); text (accelerated_pci_address m);
      text (remote_accelerated_pci_address m); text (remote_mac_address m)])
  | MPrepareTestResponse m => (8, [num (flag (ready m)); num (response_data_port m);
      text (response_authorization_tag m); num (response_source_data_port m)])
  | MStartTest m => (9, [raw (start_session_id m); text (start_operation_id m); num (start_at_unix_nanoseconds m)])
  | MStopTest m => (10, [raw (stop_session_id m); text (stop_operation_id m)])
  | MTestStatus m => (11, [raw (status_session_id m); text (status_state m)])
  | MTestResult m => (12, [raw (result_session_id m); raw (result_json m); raw (checksum m)])
  | MTestResultRequest m => (13, [raw (query_session_id m)])
  | MPing m => (14, [num (ping_nonce m)])
  | MPong m => (15, [num (pong_nonce m)])
  | MError m => (16, [text (error_code m); text (error_message m); num (flag (error_retryable m))])
  end.

Definition parse_message (tag : Z) (l : list token) : option ControlMessage :=
  match tag, l with
  | 1, [raw a; text b; num c; num d] =>
      Some (MHelloRequest {| hello_node_id := a; hello_node_name := b; min_minor := c; max_minor := d |})
  | 2, [num a; raw b; text c] =>
      Some (MHelloResponse {| selected_minor := a; responder_node_id := b; responder_node_name := c |})
  | 3, [raw a; raw b] => Some (MPairRequest {| pair_node_id := a; public_key := b |})
  | 4, [num a; text b] => Some (MPairResponse {| trusted := unflag a; fingerprint := b |})
  | 5, [] => Some MCapabilityRequest
  | 6, l => cs ← parse_capabilities l; Some (MCapabilityResponse {| capabilities := cs |})
  | 7, [raw a; text b; text c; text d; text e; num f; num g; num h; num i; num j; num k; num m; num n;
        num o; num p; text q; text r; text s] =>
      Some (MPrepareTest {| prepare_session_id := a; prepare_operation_id := b; test_type := c; backend := d;
        direction := e; duration_ms := f; warmup_ms := g; cooldown_ms := h; streams := i; frame_size := j;
        payload_size := k; target_rate_bps := m; mtu := n; source_data_port := o; receive_data_port := p;
        accelerated_pci_address := q; remote_accelerated_pci_address := r; remote_mac_address := s |})
  | 8, [num a; num b; text c; num d] =>
      Some (MPrepareTestResponse {| ready := unflag a; response_data_port := b; response_authorization_tag := c;
        response_source_data_port := d |})
  | 9, [raw a; text b; num c] =>
      Some (MStartTest {| start_session_id := a; start_operation_id := b; start_at_unix_nanoseconds := c |})
  | 10, [raw a; text b] => Some (MStopTest {| stop_session_id := a; stop_operation_id := b |})
  | 11, [raw a; text b] => Some (MTestStatus {| status_session_id := a; status_state := b |})
  | 12, [raw a; raw b; raw c] =>
      Some (MTestResult {| result_session_id := a; result_json := b; checksum := c |})
  | 13, [raw a] => Some (MTestResultRequest {| query_session_id := a |})
  | 14, [num a] => Some (MPing {| ping_nonce := a |})
  | 15, [num a] => Some (MPong {| pong_nonce := a |})
  | 16, [text a; text b; num c] =>
      Some (MError {| error_code := a; error_message := b; error_retryable := unflag c |})
  | _, _ => None
  end.

Lemma parse_message_tokens m : parse_message (message_tokens m).1 (message_tokens m).2 = Some m.
Proof.
  destruct m as [[]|[]|[]|[]| |[cs]|[]|[]|[]|[]|[]|[]|[]|[]|[]|[]]; try done; cbn -[unflag flag mjoin];
    rewrite ?unflag_flag; try done.
  by rewrite parse_capabilities_tokens.
Qed.

Definition envelope_tokens (e : Envelope) : list token :=
  [num (protocol_major e); num (protocol_minor e); raw (envelope_request_id e)] ++
  match message e with
  | Some m => num (message_tokens m).1 :: (message_tokens m).2
  | None => []
  end.

Definition parse_envelope (l : list token) : option Envelope :=
  match l with
  | [num a; num b; raw c] =>
      Some {| protocol_major := a; protocol_minor := b; envelope_request_id := c; message := None |}
  | num a :: num b :: raw c :: num tag :: l =>
      m ← parse_message tag l;
      Some {| protocol_major := a; protocol_minor := b; envelope_request_id := c; message := Some m |}
  | _ => None
  end.

Lemma parse_envelope_tokens e : parse_envelope (envelope_tokens e) = Some e.
Proof. destruct e as [a b c [m|]]; [|done]. cbn. by rewrite parse_message_tokens. Qed.

(** Bits, one per byte. *)
Fixpoint bits (p : positive) : bytes :=
  match p with xH => [] | xO p => 0 :: bits p | xI p => 1 :: bits p end.
Fixpoint unbits (l : bytes) : positive :=
  match l with [] => xH | b :: l => if b =? 0 then xO (unbits l) else xI (unbits l) end.
Lemma unbits_bits p : unbits (bits p) = p.
Proof. induction p as [p IH|p IH|]; simpl; congruence. Qed.

#[export] Instance sample_codec : Protobuf := {
  encode_to_vec e := bits (encode (envelope_tokens e));
  envelope_decode bs :=
    match decode (unbits bs) ≫= parse_envelope with
    | Some e => inr e
    | None => inl "malformed"%string
    end;
}.

Lemma sample_codec_law e : envelope_decode (encode_to_vec e) = inr e.
Proof.
  unfold envelope_decode, encode_to_vec, sample_codec. rewrite unbits_bits, decode_encode. cbn [mbind option_bind].
  by rewrite parse_envelope_tokens.
Qed.
