(* ===== verification/NodeSystem.v ===== *)
(** * Remote speed sessions, end to end

    A client's preparation of a session ([NodeClient]) over the connection
    ([NodeLink]) to a node ([NodeServer]) with its coordinator ([SessionOps]). *)

From stdpp Require Import base list strings gmap.
From Stdlib Require Import ZArith Lia.
From S2P Require Import Prelude ErrorModel Resource Lifecycle UdpProtocol UdpSocket TcpEngine NodeProtocol Session SessionOps SessionRuns SpeedRun Planner NodeServer NodeClient NodeLink SessionInv SessionSample NodeSample.
Open Scope Z_scope.

(** ** What a preparation leaves, for a new operation ID. *)

Section Made.
Context {HO : HashOrder string Reservation}.

(** Follow a successful preparation. *)
Ltac made H Hop :=
  unfold gets, record, modify, fresh_session, reserve_active, on_resources, m_bind, m_ret in H; rewrite ?Hop in H;
  rewrite ?(eq_refl : ready_lifecycle = Ok _) in H;
  repeat match type of H with
  | context [match validate_prepare ?q with _ => _ end] => destruct (validate_prepare q); try done
  | context [match validate_tcp_sender_prepare ?q with _ => _ end] => destruct (validate_tcp_sender_prepare q); try done
  | context [match validate_udp_prepare ?q with _ => _ end] => destruct (validate_udp_prepare q); try done
  | context [match validate_udp_sender_prepare ?q with _ => _ end] => destruct (validate_udp_sender_prepare q); try done
  | context [session_exists ?c ?id] => destruct (session_exists c id) eqn:?He; try done
  | context [expiration ?a ?b] => destruct (expiration a b) as [x|?|]; try done
  | context [bind_endpoint ?h ?a] => destruct (bind_endpoint h a) as [[sk a']|?|] eqn:?Hb; try done
  | context [random_tag ?h] => destruct (random_tag h) as [t|?|] eqn:?Ht; try done
  | context [reserve ?m ?q] => destruct (reserve m q) as [[? ?]|?|]; try done
  | context [activate ?m ?q] => destruct (activate m q) as [[? ?]|?|]; try done
  end.

Lemma prepare_tcp_made h q now c c' r : operations c !! pt_operation_id q = None ->
  prepare_tcp h q now c = (c', Ok r) ->
  exists k a e, bind_endpoint h (pt_bind_address q) = Ok (k, a) /\ tcp_data_port r = port a /\
    session_authorization c' (pt_session_id q) = Some {|
      auth_session := pt_session_id q; source_node_id := pt_source_node_id q;
      source_address := pt_source_address q; source_port := None;
      destination_address := ip a; Session.protocol := "tcp"; destination_port := port a;
      authorization_tag := tcp_authorization_tag r; expires_at_unix_seconds := e |}.
Proof.
  intros Hop H. unfold prepare_tcp in H. made H Hop. injection H as <- <-.
  eexists sk, a', _. split_and!; try done. unfold session_authorization. simpl. by rewrite lookup_insert_eq.
Qed.

Lemma prepare_tcp_sender_made h q now c c' r : operations c !! pts_operation_id q = None ->
  prepare_tcp_sender h q now c = (c', Ok r) ->
  exists t, tcp_sessions c' !! pts_session_id q = Some t /\ tcp_data_port r = 0 /\
    t_sender_destination t = Some (pts_destination q) /\ t_config t = pts_config q /\
    t_sender_config t = None /\
    authorization_tag (t_authorization t) = tcp_authorization_tag r.
Proof.
  intros Hop H. unfold prepare_tcp_sender in H. made H Hop. injection H as <- <-.
  eexists. simpl. rewrite lookup_insert_eq. by split_and!.
Qed.

Lemma fresh_tables c id : session_exists c id = false ->
  tcp_sessions c !! id = None /\ udp_sessions c !! id = None.
Proof. intros H%session_exists_false%session_none. by destruct H as (?&?&_). Qed.

Lemma prepare_udp_made h q now c c' r : operations c !! pu_operation_id q = None ->
  prepare_udp h q now c = (c', Ok r) ->
  exists k a e, bind_endpoint h (pu_bind_address q) = Ok (k, a) /\ udp_data_port r = port a /\
    session_authorization c' (pu_session_id q) = Some {|
      auth_session := pu_session_id q; source_node_id := pu_source_node_id q;
      source_address := ip (pu_source_address q); source_port := Some (port (pu_source_address q));
      destination_address := ip a; Session.protocol := "udp"; destination_port := port a;
      authorization_tag := udp_authorization_tag r; expires_at_unix_seconds := e |}.
Proof.
  intros Hop H. unfold prepare_udp in H. made H Hop. injection H as <- <-.
  eexists sk, a', _. split_and!; try done. unfold session_authorization. simpl.
  destruct (fresh_tables c (pu_session_id q)) as [-> _]; [done|]. simpl. by rewrite lookup_insert_eq.
Qed.

Lemma prepare_udp_sender_made h q now c c' r : operations c !! pus_operation_id q = None ->
  prepare_udp_sender h q now c = (c', Ok r) ->
  exists u k a x, udp_sessions c' !! pus_session_id q = Some u /\
    bind_endpoint h (socket_addr (pus_source_address q) 0) = Ok (k, a) /\
    u_socket u = Some k /\ u_sender_destination u = Some (pus_destination q) /\
    u_sender_config u = Some x /\ s_session_id x = pus_session_id q /\ s_stream_id x = pus_stream_id q /\
    s_authorization_tag x = udp_authorization_tag r /\
    session_authorization c' (pus_session_id q) = Some (u_authorization u) /\
    source_port (u_authorization u) = Some (port a).
Proof.
  intros Hop H. unfold prepare_udp_sender in H. made H Hop. injection H as <- <-.
  eexists _, sk, a', _. unfold session_authorization. simpl. rewrite !lookup_insert_eq.
  destruct (fresh_tables c (pus_session_id q)) as [-> _]; [done|]. by split_and!.
Qed.

(** The session of a DPDK receiver is not among those that [authorization] sees. *)
Lemma prepare_dpdk_made h q now c c' r : operations c !! pd_operation_id q = None ->
  prepare_dpdk_receiver h q now c = (c', Ok r) -> session_authorization c' (pd_session_id q) = None.
Proof.
  intros Hop H. unfold prepare_dpdk_receiver in H.
  unfold gets, m_bind at 1 in H. rewrite Hop in H.
  destruct (negb (valid_dpdk_bdf _)); [done|]. destruct (_ || _); [done|].
  destruct (negb (valid_dpdk_mac _)); [done|]. made H Hop. injection H as <- <-.
  destruct (fresh_tables c (pd_session_id q) He) as [Htcp Hudp].
  unfold session_authorization. simpl. by rewrite Htcp, Hudp.
Qed.
End Made.

(** ** Requests at the node. *)

Section Requests.
Context {HO : HashOrder string Reservation} {RJ : ResultJson}.

Lemma dispatch_reply h e now s s' reply : dispatch h e now s = (s', Ok reply) ->
  forall m, message reply = Some m -> (forall er, m <> MError er) ->
  dispatch_message h e now s = (s', Ok m).
Proof.
  unfold dispatch. destruct (dispatch_message h e now s) as [s1 [m0|er|]]; intros [= <- <-] m; simpl.
  - by intros [= ->].
  - intros [= <-] H. by destruct (H (protocol_error er)).
Qed.

Lemma dispatch_capabilities h e now s s' r : message e = Some MCapabilityRequest ->
  dispatch_message h e now s = (s', Ok (MCapabilityResponse r)) ->
  s' = s /\ capabilities r = runtime_capabilities (dpdk_available s.1).
Proof.
  intros He. unfold dispatch_message, m_bind, m_ret, service. rewrite He.
  destruct (validate_envelope e) as [[]|er|]; [|done..].
  destruct (service_minor s.1) as [n|]; [|done]. destruct (n <? protocol_minor e); [done|].
  by intros [= <- <-].
Qed.

Lemma dispatch_prepare h e now s s' q m : message e = Some (MPrepareTest q) ->
  dispatch_message h e now s = (s', Ok m) -> handle_prepare h q now s = (s', Ok m).
Proof.
  intros He. unfold dispatch_message, m_bind, m_ret, service. rewrite He.
  destruct (validate_envelope e) as [[]|er|]; [|done..].
  destruct (service_minor s.1) as [n|]; [|done]. by destruct (n <? protocol_minor e).
Qed.
End Requests.

(** ** What a client gets from a node. *)

(** A socket bound to an address has that address: [local_addr] keeps the IP. *)
Definition binds_in_place (h : Host) : Prop := forall a k b,
  bind_endpoint h a = Ok (k, b) -> ip b = ip a.

(** The session that a client can use: a receiver that authorizes the client's
    connections, or a sender that will send to the client. *)
Definition usable_session (r : SpeedRunRequest) (id : bytes) (ports : LocalDataPlanePorts)
    (s : NodeControlService) (c : SessionCoordinator) (tag : string) (data_port source_port : Z) : Prop :=
  match run_direction r, run_protocol r with
  | Upload, RawSpeed | Download, RawSpeed | Bidirectional, _ => False
  | Upload, p => exists a, session_authorization c id = Some a /\ forall from_port now,
      (p = UdpSpeed -> from_port = send_port ports) -> now <= expires_at_unix_seconds a ->
      authorize_data_plane a {|
        attempt_session := id; attempt_node := expected_peer_node_id s;
        attempt_source := socket_addr (peer_address s) from_port;
        attempt_destination := socket_addr (service_bind_address s) data_port;
        attempt_protocol := protocol_name p; attempt_tag := tag; now_unix_seconds := now |} = true
  | Download, TcpSpeed => exists t, tcp_sessions c !! id = Some t /\
      t_sender_destination t = Some (socket_addr (peer_address s) (receive_port ports)) /\
      TcpEngine.measurement_milliseconds (t_config t) = run_duration_ms r /\
      authorization_tag (t_authorization t) = tag
  | Download, UdpSpeed => exists u k x, udp_sessions c !! id = Some u /\ u_socket u = Some k /\
      (exists a, local_addr k = inr a /\ port a = source_port /\ ip a = service_bind_address s) /\
      u_sender_destination u = Some (socket_addr (peer_address s) (receive_port ports)) /\
      u_sender_config u = Some x /\ s_session_id x = id /\ s_stream_id x = 0 /\ s_authorization_tag x = tag
  end.

Lemma ip_socket_addr a p : ip (socket_addr a p) = a.
Proof. by destruct a. Qed.
Lemma port_socket_addr a p : port (socket_addr a p) = p.
Proof. by destruct a. Qed.

Section System.
Context {HO : HashOrder string Reservation} {RJ : ResultJson}.

Lemma bind_endpoint_addr h a k b : bind_endpoint h a = Ok (k, b) -> local_addr k = inr b.
Proof.
  unfold bind_endpoint. destruct (bind h a) as [m|s]; [done|].
  destruct (local_addr s) as [m|b'] eqn:Hl; [done|]. by intros [= -> ->].
Qed.

(** What a node offers, and so what a plan for it can be. *)
Lemma runtime_offered id d : offered id (runtime_capabilities d) ->
  id = CAPABILITY_TCP_SPEED \/ id = CAPABILITY_UDP_SPEED \/
  d = true /\ (id = CAPABILITY_DPDK \/ id = CAPABILITY_RAW_PACKET_GENERATOR).
Proof.
  intros (x&Hx&<-&Ha&_). unfold runtime_capabilities in Hx. simpl in Hx.
  repeat (apply elem_of_cons in Hx as [->|Hx]; [simpl in *; intuition|]). by apply elem_of_nil in Hx.
Qed.

Lemma node_plan r operation id ports d plan :
  plan_speed_session r operation id ports (runtime_capabilities d) = Ok plan ->
  run_direction r <> Bidirectional /\ latency_under_load r = false /\
  plan_prepare plan = prepare_message r operation id ports.
Proof.
  intros (_&_&_&_&_&Hn&_&_&Hp)%plan_spec. split_and!; [| |done].
  - intros Hd. assert (needs r CAPABILITY_BIDIRECTIONAL) as H by (unfold needs; tauto).
    apply Hn, runtime_offered in H. unfold CAPABILITY_BIDIRECTIONAL, CAPABILITY_TCP_SPEED,
      CAPABILITY_UDP_SPEED, CAPABILITY_DPDK, CAPABILITY_RAW_PACKET_GENERATOR in H. lia.
  - destruct (latency_under_load r) eqn:Hl; [|done].
    assert (needs r CAPABILITY_LATENCY) as H by (unfold needs; tauto).
    apply Hn, runtime_offered in H. unfold CAPABILITY_LATENCY, CAPABILITY_TCP_SPEED,
      CAPABILITY_UDP_SPEED, CAPABILITY_DPDK, CAPABILITY_RAW_PACKET_GENERATOR in H. lia.
Qed.

Lemma accept_response_inv r id plan a p : accept_response r id plan a = Ok p ->
  prepared_session_id p = id /\ prepared_plan p = plan /\ response_authorization_tag a <> ""%string /\
  prepared_authorization_tag p = response_authorization_tag a /\
  remote_data_port p = response_data_port a /\ remote_source_data_port p = response_source_data_port a.
Proof.
  unfold accept_response, port_of, protocol, err. destruct (negb (ready a)); [done|].
  destruct (trimmed_empty _) eqn:Ht; [done|].
  destruct (_ <=? _); simpl; [|done]. destruct (_ <=? _); simpl; [|done].
  destruct (_ && _); [done|]. destruct (_ && _); [done|]. intros [= <-]. split_and!; try done.
  intros He. by rewrite He in Ht.
Qed.

(** The branch of [handle_prepare] that answered. *)
Lemma handle_prepare_inv h q now s c s' c' m :
  handle_prepare h q now (s, c) = ((s', c'), Ok m) ->
  exists ttl a, m = MPrepareTestResponse a /\
    let id := prepare_session_id q in
    let n := now / 1000000000 in
    let socket := one_of (backend q) ["socket"; "native"] in
    (if bool_decide (backend q = "dpdk"%string) && bool_decide (test_type q = "raw"%string)
     then handle_dpdk_prepare h q id n ttl
     else if bool_decide (test_type q = "tcp"%string) && socket then
       let! r := handle_tcp_prepare h q id n ttl in
       m_ret (Ok (response (tcp_data_port r) (tcp_authorization_tag r) 0))
     else if bool_decide (test_type q = "udp"%string) && socket then
       if bool_decide (direction q = "bidirectional"%string) then handle_udp_bidirectional h q id n ttl
       else if negb (bool_decide (direction q = "upload"%string)) then handle_udp_download h q id n ttl
       else handle_udp_upload h q id n ttl
     else m_ret (err Unsupported "test type/backend is not available in the socket Node runtime"))
      (s, c) = ((s', c'), Ok a).
Proof.
  unfold handle_prepare, m_bind at 1, m_ret at 1.
  destruct (parse_session_id (prepare_session_id q)) as [id|e|] eqn:Hid; [|done..].
  unfold parse_session_id, protocol, err in Hid. destruct (negb _); [done|]. case_bool_decide; [done|].
  injection Hid as <-. cbv zeta. unfold m_bind at 1, service at 1. cbn [fst snd].
  unfold SpeedRun.invalid, err, m_ret.
  destruct (negb _); [done|]. destruct (_ && _); [done|]. destruct (_ && _); [done|].
  destruct (_ && _); [done|]. destruct (_ && _ && _); [done|].
  unfold m_bind at 1. destruct (authorization_ttl q) as [ttl|e|]; [|done..].
  unfold m_bind at 1. intros Hm. exists ttl. revert Hm.
  match goal with
  | |- (let '(x, _) := ?b in _) = _ -> _ => destruct b as [x' [a|e|]] eqn:Hb; [|done..]
  end.
  intros [= -> <-]. by exists a.
Qed.

(** One call on the coordinator, and its result. *)
Lemma with_coordinator_inv {A} (m : op A) s c s' c' a :
  with_coordinator m (s, c) = ((s', c'), Ok a) -> s' = s /\ m c = (c', Ok a).
Proof. unfold with_coordinator. simpl. destruct (m c). by intros [= <- <- ->]. Qed.

Lemma bind_inv {S A B} (m : method S A) (n : A -> method S B) s s' b :
  m_bind m n s = (s', Ok b) -> exists s1 a, m s = (s1, Ok a) /\ n a s1 = (s', Ok b).
Proof. unfold m_bind. destruct (m s) as [s1 [a|e|]]; [by eauto|done..]. Qed.

Lemma to_u16_ok x m y : to_u16 x m = Ok y -> y = x.
Proof. unfold to_u16, SpeedRun.invalid, err. case_match; [|done]. by intros [= ->]. Qed.

(** Take a bind apart in a hypothesis. *)
Ltac step H x Hx :=
  let s1 := fresh "s1" in
  apply bind_inv in H as (s1&x&Hx&H);
  try (unfold m_ret at 1 in Hx; injection Hx as <- Hx; try apply to_u16_ok in Hx; subst);
  try (unfold service in Hx; injection Hx as <- <-).

Lemma tcp_upload h q id n ttl s c s' c' r : direction q = "upload"%string ->
  handle_tcp_prepare h q id n ttl (s, c) = ((s', c'), Ok r) -> s' = s /\
  exists config, prepare_tcp h {|
    pt_session_id := id; pt_operation_id := prepare_operation_id q;
    pt_source_node_id := expected_peer_node_id s; pt_source_address := peer_address s;
    pt_bind_address := socket_addr (service_bind_address s) 0; pt_config := config;
    pt_authorization_ttl_seconds := ttl |} n c = (c', Ok r).
Proof.
  intros Hd H. unfold handle_tcp_prepare in H. step H x Hx. step H y Hy. rewrite Hd in H. simpl in H.
  apply with_coordinator_inv in H as [-> H]. eauto.
Qed.

Lemma tcp_download h q id n ttl s c s' c' r : direction q = "download"%string ->
  handle_tcp_prepare h q id n ttl (s, c) = ((s', c'), Ok r) -> s' = s /\
  exists config, TcpEngine.measurement_milliseconds config = duration_ms q /\ prepare_tcp_sender h {|
    pts_session_id := id; pts_operation_id := prepare_operation_id q;
    pts_source_node_id := local_node_id (local_identity s);
    pts_source_address := service_bind_address s;
    pts_destination := socket_addr (peer_address s) (receive_data_port q); pts_config := config;
    pts_authorization_ttl_seconds := ttl |} n c = (c', Ok r).
Proof.
  intros Hd H. unfold handle_tcp_prepare in H. step H x Hx. step H y Hy. rewrite Hd in H. simpl in H.
  step H pt Hp. unfold m_ret, SpeedRun.invalid, err in H. destruct (_ =? 0); [done|].
  apply with_coordinator_inv in H as [-> H]. split; [done|]. eexists. by split; [|exact H].
Qed.

Lemma udp_upload h q id n ttl s c s' c' r :
  handle_udp_upload h q id n ttl (s, c) = ((s', c'), Ok r) -> s' = s /\
  exists p, r = response (udp_data_port p) (udp_authorization_tag p) 0 /\ prepare_udp h {|
    pu_session_id := id; pu_operation_id := prepare_operation_id q;
    pu_source_node_id := expected_peer_node_id s;
    pu_source_address := socket_addr (peer_address s) (source_data_port q);
    pu_bind_address := socket_addr (service_bind_address s) 0; pu_stream_id := 0;
    pu_maximum_datagram_bytes := Z.max (payload_size q) DEFAULT_UDP_DATAGRAM_BYTES;
    pu_idle_timeout_milliseconds := DEFAULT_UDP_IDLE_TIMEOUT_MILLISECONDS;
    pu_authorization_ttl_seconds := ttl |} n c = (c', Ok p).
Proof.
  intros H. unfold handle_udp_upload in H. step H x Hx. step H pt Hp. step H p Hr.
  destruct s1 as [s1 c1]. apply with_coordinator_inv in Hr as [-> Hr]. injection H as <- <- <-. eauto.
Qed.

Lemma udp_download h q id n ttl s c s' c' r :
  handle_udp_download h q id n ttl (s, c) = ((s', c'), Ok r) -> s' = s /\
  exists p, r = response 0 (udp_authorization_tag p)
      (default 0 (session_authorization c' id ≫= source_port)) /\ prepare_udp_sender h {|
    pus_session_id := id; pus_operation_id := prepare_operation_id q;
    pus_source_node_id := local_node_id (local_identity s);
    pus_source_address := service_bind_address s;
    pus_destination := socket_addr (peer_address s) (receive_data_port q); pus_stream_id := 0;
    pus_datagram_bytes := Z.max (payload_size q) DEFAULT_UDP_DATAGRAM_BYTES;
    pus_measurement_milliseconds := duration_ms q; pus_target_bits_per_second := target_rate q;
    pus_authorization_ttl_seconds := ttl |} n c = (c', Ok p).
Proof.
  intros H. unfold handle_udp_download in H. step H x Hx. step H pt Hp.
  unfold SpeedRun.invalid, err, m_ret at 1 in H. destruct (_ =? 0); [done|].
  step H p Hr. destruct s1 as [s1 c1]. apply with_coordinator_inv in Hr as [-> Hr].
  step H a Ha. injection H as <- <- <-. eauto.
Qed.

Lemma tcp_prepared h r operation id ports n ttl s c s' c' p : binds_in_place h ->
  operations c !! operation = None -> run_protocol r = TcpSpeed -> run_direction r <> Bidirectional ->
  handle_tcp_prepare h (prepare_message r operation id ports) id n ttl (s, c) = ((s', c'), Ok p) ->
  s' = s /\ usable_session r id ports s' c' (tcp_authorization_tag p) (tcp_data_port p) 0.
Proof.
  intros Hb Hop Hp Hd H. unfold usable_session. rewrite Hp.
  destruct (run_direction r) eqn:Hdir; [| |done].
  - apply tcp_upload in H as [-> [config H]]; [|simpl; by rewrite Hdir]. split; [done|].
    apply prepare_tcp_made in H as (k&a&e&Hk&->&Hauth); [|done]. eexists. split; [exact Hauth|].
    intros from_port now _ Hnow. apply authorize_iff. simpl in *. apply Hb in Hk.
    rewrite ip_socket_addr in Hk. rewrite !ip_socket_addr. split_and!; try done. apply port_socket_addr.
  - apply tcp_download in H as [-> (config&Hc&H)]; [|simpl; by rewrite Hdir]. split; [done|].
    apply prepare_tcp_sender_made in H as (t&Ht&_&Hdst&Hcf&_&Htag); [|done].
    exists t. split_and!; try done. simpl in Hcf. by rewrite Hcf.
Qed.

Lemma udp_up_prepared h r operation id ports n ttl s c s' c' a : binds_in_place h ->
  operations c !! operation = None -> run_protocol r = UdpSpeed -> run_direction r = Upload ->
  handle_udp_upload h (prepare_message r operation id ports) id n ttl (s, c) = ((s', c'), Ok a) ->
  s' = s /\ usable_session r id ports s' c' (response_authorization_tag a) (response_data_port a)
    (response_source_data_port a).
Proof.
  intros Hb Hop Hp Hd H. unfold usable_session. rewrite Hp, Hd.
  apply udp_upload in H as [-> (p&->&H)]. split; [done|].
  apply prepare_udp_made in H as (k&b&e&Hk&Hport&Hauth); [|done]. eexists. split; [exact Hauth|].
  intros from_port now Hfrom Hnow. apply authorize_iff. simpl in *. apply Hb in Hk.
  rewrite ip_socket_addr in Hk. rewrite !ip_socket_addr, !port_socket_addr, Hport. split_and!; try done.
  intros x [= <-]. by apply Hfrom.
Qed.

Lemma udp_down_prepared h r operation id ports n ttl s c s' c' a : binds_in_place h ->
  operations c !! operation = None -> run_protocol r = UdpSpeed -> run_direction r = Download ->
  handle_udp_download h (prepare_message r operation id ports) id n ttl (s, c) = ((s', c'), Ok a) ->
  s' = s /\ usable_session r id ports s' c' (response_authorization_tag a) (response_data_port a)
    (response_source_data_port a).
Proof.
  intros Hb Hop Hp Hd H. unfold usable_session. rewrite Hp, Hd.
  apply udp_download in H as [-> (p&->&H)]. split; [done|].
  apply prepare_udp_sender_made in H as (u&k&b&x&Hu&Hk&Hsk&Hdst&Hx&Hid&Hst&Htag&Hauth&Hsrc); [|done].
  simpl in *. exists u, k, x. split_and!; try done. rewrite Hauth. simpl. rewrite Hsrc. simpl.
  exists b. split_and!; [by eapply bind_endpoint_addr|done|]. apply Hb in Hk. by rewrite ip_socket_addr in Hk.
Qed.

(** The DPDK branch answers without a tag. *)
Lemma dpdk_untagged h q id n ttl s c s' c' a : operations c !! prepare_operation_id q = None ->
  handle_dpdk_prepare h q id n ttl (s, c) = ((s', c'), Ok a) -> response_authorization_tag a = ""%string.
Proof.
  intros Hop H. unfold handle_dpdk_prepare in H. step H x Hx.
  destruct (negb _); [done|]. step H p Hp. destruct s1 as [s1 c1].
  apply with_coordinator_inv in Hp as [-> Hp%prepare_dpdk_made]; [|done]. simpl in Hp.
  step H b Hq. injection H as <- <- <-. by rewrite Hp.
Qed.

(** What a node prepares for a planned message is usable, when it has a tag. *)
Lemma prepared_usable h r operation id ports now s c s' c' a : binds_in_place h ->
  operations c !! operation = None -> run_direction r <> Bidirectional ->
  handle_prepare h (prepare_message r operation id ports) now (s, c) =
    ((s', c'), Ok (MPrepareTestResponse a)) ->
  response_authorization_tag a <> ""%string ->
  s' = s /\ usable_session r id ports s' c' (response_authorization_tag a) (response_data_port a)
    (response_source_data_port a).
Proof.
  intros Hb Hop Hd H Htag. apply handle_prepare_inv in H. cbv zeta in H.
  destruct H as (ttl&a'&Ha&H). injection Ha as <-.
  assert (direction (prepare_message r operation id ports) = direction_name (run_direction r)) as Hdir
    by done.
  assert (test_type (prepare_message r operation id ports) = protocol_name (run_protocol r)) as Htype
    by done.
  rewrite Hdir, Htype in H. destruct (run_protocol r) eqn:Hp.
  - rewrite andb_false_r in H. simpl andb in H. destruct (one_of _ _); [|done].
    step H p Hr. destruct s1 as [s1 c1]. injection H as <- <- <-. by eapply tcp_prepared.
  - rewrite andb_false_r in H. simpl andb in H. destruct (one_of _ _); [|done].
    destruct (run_direction r) eqn:Hrd; [| |done].
    + by eapply udp_up_prepared; [..|exact H].
    + by eapply udp_down_prepared; [..|exact H].
  - rewrite andb_true_r in H. case_bool_decide; [|done]. by apply dpdk_untagged in H.
Qed.

End System.

(** ** A session, prepared over a connection. *)

Section Connected.
Context {HO : HashOrder string Reservation} {RJ : ResultJson} `{Protobuf}.
Context (turn : nat -> Host * Z) (draw : nat -> string + bytes).
Context (codec : forall e, envelope_decode (encode_to_vec e) = inr e).
#[local] Hint Extern 0 (ControlStream Link) => exact (the_stream turn draw) : typeclass_instances.

(** The node that answered with its capabilities. *)
Lemma capabilities_of_node l nid n c' caps : idle l ->
  client_capabilities {| stream := l; remote_node_id := nid; negotiated_minor := n |} = (c', Ok caps) ->
  idle (stream c') /\ served (stream c') = S (served l) /\ peer (stream c') = peer l /\
  remote_node_id c' = nid /\ negotiated_minor c' = n /\
  capabilities caps = runtime_capabilities (dpdk_available (peer l).1).
Proof.
  intros Hi. unfold client_capabilities. intros (c1&m&He&Hm)%bind_inv.
  destruct m; try done. injection Hm as <- <-.
  apply (exchange_ok turn draw codec) in He; [|done].
  destruct He as (rid&h&now&s'&reply&w&_&_&Hd&Hr&Hne&->).
  apply dispatch_reply with (m := MCapabilityResponse m) in Hd; [|done|done].
  apply dispatch_capabilities in Hd as [-> Hc]; [|done]. by split_and!.
Qed.

Lemma prepare_at_node l nid n q c' a : idle l ->
  prepare_test q {| stream := l; remote_node_id := nid; negotiated_minor := n |} = (c', Ok a) ->
  idle (stream c') /\ served (stream c') = S (served l) /\
  handle_prepare (turn (served l)).1 q (turn (served l)).2 (peer l) =
    (peer (stream c'), Ok (MPrepareTestResponse a)).
Proof.
  intros Hi. unfold prepare_test. intros (c1&m&He&Hm)%bind_inv.
  destruct m; try done. injection Hm as <- <-.
  apply (exchange_ok turn draw codec) in He; [|done].
  destruct He as (rid&h&now&s'&reply&w&_&Ht&Hd&Hr&Hne&->). rewrite Ht.
  apply dispatch_reply with (m := MPrepareTestResponse m) in Hd; [|done|done].
  by apply dispatch_prepare with (q := q) in Hd.
Qed.

Lemma prepared_over_link l nid n r operation id ports c' p : idle l ->
  (forall k, binds_in_place (turn k).1) -> operations (peer l).2 !! operation = None ->
  prepare_remote_speed_session r operation id ports
    {| stream := l; remote_node_id := nid; negotiated_minor := n |} = (c', Ok p) ->
  idle (stream c') /\ served (stream c') = S (S (served l)) /\ (peer (stream c')).1 = (peer l).1 /\
  prepared_session_id p = id /\ run_direction r <> Bidirectional /\ latency_under_load r = false /\
  usable_session r id ports (peer l).1 (peer (stream c')).2 (prepared_authorization_tag p)
    (remote_data_port p) (remote_source_data_port p).
Proof.
  intros Hi Hb Hop. unfold prepare_remote_speed_session.
  intros (c1&caps&Hcaps&Hr)%bind_inv. apply bind_inv in Hr as (c2&plan&Hplan&Hr).
  injection Hplan as <- Hplan. apply bind_inv in Hr as (c3&a&Ha&Hr). injection Hr as <- Hr.
  apply capabilities_of_node in Hcaps as (Hi1&Hs1&Hp1&Hn1&Hm1&Hc); [|done].
  rewrite Hc in Hplan. apply node_plan in Hplan as (Hdir&Hlat&Hmsg).
  destruct c1 as [l1 nid1 n1]. simpl in *.
  apply prepare_at_node in Ha as (Hi2&Hs2&Ha); [|done].
  apply accept_response_inv in Hr as (Hid&_&Htag&->&->&->).
  rewrite Hmsg, Hp1 in Ha. destruct (peer l) as [s c] eqn:Hl, (peer (stream c3)) as [s' c'].
  apply prepared_usable in Ha as [-> Hu]; [|apply Hb|done..]. split_and!; try done. congruence.
Qed.
End Connected.

(** C31: a client that prepares a session over an idle connection to a node, for an
    operation the node has not seen, gets a session it can use: the ID is the one it
    gave, the connection is idle again after exactly two requests, and at the node
    there is a receiver that authorizes the client's data-plane attempts with the tag
    and the port of the answer, or a sender that is bound where the answer says and
    aimed at the client's receiver. The codec's law is the protobuf round trip; the
    operating system binds sockets to the addresses it is asked for. *)
Theorem remote_session_usable {HO : HashOrder string Reservation} {RJ : ResultJson} `{Protobuf}
    turn draw (l : Link) nid n r operation id ports c' p :
  (forall e, envelope_decode (encode_to_vec e) = inr e) ->
  idle l -> (forall k, binds_in_place (turn k).1) -> operations (peer l).2 !! operation = None ->
  prepare_remote_speed_session (H := link_stream turn draw) r operation id ports
    {| stream := l; remote_node_id := nid; negotiated_minor := n |} = (c', Ok p) ->
  prepared_session_id p = id /\ idle (stream c') /\ served (stream c') = S (S (served l)) /\
  (peer (stream c')).1 = (peer l).1 /\
  usable_session r id ports (peer l).1 (peer (stream c')).2 (prepared_authorization_tag p)
    (remote_data_port p) (remote_source_data_port p).
Proof.
  intros codec Hi Hb Hop Hr.
  apply (prepared_over_link turn draw codec) in Hr as (?&?&?&?&_&_&?); [by split_and!|done..].
Qed.

(** A node's runtime cannot serve every speed run: over a connection to it, no
    bidirectional run, no run that measures latency under load and no raw Ethernet run
    is ever prepared successfully. *)
Theorem remote_session_limits {HO : HashOrder string Reservation} {RJ : ResultJson} `{Protobuf}
    turn draw (l : Link) nid n r operation id ports c' p :
  (forall e, envelope_decode (encode_to_vec e) = inr e) ->
  idle l -> (forall k, binds_in_place (turn k).1) -> operations (peer l).2 !! operation = None ->
  prepare_remote_speed_session (H := link_stream turn draw) r operation id ports
    {| stream := l; remote_node_id := nid; negotiated_minor := n |} = (c', Ok p) ->
  run_direction r <> Bidirectional /\ latency_under_load r = false /\ run_protocol r <> RawSpeed.
Proof.
  intros codec Hi Hb Hop Hr.
  apply (prepared_over_link turn draw codec) in Hr as (_&_&_&_&Hd&Hl&Hu); [|done..].
  split_and!; [done..|]. intros Hp. unfold usable_session in Hu. rewrite Hp in Hu.
  by destruct (run_direction r).
Qed.

(** ** A concrete connection. *)

(** A system that binds to the port [p] of the address it is given. *)
Definition place_host (p : Z) : Host :=
  {| bind := fun a => inr {| handle := p; local_addr := inr (socket_addr (ip a) p) |};
     random_fill := inr (map Z.of_nat (seq 0 32)) |}.

Lemma place_host_binds p : binds_in_place (place_host p).
Proof. intros a k b. unfold bind_endpoint. simpl. intros [= _ <-]. apply ip_socket_addr. Qed.

Definition sample_turn (k : nat) : Host * Z := (place_host (40000 + Z.of_nat k), 100000000000).
Definition sample_draw (k : nat) : string + bytes := inr (replicate 16 (1 + Z.of_nat k)).
Definition sample_service : NodeControlService :=
  {| local_identity := {| local_node_id := replicate 16 1; local_name := "node" |};
     expected_peer_node_id := replicate 16 9; peer_address := V4 2130706433;
     service_bind_address := V4 2130706433; service_minor := Some 1; dpdk_available := false |}.
Definition sample_link : Link :=
  {| pipe := {| from_client := []; to_client := [] |}; peer := (sample_service, new_coordinator);
     alive := true; served := 0; drawn := 0; workers := [] |}.
Definition sample_run (p : SpeedProtocol) (d : Direction) : SpeedRunRequest :=
  {| run_node := "node"; run_protocol := p; run_backend := "socket"; run_direction := d;
     run_duration_ms := 1000; run_warmup_ms := 0; run_cooldown_ms := 0; run_streams := None;
     run_frame_size := None; run_target_rate_bps := Some 1000000; auto_tune := false;
     latency_under_load := false; cpus := None; numa_node := None;
     run_accelerated_pci_address := None; run_accelerated_interface_name := None;
     run_remote_accelerated_pci_address := None; run_remote_mac_address := None |}.
Definition sample_ports : LocalDataPlanePorts := {| send_port := 5000; receive_port := 5001 |}.
Definition sample_prepare (p : SpeedProtocol) (d : Direction) :=
  prepare_remote_speed_session (H := link_stream sample_turn sample_draw) (sample_run p d) "op"
    (replicate 16 7) sample_ports
    {| stream := sample_link; remote_node_id := replicate 16 1; negotiated_minor := 1 |}.

Lemma sample_idle : idle sample_link.
Proof. by repeat split. Qed.
Lemma sample_new_operation : operations (peer sample_link).2 !! "op"%string = None.
Proof. apply lookup_empty. Qed.

Lemma remote_session_usable_witness : exists c p,
  sample_prepare UdpSpeed Download = (c, Ok p) /\ remote_source_data_port p = 40001 /\
  usable_session (sample_run UdpSpeed Download) (replicate 16 7) sample_ports sample_service
    (peer (stream c)).2 (prepared_authorization_tag p) (remote_data_port p) (remote_source_data_port p).
Proof.
  assert (exists c p, sample_prepare UdpSpeed Download = (c, Ok p) /\ remote_source_data_port p = 40001)
    as (c&p&H&Hp) by (vm_compute; by do 2 eexists).
  exists c, p. split; [exact H|]. split; [exact Hp|].
  by destruct (remote_session_usable sample_turn sample_draw sample_link _ _ _ _ _ _ c p
    sample_codec_law sample_idle (fun k => place_host_binds _) sample_new_operation H) as (_&_&_&_&Hu).
Defined.

Lemma remote_session_limits_witness :
  run_direction (sample_run UdpSpeed Upload) <> Bidirectional /\
  latency_under_load (sample_run UdpSpeed Upload) = false /\ run_protocol (sample_run UdpSpeed Upload) <> RawSpeed.
Proof.
  assert (exists c p, sample_prepare UdpSpeed Upload = (c, Ok p)) as (c&p&H) by (vm_compute; by do 2 eexists).
  exact (remote_session_limits sample_turn sample_draw sample_link _ _ _ _ _ _ c p
    sample_codec_law sample_idle (fun k => place_host_binds _) sample_new_operation H).
Defined.
