(* ===== verification/Certification.v ===== *)
(** * Benchmark plans and 100GbE certification

    Model of [crates/benchmark/src/lib.rs]: the plan's validation, the environment
    snapshot and its certification key, and the gates A to J. SHA-256 is a parameter:
    a function of the concatenation of what the digest was updated with. *)

From stdpp Require Import base list strings sets.
From Stdlib Require Import ZArith Lia.
From S2P Require Import Prelude ErrorModel.
Open Scope Z_scope.

(** ** Plans. *)

Inductive BenchmarkPhase :=
  | EnvironmentCheck | NicBaseline | RxBaseline | TxBaseline | BidirectionalPhase
  | PacketSizeMatrix | FlowMatrix | DurationTest | AnalysisTest | ResultPhase.
#[export] Instance BenchmarkPhase_eq_dec : EqDecision BenchmarkPhase.
Proof. solve_decision. Defined.

Record BenchmarkPlan := {
  profile_id : string;
  frame_sizes_bytes : list Z;
  flow_counts : list Z;
  warmup_seconds : Z;
  measurement_seconds : Z;
  sustained_seconds : Z;
}.

Definition phases : list BenchmarkPhase :=
  [EnvironmentCheck; NicBaseline; RxBaseline; TxBaseline; BidirectionalPhase; PacketSizeMatrix;
   FlowMatrix; DurationTest; AnalysisTest; ResultPhase].

Definition invalid {A} (m : string) : res A := err InvalidArgument m.

(** A loop that fails at the first required value that is missing. *)
Fixpoint require_all (required present : list Z) (m : Z -> string) : res unit :=
  match required with
  | [] => Ok tt
  | x :: required =>
      if bool_decide (x ∈ present) then require_all required present m else invalid (m x)
  end.

Definition validate_plan (p : BenchmarkPlan) : res unit :=
  if trimmed_empty (profile_id p) then invalid "benchmark profile ID is required"
  else
    let? _ := require_all [64; 128; 256; 512; 1024; 1518; 9018] (frame_sizes_bytes p)
                (fun x => "benchmark frame matrix is missing " +:+ dec x +:+ "B") in
    let? _ := require_all [1; 16; 256; 4096] (flow_counts p)
                (fun x => "benchmark flow matrix is missing " +:+ dec x +:+ " flows") in
    if negb (existsb (fun c => 1000000 <=? c) (flow_counts p))
    then invalid "benchmark flow matrix requires a high-cardinality test"
    else if (warmup_seconds p =? 0) || (measurement_seconds p =? 0) || (sustained_seconds p =? 0)
    then invalid "benchmark durations must be non-zero"
    else Ok tt.

(** ** The environment snapshot. *)

Record BenchmarkEnvironmentSnapshot := {
  os : option string;
  kernel : option string;
  cpu : option string;
  cpu_frequency : option string;
  numa : option string;
  memory : option string;
  huge_pages : option string;
  nic : option string;
  pcie : option string;
  firmware : option string;
  driver : option string;
  dpdk_version : option string;
  backend : option string;
  mtu : option Z;
  rx_queues : option Z;
  tx_queues : option Z;
  rss : option string;
  offloads : option string;
}.

(** The text fields that the macro [required!] lists, in its order. *)
Definition text_fields (e : BenchmarkEnvironmentSnapshot) : list (string * option string) :=
  [("os", os e); ("kernel", kernel e); ("cpu", cpu e); ("cpu_frequency", cpu_frequency e);
   ("numa", numa e); ("memory", memory e); ("huge_pages", huge_pages e); ("nic", nic e);
   ("pcie", pcie e); ("firmware", firmware e); ("driver", driver e); ("dpdk_version", dpdk_version e);
   ("backend", backend e); ("rss", rss e); ("offloads", offloads e)]%string.

Definition absent (v : option string) : bool :=
  match v with None => true | Some v => trimmed_empty v end.

Definition missing_fields (e : BenchmarkEnvironmentSnapshot) : list string :=
  (filter (fun f => absent f.2 = true) (text_fields e)).*1
  ++ (if bool_decide (mtu e = None) then ["mtu"%string] else [])
  ++ (if bool_decide (rx_queues e = None) then ["rx_queues"%string] else [])
  ++ (if bool_decide (tx_queues e = None) then ["tx_queues"%string] else []).

(** What [hash_field] feeds to the digest. *)
Definition hash_field (value : bytes) : bytes := to_be_bytes 8 (len value) ++ value.

(** The whole input of the digest of [certification_key]. *)
Definition key_input (e : BenchmarkEnvironmentSnapshot) : bytes :=
  mjoin (map (fun f => hash_field (as_bytes (default ""%string f.2))) (text_fields e))
  ++ hash_field (to_be_bytes 4 (default 0 (mtu e)))
  ++ hash_field (to_be_bytes 4 (default 0 (rx_queues e)))
  ++ hash_field (to_be_bytes 4 (default 0 (tx_queues e))).

Definition certification_key (sha256 : bytes -> bytes) (e : BenchmarkEnvironmentSnapshot) : res string :=
  let missing := missing_fields e in
  if negb (bool_decide (missing = []))
  then invalid ("benchmark environment is incomplete: " +:+ String.concat "," missing)
  else if bool_decide (mtu e = Some 0) || bool_decide (rx_queues e = Some 0)
          || bool_decide (tx_queues e = Some 0)
  then invalid "MTU and queue counts must be non-zero"
  else Ok (hex (sha256 (key_input e))).

(** ** Evidence. *)

Record BenchmarkDrops := { drops_nic : Z; drops_capture : Z; drops_ring : Z; drops_analyzer : Z }.
Record RxBaselineEvidence := {
  rx_bits_per_second : Z; rx_packets_per_second : Z; nic_drops : Z; application_drops : Z;
  rx_cpu_basis_points : Z;
}.
Record TxBaselineEvidence := {
  tx_bits_per_second : Z; tx_packets_per_second : Z; tx_cpu_basis_points : Z; tx_errors : Z;
  queue_utilization_basis_points : Z;
}.
Record CpuEvidence := {
  total_cpu_basis_points : Z; data_plane_cores : Z; bits_per_second_per_core : Z;
  packets_per_second_per_core : Z;
}.
Record StabilityEvidence := {
  short_duration_seconds : Z; sustained_duration_seconds : Z;
  repeated_throughput_bits_per_second : list Z;
}.
Record ThermalEvidence := {
  cpu_frequency_start : string; cpu_frequency_minimum : string; nic_state : string;
  thermal_throttling : bool;
}.
Record AnalyzerLoadEvidence := {
  frame_bytes : Z; throughput_bits_per_second : Z; analyzer_drops : Z;
}.
Record CertificationEvidence := {
  functional : bool;
  general_validation_completed : bool;
  link_speed_mbps : option Z;
  numa_locality_valid : option bool;
  rss_active : option bool;
  rx_queue_distribution_valid : option bool;
  rx_baseline : option RxBaselineEvidence;
  tx_baseline : option TxBaselineEvidence;
  bidirectional_bits_per_second : option Z;
  drops : option BenchmarkDrops;
  cpu_evidence : option CpuEvidence;
  stability : option StabilityEvidence;
  thermal : option ThermalEvidence;
  analyzer_loads : list AnalyzerLoadEvidence;
}.

(** ** Policy. *)

Record CertificationPolicy := {
  minimum_throughput_bits_per_second : Z;
  maximum_drops : BenchmarkDrops;
  minimum_short_duration_seconds : Z;
  minimum_sustained_duration_seconds : Z;
  minimum_repetitions : Z;
  maximum_reproducibility_spread_ppm : Z;
  minimum_analyzer_throughput_bits_per_second : Z;
  maximum_analyzer_drops : Z;
  allow_thermal_throttling_condition : bool;
}.

Definition validate_policy (p : CertificationPolicy) : res unit :=
  if (minimum_throughput_bits_per_second p =? 0) || (minimum_short_duration_seconds p =? 0)
     || (minimum_sustained_duration_seconds p =? 0)
     || (minimum_analyzer_throughput_bits_per_second p =? 0)
  then invalid "certification thresholds must be non-zero"
  else if minimum_repetitions p <? 2 then invalid "certification requires at least two repetitions"
  else if 1000000 <? maximum_reproducibility_spread_ppm p
  then invalid "reproducibility spread ppm exceeds one million"
  else Ok tt.

(** ** Gates. *)

Inductive CertificationGate := GateA | GateB | GateC | GateD | GateE | GateF | GateG | GateH | GateI | GateJ.
Inductive GateStatus := Pass | GateFail | NotEvaluated | Condition.
#[export] Instance GateStatus_eq_dec : EqDecision GateStatus.
Proof. solve_decision. Defined.
Record GateEvaluation := { gate : CertificationGate; status : GateStatus; reason : string }.

Inductive SupportLevel := Functional | Validated | Certified100G.
Record CertificationOutcome := {
  support_level : option SupportLevel;
  outcome_key : option string;
  gates : list GateEvaluation;
  conditions : list string;
}.

Definition evaluated (g : CertificationGate) (passed : bool) (pass_reason fail_reason : string) :
    GateEvaluation :=
  {| gate := g; status := if passed then Pass else GateFail;
     reason := if passed then pass_reason else fail_reason |}.
Definition not_evaluated (g : CertificationGate) (reason : string) : GateEvaluation :=
  {| gate := g; status := NotEvaluated; reason := reason |}.

Definition threshold_gate (g : CertificationGate) (measurement threshold : option Z)
    (passed failed : string) : GateEvaluation :=
  match measurement, threshold with
  | Some value, Some minimum => evaluated g (minimum <=? value) passed failed
  | _, None => not_evaluated g "POC-defined threshold is not configured"
  | None, Some _ => not_evaluated g "measurement evidence is missing"
  end.

Definition boolean_measurement (g : CertificationGate) (value : option bool) (passed failed : string) :
    GateEvaluation :=
  match value with
  | None => not_evaluated g "measurement evidence is missing"
  | Some value => evaluated g value passed failed
  end.

(** [Option::zip]. *)
Definition zip {A B} (a : option A) (b : option B) : option (A * B) :=
  a ← a; b ← b; Some (a, b).

Definition gate_a (ev : CertificationEvidence) : GateEvaluation :=
  boolean_measurement GateA ((fun speed => 100000 <=? speed) <$> link_speed_mbps ev)
    "100GbE link is negotiated" "negotiated link is below 100GbE".

Definition gate_b (ev : CertificationEvidence) : GateEvaluation :=
  boolean_measurement GateB (numa_locality_valid ev)
    "NIC, CPU and memory locality are valid" "NUMA locality is invalid".

Definition gate_c (ev : CertificationEvidence) : GateEvaluation :=
  boolean_measurement GateC
    ((fun '(rss, distribution) => rss && distribution) <$>
       zip (rss_active ev) (rx_queue_distribution_valid ev))
    "RSS and RX queue distribution are valid" "RSS or RX queue distribution is invalid".

Definition gate_d (ev : CertificationEvidence) (policy : option CertificationPolicy) : GateEvaluation :=
  let measurement :=
    '(rx, tx, both) ← zip (zip (rx_baseline ev) (tx_baseline ev)) (bidirectional_bits_per_second ev);
    if (rx_bits_per_second rx =? 0) || (rx_packets_per_second rx =? 0)
       || (10000 <? rx_cpu_basis_points rx) || (tx_bits_per_second tx =? 0)
       || (tx_packets_per_second tx =? 0) || (10000 <? tx_cpu_basis_points tx)
       || (10000 <? queue_utilization_basis_points tx) || (both =? 0)
    then None
    else Some (Z.min (Z.min (rx_bits_per_second rx) (tx_bits_per_second tx)) both) in
  threshold_gate GateD measurement (minimum_throughput_bits_per_second <$> policy)
    "throughput meets the POC-defined threshold" "throughput is below the POC-defined threshold".

Definition gate_e (ev : CertificationEvidence) (policy : option CertificationPolicy) : GateEvaluation :=
  match policy with
  | None => not_evaluated GateE "drop thresholds are not configured"
  | Some p =>
      match drops ev with
      | None => not_evaluated GateE "drop evidence is missing"
      | Some d =>
          let m := maximum_drops p in
          evaluated GateE
            ((drops_nic d <=? drops_nic m) && (drops_capture d <=? drops_capture m)
             && (drops_ring d <=? drops_ring m) && (drops_analyzer d <=? drops_analyzer m))
            "all classified drops meet thresholds" "one or more classified drops exceed thresholds"
      end
  end.

Definition gate_f (ev : CertificationEvidence) : GateEvaluation :=
  boolean_measurement GateF
    ((fun c => (total_cpu_basis_points c <=? 10000) && (0 <? data_plane_cores c)
               && (0 <? bits_per_second_per_core c) && (0 <? packets_per_second_per_core c))
       <$> cpu_evidence ev)
    "CPU and per-core efficiency evidence is complete" "CPU evidence is invalid".

Definition gate_g (ev : CertificationEvidence) (policy : option CertificationPolicy) : GateEvaluation :=
  match policy with
  | None => not_evaluated GateG "stability durations are not configured"
  | Some p =>
      match stability ev with
      | None => not_evaluated GateG "stability evidence is missing"
      | Some s =>
          evaluated GateG
            ((minimum_short_duration_seconds p <=? short_duration_seconds s)
             && (minimum_sustained_duration_seconds p <=? sustained_duration_seconds s))
            "short and sustained tests meet configured durations"
            "short or sustained test duration is insufficient"
      end
  end.

(** The gate, and what it adds to the conditions. *)
Definition gate_h (ev : CertificationEvidence) (policy : option CertificationPolicy) :
    GateEvaluation * list string :=
  match thermal ev with
  | None => (not_evaluated GateH "thermal evidence is missing", [])
  | Some t =>
      if trimmed_empty (cpu_frequency_start t) || trimmed_empty (cpu_frequency_minimum t)
         || trimmed_empty (nic_state t)
      then (evaluated GateH false "thermal evidence is complete" "thermal evidence is incomplete", [])
      else if negb (thermal_throttling t)
      then (evaluated GateH true "no thermal throttling was observed" "", [])
      else
        let made s r := {| gate := GateH; status := s; reason := r |} in
        (match policy with
         | Some p =>
             if allow_thermal_throttling_condition p
             then made Pass "thermal throttling condition was explicitly allowed and preserved"%string
             else made GateFail "thermal throttling is not allowed by the certification policy"%string
         | None => made Condition "thermal throttling condition requires an explicit policy"%string
         end, ["thermal_throttling_observed"%string])
  end.

Definition gate_i (ev : CertificationEvidence) (policy : option CertificationPolicy) : GateEvaluation :=
  match policy with
  | None => not_evaluated GateI "analyzer thresholds are not configured"
  | Some p =>
      let load n := snd <$> list_find (fun l => frame_bytes l = n) (analyzer_loads ev) in
      match zip (load 64) (load 1518) with
      | None => not_evaluated GateI "analysis-enabled 64B and 1518B loads are both required"
      | Some (small, standard) =>
          evaluated GateI
            (forallb (fun l =>
               (minimum_analyzer_throughput_bits_per_second p <=? throughput_bits_per_second l)
               && (analyzer_drops l <=? maximum_analyzer_drops p)) [small; standard])
            "64B and 1518B analyzer loads meet thresholds"
            "analyzer throughput or drops fail a primary load"
      end
  end.

(** [Iterator::min] and [Iterator::max]. *)
Definition minimum_of (l : list Z) : option Z :=
  match l with [] => None | x :: l => Some (fold_left Z.min l x) end.
Definition maximum_of (l : list Z) : option Z :=
  match l with [] => None | x :: l => Some (fold_left Z.max l x) end.

(** The product of a [u64] and a million fits a [u128]. *)
Definition gate_j (ev : CertificationEvidence) (policy : option CertificationPolicy) : GateEvaluation :=
  match policy with
  | None => not_evaluated GateJ "reproducibility thresholds are not configured"
  | Some p =>
      match stability ev with
      | None => not_evaluated GateJ "repeated measurements are missing"
      | Some s =>
          let runs := repeated_throughput_bits_per_second s in
          if len runs <? minimum_repetitions p
          then evaluated GateJ false "repetition count is sufficient" "repetition count is insufficient"
          else
            match minimum_of runs with
            | None => not_evaluated GateJ "repeated measurements are missing"
            | Some low =>
                let high := default low (maximum_of runs) in
                if low =? 0
                then evaluated GateJ false "throughput measurements are non-zero"
                       "a repeated throughput measurement is zero"
                else
                  let spread_ppm := sat_mul 128 (high - low) 1000000 / low in
                  evaluated GateJ (spread_ppm <=? maximum_reproducibility_spread_ppm p)
                    "repeated results meet dispersion threshold" "repeated results are unstable"
            end
      end
  end.

Definition evaluate_certification (sha256 : bytes -> bytes) (env : BenchmarkEnvironmentSnapshot)
    (ev : CertificationEvidence) (policy : option CertificationPolicy) : res CertificationOutcome :=
  let? _ := match policy with Some p => validate_policy p | None => Ok tt end in
  let '(h, conditions) := gate_h ev policy in
  let gates :=
    [gate_a ev; gate_b ev; gate_c ev; gate_d ev policy; gate_e ev policy; gate_f ev; gate_g ev policy; h;
     gate_i ev policy; gate_j ev policy] in
  let key := match certification_key sha256 env with Ok k => Some k | _ => None end in
  let all_pass :=
    forallb (fun g => bool_decide (status g = Pass)) gates
    && bool_decide (is_Some key) && bool_decide (is_Some policy) in
  let level :=
    if negb (functional ev) then None
    else if all_pass then Some Certified100G
    else if general_validation_completed ev then Some Validated
    else Some Functional in
  Ok {| support_level := level; outcome_key := key; gates := gates; conditions := conditions |}.

(** ** When a platform is certified. *)

(** Every field of the snapshot says something. *)
Definition complete (e : BenchmarkEnvironmentSnapshot) : Prop :=
  Forall (fun f => exists v, f.2 = Some v /\ trimmed_empty v = false) (text_fields e) /\
  Forall (fun n => exists x, n = Some x /\ x <> 0) [mtu e; rx_queues e; tx_queues e].

(** The repeated measurements are [u64]s. *)
Definition typed (ev : CertificationEvidence) : Prop := forall s,
  stability ev = Some s -> Forall (uint 64) (repeated_throughput_bits_per_second s).

(** The first load of the given frame size. *)
Definition first_load (n : Z) (loads : list AnalyzerLoadEvidence) (l : AnalyzerLoadEvidence) : Prop :=
  exists before after, loads = before ++ l :: after /\ frame_bytes l = n /\
    Forall (fun x => frame_bytes x <> n) before.

(** What each gate asks, against the thresholds of a policy. *)
Definition linked (ev : CertificationEvidence) : Prop :=
  exists speed, link_speed_mbps ev = Some speed /\ 100000 <= speed.
Definition placed (ev : CertificationEvidence) : Prop :=
  numa_locality_valid ev = Some true /\ rss_active ev = Some true /\
  rx_queue_distribution_valid ev = Some true.
Definition fast (ev : CertificationEvidence) (p : CertificationPolicy) : Prop :=
  exists rx tx both, rx_baseline ev = Some rx /\ tx_baseline ev = Some tx /\
    bidirectional_bits_per_second ev = Some both /\
    Forall (fun x => x <> 0) [rx_bits_per_second rx; rx_packets_per_second rx; tx_bits_per_second tx;
                              tx_packets_per_second tx; both] /\
    Forall (fun x => x <= 10000) [rx_cpu_basis_points rx; tx_cpu_basis_points tx;
                                  queue_utilization_basis_points tx] /\
    Forall (fun x => minimum_throughput_bits_per_second p <= x)
      [rx_bits_per_second rx; tx_bits_per_second tx; both].
Definition few_drops (ev : CertificationEvidence) (p : CertificationPolicy) : Prop :=
  exists d, drops ev = Some d /\ let m := maximum_drops p in
    drops_nic d <= drops_nic m /\ drops_capture d <= drops_capture m /\
    drops_ring d <= drops_ring m /\ drops_analyzer d <= drops_analyzer m.
Definition efficient (ev : CertificationEvidence) : Prop :=
  exists c, cpu_evidence ev = Some c /\ total_cpu_basis_points c <= 10000 /\ 0 < data_plane_cores c /\
    0 < bits_per_second_per_core c /\ 0 < packets_per_second_per_core c.
Definition stable (ev : CertificationEvidence) (p : CertificationPolicy) : Prop :=
  exists s, stability ev = Some s /\ minimum_short_duration_seconds p <= short_duration_seconds s /\
    minimum_sustained_duration_seconds p <= sustained_duration_seconds s.
Definition cool (ev : CertificationEvidence) (p : CertificationPolicy) : Prop :=
  exists t, thermal ev = Some t /\
    Forall (fun v => trimmed_empty v = false) [cpu_frequency_start t; cpu_frequency_minimum t; nic_state t] /\
    (thermal_throttling t = true -> allow_thermal_throttling_condition p = true).
Definition analyzed (ev : CertificationEvidence) (p : CertificationPolicy) : Prop :=
  Forall (fun n => exists l, first_load n (analyzer_loads ev) l /\
    minimum_analyzer_throughput_bits_per_second p <= throughput_bits_per_second l /\
    analyzer_drops l <= maximum_analyzer_drops p) [64; 1518].
(** No two runs differ, in whole parts per million of the slower one, by more than
    the allowed spread. *)
Definition reproducible (ev : CertificationEvidence) (p : CertificationPolicy) : Prop :=
  exists s, stability ev = Some s /\ let runs := repeated_throughput_bits_per_second s in
    minimum_repetitions p <= len runs /\
    forall x y, x ∈ runs -> y ∈ runs ->
      0 < y /\ (x - y) * 1000000 < (maximum_reproducibility_spread_ppm p + 1) * y.

Definition meets (ev : CertificationEvidence) (p : CertificationPolicy) : Prop :=
  linked ev /\ placed ev /\ fast ev p /\ few_drops ev p /\ efficient ev /\ stable ev p /\
  cool ev p /\ analyzed ev p /\ reproducible ev p.

(** ** The key. *)

Lemma absent_false v : absent v = false <-> exists x, v = Some x /\ trimmed_empty x = false.
Proof. unfold absent. destruct v; naive_solver. Qed.

Lemma absent_none (l : list (string * option string)) :
  (filter (fun f => absent f.2 = true) l).*1 = [] <->
  Forall (fun f => exists v, f.2 = Some v /\ trimmed_empty v = false) l.
Proof.
  induction l as [|f l IH]; [done|]. rewrite Forall_cons, <- absent_false, filter_cons.
  case_decide as Hf; rewrite Hf || apply not_true_iff_false in Hf; [by split; [|intros [? _]]|]. tauto.
Qed.

Lemma missing_fields_nil e : missing_fields e = [] <->
  Forall (fun f => exists v, f.2 = Some v /\ trimmed_empty v = false) (text_fields e) /\
  mtu e <> None /\ rx_queues e <> None /\ tx_queues e <> None.
Proof.
  unfold missing_fields. rewrite !app_nil, absent_none.
  repeat case_bool_decide; intuition discriminate.
Qed.

Lemma key_exists sha256 e : (exists k, certification_key sha256 e = Ok k) <-> complete e.
Proof.
  unfold certification_key, complete, invalid, err. rewrite !Forall_cons.
  case_bool_decide as Hm; [|].
  - apply missing_fields_nil in Hm as (Ht&Hm&Hr&Hx).
    destruct (mtu e) as [m|], (rx_queues e) as [r|], (tx_queues e) as [x|]; try done. simpl.
    repeat case_bool_decide; simplify_eq/=; split; intros Hk; try naive_solver.
  - simpl. split; [by intros [k Hk]|]. intros (Ht&(m&Hm'&_)&(r&Hr&_)&(x&Hx&_)&_). destruct Hm.
    apply missing_fields_nil. by rewrite Hm', Hr, Hx.
Qed.

(** ** The gates. *)

Lemma evaluated_pass g b x y : status (evaluated g b x y) = Pass <-> b = true.
Proof. by destruct b. Qed.

Lemma boolean_pass g v x y : status (boolean_measurement g v x y) = Pass <-> v = Some true.
Proof. destruct v as [[]|]; naive_solver. Qed.

Lemma gate_a_pass ev : status (gate_a ev) = Pass <-> linked ev.
Proof.
  unfold gate_a, linked. rewrite boolean_pass. destruct (link_speed_mbps ev) as [s|]; simpl; [|naive_solver].
  split; [intros [= Hs%Z.leb_le]; eauto|]. intros (x&[= <-]&Hs%Z.leb_le). by rewrite Hs.
Qed.

Lemma gates_bc_pass ev : status (gate_b ev) = Pass /\ status (gate_c ev) = Pass <-> placed ev.
Proof.
  unfold gate_b, gate_c, placed. rewrite !boolean_pass.
  destruct (rss_active ev) as [[]|], (rx_queue_distribution_valid ev) as [[]|]; naive_solver.
Qed.

Lemma threshold_pass g m t x y :
  status (threshold_gate g m t x y) = Pass <-> exists v low, m = Some v /\ t = Some low /\ low <= v.
Proof.
  unfold threshold_gate. destruct m, t; try (split; [done|naive_solver]). rewrite evaluated_pass, Z.leb_le. naive_solver.
Qed.

Lemma gate_d_pass ev p : status (gate_d ev (Some p)) = Pass <-> fast ev p.
Proof.
  unfold gate_d, fast. rewrite threshold_pass.
  destruct (rx_baseline ev) as [rx|], (tx_baseline ev) as [tx|], (bidirectional_bits_per_second ev) as [both|];
    simpl; try (split; [naive_solver|intros (?&?&?&?&?&?&_); naive_solver]).
  match goal with |- context [if ?b then _ else _] => destruct b eqn:Hb end.
  - rewrite !orb_true_iff, !Z.eqb_eq, !Z.ltb_lt in Hb. split; [naive_solver|].
    intros (rx'&tx'&both'&[= <-]&[= <-]&[= <-]&Hz&Hl&_). exfalso. repeat rewrite Forall_cons in Hz. repeat rewrite Forall_cons in Hl. simpl in Hz, Hl. lia.
  - rewrite !orb_false_iff, !Z.eqb_neq, !Z.ltb_ge in Hb. split.
    + intros (v&low&[= <-]&[= <-]&Hv). exists rx, tx, both. repeat rewrite Forall_cons. simpl. split_and!; try done; lia.
    + intros (rx'&tx'&both'&[= <-]&[= <-]&[= <-]&_&_&Hm). repeat rewrite Forall_cons in Hm. simpl in Hm.
      eexists _, _. split_and!; [done|done|]. lia.
Qed.

Lemma gate_e_pass ev p : status (gate_e ev (Some p)) = Pass <-> few_drops ev p.
Proof.
  unfold gate_e, few_drops. destruct (drops ev) as [d|]; [|naive_solver].
  rewrite evaluated_pass, !andb_true_iff, !Z.leb_le. naive_solver.
Qed.

Lemma gate_f_pass ev : status (gate_f ev) = Pass <-> efficient ev.
Proof.
  unfold gate_f, efficient. rewrite boolean_pass. destruct (cpu_evidence ev) as [c|]; [|naive_solver].
  simpl. rewrite (inj_iff Some), !andb_true_iff, !Z.leb_le, !Z.ltb_lt. split; [intros [[[??]?]?]; eauto 10|].
  intros (x&[= <-]&?&?&?&?). by split_and!.
Qed.

Lemma gate_g_pass ev p : status (gate_g ev (Some p)) = Pass <-> stable ev p.
Proof.
  unfold gate_g, stable. destruct (stability ev) as [s|]; [|naive_solver].
  rewrite evaluated_pass, !andb_true_iff, !Z.leb_le. naive_solver.
Qed.

Lemma gate_h_pass ev p : status (gate_h ev (Some p)).1 = Pass <-> cool ev p.
Proof.
  unfold gate_h, cool. destruct (thermal ev) as [t|]; [|naive_solver].
  destruct (trimmed_empty (cpu_frequency_start t)) eqn:?, (trimmed_empty (cpu_frequency_minimum t)) eqn:?,
    (trimmed_empty (nic_state t)) eqn:?; simpl;
    try (split; [done|intros (t'&[= <-]&Hf&_); rewrite !Forall_cons in Hf; destruct Hf as (?&?&?&_); congruence]).
  destruct (thermal_throttling t) eqn:?, (allow_thermal_throttling_condition p) eqn:?; simpl;
    split; try done; intros H; try (exists t; repeat rewrite Forall_cons; split_and!; try done; congruence).
  destruct H as (t'&[= <-]&_&H). by specialize (H Heqb2).
Qed.

Lemma find_first n loads l :
  snd <$> list_find (fun l => frame_bytes l = n) loads = Some l <-> first_load n loads l.
Proof.
  unfold first_load. induction loads as [|x loads IH]; simpl.
  - split; [done|]. by intros ([]&?&?&_).
  - case_decide as Hx; simpl.
    + split; [intros [= <-]; by exists [], loads|].
      intros ([|y before]&after&He&Hl&Hb); simpl in He; simplify_eq; [done|].
      apply Forall_cons in Hb as [Hb _]. done.
    + transitivity (snd <$> list_find (fun l => frame_bytes l = n) loads = Some l).
      { destruct (list_find _ loads) as [[]|]; done. }
      rewrite IH. split.
      * intros (before&after&->&Hl&Hb). exists (x :: before), after. split_and!; [done|done|]. by constructor.
      * intros ([|y before]&after&He&Hl&Hb); simpl in He; simplify_eq.
        apply Forall_cons in Hb as [_ Hb]. by exists before, after.
Qed.

Lemma gate_i_pass ev p : status (gate_i ev (Some p)) = Pass <-> analyzed ev p.
Proof.
  unfold gate_i, analyzed, zip. repeat rewrite Forall_cons. setoid_rewrite <- find_first.
  destruct (snd <$> list_find (fun l => frame_bytes l = 64) (analyzer_loads ev)) as [a|],
    (snd <$> list_find (fun l => frame_bytes l = 1518) (analyzer_loads ev)) as [b|]; cbn [mbind option_bind];
    try naive_solver.
  rewrite evaluated_pass. simpl. rewrite !andb_true_iff, !Z.leb_le. naive_solver.
Qed.

(** ** Reproducibility. *)

Lemma fold_min l x : fold_left Z.min l x ∈ x :: l /\ forall y, y ∈ x :: l -> fold_left Z.min l x <= y.
Proof.
  revert x. induction l as [|z l IH]; intros x; simpl; [split; [set_solver|intros y ->%list_elem_of_singleton; lia]|].
  destruct (IH (Z.min x z)) as [Hin Hle]. split.
  - destruct (Z.min_dec x z) as [H|H]; rewrite H in *; set_solver.
  - assert (fold_left Z.min l (Z.min x z) <= Z.min x z) by (apply Hle; set_solver).
    intros y [->|[->|Hy]%elem_of_cons]%elem_of_cons; [lia|lia|apply Hle; set_solver].
Qed.

Lemma fold_max l x : fold_left Z.max l x ∈ x :: l /\ forall y, y ∈ x :: l -> y <= fold_left Z.max l x.
Proof.
  revert x. induction l as [|z l IH]; intros x; simpl; [split; [set_solver|intros y ->%list_elem_of_singleton; lia]|].
  destruct (IH (Z.max x z)) as [Hin Hle]. split.
  - destruct (Z.max_dec x z) as [H|H]; rewrite H in *; set_solver.
  - assert (Z.max x z <= fold_left Z.max l (Z.max x z)) by (apply Hle; set_solver).
    intros y [->|[->|Hy]%elem_of_cons]%elem_of_cons; [lia|lia|apply Hle; set_solver].
Qed.

(** Whole parts per million. *)
Lemma ppm_le a low m : 0 <= a <= umax 64 -> 0 < low ->
  sat_mul 128 a 1000000 / low <= m <-> a * 1000000 < (m + 1) * low.
Proof.
  intros Ha Hl. replace (sat_mul 128 a 1000000) with (a * 1000000) by (unfold sat_mul, umax in *; lia).
  split; intros H.
  - pose proof (Z.mul_succ_div_gt (a * 1000000) low Hl). nia.
  - enough (a * 1000000 / low < m + 1) by lia. apply Z.div_lt_upper_bound; lia.
Qed.

Lemma gate_j_pass ev p : typed ev -> 2 <= minimum_repetitions p ->
  status (gate_j ev (Some p)) = Pass <-> reproducible ev p.
Proof.
  intros Ht Hp. unfold gate_j, reproducible, typed in *. destruct (stability ev) as [s|]; [|naive_solver].
  specialize (Ht s eq_refl). set (runs := repeated_throughput_bits_per_second s) in *. cbv zeta.
  destruct (Z.ltb_spec (len runs) (minimum_repetitions p)) as [Hn|Hn].
  { split; [done|]. intros (s'&[= <-]&H&_). fold runs in H. lia. }
  destruct runs as [|x l] eqn:Hr; [unfold len in Hn; simpl in Hn; lia|]. cbn [minimum_of maximum_of default].
  destruct (fold_min l x) as [Hmin Hlow], (fold_max l x) as [Hmax Hhigh].
  set (low := fold_left Z.min l x) in *. set (high := fold_left Z.max l x) in *.
  rewrite Forall_forall in Ht. pose proof (Ht low Hmin) as Hl. pose proof (Ht high Hmax) as Hh.
  unfold uint in Hl, Hh. destruct (Z.eqb_spec low 0) as [Hz|Hz].
  { split; [done|]. intros (s'&[= <-]&_&H). fold runs in H. rewrite Hr in H. specialize (H low low Hmin Hmin). lia. }
  pose proof (Hlow high Hmax) as Hlh. change (id high) with high.
  rewrite evaluated_pass, Z.leb_le, ppm_le by lia. split.
  - intros H. exists s. fold runs. rewrite Hr. split_and!; [done|done|]. intros a b Ha Hb.
    pose proof (Hlow b Hb). pose proof (Hhigh a Ha). pose proof (Hlow a Ha). split; [lia|].
    apply Z.le_lt_trans with ((high - low) * 1000000 + (low - b) * 1000000); [lia|].
    nia.
  - intros (s'&[= <-]&_&H). fold runs in H. rewrite Hr in H. by apply H.
Qed.

(** ** The outcome. *)

Lemma policy_repetitions p : validate_policy p = Ok tt -> 2 <= minimum_repetitions p.
Proof.
  unfold validate_policy, invalid, err. destruct (_ || _); [done|].
  destruct (Z.ltb_spec (minimum_repetitions p) 2); [done|lia].
Qed.

Lemma gates_pass ev p : typed ev -> validate_policy p = Ok tt ->
  Forall (fun g => status g = Pass)
    [gate_a ev; gate_b ev; gate_c ev; gate_d ev (Some p); gate_e ev (Some p); gate_f ev;
     gate_g ev (Some p); (gate_h ev (Some p)).1; gate_i ev (Some p); gate_j ev (Some p)] <-> meets ev p.
Proof.
  intros Ht Hp%policy_repetitions. unfold meets. repeat rewrite Forall_cons.
  rewrite gate_a_pass, gate_d_pass, gate_e_pass, gate_f_pass, gate_g_pass, gate_h_pass, gate_i_pass,
    gate_j_pass, <- (gates_bc_pass ev) by done.
  intuition.
Qed.

Lemma gate_names ev policy :
  map gate [gate_a ev; gate_b ev; gate_c ev; gate_d ev policy; gate_e ev policy; gate_f ev; gate_g ev policy;
            (gate_h ev policy).1; gate_i ev policy; gate_j ev policy] =
  [GateA; GateB; GateC; GateD; GateE; GateF; GateG; GateH; GateI; GateJ].
Proof.
  assert (forall g v x y, gate (boolean_measurement g v x y) = g) as Hb by by intros ? [[]|].
  assert (forall g m t x y, gate (threshold_gate g m t x y) = g) as Ht by by intros ? [] [].
  unfold gate_a, gate_b, gate_c, gate_d, gate_e, gate_f, gate_g, gate_h, gate_i, gate_j. simpl.
  rewrite !Hb, Ht. repeat f_equal; by repeat case_match.
Qed.

Lemma forallb_pass l :
  forallb (fun g => bool_decide (status g = Pass)) l = true <-> Forall (fun g => status g = Pass) l.
Proof.
  induction l as [|g l IH]; simpl; [done|]. by rewrite andb_true_iff, bool_decide_eq_true, Forall_cons, IH.
Qed.

(** The thermal condition that must be kept with the result. *)
Lemma thermal_condition ev policy : (gate_h ev policy).2 <> [] <-> exists t, thermal ev = Some t /\
  Forall (fun v => trimmed_empty v = false) [cpu_frequency_start t; cpu_frequency_minimum t; nic_state t] /\
  thermal_throttling t = true.
Proof.
  unfold gate_h. destruct (thermal ev) as [t|]; [|naive_solver].
  repeat setoid_rewrite Forall_cons.
  destruct (trimmed_empty (cpu_frequency_start t)) eqn:?, (trimmed_empty (cpu_frequency_minimum t)) eqn:?,
    (trimmed_empty (nic_state t)) eqn:?, (thermal_throttling t) eqn:?; simpl;
    split; intros H; try done; try (by (destruct H as (t'&[= <-]&(?&?&?&_)&?); congruence)).
  exists t. by split_and!.
Qed.

Lemma policy_outcome sha256 env ev policy out : evaluate_certification sha256 env ev policy = Ok out ->
  (forall p, policy = Some p -> validate_policy p = Ok tt) /\
  gates out = [gate_a ev; gate_b ev; gate_c ev; gate_d ev policy; gate_e ev policy; gate_f ev;
               gate_g ev policy; (gate_h ev policy).1; gate_i ev policy; gate_j ev policy] /\
  conditions out = (gate_h ev policy).2 /\
  (is_Some (outcome_key out) <-> complete env) /\
  support_level out =
    (if negb (functional ev) then None
     else if forallb (fun g => bool_decide (status g = Pass)) (gates out)
             && bool_decide (is_Some (outcome_key out)) && bool_decide (is_Some policy)
     then Some Certified100G
     else if general_validation_completed ev then Some Validated else Some Functional).
Proof.
  unfold evaluate_certification.
  assert (forall o : res unit, o = Ok tt -> True) by done.
  destruct policy as [p|]; [destruct (validate_policy p) as [[]|e|] eqn:Hp; [|done..]|];
    cbn [obind]; (destruct (gate_h ev _) as [h conds]); intros [= <-]; simpl;
    (split_and!; [by intros ? [= <-] || done|done|done| |done]);
    rewrite <- (key_exists sha256); destruct (certification_key sha256 env); split;
    try (by intros [? [=]]); try (by intros [? ?]); by eexists.
Qed.

(** C34: a platform is certified for 100GbE exactly when it works, every field of its
    snapshot is known, and its evidence meets a policy: link, locality, throughput,
    drops, CPU, durations, thermal state, analyser loads and repetitions, none of
    which a gate may leave unjudged. Without a policy nothing is certified; the ten
    gates are always listed in order. A condition is kept exactly when throttling was
    observed and the thermal record is complete: gate H looks at the texts of the
    record first, so throttling in a record with a blank text fails the gate but leaves
    no condition, although the architecture document says that it always does. *)
Theorem certification_exact (sha256 : bytes -> bytes) env ev policy out :
  typed ev -> evaluate_certification sha256 env ev policy = Ok out ->
  (support_level out = Some Certified100G <->
     functional ev = true /\ complete env /\ exists p, policy = Some p /\ meets ev p) /\
  (support_level out = None <-> functional ev = false) /\
  map gate (gates out) = [GateA; GateB; GateC; GateD; GateE; GateF; GateG; GateH; GateI; GateJ] /\
  (conditions out <> [] <-> exists t, thermal ev = Some t /\
     Forall (fun v => trimmed_empty v = false) [cpu_frequency_start t; cpu_frequency_minimum t; nic_state t] /\
     thermal_throttling t = true).
Proof.
  intros Ht (Hp&Hg&Hc&Hk&Hl)%policy_outcome. rewrite Hg, gate_names, Hc, thermal_condition.
  split; [|split; [|done]].
  2: { rewrite Hl. by destruct (functional ev), (_ && _), (general_validation_completed ev). }
  rewrite Hl, <- Hk. destruct (functional ev); simpl; [|naive_solver].
  destruct policy as [p|]; [|rewrite andb_false_r; destruct (general_validation_completed ev); naive_solver].
  pose proof (gates_pass ev p Ht (Hp p eq_refl)) as Hm. rewrite <- Hg, <- forallb_pass in Hm.
  set (all := forallb _ _) in *. clearbody all. set (level := if general_validation_completed ev then _ else _).
  assert (level <> Some Certified100G) as Hlevel by (unfold level; by destruct (general_validation_completed ev)).
  clearbody level. destruct all; simpl; [|naive_solver].
  case_bool_decide; simpl; [|naive_solver].
  split; [|done]. intros _. split_and!; [done|done|]. exists p. split; [done|]. by apply Hm.
Qed.

(** ** The key binds the platform. *)

Definition typed_env (e : BenchmarkEnvironmentSnapshot) : Prop :=
  Forall (fun f => forall v, f.2 = Some v -> uint 64 (len (as_bytes v))) (text_fields e) /\
  Forall (fun n => forall x, n = Some x -> uint 32 x) [mtu e; rx_queues e; tx_queues e].

Lemma hash_field_inj a b r r' : uint 64 (len a) -> uint 64 (len b) ->
  hash_field a ++ r = hash_field b ++ r' -> a = b /\ r = r'.
Proof.
  unfold hash_field. rewrite <- !(assoc_L (++)). intros Ha Hb H.
  apply app_inj_1 in H as [Hl H]; [|by rewrite !to_be_bytes_length].
  apply (f_equal from_be_bytes) in Hl. unfold uint, umax in *. rewrite !from_to_be_bytes in Hl by lia.
  apply app_inj_1 in H; [done|]. unfold len in Hl. lia.
Qed.

(** Fields with a text, and the hashes of their texts. *)
Lemma texts_inj l l' r r' : map fst l = map fst l' ->
  Forall (fun f : string * option string => exists v, f.2 = Some v /\ trimmed_empty v = false) l ->
  Forall (fun f : string * option string => exists v, f.2 = Some v /\ trimmed_empty v = false) l' ->
  Forall (fun f => forall v, f.2 = Some v -> uint 64 (len (as_bytes v))) l ->
  Forall (fun f => forall v, f.2 = Some v -> uint 64 (len (as_bytes v))) l' ->
  mjoin (map (fun f => hash_field (as_bytes (default ""%string f.2))) l) ++ r =
  mjoin (map (fun f => hash_field (as_bytes (default ""%string f.2))) l') ++ r' -> l = l' /\ r = r'.
Proof.
  revert l'. induction l as [|[n v] l IH]; intros [|[n' v'] l'] Hn; try done.
  injection Hn as <- Hn. intros [(x&Hv&_) Hl]%Forall_cons [(x'&Hv'&_) Hl']%Forall_cons
    [Hu Hul]%Forall_cons [Hu' Hul']%Forall_cons. simpl in *. subst v v'.
  specialize (Hu x eq_refl). specialize (Hu' x' eq_refl). simpl. rewrite <- !(assoc_L (++)). intros H.
  apply hash_field_inj in H as [Hx%as_bytes_inj H]; [|done..]. apply IH in H as [-> ->]; [|done..].
  by subst.
Qed.

Lemma u32_field_inj x y r r' : uint 32 x -> uint 32 y ->
  hash_field (to_be_bytes 4 x) ++ r = hash_field (to_be_bytes 4 y) ++ r' -> x = y /\ r = r'.
Proof.
  intros Hx Hy H. apply hash_field_inj in H as [H ->]; [|by rewrite len_to_be_bytes..].
  apply (f_equal from_be_bytes) in H. unfold uint, umax in *. rewrite !from_to_be_bytes in H by lia. done.
Qed.

Lemma key_input_inj e e' : complete e -> complete e' -> typed_env e -> typed_env e' ->
  key_input e = key_input e' -> e = e'.
Proof.
  intros [Ht Hn] [Ht' Hn'] [Hu Hv] [Hu' Hv'] H. unfold key_input in H.
  apply texts_inj in H as [Htexts H]; [|done..].
  rewrite <- (app_nil_r (hash_field (to_be_bytes 4 (default 0 (tx_queues e))))),
    <- (app_nil_r (hash_field (to_be_bytes 4 (default 0 (tx_queues e'))))) in H.
  repeat (apply Forall_cons in Hn as [(?&?&_) Hn]). repeat (apply Forall_cons in Hn' as [(?&?&_) Hn']).
  repeat (apply Forall_cons in Hv as [? Hv]). repeat (apply Forall_cons in Hv' as [? Hv']).
  destruct e, e'. simpl in *. subst. simpl in H.
  apply u32_field_inj in H as [-> H]; [|by auto..]. apply u32_field_inj in H as [-> H]; [|by auto..].
  apply u32_field_inj in H as [-> _]; [|by auto..].
  unfold text_fields in Htexts. simpl in Htexts. by simplify_eq.
Qed.

(** Two complete snapshots with the same certification key are the same snapshot,
    field by field, or their digests are a collision of SHA-256. *)
Theorem key_binds_platform (sha256 : bytes -> bytes) e e' k :
  (forall x, bytes_ok (sha256 x)) -> typed_env e -> typed_env e' ->
  certification_key sha256 e = Ok k -> certification_key sha256 e' = Ok k ->
  e = e' \/ exists x y, x <> y /\ sha256 x = sha256 y.
Proof.
  intros Hs He He' Hk Hk'.
  assert (complete e) as Hc by (by apply (key_exists sha256); eexists).
  assert (complete e') as Hc' by (by apply (key_exists sha256); eexists).
  assert (forall d, certification_key sha256 d = Ok k -> hex (sha256 (key_input d)) = k) as Hval.
  { intros d. unfold certification_key, invalid, err. destruct (negb _); [done|].
    destruct (_ || _); [done|]. by intros [= <-]. }
  apply Hval in Hk, Hk'. subst k. apply hex_inj in Hk'; [|done..].
  destruct (decide (key_input e' = key_input e)) as [Heq|Hne]; [left|right; eauto].
  by apply key_input_inj.
Qed.

(** ** A certified platform. *)

Definition sample_env (n : Z) : BenchmarkEnvironmentSnapshot :=
  {| os := Some "Linux"; kernel := Some "6.8"; cpu := Some "x86-64"; cpu_frequency := Some "3 GHz";
     numa := Some "node 0"; memory := Some "64 GiB"; huge_pages := Some "1 GiB"; nic := Some "100G";
     pcie := Some "gen4 x16"; firmware := Some "1"; driver := Some "mlx5"; dpdk_version := Some "24.11";
     backend := Some "dpdk"; mtu := Some n; rx_queues := Some 8; tx_queues := Some 8;
     rss := Some "toeplitz"; offloads := Some "none" |}%string.
Definition no_drops : BenchmarkDrops :=
  {| drops_nic := 0; drops_capture := 0; drops_ring := 0; drops_analyzer := 0 |}.
Definition sample_policy : CertificationPolicy :=
  {| minimum_throughput_bits_per_second := 95000000000; maximum_drops := no_drops;
     minimum_short_duration_seconds := 60; minimum_sustained_duration_seconds := 3600;
     minimum_repetitions := 3; maximum_reproducibility_spread_ppm := 10000;
     minimum_analyzer_throughput_bits_per_second := 40000000000; maximum_analyzer_drops := 0;
     allow_thermal_throttling_condition := false |}.
Definition sample_evidence : CertificationEvidence :=
  {| functional := true; general_validation_completed := true; link_speed_mbps := Some 100000;
     numa_locality_valid := Some true; rss_active := Some true; rx_queue_distribution_valid := Some true;
     rx_baseline := Some {| rx_bits_per_second := 98000000000; rx_packets_per_second := 8000000;
       nic_drops := 0; application_drops := 0; rx_cpu_basis_points := 4000 |};
     tx_baseline := Some {| tx_bits_per_second := 97000000000; tx_packets_per_second := 8000000;
       tx_cpu_basis_points := 4000; tx_errors := 0; queue_utilization_basis_points := 9000 |};
     bidirectional_bits_per_second := Some 96000000000; drops := Some no_drops;
     cpu_evidence := Some {| total_cpu_basis_points := 5000; data_plane_cores := 8;
       bits_per_second_per_core := 12000000000; packets_per_second_per_core := 1000000 |};
     stability := Some {| short_duration_seconds := 60; sustained_duration_seconds := 3600;
       repeated_throughput_bits_per_second := [98000000000; 97900000000; 97950000000] |};
     thermal := Some {| cpu_frequency_start := "3 GHz"; cpu_frequency_minimum := "3 GHz";
       nic_state := "60 C"; thermal_throttling := false |};
     analyzer_loads :=
       [{| frame_bytes := 64; throughput_bits_per_second := 41000000000; analyzer_drops := 0 |};
        {| frame_bytes := 1518; throughput_bits_per_second := 90000000000; analyzer_drops := 0 |}] |}.

(** Any function to bytes will do. *)
Definition sample_digest (bs : bytes) : bytes := take 32 (map (fun b => b mod 256) bs).

Lemma sample_typed : typed sample_evidence.
Proof. intros s [= <-]. repeat constructor; done. Qed.

Lemma certification_exact_witness : exists out,
  evaluate_certification sample_digest (sample_env 1500) sample_evidence (Some sample_policy) = Ok out /\
  support_level out = Some Certified100G /\ meets sample_evidence sample_policy /\ conditions out = [].
Proof.
  destruct (evaluate_certification sample_digest (sample_env 1500) sample_evidence (Some sample_policy))
    as [out| |] eqn:H; [|vm_compute in H; discriminate H..].
  destruct (certification_exact sample_digest (sample_env 1500) sample_evidence (Some sample_policy) out
    sample_typed H) as (Hc&_).
  exists out. split; [reflexivity|].
  assert (support_level out = Some Certified100G /\ conditions out = []) as [Hl Hn]
    by (vm_compute in H; injection H as <-; by split).
  split; [exact Hl|]. split; [|exact Hn]. by destruct (proj1 Hc Hl) as (_&_&p&[= <-]&Hm).
Defined.

Lemma sample_env_typed n : uint 32 n -> typed_env (sample_env n).
Proof.
  intros Hn. split; [|repeat (constructor; [intros ? [= <-]; done|]); constructor].
  repeat (constructor; [intros ? [= <-]; by vm_compute|]). constructor.
Qed.

(** The sample digest keeps the first 32 bytes: snapshots that differ in the MTU collide. *)
Lemma key_binds_platform_witness : exists k,
  certification_key sample_digest (sample_env 1500) = Ok k /\
  certification_key sample_digest (sample_env 9000) = Ok k /\
  exists x y, x <> y /\ sample_digest x = sample_digest y.
Proof.
  destruct (certification_key sample_digest (sample_env 1500)) as [k| |] eqn:Hk; [|vm_compute in Hk; discriminate Hk..].
  assert (certification_key sample_digest (sample_env 9000) = Ok k) as Hk' by (rewrite <- Hk; vm_compute; reflexivity).
  exists k. split; [reflexivity|]. split; [exact Hk'|].
  assert (forall x, bytes_ok (sample_digest x)) as Hd.
  { intros x. apply Forall_take, Forall_map, Forall_true. intros b. apply Z.mod_pos_bound. lia. }
  assert (typed_env (sample_env 1500) /\ typed_env (sample_env 9000)) as [Ht Ht']
    by (split; apply sample_env_typed; done).
  destruct (key_binds_platform sample_digest (sample_env 1500) (sample_env 9000) k Hd Ht Ht' Hk Hk') as [He|Hc];
    [discriminate He|exact Hc].
Defined.
