(* ===== verification/Benchmark.v ===== *)
(** * The benchmark runner

    Model of [crates/benchmark/src/runner.rs]: a run of the ten phases over a host
    that polls the cancellation token, reads the monotonic clock and executes a
    phase. The evidence of a phase is a JSON value of the host's executor, known
    through its encoding. *)

From stdpp Require Import base list strings.
From Stdlib Require Import ZArith Lia.
From S2P Require Import Prelude ErrorModel Certification.
Open Scope Z_scope.

Definition BENCHMARK_PHASE_EVIDENCE_LIMIT_BYTES : Z := 1024 * 1024.

Inductive BenchmarkIssueSeverity := Recoverable | Degraded | Fatal.
#[export] Instance Severity_eq_dec : EqDecision BenchmarkIssueSeverity.
Proof. solve_decision. Defined.
Record BenchmarkIssue := { issue_code : string; severity : BenchmarkIssueSeverity; issue_message : string }.

Inductive PhaseStatus := PhaseCompleted | PhaseFailed | PhaseSkipped.
Inductive BenchmarkRunState := RunCompleted | RunCompletedDegraded | RunCanceled | RunFailed.

(** JSON values ([serde_json::Value]) and their encoding, which may fail with a message. *)
Class JsonEncoding (Value : Type) := { json_to_vec : Value -> string + bytes }.

Section Runner.
Context {Value : Type} `{JsonEncoding Value}.

Record PhaseExecution := { evidence : Value; issues : list BenchmarkIssue }.

Definition successful (v : Value) : PhaseExecution := {| evidence := v; issues := [] |}.

Definition issue_valid (i : BenchmarkIssue) : bool :=
  negb (trimmed_empty (issue_code i) || (128 <? len (as_bytes (issue_code i)))
        || (4096 <? len (as_bytes (issue_message i)))).

Definition validate_execution (x : PhaseExecution) : res unit :=
  match json_to_vec (evidence x) with
  | inl m => err ProtocolInvalid ("benchmark phase evidence cannot be encoded: " +:+ m)
  | inr encoded =>
      if BENCHMARK_PHASE_EVIDENCE_LIMIT_BYTES <? len encoded
      then err ControlFrameTooLarge "benchmark phase evidence exceeds 1 MiB"
      else if negb (forallb issue_valid (issues x))
      then err ProtocolInvalid "benchmark issue code or message is invalid"
      else Ok tt
  end.

Record BenchmarkPhaseRecord := {
  phase : BenchmarkPhase;
  record_status : PhaseStatus;
  started_monotonic_nanoseconds : option Z;
  ended_monotonic_nanoseconds : option Z;
  record_evidence : option Value;
  record_issues : list BenchmarkIssue;
  error_code : option string;
  error_message : option string;
}.

Record BenchmarkRunReport := {
  report_profile_id : string;
  report_state : BenchmarkRunState;
  records : list BenchmarkPhaseRecord;
}.

Record BenchmarkRunner := { plan : BenchmarkPlan; consumed : bool }.

Definition new_runner (p : BenchmarkPlan) : res BenchmarkRunner :=
  let? _ := validate_plan p in Ok {| plan := p; consumed := false |}.

Definition failed_record (p : BenchmarkPhase) (started ended : Z) (e : NetToolError) : BenchmarkPhaseRecord :=
  {| phase := p; record_status := PhaseFailed; started_monotonic_nanoseconds := Some started;
     ended_monotonic_nanoseconds := Some ended; record_evidence := None; record_issues := [];
     error_code := Some (as_str (code e)); error_message := Some (message e) |}.

Definition skipped_record (p : BenchmarkPhase) : BenchmarkPhaseRecord :=
  {| phase := p; record_status := PhaseSkipped; started_monotonic_nanoseconds := None;
     ended_monotonic_nanoseconds := None; record_evidence := None; record_issues := [];
     error_code := None; error_message := None |}.

Definition append_skipped (rs : list BenchmarkPhaseRecord) (ps : list BenchmarkPhase) :
    list BenchmarkPhaseRecord :=
  rs ++ map skipped_record ps.

Definition has (s : BenchmarkIssueSeverity) (x : PhaseExecution) : bool :=
  existsb (fun i => bool_decide (severity i = s)) (issues x).

Definition executed_record (p : BenchmarkPhase) (started ended : Z) (x : PhaseExecution) : BenchmarkPhaseRecord :=
  {| phase := p; record_status := if has Fatal x then PhaseFailed else PhaseCompleted;
     started_monotonic_nanoseconds := Some started; ended_monotonic_nanoseconds := Some ended;
     record_evidence := Some (evidence x); record_issues := issues x;
     error_code := None; error_message := None |}.
End Runner.
Arguments PhaseExecution : clear implicits.
Arguments BenchmarkPhaseRecord : clear implicits.
Arguments BenchmarkRunReport : clear implicits.

(** What a run meets: the token, which others may set at any time, the clock, and the
    executor, which may fail or panic. *)
Class BenchmarkHost (W Value : Type) := {
  is_canceled : W -> W * bool;
  monotonic_now : W -> W * Z;
  execute : BenchmarkPhase -> BenchmarkPlan -> W -> W * res (PhaseExecution Value);
}.

Section Run.
Context {W Value : Type} `{JsonEncoding Value} `{BenchmarkHost W Value}.

Abbreviation run_method A := (method W A).

Definition poll : run_method bool := fun w => let '(w, b) := is_canceled w in (w, Ok b).
Definition now : run_method Z := fun w => let '(w, n) := monotonic_now w in (w, Ok n).
(** The result of the executor is inspected, its panic is not caught. *)
Definition attempt (p : BenchmarkPhase) (pl : BenchmarkPlan) :
    run_method (NetToolError + PhaseExecution Value) := fun w =>
  let '(w, o) := execute p pl w in
  (w, match o with Ok x => Ok (inr x) | Err e => Ok (inl e) | Panic => Panic end).

(** The loop over the phases that are left, with the state and the records so far. *)
Fixpoint run_phases (pl : BenchmarkPlan) (ps : list BenchmarkPhase) (st : BenchmarkRunState)
    (rs : list (BenchmarkPhaseRecord Value)) :
    run_method (BenchmarkRunState * list (BenchmarkPhaseRecord Value)) :=
  match ps with
  | [] => m_ret (Ok (st, rs))
  | p :: rest =>
      let! canceled := poll in
      if canceled : bool then m_ret (Ok (RunCanceled, append_skipped rs ps))
      else
        let! started := now in
        let! execution := attempt p pl in
        let! ended := now in
        if ended <? started then m_ret (err InvalidState "benchmark monotonic clock moved backwards")
        else
          let stop e := m_ret (Ok (RunFailed, append_skipped (rs ++ [failed_record p started ended e]) rest)) in
          match execution with
          | inl e => stop e
          | inr x =>
              match validate_execution x with
              | Err e => stop e
              | Panic => m_ret Panic
              | Ok _ =>
                  let rs := rs ++ [executed_record p started ended x] in
                  if has Fatal x then m_ret (Ok (RunFailed, append_skipped rs rest))
                  else
                    let st := if has Degraded x then RunCompletedDegraded else st in
                    let! canceled := poll in
                    if canceled : bool then m_ret (Ok (RunCanceled, append_skipped rs rest))
                    else run_phases pl rest st rs
              end
          end
  end.

(** [BenchmarkRunner::run]: the runner, the host, and the report. *)
Definition run (r : BenchmarkRunner) (w : W) : BenchmarkRunner * (W * res (BenchmarkRunReport Value)) :=
  if consumed r then (r, (w, err InvalidState "benchmark runner can only execute once"))
  else
    ({| plan := plan r; consumed := true |},
     (let! '(st, rs) := run_phases (plan r) phases RunCompleted [] in
      m_ret (Ok {| report_profile_id := profile_id (plan r); report_state := st; records := rs |})) w).
End Run.

(** ** The registry. *)

Record RegisteredBenchmarkProfile := {
  registered_plan : BenchmarkPlan; certification_policy : option CertificationPolicy;
}.

Definition ids : list string := ["functional-default"; "100g-cert"]%string.

Definition get (id : string) : option RegisteredBenchmarkProfile :=
  '(warmup, measurement, sustained) ←
    (if bool_decide (id = "functional-default"%string) then Some (5, 10, 60)
     else if bool_decide (id = "100g-cert"%string) then Some (10, 60, 3600)
     else None);
  Some {|
    registered_plan := {|
      profile_id := id; frame_sizes_bytes := [64; 128; 256; 512; 1024; 1518; 9018];
      flow_counts := [1; 16; 256; 4096; 1000000]; warmup_seconds := warmup;
      measurement_seconds := measurement; sustained_seconds := sustained |};
    certification_policy := None |}.

(** ** What a run reports. *)

Section Reports.
Context {W Value : Type} `{JsonEncoding Value} `{BenchmarkHost W Value}.

(** The host, with the phases it was asked to execute. *)
#[local] Instance logging : BenchmarkHost (W * list BenchmarkPhase) Value := {
  is_canceled w := let '(w', b) := is_canceled w.1 in ((w', w.2), b);
  monotonic_now w := let '(w', n) := monotonic_now w.1 in ((w', w.2), n);
  execute p pl w := let '(w', o) := execute p pl w.1 in ((w', w.2 ++ [p]), o);
}.

Definition timed (r : BenchmarkPhaseRecord Value) : Prop := exists s e,
  started_monotonic_nanoseconds r = Some s /\ ended_monotonic_nanoseconds r = Some e /\ s <= e.
(** A phase that ran to its end: bounded evidence, valid issues, none of them fatal. *)
Definition completed (r : BenchmarkPhaseRecord Value) : Prop :=
  record_status r = PhaseCompleted /\ timed r /\ error_code r = None /\
  (exists v encoded, record_evidence r = Some v /\ json_to_vec v = inr encoded /\
     len encoded <= BENCHMARK_PHASE_EVIDENCE_LIMIT_BYTES) /\
  Forall (fun i => issue_valid i = true /\ severity i <> Fatal) (record_issues r).
(** A phase that failed: with an error, or with a fatal issue. *)
Definition failed (r : BenchmarkPhaseRecord Value) : Prop :=
  record_status r = PhaseFailed /\ timed r /\
  (is_Some (error_code r) /\ record_evidence r = None \/
   exists i, i ∈ record_issues r /\ severity i = Fatal).
Definition degraded (rs : list (BenchmarkPhaseRecord Value)) : Prop :=
  exists r i, r ∈ rs /\ i ∈ record_issues r /\ severity i = Degraded.

(** The state of a report, given the phases that ran, the one that failed and those
    that were skipped. *)
Definition state_fits (st : BenchmarkRunState) (ran : list (BenchmarkPhaseRecord Value))
    (broken : list (BenchmarkPhaseRecord Value)) (skipped : list BenchmarkPhase) : Prop :=
  match st with
  | RunCompleted => broken = [] /\ skipped = [] /\ ~ degraded ran
  | RunCompletedDegraded => broken = [] /\ skipped = [] /\ degraded ran
  | RunCanceled => broken = [] /\ exists w : W, (is_canceled (Value := Value) w).2 = true
  | RunFailed => exists r, broken = [r] /\ failed r
  end.

(** The state in the middle of a run. *)
Definition going (st : BenchmarkRunState) (ran : list (BenchmarkPhaseRecord Value)) : Prop :=
  st = RunCompleted /\ ~ degraded ran \/ st = RunCompletedDegraded /\ degraded ran.

Lemma degraded_snoc rs r : degraded (rs ++ [r]) <->
  degraded rs \/ exists i, i ∈ record_issues r /\ severity i = Degraded.
Proof.
  unfold degraded. setoid_rewrite elem_of_app. setoid_rewrite list_elem_of_singleton. naive_solver.
Qed.

Lemma has_iff s (x : PhaseExecution Value) : has s x = true <-> exists i, i ∈ issues x /\ severity i = s.
Proof.
  unfold has. rewrite existsb_exists. setoid_rewrite bool_decide_eq_true. by setoid_rewrite list_elem_of_In.
Qed.

Lemma executed_completed p started ended x : started <= ended -> validate_execution x = Ok tt ->
  has Fatal x = false -> completed (executed_record p started ended x).
Proof.
  intros Ht Hv Hf. unfold completed, timed, executed_record. simpl. rewrite Hf.
  unfold validate_execution, err in Hv. destruct (json_to_vec (evidence x)) as [m|encoded] eqn:He; [done|].
  destruct (Z.ltb_spec BENCHMARK_PHASE_EVIDENCE_LIMIT_BYTES (len encoded)); [done|].
  destruct (forallb issue_valid (issues x)) eqn:Hi; [|done].
  split_and!; [done|by do 2 eexists|done|by do 2 eexists|].
  rewrite forallb_forall in Hi. apply Forall_forall. intros i Hin.
  split; [by apply Hi, list_elem_of_In|]. intros Hs.
  enough (has Fatal x = true) by congruence. apply has_iff. eauto.
Qed.

(** One phase, in terms of the host. *)
Lemma run_phases_cons pl p ps st rs (w : W) l :
  run_phases pl (p :: ps) st rs (w, l) =
    let '(w1, c) := is_canceled w in
    if c then ((w1, l), Ok (RunCanceled, append_skipped rs (p :: ps)))
    else
      let '(w2, started) := monotonic_now w1 in
      let '(w3, o) := execute p pl w2 in
      match o with
      | Panic => ((w3, l ++ [p]), Panic)
      | _ =>
          let '(w4, ended) := monotonic_now w3 in
          if ended <? started
          then ((w4, l ++ [p]), err InvalidState "benchmark monotonic clock moved backwards")
          else
            let stop e := ((w4, l ++ [p]),
              Ok (RunFailed, append_skipped (rs ++ [failed_record p started ended e]) ps)) in
            match o with
            | Err e => stop e
            | Panic => ((w4, l ++ [p]), Panic)
            | Ok x =>
                match validate_execution x with
                | Err e => stop e
                | Panic => ((w4, l ++ [p]), Panic)
                | Ok _ =>
                    let rs := rs ++ [executed_record p started ended x] in
                    if has Fatal x then ((w4, l ++ [p]), Ok (RunFailed, append_skipped rs ps))
                    else
                      let '(w5, c) := is_canceled w4 in
                      if c then ((w5, l ++ [p]), Ok (RunCanceled, append_skipped rs ps))
                      else run_phases pl ps (if has Degraded x then RunCompletedDegraded else st) rs
                             (w5, l ++ [p])
                end
            end
      end.
Proof.
  cbn [run_phases]. unfold m_bind, m_ret, poll, now, attempt. cbn [is_canceled monotonic_now execute logging fst snd].
  destruct (is_canceled w) as [w1 []]; [done|]. cbn [fst snd].
  destruct (monotonic_now w1) as [w2 started]. cbn [fst snd].
  destruct (execute p pl w2) as [w3 [x|e|]]; try done; cbn [fst snd];
    destruct (monotonic_now w3) as [w4 ended]; destruct (ended <? started); try done.
  destruct (validate_execution x); try done. destruct (has Fatal x); [done|]. cbn [fst snd].
  by destruct (is_canceled w4) as [w5 []].
Qed.

Lemma going_more st rs p started ended x : going st rs ->
  going (if has Degraded x then RunCompletedDegraded else st) (rs ++ [executed_record p started ended x]).
Proof.
  unfold going. rewrite degraded_snoc. unfold executed_record. simpl. rewrite <- has_iff.
  destruct (has Degraded x); naive_solver.
Qed.

Lemma run_phases_spec pl ps st rs (w : W * list BenchmarkPhase) : going st rs -> Forall completed rs ->
  let '(w', o) := run_phases pl ps st rs w in
  match o with
  | Ok (st', rs') => exists ran broken skipped,
      rs' = rs ++ ran ++ broken ++ map skipped_record skipped /\
      map phase (ran ++ broken) ++ skipped = ps /\ Forall completed ran /\
      w'.2 = w.2 ++ map phase (ran ++ broken) /\ state_fits st' (rs ++ ran) broken skipped
  | Err e => code e = InvalidState /\ exists w1 w2 : W, (monotonic_now w2).2 < (monotonic_now w1).2
  | Panic => exists p w, (execute p pl w : W * _).2 = Panic
  end.
Proof.
  revert st rs w. induction ps as [|p ps IH]; intros st rs [w l] Hg Hrs.
  { simpl. exists [], [], []. rewrite !app_nil_r. split_and!; try done. by destruct Hg as [[-> ?]|[-> ?]]. }
  rewrite run_phases_cons. destruct (is_canceled w) as [w1 []] eqn:Hcw.
  { exists [], [], (p :: ps). rewrite !app_nil_r. split_and!; try done. split; [done|]. exists w. by rewrite Hcw. }
  destruct (monotonic_now w1) as [w2 started] eqn:Hs.
  destruct (execute p pl w2) as [w3 o] eqn:Hx.
  assert (forall w4 ended e, started <= ended -> exists ran broken skipped,
    append_skipped (rs ++ [failed_record p started ended e]) ps = rs ++ ran ++ broken ++ map skipped_record skipped /\
    map phase (ran ++ broken) ++ skipped = p :: ps /\ Forall completed ran /\
    (w4 : W, l ++ [p]).2 = (w, l).2 ++ map phase (ran ++ broken) /\
    state_fits RunFailed (rs ++ ran) broken skipped) as Hstop.
  { intros w4 ended e Ht. exists [], [failed_record p started ended e], ps. unfold append_skipped.
    rewrite <- (assoc_L (++)). split_and!; try done. eexists. split; [done|].
    split; [done|]. split; [by do 2 eexists|]. left. by split; [eexists|]. }
  destruct o as [x|e|]; [| |by exists p, w2; rewrite Hx].
  all: destruct (monotonic_now w3) as [w4 ended] eqn:He;
    destruct (Z.ltb_spec ended started) as [Hlt|Hle];
    [split; [done|]; exists w1, w3; by rewrite Hs, He|].
  2: by apply Hstop.
  destruct (validate_execution x) as [[]|e|] eqn:Hv; [|by apply Hstop|].
  2: { exfalso. unfold validate_execution, err in Hv. by repeat case_match. }
  cbv zeta. set (r := executed_record p started ended x).
  destruct (has Fatal x) eqn:Hf.
  { exists [], [r], ps. unfold append_skipped. rewrite <- (assoc_L (++)). split_and!; try done.
    eexists. split; [done|]. unfold failed, r, executed_record. simpl. rewrite Hf.
    split; [done|]. split; [by do 2 eexists|]. right. by apply has_iff. }
  assert (completed r) as Hr by by apply executed_completed.
  destruct (is_canceled w4) as [w5 []] eqn:Hcw4.
  { exists [r], [], ps. unfold append_skipped. rewrite <- (assoc_L (++)). split_and!; try done.
    - by apply Forall_singleton.
    - split; [done|]. exists w4. by rewrite Hcw4. }
  specialize (IH _ (rs ++ [r]) (w5, l ++ [p]) (going_more st rs p started ended x Hg)).
  destruct (run_phases pl ps _ (rs ++ [r]) (w5, l ++ [p])) as [w' o']. fold r in IH.
  assert (Forall completed (rs ++ [r])) as Hall by (apply Forall_app; by split; [|apply Forall_singleton]).
  specialize (IH Hall). destruct o' as [[st' rs']|e|]; [|done|done].
  destruct IH as (ran&broken&skipped&->&Hm&Hran&Hl&Hst). exists (r :: ran), broken, skipped.
  rewrite <- (assoc_L (++)) in *. simpl in *. split_and!; try done; [by rewrite Hm|by constructor|].
  by rewrite Hl, <- (assoc_L (++)).
Qed.
End Reports.

(** C35: a run that is given a runner uses it up; a runner is used once. The report
    has the ten phases in their order: those that ran to their end with evidence in
    bounds and no fatal issue, then possibly the one that failed, then those that were
    skipped; exactly the first two were executed, once each and in order. The run is
    completed when all ten ran, degraded when an issue of one says so, failed when one
    failed, canceled when the token was set and none failed. Only a clock that moves
    backwards is an error of the run, and only a panic of the executor is a panic. *)
Theorem benchmark_run_report {W Value} `{JsonEncoding Value} `{BenchmarkHost W Value}
    (r : BenchmarkRunner) (w : W) (log : list BenchmarkPhase) :
  let '(r', (w', o)) := run (H0 := logging) r (w, log) in
  consumed r' = true /\ plan r' = plan r /\
  if consumed r then o = err InvalidState "benchmark runner can only execute once" /\ w' = (w, log)
  else
    match o with
    | Ok report => exists ran broken skipped,
        records report = ran ++ broken ++ map skipped_record skipped /\
        map phase (records report) = phases /\ Forall completed ran /\
        w'.2 = log ++ map phase (ran ++ broken) /\ report_profile_id report = profile_id (plan r) /\
        state_fits (report_state report) ran broken skipped
    | Err e => code e = InvalidState /\ exists w1 w2 : W, (monotonic_now w2).2 < (monotonic_now w1).2
    | Panic => exists p w, (execute p (plan r) w : W * res (PhaseExecution Value)).2 = Panic
    end.
Proof.
  unfold run. destruct (consumed r) eqn:Hc; [by split_and!|]. unfold m_bind, m_ret.
  assert (going RunCompleted ([] : list (BenchmarkPhaseRecord Value))) as Hg.
  { left. split; [done|]. by intros (x&?&Hx%elem_of_nil&_). }
  pose proof (run_phases_spec (plan r) phases RunCompleted [] (w, log) Hg (Forall_nil_2 _)) as Hs.
  destruct (run_phases (plan r) phases RunCompleted [] (w, log)) as [w' [[st rs]|e|]];
    (split; [done|]; split; [done|]); [|done|done].
  destruct Hs as (ran&broken&skipped&->&Hm&Hran&Hl&Hst). exists ran, broken, skipped. simpl in *.
  split_and!; try done. rewrite (assoc_L (++)), map_app, <- Hm. f_equal.
  rewrite map_map. apply map_id.
Qed.

(** ** A run of a concrete host. *)

(** Evidence is its own encoding; the host counts its clock up and answers from a
    list; the token is set when the list is empty. *)
#[export] Instance plain_bytes : JsonEncoding bytes := { json_to_vec := inr }.
#[export] Instance scripted : BenchmarkHost (Z * list (res (PhaseExecution bytes))) bytes := {
  is_canceled w := (w, bool_decide (w.2 = []));
  monotonic_now w := ((w.1 + 1, w.2), w.1);
  execute _ _ w := match w.2 with
                   | [] => (w, err Unsupported "script ended")
                   | o :: rest => ((w.1, rest), o)
                   end;
}.

Definition sample_runner : BenchmarkRunner :=
  {| plan := default {| profile_id := ""; frame_sizes_bytes := []; flow_counts := []; warmup_seconds := 0;
                        measurement_seconds := 0; sustained_seconds := 0 |}
               (registered_plan <$> get "100g-cert"); consumed := false |}.
Definition well (i : list BenchmarkIssue) : res (PhaseExecution bytes) :=
  Ok {| evidence := [123; 125]; issues := i |}.
Definition slow : BenchmarkIssue :=
  {| issue_code := "slow"; severity := Degraded; issue_message := "below line rate" |}.

(** Every registered profile has a plan that the runner accepts, and no policy. *)
Example registered_plans_valid : Forall (fun id => exists p, get id = Some p /\
  validate_plan (registered_plan p) = Ok tt /\ certification_policy p = None) ids.
Proof. repeat constructor; eexists; (split; [reflexivity|]); by vm_compute. Qed.

(** Eleven answers complete ten phases; with ten, the token is set during the last
    phase and the run counts as canceled although nothing was skipped. *)
Example run_states :
  let state answers :=
    match (run sample_runner (0, answers)).2.2 with Ok r => Some (report_state r) | _ => None end in
  state (replicate 11 (well [])) = Some RunCompleted /\
  state (well [slow] :: replicate 10 (well [])) = Some RunCompletedDegraded /\
  state (replicate 10 (well [])) = Some RunCanceled /\
  state [well []; err Unsupported "no NIC"; well []] = Some RunFailed.
Proof. vm_compute. done. Qed.
