(* ===== verification/Database.v ===== *)
(** * The database

    Model of the SQLite database of [crates/storage/src/lib.rs]: the tables of
    [migrations/*.sql], one map per table from its primary key, the calls that SQLite
    answers one at a time, transactions, and the migrations that [Storage::open] runs.

    SQLite itself is not code of the repository. What is used of it is its documented
    behaviour: a statement has its whole effect or none, it keeps primary keys, UNIQUE
    columns and foreign keys, a transaction reaches the file at its commit only, and is
    rolled back when it is dropped or the process ends. Each call of SQLite meets a
    [moment]: it may work, fail with a message, or the process may end before or after
    its effect. *)

From stdpp Require Import base list strings gmap sorting.
From Stdlib Require Import ZArith Lia.
From S2P Require Import Prelude ErrorModel Text.
Open Scope Z_scope.

(** ** Tables. *)

Record ProfileRow := {
  profile_name : string; active_revision : Z; profile_created_at : string; profile_updated_at : string;
}.
Record RevisionRow := {
  revision_configuration : string; revision_checksum : string; revision_created_at : string;
}.
Record NodeRow := {
  node_name : string; first_seen_at : string; last_seen_at : option string; last_address : option string;
}.
Record TrustRow := {
  fingerprint : string; trust_status : string; trusted_at : option string; revoked_at : option string;
  certificate_der : option bytes; server_name : option string; control_address : option string;
}.
Record OperationRow := {
  operation_action : string; operation_row_state : string; operation_created_at : string;
  operation_completed_at : option string; operation_error : option string;
}.
Record SpeedRow := {
  remote_node : option string; speed_protocol : string; speed_backend : string; speed_direction : string;
  speed_started_at : string; speed_completed_at : option string; speed_result_state : string;
  speed_configuration : string; speed_result : option string;
}.
Record PacketRow := {
  packet_interface : string; packet_backend : string; capture_mode : string; analysis_mode : string;
  packet_started_at : string; packet_completed_at : option string; final_drop_counters : option string;
  packet_confidence : option string; packet_result_state : string;
}.
Record HardwareRow := { profile_json : string; profile_hash : string; hardware_created_at : string }.
Record BenchmarkRow := {
  benchmark_hardware : string; software_build : string; benchmark_configuration : string;
  benchmark_result_json : string; certification_state : string; benchmark_checksum : string;
  benchmark_created_at : string;
}.
Record CertificationRow := {
  certified_hardware : string; software_profile : string; certification_result : string;
  certified_benchmark : string; certified_at : string;
}.

(** [created] are the tables that exist, [added] the columns added later, and
    [versions] the rows of [schema_migration]. *)
Record Tables := {
  created : list string;
  added : list string;
  versions : list Z;
  network_profile : gmap string ProfileRow;
  network_profile_revision : gmap (string * Z) RevisionRow;
  node : gmap string NodeRow;
  node_trust : gmap string TrustRow;
  operation : gmap string OperationRow;
  speed_session : gmap string SpeedRow;
  packet_session : gmap string PacketRow;
  hardware_profile : gmap string HardwareRow;
  benchmark_result : gmap string BenchmarkRow;
  hardware_certification : gmap string CertificationRow;
}.

Definition no_tables : Tables := {|
  created := []; added := []; versions := []; network_profile := ∅; network_profile_revision := ∅; node := ∅;
  node_trust := ∅; operation := ∅; speed_session := ∅; packet_session := ∅; hardware_profile := ∅;
  benchmark_result := ∅; hardware_certification := ∅;
|}.

(** Changes of one table. *)
Definition set_schema cs as_ vs (t : Tables) : Tables := {|
  created := cs; added := as_; versions := vs; network_profile := network_profile t;
  network_profile_revision := network_profile_revision t; node := node t; node_trust := node_trust t;
  operation := operation t; speed_session := speed_session t; packet_session := packet_session t;
  hardware_profile := hardware_profile t; benchmark_result := benchmark_result t;
  hardware_certification := hardware_certification t;
|}.
Definition set_profiles ps rs (t : Tables) : Tables := {|
  created := created t; added := added t; versions := versions t; network_profile := ps;
  network_profile_revision := rs; node := node t; node_trust := node_trust t;
  operation := operation t; speed_session := speed_session t; packet_session := packet_session t;
  hardware_profile := hardware_profile t; benchmark_result := benchmark_result t;
  hardware_certification := hardware_certification t;
|}.
Definition set_nodes ns ts (t : Tables) : Tables := {|
  created := created t; added := added t; versions := versions t; network_profile := network_profile t;
  network_profile_revision := network_profile_revision t; node := ns; node_trust := ts;
  operation := operation t; speed_session := speed_session t; packet_session := packet_session t;
  hardware_profile := hardware_profile t; benchmark_result := benchmark_result t;
  hardware_certification := hardware_certification t;
|}.
Definition set_sessions os ss ks (t : Tables) : Tables := {|
  created := created t; added := added t; versions := versions t; network_profile := network_profile t;
  network_profile_revision := network_profile_revision t; node := node t; node_trust := node_trust t;
  operation := os; speed_session := ss; packet_session := ks;
  hardware_profile := hardware_profile t; benchmark_result := benchmark_result t;
  hardware_certification := hardware_certification t;
|}.
Definition set_benchmarks hs bs cs (t : Tables) : Tables := {|
  created := created t; added := added t; versions := versions t; network_profile := network_profile t;
  network_profile_revision := network_profile_revision t; node := node t; node_trust := node_trust t;
  operation := operation t; speed_session := speed_session t; packet_session := packet_session t;
  hardware_profile := hs; benchmark_result := bs; hardware_certification := cs;
|}.

Lemma set_profiles_twice ps rs ps' rs' t : set_profiles ps rs (set_profiles ps' rs' t) = set_profiles ps rs t.
Proof. done. Qed.
Lemma set_nodes_twice ns ts ns' ts' t : set_nodes ns ts (set_nodes ns' ts' t) = set_nodes ns ts t.
Proof. done. Qed.
Lemma set_benchmarks_twice hs bs cs hs' bs' cs' t :
  set_benchmarks hs bs cs (set_benchmarks hs' bs' cs' t) = set_benchmarks hs bs cs t.
Proof. done. Qed.
Lemma set_benchmarks_same t :
  set_benchmarks (hardware_profile t) (benchmark_result t) (hardware_certification t) t = t.
Proof. by destruct t. Qed.
Create HintDb tables.
#[export] Hint Rewrite set_profiles_twice set_nodes_twice set_benchmarks_twice : tables.

(** ** Calls of SQLite. *)

Inductive Fate := Works | Fails (m : string) | Dies | DiesAfter.
Record moment := { fate : Fate; time : string }.
Definition calm : moment := {| fate := Works; time := "" |}.

(** The database file, the open transaction if there is one, and the moments to come. *)
Record Connection := { stored : Tables; working : option Tables; moments : list moment }.

Abbreviation op A := (method Connection A).

Definition current (c : Connection) : Tables := default (stored c) (working c).
Definition put (t : Tables) (c : Connection) : Connection :=
  match working c with
  | Some _ => {| stored := stored c; working := Some t; moments := moments c |}
  | None => {| stored := t; working := None; moments := moments c |}
  end.
Definition rollback (c : Connection) : Connection :=
  {| stored := stored c; working := None; moments := moments c |}.
Definition advance (c : Connection) : Connection :=
  {| stored := stored c; working := working c; moments := tail (moments c) |}.
Definition next (c : Connection) : moment := default calm (head (moments c)).

Definition database_error (m : string) : NetToolError :=
  new_error StorageFailed ("SQLite operation failed: " +:+ m) false.

(** A call: [f] is its effect at the given time, or the error of SQLite. *)
Definition call {A} (e : string -> NetToolError) (f : string -> Connection -> string + Connection * A) : op A :=
  fun c =>
    let m := next c in
    let c := advance c in
    match fate m with
    | Dies => (rollback c, Panic)
    | Fails x => (c, Err (e x))
    | Works => match f (time m) c with inl x => (c, Err (e x)) | inr (c, a) => (c, Ok a) end
    | DiesAfter => match f (time m) c with inl _ => (rollback c, Panic) | inr (c, _) => (rollback c, Panic) end
    end.

(** A statement that changes the tables, and a query. *)
Definition execute_with {A} (e : string -> NetToolError) (f : string -> Tables -> string + Tables * A) : op A :=
  call e (fun now c => match f now (current c) with inl x => inl x | inr (t, a) => inr (put t c, a) end).
Definition execute {A} (f : string -> Tables -> string + Tables * A) : op A := execute_with database_error f.
Definition query {A} (f : Tables -> string + A) : op A :=
  call database_error (fun _ c => match f (current c) with inl x => inl x | inr a => inr (c, a) end).

(** [Connection::transaction]; the transaction is dropped at the end of [body]. *)
Definition begin_transaction : op unit :=
  call database_error (fun _ c => inr ({| stored := stored c; working := Some (stored c); moments := moments c |}, tt)).
Definition commit : op unit :=
  call database_error (fun _ c => inr ({| stored := current c; working := None; moments := moments c |}, tt)).
Definition scoped {A} (m : op A) : op A := fun c => let '(c, o) := m c in (rollback c, o).
Definition transaction {A} (body : op A) : op A := let! _ := begin_transaction in scoped body.

(** The messages of SQLite for a constraint, with the column, and for a missing row or
    value. *)
Class SqliteMessages := {
  unique_failed : string -> string;
  foreign_key_failed : string;
  no_rows : string;
  null_value : string -> string;
  already_exists : string -> string;
}.

Section Sql.
Context `{SqliteMessages}.

(** [INSERT] into a table with primary key [column]. *)
Definition insert_new {K V} `{Countable K} (column : string) (k : K) (v : V) (m : gmap K V) : string + gmap K V :=
  match m !! k with Some _ => inl (unique_failed column) | None => inr (<[k := v]> m) end.

(** A foreign key that refers to [k] in the table [m]. *)
Definition references {K V} `{Countable K} (k : K) (m : gmap K V) : string + unit :=
  match m !! k with Some _ => inr tt | None => inl foreign_key_failed end.

(** [row.get] of a column that may be NULL, as a text. *)
Definition not_null {A} (column : string) (o : option A) : string + A :=
  match o with Some a => inr a | None => inl (null_value column) end.
End Sql.

(** ** Migrations. *)

Definition INITIAL_TABLES : list string :=
  ["schema_migration"; "network_profile"; "network_profile_revision"; "hosts_profile"; "hosts_entry"; "node";
   "node_trust"; "operation"; "safe_apply"; "speed_session"; "packet_session"; "hardware_profile";
   "benchmark_result"; "hardware_certification"; "audit_log"; "application_setting"].

Section Open.
Context `{SqliteMessages}.

Definition create_table (n : string) (t : Tables) : string + Tables :=
  if bool_decide (n ∈ created t) then inl (already_exists n)
  else inr (set_schema (created t ++ [n]) (added t) (versions t) t).
Definition add_column (n : string) (t : Tables) : string + Tables :=
  if bool_decide (n ∈ added t) then inl (already_exists n)
  else inr (set_schema (created t) (added t ++ [n]) (versions t) t).
Definition insert_version (v : Z) (t : Tables) : string + Tables :=
  if bool_decide (v ∈ versions t) then inl (unique_failed "schema_migration.version")
  else inr (set_schema (created t) (added t) (versions t ++ [v]) t).

(** The column of migration 3 has the default ['running'] in the rows that exist. *)
Definition running_by_default (p : PacketRow) : PacketRow := {|
  packet_interface := packet_interface p; packet_backend := packet_backend p; capture_mode := capture_mode p;
  analysis_mode := analysis_mode p; packet_started_at := packet_started_at p;
  packet_completed_at := packet_completed_at p; final_drop_counters := final_drop_counters p;
  packet_confidence := packet_confidence p; packet_result_state := "running";
|}.
Definition add_result_state (t : Tables) : string + Tables :=
  match add_column "packet_session.result_state" t with
  | inl x => inl x
  | inr t => inr (set_sessions (operation t) (speed_session t) (running_by_default <$> packet_session t) t)
  end.

Definition INITIAL_MIGRATION : list (Tables -> string + Tables) := map create_table INITIAL_TABLES ++ [insert_version 1].
Definition NODE_CONNECTION_MIGRATION : list (Tables -> string + Tables) :=
  [add_column "node_trust.certificate_der"; add_column "node_trust.server_name";
   add_column "node_trust.control_address"; insert_version 2].
Definition PACKET_SESSION_STATE_MIGRATION : list (Tables -> string + Tables) := [add_result_state; insert_version 3].

(** [execute_batch]: the statements one after the other, up to the first that fails. *)
Fixpoint execute_batch (ss : list (Tables -> string + Tables)) : op unit :=
  match ss with
  | [] => m_ret (Ok tt)
  | s :: ss =>
      let! _ := execute (fun _ t => match s t with inl x => inl x | inr t => inr (t, tt) end) in
      execute_batch ss
  end.

(** A batch between [BEGIN IMMEDIATE] and [COMMIT]: when it fails, [open] returns and
    drops the connection, which rolls the transaction back. *)
Definition atomic_batch (ss : list (Tables -> string + Tables)) : op unit :=
  transaction (let! _ := execute_batch ss in commit).

Definition max_version : op Z :=
  query (fun t => match versions t with
                  | [] => inl (null_value "MAX(version)")
                  | v :: vs => inr (fold_left Z.max vs v)
                  end).

Definition open : op unit :=
  let! _ := query (fun _ => inr tt) in
  let! has_migration_table := query (fun t => inr (bool_decide ("schema_migration" ∈ created t))) in
  let! _ := if negb has_migration_table then execute_batch INITIAL_MIGRATION else m_ret (Ok tt) in
  let! version := max_version in
  let! _ := if version <? 2 then atomic_batch NODE_CONNECTION_MIGRATION else m_ret (Ok tt) in
  if version <? 3 then atomic_batch PACKET_SESSION_STATE_MIGRATION else m_ret (Ok tt).

Definition schema_version : op Z := max_version.
End Open.

(** ** Atomic operations.

    [ends t Q c o]: an operation that started from the tables [t] ended with the file
    as it was, without a result, or with its whole effect [Q]; in the second case the
    process may have ended before it could answer. *)
Definition ends {A} (t : Tables) (Q : Tables -> A -> Prop) (c : Connection) (o : res A) : Prop :=
  ((forall a, o <> Ok a) /\ stored c = t) \/ exists a, Q (stored c) a /\ (o = Ok a \/ o = Panic).

(** Outside of transactions, and in the transaction that began with the file [t0]. *)
Definition atomic {A} (t : Tables) (m : op A) (Q : Tables -> A -> Prop) : Prop := forall c,
  working c = None -> stored c = t -> working (m c).1 = None /\ ends t Q (m c).1 (m c).2.
Definition finishing {A} (t : Tables) (m : op A) (Q : Tables -> A -> Prop) : Prop := forall c,
  working c = Some t -> ends (stored c) Q (m c).1 (m c).2.

(** Outcomes of a call. *)
Lemma call_cases {A} (e : string -> NetToolError) (f : string -> Connection -> string + Connection * A) c :
  (exists x, call e f c = (advance c, Err x)) \/
  call e f c = (rollback (advance c), Panic) \/
  exists c' a, f (time (next c)) (advance c) = inr (c', a) /\ (call e f c = (c', Ok a) \/ call e f c = (rollback c', Panic)).
Proof. unfold call. destruct (fate (next c)); [|by eauto..|]; destruct (f _ _) as [x|[c' a]]; naive_solver. Qed.

Section Atomic.
Context {A B : Type}.
Implicit Types (t : Tables) (Q : Tables -> A -> Prop).

Lemma ends_none t Q c o : (forall a, o <> Ok a) -> stored c = t -> ends t Q c o.
Proof. by left. Qed.

Lemma ends_err t Q c e : stored c = t -> ends t Q c (Err e).
Proof. by intros; apply ends_none. Qed.

Lemma ends_panic t Q c : stored c = t -> ends t Q c Panic.
Proof. by intros; apply ends_none. Qed.

Lemma atomic_ret t (o : res A) Q : (forall a, o = Ok a -> Q t a) -> atomic t (m_ret o) Q.
Proof.
  intros Ho c Hw <-. split; [done|]. destruct o as [a|e|]; [|by apply ends_err|by apply ends_panic].
  right. exists a. cbn. auto.
Qed.

Lemma atomic_err t (e : NetToolError) Q : atomic t (m_ret (Err e)) Q.
Proof. by apply atomic_ret. Qed.

Lemma atomic_lift t (o : res B) (k : B -> op A) Q :
  (forall b, o = Ok b -> atomic t (k b) Q) -> atomic t (let! b := m_ret o in k b) Q.
Proof.
  intros Hk c Hw Hs. unfold m_bind, m_ret. destruct o as [b|e|]; [by apply Hk| |]; (split; [done|]);
    [by apply ends_err|by apply ends_panic].
Qed.

Lemma atomic_if t (b : bool) (m1 m2 : op A) Q :
  (b = true -> atomic t m1 Q) -> (b = false -> atomic t m2 Q) -> atomic t (if b then m1 else m2) Q.
Proof. destruct b; auto. Qed.

Lemma atomic_weaken t m Q (Q' : Tables -> A -> Prop) :
  atomic t m Q -> (forall t' a, Q t' a -> Q' t' a) -> atomic t m Q'.
Proof.
  intros Hm HQ c Hw Hs. destruct (Hm c Hw Hs) as [? [?|(a&?&?)]]; (split; [done|]); [by left|right; eauto].
Qed.

(** A part without effect before the rest. *)
Lemma atomic_bind t (m : op B) (k : B -> op A) P Q :
  atomic t m P -> (forall t' b, P t' b -> t' = t) -> (forall b, P t b -> atomic t (k b) Q) ->
  atomic t (let! b := m in k b) Q.
Proof.
  intros Hm HP Hk c Hw Hs. unfold m_bind. destruct (Hm c Hw Hs) as [Hw' He]. destruct (m c) as [c' o]. simpl in *.
  destruct o as [b|e|]; [|split; [done|]..].
  - destruct He as [[He _]|(b'&Hb&Ho)]; [by destruct (He b)|].
    destruct Ho as [[= <-]|]; [|done]. pose proof (HP _ _ Hb) as Hst. rewrite Hst in Hb. by apply Hk.
  - apply ends_err. destruct He as [[_ ?]|(?&Hb&?)]; [done|by apply HP in Hb].
  - apply ends_panic. destruct He as [[_ ?]|(?&Hb&?)]; [done|by apply HP in Hb].
Qed.

Lemma atomic_query t f Q : (forall a, f t = inr a -> Q t a) -> atomic t (query (A := A) f) Q.
Proof.
  intros Hf c Hw Hs. unfold query.
  destruct (call_cases database_error (fun _ c => match f (current c) with inl x => inl x | inr a => inr (c, a) end) c)
    as [(x&->)|[->|(c'&a&Ha&Ho)]]; simpl.
  - split; [done|by apply ends_err].
  - split; [done|by apply ends_panic].
  - assert (current (advance c) = t) as Hc by (unfold current; simpl; by rewrite Hw).
    rewrite Hc in Ha. destruct (f t) as [|b] eqn:Hb; [done|]. injection Ha as <- <-.
    rewrite <- Hs in *. destruct Ho as [->| ->]; (split; [done|]); right; exists b; cbn; auto.
Qed.

(** A statement on its own: when it changes something, the rest only answers. *)
Lemma atomic_execute t (e : string -> NetToolError) f (k : B -> op A) Q :
  (forall now t' b, f now t = inr (t', b) ->
     (t' = t /\ atomic t (k b) Q) \/ exists a, k b = m_ret (Ok a) /\ Q t' a) ->
  atomic t (let! b := execute_with e f in k b) Q.
Proof.
  intros Hf c Hw Hs. unfold m_bind, execute_with.
  match goal with |- context [call e ?g c] => destruct (call_cases e g c) as [(x&->)|[->|(c'&b&Hb&Ho)]] end; simpl.
  - split; [done|by apply ends_err].
  - split; [done|by apply ends_panic].
  - assert (current (advance c) = t) as Hc by (unfold current; simpl; by rewrite Hw).
    rewrite Hc in Hb. destruct (f (time (next c)) t) as [|[t' b']] eqn:Hft; [done|]. injection Hb as <- <-.
    unfold put in *. simpl in *. rewrite Hw in *. destruct (Hf _ _ _ Hft) as [[-> Hk]|(a&Hk&HQ)].
    + destruct Ho as [->| ->]; [by apply Hk|]. split; [done|]. by apply ends_panic.
    + destruct Ho as [->| ->]; [rewrite Hk|]; simpl; (split; [done|]); right; exists a; auto.
Qed.

Lemma atomic_execute_only t (e : string -> NetToolError) f Q :
  (forall now t' a, f now t = inr (t', a) -> Q t' a) -> atomic t (execute_with (A := A) e f) Q.
Proof.
  intros Hf c Hw Hs. unfold execute_with.
  match goal with |- context [call e ?g c] => destruct (call_cases e g c) as [(x&->)|[->|(c'&b&Hb&Ho)]] end; simpl.
  - split; [done|by apply ends_err].
  - split; [done|by apply ends_panic].
  - assert (current (advance c) = t) as Hc by (unfold current; simpl; by rewrite Hw).
    rewrite Hc in Hb. destruct (f (time (next c)) t) as [|[t' b']] eqn:Hft; [done|]. injection Hb as <- <-.
    unfold put in *. simpl in *. rewrite Hw in *.
    destruct Ho as [->| ->]; simpl; (split; [done|]); right; eauto.
Qed.

Lemma atomic_transaction t (body : op A) Q : finishing t body Q -> atomic t (transaction body) Q.
Proof.
  intros Hb c Hw Hs. unfold transaction, begin_transaction, m_bind.
  match goal with |- context [call ?e ?g c] => destruct (call_cases e g c) as [(x&->)|[->|(c'&b&Hc&Ho)]] end; simpl.
  - split; [done|by apply ends_err].
  - split; [done|by apply ends_panic].
  - injection Hc as <- <-. destruct Ho as [->| ->]; simpl.
    + unfold scoped. match goal with |- context [body ?c] => specialize (Hb c); destruct (body c) as [c' o] end.
      simpl in *. split; [done|]. rewrite Hs in Hb. specialize (Hb eq_refl). unfold ends in *. exact Hb.
    + split; [done|by apply ends_panic].
Qed.

Lemma finishing_ret t (e : NetToolError) Q : finishing t (m_ret (Err e)) Q.
Proof. intros c Hw. by apply ends_err. Qed.

Lemma finishing_lift t (o : res B) (k : B -> op A) Q :
  (forall b, o = Ok b -> finishing t (k b) Q) -> finishing t (let! b := m_ret o in k b) Q.
Proof.
  intros Hk c Hw. unfold m_bind, m_ret. destruct o as [b|e|]; [by apply Hk|by apply ends_err|by apply ends_panic].
Qed.

Lemma finishing_if t (b : bool) (m1 m2 : op A) Q :
  (b = true -> finishing t m1 Q) -> (b = false -> finishing t m2 Q) -> finishing t (if b then m1 else m2) Q.
Proof. destruct b; auto. Qed.

Lemma finishing_query t f (k : B -> op A) Q :
  (forall b, f t = inr b -> finishing t (k b) Q) -> finishing t (let! b := query f in k b) Q.
Proof.
  intros Hk c Hw. unfold m_bind, query.
  match goal with |- context [call ?e ?g c] => destruct (call_cases e g c) as [(x&->)|[->|(c'&b&Hb&Ho)]] end; simpl.
  - by apply ends_err.
  - by apply ends_panic.
  - assert (current (advance c) = t) as Hc by (unfold current; simpl; by rewrite Hw).
    rewrite Hc in Hb. destruct (f t) as [|b'] eqn:Hft; [done|]. injection Hb as <- <-.
    destruct Ho as [->| ->]; [by apply (Hk b' eq_refl (advance c))|by apply ends_panic].
Qed.

Lemma finishing_execute t (e : string -> NetToolError) f (k : B -> op A) Q :
  (forall now t' b, f now t = inr (t', b) -> finishing t' (k b) Q) ->
  finishing t (let! b := execute_with e f in k b) Q.
Proof.
  intros Hk c Hw. unfold m_bind, execute_with.
  match goal with |- context [call e ?g c] => destruct (call_cases e g c) as [(x&->)|[->|(c'&b&Hb&Ho)]] end; simpl.
  - by apply ends_err.
  - by apply ends_panic.
  - assert (current (advance c) = t) as Hc by (unfold current; simpl; by rewrite Hw).
    rewrite Hc in Hb. destruct (f _ t) as [|[t' b']] eqn:Hft; [done|]. injection Hb as <- <-.
    unfold put in *. simpl in *. rewrite Hw in *.
    destruct Ho as [->| ->]; [|by apply ends_panic]. specialize (Hk _ _ _ Hft).
    match goal with |- ends _ _ (k b' ?c2).1 _ => exact (Hk c2 eq_refl) end.
Qed.

Lemma finishing_commit t (k : unit -> op A) a Q : k tt = m_ret (Ok a) -> Q t a -> finishing t (let! b := commit in k b) Q.
Proof.
  intros Hk HQ c Hw. unfold m_bind, commit.
  match goal with |- context [call ?e ?g c] => destruct (call_cases e g c) as [(x&->)|[->|(c'&b&Hb&Ho)]] end; simpl.
  - by apply ends_err.
  - by apply ends_panic.
  - injection Hb as <- <-.
    assert (current (advance c) = t) as Hc by (unfold current; simpl; by rewrite Hw). rewrite Hc in *.
    destruct Ho as [->| ->]; [rewrite Hk|]; right; exists a; auto.
Qed.
End Atomic.

Lemma finishing_assoc {A B C} t (m : op A) (k : A -> op B) (h : B -> op C) Q :
  finishing t (let! a := m in let! b := k a in h b) Q -> finishing t (let! b := (let! a := m in k a) in h b) Q.
Proof. intros Hf c Hw. specialize (Hf c Hw). unfold m_bind in *. by destruct (m c) as [c' [a|e|]]. Qed.

Lemma finishing_commit_only t (Q : Tables -> unit -> Prop) : Q t tt -> finishing t commit Q.
Proof.
  intros HQ c Hw. unfold commit.
  match goal with |- context [call ?e ?g c] => destruct (call_cases e g c) as [(x&->)|[->|(c'&b&Hb&Ho)]] end; simpl.
  - by apply ends_err.
  - by apply ends_panic.
  - injection Hb as <- <-.
    assert (current (advance c) = t) as Hc by (unfold current; simpl; by rewrite Hw). rewrite Hc in *.
    destruct Ho as [->| ->]; right; exists tt; auto.
Qed.

(** Steps through the body of an operation, up to the statements that change tables. *)
Ltac atomically := repeat first
  [ apply atomic_lift; intros ? ? | apply finishing_lift; intros ? ?
  | apply atomic_if; intros ? | apply finishing_if; intros ?
  | apply atomic_transaction | apply atomic_err | apply finishing_ret
  | apply finishing_query; intros ? ? | apply finishing_execute; intros ? ? ? ? ].
