(* ===== verification/Migration.v ===== *)
(** * Migrations

    What [Storage::open] does to a database of any version, with whatever faults: the
    second and the third migration are transactions, so an interrupted one is run again
    by the next [open]; the first is not, and an interrupted one locks the database. *)

From stdpp Require Import base list strings gmap.
From Stdlib Require Import ZArith Lia.
From S2P Require Import Prelude ErrorModel Text Database.
Open Scope Z_scope.

Section Migration.
Context `{SqliteMessages}.
Implicit Types (t : Tables).

(** ** Batches. *)

Fixpoint run_batch (ss : list (Tables -> string + Tables)) (t : Tables) : string + Tables :=
  match ss with
  | [] => inr t
  | s :: ss => match s t with inl x => inl x | inr t => run_batch ss t end
  end.

Lemma finishing_batch ss t (Q : Tables -> unit -> Prop) :
  (forall t', run_batch ss t = inr t' -> Q t' tt) -> finishing t (let! _ := execute_batch ss in commit) Q.
Proof.
  revert t. induction ss as [|s ss IH]; intros t HQ; simpl.
  - apply finishing_lift. intros b _. by apply finishing_commit_only, HQ.
  - apply finishing_assoc, finishing_execute. intros now t' b Hs. apply IH. intros t2 Ht2. apply HQ. simpl.
    destruct (s t); [done|]. by simplify_eq.
Qed.

Lemma atomic_batch_spec ss t : atomic t (atomic_batch ss) (fun t' _ => run_batch ss t = inr t').
Proof. unfold atomic_batch. apply atomic_transaction, finishing_batch. auto. Qed.

(** [progress P m Q I]: from an idle connection with [P], [m] leaves an idle one with [I],
    and with [Q] if it gives a result. *)
Definition progress {A} (P : Tables -> Prop) (m : op A) (Q : A -> Tables -> Prop) (I : Tables -> Prop) : Prop :=
  forall c, working c = None -> P (stored c) ->
    working (m c).1 = None /\ I (stored (m c).1) /\ forall a, (m c).2 = Ok a -> Q a (stored (m c).1).

Lemma progress_atomic {A} (P : Tables -> Prop) (m : op A) Q I :
  (forall t, P t -> I t /\ atomic t m (fun t' a => Q a t' /\ I t')) -> progress P m Q I.
Proof.
  intros Hm c Hw HP. destruct (Hm _ HP) as [HI Ha]. destruct (Ha c Hw eq_refl) as [Hw' [[Hn Hs]|(a&[HQ HI']&Ho)]].
  - split_and!; [done|by rewrite Hs|]. intros a Ha'. by destruct (Hn a).
  - split_and!; [done..|]. intros a' Ha'. rewrite Ha' in Ho. by destruct Ho as [[= ->]|].
Qed.

Lemma progress_bind {A B} (P : Tables -> Prop) (m : op A) (k : A -> op B) R Q I :
  progress P m R I -> (forall a, progress (R a) (k a) Q I) -> progress P (let! a := m in k a) Q I.
Proof.
  intros Hm Hk c Hw HP. destruct (Hm c Hw HP) as (Hw'&HI&HR). unfold m_bind. destruct (m c) as [c' [a|e|]]; simpl in *;
    [by apply Hk; auto|done..].
Qed.

Lemma progress_ret {A} (P : Tables -> Prop) (o : res A) (Q : A -> Tables -> Prop) (I : Tables -> Prop) :
  (forall t, P t -> I t) -> (forall a t, o = Ok a -> P t -> Q a t) -> progress P (m_ret o) Q I.
Proof. intros HI HQ c Hw HP. simpl. eauto. Qed.

Lemma progress_query {A} (P : Tables -> Prop) (f : Tables -> string + A) (I : Tables -> Prop) :
  (forall t, P t -> I t) -> progress P (query f) (fun a t => P t /\ f t = inr a) I.
Proof. intros HI. apply progress_atomic. intros t Ht. split; [auto|]. apply atomic_query. auto. Qed.

Lemma progress_weaken {A} (P P' : Tables -> Prop) (m : op A) (Q Q' : A -> Tables -> Prop) (I I' : Tables -> Prop) :
  progress P m Q I -> (forall t, P' t -> P t) -> (forall a t, Q a t -> Q' a t) -> (forall t, I t -> I' t) ->
  progress P' m Q' I'.
Proof. intros Hm HP HQ HI c Hw HP'. destruct (Hm c Hw (HP _ HP')) as (?&?&?). split_and!; eauto. Qed.

(** Statements on their own stop anywhere. *)
Lemma execute_batch_spec ss t :
  progress (eq t) (execute_batch ss) (fun _ t' => run_batch ss t = inr t')
    (fun t' => exists n, run_batch (take n ss) t = inr t').
Proof.
  revert t. induction ss as [|s ss IH]; intros t; simpl.
  - apply progress_ret; [intros ? <-; by exists 0%nat|by intros ? ? _ <-].
  - eapply (progress_bind _ _ _ (fun _ t1 => s t = inr t1)).
    + apply progress_atomic. intros ? <-. split; [by exists 0%nat|]. apply atomic_execute_only. intros now t' [].
      destruct (s t) as [|t1] eqn:Hs; [done|]. intros [= <-]. split; [done|]. exists 1%nat. simpl. rewrite Hs. by destruct ss.
    + intros []. intros c Hw Hs. specialize (IH (stored c) c Hw eq_refl) as (?&[n Hn]&HQ). split_and!; [done| |].
      * exists (S n). simpl. by rewrite Hs.
      * intros []. rewrite Hs. apply HQ.
Qed.

(** ** Versions. *)

Definition columns (v : Z) : list string :=
  (if 2 <=? v then ["node_trust.certificate_der"%string; "node_trust.server_name"%string; "node_trust.control_address"%string]
   else []) ++
  (if 3 <=? v then ["packet_session.result_state"%string] else []).
Record at_version (v : Z) t : Prop := {
  version_range : 1 <= v <= 3;
  version_created : created t = INITIAL_TABLES;
  version_added : added t = columns v;
  version_rows : versions t = map Z.of_nat (seq 1 (Z.to_nat v));
}.
Definition any_version t : Prop := exists v, at_version v t.

(** What a migration keeps: every row of every table, except that the state of a packet
    session, which the third migration introduces, is set to its default. *)
Definition data t : Tables :=
  set_sessions (operation t) (speed_session t) (running_by_default <$> packet_session t) (set_schema [] [] [] t).

Lemma running_twice (m : gmap string PacketRow) :
  running_by_default <$> (running_by_default <$> m) = running_by_default <$> m.
Proof. rewrite <- map_fmap_compose. apply map_fmap_ext. by intros i []. Qed.

Lemma version_cases v t : at_version v t -> v = 1 \/ v = 2 \/ v = 3.
Proof. intros [? _ _ _]. lia. Qed.

Ltac compute_schema := match goal with
  | Ht : at_version _ ?t |- _ => destruct Ht as [_ Hcreated Hadded Hrows]; destruct t; simpl in Hcreated, Hadded, Hrows; subst
  end.

Lemma node_migration t : at_version 1 t -> exists t',
  run_batch NODE_CONNECTION_MIGRATION t = inr t' /\ at_version 2 t' /\ data t' = data t.
Proof. intros. compute_schema. eexists. split; [reflexivity|]. by split; [split|]. Qed.

Lemma packet_migration t : at_version 2 t -> exists t',
  run_batch PACKET_SESSION_STATE_MIGRATION t = inr t' /\ at_version 3 t' /\ data t' = data t.
Proof.
  intros. compute_schema. eexists. split; [reflexivity|]. split; [by split|].
  unfold data. simpl. by rewrite running_twice.
Qed.

Lemma initial_migration : exists t', run_batch INITIAL_MIGRATION no_tables = inr t' /\ at_version 1 t' /\ data t' = data no_tables.
Proof. exists (set_schema INITIAL_TABLES [] [1] no_tables). split; [by vm_compute|]. by split; [split|]. Qed.

Lemma max_version_of v t : at_version v t -> forall n,
  match versions t with [] => inl (null_value "MAX(version)") | v :: vs => inr (fold_left Z.max vs v) end = inr n -> n = v.
Proof. intros Ht n. rewrite (version_rows _ _ Ht). by destruct (version_cases _ _ Ht) as [-> |[-> | ->]]; intros [= <-]. Qed.

(** The rest of [open], once the tables exist. *)
Definition upgrade : op unit :=
  let! version := max_version in
  let! _ := if version <? 2 then atomic_batch NODE_CONNECTION_MIGRATION else m_ret (Ok tt) in
  if version <? 3 then atomic_batch PACKET_SESSION_STATE_MIGRATION else m_ret (Ok tt).

Definition upgraded (t0 : Tables) (v : Z) t : Prop := exists v', v <= v' /\ at_version v' t /\ data t = data t0.

Lemma upgrade_spec t0 v :
  progress (fun t => at_version v t /\ data t = data t0) upgrade (fun _ t => at_version 3 t /\ data t = data t0)
    (upgraded t0 v).
Proof.
  assert (forall t, at_version v t /\ data t = data t0 -> upgraded t0 v t) as Hi by (intros t [? ?]; exists v; auto with lia).
  unfold upgrade, max_version. eapply progress_bind; [by apply progress_query|]. intros n.
  eapply (progress_bind _ _ _ (fun _ t => at_version (Z.max 2 v) t /\ data t = data t0 /\ n = v)).
  - destruct (Z.ltb_spec n 2).
    + apply progress_atomic. intros t [[Ht Hd] Hn]. split; [auto|]. pose proof (max_version_of _ _ Ht _ Hn) as ->.
      assert (v = 1) as -> by (pose proof (version_cases _ _ Ht); lia).
      destruct (node_migration t Ht) as (t'&Hrun&Ht'&Hd'). eapply atomic_weaken; [apply atomic_batch_spec|].
      rewrite Hrun. intros ? _ [= <-]. split; [split_and!; [done|congruence|done]|]. exists 2. split_and!; [lia|done|congruence].
    + apply progress_ret; [intros t [Ht _]; auto|]. intros _ t _ [[Ht Hd] Hn].
      pose proof (max_version_of _ _ Ht _ Hn) as ->. by rewrite Z.max_r by lia.
  - intros _. destruct (Z.ltb_spec n 3).
    + apply progress_atomic. intros t (Ht&Hd&->). split; [exists (Z.max 2 v); split_and!; [lia|done..]|].
      rewrite Z.max_l in Ht by lia. destruct (packet_migration t Ht) as (t'&Hrun&Ht'&Hd').
      eapply atomic_weaken; [apply atomic_batch_spec|]. rewrite Hrun. intros ? _ [= <-].
      split; [split; [done|congruence]|]. exists 3. split_and!; [lia|done|congruence].
    + apply progress_ret.
      * intros t (Ht&Hd&->). exists (Z.max 2 v). split_and!; [lia|done..].
      * intros _ t _ (Ht&Hd&->). rewrite Z.max_r in Ht by lia. pose proof (version_cases _ _ Ht).
        by replace v with 3 in Ht by lia.
Qed.

(** [open], given whether the tables exist. *)
Lemma open_steps (has : bool) (P : Tables -> Prop) (Q : unit -> Tables -> Prop) (I : Tables -> Prop) :
  (forall t, P t -> bool_decide ("schema_migration"%string ∈ created t) = has /\ I t) ->
  progress P (let! _ := if negb has then execute_batch INITIAL_MIGRATION else m_ret (Ok tt) in upgrade) Q I ->
  progress P open Q I.
Proof.
  intros HP Hrest. unfold open.
  eapply (progress_bind _ _ _ (fun _ => P)); [eapply progress_weaken; [by apply (progress_query P _ I), HP|done|by intros ? ? []|done]|].
  intros _. eapply progress_bind; [apply (progress_query P _ I); apply HP|]. intros b.
  destruct (decide (b = has)) as [->|Hb]; [|intros c _ [Hc [= Hbc]]; destruct (HP _ Hc); congruence].
  eapply progress_weaken; [exact Hrest|by intros ? []|done|done].
Qed.

Lemma open_upgrades t0 v : progress (fun t => at_version v t /\ data t = data t0) open
  (fun _ t => at_version 3 t /\ data t = data t0) (upgraded t0 v).
Proof.
  apply (open_steps true).
  - intros t [Ht Hd]. split; [by rewrite (version_created _ _ Ht)|]. exists v. auto with lia.
  - simpl. eapply (progress_bind _ _ _ (fun _ t => at_version v t /\ data t = data t0)); [|intros _; apply upgrade_spec].
    apply progress_ret; [|auto]. intros t [Ht Hd]. exists v. auto with lia.
Qed.

(** A database of the last version is left as it is. *)
Lemma open_complete t0 : at_version 3 t0 -> progress (eq t0) open (fun _ => eq t0) (eq t0).
Proof.
  intros Ht. apply (open_steps true).
  { intros ? <-. split; [by rewrite (version_created _ _ Ht)|done]. }
  simpl. eapply (progress_bind _ _ _ (fun _ => eq t0)); [by apply progress_ret|]. intros _.
  unfold max_version. eapply progress_bind; [by apply progress_query|]. intros n c Hw [Hc Hn].
  rewrite <- Hc in Hn. pose proof (max_version_of _ _ Ht _ Hn) as ->. by split_and!.
Qed.

(** Without faults [open] answers. *)
Definition at_rest t : Connection := {| stored := t; working := None; moments := [] |}.
Lemma open_answers v t : at_version v t -> (open (at_rest t)).2 = Ok tt.
Proof. intros Ht. destruct (version_cases _ _ Ht) as [-> |[-> | ->]]; by compute_schema. Qed.

(** C11: From the first version on, opening a database survives every fault: the versions
    only advance, the rows of every table are kept (with the default state in the packet
    sessions of a database that had none), a complete database is left as it is, an
    answer means that the schema is complete, and the next opening without faults
    completes it. *)
Theorem migrations_resume t v c (Hv : at_version v t) (Hs : stored c = t) (Hw : working c = None) :
  let '(c', o) := open c in
  (exists v', v <= v' /\ at_version v' (stored c') /\ data (stored c') = data t) /\
  (v = 3 -> stored c' = t) /\
  (o = Ok tt -> at_version 3 (stored c')) /\
  (open (at_rest (stored c'))).2 = Ok tt /\ at_version 3 (stored (open (at_rest (stored c'))).1).
Proof.
  destruct (open_upgrades t v c Hw) as (_&(v'&Hle&Hv'&Hd)&HQ); [by rewrite Hs|].
  assert (v = 3 -> stored (open c).1 = t) as Hsame.
  { intros ->. by destruct (open_complete t Hv c Hw (eq_sym Hs)) as (_&<-&_). }
  destruct (open c) as [c' o]. simpl in *. split; [by exists v'|]. split; [done|].
  pose proof (open_answers v' (stored c') Hv') as Hok. split_and!; [|done|].
  - intros ->. by destruct (HQ tt eq_refl).
  - destruct (open_upgrades (stored c') v' (at_rest (stored c')) eq_refl) as (_&_&HQ'); [done|].
    by destruct (HQ' tt Hok).
Qed.

(** A database whose first migration was interrupted: the table of the versions exists,
    and is empty. *)
Definition locked t : Prop := "schema_migration"%string ∈ created t /\ versions t = [].

Lemma locked_refuses t : locked t -> atomic t open (fun _ _ => False).
Proof.
  intros [Hc Hv]. unfold open. eapply atomic_bind; [by apply (atomic_query t _ (fun t' _ => t' = t))|done|]. intros _ _.
  eapply atomic_bind; [by apply (atomic_query t _ (fun t' b => t' = t /\ b = true)); intros b [= <-]; rewrite bool_decide_true
    |by intros ? ? [-> _]|]. intros b [_ ->]. simpl. atomically.
  eapply atomic_bind; [by apply (atomic_query t _ (fun _ _ => False)); intros n; rewrite Hv|done|done].
Qed.

Lemma partial_initial n t : run_batch (take n INITIAL_MIGRATION) no_tables = inr t ->
  t = no_tables \/ locked t \/ (at_version 1 t /\ data t = data no_tables).
Proof.
  destruct initial_migration as (t1&Hrun&Ht1&Hd1). intros Hn.
  destruct (decide (17 <= n)%nat) as [Hle|Hlt].
  - rewrite take_ge in Hn by (unfold INITIAL_MIGRATION; simpl; lia). rewrite Hrun in Hn. injection Hn as <-. auto.
  - destruct n as [|n]; [injection Hn as <-; auto|]. right. left.
    do 16 (destruct n as [|n]; [vm_compute in Hn; injection Hn as <-; split; [by apply (bool_decide_unpack _)|done]|]). lia.
Qed.

(** C12: The first migration is not atomic: a fault while a new database is opened can leave
    it locked, and a locked database is refused by every later opening, with or without
    faults, and never changes again. *)
Theorem first_migration_locks :
  (forall c, stored c = no_tables -> working c = None ->
     let t := stored (open c).1 in t = no_tables \/ locked t \/ exists v, at_version v t) /\
  (forall t c, locked t -> stored c = t -> working c = None -> (open c).2 <> Ok tt /\ stored (open c).1 = t) /\
  exists m, locked (stored (open {| stored := no_tables; working := None; moments := m |}).1).
Proof.
  split_and!.
  - intros c Hs Hw. simpl.
    assert (progress (eq no_tables) open (fun _ _ => True)
      (fun t => t = no_tables \/ locked t \/ exists v, at_version v t)) as Hp.
    { apply (open_steps false); [intros ? <-; split; [by vm_compute|auto]|]. cbn [negb].
      eapply (progress_bind _ _ _ (fun _ t => at_version 1 t /\ data t = data no_tables)).
      - eapply progress_weaken; [apply execute_batch_spec|done| |].
        + intros u t Ht. destruct initial_migration as (t1&Hrun&?&?). pose proof (eq_trans (eq_sym Hrun) Ht) as He.
          clear Ht Hrun. by injection He as <-.
        + intros t [n Hn]. destruct (partial_initial n t Hn) as [?|[?|[? _]]]; eauto.
      - intros []. eapply progress_weaken; [apply (upgrade_spec no_tables 1)|done|done|].
        intros t (v'&_&?&_). eauto. }
    by destruct (Hp c Hw (eq_sym Hs)) as (_&?&_).
  - intros t c Hl Hs Hw. destruct (locked_refuses t Hl c Hw Hs) as [_ [[Hn ?]|(?&[]&_)]]. split; [apply Hn|done].
  - exists (replicate 5 calm ++ [{| fate := Dies; time := "" |}]). split; [by apply (bool_decide_unpack _)|done].
Qed.
End Migration.
