(* ===== verification/Storage.v ===== *)
(** * Storage operations

    Model of [Storage] in [crates/storage/src/lib.rs], on the database of [Database]: the
    profiles and their revisions, the trusted nodes, the histories of speed and packet
    sessions, operations, and benchmark results with their certifications. A query with
    ORDER BY is a sorted list of the rows of a table. *)

From stdpp Require Import base list strings gmap sorting.
From Stdlib Require Import ZArith Lia.
From S2P Require Import Prelude ErrorModel Text UdpProtocol Database.
Open Scope Z_scope.

(** ** Libraries: [serde_json], [sha2], [x509_parser] and the parser of socket addresses. *)

Class Json (V : Type) := {
  is_object : V -> bool;
  json_to_string : V -> string + string;
  json_from_str : string -> string + V;
}.

(** [parse_certificate] gives the rest of the input and the raw public key. *)
Class Trust := {
  sha256 : bytes -> bytes;
  parse_certificate : bytes -> string + (bytes * bytes);
  parse_socket_address : string -> bool;
}.

(** ** Records of the interface. *)

Record ProfileSummary := { profile_id : string; summary_name : string; summary_revision : Z }.
Record ProfileDocument {V : Type} := { summary : ProfileSummary; configuration : V }.
Arguments ProfileDocument V : clear implicits.
Record TrustedNodeSummary := {
  trusted_id : string; trusted_name : string; trusted_last_address : option string;
  trusted_fingerprint : string; trusted_certificate : bytes; trusted_server : string;
  trusted_address : string;
}.
Record TrustedNodeConnection := {
  connection_node_id : string; connection_name : string; connection_address : string;
  connection_server_name : string; connection_certificate : bytes; connection_fingerprint : string;
  out_of_band_fingerprint_confirmed : bool; identity_change_confirmed : bool;
}.
Inductive BenchmarkCertificationState := BenchmarkUnsupported | Functional | Validated | Certified100G.
Definition certification_as_str (s : BenchmarkCertificationState) : string :=
  match s with
  | BenchmarkUnsupported => "unsupported"
  | Functional => "functional"
  | Validated => "validated"
  | Certified100G => "100g_certified"
  end.
Record BenchmarkPersistenceRequest {V : Type} := {
  hardware_profile_id : string; benchmark_result_id : string; certification_id : option string;
  request_build : string; request_configuration : V; environment : V; hardware_profile_hash : string;
  request_result : V; request_certification : BenchmarkCertificationState; request_checksum : string;
  request_created_at : string;
}.
Arguments BenchmarkPersistenceRequest V : clear implicits.
Record PersistedBenchmark := {
  persisted_id : string; persisted_hash : string; persisted_checksum : string; persisted_state : string;
  certification_created : bool;
}.
Record SpeedSessionPersistenceRequest {V : Type} := {
  speed_session_id : string; remote_node_id : string; request_protocol : string; request_backend : string;
  request_direction : string; started_at : string; speed_request_configuration : V;
}.
Arguments SpeedSessionPersistenceRequest V : clear implicits.
Record SpeedSessionSummary := {
  history_id : string; history_remote : option string; history_protocol : string; history_backend : string;
  history_direction : string; history_started_at : string; history_completed_at : option string;
  history_state : string;
}.
Record PacketSessionPersistenceRequest := {
  packet_session_id : string; request_interface : string; request_packet_backend : string;
  request_capture_mode : string; request_analysis_mode : string; request_started_at : string;
}.

(** ** Checks. *)

Definition invalid {A} (m : string) : res A := err InvalidArgument m.
Definition json_error (m : string) : NetToolError :=
  new_error StorageFailed ("benchmark JSON serialization failed: " +:+ m) false.
Definition serialized (o : string + string) : res string :=
  match o with inr s => Ok s | inl m => Err (json_error m) end.

(** [value.trim().is_empty() || value.len() > limit]. *)
Definition empty_or_long (limit : Z) (value : string) : bool :=
  trimmed_empty value || (limit <? len (as_bytes value)).
Definition hexadecimal (n : Z) (value : string) : bool :=
  (len (as_bytes value) =? n) && forallb is_ascii_hexdigit (as_bytes value).

Definition validate_profile_identity (id name : string) : res unit :=
  if empty_or_long 128 id || has_control (as_bytes id)
  then invalid "profile ID is empty, too long, or contains control characters"
  else if empty_or_long 256 name || has_control (as_bytes name)
  then invalid "profile name is empty, too long, or contains control characters"
  else Ok tt.

Definition validate_session_id (session_id : string) : res unit :=
  if negb (hexadecimal 32 session_id) then invalid "speed session ID must be 128-bit hexadecimal"
  else if forallb (fun b => b =? 48) (as_bytes session_id) then invalid "speed session ID must not be zero"
  else Ok tt.

Definition validate_timestamp (timestamp : string) : res unit :=
  if empty_or_long 64 timestamp then invalid "speed session timestamp is empty or too long" else Ok tt.

Definition validate_nonempty (value field : string) : res unit :=
  if empty_or_long 256 value then invalid (field +:+ " is empty or too long") else Ok tt.

Fixpoint validate_fields (limit : Z) (prefix : string) (fields : list (string * string)) : res unit :=
  match fields with
  | [] => Ok tt
  | (name, value) :: rest =>
      if empty_or_long limit value then invalid (prefix +:+ name +:+ " is empty or too long")
      else validate_fields limit prefix rest
  end.

Definition invalid_speed_state {A} (target : string) : res A :=
  err InvalidState ("speed session cannot transition to " +:+ target +:+ " from its current state").

Section Storage.
Context {V : Type} `{Json V} `{Trust} `{SqliteMessages}.

Definition hex_digest (bs : bytes) : string := hex (sha256 bs).

Definition validate_speed_persistence (r : SpeedSessionPersistenceRequest V) : res unit :=
  let? _ := validate_session_id (speed_session_id r) in
  if negb (hexadecimal 32 (remote_node_id r)) then invalid "speed remote Node ID must be 128-bit hexadecimal"
  else
    let? _ := validate_fields 64 "speed "
                [("protocol", request_protocol r); ("backend", request_backend r);
                 ("direction", request_direction r)]%string in
    validate_timestamp (started_at r).

Definition validate_benchmark_request (r : BenchmarkPersistenceRequest V) : res unit :=
  let? _ := validate_fields 512 ""
              [("hardware profile ID", hardware_profile_id r); ("benchmark result ID", benchmark_result_id r);
               ("software build", request_build r); ("created_at", request_created_at r)]%string in
  if match certification_id r with Some v => empty_or_long 512 v | None => false end
  then invalid "certification ID is empty or too long"
  else if negb (hexadecimal 64 (hardware_profile_hash r))
  then invalid "hardware profile hash must be a 64-character hexadecimal SHA-256"
  else if negb (hexadecimal 64 (request_checksum r))
  then invalid "benchmark checksum must be a 64-character hexadecimal SHA-256"
  else if negb (is_object (environment r)) || negb (is_object (request_result r))
  then invalid "benchmark environment and result must be JSON objects"
  else match request_certification r, certification_id r with
       | Certified100G, None => invalid "certified benchmark requires a certification ID"
       | _, _ => Ok tt
       end.

(** A field of the checksum: its length in eight bytes, then its bytes. *)
Definition checksum_field (value : string) : bytes :=
  to_be_bytes 8 (clamp 64 (len (as_bytes value))) ++ as_bytes value.
Definition calculate_benchmark_checksum (id build hash : string) (configuration result : V) : res string :=
  let? configuration_json := serialized (json_to_string configuration) in
  let? result_json := serialized (json_to_string result) in
  Ok (hex (sha256 (mjoin (map checksum_field [id; build; hash; configuration_json; result_json])))).

(** [{byte:02X}] of the bytes, joined with colons. *)
Definition upper_digit (d : Z) : Z := if d <? 10 then 48 + d else 55 + d.
Definition upper_hex (b : Z) : bytes := [upper_digit (b / 16); upper_digit (b mod 16)].

Definition public_key_fingerprint (certificate_der : bytes) : res bytes :=
  match parse_certificate certificate_der with
  | inl m => err NodeTlsFailed ("trusted Node certificate is invalid: " +:+ m)
  | inr (remaining, public_key) =>
      if negb (bool_decide (remaining = []))
      then err NodeTlsFailed "trusted Node certificate contains trailing data"
      else Ok (join [58] (map upper_hex (sha256 public_key)))
  end.

Definition validate_trusted_connection (t : TrustedNodeConnection) : res unit :=
  if negb (out_of_band_fingerprint_confirmed t)
  then err NodeTlsFailed "out-of-band fingerprint verification is required before pairing"
  else if negb (hexadecimal 32 (connection_node_id t)) then invalid "trusted Node ID must be 128-bit hexadecimal"
  else if empty_or_long 255 (connection_name t) then invalid "trusted Node name is empty or too long"
  else if empty_or_long 253 (connection_server_name t) then invalid "trusted Node TLS server name is invalid"
  else if negb (parse_socket_address (connection_address t))
  then invalid "trusted Node control address must include an IP and port"
  else
    let? presented := public_key_fingerprint (connection_certificate t) in
    if negb (eq_ignore_ascii_case presented (as_bytes (connection_fingerprint t)))
    then err NodeTlsFailed "trusted Node certificate does not match the confirmed fingerprint"
    else Ok tt.

(** ** Profiles. *)

Definition name_id_le (x y : ProfileSummary) : Prop :=
  (summary_name x <> summary_name y /\ string_le (summary_name x) (summary_name y)) \/
  (summary_name x = summary_name y /\ string_le (profile_id x) (profile_id y)).
#[export] Instance name_id_le_dec : RelDecision name_id_le.
Proof. intros x y. unfold name_id_le. apply _. Defined.

Definition profile_summary (p : string * ProfileRow) : ProfileSummary :=
  {| profile_id := p.1; summary_name := profile_name p.2; summary_revision := active_revision p.2 |}.

Definition list_profiles : op (list ProfileSummary) :=
  query (fun t => inr (merge_sort name_id_le (map profile_summary (map_to_list (network_profile t))))).

Definition insert_revision (id : string) (revision : Z) (json checksum timestamp : string) (t : Tables) :
    string + Tables * unit :=
  match references id (network_profile t) with
  | inl x => inl x
  | inr _ =>
      match insert_new "network_profile_revision.profile_id, network_profile_revision.revision" (id, revision)
              {| revision_configuration := json; revision_checksum := checksum; revision_created_at := timestamp |}
              (network_profile_revision t) with
      | inl x => inl x
      | inr rs => inr (set_profiles (network_profile t) rs t, tt)
      end
  end.

(** The error of the first INSERT of [create_profile]. *)
Definition create_error (m : string) : NetToolError :=
  if contains (as_bytes "UNIQUE") (as_bytes m) then new_error InvalidArgument "profile ID already exists" false
  else database_error m.

Definition profile_json_of (configuration : V) : res string :=
  match json_to_string configuration with
  | inr s => Ok s
  | inl m => err InvalidArgument ("profile configuration cannot be serialized: " +:+ m)
  end.

Definition create_profile (id name : string) (configuration : V) (timestamp : string) : op ProfileSummary :=
  let! _ := m_ret (validate_profile_identity id name) in
  if negb (is_object configuration) then m_ret (invalid "profile configuration must be a JSON object")
  else
    let! configuration_json := m_ret (profile_json_of configuration) in
    let checksum := hex_digest (as_bytes configuration_json) in
    transaction (
      let! _ := execute_with create_error (fun _ t =>
        match insert_new "network_profile.id" id
                {| profile_name := name; active_revision := 1; profile_created_at := timestamp;
                   profile_updated_at := timestamp |} (network_profile t) with
        | inl x => inl x
        | inr ps => inr (set_profiles ps (network_profile_revision t) t, tt)
        end) in
      let! _ := execute (fun _ t => insert_revision id 1 configuration_json checksum timestamp t) in
      let! _ := commit in
      m_ret (Ok {| profile_id := id; summary_name := name; summary_revision := 1 |})).

(** A row of the query of [get_profile]. *)
Definition profile_match (t : Tables) (id_or_name : string) (p : string * ProfileRow) :
    option (ProfileSummary * string * string) :=
  if bool_decide (p.1 = id_or_name) || bool_decide (profile_name p.2 = id_or_name)
  then match network_profile_revision t !! (p.1, active_revision p.2) with
       | Some r => Some (profile_summary p, revision_configuration r, revision_checksum r)
       | None => None
       end
  else None.

Definition get_profile (id_or_name : string) : op (option (ProfileDocument V)) :=
  if trimmed_empty id_or_name then m_ret (invalid "profile ID or name must not be empty")
  else
    let! matches := query (fun t => inr (omap (profile_match t id_or_name) (btree_iter (network_profile t)))) in
    m_ret (match matches with
           | [] => Ok None
           | [(summary, configuration_json, checksum)] =>
               if negb (bool_decide (hex_digest (as_bytes configuration_json) = checksum))
               then err StorageFailed "profile configuration checksum does not match"
               else match json_from_str configuration_json with
                    | inl m => err StorageFailed ("profile configuration JSON is invalid: " +:+ m)
                    | inr v => Ok (Some {| summary := summary; configuration := v |})
                    end
           | _ => invalid "profile name is ambiguous"
           end).

Definition existing_profile (id_or_name : string) : op (ProfileDocument V) :=
  let! current := get_profile id_or_name in
  m_ret (match current with Some d => Ok d | None => invalid "profile does not exist" end).

(** The largest [i64]. *)
Definition i64_max : Z := umax 63.

Definition update_profile (id_or_name name : string) (configuration : V) (timestamp : string) : op ProfileSummary :=
  let! _ := m_ret (validate_profile_identity id_or_name name) in
  if negb (is_object configuration) then m_ret (invalid "profile configuration must be a JSON object")
  else
    let! current := existing_profile id_or_name in
    let! configuration_json := m_ret (profile_json_of configuration) in
    let checksum := hex_digest (as_bytes configuration_json) in
    let id := profile_id (summary current) in
    if i64_max <? summary_revision (summary current) + 1 then m_ret (invalid "profile revision overflow")
    else
      let revision := summary_revision (summary current) + 1 in
      transaction (
        let! _ := execute (fun _ t =>
          match network_profile t !! id with
          | None => inr (t, tt)
          | Some p =>
              inr (set_profiles (<[id := {| profile_name := name; active_revision := revision;
                                            profile_created_at := profile_created_at p;
                                            profile_updated_at := timestamp |}]> (network_profile t))
                     (network_profile_revision t) t, tt)
          end) in
        let! _ := execute (fun _ t => insert_revision id revision configuration_json checksum timestamp t) in
        let! _ := commit in
        m_ret (Ok {| profile_id := id; summary_name := name; summary_revision := revision |})).

(** The second DELETE fails if a revision still refers to the profile. *)
Definition delete_profile (id_or_name : string) : op ProfileSummary :=
  let! document := existing_profile id_or_name in
  let id := profile_id (summary document) in
  transaction (
    let! _ := execute (fun _ t =>
      inr (set_profiles (network_profile t)
             (filter (fun x : (string * Z) * RevisionRow => x.1.1 <> id) (network_profile_revision t)) t, tt)) in
    let! _ := execute (fun _ t =>
      if bool_decide (map_Exists (fun k _ => k.1 = id) (network_profile_revision t))
      then inl foreign_key_failed
      else inr (set_profiles (delete id (network_profile t)) (network_profile_revision t) t, tt)) in
    let! _ := commit in
    m_ret (Ok (summary document))).

(** ** Trusted nodes. *)

Definition trusted_node_from_row (t : Tables) (n : string * NodeRow) : option TrustedNodeSummary :=
  match node_trust t !! n.1 with
  | Some x =>
      if bool_decide (trust_status x = "trusted"%string) then
        match certificate_der x, server_name x, control_address x with
        | Some c, Some s, Some a =>
            Some {| trusted_id := n.1; trusted_name := node_name n.2; trusted_last_address := last_address n.2;
                    trusted_fingerprint := fingerprint x; trusted_certificate := c; trusted_server := s;
                    trusted_address := a |}
        | _, _, _ => None
        end
      else None
  | None => None
  end.
Definition trusted_rows (t : Tables) : list TrustedNodeSummary :=
  omap (trusted_node_from_row t) (btree_iter (node t)).

(** The row with the ID comes first, and there are at most two. *)
Definition resolve_rows (x : string) (t : Tables) : list TrustedNodeSummary :=
  let named := filter (fun n => trusted_id n = x \/ trusted_name n = x) (trusted_rows t) in
  take 2 (filter (fun n => trusted_id n = x) named ++ filter (fun n => trusted_id n <> x) named).

Definition resolve_trusted_node (id_or_name : string) : op (option TrustedNodeSummary) :=
  if trimmed_empty id_or_name then m_ret (err InvalidArgument "node ID or name must not be empty")
  else
    let! matches := query (fun t => inr (resolve_rows id_or_name t)) in
    m_ret (if (1 <? len matches) && forallb (fun n => negb (bool_decide (trusted_id n = id_or_name))) matches
           then err InvalidArgument "node name is ambiguous; use the stable node ID"
           else Ok (head matches)).

Definition list_trusted_nodes : op (list TrustedNodeSummary) := query (fun t => inr (trusted_rows t)).

Definition set_revoked (now : string) (x : TrustRow) : TrustRow := {|
  fingerprint := fingerprint x; trust_status := "revoked"; trusted_at := trusted_at x; revoked_at := Some now;
  certificate_der := certificate_der x; server_name := server_name x; control_address := control_address x;
|}.

(** An UPDATE gives the number of rows that it changes. *)
Definition revoke_trusted_node (id_or_name : string) : op TrustedNodeSummary :=
  let! resolved := resolve_trusted_node id_or_name in
  let! n := m_ret (match resolved with Some n => Ok n | None => err NodeNotPaired "Node is not trusted" end) in
  transaction (
    let! changed := execute (fun now t =>
      match node_trust t !! trusted_id n with
      | Some x =>
          if bool_decide (trust_status x = "trusted"%string)
          then inr (set_nodes (node t) (<[trusted_id n := set_revoked now x]> (node_trust t)) t, 1)
          else inr (t, 0)
      | None => inr (t, 0)
      end) in
    if negb (changed =? 1) then m_ret (err NodeNotPaired "Node is no longer trusted")
    else let! _ := commit in m_ret (Ok n)).

Definition resolve_trusted_node_by_fingerprint (f : string) : op (option TrustedNodeSummary) :=
  if trimmed_empty f then m_ret (invalid "trusted Node fingerprint must not be empty")
  else
    let! nodes := list_trusted_nodes in
    let matches := filter (fun n => eq_ignore_ascii_case (as_bytes (trusted_fingerprint n)) (as_bytes f) = true) nodes in
    m_ret (if 1 <? len matches then err StorageFailed "trusted fingerprint maps to multiple Node IDs"
           else Ok (head matches)).

Definition upsert_node (now : string) (x : TrustedNodeConnection) (t : Tables) : Tables :=
  let first := match node t !! connection_node_id x with Some n => first_seen_at n | None => now end in
  set_nodes (<[connection_node_id x := {| node_name := connection_name x; first_seen_at := first;
                                          last_seen_at := Some now; last_address := Some (connection_address x) |}]>
               (node t)) (node_trust t) t.

Definition upsert_trust (now : string) (x : TrustedNodeConnection) (t : Tables) : string + Tables * unit :=
  match references (connection_node_id x) (node t) with
  | inl m => inl m
  | inr _ =>
      inr (set_nodes (node t)
             (<[connection_node_id x := {|
                 fingerprint := connection_fingerprint x; trust_status := "trusted"; trusted_at := Some now;
                 revoked_at := None; certificate_der := Some (connection_certificate x);
                 server_name := Some (connection_server_name x); control_address := Some (connection_address x) |}]>
               (node_trust t)) t, tt)
  end.

Definition identity_changed (x : TrustedNodeConnection) (existing : option string) : bool :=
  match existing with
  | Some f => negb (eq_ignore_ascii_case (as_bytes f) (as_bytes (connection_fingerprint x))) &&
              negb (identity_change_confirmed x)
  | None => false
  end.

Definition trust_node_connection (x : TrustedNodeConnection) : op unit :=
  let! _ := m_ret (validate_trusted_connection x) in
  transaction (
    let! existing := query (fun t => inr (fingerprint <$> node_trust t !! connection_node_id x)) in
    if identity_changed x existing
    then m_ret (err NodeTlsFailed "Node identity changed; explicit re-pair confirmation is required")
    else
      let! _ := execute (fun now t => inr (upsert_node now x t, tt)) in
      let! _ := execute (fun now t => upsert_trust now x t) in
      commit).

(** ** Speed sessions. *)

Definition speed_row (r : SpeedSessionPersistenceRequest V) (json : string) : SpeedRow := {|
  remote_node := Some (remote_node_id r); speed_protocol := request_protocol r; speed_backend := request_backend r;
  speed_direction := request_direction r; speed_started_at := started_at r; speed_completed_at := None;
  speed_result_state := "preparing"; speed_configuration := json; speed_result := None;
|}.

(** The columns that [begin_speed_session] compares. *)
Definition speed_request_columns (x : SpeedRow) : string + list string :=
  match not_null "remote_node" (remote_node x) with
  | inl m => inl m
  | inr remote =>
      inr [remote; speed_protocol x; speed_backend x; speed_direction x; speed_started_at x; speed_configuration x]
  end.

Definition set_speed (ss : gmap string SpeedRow) (t : Tables) : Tables :=
  set_sessions (operation t) ss (packet_session t) t.

Definition begin_speed_session (r : SpeedSessionPersistenceRequest V) : op unit :=
  let! _ := m_ret (validate_speed_persistence r) in
  let! configuration := m_ret (serialized (json_to_string (speed_request_configuration r))) in
  transaction (
    let! existing := query (fun t =>
      match speed_session t !! speed_session_id r with
      | None => inr None
      | Some x => match speed_request_columns x with inl m => inl m | inr l => inr (Some l) end
      end) in
    match existing with
    | Some actual =>
        if bool_decide (actual = [remote_node_id r; request_protocol r; request_backend r; request_direction r;
                                  started_at r; configuration])
        then commit
        else m_ret (err OperationConflict "speed session ID is already associated with a different request")
    | None =>
        let! _ := execute (fun _ t =>
          match insert_new "speed_session.session_id" (speed_session_id r) (speed_row r configuration)
                  (speed_session t) with
          | inl m => inl m
          | inr ss => inr (set_speed ss t, tt)
          end) in
        commit
    end).

(** [UPDATE speed_session] of one row in one of the states, with the number of rows. *)
Definition update_speed (session_id : string) (from : list string) (f : SpeedRow -> SpeedRow) (t : Tables) : Tables * Z :=
  match speed_session t !! session_id with
  | Some x => if bool_decide (speed_result_state x ∈ from)
              then (set_speed (<[session_id := f x]> (speed_session t)) t, 1) else (t, 0)
  | None => (t, 0)
  end.

Definition set_running (x : SpeedRow) : SpeedRow := {|
  remote_node := remote_node x; speed_protocol := speed_protocol x; speed_backend := speed_backend x;
  speed_direction := speed_direction x; speed_started_at := speed_started_at x;
  speed_completed_at := speed_completed_at x; speed_result_state := "running";
  speed_configuration := speed_configuration x; speed_result := speed_result x;
|}.
Definition set_terminal (completed_at state result : string) (x : SpeedRow) : SpeedRow := {|
  remote_node := remote_node x; speed_protocol := speed_protocol x; speed_backend := speed_backend x;
  speed_direction := speed_direction x; speed_started_at := speed_started_at x;
  speed_completed_at := Some completed_at; speed_result_state := state;
  speed_configuration := speed_configuration x; speed_result := Some result;
|}.

Definition speed_state (session_id : string) : op (option string) :=
  query (fun t => inr (speed_result_state <$> speed_session t !! session_id)).

Definition speed_terminal_matches (session_id state completed_at result_json : string) : op bool :=
  query (fun t => inr
    match speed_session t !! session_id with
    | Some x => bool_decide (speed_result_state x = state) && bool_decide (speed_completed_at x = Some completed_at) &&
                bool_decide (speed_result x = Some result_json)
    | None => false
    end).

Definition mark_speed_session_running (session_id : string) : op unit :=
  let! _ := m_ret (validate_session_id session_id) in
  let! changed := execute (fun _ t => inr (update_speed session_id ["preparing"%string] set_running t)) in
  if changed =? 1 then m_ret (Ok tt)
  else
    let! state := speed_state session_id in
    m_ret (if bool_decide (state = Some "running"%string) then Ok tt else invalid_speed_state "running").

(** The UPDATE of [complete_speed_session] and [terminate_speed_session], and what they
    do when no row changes. *)
Definition finish_speed (session_id completed_at state result : string) (from : list string) : op unit :=
  let! changed := execute (fun _ t => inr (update_speed session_id from (set_terminal completed_at state result) t)) in
  if changed =? 1 then m_ret (Ok tt)
  else
    let! same := speed_terminal_matches session_id state completed_at result in
    m_ret (if same : bool then Ok tt else invalid_speed_state state).

Definition complete_speed_session (session_id completed_at : string) (result : V) : op unit :=
  let! _ := m_ret (validate_session_id session_id) in
  let! _ := m_ret (validate_timestamp completed_at) in
  let! result := m_ret (serialized (json_to_string result)) in
  finish_speed session_id completed_at "completed" result ["running"%string].

Definition terminate_speed_session (session_id completed_at terminal_state : string) (detail : V) : op unit :=
  let! _ := m_ret (validate_session_id session_id) in
  let! _ := m_ret (validate_timestamp completed_at) in
  if negb (bool_decide (terminal_state ∈ ["failed"; "canceled"]%string))
  then m_ret (invalid "speed terminal state must be failed or canceled")
  else
    let! detail := m_ret (serialized (json_to_string detail)) in
    finish_speed session_id completed_at terminal_state detail ["preparing"; "running"]%string.

Definition speed_session_state (session_id : string) : op (option string) :=
  let! _ := m_ret (validate_session_id session_id) in speed_state session_id.

(** [row.get(0)] as [String]: NULL is an error. *)
Definition speed_session_remote_node (session_id : string) : op (option string) :=
  let! _ := m_ret (validate_session_id session_id) in
  query (fun t => match speed_session t !! session_id with
                  | None => inr None
                  | Some x => match not_null "remote_node" (remote_node x) with inl m => inl m | inr n => inr (Some n) end
                  end).

Definition later (x y : SpeedSessionSummary) : Prop :=
  (history_started_at x <> history_started_at y /\ string_le (history_started_at y) (history_started_at x)) \/
  (history_started_at x = history_started_at y /\ string_le (history_id y) (history_id x)).
#[export] Instance later_dec : RelDecision later.
Proof. intros x y. unfold later. apply _. Defined.

Definition speed_summary (x : string * SpeedRow) : SpeedSessionSummary := {|
  history_id := x.1; history_remote := remote_node x.2; history_protocol := speed_protocol x.2;
  history_backend := speed_backend x.2; history_direction := speed_direction x.2;
  history_started_at := speed_started_at x.2; history_completed_at := speed_completed_at x.2;
  history_state := speed_result_state x.2;
|}.

Definition list_speed_sessions (limit : Z) : op (list SpeedSessionSummary) :=
  if (limit =? 0) || (10000 <? limit) then m_ret (invalid "speed history limit must be between 1 and 10000")
  else query (fun t => inr (take (Z.to_nat limit) (merge_sort later (map speed_summary (map_to_list (speed_session t)))))).

(** ** Packet sessions. *)

Definition packet_row (r : PacketSessionPersistenceRequest) : PacketRow := {|
  packet_interface := request_interface r; packet_backend := request_packet_backend r;
  capture_mode := request_capture_mode r; analysis_mode := request_analysis_mode r;
  packet_started_at := request_started_at r; packet_completed_at := None; final_drop_counters := None;
  packet_confidence := Some "unknown"; packet_result_state := "running";
|}.
Definition packet_columns (x : PacketRow) : list string :=
  [packet_interface x; packet_backend x; capture_mode x; analysis_mode x; packet_started_at x].
Definition set_packets (ps : gmap string PacketRow) (t : Tables) : Tables :=
  set_sessions (operation t) (speed_session t) ps t.

Definition begin_packet_session (r : PacketSessionPersistenceRequest) : op unit :=
  let! _ := m_ret (validate_session_id (packet_session_id r)) in
  let! _ := m_ret (validate_nonempty (request_interface r) "packet interface") in
  let! _ := m_ret (validate_nonempty (request_packet_backend r) "packet backend") in
  let! _ := m_ret (validate_nonempty (request_capture_mode r) "capture mode") in
  let! _ := m_ret (validate_nonempty (request_analysis_mode r) "analysis mode") in
  let! _ := m_ret (validate_timestamp (request_started_at r)) in
  let! existing := query (fun t => inr (packet_columns <$> packet_session t !! packet_session_id r)) in
  match existing with
  | Some l =>
      m_ret (if bool_decide (l = packet_columns (packet_row r)) then Ok tt
             else err OperationConflict "packet session ID is already associated with a different request")
  | None =>
      execute (fun _ t =>
        match insert_new "packet_session.session_id" (packet_session_id r) (packet_row r) (packet_session t) with
        | inl m => inl m
        | inr ps => inr (set_packets ps t, tt)
        end)
  end.

Definition set_packet_terminal (completed_at state drops confidence : string) (x : PacketRow) : PacketRow := {|
  packet_interface := packet_interface x; packet_backend := packet_backend x; capture_mode := capture_mode x;
  analysis_mode := analysis_mode x; packet_started_at := packet_started_at x;
  packet_completed_at := Some completed_at; final_drop_counters := Some drops;
  packet_confidence := Some confidence; packet_result_state := state;
|}.
Definition packet_terminal_matches (completed_at state drops confidence : string) (x : PacketRow) : bool :=
  bool_decide (packet_completed_at x = Some completed_at) && bool_decide (final_drop_counters x = Some drops) &&
  bool_decide (packet_confidence x = Some confidence) && bool_decide (packet_result_state x = state).

Definition complete_packet_session (session_id completed_at state : string) (drops : V) (confidence : string) : op unit :=
  let! _ := m_ret (validate_session_id session_id) in
  let! _ := m_ret (validate_timestamp completed_at) in
  if negb (bool_decide (state ∈ ["completed"; "failed"; "canceled"]%string))
  then m_ret (invalid "packet terminal state is invalid")
  else
    let! _ := m_ret (validate_nonempty confidence "packet confidence") in
    let! drops := m_ret (serialized (json_to_string drops)) in
    let! changed := execute (fun _ t =>
      match packet_session t !! session_id with
      | Some x => match packet_completed_at x with
                  | None => inr (set_packets (<[session_id := set_packet_terminal completed_at state drops confidence x]>
                                                (packet_session t)) t, 1)
                  | Some _ => inr (t, 0)
                  end
      | None => inr (t, 0)
      end) in
    if changed =? 1 then m_ret (Ok tt)
    else
      let! existing := query (fun t => inr (packet_session t !! session_id)) in
      m_ret (if match existing with Some x => packet_terminal_matches completed_at state drops confidence x
                               | None => false end
             then Ok tt else invalid "packet session is not active").

Definition packet_session_state (session_id : string) : op (option string) :=
  let! _ := m_ret (validate_session_id session_id) in
  query (fun t => inr (packet_result_state <$> packet_session t !! session_id)).

(** ** Operations. *)

Definition operation_state (operation_id : string) : op (option string) :=
  query (fun t => inr (operation_row_state <$> operation t !! operation_id)).

Definition begin_operation (operation_id action : string) : op unit :=
  execute (fun now t =>
    match insert_new "operation.operation_id" operation_id
            {| operation_action := action; operation_row_state := "pending"; operation_created_at := now;
               operation_completed_at := None; operation_error := None |} (operation t) with
    | inl m => inl m
    | inr os => inr (set_sessions os (speed_session t) (packet_session t) t, tt)
    end).

(** ** Benchmarks. *)

(** [ON CONFLICT(id) DO NOTHING]; the hash is UNIQUE. *)
Definition insert_hardware (id json hash created_at : string) (t : Tables) : string + Tables * unit :=
  match hardware_profile t !! id with
  | Some _ => inr (t, tt)
  | None =>
      if bool_decide (map_Exists (fun _ h => profile_hash h = hash) (hardware_profile t))
      then inl (unique_failed "hardware_profile.profile_hash")
      else inr (set_benchmarks (<[id := {| profile_json := json; profile_hash := hash; hardware_created_at := created_at |}]>
                                  (hardware_profile t)) (benchmark_result t) (hardware_certification t) t, tt)
  end.

Definition insert_benchmark (id : string) (row : BenchmarkRow) (t : Tables) : string + Tables * unit :=
  match references (benchmark_hardware row) (hardware_profile t) with
  | inl m => inl m
  | inr _ => match insert_new "benchmark_result.id" id row (benchmark_result t) with
             | inl m => inl m
             | inr bs => inr (set_benchmarks (hardware_profile t) bs (hardware_certification t) t, tt)
             end
  end.

Definition insert_certification (id : string) (row : CertificationRow) (t : Tables) : string + Tables * unit :=
  match references (certified_hardware row) (hardware_profile t) with
  | inl m => inl m
  | inr _ =>
      match references (certified_benchmark row) (benchmark_result t) with
      | inl m => inl m
      | inr _ => match insert_new "hardware_certification.id" id row (hardware_certification t) with
                 | inl m => inl m
                 | inr cs => inr (set_benchmarks (hardware_profile t) (benchmark_result t) cs t, tt)
                 end
      end
  end.

Definition stored_hash (id : string) (t : Tables) : string + string :=
  match hardware_profile t !! id with Some h => inr (profile_hash h) | None => inl no_rows end.

Definition is_certified (s : BenchmarkCertificationState) : bool :=
  match s with Certified100G => true | _ => false end.

Definition persist_benchmark (r : BenchmarkPersistenceRequest V) : op PersistedBenchmark :=
  let! _ := m_ret (validate_benchmark_request r) in
  let! environment_json := m_ret (serialized (json_to_string (environment r))) in
  let! configuration_json := m_ret (serialized (json_to_string (request_configuration r))) in
  let! result_json := m_ret (serialized (json_to_string (request_result r))) in
  let! expected_checksum := m_ret (calculate_benchmark_checksum (benchmark_result_id r) (request_build r)
                                     (hardware_profile_hash r) (request_configuration r) (request_result r)) in
  if negb (bool_decide (request_checksum r = expected_checksum))
  then m_ret (err InvalidArgument "benchmark checksum does not match the supplied artifact")
  else
    let state := certification_as_str (request_certification r) in
    let certified := is_certified (request_certification r) in
    transaction (
      let! _ := execute (fun _ t => insert_hardware (hardware_profile_id r) environment_json
                                      (hardware_profile_hash r) (request_created_at r) t) in
      let! hash := query (stored_hash (hardware_profile_id r)) in
      if negb (bool_decide (hash = hardware_profile_hash r))
      then m_ret (err OperationConflict "hardware profile ID is already bound to another platform combination")
      else
        let! _ := execute (fun _ t => insert_benchmark (benchmark_result_id r)
          {| benchmark_hardware := hardware_profile_id r; software_build := request_build r;
             benchmark_configuration := configuration_json; benchmark_result_json := result_json;
             certification_state := state; benchmark_checksum := request_checksum r;
             benchmark_created_at := request_created_at r |} t) in
        let! _ :=
          if certified then
            let! id := m_ret (match certification_id r with
                              | Some id => Ok id
                              | None => err InvalidArgument "certified benchmark requires a certification ID"
                              end) in
            execute (fun _ t => insert_certification id
              {| certified_hardware := hardware_profile_id r; software_profile := request_build r;
                 certification_result := "100g_certified"; certified_benchmark := benchmark_result_id r;
                 certified_at := request_created_at r |} t)
          else m_ret (Ok tt) in
        let! _ := commit in
        m_ret (Ok {| persisted_id := benchmark_result_id r; persisted_hash := hardware_profile_hash r;
                     persisted_checksum := request_checksum r; persisted_state := state;
                     certification_created := certified |})).

Definition benchmark_certification_state (id : string) : op (option string) :=
  query (fun t => inr (certification_state <$> benchmark_result t !! id)).

Definition hardware_certification_count : op Z :=
  query (fun t => inr (Z.of_nat (size (hardware_certification t)))).
End Storage.
