(* ===== verification/StorageSpec.v ===== *)
(** * Storage as a step relation

    What [Storage] promises of the database: each request is one step of [effect], whole
    or not at all, whatever call of SQLite fails and wherever the process ends
    ([perform_atomic]). The invariants of the tables are proved of the steps. *)

From stdpp Require Import base list strings gmap sorting.
From Stdlib Require Import ZArith Lia.
From S2P Require Import Prelude ErrorModel Text UdpProtocol Database Storage.
Open Scope Z_scope.

(** Texts that were serialized. *)
Lemma profile_json_ok {V} `{Json V} (v : V) s : profile_json_of v = Ok s -> json_to_string v = inr s.
Proof. unfold profile_json_of. case_match; [done|]. by intros [= ->]. Qed.
Lemma serialized_ok (o : string + string) s : serialized o = Ok s -> o = inr s.
Proof. destruct o; [done|]. by intros [= ->]. Qed.
Ltac json := repeat match goal with
  | Hj : profile_json_of _ = Ok _ |- _ => apply profile_json_ok in Hj
  | Hj : serialized _ = Ok _ |- _ => apply serialized_ok in Hj
  end.

Section Spec.
Context {V : Type} `{Json V} `{Trust} `{SqliteMessages}.
Implicit Types (t : Tables).

(** ** Requests. *)

Inductive Request :=
| CreateProfile (id name : string) (configuration : V) (timestamp : string)
| UpdateProfile (id_or_name name : string) (configuration : V) (timestamp : string)
| GetProfile (id_or_name : string)
| DeleteProfile (id_or_name : string)
| ListProfiles
| ResolveNode (id_or_name : string)
| ResolveFingerprint (fingerprint : string)
| ListNodes
| RevokeNode (id_or_name : string)
| TrustNode (x : TrustedNodeConnection)
| BeginSpeed (r : SpeedSessionPersistenceRequest V)
| MarkRunning (session_id : string)
| CompleteSpeed (session_id completed_at : string) (result : V)
| TerminateSpeed (session_id completed_at terminal_state : string) (detail : V)
| SpeedState (session_id : string)
| SpeedRemote (session_id : string)
| ListSpeed (limit : Z)
| BeginPacket (r : PacketSessionPersistenceRequest)
| CompletePacket (session_id completed_at state : string) (drops : V) (confidence : string)
| PacketState (session_id : string)
| OperationState (operation_id : string)
| BeginOperation (operation_id action : string)
| PersistBenchmark (r : BenchmarkPersistenceRequest V)
| BenchmarkState (id : string)
| CertificationCount
| SchemaVersion.

Definition done {A} (m : op A) : op unit := let! _ := m in m_ret (Ok tt).

Definition perform (r : Request) : op unit :=
  match r with
  | CreateProfile id name v now => done (create_profile id name v now)
  | UpdateProfile x name v now => done (update_profile x name v now)
  | GetProfile x => done (get_profile x)
  | DeleteProfile x => done (delete_profile x)
  | ListProfiles => done list_profiles
  | ResolveNode x => done (resolve_trusted_node x)
  | ResolveFingerprint f => done (resolve_trusted_node_by_fingerprint f)
  | ListNodes => done list_trusted_nodes
  | RevokeNode x => done (revoke_trusted_node x)
  | TrustNode x => trust_node_connection x
  | BeginSpeed r => begin_speed_session r
  | MarkRunning id => mark_speed_session_running id
  | CompleteSpeed id now v => complete_speed_session id now v
  | TerminateSpeed id now s v => terminate_speed_session id now s v
  | SpeedState id => done (speed_session_state id)
  | SpeedRemote id => done (speed_session_remote_node id)
  | ListSpeed n => done (list_speed_sessions n)
  | BeginPacket r => begin_packet_session r
  | CompletePacket id now s v c => complete_packet_session id now s v c
  | PacketState id => done (packet_session_state id)
  | OperationState id => done (operation_state id)
  | BeginOperation id a => begin_operation id a
  | PersistBenchmark r => done (persist_benchmark r)
  | BenchmarkState id => done (benchmark_certification_state id)
  | CertificationCount => done hardware_certification_count
  | SchemaVersion => done schema_version
  end.

(** ** Steps. *)

Definition revision_row (json timestamp : string) : RevisionRow := {|
  revision_configuration := json; revision_checksum := hex_digest (as_bytes json); revision_created_at := timestamp;
|}.
Definition profile_row (name : string) (revision : Z) (created_at updated_at : string) : ProfileRow := {|
  profile_name := name; active_revision := revision; profile_created_at := created_at; profile_updated_at := updated_at;
|}.
Definition trust_row (now : string) (x : TrustedNodeConnection) : TrustRow := {|
  fingerprint := connection_fingerprint x; trust_status := "trusted"; trusted_at := Some now; revoked_at := None;
  certificate_der := Some (connection_certificate x); server_name := Some (connection_server_name x);
  control_address := Some (connection_address x);
|}.

(** The requests that end a speed session: the time, the state, the result, and the states
    that it may follow. *)
Inductive terminates : Request -> string -> string -> string -> string -> list string -> Prop :=
| by_completion id now v json :
    json_to_string v = inr json ->
    terminates (CompleteSpeed id now v) id now "completed" json ["running"%string]
| by_termination id now s v json :
    s ∈ ["failed"; "canceled"]%string -> json_to_string v = inr json ->
    terminates (TerminateSpeed id now s v) id now s json ["preparing"; "running"]%string.

(** The tables after a benchmark; the hardware profile may exist. *)
Definition with_hardware (r : BenchmarkPersistenceRequest V) (json : string) (hs : gmap string HardwareRow) :
    gmap string HardwareRow :=
  match hs !! hardware_profile_id r with
  | Some _ => hs
  | None => <[hardware_profile_id r := {| profile_json := json; profile_hash := hardware_profile_hash r;
                                          hardware_created_at := request_created_at r |}]> hs
  end.
Definition benchmark_row (r : BenchmarkPersistenceRequest V) (configuration result : string) : BenchmarkRow := {|
  benchmark_hardware := hardware_profile_id r; software_build := request_build r;
  benchmark_configuration := configuration; benchmark_result_json := result;
  certification_state := certification_as_str (request_certification r); benchmark_checksum := request_checksum r;
  benchmark_created_at := request_created_at r;
|}.
Definition certification_row (r : BenchmarkPersistenceRequest V) : CertificationRow := {|
  certified_hardware := hardware_profile_id r; software_profile := request_build r;
  certification_result := "100g_certified"; certified_benchmark := benchmark_result_id r;
  certified_at := request_created_at r;
|}.
Definition artifact_checksum (id build hash configuration result : string) : string :=
  hex (sha256 (mjoin (map checksum_field [id; build; hash; configuration; result]))).

(** [effect t r t']: what the request [r] may do to the tables [t]. *)
Inductive effect (t : Tables) : Request -> Tables -> Prop :=
| profile_created id name v json now :
    json_to_string v = inr json ->
    network_profile t !! id = None -> network_profile_revision t !! (id, 1) = None ->
    effect t (CreateProfile id name v now)
      (set_profiles (<[id := profile_row name 1 now now]> (network_profile t))
         (<[(id, 1) := revision_row json now]> (network_profile_revision t)) t)
| profile_updated x id p name v json now :
    json_to_string v = inr json ->
    network_profile t !! id = Some p -> (id = x \/ profile_name p = x) -> active_revision p < i64_max ->
    network_profile_revision t !! (id, active_revision p + 1) = None ->
    effect t (UpdateProfile x name v now)
      (set_profiles (<[id := profile_row name (active_revision p + 1) (profile_created_at p) now]> (network_profile t))
         (<[(id, active_revision p + 1) := revision_row json now]> (network_profile_revision t)) t)
| profile_deleted x id p :
    network_profile t !! id = Some p -> (id = x \/ profile_name p = x) ->
    effect t (DeleteProfile x)
      (set_profiles (delete id (network_profile t))
         (filter (fun x : (string * Z) * RevisionRow => x.1.1 <> id) (network_profile_revision t)) t)
| node_trusted x now now' :
    validate_trusted_connection x = Ok tt ->
    identity_changed x (fingerprint <$> node_trust t !! connection_node_id x) = false ->
    effect t (TrustNode x)
      (set_nodes (node (upsert_node now x t)) (<[connection_node_id x := trust_row now' x]> (node_trust t)) t)
| node_revoked y id n x now :
    node t !! id = Some n -> (id = y \/ node_name n = y) ->
    node_trust t !! id = Some x -> trust_status x = "trusted"%string ->
    effect t (RevokeNode y) (set_nodes (node t) (<[id := set_revoked now x]> (node_trust t)) t)
| speed_begun r json :
    json_to_string (speed_request_configuration r) = inr json ->
    validate_speed_persistence r = Ok tt -> speed_session t !! speed_session_id r = None ->
    effect t (BeginSpeed r) (set_speed (<[speed_session_id r := speed_row r json]> (speed_session t)) t)
| speed_started id x :
    speed_session t !! id = Some x -> speed_result_state x = "preparing"%string ->
    effect t (MarkRunning id) (set_speed (<[id := set_running x]> (speed_session t)) t)
| speed_finished r id x now s result from :
    speed_session t !! id = Some x -> terminates r id now s result from -> speed_result_state x ∈ from ->
    effect t r (set_speed (<[id := set_terminal now s result x]> (speed_session t)) t)
| packet_begun r :
    packet_session t !! packet_session_id r = None ->
    effect t (BeginPacket r) (set_packets (<[packet_session_id r := packet_row r]> (packet_session t)) t)
| packet_finished id x now s drops json confidence :
    json_to_string drops = inr json ->
    packet_session t !! id = Some x -> packet_completed_at x = None ->
    s ∈ ["completed"; "failed"; "canceled"]%string ->
    effect t (CompletePacket id now s drops confidence)
      (set_packets (<[id := set_packet_terminal now s json confidence x]> (packet_session t)) t)
| operation_begun id action now :
    operation t !! id = None ->
    effect t (BeginOperation id action)
      (set_sessions (<[id := {| operation_action := action; operation_row_state := "pending"; operation_created_at := now;
                                operation_completed_at := None; operation_error := None |}]> (operation t))
         (speed_session t) (packet_session t) t)
| benchmark_persisted r json configuration result h :
    let hs := with_hardware r json (hardware_profile t) in
    json_to_string (environment r) = inr json ->
    json_to_string (request_configuration r) = inr configuration -> json_to_string (request_result r) = inr result ->
    hs !! hardware_profile_id r = Some h -> profile_hash h = hardware_profile_hash r ->
    (hardware_profile t !! hardware_profile_id r = None ->
     forall k h', hardware_profile t !! k = Some h' -> profile_hash h' <> hardware_profile_hash r) ->
    benchmark_result t !! benchmark_result_id r = None ->
    request_checksum r = artifact_checksum (benchmark_result_id r) (request_build r) (hardware_profile_hash r)
                           configuration result ->
    match certification_id r with
    | Some id => is_certified (request_certification r) = true -> hardware_certification t !! id = None
    | None => is_certified (request_certification r) = false
    end ->
    effect t (PersistBenchmark r)
      (set_benchmarks hs
         (<[benchmark_result_id r := benchmark_row r configuration result]> (benchmark_result t))
         (match certification_id r with
          | Some id => if is_certified (request_certification r)
                       then <[id := certification_row r]> (hardware_certification t)
                       else hardware_certification t
          | None => hardware_certification t
          end) t).

(** One step or none. *)
Definition step_or_same (t : Tables) (r : Request) (t' : Tables) : Prop := t' = t \/ effect t r t'.

(** ** The operations are steps. *)

Lemma atomic_done {A} t (m : op A) (Q : Tables -> Prop) :
  atomic t m (fun t' _ => Q t') -> atomic t (done m) (fun t' _ => Q t').
Proof.
  intros Hm c Hw Hs. unfold done, m_bind. destruct (Hm c Hw Hs) as [Hw' He]. destruct (m c) as [c' o]. simpl in *.
  destruct o as [a|e|]; (split; [done|]); destruct He as [[Hn Ht]|(a'&HQ&Ho)];
    first [ by destruct (Hn a) | by apply ends_none | by right; exists tt; auto | by destruct Ho ].
Qed.

Lemma atomic_same {A} t r (m : op A) : atomic t m (fun t' _ => t' = t) -> atomic t (done m) (fun t' _ => step_or_same t r t').
Proof. intros Hm. apply (atomic_done t m (step_or_same t r)). eapply atomic_weaken; [exact Hm|]. by left. Qed.

Lemma query_same {A} t (f : Tables -> string + A) : atomic t (query f) (fun t' _ => t' = t).
Proof. by apply atomic_query. Qed.

(** The tables of a finished transaction, as one step. *)
Ltac one_step lemma := json; autorewrite with tables; simpl; right; by eapply lemma.

Lemma create_profile_atomic t id name v now :
  atomic t (create_profile id name v now) (fun t' _ => step_or_same t (CreateProfile id name v now) t').
Proof.
  unfold create_profile. atomically.
  unfold insert_new in *. destruct (network_profile t !! id) eqn:Hp; [done|]. simplify_eq.
  unfold insert_revision, insert_new, references in *. simpl in *. rewrite lookup_insert_eq in *.
  destruct (network_profile_revision t !! (id, 1)) eqn:Hr; [done|]. simplify_eq.
  eapply finishing_commit; [done|]. one_step profile_created.
Qed.

Lemma profile_match_spec t x p s json checksum : profile_match t x p = Some (s, json, checksum) ->
  s = profile_summary p /\ (p.1 = x \/ profile_name p.2 = x) /\ exists r, network_profile_revision t !! (p.1, active_revision p.2) = Some r /\
    json = revision_configuration r /\ checksum = revision_checksum r.
Proof.
  unfold profile_match. destruct (bool_decide _ || bool_decide _) eqn:Hx; [|done]. destruct (network_profile_revision t !! _) as [r|]; [|done].
  intros [= <- <- <-]. apply orb_true_iff in Hx as [Hx|Hx]; apply bool_decide_eq_true in Hx; eauto 10.
Qed.

(** The profile that an operation works on is in the tables. *)
Definition found t (x : string) (d : ProfileDocument V) : Prop := exists p,
  network_profile t !! profile_id (summary d) = Some p /\ active_revision p = summary_revision (summary d) /\
  (profile_id (summary d) = x \/ profile_name p = x).

Lemma get_profile_spec t x :
  atomic t (get_profile x) (fun t' d => t' = t /\ forall d', d = Some d' -> found t x d').
Proof.
  unfold get_profile. atomically.
  apply (atomic_bind _ _ _ (fun t' l => t' = t /\ l = omap (profile_match t x) (btree_iter (network_profile t)))).
  - apply atomic_query. by intros a [= <-].
  - by intros t' b [-> _].
  - intros l [_ ->]. apply atomic_ret. intros d Hd. split; [done|]. intros d' ->.
    destruct (omap _ _) as [|[[s json] checksum] [|]] eqn:Hl; try done.
    case_match; [done|]. destruct (json_from_str json) as [|v]; [done|]. injection Hd as <-.
    assert ((s, json, checksum) ∈ omap (profile_match t x) (btree_iter (network_profile t))) as Hin
      by (rewrite Hl; by left).
    apply list_elem_of_omap in Hin as ([id p]&Hp%btree_iter_elem&(->&Hx&_)%profile_match_spec). by exists p.
Qed.

Lemma existing_profile_spec t x : atomic t (existing_profile x) (fun t' d => t' = t /\ found t x d).
Proof.
  unfold existing_profile. eapply atomic_bind; [apply get_profile_spec|by intros t' b [-> _]|].
  intros [d|] [_ Hd]; [|apply atomic_err]. apply atomic_ret. intros a [= <-]. auto.
Qed.

Lemma update_profile_atomic t x name v now :
  atomic t (update_profile x name v now) (fun t' _ => step_or_same t (UpdateProfile x name v now) t').
Proof.
  unfold update_profile. atomically.
  eapply atomic_bind; [apply existing_profile_spec|by intros t' d [-> _]|]. intros d [_ (p&Hp&Ha&Hx)]. atomically.
  rewrite Hp in *. simplify_eq.
  unfold insert_revision, insert_new, references in *. simpl in *. rewrite lookup_insert_eq in *.
  destruct (network_profile_revision t !! _) eqn:Hr; [done|]. simplify_eq.
  eapply finishing_commit; [done|]. rewrite <- Ha in *. match goal with Hn : (i64_max <? _) = false |- _ => apply Z.ltb_ge in Hn end.
  json. autorewrite with tables. simpl. right. apply (profile_updated t x); [done|done|done|lia|done].
Qed.

Lemma delete_profile_atomic t x : atomic t (delete_profile x) (fun t' _ => step_or_same t (DeleteProfile x) t').
Proof.
  unfold delete_profile.
  eapply atomic_bind; [apply existing_profile_spec|by intros t' d [-> _]|]. intros d [_ (p&Hp&Ha&Hx)]. atomically.
  simplify_eq. simpl in *. case_bool_decide; [done|]. simplify_eq.
  eapply finishing_commit; [done|]. one_step profile_deleted.
Qed.

Lemma trusted_row_spec t n y : trusted_node_from_row t n = Some y -> trusted_id y = n.1 /\ trusted_name y = node_name n.2.
Proof. unfold trusted_node_from_row. repeat (case_match; try done). by intros [= <-]. Qed.

Lemma resolve_rows_spec x t y : y ∈ resolve_rows x t ->
  exists n, node t !! trusted_id y = Some n /\ (trusted_id y = x \/ node_name n = x).
Proof.
  unfold resolve_rows. intros Hy%subseteq_take. rewrite elem_of_app, !list_elem_of_filter in Hy.
  assert ((trusted_id y = x \/ trusted_name y = x) /\ y ∈ trusted_rows t) as [Hx Hin] by tauto.
  apply list_elem_of_omap in Hin as ([id n]&Hn%btree_iter_elem&[Hi Hm]%trusted_row_spec). simpl in *.
  exists n. rewrite <- Hm. by rewrite Hi in *.
Qed.

Lemma resolve_spec t x : atomic t (resolve_trusted_node x) (fun t' o => t' = t /\ forall y, o = Some y ->
  exists n, node t !! trusted_id y = Some n /\ (trusted_id y = x \/ node_name n = x)).
Proof.
  unfold resolve_trusted_node. atomically.
  eapply atomic_bind; [by apply (atomic_query t _ (fun t' l => t' = t /\ l = resolve_rows x t)); intros l [= <-]
    |by intros ? ? [-> _]|].
  intros l [_ ->]. apply atomic_ret. intros o Ho. split; [done|]. intros y ->. case_match; [done|].
  injection Ho as Ho. apply (resolve_rows_spec x t y). destruct (resolve_rows x t); [done|]. injection Ho as ->. by left.
Qed.

Lemma revoke_atomic t x : atomic t (revoke_trusted_node x) (fun t' _ => step_or_same t (RevokeNode x) t').
Proof.
  unfold revoke_trusted_node. eapply atomic_bind; [apply resolve_spec|by intros ? ? [-> _]|].
  intros [n|] [_ Hn]; atomically; simplify_eq; destruct (Hn _ eq_refl) as (row&Hrow&Hx);
    match goal with Hu : context [node_trust t !! ?k] |- _ => destruct (node_trust t !! k) as [y|] eqn:Hy end;
    try case_bool_decide; simplify_eq; try done.
  eapply finishing_commit; [done|]. one_step node_revoked.
Qed.

Lemma by_fingerprint_spec t f : atomic t (resolve_trusted_node_by_fingerprint f) (fun t' _ => t' = t).
Proof.
  unfold resolve_trusted_node_by_fingerprint. atomically.
  eapply atomic_bind; [apply query_same|done|]. intros l _. by apply atomic_ret.
Qed.

Lemma trust_atomic t x : atomic t (trust_node_connection x) (fun t' _ => step_or_same t (TrustNode x) t').
Proof.
  unfold trust_node_connection. atomically. simplify_eq.
  match goal with Hu : upsert_trust _ _ _ = _ |- _ =>
    unfold upsert_trust, references in Hu; simpl in Hu; rewrite lookup_insert_eq in Hu; simplify_eq end.
  apply finishing_commit_only. autorewrite with tables. simpl. right. 
  match goal with Hb : validate_trusted_connection x = Ok ?b |- _ => destruct b end.
  by apply (node_trusted t x now now0).
Qed.

Lemma begin_speed_atomic t r : atomic t (begin_speed_session r) (fun t' _ => step_or_same t (BeginSpeed r) t').
Proof.
  unfold begin_speed_session. atomically. json.
  destruct (speed_session t !! speed_session_id r) as [x|] eqn:Hx.
  - destruct (speed_request_columns x); [done|]. simplify_eq. case_bool_decide; atomically.
    apply finishing_commit_only. by left.
  - simplify_eq. atomically. unfold insert_new in *. rewrite Hx in *. simplify_eq.
    apply finishing_commit_only. right.
    match goal with Hb : validate_speed_persistence r = Ok ?b |- _ => destruct b end. by eapply speed_begun.
Qed.

Lemma update_speed_cases id from f t t' n : update_speed id from f t = (t', n) ->
  (t' = t /\ n = 0) \/ exists x, speed_session t !! id = Some x /\ speed_result_state x ∈ from /\ n = 1 /\
    t' = set_speed (<[id := f x]> (speed_session t)) t.
Proof.
  unfold update_speed. destruct (speed_session t !! id) as [x|]; [case_bool_decide|]; intros [= <- <-]; eauto 10.
Qed.

Lemma mark_atomic t id : atomic t (mark_speed_session_running id) (fun t' _ => step_or_same t (MarkRunning id) t').
Proof.
  unfold mark_speed_session_running. atomically. apply atomic_execute. intros now t' n [= Hu].
  apply update_speed_cases in Hu as [[-> ->]|(x&Hx&Hs&->&->)].
  - left. split; [done|]. eapply atomic_bind; [apply query_same|done|]. intros s _. apply atomic_ret. by left.
  - right. exists tt. split; [done|]. right. apply speed_started; set_solver.
Qed.

Lemma finish_speed_atomic t r id now s json from : terminates r id now s json from ->
  atomic t (finish_speed id now s json from) (fun t' _ => step_or_same t r t').
Proof.
  intros Hf. unfold finish_speed. apply atomic_execute. intros time t' n [= Hu].
  apply update_speed_cases in Hu as [[-> ->]|(x&Hx&Hs&->&->)].
  - left. split; [done|]. eapply atomic_bind; [apply query_same|done|]. intros b _. apply atomic_ret. by left.
  - right. exists tt. split; [done|]. right. by eapply speed_finished.
Qed.

Lemma begin_packet_atomic t r : atomic t (begin_packet_session r) (fun t' _ => step_or_same t (BeginPacket r) t').
Proof.
  unfold begin_packet_session. atomically.
  eapply atomic_bind; [by apply (atomic_query t _ (fun t' b => t' = t /\ b = packet_columns <$> packet_session t !! packet_session_id r)); intros a [= <-]|by intros ? ? [-> _]|].
  intros b7 [_ ->]. destruct (packet_session t !! packet_session_id r) as [x|] eqn:Hx; simpl.
  - apply atomic_ret. by left.
  - apply atomic_execute_only. intros now t' a. unfold insert_new. rewrite Hx. intros [= <- <-]. right.
    by apply packet_begun.
Qed.

Lemma complete_packet_atomic t id now s v c :
  atomic t (complete_packet_session id now s v c) (fun t' _ => step_or_same t (CompletePacket id now s v c) t').
Proof.
  unfold complete_packet_session. atomically. json. apply atomic_execute. intros time t' n Hu.
  assert ((t' = t /\ n = 0) \/ n = 1 /\ step_or_same t (CompletePacket id now s v c) t') as [[-> ->]|[-> Hs]].
  { destruct (packet_session t !! id) as [x|] eqn:Hx; [|by injection Hu; auto].
    destruct (packet_completed_at x) eqn:Hc; [by injection Hu; auto|]. injection Hu as <- <-. right. split; [done|].
    right. apply packet_finished; [done..|].
    match goal with Hn : negb _ = false |- _ => by apply negb_false_iff, bool_decide_eq_true in Hn end. }
  - left. split; [done|]. eapply atomic_bind; [apply query_same|done|]. intros x _. apply atomic_ret. by left.
  - right. by exists tt.
Qed.

Lemma begin_operation_atomic t id a : atomic t (begin_operation id a) (fun t' _ => step_or_same t (BeginOperation id a) t').
Proof.
  unfold begin_operation. apply atomic_execute_only. intros now t' b. unfold insert_new.
  destruct (operation t !! id) eqn:Ho; [done|]. intros [= <- <-]. right. by apply operation_begun.
Qed.

(** The statements of [persist_benchmark]. *)
Lemma insert_hardware_spec (r : BenchmarkPersistenceRequest V) json t t' b :
  insert_hardware (hardware_profile_id r) json (hardware_profile_hash r) (request_created_at r) t = inr (t', b) ->
  t' = set_benchmarks (with_hardware r json (hardware_profile t)) (benchmark_result t) (hardware_certification t) t /\
  (hardware_profile t !! hardware_profile_id r = None ->
   forall k h', hardware_profile t !! k = Some h' -> profile_hash h' <> hardware_profile_hash r).
Proof.
  unfold insert_hardware, with_hardware. destruct (hardware_profile t !! hardware_profile_id r) as [h|] eqn:Hh.
  - intros [= <- <-]. by rewrite set_benchmarks_same.
  - case_bool_decide as He; [done|]. intros [= <- <-]. split; [done|]. intros _ k h' Hk Hh'. apply He. by exists k, h'.
Qed.

Lemma insert_benchmark_spec id row t t' b : insert_benchmark id row t = inr (t', b) ->
  benchmark_result t !! id = None /\
  t' = set_benchmarks (hardware_profile t) (<[id := row]> (benchmark_result t)) (hardware_certification t) t.
Proof.
  unfold insert_benchmark, references, insert_new. destruct (hardware_profile t !! _); [|done].
  destruct (benchmark_result t !! id); [done|]. by intros [= <- <-].
Qed.

Lemma insert_certification_spec id row t t' b : insert_certification id row t = inr (t', b) ->
  hardware_certification t !! id = None /\
  t' = set_benchmarks (hardware_profile t) (benchmark_result t) (<[id := row]> (hardware_certification t)) t.
Proof.
  unfold insert_certification, references, insert_new. destruct (hardware_profile t !! _); [|done].
  destruct (benchmark_result t !! _); [|done]. destruct (hardware_certification t !! id); [done|]. by intros [= <- <-].
Qed.

Lemma checksum_spec (r : BenchmarkPersistenceRequest V) configuration result checksum :
  json_to_string (request_configuration r) = inr configuration ->
  json_to_string (request_result r) = inr result ->
  calculate_benchmark_checksum (benchmark_result_id r) (request_build r) (hardware_profile_hash r)
    (request_configuration r) (request_result r) = Ok checksum ->
  checksum = artifact_checksum (benchmark_result_id r) (request_build r) (hardware_profile_hash r) configuration result.
Proof. unfold calculate_benchmark_checksum. intros -> ->. cbn [serialized obind]. by intros [= <-]. Qed.

Lemma certified_needs_id (r : BenchmarkPersistenceRequest V) b :
  validate_benchmark_request r = Ok b -> certification_id r = None -> is_certified (request_certification r) = false.
Proof.
  unfold validate_benchmark_request. intros Hv Hn. destruct (validate_fields _ _ _); try done. cbn [obind] in Hv.
  rewrite Hn in Hv. repeat (case_match; try done).
Qed.

Lemma persist_atomic t (r : BenchmarkPersistenceRequest V) :
  atomic t (persist_benchmark r) (fun t' _ => step_or_same t (PersistBenchmark r) t').
Proof.
  unfold persist_benchmark. atomically. json.
  repeat match goal with
  | Hu : insert_hardware _ _ _ _ _ = _ |- _ => apply insert_hardware_spec in Hu as [-> Hunique]
  | Hu : insert_benchmark _ _ _ = _ |- _ => apply insert_benchmark_spec in Hu as [Hfresh ->]
  | Hu : negb _ = false |- _ => apply negb_false_iff, bool_decide_eq_true in Hu
  end.
  autorewrite with tables in *. simpl in *. unfold stored_hash in *. simpl in *.
  destruct (with_hardware r _ _ !! _) as [h|] eqn:Hh; [|done]. simplify_eq.
  assert (forall id, certification_id r = id -> is_certified (request_certification r) = false ->
    match id with Some id => is_certified (request_certification r) = true -> hardware_certification t !! id = None
             | None => is_certified (request_certification r) = false end) as Hplain by (intros [?|] _ ->; done).
  pose proof (certified_needs_id r) as Hneeds.
  match goal with Hc : calculate_benchmark_checksum _ _ _ _ _ = Ok _ |- _ =>
    eapply checksum_spec in Hc; [|done..] end.
  destruct (is_certified (request_certification r)) eqn:Hcert.
  - apply finishing_assoc. atomically. destruct (certification_id r) as [id|] eqn:Hid; [|done]. simplify_eq.
    match goal with Hu : insert_certification _ _ _ = _ |- _ => apply insert_certification_spec in Hu as [Hc ->] end.
    eapply finishing_commit; [done|]. right. simpl in *. autorewrite with tables. simpl.
    pose proof (benchmark_persisted t r) as Hstep. rewrite Hid, Hcert in Hstep. by eapply Hstep.
  - atomically. eapply finishing_commit; [done|]. right. simpl. autorewrite with tables.
    pose proof (benchmark_persisted t r) as Hstep. rewrite Hcert in Hstep.
    destruct (certification_id r) eqn:Hid; by eapply Hstep.
Qed.

Lemma terminate_atomic t id now s v :
  atomic t (terminate_speed_session id now s v) (fun t' _ => step_or_same t (TerminateSpeed id now s v) t').
Proof.
  unfold terminate_speed_session. atomically. json. apply finish_speed_atomic. apply by_termination; [|done].
  match goal with Hn : negb _ = false |- _ => by apply negb_false_iff, bool_decide_eq_true in Hn end.
Qed.

Lemma complete_atomic t id now v :
  atomic t (complete_speed_session id now v) (fun t' _ => step_or_same t (CompleteSpeed id now v) t').
Proof. unfold complete_speed_session. atomically. json. apply finish_speed_atomic. by apply by_completion. Qed.

Lemma reads_only {A} t r (m : op A) P : atomic t m P -> (forall t' a, P t' a -> t' = t) ->
  atomic t (done m) (fun t' _ => step_or_same t r t').
Proof. intros Hm HP. apply (atomic_done t m (step_or_same t r)). eapply atomic_weaken; [exact Hm|]. left. eauto. Qed.

Lemma query_reads {A} t r (f : Tables -> string + A) : atomic t (done (query f)) (fun t' _ => step_or_same t r t').
Proof. eapply reads_only; [apply query_same|done]. Qed.

Lemma lifted_reads {A B} t r (o : res A) (k : A -> op B) :
  (forall a, atomic t (done (k a)) (fun t' _ => step_or_same t r t')) ->
  atomic t (done (let! a := m_ret o in k a)) (fun t' _ => step_or_same t r t').
Proof.
  intros Hk c Hw Hs. unfold done, m_bind, m_ret. destruct o as [a|e|]; [by apply Hk| |]; (split; [done|]);
    [by apply ends_err|by apply ends_panic].
Qed.

Lemma perform_atomic t r : atomic t (perform r) (fun t' _ => step_or_same t r t').
Proof.
  pose proof (fun A m r => @atomic_done A t m (step_or_same t r)) as Hdone.
  destruct r; simpl; eauto using create_profile_atomic, update_profile_atomic, delete_profile_atomic, revoke_atomic,
    trust_atomic, begin_speed_atomic, mark_atomic, complete_atomic, terminate_atomic, begin_packet_atomic,
    complete_packet_atomic, begin_operation_atomic, persist_atomic, query_reads, lifted_reads.
  - eapply reads_only; [apply get_profile_spec|by intros ? ? [-> _]].
  - eapply reads_only; [apply resolve_spec|by intros ? ? [-> _]].
  - eapply reads_only; [apply by_fingerprint_spec|done].
  - unfold list_speed_sessions. case_match; [|apply query_reads].
    eapply reads_only; [by apply (atomic_err t _ (fun _ _ => False))|done].
Qed.
End Spec.
Arguments Request V : clear implicits.
