(* ===== verification/StorageProps.v ===== *)
(** * Properties of the storage

    The invariants of the tables, kept by every request with whatever faults; histories
    of attempts; retries of session requests; and the rules of node trust. *)

From stdpp Require Import base list strings gmap sorting.
From Stdlib Require Import ZArith Lia.
From S2P Require Import Prelude ErrorModel Text UdpProtocol Database Storage StorageSpec.
Open Scope Z_scope.

Section Consistency.
Context {V : Type} `{Json V} `{Trust} `{SqliteMessages}.
Implicit Types (t : Tables) (r : Request V).

(** ** Invariants of the tables. *)

(** The revisions of a profile are exactly 1 up to the active one, and each checksum is
    that of its configuration. *)
Record profiles_ok t : Prop := {
  active_positive id p : network_profile t !! id = Some p -> 1 <= active_revision p <= i64_max;
  revisions_exact id n : is_Some (network_profile_revision t !! (id, n)) <->
    exists p, network_profile t !! id = Some p /\ 1 <= n <= active_revision p;
  checksums_match k x : network_profile_revision t !! k = Some x ->
    revision_checksum x = hex_digest (as_bytes (revision_configuration x));
}.

(** The connection of a node is complete, and its certificate has the fingerprint. *)
Definition trust_row_ok (x : TrustRow) : Prop :=
  trust_status x ∈ ["trusted"; "revoked"]%string /\
  exists c s a f, certificate_der x = Some c /\ server_name x = Some s /\ control_address x = Some a /\
    parse_socket_address a = true /\ public_key_fingerprint c = Ok f /\
    eq_ignore_ascii_case f (as_bytes (fingerprint x)) = true.
Definition trust_ok t : Prop := forall id x, node_trust t !! id = Some x -> is_Some (node t !! id) /\ trust_row_ok x.

(** A session has an end and a result exactly in a terminal state. *)
Definition live_states : list string := ["preparing"; "running"]%string.
Definition terminal_states : list string := ["completed"; "failed"; "canceled"]%string.
Definition speed_row_ok (x : SpeedRow) : Prop :=
  is_Some (remote_node x) /\
  ((speed_result_state x ∈ live_states /\ speed_completed_at x = None /\ speed_result x = None) \/
   (speed_result_state x ∈ terminal_states /\ is_Some (speed_completed_at x) /\ is_Some (speed_result x))).
Definition packet_row_ok (x : PacketRow) : Prop :=
  (packet_result_state x = "running"%string /\ packet_completed_at x = None) \/
  (packet_result_state x ∈ terminal_states /\ is_Some (packet_completed_at x) /\ is_Some (final_drop_counters x)).

(** A hardware profile is a platform; the checksum of a benchmark covers its artifact, and
    the certified benchmarks are exactly those with a certification. *)
Record benchmarks_ok t : Prop := {
  one_platform i j h h' : hardware_profile t !! i = Some h -> hardware_profile t !! j = Some h' ->
    profile_hash h = profile_hash h' -> i = j;
  artifact_covered id b : benchmark_result t !! id = Some b -> exists h,
    hardware_profile t !! benchmark_hardware b = Some h /\
    benchmark_checksum b = artifact_checksum id (software_build b) (profile_hash h) (benchmark_configuration b)
                             (benchmark_result_json b);
  certified_exactly id b : benchmark_result t !! id = Some b -> certification_state b = "100g_certified"%string ->
    exists k c, hardware_certification t !! k = Some c /\ certified_benchmark c = id;
  certification_backed k c : hardware_certification t !! k = Some c -> exists b,
    benchmark_result t !! certified_benchmark c = Some b /\ certification_state b = "100g_certified"%string /\
    certified_hardware c = benchmark_hardware b /\ software_profile c = software_build b;
}.

Record consistent t : Prop := {
  consistent_profiles : profiles_ok t;
  consistent_trust : trust_ok t;
  consistent_speed : map_Forall (fun _ => speed_row_ok) (speed_session t);
  consistent_packets : map_Forall (fun _ => packet_row_ok) (packet_session t);
  consistent_benchmarks : benchmarks_ok t;
}.

Lemma consistent_empty cs as_ vs : consistent (set_schema cs as_ vs no_tables).
Proof.
  split; [split|..|split]; simpl; try done. intros id n. rewrite lookup_empty. split; [by intros [? ?]|].
  intros (p&Hp&_). by rewrite lookup_empty in Hp.
Qed.

(** Each step keeps them. *)

Lemma created_ok t id name json now : profiles_ok t ->
  network_profile t !! id = None ->
  profiles_ok (set_profiles (<[id := profile_row name 1 now now]> (network_profile t))
                 (<[(id, 1) := revision_row json now]> (network_profile_revision t)) t).
Proof.
  intros [Ha Hr Hc] Hn. split; simpl.
  - intros i p [[<- <-]|[_ Hp]]%lookup_insert_Some; [simpl; unfold i64_max; vm_compute; split; discriminate|eauto].
  - intros i n. destruct (decide (i = id)) as [->|Hi].
    + rewrite lookup_insert_eq. destruct (decide (n = 1)) as [->|Hn1].
      * rewrite lookup_insert_eq. split; [|done]. intros _. eexists. split; [done|]. simpl. lia.
      * rewrite lookup_insert_ne by congruence. rewrite Hr, Hn. split; [by intros (?&?&?)|].
        intros (p&[= <-]&?). simpl in *. lia.
    + rewrite !lookup_insert_ne by congruence. apply Hr.
  - intros k x [[_ <-]|[_ Hk]]%lookup_insert_Some; [done|eauto].
Qed.

Lemma updated_ok t id p name json now : profiles_ok t ->
  network_profile t !! id = Some p -> active_revision p < i64_max ->
  profiles_ok (set_profiles (<[id := profile_row name (active_revision p + 1) (profile_created_at p) now]> (network_profile t))
                 (<[(id, active_revision p + 1) := revision_row json now]> (network_profile_revision t)) t).
Proof.
  intros [Ha Hr Hc] Hp Hlt. pose proof (Ha _ _ Hp). split; simpl.
  - intros i q [[<- <-]|[_ Hq]]%lookup_insert_Some; [simpl; lia|eauto].
  - intros i n. destruct (decide (i = id)) as [->|Hi].
    + rewrite lookup_insert_eq. destruct (decide (n = active_revision p + 1)) as [->|Hn1].
      * rewrite lookup_insert_eq. split; [|done]. intros _. eexists. split; [done|]. simpl. lia.
      * rewrite lookup_insert_ne by congruence. rewrite Hr, Hp. split.
        { intros (?&[= <-]&?). eexists. split; [done|]. simpl. lia. }
        intros (q&[= <-]&?). exists p. simpl in *. split; [done|]. lia.
    + rewrite !lookup_insert_ne by congruence. apply Hr.
  - intros k x [[_ <-]|[_ Hk]]%lookup_insert_Some; [done|eauto].
Qed.

Lemma deleted_ok t id : profiles_ok t ->
  profiles_ok (set_profiles (delete id (network_profile t))
                 (filter (fun x : (string * Z) * RevisionRow => x.1.1 <> id) (network_profile_revision t)) t).
Proof.
  intros [Ha Hr Hc]. split; simpl.
  - intros i p [_ Hp]%lookup_delete_Some. eauto.
  - intros i n. destruct (decide (i = id)) as [->|Hi].
    + rewrite lookup_delete_eq. split; [|by intros (?&?&_)]. intros [x Hx].
      by apply map_lookup_filter_Some in Hx as [_ Hx].
    + rewrite lookup_delete_ne by done. rewrite <- Hr. split; intros [x Hx].
      * apply map_lookup_filter_Some in Hx as [Hx _]. eauto.
      * exists x. by apply map_lookup_filter_Some.
  - intros k x [Hx _]%map_lookup_filter_Some. eauto.
Qed.

Lemma validated_row x now : validate_trusted_connection x = Ok tt -> trust_row_ok (trust_row now x).
Proof.
  unfold validate_trusted_connection. intros Hv. repeat (case_match; [done|]).
  destruct (public_key_fingerprint (connection_certificate x)) as [f|e|] eqn:Hf; try done. cbn [obind] in Hv.
  destruct (negb (eq_ignore_ascii_case f _)) eqn:He; [done|]. split; [by left|]. simpl.
  do 4 eexists. do 3 (split; [done|]).
  repeat match goal with Hn : negb _ = false |- _ => apply negb_false_iff in Hn end. done.
Qed.

Lemma trusted_ok t x now now' : trust_ok t -> validate_trusted_connection x = Ok tt ->
  trust_ok (set_nodes (node (upsert_node now x t)) (<[connection_node_id x := trust_row now' x]> (node_trust t)) t).
Proof.
  intros Ht Hv id y. simpl. intros [[<- <-]|[Hi Hy]]%lookup_insert_Some.
  - rewrite lookup_insert_eq. split; [done|]. by apply validated_row.
  - rewrite lookup_insert_ne by done. by apply Ht.
Qed.

Lemma revoked_ok t id x now : trust_ok t -> node_trust t !! id = Some x ->
  trust_ok (set_nodes (node t) (<[id := set_revoked now x]> (node_trust t)) t).
Proof.
  intros Ht Hx i y. simpl. intros [[<- <-]|[_ Hy]]%lookup_insert_Some; [|by apply Ht].
  destruct (Ht _ _ Hx) as [Hn [_ Hrow]]. split; [done|]. split; [|done]. simpl. set_solver.
Qed.

Lemma finished_row_ok r id now s result from x : terminates r id now s result from -> speed_row_ok x ->
  speed_row_ok (set_terminal now s result x).
Proof.
  intros Hf [Hr _]. split; [done|]. right. split; [|done]. simpl. unfold terminal_states.
  destruct Hf; set_solver.
Qed.

Lemma with_hardware_lookup (r : BenchmarkPersistenceRequest V) json hs k h :
  with_hardware r json hs !! k = Some h -> hs !! k = Some h \/
  hs !! hardware_profile_id r = None /\ k = hardware_profile_id r /\ profile_hash h = hardware_profile_hash r.
Proof.
  unfold with_hardware. destruct (hs !! hardware_profile_id r) eqn:Hh; [auto|].
  intros [[<- <-]|[_ Hk]]%lookup_insert_Some; auto.
Qed.
Lemma with_hardware_kept (r : BenchmarkPersistenceRequest V) json hs k h :
  hs !! k = Some h -> with_hardware r json hs !! k = Some h.
Proof.
  unfold with_hardware. destruct (hs !! hardware_profile_id r) eqn:Hh; [done|]. intros Hk.
  rewrite lookup_insert_ne; [done|]. intros <-. congruence.
Qed.

Lemma certified_state s : certification_as_str s = "100g_certified"%string <-> is_certified s = true.
Proof. by destruct s. Qed.

Lemma persisted_ok t (r : BenchmarkPersistenceRequest V) t' :
  effect t (PersistBenchmark r) t' -> benchmarks_ok t -> benchmarks_ok t'.
Proof.
  inversion 1 as [| | | | | | | r0 id x now s result from Hx Hf | | | |r0 json configuration result h hs Hj1 Hj2 Hj3 Hh Hhash Hunique Hfresh Hsum Hid];
    [by inversion Hf|]. subst r0. intros [Ho Ha Hc Hb].
  assert (forall k c, (match certification_id r with
     | Some id => if is_certified (request_certification r)
                  then <[id := certification_row r]> (hardware_certification t) else hardware_certification t
     | None => hardware_certification t end) !! k = Some c ->
     hardware_certification t !! k = Some c \/
     is_certified (request_certification r) = true /\ c = certification_row r) as Hcert.
  { intros k c. destruct (certification_id r); [|auto]. destruct (is_certified _); [|auto].
    intros [[_ <-]|[_ ?]]%lookup_insert_Some; auto. }
  split; simpl.
  - intros i j h1 h2 Hi%with_hardware_lookup Hj%with_hardware_lookup Heq.
    destruct Hi as [Hi|(Hn&->&Hi)], Hj as [Hj|(Hn'&->&Hj)]; [by eapply Ho| | |done].
    + exfalso. apply (Hunique Hn' _ _ Hi). congruence.
    + exfalso. apply (Hunique Hn _ _ Hj). congruence.
  - intros id b [[<- <-]|[_ Hb']]%lookup_insert_Some; simpl.
    + exists h. split; [done|]. by rewrite Hhash.
    + destruct (Ha _ _ Hb') as (h'&Hh'&Hsum'). exists h'. split; [by apply with_hardware_kept|done].
  - intros id b [[<- <-]|[_ Hb']]%lookup_insert_Some; simpl.
    + intros Hs%certified_state. rewrite Hs in *. destruct (certification_id r) as [k|]; [|done].
      exists k, (certification_row r). by rewrite lookup_insert_eq.
    + intros Hs. destruct (Hc _ _ Hb' Hs) as (k&c&Hk&<-). exists k, c. split; [|done].
      destruct (certification_id r) as [k'|]; [|done]. destruct (is_certified _); [|done].
      rewrite lookup_insert_ne; [done|]. intros ->. rewrite Hid in Hk by done. done.
  - intros k c Hk. apply Hcert in Hk as [Hk|[Hs ->]]; simpl.
    + destruct (Hb _ _ Hk) as (b&Hb'&?). exists b. split; [|done]. rewrite lookup_insert_ne; [done|]. congruence.
    + rewrite lookup_insert_eq. eexists. split; [done|]. simpl. split; [by apply certified_state|done].
Qed.

Lemma effect_consistent t r t' : effect t r t' -> consistent t -> consistent t'.
Proof.
  intros He Hc. pose proof Hc as [Hp Ht Hs Hk Hb]. pose proof (persisted_ok t) as Hpersisted.
  destruct He; split; simpl; try done; try (by destruct Hp; split); try (by destruct Hb; split).
  - by apply created_ok.
  - by apply updated_ok.
  - by apply deleted_ok.
  - by apply trusted_ok.
  - by eapply revoked_ok.
  - apply map_Forall_insert_2; [|done]. split; [done|]. left. split; [by left|done].
  - apply map_Forall_insert_2; [|done]. destruct (Hs id x) as [Hr Hx]; [done|]. split; [done|].
    left. split; [by right; left|]. destruct Hx as [(_&?&?)|(Hx&_)]; [done|].
    match goal with He : speed_result_state x = _ |- _ => rewrite He in Hx end. unfold terminal_states in Hx. set_solver.
  - apply map_Forall_insert_2; [|done]. eapply finished_row_ok; [done|]. by apply (Hs id).
  - apply map_Forall_insert_2; [|done]. by left.
  - apply map_Forall_insert_2; [|done]. by right.
  - eapply (Hpersisted r); [|done]. by eapply benchmark_persisted.
Qed.

(** ** Histories.

    An attempt is a request with the moments of its calls of SQLite. The file is what is
    left of it: after the end of the process the next attempt opens it again. *)
Record attempt := { what : Request V; meets : list moment }.
Definition idle t : Connection := {| stored := t; working := None; moments := [] |}.
Definition serve t (a : attempt) : Tables * res unit :=
  let '(c, o) := perform (what a) {| stored := t; working := None; moments := meets a |} in (stored c, o).
Definition serve_all t (l : list attempt) : Tables := fold_left (fun t a => (serve t a).1) l t.

Lemma serve_ends t a :
  (exists o, (forall u, o <> Ok u) /\ serve t a = (t, o)) \/
  exists t' o, serve t a = (t', o) /\ (o = Ok tt \/ o = Panic) /\ step_or_same t (what a) t'.
Proof.
  unfold serve. destruct (perform_atomic t (what a) {| stored := t; working := None; moments := meets a |} eq_refl eq_refl)
    as [_ He]. destruct (perform _ _) as [c o]. simpl in *. destruct He as [[Ho <-]|([]&Hs&Ho)]; [left|right]; eauto 10.
Qed.

Lemma serve_step t a : step_or_same t (what a) (serve t a).1.
Proof. destruct (serve_ends t a) as [(o&_&->)|(t'&o&->&_&Hs)]; [by left|done]. Qed.

(** C7: Every request is atomic: whichever call of SQLite fails, and wherever the process
    ends, the file is as it was or has the whole effect that the specification gives
    that request; it is as it was after every error. *)
Theorem storage_refines t a :
  step_or_same t (what a) (serve t a).1 /\ forall e, (serve t a).2 = Err e -> (serve t a).1 = t.
Proof.
  split; [apply serve_step|]. intros e He.
  destruct (serve_ends t a) as [(o&_&Hs)|(t'&o&Hs&Ho&_)]; rewrite Hs in *; [done|]. simpl in He. naive_solver.
Qed.

(** C8: The invariants of the database hold after any history of requests, with whatever
    faults and restarts: complete and checked revisions, complete connections of nodes,
    sessions that have a result exactly when they are over, one hardware profile for a
    platform, benchmarks whose checksum covers their artifact, and certifications
    exactly for the certified benchmarks. *)
Theorem storage_consistent t l (Hc : consistent t) : consistent (serve_all t l).
Proof.
  revert t Hc. induction l as [|a l IH]; intros t Hc; [done|]. apply IH.
  destruct (serve_step t a) as [->|He]; [done|]. by eapply effect_consistent.
Qed.

(** ** Calls without faults. *)

Definition busy t t' : Connection := {| stored := t; working := Some t'; moments := [] |}.

Lemma query_idle {A} t (f : Tables -> string + A) :
  query f (idle t) = (idle t, match f t with inl x => Err (database_error x) | inr a => Ok a end).
Proof. unfold query, call, idle. cbn. by destruct (f t). Qed.
Lemma query_busy {A} t t' (f : Tables -> string + A) :
  query f (busy t t') = (busy t t', match f t' with inl x => Err (database_error x) | inr a => Ok a end).
Proof. unfold query, call, busy. cbn. by destruct (f t'). Qed.
Lemma execute_idle {A} t (e : string -> NetToolError) (f : string -> Tables -> string + Tables * A) :
  execute_with e f (idle t) = match f ""%string t with inl x => (idle t, Err (e x)) | inr (t', a) => (idle t', Ok a) end.
Proof. unfold execute_with, call, idle. cbn. by destruct (f _ t) as [|[? ?]]. Qed.
Lemma execute_busy {A} t t' (e : string -> NetToolError) (f : string -> Tables -> string + Tables * A) :
  execute_with e f (busy t t') =
  match f ""%string t' with inl x => (busy t t', Err (e x)) | inr (t2, a) => (busy t t2, Ok a) end.
Proof. unfold execute_with, call, busy. cbn. by destruct (f _ t') as [|[? ?]]. Qed.
Lemma transaction_idle {A} t (body : op A) : transaction body (idle t) = scoped body (busy t t).
Proof. done. Qed.
Lemma commit_busy t t' : commit (busy t t') = (idle t', Ok tt).
Proof. done. Qed.

(** ** Retries. *)

Definition accepted t r : Prop := perform r (idle t) = (idle t, Ok tt).

Lemma calm_bind {S A B} (m : method S A) (k : A -> method S B) s s' a c :
  m s = (s', Ok a) -> k a s' = c -> m_bind m k s = c.
Proof. intros Hm <-. by apply m_bind_ok. Qed.

(** Checks that passed pass again. *)
Lemma bind_ret {S A B} (o : res A) (k : A -> method S B) s a c : o = Ok a -> k a s = c -> m_bind (m_ret o) k s = c.
Proof. by intros -> <-. Qed.
Ltac recheck := repeat (eapply bind_ret; [eassumption|]).

Lemma begin_speed_retry t (q : SpeedSessionPersistenceRequest V) : atomic t (begin_speed_session q) (fun t' _ => accepted t' (BeginSpeed q)).
Proof.
  unfold begin_speed_session. atomically.
  assert (forall x t', speed_session t' !! speed_session_id q = Some x ->
    speed_request_columns x = inr [remote_node_id q; request_protocol q; request_backend q; request_direction q;
                                   started_at q; b0] -> accepted t' (BeginSpeed q)) as Hacc.
  { intros x t' Hx Hcols. unfold accepted. simpl. unfold begin_speed_session. recheck.
    rewrite transaction_idle.
    unfold scoped. unfold m_bind at 1. rewrite query_busy, Hx, Hcols. by rewrite bool_decide_true. }
  destruct (speed_session t !! speed_session_id q) as [x|] eqn:Hx.
  - destruct (speed_request_columns x) eqn:Hcols; [done|]. simplify_eq. case_bool_decide; atomically. subst.
    apply finishing_commit_only. by apply (Hacc x).
  - simplify_eq. atomically. unfold insert_new in *. rewrite Hx in *. simplify_eq.
    apply finishing_commit_only. apply (Hacc (speed_row q b0)); [|done]. apply lookup_insert_eq.
Qed.

(** A read of the tables on its own, with its result. *)
Lemma query_result {A} t (f : Tables -> string + A) :
  atomic t (query f) (fun t' a => t' = t /\ f t = inr a).
Proof. by apply atomic_query. Qed.

Lemma update_speed_other id from f t x : speed_session t !! id = Some x -> speed_result_state x ∉ from ->
  update_speed id from f t = (t, 0).
Proof. unfold update_speed. intros -> Hs. by rewrite bool_decide_false. Qed.

Lemma mark_retry t id : atomic t (mark_speed_session_running id) (fun t' _ => accepted t' (MarkRunning id)).
Proof.
  unfold mark_speed_session_running. atomically.
  assert (forall t' x, speed_session t' !! id = Some x -> speed_result_state x = "running"%string ->
    accepted t' (MarkRunning id)) as Hacc.
  { intros t' x Hx Hs. unfold accepted. simpl. unfold mark_speed_session_running. recheck.
    eapply calm_bind; [unfold execute; rewrite execute_idle, (update_speed_other _ _ _ _ x); [done|done|rewrite Hs; by apply (bool_decide_unpack _)]|].
    eapply calm_bind; [unfold speed_state; rewrite query_idle, Hx; done|]. simpl. rewrite Hs. by rewrite bool_decide_true. }
  apply atomic_execute. intros now t' n [= Hu].
  apply update_speed_cases in Hu as [[-> ->]|(x&Hx&Hs&->&->)].
  - left. split; [done|]. eapply atomic_bind; [apply query_result|by intros ? ? [-> _]|]. intros s [_ [= <-]].
    apply atomic_ret. intros []. case_bool_decide as Hst; [|done]. intros _.
    destruct (speed_session t !! id) as [x|] eqn:Hx; [|done]. injection Hst as Hst. by apply (Hacc t x).
  - right. exists tt. split; [done|]. apply (Hacc _ (set_running x)); [|done]. apply lookup_insert_eq.
Qed.

(** A finished session, the same result again. *)
Lemma finish_again t id now s json from x : speed_session t !! id = Some x -> speed_result_state x ∉ from ->
  speed_result_state x = s -> speed_completed_at x = Some now -> speed_result x = Some json ->
  finish_speed id now s json from (idle t) = (idle t, Ok tt).
Proof.
  intros Hx Hn Hs Hc Hr. unfold finish_speed.
  eapply calm_bind; [unfold execute; rewrite execute_idle, (update_speed_other _ _ _ _ x); done|].
  eapply calm_bind; [unfold speed_terminal_matches; rewrite query_idle, Hx; done|]. simpl.
  by rewrite !bool_decide_true.
Qed.

Lemma finish_retry t r id now s json from : terminates r id now s json from ->
  atomic t (finish_speed id now s json from) (fun t' _ => finish_speed id now s json from (idle t') = (idle t', Ok tt)).
Proof.
  intros Hf. unfold finish_speed at 1. apply atomic_execute. intros time t' n [= Hu].
  assert (s ∉ from) as Hs by (destruct Hf; set_solver).
  apply update_speed_cases in Hu as [[-> ->]|(x&Hx&Hx'&->&->)].
  - left. split; [done|]. eapply atomic_bind; [apply query_result|by intros ? ? [-> _]|]. intros b [_ [= Hb]].
    destruct b; [|apply atomic_err]. apply atomic_ret. intros [] _.
    destruct (speed_session t !! id) as [x|] eqn:Hx; [|done]. rewrite !andb_true_iff, !bool_decide_eq_true in Hb.
    destruct Hb as [[Hst Hc] Hr]. apply (finish_again _ _ _ _ _ _ x); try done. by rewrite Hst.
  - right. exists tt. split; [done|].
    apply (finish_again _ _ _ _ _ _ (set_terminal now s json x)); try done. apply lookup_insert_eq.
Qed.

Lemma complete_retry t id now v : atomic t (complete_speed_session id now v) (fun t' _ => accepted t' (CompleteSpeed id now v)).
Proof.
  unfold complete_speed_session. atomically.
  eapply atomic_weaken; [apply (finish_retry t (CompleteSpeed id now v)); json; by apply by_completion|].
  intros t' [] Ht'. unfold accepted. simpl. unfold complete_speed_session. recheck. exact Ht'.
Qed.

Lemma terminate_retry t id now s v :
  atomic t (terminate_speed_session id now s v) (fun t' _ => accepted t' (TerminateSpeed id now s v)).
Proof.
  unfold terminate_speed_session. atomically.
  match goal with Hn : negb _ = false |- _ => pose proof Hn as Hs; apply negb_false_iff, bool_decide_eq_true in Hs end.
  eapply atomic_weaken; [apply (finish_retry t (TerminateSpeed id now s v)); json; by apply by_termination|].
  intros t' [] Ht'. unfold accepted. simpl. unfold terminate_speed_session. recheck.
  rewrite bool_decide_true by done. simpl. recheck. exact Ht'.
Qed.

Lemma begin_packet_retry t q : atomic t (begin_packet_session q) (fun t' _ => accepted t' (BeginPacket q)).
Proof.
  unfold begin_packet_session. atomically.
  assert (forall t' x, packet_session t' !! packet_session_id q = Some x ->
    packet_columns x = packet_columns (packet_row q) -> accepted t' (BeginPacket q)) as Hacc.
  { intros t' x Hx Hcols. unfold accepted. simpl. unfold begin_packet_session. recheck.
    eapply calm_bind; [rewrite query_idle, Hx; done|]. simpl. by rewrite bool_decide_true. }
  eapply atomic_bind; [apply query_result|by intros ? ? [-> _]|]. intros o [_ [= <-]].
  destruct (packet_session t !! packet_session_id q) as [x|] eqn:Hx; simpl.
  - apply atomic_ret. intros []. case_bool_decide; [|done]. intros _. by apply (Hacc t x).
  - apply atomic_execute_only. intros now t' []. unfold insert_new. rewrite Hx. intros [= <-].
    apply (Hacc _ (packet_row q)); [apply lookup_insert_eq|done].
Qed.

Lemma complete_packet_retry t id now s v c :
  atomic t (complete_packet_session id now s v c) (fun t' _ => accepted t' (CompletePacket id now s v c)).
Proof.
  unfold complete_packet_session. atomically.
  assert (forall t' x, packet_session t' !! id = Some x -> packet_terminal_matches now s b2 c x = true ->
    accepted t' (CompletePacket id now s v c)) as Hacc.
  { intros t' x Hx Hm. unfold accepted. simpl. unfold complete_packet_session. recheck.
    match goal with Hn : negb _ = false |- _ => rewrite Hn end. recheck.
    eapply calm_bind; [unfold execute; rewrite execute_idle, Hx;
      unfold packet_terminal_matches in Hm; rewrite !andb_true_iff, !bool_decide_eq_true in Hm;
      destruct Hm as [[[-> _] _] _]; done|]. simpl.
    eapply calm_bind; [rewrite query_idle, Hx; done|]. simpl. by rewrite Hm. }
  apply atomic_execute. intros time t' n Hu.
  destruct (packet_session t !! id) as [x|] eqn:Hx; [destruct (packet_completed_at x) eqn:Hc|]; injection Hu as <- <-.
  - left. split; [done|]. eapply atomic_bind; [apply query_result|by intros ? ? [-> _]|]. intros o [_ [= <-]].
    rewrite Hx. apply atomic_ret. intros []. destruct (packet_terminal_matches _ _ _ _ x) eqn:Hm; [|done]. intros _.
    by apply (Hacc t x).
  - right. exists tt. split; [done|]. apply (Hacc _ (set_packet_terminal now s b2 c x)); [apply lookup_insert_eq|].
    unfold packet_terminal_matches. simpl. by rewrite !bool_decide_true.
  - left. split; [done|]. eapply atomic_bind; [apply query_result|by intros ? ? [-> _]|]. intros o [_ [= <-]].
    rewrite Hx. apply atomic_err.
Qed.

Definition session_request r : bool :=
  match r with
  | BeginSpeed _ | MarkRunning _ | CompleteSpeed _ _ _ | TerminateSpeed _ _ _ _ | BeginPacket _ | CompletePacket _ _ _ _ _ => true
  | _ => false
  end.

(** The requests of a speed or packet session can be repeated: after an attempt that
    was answered, or that took effect before the process ended, the same request without
    faults is accepted and changes nothing. *)
Theorem session_retry t a t' o (Hr : session_request (what a) = true) (Ha : serve t a = (t', o))
    (Heffect : o = Ok tt \/ t' <> t) :
  serve t' {| what := what a; meets := [] |} = (t', Ok tt).
Proof.
  assert (atomic t (perform (what a)) (fun t' _ => accepted t' (what a))) as Hacc.
  { destruct (what a); try done; eauto using begin_speed_retry, mark_retry, complete_retry, terminate_retry,
      begin_packet_retry, complete_packet_retry. }
  specialize (Hacc {| stored := t; working := None; moments := meets a |} eq_refl eq_refl) as [_ He].
  unfold serve in Ha. destruct (perform _ _) as [c o']. injection Ha as <- <-. simpl in He.
  destruct He as [[Hn Ht]|(u&Hacc&_)].
  - destruct Heffect as [->|?]; [by destruct (Hn tt)|done].
  - unfold serve, accepted, idle in *. simpl. by rewrite Hacc.
Qed.

(** ** Speed sessions and trust over a history. *)

(** What a session is never changes, and its state only advances. *)
Definition rank (s : string) : Z :=
  if bool_decide (s = "preparing"%string) then 0 else if bool_decide (s = "running"%string) then 1 else 2.
Definition advances (x x' : SpeedRow) : Prop :=
  speed_request_columns x = speed_request_columns x' /\
  rank (speed_result_state x) <= rank (speed_result_state x') /\
  (speed_result_state x ∈ terminal_states -> x' = x).

Lemma speed_advances_refl x : advances x x.
Proof. by split_and!. Qed.

Lemma speed_advances_trans x y z : advances x y -> advances y z -> advances x z.
Proof.
  intros (Hc&Hr&Ht) (Hc'&Hr'&Ht'). split_and!; [congruence|lia|]. intros Hx. rewrite (Ht Hx) in *. auto.
Qed.

Lemma terminates_spec r id now s result from : terminates r id now s result from ->
  2 <= rank s /\ forall x, x ∈ from -> x ∉ terminal_states.
Proof.
  unfold terminal_states. intros [|id' now' s' v json Hs]; (split; [|set_solver]); [by vm_compute|].
  unfold rank. rewrite !bool_decide_false; [done|set_solver..].
Qed.

Lemma effect_advances t r t' id x : effect t r t' -> speed_session t !! id = Some x ->
  exists x', speed_session t' !! id = Some x' /\ advances x x'.
Proof.
  intros He Hx. destruct He; simpl; eauto using speed_advances_refl.
  - destruct (decide (id = speed_session_id r)) as [->|Hi]; [congruence|].
    rewrite lookup_insert_ne by done. eauto using speed_advances_refl.
  - destruct (decide (id = id0)) as [->|Hi]; [|rewrite lookup_insert_ne by done; eauto using speed_advances_refl].
    rewrite lookup_insert_eq. eexists. split; [done|]. simplify_eq. split_and!; [done| |].
    + match goal with Hs : speed_result_state _ = _ |- _ => by rewrite Hs end.
    + match goal with Hs : speed_result_state _ = _ |- _ => rewrite Hs end. unfold terminal_states. set_solver.
  - destruct (decide (id = id0)) as [->|Hi]; [|rewrite lookup_insert_ne by done; eauto using speed_advances_refl].
    rewrite lookup_insert_eq. eexists. split; [done|]. simplify_eq. split_and!; [done| |].
    + apply (Z.le_trans _ 2); [unfold rank; repeat case_bool_decide; lia|].
      by eapply terminates_spec.
    + intros Hin. exfalso. eapply terminates_spec; done.
Qed.

(** A speed session never goes back: over any history with whatever faults it stays in
    the tables with the request that began it, its state only advances from preparing to
    running to a terminal one, and a terminal session with its result is final. *)
Theorem speed_history t l id x (Hx : speed_session t !! id = Some x) :
  exists x', speed_session (serve_all t l) !! id = Some x' /\ advances x x'.
Proof.
  revert t x Hx. induction l as [|a l IH]; intros t x Hx; [exists x; by split; [|apply speed_advances_refl]|]. simpl.
  assert (exists y, speed_session (serve t a).1 !! id = Some y /\ advances x y) as (y&Hy&Hxy).
  { destruct (serve_step t a) as [->|He]; [eauto using speed_advances_refl|by eapply effect_advances]. }
  destruct (IH _ _ Hy) as (z&Hz&Hyz). exists z. split; [done|by eapply speed_advances_trans].
Qed.

(** C9: The trusted identity of a node only changes with the user: a row that is new after
    an attempt comes from a revocation, which keeps the identity, or from a trust request
    for that node that was confirmed out of band, whose certificate has the recorded
    fingerprint, and which is confirmed again if the fingerprint is another one. *)
Theorem trust_confirmed t a id x'
    (Hnew : node_trust (serve t a).1 !! id = Some x') (Hold : node_trust t !! id <> Some x') :
  (exists y x now, what a = RevokeNode y /\ node_trust t !! id = Some x /\ x' = set_revoked now x) \/
  exists y now, what a = TrustNode y /\ connection_node_id y = id /\ x' = trust_row now y /\
    out_of_band_fingerprint_confirmed y = true /\ trust_row_ok x' /\
    forall x, node_trust t !! id = Some x ->
      eq_ignore_ascii_case (as_bytes (fingerprint x)) (as_bytes (fingerprint x')) = true \/
      identity_change_confirmed y = true.
Proof.
  destruct (serve_step t a) as [Hs|He]; [by rewrite Hs in Hnew|]. destruct a as [r ms]. simpl in *.
  destruct He; simpl in *; try done.
  - right. apply lookup_insert_Some in Hnew as [[<- <-]|[_ ?]]; [|done]. exists x, now'.
    do 3 (split; [done|]). split; [|split; [by apply validated_row|]].
    + match goal with Hv : validate_trusted_connection x = _ |- _ => unfold validate_trusted_connection in Hv end.
      by destruct (out_of_band_fingerprint_confirmed x).
    + intros y Hy. rewrite Hy in *. simpl in *.
      match goal with Hi : _ && negb _ = false |- _ => apply andb_false_iff in Hi as [Hi|Hi]; apply negb_false_iff in Hi end;
        auto.
  - left. apply lookup_insert_Some in Hnew as [[<- <-]|[_ ?]]; [|done]. eauto 10.
Qed.

(** ** Profiles are read back. *)

(** The profile [s] is saved over the tables [t], with the configuration [json]. *)
Definition saved t t' (s : ProfileSummary) (name json : string) : Prop := exists p row,
  summary_name s = name /\
  network_profile t' = <[profile_id s := p]> (network_profile t) /\
  profile_summary (profile_id s, p) = s /\
  network_profile_revision t' !! (profile_id s, active_revision p) = Some row /\
  revision_configuration row = json /\ revision_checksum row = hex_digest (as_bytes json).

Ltac same_json v json := match goal with Hb : json_to_string v = inr ?b |- _ =>
  tryif constr_eq b json then fail else assert (b = json) as -> by congruence end.

Lemma create_saved t id name v now json : json_to_string v = inr json ->
  atomic t (create_profile id name v now) (fun t' s => saved t t' s name json).
Proof.
  intros Hj. unfold create_profile. atomically. json.
  same_json v json.
  unfold insert_new in *. destruct (network_profile t !! id) eqn:Hp; [done|]. simplify_eq.
  unfold insert_revision, insert_new, references in *. simpl in *. rewrite lookup_insert_eq in *.
  destruct (network_profile_revision t !! (id, 1)) eqn:Hr; [done|]. simplify_eq.
  eapply finishing_commit; [done|]. eexists _, _. do 3 (split; [done|]). simpl.
  split; [apply lookup_insert_eq|done].
Qed.

Lemma update_saved t x name v now json : json_to_string v = inr json ->
  atomic t (update_profile x name v now) (fun t' s => saved t t' s name json).
Proof.
  intros Hj. unfold update_profile. atomically.
  eapply atomic_bind; [apply existing_profile_spec|by intros t' d [-> _]|]. intros d [_ (p&Hp&Ha&Hx)]. atomically. json.
  same_json v json.
  rewrite Hp in *. simplify_eq.
  unfold insert_revision, insert_new, references in *. simpl in *. rewrite lookup_insert_eq in *.
  destruct (network_profile_revision t !! _) eqn:Hr; [done|]. simplify_eq.
  eapply finishing_commit; [done|]. eexists _, _. do 3 (split; [done|]). simpl.
  split; [apply lookup_insert_eq|done].
Qed.

(** A single profile with this ID or name is the only match. *)
Lemma only_match t m id p x : network_profile t = <[id := p]> m ->
  (forall k q, m !! k = Some q -> k <> id -> profile_name q <> id) ->
  profile_match t id (id, p) = Some x -> omap (profile_match t id) (btree_iter (network_profile t)) = [x].
Proof.
  intros Ht Hn Hx. apply Permutation_singleton_r. unfold btree_iter. rewrite merge_sort_Permutation, Ht, <- insert_delete_eq.
  rewrite map_to_list_insert by apply lookup_delete_eq. simpl. rewrite Hx.
  change (x :: omap (profile_match t id) (map_to_list (delete id m)) ≡ₚ [x]).
  assert (omap (profile_match t id) (map_to_list (delete id m)) = []) as ->; [|done].
  destruct (omap _ _) as [|y l] eqn:Hl; [done|]. exfalso.
  assert (y ∈ omap (profile_match t id) (map_to_list (delete id m))) as Hy by (rewrite Hl; by left).
  apply list_elem_of_omap in Hy as ([k q]&Hq%elem_of_map_to_list&Hm).
  apply lookup_delete_Some in Hq as [Hk Hq]. destruct y as [[s json] c].
  apply profile_match_spec in Hm as (_&[Hi|Hi]&_); [by apply Hk|by apply (Hn _ _ Hq)].
Qed.

Lemma get_saved t t' s name json w : saved t t' s name json -> trimmed_empty (profile_id s) = false ->
  (forall k q, network_profile t !! k = Some q -> k <> profile_id s -> profile_name q <> profile_id s) ->
  json_from_str json = inr w ->
  get_profile (profile_id s) (idle t') = (idle t', Ok (Some {| summary := s; configuration := w |})).
Proof.
  intros (p&row&_&Hp&Hs&Hrow&Hj&Hc) He Hn Hw. unfold get_profile. rewrite He.
  eapply calm_bind; [rewrite query_idle|].
  - erewrite only_match; [done|exact Hp|exact Hn|]. unfold profile_match. simpl.
    rewrite bool_decide_true by done. simpl. rewrite Hrow, Hs, Hc, Hj. done.
  - simpl. rewrite bool_decide_true by done. simpl. by rewrite Hw.
Qed.

(** A profile that was created or updated is read back by its ID with the name, the
    revision and the configuration that were saved, unless another profile has that ID
    as its name. *)
Theorem profile_read_back (m : op ProfileSummary) id name v now c c' s json w
    (Hm : m = create_profile id name v now \/ m = update_profile id name v now)
    (Hc : working c = None) (Hrun : m c = (c', Ok s))
    (Hjson : json_to_string v = inr json) (Hparse : json_from_str json = inr w)
    (Hid : trimmed_empty (profile_id s) = false)
    (Hname : forall k q, network_profile (stored c) !! k = Some q -> k <> profile_id s -> profile_name q <> profile_id s) :
  summary_name s = name /\
  get_profile (profile_id s) (idle (stored c')) =
    (idle (stored c'), Ok (Some {| summary := s; configuration := w |})).
Proof.
  assert (atomic (stored c) m (fun t' s => saved (stored c) t' s name json)) as Hs.
  { destruct Hm as [->| ->]; [by apply create_saved|by apply update_saved]. }
  specialize (Hs c Hc eq_refl) as [_ [[Hn _]|(s'&Hs&Ho)]]; rewrite Hrun in *; simpl in *; [by destruct (Hn s)|].
  assert (s' = s) as -> by (destruct Ho; congruence). split; [|by eapply get_saved].
  by destruct Hs as (?&?&?&_).
Qed.
End Consistency.
