(* ===== verification/StorageSample.v ===== *)
(** * A database at work

    The libraries of [Storage] with a concrete text format, digest and certificates, a
    history of requests with faults, and the theorems of [StorageProps] on it. *)

From stdpp Require Import base list strings gmap.
From Stdlib Require Import ZArith Lia.
From S2P Require Import Prelude ErrorModel Text UdpProtocol Database Migration Storage StorageSpec StorageProps.
Open Scope Z_scope.

(** JSON is its text; a digest is a counter of 32 bytes; a certificate is its key. *)
#[export] Instance text_json : Json string := {|
  is_object v := String.prefix "{" v;
  json_to_string v := inr v;
  json_from_str s := inr s;
|}.
#[export] Instance plain_trust : Trust := {|
  sha256 bs := to_be_bytes 32 (fold_left (fun a b => (a * 31 + b) mod 2 ^ 256) bs 7);
  parse_certificate c := inr ([], c);
  parse_socket_address _ := true;
|}.
#[export] Instance messages : SqliteMessages := {|
  unique_failed c := "UNIQUE constraint failed: " +:+ c;
  foreign_key_failed := "FOREIGN KEY constraint failed";
  no_rows := "Query returned no rows";
  null_value c := "Invalid column type Null: " +:+ c;
  already_exists n := n +:+ " already exists";
|}.

Local Open Scope string_scope.
Definition fresh : Tables := set_schema INITIAL_TABLES [] [1; 2; 3] no_tables.
Definition calmly (r : Request string) : attempt := {| what := r; meets := [] |}.
Definition session_id : string := "0123456789abcdef0123456789abcdef".
Definition remote : string := "00000000000000000000000000000001".
Definition request : SpeedSessionPersistenceRequest string := {|
  speed_session_id := session_id; remote_node_id := remote; request_protocol := "udp"; request_backend := "socket";
  request_direction := "download"; started_at := "2025-01-01T00:00:00Z"; speed_request_configuration := "{}";
|}.
Definition key : bytes := [1; 2; 3].
Definition key_fingerprint (key : bytes) : string := of_bytes (join [58] (map upper_hex (sha256 key))).
Definition peer (key : bytes) (changed : bool) : TrustedNodeConnection := {|
  connection_node_id := remote; connection_name := "lab"; connection_address := "192.0.2.1:7443";
  connection_server_name := "lab.local"; connection_certificate := key; connection_fingerprint := key_fingerprint key;
  out_of_band_fingerprint_confirmed := true; identity_change_confirmed := changed;
|}.
Definition platform : string := hex (sha256 [9]).
Definition benchmark : BenchmarkPersistenceRequest string := {|
  hardware_profile_id := "hw"; benchmark_result_id := "run"; certification_id := Some "cert"; request_build := "1.0";
  request_configuration := "{}"; environment := "{}"; hardware_profile_hash := platform; request_result := "{}";
  request_certification := Certified100G; request_checksum := artifact_checksum "run" "1.0" platform "{}" "{}";
  request_created_at := "now";
|}.

(** The third and the fifth attempt die before and after their effect. *)
Definition dies (n : nat) (last : Fate) : list moment := (replicate n calm ++ [{| fate := last; time := "" |}])%list.
Definition story : list attempt := [
  calmly (CreateProfile "office" "Office" "{1}" "t0");
  calmly (UpdateProfile "Office" "Office LAN" "{2}" "t1");
  {| what := BeginSpeed request; meets := dies 2 Dies |};
  calmly (BeginSpeed request);
  {| what := MarkRunning session_id; meets := dies 0 DiesAfter |};
  calmly (CompleteSpeed session_id "t2" "{3}");
  calmly (TrustNode (peer key false));
  calmly (TrustNode (peer [4] false));
  {| what := PersistBenchmark benchmark; meets := dies 5 (Fails "disk I/O error") |};
  calmly (PersistBenchmark benchmark)].

Definition answers (t : Tables) (l : list attempt) : list (res unit) :=
  (fold_left (fun '(t, os) a => let '(t, o) := serve t a in (t, (os ++ [o])%list)) l (t, [])).2.

Example story_answers : answers fresh story =
  [Ok tt; Ok tt; Panic; Ok tt; Panic; Ok tt; Ok tt;
   err NodeTlsFailed "Node identity changed; explicit re-pair confirmation is required";
   Err (database_error "disk I/O error"); Ok tt].
Proof. by vm_compute. Qed.

Lemma fresh_consistent : consistent fresh.
Proof. apply consistent_empty. Qed.

Lemma storage_consistent_witness : consistent (serve_all fresh story).
Proof. apply (storage_consistent fresh story). apply fresh_consistent. Defined.

Lemma storage_refines_witness :
  (serve fresh {| what := BeginSpeed request; meets := dies 2 (Fails "full") |}).1 = fresh.
Proof.
  apply (storage_refines fresh {| what := BeginSpeed request; meets := dies 2 (Fails "full") |}) with
    (e := database_error "full"). by vm_compute.
Defined.

(** The database after the first attempts of the story. *)
Definition begun : Tables := serve_all fresh (take 4 story).
Definition row : SpeedRow := speed_row request "{}".

Lemma speed_history_witness : exists x, speed_session (serve_all begun (drop 4 story)) !! session_id = Some x /\ advances row x.
Proof. apply speed_history. by vm_compute. Defined.

Lemma session_retry_witness :
  let r := MarkRunning session_id in
  let t := (serve begun {| what := r; meets := dies 0 DiesAfter |}).1 in
  serve t (calmly r) = (t, Ok tt).
Proof.
  apply (session_retry begun {| what := MarkRunning session_id; meets := dies 0 DiesAfter |} _ Panic).
  - reflexivity.
  - by vm_compute.
  - right. intros Ht. apply (f_equal (fun t => speed_result_state <$> speed_session t !! session_id)) in Ht.
    vm_compute in Ht. discriminate.
Defined.

(** A change of the key that was confirmed again. *)
Definition paired : Tables := serve_all fresh (take 7 story).
Definition repaired : TrustRow := trust_row "" (peer [4] true).

Lemma trust_confirmed_witness : trust_row_ok repaired.
Proof.
  destruct (trust_confirmed paired (calmly (TrustNode (peer [4] true))) remote repaired) as [(y&x&now&Hy&_)|(y&now&_&_&_&_&H&_)].
  - by vm_compute.
  - intros H. apply (f_equal (fun x => fingerprint <$> x)) in H. vm_compute in H. discriminate.
  - discriminate.
  - exact H.
Defined.

Lemma profile_read_back_witness :
  (get_profile (V := string) "office" (idle (serve fresh (calmly (CreateProfile "office" "Office" "{1}" "t0"))).1)).2 =
  Ok (Some {| summary := {| profile_id := "office"; summary_name := "Office"; summary_revision := 1 |};
              configuration := "{1}" |}).
Proof.
  pose proof (profile_read_back (create_profile "office" "Office" "{1}" "t0") "office" "Office" "{1}" "t0" (idle fresh)
    (idle (serve fresh (calmly (CreateProfile "office" "Office" "{1}" "t0"))).1)
    {| profile_id := "office"; summary_name := "Office"; summary_revision := 1 |} "{1}" "{1}") as Hr.
  destruct Hr as [_ Hr].
  - by left.
  - reflexivity.
  - by vm_compute.
  - reflexivity.
  - reflexivity.
  - by vm_compute.
  - intros k q Hk. change (network_profile (stored (idle fresh))) with (∅ : gmap string ProfileRow) in Hk.
    by rewrite lookup_empty in Hk.
  - simpl stored in Hr. simpl profile_id in Hr. rewrite Hr. reflexivity.
Defined.

(** A profile whose name is the ID of another one locks it: it is ambiguous under both,
    and can be neither read, changed nor deleted by its ID. *)
Example locked_profile :
  let t := serve_all fresh [calmly (CreateProfile "a" "First" "{}" "t"); calmly (CreateProfile "b" "a" "{}" "t")] in
  map (fun r => (serve t (calmly r)).2) [GetProfile "a"; UpdateProfile "a" "First" "{}" "t"; DeleteProfile "a"] =
  replicate 3 (err InvalidArgument "profile name is ambiguous").
Proof. by vm_compute. Qed.

(** ** Migrations at work. *)

(** A database of version 2 with a finished capture. *)
Definition capture_row : PacketRow := {|
  packet_interface := "eth0"; packet_backend := "pcap"; capture_mode := "full"; analysis_mode := "all";
  packet_started_at := "t0"; packet_completed_at := Some "t1"; final_drop_counters := Some "{}";
  packet_confidence := Some "high"; packet_result_state := "completed";
|}.
Definition second : Tables :=
  set_packets {[session_id := capture_row]} (set_schema INITIAL_TABLES (columns 2) [1; 2] no_tables).

Lemma migrations_resume_witness :
  at_version 3 (stored (open (at_rest (stored (open {| stored := second; working := None;
    moments := dies 5 Dies |}).1))).1).
Proof.
  pose proof (migrations_resume second 2 {| stored := second; working := None; moments := dies 5 Dies |}) as Hm.
  destruct (open {| stored := second; working := None; moments := dies 5 Dies |}) as [c' o] eqn:Hc.
  apply Hm; [|done|done]. by split.
Defined.

(** The migration takes the finished capture for a running one, which nothing can finish. *)
Example finished_capture_runs :
  let t := stored (open (at_rest second)).1 in
  (packet_session_state session_id (at_rest t)).2 = Ok (Some "running") /\
  (serve t (calmly (CompletePacket session_id "t1" "completed" "{}" "high"))).2 =
    err InvalidArgument "packet session is not active".
Proof. by vm_compute. Qed.

Lemma first_migration_locks_witness :
  let t := stored (open {| stored := no_tables; working := None; moments := dies 5 Dies |}).1 in
  (open (at_rest t)).2 <> Ok tt /\ stored (open (at_rest t)).1 = t.
Proof.
  destruct first_migration_locks as (_&Hlocked&_). apply Hlocked; [|done|done].
  split; [by apply (bool_decide_unpack _)|by vm_compute].
Defined.
