(* ===== verification/DpdkPlanning.v ===== *)
(** * Queue and buffer planning of the DPDK backend

    Model of [crates/backend-dpdk/src/planning.rs]: one receive queue per worker
    core, on the NUMA node of the NIC, and the size of the mbuf pool. *)

From stdpp Require Import base list strings sorting sets.
From Stdlib Require Import ZArith Lia.
From S2P Require Import Prelude ErrorModel.
Open Scope Z_scope.

Record DataPlaneCpu := { logical_id : Z; cpu_numa_node : Z }.
Inductive QueueSelection := Auto | Explicit (n : Z).
Record NicQueueCapacity := { receive : Z; transmit : Z }.
Record RxQueueAssignment := { queue_id : Z; logical_cpu : Z }.
Record QueuePlan := {
  numa_node : Z; rx_queues : Z; tx_queues : Z; rx_assignments : list RxQueueAssignment;
}.

Definition invalid {A} (m : string) : res A := err InvalidArgument m.

(** [sort_unstable] of integers, and [windows(2).any(|pair| pair[0] == pair[1])]. *)
Definition sort (l : list Z) : list Z := merge_sort Z.le l.
Fixpoint repeats (l : list Z) : bool :=
  match l with
  | x :: (y :: _) as rest => (x =? y) || repeats rest
  | _ => false
  end.

Definition u16_or_max (n : Z) : Z := if n <=? umax 16 then n else umax 16.

(** [enumerate]. *)
Definition enumerate {A} (l : list A) : list (Z * A) := imap (fun i a => (Z.of_nat i, a)) l.

Definition validate (p : QueuePlan) : res unit :=
  if (rx_queues p =? 0) || (tx_queues p =? 0) then invalid "queue plan RX/TX queues must be non-zero"
  else if negb (len (rx_assignments p) =? rx_queues p)
  then invalid "queue plan assignment count does not match RX queues"
  else if repeats (sort (map logical_cpu (rx_assignments p)))
  then invalid "queue plan CPU owners must be unique"
  else if existsb (fun '(i, a) => negb (queue_id a =? u16_or_max i)) (enumerate (rx_assignments p))
  then invalid "queue plan queue IDs must be contiguous"
  else Ok tt.

Definition to_u16 (n : Z) (m : string) : res Z := if n <=? umax 16 then Ok n else invalid m.

Definition plan_queues (nic_numa_node : Z) (nic_capacity : NicQueueCapacity)
    (available_cpus : list DataPlaneCpu) (configured_maximum : Z) (selection : QueueSelection) :
    res QueuePlan :=
  if (receive nic_capacity =? 0) || (transmit nic_capacity =? 0) || (configured_maximum =? 0)
  then invalid "NIC queue capacity and configured maximum must be non-zero"
  else
    let local_cpus :=
      sort (map logical_id (filter (fun c => cpu_numa_node c = nic_numa_node) available_cpus)) in
    if repeats local_cpus then invalid "available data-plane CPU IDs must be unique"
    else
      let automatic := Z.min (Z.min (receive nic_capacity) (len local_cpus)) configured_maximum in
      let requested := match selection with Auto => automatic | Explicit n => n end in
      if requested =? 0 then invalid "no same-NUMA data-plane CPU is available"
      else if (receive nic_capacity <? requested) || (configured_maximum <? requested)
              || (len local_cpus <? requested)
      then invalid "requested RX queues exceed NIC, configured, or same-NUMA CPU capacity"
      else
        let tx := Z.min requested (transmit nic_capacity) in
        if tx =? 0 then invalid "no TX queue is available"
        else
          let? rx_queues := to_u16 requested "RX queue count overflow" in
          let? tx_queues := to_u16 tx "TX queue count overflow" in
          let plan := {|
            numa_node := nic_numa_node; rx_queues := rx_queues; tx_queues := tx_queues;
            rx_assignments :=
              map (fun '(i, cpu) => {| queue_id := u16_or_max i; logical_cpu := cpu |})
                (enumerate (take (Z.to_nat requested) local_cpus)) |} in
          let? _ := validate plan in
          Ok plan.

Record MbufPoolSizing := {
  sizing_rx_queues : Z;
  rx_descriptors_per_queue : Z;
  sizing_tx_queues : Z;
  tx_descriptors_per_queue : Z;
  burst_size : Z;
  pipeline_depth : Z;
  capture_buffers : Z;
  safety_margin : Z;
}.

Definition checked_mul (w a b : Z) : option Z := if a * b <=? umax w then Some (a * b) else None.

Definition required_mbufs (s : MbufPoolSizing) : res Z :=
  if (sizing_rx_queues s =? 0) || (rx_descriptors_per_queue s =? 0) || (sizing_tx_queues s =? 0)
     || (tx_descriptors_per_queue s =? 0) || (burst_size s =? 0) || (pipeline_depth s =? 0)
     || (safety_margin s =? 0)
  then invalid "mbuf sizing inputs must be non-zero"
  else
    let overflow m := new_error InvalidArgument m false in
    let? rx := ok_or (checked_mul 64 (sizing_rx_queues s) (rx_descriptors_per_queue s))
                 (overflow "RX descriptor capacity overflow"%string) in
    let? tx := ok_or (checked_mul 64 (sizing_tx_queues s) (tx_descriptors_per_queue s))
                 (overflow "TX descriptor capacity overflow"%string) in
    let? in_flight :=
      ok_or (v ← checked_mul 64 (Z.max (sizing_rx_queues s) (sizing_tx_queues s)) (burst_size s);
             checked_mul 64 v (pipeline_depth s))
        (overflow "pipeline capacity overflow"%string) in
    ok_or (v ← checked_add 64 rx tx; v ← checked_add 64 v in_flight;
           v ← checked_add 64 v (capture_buffers s); checked_add 64 v (safety_margin s))
      (overflow "mbuf pool capacity overflow"%string).

(** ** Sorted lists. *)

Lemma sort_perm l : sort l ≡ₚ l.
Proof. apply merge_sort_Permutation. Qed.
Lemma sort_sorted l : StronglySorted Z.le (sort l).
Proof. apply StronglySorted_merge_sort; [intros ??? ; lia|intros x y; apply Z.le_ge_cases]. Qed.

(** Neighbours are enough to see a repetition in a sorted list. *)
Lemma repeats_false l : StronglySorted Z.le l -> repeats l = false <-> StronglySorted Z.lt l.
Proof.
  induction 1 as [|x l Hs IH Hx]; [split; [by constructor|done]|].
  destruct l as [|y l]; [split; [by repeat constructor|done]|].
  change (repeats (x :: y :: l)) with ((x =? y) || repeats (y :: l)).
  rewrite orb_false_iff, IH, Z.eqb_neq. split.
  - intros [Hne Hl]. constructor; [done|]. inversion Hl as [|? ? ? Hy]; subst.
    apply Forall_cons in Hx as [Hx _]. constructor; [lia|]. eapply Forall_impl; [exact Hy|]. simpl. lia.
  - inversion 1 as [|? ? Hl Hy]; subst. apply Forall_cons in Hy as [Hy _]. split; [lia|done].
Qed.

Lemma strict_sorted l : StronglySorted Z.le l -> NoDup l -> StronglySorted Z.lt l.
Proof.
  induction 1 as [|x l Hs IH Hx]; intros Hn; constructor.
  - apply NoDup_cons in Hn as [_ Hn]. by apply IH.
  - apply NoDup_cons in Hn as [Hn _]. rewrite Forall_forall in *. intros y Hy. specialize (Hx y Hy).
    assert (x <> y) by by intros ->. lia.
Qed.

Lemma strict_nodup l : StronglySorted Z.lt l -> NoDup l.
Proof.
  induction 1 as [|x l Hs IH Hx]; constructor; [|done]. intros Hin. rewrite Forall_forall in Hx.
  specialize (Hx x Hin). lia.
Qed.

Lemma sort_repeats l : repeats (sort l) = false <-> NoDup l.
Proof.
  rewrite repeats_false by apply sort_sorted. rewrite <- (sort_perm l) at 2. split.
  - apply strict_nodup.
  - apply strict_sorted, sort_sorted.
Qed.

Lemma sort_unique l k : StronglySorted Z.lt k -> k ≡ₚ l -> k = sort l.
Proof.
  intros Hk Hp. assert (StronglySorted Z.le k) as Hk'.
  { clear Hp. induction Hk as [|x k Hs IH Hx]; constructor; [done|]. eapply Forall_impl; [exact Hx|]. simpl. lia. }
  eapply (StronglySorted_unique Z.le); [exact Hk'|apply sort_sorted|]. by rewrite sort_perm.
Qed.

Lemma sorted_take l n : StronglySorted Z.lt l -> StronglySorted Z.lt (take n l).
Proof.
  intros H. revert n. induction H as [|x l Hs IH Hx]; intros [|n]; simpl; constructor; [done|].
  by apply Forall_take.
Qed.

Lemma sort_idem l : StronglySorted Z.lt l -> sort l = l.
Proof. intros H. symmetry. by apply sort_unique. Qed.

(** ** The plan. *)

(** [n] worker CPUs [cpus], each owning the queue of its index. *)
Definition owners (cpus : list Z) : list RxQueueAssignment :=
  imap (fun i cpu => {| queue_id := Z.of_nat i; logical_cpu := cpu |}) cpus.

Lemma owners_cpus cpus : map logical_cpu (owners cpus) = cpus.
Proof.
  unfold owners. change (map logical_cpu) with (fmap (M := list) logical_cpu).
  rewrite fmap_imap. unfold compose. simpl.
  rewrite <- (list_fmap_id cpus) at 2. by rewrite <- imap_const.
Qed.

Lemma assigned cpus : len cpus <= umax 16 ->
  map (fun '(i, cpu) => {| queue_id := u16_or_max i; logical_cpu := cpu |}) (enumerate cpus) = owners cpus.
Proof.
  intros Hl. unfold owners, enumerate. change (map ?f) with (fmap (M := list) f). rewrite fmap_imap.
  apply imap_ext. intros i x Hi%lookup_lt_Some. unfold compose, u16_or_max, len in *.
  by rewrite (proj2 (Z.leb_le _ _)) by lia.
Qed.

Lemma owners_valid n cpus k tx : len cpus = k -> 1 <= k <= umax 16 -> 1 <= tx -> StronglySorted Z.lt cpus ->
  validate {| numa_node := n; rx_queues := k; tx_queues := tx; rx_assignments := owners cpus |} = Ok tt.
Proof.
  intros Hl Hk Htx Hs. unfold validate. simpl. rewrite owners_cpus, (proj2 (sort_repeats cpus)) by by apply strict_nodup.
  assert (len (owners cpus) = k) as -> by (unfold len, owners in *; by rewrite length_imap).
  rewrite Z.eqb_refl, !(proj2 (Z.eqb_neq _ _)) by lia. simpl.
  assert (existsb (fun '(i, a) => negb (queue_id a =? u16_or_max i)) (enumerate (owners cpus)) = false) as ->; [|done].
  apply not_true_iff_false. rewrite existsb_exists. intros ([i a]&Hin%list_elem_of_In&Hne).
  apply list_elem_of_lookup in Hin as [j Hj]. unfold enumerate, owners in Hj.
  rewrite !list_lookup_imap in Hj. destruct (cpus !! j) as [x|] eqn:Hx; [|done]. simpl in Hj. simplify_eq.
  simpl in Hne. apply lookup_lt_Some in Hx. unfold u16_or_max, len in *.
  rewrite (proj2 (Z.leb_le _ _)) in Hne by lia. by rewrite Z.eqb_refl in Hne.
Qed.

(** The queue counts that a selection asks for. *)
Definition selected (s : QueueSelection) (cap : NicQueueCapacity) (cpus configured k : Z) : Prop :=
  match s with
  | Auto => k = Z.min (Z.min (receive cap) cpus) configured
  | Explicit n => k = n
  end.

(** A plan exists exactly when the NIC and the configuration allow queues, the
    CPUs on the NIC's node are distinct, and the queues asked for fit the NIC, the
    configuration and these CPUs; it then has one worker for each receive queue, on
    the first CPUs of the node in order, queue [i] owned by the [i]-th, and at most
    as many transmit queues as the NIC has. *)
Theorem queue_plan_exact node cap cpus configured selection p :
  uint 16 (receive cap) -> uint 16 (transmit cap) -> uint 16 configured ->
  (forall n, selection = Explicit n -> uint 16 n) ->
  let local := map logical_id (filter (fun c => cpu_numa_node c = node) cpus) in
  plan_queues node cap cpus configured selection = Ok p <->
  receive cap <> 0 /\ transmit cap <> 0 /\ configured <> 0 /\ NoDup local /\
  exists k sorted, selected selection cap (len local) configured k /\
    1 <= k /\ k <= receive cap /\ k <= configured /\ k <= len local /\
    sorted ≡ₚ local /\ StronglySorted Z.lt sorted /\
    p = {| numa_node := node; rx_queues := k; tx_queues := Z.min k (transmit cap);
           rx_assignments := owners (take (Z.to_nat k) sorted) |}.
Proof.
  intros Hr Ht Hc Hs local. unfold plan_queues, invalid, err, selected. fold local.
  destruct (Z.eqb_spec (receive cap) 0); [split; [done|naive_solver]|].
  destruct (Z.eqb_spec (transmit cap) 0); [split; [done|naive_solver]|].
  destruct (Z.eqb_spec configured 0); [split; [done|naive_solver]|]. simpl.
  destruct (repeats (sort local)) eqn:Hrep.
  { split; [done|]. intros (_&_&_&Hn%sort_repeats&_). congruence. }
  apply sort_repeats in Hrep as Hn.
  assert (StronglySorted Z.lt (sort local)) as Hsort by (apply strict_sorted; [apply sort_sorted|by rewrite sort_perm]).
  assert (len (sort local) = len local) as -> by (unfold len; by rewrite sort_perm).
  assert (forall j, match selection with
      | Auto => j = Z.min (Z.min (receive cap) (len local)) configured
      | Explicit n => j = n end <->
    j = match selection with
        | Auto => Z.min (Z.min (receive cap) (len local)) configured
        | Explicit n => n end) as Hsel by (intros j; by destruct selection).
  setoid_rewrite Hsel. clear Hsel.
  pose proof (len_nonneg local). set (k := match selection with Auto => _ | Explicit n => n end).
  assert (0 <= k <= umax 16) as Hk.
  { unfold k, uint in *. destruct selection as [|q]; [lia|by apply Hs]. }
  clearbody k. unfold uint in *.
  destruct (Z.eqb_spec k 0); [split; [done|intros (_&_&_&_&j&l&->&?&_); lia]|].
  destruct (Z.ltb_spec (receive cap) k); [split; [done|intros (_&_&_&_&j&l&->&_&?&_); lia]|].
  destruct (Z.ltb_spec configured k); [split; [done|intros (_&_&_&_&j&l&->&_&_&?&_); lia]|].
  destruct (Z.ltb_spec (len local) k); [split; [done|intros (_&_&_&_&j&l&->&_&_&_&?&_); lia]|]. simpl.
  rewrite (proj2 (Z.eqb_neq _ _)) by lia. unfold to_u16.
  rewrite !(proj2 (Z.leb_le _ _)) by lia. cbn [obind].
  assert (len (take (Z.to_nat k) (sort local)) = k) as Hlen.
  { unfold len in *. rewrite length_take, sort_perm. lia. }
  rewrite assigned by lia. rewrite owners_valid by (try done; try lia; by apply sorted_take). cbn [obind].
  split.
  - intros [= <-]. split_and!; try done. exists k, (sort local). split_and!; try done; [lia|apply sort_perm].
  - intros (_&_&_&_&j&l&->&_&_&_&_&Hp&Hl&->). by rewrite (sort_unique local l).
Qed.

(** The pool holds every descriptor of every queue, the bursts in flight, the
    capture buffers and the margin; a size is given exactly when nothing is zero and
    the sum fits 64 bits. *)
Theorem mbufs_exact s n :
  Forall (fun x => 0 <= x) [sizing_rx_queues s; rx_descriptors_per_queue s; sizing_tx_queues s;
    tx_descriptors_per_queue s; burst_size s; pipeline_depth s; capture_buffers s; safety_margin s] ->
  required_mbufs s = Ok n <->
  Forall (fun x => x <> 0) [sizing_rx_queues s; rx_descriptors_per_queue s; sizing_tx_queues s;
    tx_descriptors_per_queue s; burst_size s; pipeline_depth s; safety_margin s] /\
  n = sizing_rx_queues s * rx_descriptors_per_queue s + sizing_tx_queues s * tx_descriptors_per_queue s
      + Z.max (sizing_rx_queues s) (sizing_tx_queues s) * burst_size s * pipeline_depth s
      + capture_buffers s + safety_margin s /\
  n <= umax 64.
Proof.
  intros Hnn. repeat rewrite Forall_cons in *. simpl in *. destruct Hnn as (?&?&?&?&?&?&?&?&_).
  unfold required_mbufs, invalid, err.
  match goal with |- context [if ?b then _ else _] => destruct b eqn:Hz end.
  { rewrite !orb_true_iff, !Z.eqb_eq in Hz. split; [done|]. lia. }
  rewrite !orb_false_iff, !Z.eqb_neq in Hz.
  unfold checked_mul, checked_add.
  set (a := sizing_rx_queues s * rx_descriptors_per_queue s).
  set (b := sizing_tx_queues s * tx_descriptors_per_queue s).
  set (m := Z.max _ _ * burst_size s).
  assert (0 <= a /\ 0 <= b /\ 0 <= m <= m * pipeline_depth s) as (?&?&?) by (unfold a, b, m; nia).
  clearbody a b m.
  repeat (match goal with |- context [?x <=? umax 64] => destruct (Z.leb_spec x (umax 64)) end;
          cbn [obind ok_or mbind option_bind];
          [|split; [done|]; intros (_&Hsum&Hfit); exfalso; lia]).
  split; [intros [= <-]|by intros (_&->&_)]. split_and!; try done; lia.
Qed.

(** ** Two CPUs on the node of the NIC. *)

Definition sample_cpus : list DataPlaneCpu :=
  [{| logical_id := 6; cpu_numa_node := 0 |}; {| logical_id := 9; cpu_numa_node := 1 |};
   {| logical_id := 2; cpu_numa_node := 0 |}].

Lemma queue_plan_exact_witness :
  plan_queues 0 {| receive := 8; transmit := 1 |} sample_cpus 4 Auto =
    Ok {| numa_node := 0; rx_queues := 2; tx_queues := 1;
          rx_assignments := [{| queue_id := 0; logical_cpu := 2 |}; {| queue_id := 1; logical_cpu := 6 |}] |}.
Proof.
  apply (queue_plan_exact 0 {| receive := 8; transmit := 1 |} sample_cpus 4 Auto); try done.
  split_and!; try done; [by apply (bool_decide_unpack _); vm_compute|].
  exists 2, [2; 6]. split_and!; try done; [apply (bool_decide_unpack _); by vm_compute|].
  repeat constructor; lia.
Defined.

Definition sample_sizing : MbufPoolSizing :=
  {| sizing_rx_queues := 4; rx_descriptors_per_queue := 1024; sizing_tx_queues := 2;
     tx_descriptors_per_queue := 512; burst_size := 64; pipeline_depth := 3; capture_buffers := 100;
     safety_margin := 256 |}.

Lemma mbufs_exact_witness : required_mbufs sample_sizing = Ok 6244.
Proof.
  apply (mbufs_exact sample_sizing 6244); [repeat constructor; done|].
  split; [repeat constructor; done|]. by vm_compute.
Defined.
