(* ===== verification/Identity.v ===== *)
(** * Node identity

    Model of [crates/identity/src/lib.rs]: the secret in which a node keeps its ID,
    certificate and private key, and its first creation. The platform's credential
    store, the certificate generator, the X.509 parser and the key parser are
    interfaces; certificates and keys are their DER bytes. *)

From stdpp Require Import base list strings.
From Stdlib Require Import ZArith Lia.
From S2P Require Import Prelude ErrorModel.
Open Scope Z_scope.

Definition SECRET_MAGIC : bytes := [78; 84; 73; 68; 0; 0; 0; 1].
Definition MAX_CERTIFICATE_BYTES : Z := 64 * 1024.
Definition MAX_PRIVATE_KEY_BYTES : Z := 64 * 1024.
Definition zero_id : bytes := replicate 16 0.

Record IdentityMaterial := { node_id : bytes; certificate_chain : list bytes; private_key : bytes }.

Definition identity_error {A} (m : string) : res A := err NodeTlsFailed m.
Definition invalid {A} (m : string) : res A := err InvalidArgument m.

(** [x509_parser] and [rcgen]: what is left of the certificate and its public key, and
    the public key of a private key; each may fail with a message. *)
Class KeyFormats := {
  parse_x509_certificate : bytes -> string + (bytes * bytes);
  subject_public_key_info : bytes -> string + bytes;
}.

(** The credential store; the state is the platform's. *)
Class SecureSecretStore (W : Type) := {
  get_secret : W -> W * res (option bytes);
  set_secret : bytes -> W -> W * res unit;
}.

(** [rcgen::generate_simple_self_signed]: a certificate and its private key. *)
Class SelfSigned (W : Type) := {
  generate_simple_self_signed : list string -> W -> W * (string + (bytes * bytes));
}.

Definition validate_subject_names (names : list string) : res unit :=
  if bool_decide (names = []) || (16 <? len names)
  then invalid "identity requires between one and sixteen subject names"
  else
    let normalized := map (fun n => trim (as_bytes n)) names in
    if existsb (fun n => bool_decide (n = []) || (253 <? len n)) normalized
    then invalid "identity subject name is empty or too long"
    else if negb (bool_decide (NoDup normalized))
    then invalid "identity subject names contain duplicates"
    else Ok tt.

Definition validate_lengths (certificate key : Z) : res unit :=
  if (certificate =? 0) || (MAX_CERTIFICATE_BYTES <? certificate)
  then identity_error "identity certificate length is invalid"
  else if (key =? 0) || (MAX_PRIVATE_KEY_BYTES <? key)
  then identity_error "identity private key length is invalid"
  else Ok tt.

Definition read_length (bs : bytes) : res Z :=
  if len bs =? 4 then Ok (from_be_bytes bs)
  else identity_error "secure identity length field is invalid".

Definition to_u32 (n : Z) (m : string) : res Z := if n <=? umax 32 then Ok n else identity_error m.

Definition encode_secret (material : IdentityMaterial) : res bytes :=
  match certificate_chain material with
  | [] => identity_error "identity certificate chain is empty"
  | certificate :: _ =>
      let key := private_key material in
      let? _ := validate_lengths (len certificate) (len key) in
      let? certificate_length := to_u32 (len certificate) "identity certificate is too large" in
      let? key_length := to_u32 (len key) "identity key is too large" in
      Ok (SECRET_MAGIC ++ node_id material ++ to_be_bytes 4 certificate_length
          ++ to_be_bytes 4 key_length ++ certificate ++ key)
  end.

Section Identity.
Context `{KeyFormats}.

Definition validate_key_pair (certificate private_key : bytes) : res unit :=
  match parse_x509_certificate certificate with
  | inl m => identity_error ("identity certificate is invalid: " +:+ m)
  | inr (remaining, public_key) =>
      if negb (bool_decide (remaining = [])) then identity_error "identity certificate contains trailing data"
      else
        match subject_public_key_info private_key with
        | inl m => identity_error ("identity private key is invalid: " +:+ m)
        | inr info =>
            if negb (bool_decide (public_key = info))
            then identity_error "identity certificate and private key do not match"
            else Ok tt
        end
  end.

(** Slices panic out of range; the lengths are checked before. The sum of the lengths
    cannot overflow after [validate_lengths]; the check is kept. *)
Definition decode_secret (secret : bytes) : res IdentityMaterial :=
  let? header :=
    (if len secret <? 32 then Ok false
     else let? magic := slice secret 0 8 in Ok (bool_decide (magic = SECRET_MAGIC))) in
  if negb header then identity_error "secure identity secret has an invalid header"
  else
    let? id := slice secret 8 24 in
    if negb (len id =? 16) then identity_error "secure identity Node ID is invalid"
    else if bool_decide (id = zero_id) then identity_error "secure identity Node ID must not be zero"
    else
      let? c := slice secret 24 28 in
      let? certificate_length := read_length c in
      let? k := slice secret 28 32 in
      let? key_length := read_length k in
      let? _ := validate_lengths certificate_length key_length in
      match (n ← checked_add 64 32 certificate_length; checked_add 64 n key_length) with
      | None => identity_error "secure identity lengths overflow"
      | Some expected =>
          if negb (len secret =? expected)
          then identity_error "secure identity secret length is inconsistent"
          else
            let? certificate := slice secret 32 (32 + certificate_length) in
            let? key := slice_from secret (32 + certificate_length) in
            let? _ := validate_key_pair certificate key in
            Ok {| node_id := id; certificate_chain := [certificate]; private_key := key |}
      end.

(** The loop draws until an ID is not zero; [None] when it needs more draws. *)
Fixpoint random_node_id (draws : list (string + bytes)) : option (res bytes) :=
  match draws with
  | [] => None
  | inl m :: _ => Some (err RandomFailed ("cannot generate Node ID: " +:+ m))
  | inr id :: draws => if bool_decide (id = zero_id) then random_node_id draws else Some (Ok id)
  end.

Context {W : Type} `{SecureSecretStore W} `{SelfSigned W}.

Record IdentityProvider := { subject_names : list string }.

Definition new_provider (names : list string) : res IdentityProvider :=
  let? _ := validate_subject_names names in Ok {| subject_names := names |}.

Definition generate_identity (names : list string) (draws : list (string + bytes)) (w : W) :
    W * option (res IdentityMaterial) :=
  let '(w, o) := generate_simple_self_signed names w in
  (w, match o with
      | inl m => Some (identity_error ("cannot generate identity certificate: " +:+ m))
      | inr (certificate, key) =>
          match random_node_id draws with
          | None => None
          | Some (Err e) => Some (Err e)
          | Some Panic => Some Panic
          | Some (Ok id) =>
              Some (Ok {| node_id := id; certificate_chain := [certificate]; private_key := key |})
          end
      end).

(** [None]: the generator of IDs has not drawn enough. *)
Definition load_or_create (p : IdentityProvider) (draws : list (string + bytes)) (w : W) :
    W * option (res IdentityMaterial) :=
  let '(w, o) := get_secret w in
  match o with
  | Err e => (w, Some (Err e))
  | Panic => (w, Some Panic)
  | Ok (Some secret) => (w, Some (decode_secret secret))
  | Ok None =>
      let '(w, o) := generate_identity (subject_names p) draws w in
      match o with
      | Some (Ok material) =>
          match encode_secret material with
          | Ok secret =>
              let '(w, o) := set_secret secret w in
              (w, Some (match o with
                        | Ok _ => decode_secret secret
                        | Err e => Err e
                        | Panic => Panic
                        end))
          | Err e => (w, Some (Err e))
          | Panic => (w, Some Panic)
          end
      | o => (w, o)
      end
  end.
End Identity.

(** ** The secret is read back exactly. *)

Section Secret.
Context `{KeyFormats}.

Lemma split_fields (s : bytes) : 32 <= len s -> exists m id c k rest : bytes, s = m ++ id ++ c ++ k ++ rest /\
  len m = 8 /\ len id = 16 /\ len c = 4 /\ len k = 4.
Proof.
  intros Hs. unfold len in *.
  exists (take 8 s), (take 16 (drop 8 s)), (take 4 (drop 24 s)), (take 4 (drop 28 s)), (drop 32 s).
  rewrite !length_take, !length_drop. split_and!; try lia.
  assert (forall n i (l : bytes), take n (drop i l) ++ drop (n + i) l = drop i l) as Hsplit.
  { intros n i l. rewrite Nat.add_comm, <- drop_drop. apply take_drop. }
  rewrite (Hsplit 4%nat 28%nat), (Hsplit 4%nat 24%nat), (Hsplit 16%nat 8%nat). by rewrite take_drop.
Qed.

Lemma lengths_ok c k : validate_lengths c k = Ok tt <->
  c <> 0 /\ c <= MAX_CERTIFICATE_BYTES /\ k <> 0 /\ k <= MAX_PRIVATE_KEY_BYTES.
Proof.
  unfold validate_lengths, identity_error, err.
  destruct (Z.eqb_spec c 0), (Z.ltb_spec MAX_CERTIFICATE_BYTES c), (Z.eqb_spec k 0),
    (Z.ltb_spec MAX_PRIVATE_KEY_BYTES k); simpl; split; try done; lia.
Qed.

Lemma lengths_total c k : validate_lengths c k <> Panic.
Proof. unfold validate_lengths, identity_error, err. by repeat case_match. Qed.

Lemma pair_total c k : validate_key_pair c k <> Panic.
Proof. unfold validate_key_pair, identity_error, err. by repeat case_match. Qed.

(** [decode_secret] on its fields. *)
Lemma decode_fields (m id c k rest : bytes) : len m = 8 -> len id = 16 -> len c = 4 -> len k = 4 ->
  0 <= from_be_bytes c -> 0 <= from_be_bytes k ->
  decode_secret (m ++ id ++ c ++ k ++ rest) =
    if negb (bool_decide (m = SECRET_MAGIC)) then identity_error "secure identity secret has an invalid header"
    else if bool_decide (id = zero_id) then identity_error "secure identity Node ID must not be zero"
    else
      let? _ := validate_lengths (from_be_bytes c) (from_be_bytes k) in
      if negb (len rest =? from_be_bytes c + from_be_bytes k)
      then identity_error "secure identity secret length is inconsistent"
      else
        let cert := take (Z.to_nat (from_be_bytes c)) rest in
        let key := drop (Z.to_nat (from_be_bytes c)) rest in
        let? _ := validate_key_pair cert key in
        Ok {| node_id := id; certificate_chain := [cert]; private_key := key |}.
Proof.
  intros Hm Hid Hc Hk Hpc Hpk. unfold decode_secret. set (s := m ++ id ++ c ++ k ++ rest).
  assert (Hlen : len s = 32 + len rest) by (unfold s; rewrite !len_app; lia). pose proof (len_nonneg rest).
  assert (slice (E := NetToolError) s 0 8 = Ok m) as Hs0.
  { pose proof (slice_app (E := NetToolError) [] m (id ++ c ++ k ++ rest) 0 8) as Hs. rewrite app_nil_l in Hs.
    apply Hs; [done|by rewrite Hm]. }
  assert (slice (E := NetToolError) s 8 24 = Ok id) as Hs1 by (apply slice_app; lia).
  assert (slice (E := NetToolError) s 24 28 = Ok c) as Hs2.
  { unfold s. rewrite (assoc_L (++) m). apply slice_app; rewrite len_app; lia. }
  assert (slice (E := NetToolError) s 28 32 = Ok k) as Hs3.
  { unfold s. rewrite (assoc_L (++) m), (assoc_L (++) (m ++ id)). apply slice_app; rewrite !len_app; lia. }
  rewrite (proj2 (Z.ltb_ge _ _)), Hs0, Hs1, Hs2, Hs3 by lia. cbn [obind]. unfold read_length.
  rewrite Hid, Hc, Hk. cbn [Z.eqb Pos.eqb negb obind]. case_bool_decide; simpl; [|done].
  case_bool_decide; [done|].
  destruct (validate_lengths (from_be_bytes c) (from_be_bytes k)) as [[]|e|] eqn:Hv; [|done|done]. cbn [obind].
  apply lengths_ok in Hv as (_&Hc'&_&Hk'). unfold MAX_CERTIFICATE_BYTES, MAX_PRIVATE_KEY_BYTES in *.
  unfold checked_add, umax. rewrite (proj2 (Z.leb_le _ _)) by lia. cbn [mbind option_bind].
  rewrite (proj2 (Z.leb_le _ _)) by lia. rewrite Hlen.
  replace (32 + len rest =? 32 + from_be_bytes c + from_be_bytes k)
    with (len rest =? from_be_bytes c + from_be_bytes k) by lia.
  destruct (Z.eqb_spec (len rest) (from_be_bytes c + from_be_bytes k)) as [Hr|]; [|done]. simpl.
  set (n := Z.to_nat (from_be_bytes c)).
  assert (s = (m ++ id ++ c ++ k) ++ take n rest ++ drop n rest) as Hsplit.
  { unfold s. by rewrite take_drop, <- !(assoc_L (++)). }
  assert (len (take n rest) = from_be_bytes c) as Hlc by (unfold len, n in *; rewrite length_take; lia).
  assert (len (drop n rest) = from_be_bytes k) as Hlk by (unfold len, n in *; rewrite length_drop; lia).
  assert (len (m ++ id ++ c ++ k) = 32) as H32 by (rewrite !len_app; lia).
  assert (slice (E := NetToolError) s 32 (32 + from_be_bytes c) = Ok (take n rest)) as ->.
  { rewrite Hsplit. apply slice_app; lia. }
  cbn [obind]. unfold slice_from.
  assert (slice (E := NetToolError) s (32 + from_be_bytes c) (len s) = Ok (drop n rest)) as ->; [|done].
  rewrite Hlen, Hsplit, (assoc_L (++)), <- (app_nil_r (_ ++ drop n rest)), <- (assoc_L (++)).
  apply slice_app; rewrite len_app; lia.
Qed.

Lemma from_be_bytes_pos (l : bytes) : bytes_ok l -> 0 <= from_be_bytes l.
Proof. intros Hl. by destruct (from_be_bytes_uint l Hl). Qed.

(** A secret that is read was written from what is read. *)
Lemma secret_decode_encoded s m : bytes_ok s -> decode_secret s = Ok m ->
  encode_secret m = Ok s /\ len (node_id m) = 16 /\ node_id m <> zero_id /\
  exists c, certificate_chain m = [c] /\ validate_key_pair c (private_key m) = Ok tt.
Proof.
  intros Hs Hd. assert (32 <= len s) as H32.
  { apply Z.nlt_ge. intros Hlt. unfold decode_secret in Hd. by rewrite (proj2 (Z.ltb_lt _ _) Hlt) in Hd. }
  destruct (split_fields s H32) as (g&id&c&k&rest&->&Hg&Hid&Hc&Hk).
  unfold bytes_ok in Hs. rewrite !Forall_app in Hs. destruct Hs as (_&_&Hbc&Hbk&_).
  pose proof (from_be_bytes_pos c Hbc) as Hpc. pose proof (from_be_bytes_pos k Hbk) as Hpk.
  rewrite decode_fields in Hd by done.
  case_bool_decide as Hmagic; [|done]. case_bool_decide as Hz; [done|]. cbn [negb] in Hd.
  destruct (validate_lengths (from_be_bytes c) (from_be_bytes k)) as [[]|?|] eqn:Hv; [|done|done].
  cbn [obind] in Hd. destruct (Z.eqb_spec (len rest) (from_be_bytes c + from_be_bytes k)) as [Hr|]; [|done].
  cbn [negb] in Hd. set (n := Z.to_nat (from_be_bytes c)) in *. cbv zeta in Hd.
  destruct (validate_key_pair (take n rest) (drop n rest)) as [[]|?|] eqn:Hp; [|done|done].
  cbn [obind] in Hd. injection Hd as <-. cbn [node_id certificate_chain private_key].
  split_and!; [|done|done|by exists (take n rest)].
  assert (len (take n rest) = from_be_bytes c) as Hlc by (unfold len, n in *; rewrite length_take; lia).
  assert (len (drop n rest) = from_be_bytes k) as Hlk by (unfold len, n in *; rewrite length_drop; lia).
  unfold encode_secret. cbn [node_id certificate_chain private_key]. rewrite Hlc, Hlk, Hv. cbn [obind].
  apply lengths_ok in Hv as (_&?&_&?). unfold MAX_CERTIFICATE_BYTES, MAX_PRIVATE_KEY_BYTES in *.
  unfold to_u32, umax. rewrite !(proj2 (Z.leb_le _ _)) by lia. cbn [obind]. subst g. do 3 f_equal.
  rewrite take_drop. pose proof (to_from_be_bytes c Hbc) as Htc. pose proof (to_from_be_bytes k Hbk) as Htk.
  replace (length c) with 4%nat in Htc by (unfold len in Hc; lia).
  replace (length k) with 4%nat in Htk by (unfold len in Hk; lia). by rewrite Htc, Htk.
Qed.

Lemma encode_decoded s m c : len (node_id m) = 16 -> node_id m <> zero_id -> certificate_chain m = [c] ->
  validate_key_pair c (private_key m) = Ok tt -> encode_secret m = Ok s -> decode_secret s = Ok m.
Proof.
  destruct m as [id chain key]. cbn [node_id certificate_chain private_key]. intros Hid Hz -> Hp He.
  unfold encode_secret in He. cbn [node_id certificate_chain private_key] in He.
  destruct (validate_lengths (len c) (len key)) as [[]|?|] eqn:Hv; [|done|done]. cbn [obind] in He.
  pose proof Hv as (_&Hc&_&Hk)%lengths_ok. unfold MAX_CERTIFICATE_BYTES, MAX_PRIVATE_KEY_BYTES in Hc, Hk.
  pose proof (len_nonneg c). pose proof (len_nonneg key).
  unfold to_u32, umax in He. rewrite !(proj2 (Z.leb_le _ _)) in He by lia. cbn [obind] in He.
  assert (s = SECRET_MAGIC ++ id ++ to_be_bytes 4 (len c) ++ to_be_bytes 4 (len key) ++ c ++ key) as ->.
  { clear -He. congruence. }
  clear He.
  assert (from_be_bytes (to_be_bytes 4 (len c)) = len c) as Hfc by (apply from_to_be_bytes; lia).
  assert (from_be_bytes (to_be_bytes 4 (len key)) = len key) as Hfk by (apply from_to_be_bytes; lia).
  rewrite decode_fields; try done; try (by rewrite len_to_be_bytes); [|lia..].
  rewrite Hfc, Hfk, Hv. rewrite (bool_decide_true (SECRET_MAGIC = _)) by done. rewrite (bool_decide_false (id = _)) by done.
  cbn [negb obind]. rewrite len_app, Z.eqb_refl. cbn [negb]. cbv zeta.
  replace (Z.to_nat (len c)) with (length c) by (unfold len; lia).
  by rewrite take_app_length, drop_app_length, Hp.
Qed.

Lemma decode_total s : bytes_ok s -> decode_secret s <> Panic.
Proof.
  intros Hs. destruct (Z.lt_ge_cases (len s) 32) as [Hlt|H32].
  { unfold decode_secret. by rewrite (proj2 (Z.ltb_lt _ _) Hlt). }
  destruct (split_fields s H32) as (g&id&c&k&rest&->&Hg&Hid&Hc&Hk).
  unfold bytes_ok in Hs. rewrite !Forall_app in Hs. destruct Hs as (_&_&Hbc&Hbk&_).
  rewrite decode_fields by eauto using from_be_bytes_pos. unfold identity_error, err.
  destruct (negb _); [done|]. destruct (bool_decide _); [done|].
  pose proof (lengths_total (from_be_bytes c) (from_be_bytes k)).
  destruct (validate_lengths _ _); [|done|done]. cbn [obind]. destruct (negb _); [done|]. cbv zeta.
  match goal with |- context [validate_key_pair ?x ?y] => pose proof (pair_total x y) end.
  by destruct (validate_key_pair _ _).
Qed.

(** A secret is accepted exactly when it is what [encode_secret] writes for the identity
    that is returned, whose ID has sixteen bytes and is not zero, whose chain is one
    certificate, and whose key is that certificate's; a secret of any other bytes is an
    error, never a panic. *)
Theorem secret_exact (s : bytes) (Hs : bytes_ok s) :
  decode_secret s <> Panic /\
  forall m, decode_secret s = Ok m <->
    encode_secret m = Ok s /\ len (node_id m) = 16 /\ node_id m <> zero_id /\
    exists c, certificate_chain m = [c] /\ validate_key_pair c (private_key m) = Ok tt.
Proof.
  split; [by apply decode_total|]. intros m. split; [by apply secret_decode_encoded|].
  intros (He&Hid&Hz&c&Hc&Hp). by apply (encode_decoded s m c).
Qed.
End Secret.

(** ** The identity of a node is created once. *)

(** What the documentation of the trait promises of a store: a read does not change it and
    gives what it holds, a write that succeeds replaces it, one that fails changes
    nothing; the generator of certificates does not write to it. *)
Class StoreLaw (W : Type) `{SecureSecretStore W} `{SelfSigned W} := {
  stored : W -> option bytes;
  get_law : forall w w' o, get_secret w = (w', o) ->
    stored w' = stored w /\ (o = Ok (stored w) \/ exists e, o = Err e);
  set_law : forall s w w' o, set_secret s w = (w', o) ->
    o = Ok tt /\ stored w' = Some s \/ (exists e, o = Err e) /\ stored w' = stored w;
  generate_law : forall names w w' o, generate_simple_self_signed names w = (w', o) ->
    stored w' = stored w;
}.

Section Stable.
Context `{KeyFormats} {W : Type} `{SecureSecretStore W} `{SelfSigned W} `{!StoreLaw W}.

Lemma generate_keeps names draws w w' r : generate_identity names draws w = (w', r) ->
  stored w' = stored w.
Proof.
  unfold generate_identity. destruct (generate_simple_self_signed names w) as [w1 o] eqn:Hg.
  intros [= <- _]. by apply generate_law in Hg.
Qed.

(** A load of a stored secret, whatever the provider and its draws. *)
Lemma load_stored p draws w w' r s : stored w = Some s -> load_or_create p draws w = (w', r) ->
  stored w' = Some s /\
  (r = Some (decode_secret s) \/ exists e, get_secret w = (w', Err e) /\ r = Some (Err e)).
Proof.
  intros Hs. unfold load_or_create. destruct (get_secret w) as [w1 o] eqn:Hg.
  destruct (get_law _ _ _ Hg) as [Hk Ho]. rewrite Hs in Hk, Ho.
  destruct Ho as [->|[e ->]]; intros [= <- <-]; (split; [done|]); [by left|].
  right. by exists e.
Qed.

(** The branch that creates. *)
Lemma create_cases p draws w w' r : stored w = None -> load_or_create p draws w = (w', r) ->
  stored w' = None /\ (forall m, r <> Some (Ok m)) \/
  exists m s, encode_secret m = Ok s /\ stored w' = Some s /\ r = Some (decode_secret s) /\
    exists w1 w2, get_secret w = (w1, Ok None) /\
      generate_identity (subject_names p) draws w1 = (w2, Some (Ok m)).
Proof.
  intros Hs. unfold load_or_create. destruct (get_secret w) as [w1 o] eqn:Hg.
  destruct (get_law _ _ _ Hg) as [Hk Ho]. rewrite Hs in Hk, Ho.
  destruct Ho as [->|[e ->]]; [|intros [= <- <-]; by left].
  destruct (generate_identity (subject_names p) draws w1) as [w2 g] eqn:Hgen.
  pose proof (generate_keeps _ _ _ _ _ Hgen) as Hk2. rewrite Hk in Hk2.
  destruct g as [[m|e|]|]; [|intros [= <- <-]; by left..].
  destruct (encode_secret m) as [s|e|] eqn:He; [|intros [= <- <-]; by left..].
  destruct (set_secret s w2) as [w3 q] eqn:Hset. apply set_law in Hset as [[-> Hst]|[[e ->] Hst]].
  - intros [= <- <-]. right. exists m, s. split_and!; [done|done|done|]. by exists w1, w2.
  - intros [= <- <-]. left. by rewrite Hst, Hk2.
Qed.

(** An identity is created at most once: a stored secret is never replaced, by any
    provider; whoever gets an identity leaves the store with a secret that decodes to
    it, and every later load from a store with that secret, by any provider, gives the
    same identity or the store's own error; when the store cannot be read nothing is
    created. *)
Theorem identity_stable (p : IdentityProvider) draws (w w' : W) r
    (Hload : load_or_create p draws w = (w', r)) :
  (forall s, stored w = Some s -> stored w' = Some s) /\
  (forall e, get_secret w = (w', Err e) -> r = Some (Err e) /\ stored w' = stored w) /\
  (forall m, r = Some (Ok m) -> exists s, stored w' = Some s /\ decode_secret s = Ok m /\
    forall p' draws' v v' r', stored v = Some s -> load_or_create p' draws' v = (v', r') ->
      r' = Some (Ok m) \/ exists e, get_secret v = (v', Err e) /\ r' = Some (Err e)).
Proof.
  split_and!.
  - intros s Hs. by destruct (load_stored _ _ _ _ _ _ Hs Hload).
  - intros e He. unfold load_or_create in Hload. rewrite He in Hload. injection Hload as <-.
    split; [done|]. by apply get_law in He as [-> _].
  - intros m ->. assert (exists s, stored w' = Some s /\ decode_secret s = Ok m) as (s&Hst&Hd).
    { destruct (stored w) as [s|] eqn:Hs.
      - destruct (load_stored _ _ _ _ _ _ Hs Hload) as [Hst [Heq|(e&_&?)]]; [|done].
        exists s. split; [done|congruence].
      - destruct (create_cases _ _ _ _ _ Hs Hload) as [[_ Hno]|(n&s&_&Hst&Heq&_)].
        + by destruct (Hno m).
        + exists s. split; [done|congruence]. }
    exists s. split_and!; [done|done|]. intros p' draws' v v' r' Hv Hload'.
    destruct (load_stored _ _ _ _ _ _ Hv Hload') as [_ [->|?]]; [by rewrite Hd; left|by right].
Qed.

(** On an empty store that can be read and written, with a generator that gives a
    certificate and its key of at most 64 KiB each, and random bytes of which the first
    [n] draws are all zero and the next is not, the node gets the identity of that draw
    and that certificate and key, and the store holds its secret. *)
Theorem identity_created (p : IdentityProvider) n id rest c k (w w1 w2 : W)
    (Hget : get_secret w = (w1, Ok None))
    (Hgen : generate_simple_self_signed (subject_names p) w1 = (w2, inr (c, k)))
    (Hlen : validate_lengths (len c) (len k) = Ok tt) (Hpair : validate_key_pair c k = Ok tt)
    (Hid : len id = 16) (Hz : id <> zero_id)
    (Hset : forall s, exists w3, set_secret s w2 = (w3, Ok tt)) :
  let m := {| node_id := id; certificate_chain := [c]; private_key := k |} in
  exists w' s, load_or_create p (replicate n (inr zero_id) ++ inr id :: rest) w = (w', Some (Ok m)) /\
    encode_secret m = Ok s /\ stored w' = Some s.
Proof.
  intros m. assert (exists s, encode_secret m = Ok s) as [s He].
  { unfold encode_secret, m. cbn [certificate_chain private_key]. rewrite Hlen. cbn [obind].
    apply lengths_ok in Hlen as (_&?&_&?). unfold MAX_CERTIFICATE_BYTES, MAX_PRIVATE_KEY_BYTES in *.
    unfold to_u32, umax. rewrite !(proj2 (Z.leb_le _ _)) by lia. by eexists. }
  destruct (Hset s) as [w3 Hw]. exists w3, s. split_and!; [|done|].
  - unfold load_or_create, generate_identity. rewrite Hget, Hgen.
    assert (random_node_id (replicate n (inr zero_id) ++ inr id :: rest) = Some (Ok id)) as ->.
    { induction n as [|n IH]; simpl; [by rewrite bool_decide_false|exact IH]. }
    fold m. rewrite He, Hw. do 2 f_equal. by apply (encode_decoded s m c).
  - apply set_law in Hw as [[_ Hw]|[[e ?] _]]; done.
Qed.
End Stable.

(** ** A store in memory, with keys that are their own public keys. *)
Module Memory.
#[export] Instance plain_keys : KeyFormats := {|
  parse_x509_certificate c := inr ([], c);
  subject_public_key_info k := inr k;
|}.

#[export] Instance memory_store : SecureSecretStore (option bytes) := {|
  get_secret w := (w, Ok w);
  set_secret s _ := (Some s, Ok tt);
|}.

#[export] Instance plain_certificates : SelfSigned (option bytes) := {|
  generate_simple_self_signed _ w := (w, inr ([7; 8], [7; 8]));
|}.

#[export] Instance memory_law : StoreLaw (option bytes).
Proof.
  refine {| stored := fun w => w |}.
  - intros w w' o [= <- <-]. by split; [|left].
  - intros s w w' o [= <- <-]. by left.
  - by intros names w w' o [= <- _].
Defined.

Definition id : bytes := replicate 16 5.
Definition material : IdentityMaterial :=
  {| node_id := id; certificate_chain := [[7; 8]]; private_key := [7; 8] |}.
Definition secret : bytes :=
  SECRET_MAGIC ++ id ++ [0; 0; 0; 2; 0; 0; 0; 2; 7; 8; 7; 8].
Definition provider : IdentityProvider := {| subject_names := ["localhost"%string] |}.
End Memory.

Section Witnesses.
Import Memory.

Lemma secret_exact_witness : bytes_ok secret /\ decode_secret secret = Ok material.
Proof.
  assert (Hs : bytes_ok secret).
  { unfold bytes_ok. vm_compute. repeat (apply Forall_cons_2; [split; [discriminate|reflexivity]|]). apply Forall_nil_2. }
  split; [exact Hs|]. apply (secret_exact secret Hs). split_and!; [by vm_compute|by vm_compute|done|].
  exists [7; 8]. by split; vm_compute.
Defined.

Lemma identity_stable_witness : exists w', load_or_create provider [inr zero_id; inr id] None = (w', Some (Ok material)) /\
  exists s, stored w' = Some s.
Proof.
  assert (Hl : load_or_create provider [inr zero_id; inr id] None = (Some secret, Some (Ok material)))
    by (by vm_compute).
  exists (Some secret). split; [exact Hl|].
  destruct (identity_stable provider [inr zero_id; inr id] None _ _ Hl) as (_&_&Hm).
  destruct (Hm material eq_refl) as (s&Hs&_). by exists s.
Defined.

Lemma identity_created_witness : exists w' s,
  load_or_create provider [inr zero_id; inr id] None = (w', Some (Ok material)) /\
  encode_secret material = Ok s /\ stored w' = Some s.
Proof.
  apply (identity_created provider 1 id [] [7; 8] [7; 8] None None None); try done; try by vm_compute.
  intros s. by exists (Some s).
Defined.
End Witnesses.

Example duplicate_names : validate_subject_names ["node.local"%string; " node.local"%string] =
  invalid "identity subject names contain duplicates".
Proof. by vm_compute. Qed.

Example key_mismatch : decode_secret (H := Memory.plain_keys)
  (SECRET_MAGIC ++ Memory.id ++ [0; 0; 0; 2; 0; 0; 0; 2; 7; 8; 7; 9]) =
  identity_error "identity certificate and private key do not match".
Proof. by vm_compute. Qed.
